(* ===== verification/_CoqProject ===== *)
-Q . S2P
Prelude.v
Bytes.v
StdMap.v
Float.v
Serial.v
Subscription.v
Message.v
NCMessage.v
Coding.v
Recoder.v
Decoder.v
Consumer.v
NetManager.v
AddrText.v
UdpHandler.v
NetUdp.v
NCHandler.v
Listener.v
VastBuffer.v
NetInterface.v
VastNet.v
VastSend.v
VastReceive.v
VastJoin.v
VastLink.v
VastExamples.v
NetEmu.v
MessageQueue.v
Routing.v
QueueSafe.v
Readable.v
Handlers.v
Client.v
ClientSafe.v
ClientSpec.v
ClientFlow.v
Geometry.v
Sweep.v
BeachLine.v
SweepParts.v
SweepSafe.v
SweepSpec.v
Relay.v
RelaySafe.v
RelayHandle.v
RelaySpec.v
Node.v
Built.v
Gateway.v
GatewaySafe.v
GatewayProtocol.v
GatewaySpec.v
GatewayExamples.v
VonInterfaces.v
VoronoiSF.v
VoronoiSFSafe.v
VonPeer.v
VonSafe.v
VonSpec.v
VonExamples.v
VonLinks.v
VSOTypes.v
VSOPeer.v
VSOSafe.v
VSOSpec.v
VSOProtocol.v
VSOExamples.v
MatcherHost.v
Matcher.v
MatcherHandle.v
MatcherSafe.v
MatcherRun.v
MatcherView.v
MatcherSpec.v
MatcherExamples.v
Verse.v
VerseLife.v
VerseSafe.v
VerseSpec.v
VerseExamples.v
