(* ===== verification/Prelude.v ===== *)
(** * VAST with network coding: a verification library

    The repository is VAST, a middleware for spatial publish/subscribe over a
    peer-to-peer overlay, with a transport that recovers lost datagrams by network
    coding: the hosts send each datagram, uncoded, to its destination and to a coding
    host, which multicasts combinations of two datagrams of different hosts; a host that
    has one of the two recovers the other. This library models the data types, the
    coding, the UDP transport, the message layer and queue, the relay and client, the
    Voronoi-based overlay, and the matcher with its gateway part, and proves what makes
    them correct.

    ** Parts and files

    Shared (no component of their own):
    - Prelude.v: outcomes of a C++ call with their monad, fixed-width integers, lists;
      Bytes.v: reading and writing memory through a pointer, little-endian integers;
      StdMap.v: [std::map] and [std::multimap]; Float.v: IEEE-754 from [SpecFloat].

    Data (common/VASTTypes.h):
    - Serial.v: the interface [Serializable] as a class with laws, [IPaddr], [Addr],
      [Position], [Area]; Subscription.v: [StatType], [Node], [Subscription];
      Message.v: [Message]; AddrText.v: addresses as text. Theorems: every wire format
      and the text of an address round-trip, items stored in a
      message are extracted again, a visibility round of a subscription reports exactly
      what changed, statistics are sums and extrema.

    Network coding (VASTnet/udpncmessage.cpp, udpnc_packet_factory.cpp,
    udpNC_decoder.cpp, net_udpnc_consumer.cpp, net_udpnc_mchandler.cpp,
    net_udpNC_handler.cpp; coding_host/udpncrecoder.cpp, packet_listener.cpp):
    - NCMessage.v: packets and their headers; Coding.v: the third-party coder and the
      CRC as parameters with laws; Recoder.v: the pool of the coding host;
      Decoder.v: the pool of a client and the recovery of a lost packet; Consumer.v: the
      blocking queue and the ordering of packets; NCHandler.v: the client's two
      handlers; Listener.v: the coding host. Theorems: what the recoder emits and that no
      run of the coding host fails; a lost packet is recovered from a coded one and its
      messages are delivered; without loss the whole is a FIFO channel.

    UDP (VASTnet/net_manager.cpp, net_udp_handler.cpp, net_udp.cpp):
    - NetManager.v: host ids, the VAST header, the base class and the callback interface
      ([AbstractNetUdp]); UdpHandler.v: the handler, proved against that interface;
      NetUdp.v: the manager with its mutex, which implements it. Theorems: a datagram
      is delivered message by message in order, ids and addresses determine each other,
      disconnections are notified; and where operations deadlock or read out of bounds.

    The message layer (VASTnet/VASTnet.cpp, common/VASTnet.h, common/VASTBuffer.h):
    - VastBuffer.v: the growing buffer; NetInterface.v: what [VASTnet] requires of a
      binding, a class of operations and a class of laws; VastNet.v: the class
      [VASTnet], operation by operation; VastSend.v: sending, flushing, statistics;
      VastReceive.v: reassembly and the order of delivery; VastJoin.v: host ids and
      joining; VastLink.v: the UDP manager satisfies the laws, and two hosts end to end;
      VastExamples.v: concrete hosts, on which these theorems are applied.
    - NetEmu.v: the emulated network of a simulation (VASTnet/net_emu.cpp,
      net_emubridge.cpp), hosts of one process that point to each other. It satisfies the
      laws but for the order of what is put back, which is received last; messages cross
      in two ticks.

    The message queue (VASTnet/MessageQueue.cpp, VASTnet/MessageHandler.cpp):
    - MessageQueue.v: the queue, and its handlers behind an interface; Routing.v: what
      sending through the queue does, and which messages handlers are called with;
      QueueSafe.v: sending never fails, and a node whose handlers are safe ([SafeHandler])
      is safe.

    Handlers of a node (VAST/VASTClient.cpp, VAST/VASTRelay.cpp):
    - Readable.v: extracting from any bytes; Handlers.v: message types and what handlers
      share; Client.v: the client; ClientSafe.v, ClientSpec.v, ClientFlow.v: its
      invariant, the abstract map of its neighbors and its clock, what it sends and how it
      turns to the backup matcher; Geometry.v: distances; Relay.v: the relay;
      RelaySafe.v, RelayHandle.v: its invariant and every message it handles;
      RelaySpec.v: queries end, kept messages are delivered, joining completes, the limit
      of clients; Node.v: relay and clients as the handlers of a node, and
      concrete nodes.

    The gateway (VAST/VASTMatcher.cpp, the members used on the gateway only):
    - Built.v: messages built item by item for one target; Gateway.v: worlds, their origin
      matchers, candidates and waiting clients, operation by operation; GatewaySafe.v: it
      never fails and its loops end; GatewayProtocol.v: the gateway as a step relation, with
      the invariant that worlds and live origins correspond; GatewaySpec.v: a world is
      created for a client end to end, an origin is replaced, clocks are exchanged, and how
      a lost promotion blocks a world; GatewayExamples.v: a concrete gateway.

    The overlay (VAST/VONPeer.cpp, common/VoronoiSF.cpp, common/VoronoiSFAlgorithm.cpp):
    - VonInterfaces.v: what a peer requires of a diagram and of the network, classes of
      operations and of laws, and that the matcher's queue gives the latter; Geometry.v: the
      plane, besides distances; Sweep.v: Fortune's sweep, which computes a diagram, with its
      state in arenas; BeachLine.v and SweepParts.v: the linked halfedges, the queue of
      events and the output, each with its invariant; SweepSafe.v: the invariant of all
      together, which the searches and the two kinds of events keep; SweepSpec.v: a sweep
      ends, with a whole diagram; VoronoiSF.v: the sites with the cached diagram, and the
      queries on it; VoronoiSFSafe.v: they satisfy the laws, and enclosing neighbors are
      mutual and connect all peers;
      VonPeer.v: the peer, operation by operation; VonSafe.v: its invariant;
      VonSpec.v: whom a move tells what, which moves are followed, when a node is told of
      another, which nodes are dropped, any run of a peer is safe, and the search for a free
      position ends; VonExamples.v: overlays of two and three peers, from joining
      to a move, with the sweep and an insertion sort.

    Ownership (VAST/VSOPeer.cpp, on top of the VON peer):
    - VonLinks.v: what the operations of the VON peer leave of its nodes and diagram;
      VSOTypes.v: message types, shared objects, transfers, and the policy (VSOPolicy.h)
      as a class of operations and one of laws; VSOPeer.v: the peer, operation by
      operation; VSOSafe.v: its invariant and that every operation keeps it; VSOSpec.v:
      checking who owns what is a timer automaton for each object; VSOProtocol.v: objects
      are handed over and claimed in time, a hand-over between two peers leaves one
      owner, what happens under overload and when a peer departs; VSOExamples.v: concrete
      peers.

    The matcher (VAST/VASTMatcher.cpp, the whole class):
    - MatcherHost.v: its members, and the two interfaces of the peer ([VONNetwork],
      [VSOPolicy]) on them and the message queue; Matcher.v: subscriptions, who sees whom,
      joining, the tasks of a cycle; MatcherHandle.v: its messages; MatcherSafe.v: its
      invariant, and that the two interfaces satisfy their laws; MatcherRun.v: any run of
      a matcher is safe and its subscriptions stay well-typed; MatcherView.v: the search
      for neighbors computes the relation [sees], and a client that gets the notices
      has the list its subscription sees; MatcherSpec.v: copies to other matchers, reports
      to the gateway, publications, messages that wait; MatcherExamples.v: concrete
      matchers.

    The entry point (VAST/VASTVerse.cpp):
    - Verse.v: the class, with relay, matcher and client as the handlers of one queue and
      the application as a class of callbacks; VerseLife.v: sequences of ticks, creations
      and removals, and the events the application is told of; VerseSafe.v: the invariant of an
      instance, and that bringing a node up never fails; VerseSpec.v: what becomes of a
      node that is removed at a bad moment; VerseExamples.v: a gateway that comes up
      from nothing over UDP, runs, and is taken down.

    How they are joined: a peer of the overlay is proved against what it requires of the
    network, the diagram and the policy; MatcherSafe.v discharges these for the matcher's
    state, so that [matcher_never_fails] is about peer and matcher together, over any
    binding with the laws of NetInterface.v and any diagram with those of VonInterfaces.v.

    ** How the code is modelled

    - An operation is a function from the state before to the state after, in the
      [outcome] monad when it can fail: an access outside a buffer, [front ()] of an
      empty vector, an exception, a lock that is never released. Objects the code
      mutates through pointers (messages, buffers, the binding) are values that are
      passed in and returned. Threads are turns: a whole operation of one thread runs
      between those of another; mutexes are modelled where an operation holds one
      across a call ([net_udp]).
    - Integers are [Z] with the wrap-around of their width ([u8] ... [u64]); sizes and
      indices that cannot wrap are [nat]. Bit fields are laid out as on x86-64, the
      target of the Makefiles: first field in the low bits, little endian.
    - Memory the code leaves uninitialised is an argument named [junk] where it can be
      read; bytes of freshly allocated memory are written [x00] and no theorem depends
      on them. The clock ([now]) is constant within an operation, since all callers read
      it in one turn; [g_MS_PER_TIMESTEP] is the argument [ms], the result of [rand ()]
      an index.
    - A [UDPNCMessage] passed by value is passed as it is: the copy constructor is the
      member-wise one. Allocation succeeds; freeing is left out.
    - Logging, printing and the measurement hooks are left out.
    - Third-party code: kodo's encoder and decoder and boost's CRC are parameters
      (Coding.v); their laws are those of linear coding over a field, and [XorCoder]
      satisfies them. C's [qsort] is a parameter of Sweep.v that permutes (with NaNs the
      comparison is no order, and the standard promises nothing). boost's [send_to] takes
      the whole datagram (VastLink.v).
    - The conversion of a [double] that is out of range to [int] is undefined; it is what
      x86-64 computes ([int_of_f64]), and no theorem depends on it.

    ** Fuel

    - [sendMessage] recurses through [validateConnection] and [sendHandshake]:
      [SEND_DEPTH] is 2, and [sendMessage_queues] shows that more changes nothing,
      since a handshake goes to a host that is connected by then (unless the target is
      the id 0, which is excluded there).
    - [process] loops while the binding delivers, and requeues what is left of a byte
      string: [stream_reassembled] shows that the number of byte strings plus that of
      messages is enough.
    - [processMessages] runs until the queue is empty or its time is over: the argument
      [time] is that number of messages, and every theorem holds for any.
    - [promote] uses up one candidate per turn, so that the number of matchers is enough;
      [free_world] tries each of the 2^16 worlds once ([free_world_finds]).
    - [query_loop] asks the closest relay again and again: a turn that goes on has removed
      a relay, so that one more turn than there are relays is enough ([query_loop_ok]).
    - [randomSet] draws until it has enough elements: [rich] says that [rand ()] reaches
      every index while it runs.
    - [overlap_loop] steps to the right while a node is in the way: among one more position
      than there are nodes one is free, unless two are equal and the search never ends
      ([overlap_ends], [overlap_for_ever]).
    - [promote_one] (VSO_INSERT) takes a candidate off the policy per turn; its fuel, the
      number of matchers the gateway knows, is enough since each is a candidate at most
      once. [see_all] has a turn per subscription.
    - [matcher_never_fails] and [peer_run_safe] allow the outcome [Diverges] only for
      the search for a free position and that for a free world, which can be endless in
      the code.
    - [socket_loop] and [message_loop] take one received message per turn: as many turns as
      there are messages are enough ([tick_never_fails]).
    - [sweep_loop] has one event per turn. A site makes the beach line longer by two, an
      intersection makes it shorter by one, so that three turns per site after the first
      are enough ([sweep_loop_ok]). [ELsearch] ends at the left end, [go_right] and
      [go_left] at the ends of the line, [next_bucket] at an event that is waiting
      ([search_ok], [walk_ok], [next_bucket_ok]).
    - [consume] is the loop of the consumer's thread, one turn per unit:
      [consume_drains_fifo]. [process_frames] reads four bytes at least per turn, so
      that the length of the buffer is enough.

    ** Not modelled

    Opening sockets, multicast groups, timers and the asio loops (I/O); the thread that calls
    [tick] (VASTThread); the binding over ACE and the
    emulation with limited bandwidth, which is never created; statistics logging, simulation, demos; [vivaldi ()] of the relay, whose result the code overwrites; the
    memory pools of the sweep, of which nothing is freed, and the drawing of diagrams. That
    the lines of a sweep are those of the Voronoi diagram is not proved: its coordinates are
    rounded, and only what holds for every rounding is. The peer of the overlay fails after a farewell or a
    disconnection in its own name, and one that owns objects after a list that names it; these messages
    are excluded ([not_own_farewell], [decent], [proper]; [own_farewell_fails], [own_listing_fails]). *)

From Stdlib Require Export ZArith Lia.
From stdpp Require Export base decidable numbers list fin_maps gmap.

Declare Scope vast_scope.
Delimit Scope vast_scope with vast.

(** ** Outcomes

    What a C++ call can do besides returning: access memory outside a buffer
    (or call [front ()] on an empty container), which is undefined behaviour,
    or throw one of the standard exceptions the code throws. *)

Inductive fault :=
  | OutOfBounds      (* read or write outside the addressable memory *)
  | EmptyFront       (* front () of an empty vector *)
  | LogicError       (* throw std::logic_error *)
  | LengthError      (* std::length_error, thrown by std::string::resize *)
  | Deadlock         (* lock () of a std::mutex that is never unlocked again *)
  | BadOrder         (* a NaN as the key of a container ordered by [<] *)
  | Diverges.        (* recursion or a loop that did not end within the model's fuel *)

#[export] Instance fault_eq_dec : EqDecision fault.
Proof. solve_decision. Defined.

Inductive outcome (A : Type) :=
  | Ok (a : A)
  | Fail (f : fault).
Arguments Ok {A} a.
Arguments Fail {A} f.

#[export] Instance outcome_ret : MRet outcome := fun A a => Ok a.
#[export] Instance outcome_bind : MBind outcome := fun A B k m =>
  match m with Ok a => k a | Fail f => Fail f end.
#[export] Instance outcome_fmap : FMap outcome := fun A B g m =>
  match m with Ok a => Ok (g a) | Fail f => Fail f end.

Definition is_ok {A} (m : outcome A) : bool :=
  match m with Ok _ => true | Fail _ => false end.

Lemma bind_ok {A B} (a : A) (k : A → outcome B) : (Ok a ≫= k) = k a.
Proof. reflexivity. Qed.

Lemma bind_fail {A B} f (k : A → outcome B) : (Fail f ≫= k) = Fail f.
Proof. reflexivity. Qed.

Lemma bind_inv {A B} (m : outcome A) (k : A → outcome B) b :
  m ≫= k = Ok b → ∃ a, m = Ok a ∧ k a = Ok b.
Proof. destruct m as [a|f]; simpl; [eauto | discriminate]. Qed.

(** Injectivity, without looking into the components *)
Lemma ok2_inv {A B} (a a' : A) (b b' : B) : Ok (a, b) = Ok (a', b') → a = a' ∧ b = b'.
Proof. by intros [= -> ->]. Qed.

Lemma ok3_inv {A B C} (a a' : A) (b b' : B) (c c' : C) : Ok (a, b, c) = Ok (a', b', c') → a = a' ∧ b = b' ∧ c = c'.
Proof. by intros [= -> -> ->]. Qed.

Lemma bind_assoc {A B C} (m : outcome A) (k : A → outcome B) (h : B → outcome C) :
  (m ≫= k) ≫= h = m ≫= (λ a, k a ≫= h).
Proof. by destruct m. Qed.

(** A run that ends in [P], or with one of the faults [F]. *)
Definition outcome_sat {A} (F : fault → Prop) (P : A → Prop) (r : outcome A) : Prop :=
  match r with Ok a => P a | Fail f => F f end.

Lemma sat_bind {A B} F (P : A → Prop) (Q : B → Prop) m k :
  outcome_sat F P m → (∀ a, P a → outcome_sat F Q (k a)) → outcome_sat F Q (m ≫= k).
Proof. destruct m; simpl; auto. Qed.

Lemma sat_mono {A} F (P Q : A → Prop) r : (∀ a, P a → Q a) → outcome_sat F P r → outcome_sat F Q r.
Proof. destruct r; simpl; auto. Qed.

(** [v.front ()], undefined on an empty vector, and [v[0]]. *)
Definition front {A} (l : list A) : outcome A :=
  match l with [] => Fail EmptyFront | x :: _ => Ok x end.

(** [v[i]] without a bounds check. *)
Definition at_idx {A} (l : list A) (i : nat) : outcome A :=
  match l !! i with Some x => Ok x | None => Fail OutOfBounds end.

Lemma at_idx_ok {A} (l : list A) i x : l !! i = Some x → at_idx l i = Ok x.
Proof. unfold at_idx. by intros ->. Qed.

(** ** Machine integers *)

Definition wrap (bits z : Z) : Z := z mod 2 ^ bits.
Abbreviation u8  := (wrap 8).
Abbreviation u16 := (wrap 16).
Abbreviation u32 := (wrap 32).
Abbreviation u64 := (wrap 64).

Definition fits (bits z : Z) : Prop := (0 ≤ z < 2 ^ bits)%Z.

#[export] Instance fits_dec b z : Decision (fits b z).
Proof. unfold fits. apply _. Defined.

Lemma wrap_fits b z : (0 ≤ b)%Z → fits b (wrap b z).
Proof. intros. apply Z.mod_pos_bound. lia. Qed.

Lemma wrap_id b z : fits b z → wrap b z = z.
Proof. apply Z.mod_small. Qed.

Lemma wrap_wrap b z : (0 ≤ b)%Z → wrap b (wrap b z) = wrap b z.
Proof. intros. by apply wrap_id, wrap_fits. Qed.

Lemma wrap_0 b : (0 ≤ b)%Z → wrap b 0 = 0%Z.
Proof. intros. apply Z.mod_0_l. lia. Qed.

Lemma fits_mono b b' z : (0 ≤ b ≤ b')%Z → fits b z → fits b' z.
Proof.
  intros Hb [H0 H1]. split; [done|].
  eapply Z.lt_le_trans; [done|]. apply Z.pow_le_mono_r; lia.
Qed.

(** ** Lists *)

Lemma take_app_len {A} (l k : list A) n : n = length l → take n (l ++ k) = l.
Proof. intros ->. apply take_app_length. Qed.

Lemma drop_app_len {A} (l k : list A) n : n = length l → drop n (l ++ k) = k.
Proof. intros ->. apply drop_app_length. Qed.

Lemma take_replicate_ge {A} n m (x : A) : n ≤ m → take n (replicate m x) = replicate n x.
Proof. intros. rewrite take_replicate. f_equal. lia. Qed.

Lemma filter_none {A} (P : A → Prop) `{∀ x, Decision (P x)} l :
  Forall (λ x, ¬ P x) l → filter P l = [].
Proof. induction 1 as [|x l Hx _ IH]; [done|]. by rewrite filter_cons, decide_False. Qed.

Lemma filter_every {A} (P : A → Prop) `{∀ x, Decision (P x)} l :
  Forall P l → filter P l = l.
Proof. induction 1 as [|x l Hx _ IH]; [done|]. by rewrite filter_cons, decide_True, IH. Qed.

(** Membership of an integer in a vector, as the linear searches of the code. *)
Definition memb (k : Z) (l : list Z) : bool := existsb (Z.eqb k) l.

Lemma memb_true k l : memb k l = true ↔ k ∈ l.
Proof.
  unfold memb. rewrite existsb_exists. setoid_rewrite Z.eqb_eq.
  setoid_rewrite <- list_elem_of_In. split; [intros (x & ? & ->); done | eauto].
Qed.

Lemma memb_false k l : memb k l = false ↔ k ∉ l.
Proof. rewrite <- memb_true. by destruct (memb k l). Qed.

(** ** Automation *)

Create HintDb vast.
Create Rewrite HintDb vast.
#[export] Hint Rewrite @length_app @length_drop @length_take @length_replicate
  @length_cons @length_nil @length_fmap : vast.
#[export] Hint Resolve wrap_fits : vast.

(** Case analysis on the boolean tests of the code, turned into arithmetic. *)
Ltac test_cases :=
  repeat match goal with
  | |- context [Z.eqb ?a ?b] => destruct (Z.eqb_spec a b)
  | |- context [Z.ltb ?a ?b] => destruct (Z.ltb_spec a b)
  | |- context [Z.leb ?a ?b] => destruct (Z.leb_spec a b)
  | |- context [Nat.eqb ?a ?b] => destruct (Nat.eqb_spec a b)
  | |- context [Nat.ltb ?a ?b] => destruct (Nat.ltb_spec a b)
  | |- context [Nat.leb ?a ?b] => destruct (Nat.leb_spec a b)
  end.

(** Split the conjunctions of the goal without unfolding definitions. *)
Ltac splits := repeat match goal with |- _ ∧ _ => split end.

(** Split a successful run [H : m ≫= k = Ok _] into its steps. *)
Ltac run_inv H :=
  let a := fresh "r" in let E := fresh "E" in
  apply bind_inv in H as (a & E & H).

(** Lengths of concatenations, then linear arithmetic. *)
Ltac len := simpl in *; autounfold with vast in *; autorewrite with vast in *; simpl in *; lia.
