(* ===== verification/Bytes.v ===== *)
(** Bytes and memory: little-endian integers (the [memcpy] of an integer to or
    from a buffer on the x86-64 targets of the Makefiles), reading through a
    pointer and writing into a destination buffer, both with the accesses outside
    the addressable memory as faults. *)

From S2P Require Import Prelude.
From Stdlib Require Import Strings.Byte.
Local Open Scope Z_scope.

Abbreviation byte := Init.Byte.byte.

Definition byte_to_Z (b : byte) : Z := Z.of_N (Byte.to_N b).
Definition byte_of_Z (z : Z) : byte :=
  match Byte.of_N (Z.to_N (z mod 256)) with Some b => b | None => Byte.x00 end.

#[export] Instance byte_eq_dec : EqDecision byte := Byte.byte_eq_dec.

Lemma byte_to_Z_fits b : fits 8 (byte_to_Z b).
Proof. unfold fits, byte_to_Z. pose proof (Byte.to_N_bounded b). lia. Qed.

Lemma byte_to_of z : byte_to_Z (byte_of_Z z) = z mod 256.
Proof.
  unfold byte_to_Z, byte_of_Z.
  pose proof (Z.mod_pos_bound z 256 ltac:(lia)) as B.
  destruct (Byte.of_N _) as [b|] eqn:E.
  - apply Byte.to_of_N in E. rewrite E. lia.
  - apply Byte.of_N_None_iff in E. lia.
Qed.

Lemma byte_of_to b : byte_of_Z (byte_to_Z b) = b.
Proof.
  unfold byte_of_Z. pose proof (byte_to_Z_fits b) as B. unfold fits in B.
  rewrite Z.mod_small by lia. unfold byte_to_Z. rewrite N2Z.id.
  by rewrite Byte.of_to_N.
Qed.

Lemma byte_of_Z_mod z : byte_of_Z (z mod 256) = byte_of_Z z.
Proof. unfold byte_of_Z. by rewrite Zmod_mod. Qed.

#[global] Opaque byte_to_Z byte_of_Z.

(** *** Little-endian integers of [n] bytes *)

Fixpoint le_bytes (n : nat) (z : Z) : list byte :=
  match n with
  | O => []
  | S n => byte_of_Z z :: le_bytes n (z / 256)
  end.

Fixpoint le_val (bs : list byte) : Z :=
  match bs with
  | [] => 0
  | b :: bs => byte_to_Z b + 256 * le_val bs
  end.

Lemma length_le_bytes n z : length (le_bytes n z) = n.
Proof. revert z. induction n; simpl; auto. Qed.
#[export] Hint Rewrite length_le_bytes : vast.

Lemma pow_8S n : 2 ^ (8 * Z.of_nat (S n)) = 256 * 2 ^ (8 * Z.of_nat n).
Proof.
  replace (8 * Z.of_nat (S n)) with (8 + 8 * Z.of_nat n) by lia.
  rewrite Z.pow_add_r by lia. done.
Qed.

Lemma le_val_bytes n z : le_val (le_bytes n z) = z mod 2 ^ (8 * Z.of_nat n).
Proof.
  revert z. induction n as [|n IH]; intros z; simpl le_val.
  - by rewrite Z.mod_1_r.
  - rewrite IH, byte_to_of, pow_8S.
    by rewrite Z.rem_mul_r by (try apply Z.pow_nonzero; lia).
Qed.

Lemma le_val_fits bs : 0 ≤ le_val bs < 2 ^ (8 * Z.of_nat (length bs)).
Proof.
  induction bs as [|b bs IH]; simpl le_val; [simpl; lia|].
  simpl length. rewrite pow_8S. pose proof (byte_to_Z_fits b). unfold fits in *. lia.
Qed.

Lemma le_bytes_val bs : le_bytes (length bs) (le_val bs) = bs.
Proof.
  induction bs as [|b bs IH]; simpl; [done|].
  pose proof (byte_to_Z_fits b) as B. unfold fits in B. f_equal.
  - rewrite <- byte_of_Z_mod, Z.mul_comm, Z_mod_plus_full, byte_of_Z_mod.
    apply byte_of_to.
  - rewrite Z.mul_comm, Z_div_plus_full, Z.div_small by lia. apply IH.
Qed.

(** *** Reading: a pointer is the memory from its target to the end of the
    addressable region; [memcpy (&x, p, n); p += n] is [fetch n p]. *)

Definition fetch_bytes (n : nat) (p : list byte) : outcome (list byte * list byte) :=
  if (n <=? length p)%nat then Ok (take n p, drop n p) else Fail OutOfBounds.

Definition fetch (n : nat) (p : list byte) : outcome (Z * list byte) :=
  '(bs, q) ← fetch_bytes n p; Ok (le_val bs, q).

Lemma fetch_bytes_app n bs q : length bs = n → fetch_bytes n (bs ++ q) = Ok (bs, q).
Proof.
  intros H. unfold fetch_bytes. rewrite length_app.
  destruct (Nat.leb_spec n (length bs + length q)); [|lia].
  by rewrite take_app_len, drop_app_len.
Qed.

Lemma fetch_le n z q : fetch n (le_bytes n z ++ q) = Ok (z mod 2 ^ (8 * Z.of_nat n), q).
Proof.
  unfold fetch. rewrite fetch_bytes_app by apply length_le_bytes. simpl.
  by rewrite le_val_bytes.
Qed.

Lemma fetch_le_fits n z q :
  fits (8 * Z.of_nat n) z → fetch n (le_bytes n z ++ q) = Ok (z, q).
Proof. intros H. rewrite fetch_le. by rewrite Z.mod_small. Qed.

Lemma fetch_bytes_inv n p bs q :
  fetch_bytes n p = Ok (bs, q) → p = bs ++ q ∧ length bs = n.
Proof.
  unfold fetch_bytes. destruct (Nat.leb_spec n (length p)); [|done].
  intros [= <- <-]. rewrite take_drop, length_take. split; [done|lia].
Qed.

Lemma fetch_inv n p z q :
  fetch n p = Ok (z, q) →
  ∃ bs, p = bs ++ q ∧ length bs = n ∧ z = le_val bs.
Proof.
  unfold fetch. intros H. run_inv H. destruct r as [bs q'].
  injection H as <- <-. apply fetch_bytes_inv in E as [-> Hl]. eauto.
Qed.

Lemma fetch_fits n p z q : fetch n p = Ok (z, q) → fits (8 * Z.of_nat n) z.
Proof. intros (bs & -> & <- & ->)%fetch_inv. apply le_val_fits. Qed.

Lemma fetch_ok n p : (n ≤ length p)%nat → ∃ z, fetch n p = Ok (z, drop n p).
Proof.
  intros H. unfold fetch, fetch_bytes. destruct (Nat.leb_spec n (length p)); [|lia].
  simpl. eauto.
Qed.

(** *** Writing: [memcpy (buffer + n, bs, len); n += len] with [len = length bs]. *)

Definition cursor : Type := list byte * nat.

Definition put (bs : list byte) (c : cursor) : outcome cursor :=
  let '(mem, n) := c in
  if (n + length bs <=? length mem)%nat
  then Ok (take n mem ++ bs ++ drop (n + length bs) mem, (n + length bs)%nat)
  else Fail OutOfBounds.

Lemma put_put a b c : (put a c ≫= put b) = put (a ++ b) c.
Proof.
  destruct c as [mem n]. unfold put. rewrite length_app.
  destruct (Nat.leb_spec (n + length a) (length mem)); simpl.
  2: { by destruct (Nat.leb_spec (n + (length a + length b)) (length mem)); [lia|]. }
  assert (Hl : length (take n mem ++ a ++ drop (n + length a) mem) = length mem) by len.
  rewrite Hl, Nat.add_assoc.
  destruct (Nat.leb_spec (n + length a + length b) (length mem)); [|done].
  set (tl := drop (n + length a) mem).
  assert (Ht : take (n + length a) (take n mem ++ a ++ tl) = take n mem ++ a)
    by (rewrite app_assoc; apply take_app_len; len).
  assert (Hd : drop (n + length a + length b) (take n mem ++ a ++ tl)
               = drop (n + length a + length b) mem).
  { rewrite app_assoc, drop_app_ge by len. unfold tl. rewrite drop_drop. f_equal. len. }
  by rewrite Ht, Hd, <- !app_assoc.
Qed.

Lemma put_length bs c mem n :
  put bs c = Ok (mem, n) → length mem = length (fst c) ∧ n = (snd c + length bs)%nat.
Proof.
  destruct c as [m k]. unfold put.
  destruct (Nat.leb_spec (k + length bs) (length m)); [|done].
  intros [= <- <-]. split; [|done]. len.
Qed.

Lemma put_start bs mem :
  (length bs ≤ length mem)%nat →
  put bs (mem, 0%nat) = Ok (bs ++ drop (length bs) mem, length bs).
Proof.
  intros H. unfold put. simpl. destruct (Nat.leb_spec (length bs) (length mem)); [|lia].
  done.
Qed.

#[global] Arguments le_bytes : simpl never.
#[global] Arguments le_val : simpl never.
#[global] Arguments fetch : simpl never.
#[global] Arguments fetch_bytes : simpl never.
#[global] Arguments put : simpl never.
