(* ===== verification/StdMap.v ===== *)
(** [std::map] and [std::multimap] with integer keys ([id_t], [packetid_t],
    [msgtype_t], [byte_t], ...): association lists in strictly increasing key
    order, so that [begin ()], [rbegin ()] and iteration are the container's.
    [std::multimap::insert] places a value after the equal keys (C++11). *)

From S2P Require Import Prelude.
From Stdlib Require Import Sorting.Sorted.
Local Open Scope Z_scope.

Section omap.
Context {V : Type}.
Implicit Types (m : list (Z * V)) (k : Z) (v : V).

Definition key_lt (a b : Z * V) : Prop := fst a < fst b.
Definition key_le (a b : Z * V) : Prop := fst a ≤ fst b.

(** The representation invariant of the container. *)
Definition ordered m : Prop := StronglySorted key_lt m.

Fixpoint find k m : option V :=
  match m with
  | [] => None
  | (k', v) :: m => if k =? k' then Some v else find k m
  end.

Definition has k m : bool := match find k m with Some _ => true | None => false end.

(** [m[k] = v] *)
Fixpoint set k v m : list (Z * V) :=
  match m with
  | [] => [(k, v)]
  | (k', v') :: m =>
      if k =? k' then (k, v) :: m
      else if k <? k' then (k, v) :: (k', v') :: m
      else (k', v') :: set k v m
  end.

(** [m.erase (k)] *)
Fixpoint erase k m : list (Z * V) :=
  match m with
  | [] => []
  | (k', v') :: m => if k =? k' then m else (k', v') :: erase k m
  end.

(** [multimap.insert (value_type (k, v))] *)
Fixpoint minsert k v m : list (Z * V) :=
  match m with
  | [] => [(k, v)]
  | (k', v') :: m =>
      if k <? k' then (k, v) :: (k', v') :: m else (k', v') :: minsert k v m
  end.

Lemma ordered_nil : ordered [].
Proof. constructor. Qed.

Lemma ordered_inv p m : ordered (p :: m) → ordered m ∧ Forall (key_lt p) m.
Proof. apply StronglySorted_inv. Qed.

Lemma find_below k m : Forall (λ p, k < fst p) m → find k m = None.
Proof.
  induction 1 as [|[k' v] m Hk _ IH]; simpl in *; [done|].
  destruct (Z.eqb_spec k k'); [lia|done].
Qed.

Lemma find_key_lt p k m : Forall (key_lt p) m → k ≤ fst p → find k m = None.
Proof.
  intros H Hk. apply find_below. eapply Forall_impl; [exact H|].
  unfold key_lt. simpl. lia.
Qed.

Lemma find_set_eq k v m : find k (set k v m) = Some v.
Proof.
  induction m as [|[k' v'] m IH]; simpl; [by rewrite Z.eqb_refl|].
  destruct (Z.eqb_spec k k'); simpl; [by rewrite Z.eqb_refl|].
  destruct (Z.ltb_spec k k'); simpl; [by rewrite Z.eqb_refl|].
  destruct (Z.eqb_spec k k'); [lia|done].
Qed.

Lemma find_set_ne k k' v m : k ≠ k' → find k (set k' v m) = find k m.
Proof.
  intros Hne. induction m as [|[k2 v2] m IH]; simpl.
  - by destruct (Z.eqb_spec k k').
  - destruct (Z.eqb_spec k' k2); simpl.
    + subst. by destruct (Z.eqb_spec k k2).
    + destruct (Z.ltb_spec k' k2); simpl.
      * by destruct (Z.eqb_spec k k').
      * by rewrite IH.
Qed.

Lemma find_set k k' v m :
  find k (set k' v m) = if k =? k' then Some v else find k m.
Proof.
  destruct (Z.eqb_spec k k'); [subst; apply find_set_eq | by apply find_set_ne].
Qed.

Lemma Forall_set (P : Z * V → Prop) k v m :
  P (k, v) → Forall P m → Forall P (set k v m).
Proof.
  intros Hp. induction 1 as [|[k' v'] m Hx Hm IH]; simpl; [by repeat constructor|].
  destruct (k =? k'); [by constructor|]. destruct (k <? k'); by repeat constructor.
Qed.

Lemma ordered_set k v m : ordered m → ordered (set k v m).
Proof.
  induction 1 as [|[k' v'] m Hs IH Hf]; simpl; [by repeat constructor|].
  destruct (Z.eqb_spec k k'); [subst; by constructor|].
  destruct (Z.ltb_spec k k').
  - constructor; [by constructor|]. constructor; [done|].
    eapply Forall_impl; [exact Hf|]. unfold key_lt. simpl. lia.
  - constructor; [done|]. apply Forall_set; [|done]. unfold key_lt. simpl. lia.
Qed.

Lemma Forall_erase (P : Z * V → Prop) k m : Forall P m → Forall P (erase k m).
Proof.
  induction 1 as [|[k' v'] m Hx Hm IH]; simpl; [done|].
  destruct (k =? k'); [done|]. by constructor.
Qed.

Lemma ordered_erase k m : ordered m → ordered (erase k m).
Proof.
  induction 1 as [|[k' v'] m Hs IH Hf]; simpl; [constructor|].
  destruct (k =? k'); [done|]. constructor; [done|]. by apply Forall_erase.
Qed.

Lemma find_erase_eq k m : ordered m → find k (erase k m) = None.
Proof.
  induction 1 as [|[k' v'] m Hs IH Hf]; simpl; [done|].
  destruct (Z.eqb_spec k k').
  - subst. by apply (find_key_lt (k', v')).
  - simpl. by destruct (Z.eqb_spec k k').
Qed.

Lemma find_erase_ne k k' m : k ≠ k' → find k (erase k' m) = find k m.
Proof.
  intros Hne. induction m as [|[k2 v2] m IH]; simpl; [done|].
  destruct (Z.eqb_spec k' k2); simpl.
  - subst. by destruct (Z.eqb_spec k k2).
  - by rewrite IH.
Qed.

Lemma find_In k v m : find k m = Some v → (k, v) ∈ m.
Proof.
  induction m as [|[k' v'] m IH]; simpl; [done|].
  destruct (Z.eqb_spec k k').
  - intros [= ->]. subst. constructor.
  - intros H. constructor. auto.
Qed.

Lemma In_find k v m : ordered m → (k, v) ∈ m → find k m = Some v.
Proof.
  induction 1 as [|[k' v'] m Hs IH Hf]; simpl; [by rewrite elem_of_nil|].
  rewrite elem_of_cons. intros [[= -> ->]|Hin].
  - by rewrite Z.eqb_refl.
  - rewrite Forall_forall in Hf. specialize (Hf _ Hin). unfold key_lt in Hf.
    simpl in Hf. destruct (Z.eqb_spec k k'); [lia|auto].
Qed.

(** Two ordered maps with the same lookups are the same container. *)
Lemma ordered_ext m1 m2 :
  ordered m1 → ordered m2 → (∀ k, find k m1 = find k m2) → m1 = m2.
Proof.
  intros H1. revert m2.
  induction H1 as [|[k v] m1 H1 IH F1]; intros [|[k2 v2] m2] H2 He.
  - done.
  - specialize (He k2). simpl in He. by rewrite Z.eqb_refl in He.
  - specialize (He k). simpl in He. by rewrite Z.eqb_refl in He.
  - apply ordered_inv in H2 as [H2 F2].
    assert (k = k2) as <-.
    { destruct (Z.lt_trichotomy k k2) as [Hlt|[Heq|Hlt]]; [|done|].
      - specialize (He k). simpl in He. rewrite Z.eqb_refl in He.
        destruct (Z.eqb_spec k k2); [lia|].
        rewrite (find_key_lt _ k _ F2) in He; [done|simpl; lia].
      - specialize (He k2). simpl in He. rewrite Z.eqb_refl in He.
        destruct (Z.eqb_spec k2 k); [lia|].
        rewrite (find_key_lt _ k2 _ F1) in He; [done|simpl; lia]. }
    pose proof (He k) as Hk. simpl in Hk. rewrite Z.eqb_refl in Hk.
    injection Hk as ->. f_equal. apply IH; [done|]. intros k'.
    specialize (He k'). simpl in He. destruct (Z.eqb_spec k' k); [|done].
    subst. by rewrite (find_key_lt _ k _ F1), (find_key_lt _ k _ F2).
Qed.

Lemma length_set_new k v m : find k m = None → length (set k v m) = S (length m).
Proof.
  induction m as [|[k' v'] m IH]; simpl; [done|].
  destruct (Z.eqb_spec k k'); [done|]. intros H.
  destruct (k <? k'); simpl; [done|]. by rewrite IH.
Qed.

Lemma length_set_old k v v0 m :
  ordered m → find k m = Some v0 → length (set k v m) = length m.
Proof.
  induction 1 as [|[k' v'] m Hs IH Hf]; simpl; [done|].
  destruct (Z.eqb_spec k k'); [done|]. intros H.
  destruct (Z.ltb_spec k k'); simpl; [|by rewrite IH].
  rewrite (find_key_lt _ k _ Hf) in H; [done|simpl; lia].
Qed.

Lemma length_erase k v m : find k m = Some v → length m = S (length (erase k m)).
Proof.
  induction m as [|[k' v'] m IH]; simpl; [done|].
  destruct (Z.eqb_spec k k'); [done|]. intros H. simpl. by rewrite <- IH.
Qed.

Lemma erase_absent k m : find k m = None → erase k m = m.
Proof.
  induction m as [|[k' v'] m IH]; simpl; [done|].
  destruct (Z.eqb_spec k k'); [done|]. intros H. by rewrite IH.
Qed.

Lemma length_erase_le k m : (length (erase k m) ≤ length m)%nat.
Proof.
  induction m as [|[k' v'] m IH]; simpl; [lia|]. destruct (k =? k'); simpl; lia.
Qed.

(** The multimap keeps its (weak) order; equal keys stay in insertion order. *)
Definition mordered m : Prop := StronglySorted key_le m.

Lemma minsert_Permutation k v m : minsert k v m ≡ₚ (k, v) :: m.
Proof.
  induction m as [|[k' v'] m IH]; simpl; [done|].
  destruct (k <? k'); [done|]. rewrite IH. apply Permutation_swap.
Qed.

Lemma mordered_minsert k v m : mordered m → mordered (minsert k v m).
Proof.
  induction 1 as [|[k' v'] m Hs IH Hf]; simpl; [by repeat constructor|].
  destruct (Z.ltb_spec k k').
  - constructor; [by constructor|]. constructor; [unfold key_le; simpl; lia|].
    eapply Forall_impl; [exact Hf|]. unfold key_le. simpl. lia.
  - constructor; [done|]. rewrite minsert_Permutation.
    constructor; [unfold key_le; simpl; lia|done].
Qed.

Lemma filter_all_above m k :
  Forall (λ p, k < fst p) m → filter (λ p, fst p = k) m = [].
Proof.
  induction 1 as [|p m Hp _ IH]; [done|]. rewrite filter_cons_False; [done|lia].
Qed.

Lemma filter_minsert_eq k v m :
  mordered m →
  filter (λ p, fst p = k) (minsert k v m) = filter (λ p, fst p = k) m ++ [(k, v)].
Proof.
  induction 1 as [|[k' v'] m Hs IH Hf]; simpl.
  - by rewrite filter_cons_True.
  - destruct (Z.ltb_spec k k').
    + rewrite filter_cons_True by done. rewrite (filter_all_above ((k', v') :: m)); [done|].
      constructor; [done|]. eapply Forall_impl; [exact Hf|].
      unfold key_le. simpl. lia.
    + rewrite !filter_cons, IH. by destruct (decide _).
Qed.

Lemma filter_minsert_ne k k' v m :
  k' ≠ k → filter (λ p, fst p = k) (minsert k' v m) = filter (λ p, fst p = k) m.
Proof.
  intros Hne. induction m as [|[k2 v2] m IH]; simpl; [by rewrite filter_cons_False|].
  destruct (k' <? k2); [by rewrite filter_cons_False|]. rewrite !filter_cons, IH. done.
Qed.

(** A sequence of insertions sorts by key and keeps the order of equal keys. *)
Lemma foldl_minsert (l : list (Z * V)) m :
  mordered m →
  let q := foldl (λ q x, minsert (fst x) (snd x) q) m l in
  mordered q ∧ q ≡ₚ m ++ l
  ∧ ∀ k, filter (λ p, fst p = k) q = filter (λ p, fst p = k) m ++ filter (λ p, fst p = k) l.
Proof.
  cbv zeta. revert m. induction l as [|[k v] l IH]; intros m Hm; cbn [foldl fst snd].
  { rewrite app_nil_r. split; [done|]. split; [done|]. intros k. by rewrite app_nil_r. }
  destruct (IH (minsert k v m) (mordered_minsert k v m Hm)) as (O & P & F).
  split; [done|]. split.
  - rewrite P, minsert_Permutation. cbn. by rewrite Permutation_middle.
  - intros k'. rewrite F, filter_cons. cbn [fst]. destruct (decide (k = k')) as [->|Hne].
    + by rewrite filter_minsert_eq, <- app_assoc.
    + by rewrite filter_minsert_ne.
Qed.
(** *** Keys *)

Lemma has_keys k m : has k m = true ↔ k ∈ (fst <$> m).
Proof.
  unfold has. induction m as [|[k' v] m IH]; cbn [find]; [by split; [|intros ?%elem_of_nil]|].
  rewrite fmap_cons, elem_of_cons. cbn [fst]. destruct (Z.eqb_spec k k') as [->|Hne]; [by split; [left|]|].
  rewrite IH. split; [by right|]. by intros [|].
Qed.

Lemma has_find k m : has k m = true → ∃ v, find k m = Some v.
Proof. unfold has. destruct (find k m) as [v|]; [by exists v|done]. Qed.

Lemma ordered_nodup m : ordered m → NoDup (fst <$> m).
Proof.
  induction 1 as [|[k v] m H IH F]; [constructor|]. rewrite fmap_cons. constructor; [|done].
  cbn [fst]. rewrite <- has_keys. unfold has. by rewrite (find_key_lt (k, v)).
Qed.

Lemma keys_set_new k v m : has k m = false → fst <$> set k v m ≡ₚ k :: (fst <$> m).
Proof.
  unfold has. induction m as [|[k' v'] m IH]; cbn [find set]; [done|].
  destruct (Z.eqb_spec k k') as [->|Hne]; [done|]. intros Hk. destruct (k <? k'); [done|].
  rewrite !fmap_cons, IH by done. cbn [fst]. constructor.
Qed.

Lemma keys_set_old k v m : ordered m → has k m = true → fst <$> set k v m = fst <$> m.
Proof.
  unfold has. induction 1 as [|[k' v'] m Ho IH F]; cbn [find set]; [done|].
  destruct (Z.eqb_spec k k') as [->|Hne]; [done|]. intros Hk. destruct (Z.ltb_spec k k').
  - by rewrite (find_key_lt (k', v')) in Hk by (done || cbn; lia).
  - by rewrite !fmap_cons, IH.
Qed.

Lemma keys_erase k m : has k m = true →
  fst <$> m ≡ₚ k :: (fst <$> erase k m).
Proof.
  unfold has. induction m as [|[k' v'] m IH]; cbn [find erase]; [done|].
  destruct (Z.eqb_spec k k') as [->|Hne]; [done|]. intros Hk.
  rewrite !fmap_cons, IH by done. cbn [fst]. constructor.
Qed.

Lemma has_erase k k' m : k ≠ k' → has k (erase k' m) = has k m.
Proof. intros Hne. unfold has. by rewrite find_erase_ne. Qed.

Lemma has_set k k' v m : has k (set k' v m) = (k =? k') || has k m.
Proof. unfold has. rewrite find_set. by destruct (k =? k'). Qed.
End omap.

(** The order is that of the keys. *)
Lemma ordered_keys {V W} (m : list (Z * V)) (m' : list (Z * W)) : fst <$> m' = fst <$> m → ordered m → ordered m'.
Proof.
  unfold ordered. revert m'. induction m as [|[k v] m IH]; intros [|[k' v'] m'] E O; try done; [constructor|].
  injection E as -> E. apply StronglySorted_inv in O as [O F]. constructor; [by apply IH|].
  clear IH O. revert m' E. induction F as [|[j w] m Hj F IH]; intros [|[j' w'] m'] E; try done; constructor.
  - injection E as -> E. exact Hj.
  - injection E as _ E. by apply IH.
Qed.

#[export] Hint Resolve ordered_nil ordered_set ordered_erase mordered_minsert : vast.


(** A lookup in the container is a lookup in the finite map it denotes. *)
Definition to_gmap {V} (m : list (Z * V)) : gmap Z V := list_to_map m.

Lemma to_gmap_find {V} (m : list (Z * V)) k : to_gmap m !! k = find k m.
Proof.
  unfold to_gmap. induction m as [|[k' v] m IH]; simpl; [apply lookup_empty|].
  destruct (Z.eqb_spec k k') as [->|Hne].
  - apply lookup_insert_eq.
  - by rewrite lookup_insert_ne by done.
Qed.

Lemma to_gmap_set {V} (m : list (Z * V)) k v : to_gmap (set k v m) = <[k:=v]> (to_gmap m).
Proof.
  apply map_eq. intros k'. rewrite to_gmap_find, find_set.
  destruct (Z.eqb_spec k' k) as [->|Hne]; [by rewrite lookup_insert_eq|].
  by rewrite lookup_insert_ne, to_gmap_find.
Qed.
