(* ===== verification/Float.v ===== *)
(** [float] ([coord_t]) and [double] of the x86-64 targets: IEEE-754 binary32 and
    binary64, through the executable specification of the Standard Library
    ([SpecFloat]). A [coord_t] stored in an object is its 32-bit pattern, because
    the code copies it with [memcpy]; comparisons and arithmetic decode it. *)

From S2P Require Import Prelude.
From Stdlib Require Import Floats.SpecFloat.
Local Open Scope Z_scope.

(** The value a 32-bit pattern denotes. *)
Definition f32_of_bits (b : Z) : spec_float :=
  let s := Z.testbit b 31 in
  let e := Z.land (Z.shiftr b 23) 255 in
  let m := Z.land b 8388607 in
  if e =? 0 then
    match m with Zpos p => S754_finite s p (-149) | _ => S754_zero s end
  else if e =? 255 then (if m =? 0 then S754_infinity s else S754_nan)
  else match m + 8388608 with Zpos p => S754_finite s p (e - 150) | _ => S754_nan end.

(** [a == b] on [coord_t]: NaN differs from everything, the two zeros are equal. *)
Definition coord_eqb (a b : Z) : bool := SFeqb (f32_of_bits a) (f32_of_bits b).

(** Conversions of an unsigned integer to [double] and of a [double] to [float]. *)
Definition f64_of_Z (z : Z) : spec_float := binary_normalize 53 1024 z 0 false.

Definition f32_of_f64 (x : spec_float) : spec_float :=
  match x with
  | S754_finite s m e => binary_normalize 24 128 (if s then Zneg m else Zpos m) e s
  | _ => x
  end.

Definition f64_div : spec_float → spec_float → spec_float := SFdiv 53 1024.

(** The pattern has no NaN in it: exponent field not all ones. *)
Definition coord_finite (b : Z) : bool := negb (Z.land (Z.shiftr b 23) 255 =? 255).

Lemma SFeqb_refl x : x ≠ S754_nan → SFeqb x x = true.
Proof.
  unfold SFeqb. destruct x as [s|s| |s m e]; simpl; try done; destruct s; simpl; try done.
  - by rewrite Z.compare_refl, Pos.compare_refl.
  - by rewrite Z.compare_refl, Pos.compare_refl.
Qed.

Lemma coord_eqb_refl b : coord_finite b = true → coord_eqb b b = true.
Proof.
  intros H. apply SFeqb_refl. unfold coord_finite in H. unfold f32_of_bits.
  destruct (Z.land (Z.shiftr b 23) 255 =? 0).
  - by destruct (Z.land b 8388607).
  - destruct (Z.land (Z.shiftr b 23) 255 =? 255); [done|].
    assert (0 ≤ Z.land b 8388607) by (apply Z.land_nonneg; lia).
    destruct (Z.land b 8388607 + 8388608) eqn:E; [lia|done|lia].
Qed.

#[global] Arguments f32_of_bits : simpl never.
#[global] Arguments coord_eqb : simpl never.
#[global] Arguments f64_of_Z : simpl never.
#[global] Arguments f64_div : simpl never.
