(* ===== verification/Serial.v ===== *)
(** The [Serializable] interface of common/VASTTypes.h and the data classes that
    implement it: [IPaddr], [Addr], [Position], [Area], [Node], [StatType]. The class
    [Serializable] holds the three virtual functions; [SerializableLaws] states what
    [Message] relies on: a fixed wire image of [sizeOf ()] bytes, which
    [deserialize ()] reads back. *)

From S2P Require Import Prelude Bytes Float.
From Stdlib Require Import Floats.SpecFloat.
Local Open Scope Z_scope.
#[local] Obligation Tactic := idtac.

(** A [const char *]: [NULL], or the memory from its target on. *)
Definition ptr : Type := option (list byte).

(** [serialize (buffer)] with a non-[NULL] buffer writes at the cursor and returns
    [sizeOf ()]; with [NULL] it only returns [sizeOf ()]. [deserialize] returns the
    object afterwards and the number of bytes restored. *)
Class Serializable (A : Type) := {
  sizeOf : A → nat;
  serialize : A → cursor → outcome cursor;
  deserialize : A → ptr → nat → outcome (A * nat);
}.

(** [wire x] is the wire image; [merge old x] is the object that deserializing the
    image of [x] into [old] leaves (members that are not sent keep or reset their
    value). *)
Class SerializableLaws (A : Type) `{Serializable A} := {
  valid : A → Prop;
  wire : A → list byte;
  merge : A → A → A;
  wire_length x : length (wire x) = sizeOf x;
  serialize_put x c : serialize x c = put (wire x) c;
  deserialize_wire x old rest n :
    valid x → (sizeOf x ≤ n)%nat →
    deserialize old (Some (wire x ++ rest)) n = Ok (merge old x, sizeOf x);
}.

(** The size check and the [NULL] check that open every [deserialize]. *)
Definition guarded {A} (this : A) (p : ptr) (size need : nat)
    (k : list byte → outcome A) : outcome (A * nat) :=
  match p with
  | Some q => if (need <=? size)%nat then x ← k q; Ok (x, need) else Ok (this, 0%nat)
  | None => Ok (this, 0%nat)
  end.

Lemma guarded_ok {A} (this : A) q size need k x :
  (need ≤ size)%nat → k q = Ok x → guarded this (Some q) size need k = Ok (x, need).
Proof.
  intros H E. unfold guarded. destruct (Nat.leb_spec need size); [|lia]. by rewrite E.
Qed.

#[global] Arguments guarded : simpl never.

(** Read a fixed sequence of integers written by [le_bytes]. *)
Ltac fetch_step :=
  rewrite fetch_le_fits by done; rewrite bind_ok; cbn beta iota.
Ltac put_steps :=
  repeat first [ rewrite put_put | rewrite <- bind_assoc ];
  rewrite <- ?app_assoc; try done.

(** *** IPaddr *)

Record IPaddr := mkIPaddr { host : Z; port : Z; pad : Z }.

Definition IPaddr_null : IPaddr := mkIPaddr 0 0 0.

(** [IPaddr (uint32_t i, uint16_t p)] *)
Definition IPaddr_make (i p : Z) : IPaddr := mkIPaddr (u32 i) (u16 p) 0.

(** [IPaddr (id_t id)] *)
Definition IPaddr_of_id (id : Z) : IPaddr :=
  mkIPaddr (u32 (Z.shiftr id 32)) (u16 (Z.shiftr id 16)) 0.

Definition IPaddr_eqb (a b : IPaddr) : bool := (host a =? host b) && (port a =? port b).

(** [operator<], which orders the keys of [std::map<IPaddr, id_t>] *)
Definition IPaddr_ltb (this adr : IPaddr) : bool :=
  if host adr =? host this then port adr <? port this else host adr <? host this.

Definition IPaddr_sizeOf (_ : IPaddr) : nat := 8.

Definition IPaddr_serialize (a : IPaddr) (c : cursor) : outcome cursor :=
  c ← put (le_bytes 4 (host a)) c;
  c ← put (le_bytes 2 (port a)) c;
  put (le_bytes 2 (pad a)) c.

Definition IPaddr_deserialize (this : IPaddr) (p : ptr) (size : nat) : outcome (IPaddr * nat) :=
  guarded this p size (IPaddr_sizeOf this) (λ p,
    '(h, p) ← fetch 4 p;
    '(pt, p) ← fetch 2 p;
    '(pd, p) ← fetch 2 p;
    Ok (mkIPaddr h pt pd)).

Definition IPaddr_valid (a : IPaddr) : Prop :=
  fits 32 (host a) ∧ fits 16 (port a) ∧ fits 16 (pad a).

#[export] Instance IPaddr_valid_dec a : Decision (IPaddr_valid a).
Proof. unfold IPaddr_valid. apply _. Defined.

#[export] Instance IPaddr_serializable : Serializable IPaddr :=
  { sizeOf := IPaddr_sizeOf; serialize := IPaddr_serialize; deserialize := IPaddr_deserialize }.

#[export] Hint Unfold IPaddr_sizeOf : vast.

#[export] Program Instance IPaddr_laws : SerializableLaws IPaddr := {|
  valid := IPaddr_valid;
  wire a := le_bytes 4 (host a) ++ le_bytes 2 (port a) ++ le_bytes 2 (pad a);
  merge _ a := a |}.
Next Obligation. intros. len. Qed.
Next Obligation. intros. simpl. unfold IPaddr_serialize. put_steps. Qed.
Next Obligation.
  intros [h p d] old rest n (? & ? & ?) Hn. cbn in Hn |- *.
  apply guarded_ok; [done|]. rewrite <- !app_assoc.
  do 3 fetch_step. done.
Qed.

#[export] Instance IPaddr_eq_dec : EqDecision IPaddr.
Proof. solve_decision. Defined.

Lemma IPaddr_eqb_refl a : IPaddr_eqb a a = true.
Proof. unfold IPaddr_eqb. by rewrite !Z.eqb_refl. Qed.

Lemma IPaddr_eqb_true a b : IPaddr_eqb a b = true ↔ host a = host b ∧ port a = port b.
Proof. unfold IPaddr_eqb. rewrite andb_true_iff, !Z.eqb_eq. done. Qed.

Lemma IPaddr_make_valid i p : IPaddr_valid (IPaddr_make i p).
Proof. unfold IPaddr_valid. simpl. split_and!; first [by apply wrap_fits | done]. Qed.

Lemma IPaddr_deserialize_valid this p n a sz :
  IPaddr_valid this → IPaddr_deserialize this p n = Ok (a, sz) → IPaddr_valid a.
Proof.
  intros Hv H. unfold IPaddr_deserialize, guarded in H.
  destruct p as [q|]; [|by injection H as <- _].
  destruct (_ <=? _)%nat; [|by injection H as <- _].
  run_inv H. injection H as <- _.
  do 3 (run_inv E; destruct r0 as [? ?]). injection E as <-.
  apply fetch_fits in E0, E1, E2. done.
Qed.

(** *** Addr *)

Record Addr := mkAddr { host_id : Z; lastAccessed : Z; publicIP : IPaddr }.

Definition Addr_clear (a : Addr) : Addr :=
  mkAddr 0 0 (mkIPaddr 0 0 (pad (publicIP a))).

Definition Addr_null : Addr := Addr_clear (mkAddr 0 0 IPaddr_null).

(** [Addr (id_t i, const IPaddr *pub)] *)
Definition Addr_make (i : Z) (pub : IPaddr) : Addr := mkAddr i 0 pub.

Definition Addr_setPublic (a : Addr) (i p : Z) : Addr :=
  mkAddr (host_id a) (lastAccessed a) (mkIPaddr i p (pad (publicIP a))).

Definition Addr_eqb (a b : Addr) : bool :=
  (host_id a =? host_id b) && IPaddr_eqb (publicIP a) (publicIP b).

Definition Addr_sizeOf (a : Addr) : nat := 8 + 8 + IPaddr_sizeOf (publicIP a).

Definition Addr_serialize (a : Addr) (c : cursor) : outcome cursor :=
  c ← put (le_bytes 8 (host_id a)) c;
  c ← put (le_bytes 8 (lastAccessed a)) c;
  IPaddr_serialize (publicIP a) c.

Definition Addr_deserialize (this : Addr) (p : ptr) (size : nat) : outcome (Addr * nat) :=
  guarded this p size (Addr_sizeOf this) (λ p,
    '(h, p) ← fetch 8 p;
    '(l, p) ← fetch 8 p;
    '(ip, _) ← IPaddr_deserialize (publicIP this) (Some p) (IPaddr_sizeOf (publicIP this));
    Ok (mkAddr h l ip)).

Definition Addr_valid (a : Addr) : Prop :=
  fits 64 (host_id a) ∧ fits 64 (lastAccessed a) ∧ IPaddr_valid (publicIP a).

#[export] Instance Addr_serializable : Serializable Addr :=
  { sizeOf := Addr_sizeOf; serialize := Addr_serialize; deserialize := Addr_deserialize }.

#[export] Hint Unfold Addr_sizeOf : vast.

#[export] Program Instance Addr_laws : SerializableLaws Addr := {|
  valid := Addr_valid;
  wire a := le_bytes 8 (host_id a) ++ le_bytes 8 (lastAccessed a) ++ wire (publicIP a);
  merge _ a := a |}.
Next Obligation. intros. len. Qed.
Next Obligation. intros. simpl. unfold Addr_serialize, IPaddr_serialize. put_steps. Qed.
Next Obligation.
  intros [h l ip] old rest n (? & ? & ?) Hn.
  apply guarded_ok; [done|]. cbn [host_id lastAccessed publicIP] in *.
  rewrite <- !(app_assoc (le_bytes 8 _)).
  do 2 fetch_step.
  change IPaddr_deserialize with (deserialize (A := IPaddr)).
  by rewrite (deserialize_wire ip).
Qed.

(** *** Position and Area; coordinates are bit patterns of [float]s *)

Record Position := mkPosition { pos_x : Z; pos_y : Z; pos_z : Z }.

Definition Position_clear : Position := mkPosition 0 0 0.

Definition Position_eqb (a b : Position) : bool :=
  coord_eqb (pos_x a) (pos_x b) && coord_eqb (pos_y a) (pos_y b)
  && coord_eqb (pos_z a) (pos_z b).

Definition Position_sizeOf (_ : Position) : nat := 4 * 3.

Definition Position_serialize (a : Position) (c : cursor) : outcome cursor :=
  c ← put (le_bytes 4 (pos_x a)) c;
  c ← put (le_bytes 4 (pos_y a)) c;
  put (le_bytes 4 (pos_z a)) c.

Definition Position_deserialize (this : Position) (p : ptr) (size : nat)
    : outcome (Position * nat) :=
  guarded this p size (Position_sizeOf this) (λ p,
    '(x, p) ← fetch 4 p;
    '(y, p) ← fetch 4 p;
    '(z, p) ← fetch 4 p;
    Ok (mkPosition x y z)).

Definition Position_valid (a : Position) : Prop :=
  fits 32 (pos_x a) ∧ fits 32 (pos_y a) ∧ fits 32 (pos_z a).

#[export] Instance Position_serializable : Serializable Position :=
  { sizeOf := Position_sizeOf; serialize := Position_serialize;
    deserialize := Position_deserialize }.

#[export] Hint Unfold Position_sizeOf : vast.

#[export] Program Instance Position_laws : SerializableLaws Position := {|
  valid := Position_valid;
  wire a := le_bytes 4 (pos_x a) ++ le_bytes 4 (pos_y a) ++ le_bytes 4 (pos_z a);
  merge _ a := a |}.
Next Obligation. intros. len. Qed.
Next Obligation. intros. simpl. unfold Position_serialize. put_steps. Qed.
Next Obligation.
  intros [x y z] old rest n (? & ? & ?) Hn. cbn in Hn |- *.
  apply guarded_ok; [done|]. rewrite <- !app_assoc. do 3 fetch_step. done.
Qed.

Record Area := mkArea { center : Position; radius : Z; height : Z }.

Definition Area_clear : Area := mkArea Position_clear 0 0.

Definition Area_eqb (a b : Area) : bool :=
  Position_eqb (center a) (center b) && (radius a =? radius b) && (height a =? height b).

Definition Area_sizeOf (a : Area) : nat := Position_sizeOf (center a) + 2 * 2.

Definition Area_serialize (a : Area) (c : cursor) : outcome cursor :=
  c ← Position_serialize (center a) c;
  c ← put (le_bytes 2 (radius a)) c;
  put (le_bytes 2 (height a)) c.

Definition Area_deserialize (this : Area) (p : ptr) (size : nat) : outcome (Area * nat) :=
  guarded this p size (Area_sizeOf this) (λ p,
    '(ctr, k) ← Position_deserialize (center this) (Some p) size;
    let p := drop k p in
    '(r, p) ← fetch 2 p;
    '(h, p) ← fetch 2 p;
    Ok (mkArea ctr r h)).

Definition Area_valid (a : Area) : Prop :=
  Position_valid (center a) ∧ fits 16 (radius a) ∧ fits 16 (height a).

#[export] Instance Area_serializable : Serializable Area :=
  { sizeOf := Area_sizeOf; serialize := Area_serialize; deserialize := Area_deserialize }.

#[export] Hint Unfold Area_sizeOf : vast.

#[export] Program Instance Area_laws : SerializableLaws Area := {|
  valid := Area_valid;
  wire a := wire (center a) ++ le_bytes 2 (radius a) ++ le_bytes 2 (height a);
  merge _ a := a |}.
Next Obligation. intros. len. Qed.
Next Obligation. intros. simpl. unfold Area_serialize, Position_serialize. put_steps. Qed.
Next Obligation.
  intros [ctr r h] old rest n (Hc & ? & ?) Hn. simpl in Hn.
  apply guarded_ok; [done|]. cbn [center radius height] in *.
  rewrite <- !(app_assoc (wire ctr)).
  change Position_deserialize with (deserialize (A := Position)).
  rewrite (deserialize_wire ctr) by (done || (cbn in *; unfold Position_sizeOf, Area_sizeOf in *; lia)).
  rewrite bind_ok. cbn beta iota.
  rewrite drop_app_len by (symmetry; apply wire_length). rewrite <- app_assoc.
  do 2 fetch_step. done.
Qed.

#[global] Arguments Position_eqb : simpl never.
#[global] Arguments Area_eqb : simpl never.
