(* ===== verification/Subscription.v ===== *)
(** [StatType], [Node] and [Subscription] of common/VASTTypes.h. A [Subscription]
    keeps, next to its serialized members, the neighbours its owner currently sees
    ([_neighbors]) and what changed in the last round ([_neighbor_states]). *)

From S2P Require Import Prelude Bytes StdMap Float Serial.
From Stdlib Require Import Floats.SpecFloat Sorting.Sorted.
Local Open Scope Z_scope.
#[local] Obligation Tactic := idtac.

(** *** StatType *)

Record StatType := mkStat {
  minimum : Z; maximum : Z; total : Z; num_records : Z;    (* size_t *)
  average : spec_float                                     (* float *)
}.

(** [reset ()] (and the constructor): [minimum] is [(size_t)(-1)]. *)
Definition Stat_reset : StatType := mkStat (u64 (-1)) 0 0 0 (S754_zero false).

Definition calculateAverage (s : StatType) : StatType :=
  let avg := if 0 <? num_records s
             then f32_of_f64 (f64_div (f64_of_Z (total s)) (f64_of_Z (num_records s)))
             else average s in
  let mn := if minimum s =? u64 (-1) then 0 else minimum s in
  mkStat mn (maximum s) (total s) (num_records s) avg.

Definition addRecord (s : StatType) (value : Z) : StatType :=
  if value =? 0 then s else
  mkStat (if value <? minimum s then value else minimum s)
         (if maximum s <? value then value else maximum s)
         (u64 (total s + value)) (u64 (num_records s + 1)) (average s).

Definition Stat_sizeOf (_ : StatType) : nat := 4 * 4.

(** [memcpy (p, &minimum, sizeof (vsize_t))] copies the low 4 bytes of a [size_t]. *)
Definition Stat_serialize (s : StatType) (c : cursor) : outcome cursor :=
  c ← put (le_bytes 4 (minimum s)) c;
  c ← put (le_bytes 4 (maximum s)) c;
  c ← put (le_bytes 4 (total s)) c;
  put (le_bytes 4 (num_records s)) c.

(** [memcpy (&x, p, sizeof (vsize_t))] into a [size_t] [x]: the 4 high bytes stay. *)
Definition set_low32 (x v : Z) : Z := x / 2 ^ 32 * 2 ^ 32 + v.

Definition Stat_deserialize (this : StatType) (p : ptr) (size : nat)
    : outcome (StatType * nat) :=
  guarded this p size (Stat_sizeOf this) (λ p,
    '(mn, p) ← fetch 4 p;
    '(mx, p) ← fetch 4 p;
    '(tot, p) ← fetch 4 p;
    '(nr, p) ← fetch 4 p;
    Ok (calculateAverage
          (mkStat (set_low32 (minimum this) mn) (set_low32 (maximum this) mx)
                  (set_low32 (total this) tot) (set_low32 (num_records this) nr)
                  (average this)))).

#[export] Hint Unfold Stat_sizeOf : vast.

#[export] Instance Stat_serializable : Serializable StatType :=
  { sizeOf := Stat_sizeOf; serialize := Stat_serialize; deserialize := Stat_deserialize }.

(** Deserializing into [this] keeps the high halves of [this]. *)
Definition Stat_merge (this s : StatType) : StatType :=
  calculateAverage
    (mkStat (set_low32 (minimum this) (u32 (minimum s)))
            (set_low32 (maximum this) (u32 (maximum s)))
            (set_low32 (total this) (u32 (total s)))
            (set_low32 (num_records this) (u32 (num_records s))) (average this)).

#[export] Program Instance Stat_laws : SerializableLaws StatType := {|
  valid _ := True;
  wire s := le_bytes 4 (minimum s) ++ le_bytes 4 (maximum s)
            ++ le_bytes 4 (total s) ++ le_bytes 4 (num_records s);
  merge := Stat_merge |}.
Next Obligation. intros. len. Qed.
Next Obligation. intros. simpl. unfold Stat_serialize. put_steps. Qed.
Next Obligation.
  intros s old rest n _ Hn. cbn in Hn |- *. apply guarded_ok; [done|].
  rewrite <- !app_assoc. do 4 (rewrite fetch_le, bind_ok; cbn beta iota). done.
Qed.

(** The reference statistics of a list of recorded values. *)
Definition recorded (l : list Z) : list Z := filter (λ v, v ≠ 0) l.

Definition list_sum (l : list Z) : Z := foldr Z.add 0 l.

Lemma recorded_cons v l :
  recorded (v :: l) = if v =? 0 then recorded l else v :: recorded l.
Proof.
  unfold recorded. rewrite filter_cons. destruct (Z.eqb_spec v 0); by case_decide.
Qed.

(** *** Node *)

Record Node := mkNode { node_id : Z; node_time : Z; node_aoi : Area; node_addr : Addr }.

Definition Node_update (this rhs : Node) : Node :=
  mkNode (node_id rhs) (node_time rhs) (node_aoi rhs) (node_addr rhs).

Definition Node_eqb (a b : Node) : bool :=
  (node_id a =? node_id b) && (node_time a =? node_time b)
  && Area_eqb (node_aoi a) (node_aoi b) && Addr_eqb (node_addr a) (node_addr b).

Definition Node_sizeOf (a : Node) : nat :=
  8 + 8 + Area_sizeOf (node_aoi a) + Addr_sizeOf (node_addr a).

Definition Node_serialize (a : Node) (c : cursor) : outcome cursor :=
  c ← put (le_bytes 8 (node_id a)) c;
  c ← put (le_bytes 8 (node_time a)) c;
  c ← Area_serialize (node_aoi a) c;
  Addr_serialize (node_addr a) c.

Definition Node_deserialize (this : Node) (p : ptr) (size : nat) : outcome (Node * nat) :=
  guarded this p size (Node_sizeOf this) (λ p,
    '(i, p) ← fetch 8 p;
    '(t, p) ← fetch 8 p;
    '(ar, k) ← Area_deserialize (node_aoi this) (Some p) (Area_sizeOf (node_aoi this));
    let p := drop k p in
    '(ad, _) ← Addr_deserialize (node_addr this) (Some p) (Addr_sizeOf (node_addr this));
    Ok (mkNode i t ar ad)).

Definition Node_valid (a : Node) : Prop :=
  fits 64 (node_id a) ∧ fits 64 (node_time a) ∧ Area_valid (node_aoi a)
  ∧ Addr_valid (node_addr a).

#[export] Hint Unfold Node_sizeOf : vast.

#[export] Instance Node_serializable : Serializable Node :=
  { sizeOf := Node_sizeOf; serialize := Node_serialize; deserialize := Node_deserialize }.

(** The parts of an object that are [Area]s and [Addr]s read back. *)
Lemma Area_restore a old rest n :
  Area_valid a → (Area_sizeOf a ≤ n)%nat →
  Area_deserialize old (Some (wire a ++ rest)) n = Ok (a, Area_sizeOf a).
Proof. exact (deserialize_wire a old rest n). Qed.

Lemma Addr_restore a old rest n :
  Addr_valid a → (Addr_sizeOf a ≤ n)%nat →
  Addr_deserialize old (Some (wire a ++ rest)) n = Ok (a, Addr_sizeOf a).
Proof. exact (deserialize_wire a old rest n). Qed.

Lemma length_wire_Area (a : Area) : length (wire a) = Area_sizeOf a.
Proof. exact (wire_length a). Qed.
Lemma length_wire_Addr (a : Addr) : length (wire a) = Addr_sizeOf a.
Proof. exact (wire_length a). Qed.
Lemma bind_put_Area (a : Area) m : m ≫= Area_serialize a = m ≫= put (wire a).
Proof. destruct m as [c|]; [exact (serialize_put a c)|done]. Qed.
Lemma bind_put_Addr (a : Addr) m : m ≫= Addr_serialize a = m ≫= put (wire a).
Proof. destruct m as [c|]; [exact (serialize_put a c)|done]. Qed.
#[export] Hint Rewrite length_wire_Area length_wire_Addr : vast.

#[export] Program Instance Node_laws : SerializableLaws Node := {|
  valid := Node_valid;
  wire a := le_bytes 8 (node_id a) ++ le_bytes 8 (node_time a)
            ++ wire (node_aoi a) ++ wire (node_addr a);
  merge _ a := a |}.
Next Obligation. intros. cbn beta. rewrite !length_app, length_wire_Area, length_wire_Addr. len. Qed.
Next Obligation.
  intros. cbn beta. unfold serialize, Node_serializable, Node_serialize.
  rewrite <- !bind_assoc, bind_put_Addr, bind_put_Area, !put_put, <- !app_assoc. done.
Qed.
Next Obligation.
  intros [i t ar ad] old rest n (? & ? & ? & ?) Hn. cbn in Hn.
  apply guarded_ok; [done|]. cbn [node_id node_time node_aoi node_addr] in *.
  rewrite <- !(app_assoc (le_bytes 8 _)). do 2 fetch_step.
  rewrite <- app_assoc, Area_restore by (done || lia). rewrite bind_ok. cbn beta iota.
  rewrite drop_app_len by by rewrite length_wire_Area.
  by rewrite Addr_restore.
Qed.

(** *** Subscription *)

Inductive NeighborUpdateStatus := INSERTED | DELETED | UNCHANGED | UPDATED.

#[export] Instance NeighborUpdateStatus_eq_dec : EqDecision NeighborUpdateStatus.
Proof. solve_decision. Defined.

Record Subscription := mkSub {
  sub_host_id : Z; sub_id : Z; layer : Z; sub_aoi : Area; relay : Addr;
  active : bool; dirty : bool; in_region : bool; sub_time : Z; world_id : Z;
  neighbor_states : list (Z * NeighborUpdateStatus);     (* _neighbor_states *)
  neighbors : list (Z * Area)                            (* _neighbors *)
}.

(** The constructor: [relay] by its own constructor, [world_id] is not initialised. *)
Definition Sub_init (junk_world : Z) : Subscription :=
  mkSub 0 0 0 Area_clear Addr_null false false false 0 junk_world [] [].

Definition with_neighbors (s : Subscription) st nb : Subscription :=
  mkSub (sub_host_id s) (sub_id s) (layer s) (sub_aoi s) (relay s)
        (active s) (dirty s) (in_region s) (sub_time s) (world_id s) st nb.

Definition Sub_clear (s : Subscription) : Subscription :=
  mkSub 0 0 0 Area_clear (relay s) false false false 0 (world_id s)
        (neighbor_states s) (neighbors s).

Definition addNeighbor (s neighbor : Subscription) : Subscription :=
  let k := sub_id neighbor in
  match find k (neighbors s) with
  | Some a =>
      if negb (Area_eqb a (sub_aoi neighbor))
      then with_neighbors s (set k UPDATED (neighbor_states s))
                            (set k (sub_aoi neighbor) (neighbors s))
      else with_neighbors s (set k UNCHANGED (neighbor_states s)) (neighbors s)
  | None =>
      with_neighbors s (set k INSERTED (neighbor_states s))
                       (set k (sub_aoi neighbor) (neighbors s))
  end.

(** Collect the ids without a state, then erase and mark each of them. *)
Definition remove_list (s : Subscription) : list Z :=
  fst <$> filter (λ p, has (fst p) (neighbor_states s) = false) (neighbors s).

Definition drop_neighbor (s : Subscription) (k : Z) : Subscription :=
  with_neighbors s (set k DELETED (neighbor_states s)) (erase k (neighbors s)).

Definition clearInvisibleNeighbors (s : Subscription) : Subscription :=
  foldl drop_neighbor s (remove_list s).

Definition clearStates (s : Subscription) (neighbor_id : Z) : Subscription :=
  if negb (neighbor_id =? 0)
  then with_neighbors s (neighbor_states s) (erase neighbor_id (neighbors s))
  else mkSub (sub_host_id s) (sub_id s) (layer s) (sub_aoi s) (relay s)
             (active s) (dirty s) false (sub_time s) (world_id s) [] (neighbors s).

Definition clearNeighbors (s : Subscription) : Subscription :=
  with_neighbors s (neighbor_states s) [].

Definition Sub_sizeOf (s : Subscription) : nat :=
  8 * 2 + 2 + Area_sizeOf (sub_aoi s) + Addr_sizeOf (relay s).

Definition Sub_serialize (s : Subscription) (c : cursor) : outcome cursor :=
  c ← put (le_bytes 8 (sub_host_id s)) c;
  c ← put (le_bytes 8 (sub_id s)) c;
  c ← put (le_bytes 2 (layer s)) c;
  c ← Area_serialize (sub_aoi s) c;
  Addr_serialize (relay s) c.

Definition Sub_deserialize (this : Subscription) (p : ptr) (size : nat)
    : outcome (Subscription * nat) :=
  guarded this p size (Sub_sizeOf this) (λ p,
    '(h, p) ← fetch 8 p;
    '(i, p) ← fetch 8 p;
    '(l, p) ← fetch 2 p;
    '(ar, k) ← Area_deserialize (sub_aoi this) (Some p) (Area_sizeOf (sub_aoi this));
    let p := drop k p in
    '(ad, _) ← Addr_deserialize (relay this) (Some p) (Addr_sizeOf (relay this));
    Ok (mkSub h i l ar ad false false false 0 0 (neighbor_states this) (neighbors this))).

Definition Sub_valid (s : Subscription) : Prop :=
  fits 64 (sub_host_id s) ∧ fits 64 (sub_id s) ∧ fits 16 (layer s)
  ∧ Area_valid (sub_aoi s) ∧ Addr_valid (relay s).

#[export] Hint Unfold Sub_sizeOf : vast.

#[export] Instance Sub_serializable : Serializable Subscription :=
  { sizeOf := Sub_sizeOf; serialize := Sub_serialize; deserialize := Sub_deserialize }.

#[export] Program Instance Sub_laws : SerializableLaws Subscription := {|
  valid := Sub_valid;
  wire s := le_bytes 8 (sub_host_id s) ++ le_bytes 8 (sub_id s) ++ le_bytes 2 (layer s)
            ++ wire (sub_aoi s) ++ wire (relay s);
  merge old s := mkSub (sub_host_id s) (sub_id s) (layer s) (sub_aoi s) (relay s)
                       false false false 0 0 (neighbor_states old) (neighbors old) |}.
Next Obligation. intros. cbn beta. rewrite !length_app, length_wire_Area, length_wire_Addr. len. Qed.
Next Obligation.
  intros. cbn beta. unfold serialize, Sub_serializable, Sub_serialize.
  rewrite <- !bind_assoc, bind_put_Addr, bind_put_Area, !put_put, <- !app_assoc. done.
Qed.
Next Obligation.
  intros s old rest n (? & ? & ? & ? & ?) Hn. cbn in Hn.
  apply guarded_ok; [done|].
  rewrite <- !(app_assoc (le_bytes 8 _)), <- (app_assoc (le_bytes 2 _)).
  do 3 fetch_step.
  rewrite <- app_assoc, Area_restore by (done || lia). rewrite bind_ok. cbn beta iota.
  rewrite drop_app_len by by rewrite length_wire_Area.
  cbv zeta. by rewrite Addr_restore.
Qed.

(** *** One visibility round

    VASTMatcher starts a round with [clearStates ()], calls [addNeighbor ()] for every
    subscription in view and ends with [clearInvisibleNeighbors ()]. *)

Definition neighbor_round (s : Subscription) (view : list Subscription) : Subscription :=
  clearInvisibleNeighbors (foldl addNeighbor (clearStates s 0) view).

Definition in_view (k : Z) (view : list Subscription) : option Subscription :=
  list_find (λ v, sub_id v = k) view ≫= λ p, Some (snd p).

Lemma in_view_cons k v view :
  in_view k (v :: view) = if sub_id v =? k then Some v else in_view k view.
Proof.
  unfold in_view. simpl. destruct (Z.eqb_spec (sub_id v) k).
  - by rewrite decide_True.
  - rewrite decide_False by done. by destruct (list_find _ view) as [[]|].
Qed.

Lemma in_view_absent k view : k ∉ (sub_id <$> view) → in_view k view = None.
Proof.
  induction view as [|v view IH]; [done|]. rewrite fmap_cons, not_elem_of_cons.
  intros [Hne Hin]. rewrite in_view_cons. destruct (Z.eqb_spec (sub_id v) k); [congruence|auto].
Qed.

Lemma find_addNeighbor_states k s v :
  find k (neighbor_states (addNeighbor s v)) =
  if k =? sub_id v then
    Some (match find k (neighbors s) with
          | Some a => if Area_eqb a (sub_aoi v) then UNCHANGED else UPDATED
          | None => INSERTED end)
  else find k (neighbor_states s).
Proof.
  unfold addNeighbor. destruct (Z.eqb_spec k (sub_id v)) as [->|Hne].
  - destruct (find (sub_id v) (neighbors s)) as [a|]; [destruct (Area_eqb a _)|]; simpl; apply find_set_eq.
  - destruct (find (sub_id v) (neighbors s)) as [a|]; [destruct (Area_eqb a _)|]; simpl;
      by apply find_set_ne.
Qed.

Lemma find_addNeighbor k s v :
  find k (neighbors (addNeighbor s v)) =
  if k =? sub_id v then
    Some (match find k (neighbors s) with
          | Some a => if Area_eqb a (sub_aoi v) then a else sub_aoi v
          | None => sub_aoi v end)
  else find k (neighbors s).
Proof.
  unfold addNeighbor. destruct (Z.eqb_spec k (sub_id v)) as [->|Hne].
  - destruct (find (sub_id v) (neighbors s)) as [a|] eqn:E; [destruct (Area_eqb a _)|]; simpl;
      by rewrite ?find_set_eq.
  - destruct (find (sub_id v) (neighbors s)) as [a|]; [destruct (Area_eqb a _)|]; simpl;
      by rewrite ?find_set_ne.
Qed.

(** What adding a view (distinct ids) to [s] leaves, looked up at [k]. *)
Lemma fold_addNeighbor view s k :
  NoDup (sub_id <$> view) →
  let s' := foldl addNeighbor s view in
  find k (neighbor_states s') =
    match in_view k view with
    | Some v => Some (match find k (neighbors s) with
                      | Some a => if Area_eqb a (sub_aoi v) then UNCHANGED else UPDATED
                      | None => INSERTED end)
    | None => find k (neighbor_states s) end
  ∧ find k (neighbors s') =
    match in_view k view with
    | Some v => Some (match find k (neighbors s) with
                      | Some a => if Area_eqb a (sub_aoi v) then a else sub_aoi v
                      | None => sub_aoi v end)
    | None => find k (neighbors s) end.
Proof.
  revert s. induction view as [|v view IH]; intros s Hnd;
    [split; reflexivity|]. cbn [foldl].
  rewrite fmap_cons, NoDup_cons in Hnd. destruct Hnd as [Hv Hnd].
  destruct (IH (addNeighbor s v) Hnd) as [-> ->].
  rewrite in_view_cons, find_addNeighbor_states, find_addNeighbor.
  destruct (Z.eqb_spec (sub_id v) k) as [<-|Hne].
  - rewrite in_view_absent, Z.eqb_refl by done. split; reflexivity.
  - destruct (Z.eqb_spec k (sub_id v)); [congruence|split; reflexivity].
Qed.

Lemma fold_drop ks s k :
  ordered (neighbors s) →
  let s' := foldl drop_neighbor s ks in
  find k (neighbor_states s') =
    (if memb k ks then Some DELETED else find k (neighbor_states s))
  ∧ find k (neighbors s') = (if memb k ks then None else find k (neighbors s)).
Proof.
  revert s. induction ks as [|k' ks IH]; intros s Ho; simpl.
  { done. }
  destruct (IH (drop_neighbor s k')) as [-> ->]; [by apply ordered_erase|].
  simpl. unfold memb. simpl. destruct (Z.eqb_spec k k') as [<-|Hne]; simpl.
  - rewrite find_set_eq, find_erase_eq by done. by destruct (existsb _ _).
  - by rewrite find_set_ne, find_erase_ne by done.
Qed.

Lemma elem_remove_list k s :
  ordered (neighbors s) →
  k ∈ remove_list s ↔ has k (neighbor_states s) = false ∧ is_Some (find k (neighbors s)).
Proof.
  intros Ho. unfold remove_list. rewrite list_elem_of_fmap. split.
  - intros ([k' a] & -> & Hin). apply list_elem_of_filter in Hin as [Hh Hin].
    split; [done|]. exists a. by apply In_find.
  - intros [Hh [a Ha]]. exists (k, a). split; [done|].
    apply list_elem_of_filter. split; [done|]. by apply find_In.
Qed.

Lemma ordered_fold_add view s :
  ordered (neighbors s) → ordered (neighbors (foldl addNeighbor s view)).
Proof.
  revert s. induction view as [|v view IH]; intros s Ho; simpl; [done|]. apply IH.
  unfold addNeighbor. destruct (find _ (neighbors s)) as [a|];
    [destruct (Area_eqb a _)|]; simpl; auto with vast.
Qed.

(** *** Statistics *)

Definition stat_of (l : list Z) : StatType := foldl addRecord Stat_reset l.

(** The bounds kept while values are recorded, before the first one included. *)
Definition stat_bounds (s : StatType) (r : list Z) : Prop :=
  Forall (λ v, minimum s ≤ v ≤ maximum s) r
  ∧ (r = [] → minimum s = u64 (-1) ∧ maximum s = 0)
  ∧ (r ≠ [] → minimum s ∈ r ∧ maximum s ∈ r).

Lemma stat_of_snoc l v : stat_of (l ++ [v]) = addRecord (stat_of l) v.
Proof. unfold stat_of. by rewrite foldl_app. Qed.

Lemma recorded_snoc l v : recorded (l ++ [v]) = recorded l ++ (if v =? 0 then [] else [v]).
Proof. unfold recorded. rewrite filter_app. f_equal. apply recorded_cons. Qed.

Lemma list_sum_app l k : list_sum (l ++ k) = list_sum l + list_sum k.
Proof. unfold list_sum. induction l; simpl; lia. Qed.

Lemma stat_bounds_step s r v :
  v ≠ 0 → fits 64 v → stat_bounds s r → stat_bounds (addRecord s v) (r ++ [v]).
Proof.
  intros Hv Hf (Hall & Hnil & Hcons). unfold addRecord.
  destruct (Z.eqb_spec v 0); [done|]. unfold stat_bounds. cbn [minimum maximum].
  rewrite Forall_app, Forall_singleton. split_and!.
  - eapply Forall_impl; [exact Hall|]. intros w Hw. simpl in Hw. test_cases; lia.
  - test_cases; lia.
  - test_cases; lia.
  - intros E. by destruct r.
  - intros _. rewrite !elem_of_app, !list_elem_of_singleton.
    destruct (decide (r = [])) as [->|Hr].
    + destruct Hnil as [E1 E2]; [done|]. rewrite E1, E2. unfold fits in Hf.
      change (u64 (-1)) with 18446744073709551615. change (2 ^ 64) with 18446744073709551616 in Hf.
      split; test_cases; auto; right; lia.
    + destruct (Hcons Hr) as [H1 H2]. split; test_cases; auto.
Qed.

Lemma wrap_add_l b x y : wrap b (wrap b x + y) = wrap b (x + y).
Proof. unfold wrap. by rewrite Zplus_mod_idemp_l. Qed.

Lemma stat_of_props l :
  Forall (fits 64) l →
  total (stat_of l) = u64 (list_sum l)
  ∧ num_records (stat_of l) = u64 (Z.of_nat (length (recorded l)))
  ∧ stat_bounds (stat_of l) (recorded l).
Proof.
  induction l as [|v l IH] using rev_ind; intros Hf.
  - split; [done|]. split; [done|]. split; [constructor|]. split; done.
  - apply Forall_app in Hf as [Hl Hv]. rewrite Forall_singleton in Hv.
    destruct (IH Hl) as (Ht & Hn & Hb). rewrite stat_of_snoc, recorded_snoc.
    destruct (Z.eqb_spec v 0) as [->|Hv0].
    + unfold addRecord. simpl. rewrite app_nil_r, list_sum_app. simpl.
      by rewrite Z.add_0_r.
    + split; [|split; [|by apply stat_bounds_step]];
        unfold addRecord; destruct (Z.eqb_spec v 0); try done; cbn [total num_records].
      * rewrite Ht, wrap_add_l, list_sum_app. simpl. f_equal. lia.
      * rewrite Hn, wrap_add_l, length_app. simpl. f_equal. lia.
Qed.

(** Recording any sequence of [size_t] values in a fresh [StatType] leaves, modulo
    2^64, their sum and the number of the non-zero ones; [minimum] and [maximum] are
    attained by recorded values and bound all of them. *)
Theorem stat_of_correct l :
  Forall (fits 64) l →
  let s := foldl addRecord Stat_reset l in
  total s = u64 (list_sum l)
  ∧ num_records s = u64 (Z.of_nat (length (recorded l)))
  ∧ Forall (λ v, minimum s ≤ v ≤ maximum s) (recorded l)
  ∧ (recorded l ≠ [] → minimum s ∈ recorded l ∧ maximum s ∈ recorded l).
Proof. intros H s. destruct (stat_of_props l H) as (? & ? & ? & ? & ?). auto. Qed.

Lemma stat_of_correct_witness :
  let s := foldl addRecord Stat_reset [5; 0; 9] in
  Forall (fits 64) [5; 0; 9] ∧ total s = 14 ∧ minimum s = 5 ∧ maximum s = 9.
Proof.
  assert (H : Forall (fits 64) [5; 0; 9]) by (repeat constructor; done).
  pose proof (stat_of_correct [5; 0; 9] H) as (Ht & _).
  split; [exact H|]. split; [exact Ht|split; reflexivity].
Defined.

(** A [StatType] deserialized into a fresh object does not get its [minimum] back:
    only the low four bytes of the [size_t] are written, so the high half of the
    reset value [(size_t)(-1)] remains. *)
Theorem stat_fresh_minimum s rest :
  ∃ s', Stat_deserialize Stat_reset (Some (wire s ++ rest)) 16 = Ok (s', 16%nat)
  ∧ maximum s' = u32 (maximum s)
  ∧ (u32 (minimum s) ≠ 2 ^ 32 - 1 → minimum s' = (2 ^ 32 - 1) * 2 ^ 32 + u32 (minimum s)).
Proof.
  exists (Stat_merge Stat_reset s).
  split; [exact (deserialize_wire s Stat_reset rest 16%nat I (le_n _))|].
  split; [done|]. unfold Stat_merge, calculateAverage. cbn [minimum Stat_reset].
  intros Hm. pose proof (wrap_fits 32 (minimum s) ltac:(lia)) as Hf. unfold fits in Hf.
  unfold set_low32. change (u64 (-1)) with 18446744073709551615.
  change (18446744073709551615 / 2 ^ 32 * 2 ^ 32) with 18446744069414584320.
  destruct (Z.eqb_spec (18446744069414584320 + u32 (minimum s)) 18446744073709551615); lia.
Qed.

(** A [Subscription] written by [serialize] at the start of a large enough buffer
    is read back by [deserialize] with the same serialized members and the same
    count; the flags and times that are not sent are reset, the neighbour tables of
    the destination stay. *)
Theorem subscription_roundtrip s old mem :
  Sub_valid s → (Sub_sizeOf s ≤ length mem)%nat →
  ∃ mem', Sub_serialize s (mem, 0%nat) = Ok (mem', Sub_sizeOf s)
  ∧ length mem' = length mem
  ∧ Sub_deserialize old (Some mem') (length mem') =
    Ok (mkSub (sub_host_id s) (sub_id s) (layer s) (sub_aoi s) (relay s)
              false false false 0 0 (neighbor_states old) (neighbors old), Sub_sizeOf s).
Proof.
  intros Hv Hl. assert (Hw : length (wire s) = Sub_sizeOf s) by exact (wire_length s).
  exists (wire s ++ drop (length (wire s)) mem).
  assert (Hlen : length (wire s ++ drop (length (wire s)) mem) = length mem)
    by (rewrite length_app, length_drop, Hw; lia).
  split_and!; [|exact Hlen|].
  - change Sub_serialize with (serialize (A := Subscription)).
    rewrite serialize_put, put_start by by rewrite Hw. by rewrite Hw.
  - rewrite Hlen. exact (deserialize_wire s old _ (length mem) Hv Hl).
Qed.

Definition sub_example : Subscription :=
  mkSub 7 4098 1 (mkArea (mkPosition 1084227584 0 0) 100 0) (mkAddr 9 3 (mkIPaddr 167772161 1037 0))
        true true true 5 1 [] [].

Lemma subscription_roundtrip_witness :
  ∃ mem', Sub_serialize sub_example (replicate 64 Byte.x00, 0%nat) = Ok (mem', 58%nat)
  ∧ Sub_valid sub_example.
Proof.
  assert (Hv : Sub_valid sub_example) by (repeat split; done).
  destruct (subscription_roundtrip sub_example sub_example (replicate 64 Byte.x00) Hv)
    as (mem' & H & _); [apply Nat.leb_le; reflexivity|]. exists mem'. split; [exact H|exact Hv].
Defined.

(** After one visibility round over a view of subscriptions with distinct ids, a
    neighbour is known exactly when it is in view, with its new area (the old one when
    it compares equal), and the states report exactly what changed: [INSERTED],
    [UPDATED], [UNCHANGED] for the ids in view, [DELETED] for the ids that left, and
    nothing for any other id. *)
Theorem neighbor_round_correct s view k :
  ordered (neighbors s) → NoDup (sub_id <$> view) →
  let s' := neighbor_round s view in
  match in_view k view, find k (neighbors s) with
  | Some v, None =>
      find k (neighbor_states s') = Some INSERTED ∧ find k (neighbors s') = Some (sub_aoi v)
  | Some v, Some a =>
      if Area_eqb a (sub_aoi v)
      then find k (neighbor_states s') = Some UNCHANGED ∧ find k (neighbors s') = Some a
      else find k (neighbor_states s') = Some UPDATED ∧ find k (neighbors s') = Some (sub_aoi v)
  | None, Some _ =>
      find k (neighbor_states s') = Some DELETED ∧ find k (neighbors s') = None
  | None, None =>
      find k (neighbor_states s') = None ∧ find k (neighbors s') = None
  end.
Proof.
  intros Ho Hnd s'. unfold s', neighbor_round, clearInvisibleNeighbors.
  set (s1 := foldl addNeighbor (clearStates s 0) view).
  assert (Ho1 : ordered (neighbors s1)) by by apply ordered_fold_add.
  destruct (fold_addNeighbor view (clearStates s 0) k Hnd) as [Hst Hnb].
  fold s1 in Hst, Hnb. change (neighbors (clearStates s 0)) with (neighbors s) in Hst, Hnb.
  change (find k (neighbor_states (clearStates s 0))) with (@None NeighborUpdateStatus) in Hst.
  destruct (fold_drop (remove_list s1) s1 k Ho1) as [-> ->].
  destruct (memb k (remove_list s1)) eqn:Hm.
  - apply memb_true, elem_remove_list in Hm as [Hh [a Ha]]; [|done].
    unfold has in Hh. rewrite Hst in Hh. rewrite Hnb in Ha.
    destruct (in_view k view); [done|]. simpl in Ha. by rewrite Ha.
  - apply memb_false in Hm. rewrite elem_remove_list in Hm by done.
    rewrite Hst, Hnb. unfold has in Hm. rewrite Hst, Hnb in Hm.
    destruct (in_view k view) as [v|].
    + destruct (find k (neighbors s)) as [a|]; [|split; reflexivity].
      destruct (Area_eqb a (sub_aoi v)); split; reflexivity.
    + destruct (find k (neighbors s)) as [a|]; [|split; reflexivity].
      destruct Hm. split; [done|]. by exists a.
Qed.

Definition sub_at (id x : Z) : Subscription :=
  mkSub 0 id 0 (mkArea (mkPosition x 0 0) 10 0) Addr_null false false false 0 0 [] [].

Lemma neighbor_round_correct_witness :
  let s := with_neighbors sub_example [] [(3, sub_aoi (sub_at 3 0)); (4, sub_aoi (sub_at 4 0))] in
  let view := [sub_at 4 1065353216; sub_at 5 0] in
  ordered (neighbors s) ∧ NoDup (sub_id <$> view)
  ∧ find 3 (neighbor_states (neighbor_round s view)) = Some DELETED.
Proof.
  set (s := with_neighbors _ _ _). set (view := [_; _]). intros s0 view0.
  assert (Ho : ordered (neighbors s)).
  { unfold ordered. cbn. repeat constructor; unfold key_lt; cbn; lia. }
  assert (Hn : NoDup (sub_id <$> view)) by exact (bool_decide_unpack (NoDup [4; 5]) I).
  split; [exact Ho|]. split; [exact Hn|].
  exact (proj1 (neighbor_round_correct s view 3 Ho Hn)).
Defined.
