(* ===== verification/Message.v ===== *)
(** The [Message] class of common/VASTTypes.h: a growable buffer with a read
    position, filled with [store], consumed with [extract] (from the read position or
    from the end), and its own wire format ([serialize] / [deserialize]).

    Pointers into the buffer are offsets. The bytes of freshly allocated memory are
    unspecified; they are written [x00] here and no theorem is about them. *)

From S2P Require Import Prelude Bytes Float Serial.
Local Open Scope Z_scope.

Definition VAST_MSGSIZ : nat := 1024.

Record Message := mkMsg {
  from : Z; msize : nat; msgtype : Z; msggroup : Z; priority : Z;
  reliable : Z;                     (* the byte of the [bool] *)
  mdata : list byte;                (* the allocation [data] points to *)
  targets : list Z;
  mfree : nat;                      (* _free *)
  mcurr : nat;                      (* _curr - data *)
  malloc : bool                     (* _alloc *)
}.

Definition new_char (n : nat) : list byte := replicate n Byte.x00.

(** Writing the buffer-management members only. *)
Definition with_buf (m : Message) (data : list byte) (size free curr : nat) : Message :=
  mkMsg (from m) size (msgtype m) (msggroup m) (priority m) (reliable m)
        data (targets m) free curr (malloc m).

(** [Message (msgtype_t type, id_t sender = 0)] *)
Definition Message_new (type sender : Z) : Message :=
  mkMsg sender 0 type 0 3 1 (new_char VAST_MSGSIZ) [] VAST_MSGSIZ 0 true.

(** [Message (type, group, msg, msize, alloc, sender)] over the bytes [bs] *)
Definition Message_of_bytes (type group : Z) (bs : list byte) (alloc : bool) (sender : Z)
    : Message :=
  mkMsg sender (length bs) type group 3 1 bs [] 0 0 alloc.

(** The copy constructor *)
Definition Message_copy (m : Message) : outcome Message :=
  '(bs, _) ← fetch_bytes (msize m) (mdata m);
  '(data, _) ← put bs (new_char (msize m + mfree m), 0%nat);
  Ok (with_buf m data (msize m) (mfree m) (mcurr m)).

(** [operator=]: as the copy, but the read position restarts. *)
Definition Message_assign (msg : Message) : outcome Message :=
  '(bs, _) ← fetch_bytes (msize msg) (mdata msg);
  '(data, _) ← put bs (new_char (msize msg + mfree msg), 0%nat);
  Ok (with_buf msg data (msize msg) (mfree msg) 0).

Definition expand (m : Message) (len : nat) : outcome Message :=
  if (len <=? mfree m)%nat then Ok m else
  let newsize := (((msize m + len) / VAST_MSGSIZ + 1) * VAST_MSGSIZ)%nat in
  '(bs, _) ← fetch_bytes (msize m) (mdata m);
  '(temp, _) ← put bs (new_char newsize, 0%nat);
  Ok (with_buf m temp (msize m) (newsize - msize m) (mcurr m)).

Definition reset (m : Message) : Message := with_buf m (mdata m) (msize m) (mfree m) 0.

(** [addSize]: advance [_curr], shrink [_free], grow [size]. *)
Definition addSize (m : Message) (item_size : nat) : Message :=
  with_buf m (mdata m) (msize m + item_size) (mfree m - item_size) (mcurr m + item_size).

Definition write_curr (m : Message) (bs : list byte) : outcome Message :=
  '(data, _) ← put bs (mdata m, mcurr m);
  Ok (with_buf m data (msize m) (mfree m) (mcurr m)).

(** [store (p, item_size, record_size)] with [bs] the [item_size] bytes at [p] *)
Definition store (m : Message) (bs : list byte) (record_size : bool) : outcome (Message * bool) :=
  if negb (malloc m) then Ok (m, false) else
  m ← expand m (if record_size then length bs + 4 else length bs)%nat;
  let m := with_buf m (mdata m) (msize m) (mfree m) (msize m) in
  m ← (if record_size
       then m ← write_curr m (le_bytes 4 (Z.of_nat (length bs))); Ok (addSize m 4)
       else Ok m);
  m ← write_curr m bs;
  Ok (addSize m (length bs), true).

(** [store (const Serializable &obj)] *)
Definition store_obj {A} `{Serializable A} (m : Message) (obj : A) : outcome (Message * bool) :=
  let item_size := sizeOf obj in
  m ← expand m item_size;
  let m := with_buf m (mdata m) (msize m) (mfree m) (msize m) in
  '(data, _) ← serialize obj (mdata m, mcurr m);
  Ok (addSize (with_buf m data (msize m) (mfree m) (mcurr m)) item_size, true).

(** [store (id_t)], [store (uint32_t)], [store (layer_t)], [store (listsize_t)],
    [store (float)]: an integer of [n] bytes *)
Definition store_int (n : nat) (m : Message) (item : Z) : outcome (Message * bool) :=
  store m (le_bytes n item) false.

(** [extract (p, item_size, from_end)]: the message, the bytes copied to [p] ([None]
    when nothing is copied) and the value returned. *)
Definition extract (m : Message) (item_size : nat) (from_end : bool)
    : outcome (Message * option (list byte) * nat) :=
  if (item_size =? 0)%nat && from_end then Ok (m, None, 0%nat) else
  '(m, item_size) ← (
     if (item_size =? 0)%nat && (mcurr m + 4 <=? msize m)%nat then
       '(sz, _) ← fetch 4 (drop (mcurr m) (mdata m));
       Ok (with_buf m (mdata m) (msize m) (mfree m) (mcurr m + 4), Z.to_nat sz)
     else Ok (m, item_size));
  if (msize m <? mcurr m + item_size)%nat then Ok (m, None, 0%nat)
  else if from_end then
    '(bs, _) ← fetch_bytes item_size (drop (msize m - item_size) (mdata m));
    Ok (with_buf m (mdata m) (msize m - item_size) (mfree m) (mcurr m), Some bs, item_size)
  else
    '(bs, _) ← fetch_bytes item_size (drop (mcurr m) (mdata m));
    Ok (with_buf m (mdata m) (msize m) (mfree m) (mcurr m + item_size), Some bs, item_size).

(** [extract (Serializable &obj, from_end)]: when [deserialize] fails in the [from_end]
    case, [_curr] is left at the end, as in the code. *)
Definition extract_obj {A} `{Serializable A} (m : Message) (obj : A) (from_end : bool)
    : outcome (Message * A * nat) :=
  let item_size := sizeOf obj in
  if (msize m <? mcurr m + item_size)%nat then Ok (m, obj, 0%nat) else
  let temp := mcurr m in
  let m := if from_end then with_buf m (mdata m) (msize m) (mfree m) (msize m - item_size) else m in
  '(obj, k) ← deserialize obj (Some (drop (mcurr m) (mdata m))) item_size;
  if (k =? 0)%nat then Ok (m, obj, 0%nat) else
  if from_end
  then Ok (with_buf m (mdata m) (msize m - item_size) (mfree m) temp, obj, item_size)
  else Ok (with_buf m (mdata m) (msize m) (mfree m) (mcurr m + item_size), obj, item_size).

(** [extract (id_t &)] and its variants: the size is returned whether or not the
    extraction succeeded; on failure the variable keeps its value [old]. *)
Definition extract_int (n : nat) (m : Message) (old : Z) (from_end : bool)
    : outcome (Message * Z * nat) :=
  '(m, bs, _) ← extract m n from_end;
  Ok (m, match bs with Some bs => le_val bs | None => old end, n).

Definition clear (m : Message) (type sender : Z) (priority_value : Z) : Message :=
  mkMsg sender 0 type 0 priority_value 1 (mdata m) [] (mfree m + msize m) 0 true.

Definition Message_sizeOf (m : Message) : nat :=
  (8 + 4 + 2 + 1 + 1 + 1 + 1 + 8 * length (targets m) + msize m)%nat.

Fixpoint put_targets (ts : list Z) (c : cursor) : outcome cursor :=
  match ts with
  | [] => Ok c
  | t :: ts => c ← put (le_bytes 8 t) c; put_targets ts c
  end.

(** [serialize (buffer)] for a non-[NULL] buffer; the result is the cursor after the
    last byte, whose distance is the value returned. *)
Definition Message_serialize (m : Message) (c : cursor) : outcome cursor :=
  c ← put (le_bytes 8 (from m)) c;
  c ← put (le_bytes 4 (Z.of_nat (msize m))) c;
  c ← put (le_bytes 2 (msgtype m)) c;
  c ← put (le_bytes 1 (msggroup m)) c;
  c ← put (le_bytes 1 (priority m)) c;
  c ← put (le_bytes 1 (reliable m)) c;
  let num_targets := u8 (Z.of_nat (length (targets m))) in
  c ← put (le_bytes 1 num_targets) c;
  c ← put_targets (targets m) c;
  '(bs, _) ← fetch_bytes (msize m) (mdata m);
  put bs c.

Fixpoint get_targets (n : nat) (p : list byte) : outcome (list Z * list byte) :=
  match n with
  | O => Ok ([], p)
  | S n => '(t, p) ← fetch 8 p; '(ts, p) ← get_targets n p; Ok (t :: ts, p)
  end.

Definition with_targets (m : Message) (ts : list Z) : Message :=
  mkMsg (from m) (msize m) (msgtype m) (msggroup m) (priority m) (reliable m)
        (mdata m) ts (mfree m) (mcurr m) (malloc m).

(** sender, size, type, group, priority, reliable, number of targets *)
Definition MSG_HEADER : nat := (8 + 4 + 2 + 1 + 1 + 1 + 1)%nat.

(** [deserialize (buffer, size)]: the object and the value returned. *)
Definition Message_deserialize (m : Message) (p : ptr) (size : nat) : outcome (Message * nat) :=
  let m := clear m 0 0 3 in
  match p with
  | None => Ok (m, 0%nat)
  | Some p =>
    if (size <? MSG_HEADER)%nat then Ok (m, 0%nat) else
    let size := (size - MSG_HEADER)%nat in
    '(fr, p) ← fetch 8 p;
    '(sz, p) ← fetch 4 p;
    '(ty, p) ← fetch 2 p;
    '(gr, p) ← fetch 1 p;
    '(pr, p) ← fetch 1 p;
    '(re, p) ← fetch 1 p;
    '(nt, p) ← fetch 1 p;
    let size_restored := Z.to_nat sz in
    let num_targets := Z.to_nat nt in
    let m := mkMsg fr (msize m) ty gr pr re (mdata m) (targets m) (mfree m) (mcurr m) (malloc m) in
    if (size <? num_targets * 8 + size_restored)%nat then Ok (m, 0%nat) else
    '(ts, p) ← get_targets num_targets p;
    let m := with_targets m (targets m ++ ts) in
    '(bs, _) ← fetch_bytes size_restored p;
    '(m, ok) ← store m bs false;
    if negb ok then Ok (m, 0%nat) else
    Ok (with_buf m (mdata m) (msize m) (mfree m) 0, (size_restored + MSG_HEADER)%nat)
  end.

Definition addTarget (m : Message) (target : Z) : Message :=
  if memb target (targets m) then m else with_targets m (targets m ++ [target]).

(** [contentEquals]: the members that are sent, and the content bytes. *)
Definition Message_contentEquals (a b : Message) : Prop :=
  from a = from b ∧ msize a = msize b ∧ msgtype a = msgtype b ∧ msggroup a = msggroup b
  ∧ reliable a = reliable b ∧ priority a = priority b
  ∧ take (msize a) (mdata a) = take (msize b) (mdata b) ∧ targets a = targets b.

(** *** Invariant: the capacity covers the content and the free bytes, and the read
    position lies within the content. *)

Definition Message_inv (m : Message) : Prop :=
  (msize m + mfree m ≤ length (mdata m))%nat ∧ (mcurr m ≤ msize m)%nat.

Definition content (m : Message) : list byte := take (msize m) (mdata m).

Lemma length_content m : Message_inv m → length (content m) = msize m.
Proof. intros [H _]. unfold content. rewrite length_take. lia. Qed.

Lemma data_split m : mdata m = content m ++ drop (msize m) (mdata m).
Proof. unfold content. by rewrite take_drop. Qed.

(** Members untouched by buffer management. *)
Definition same_head (a b : Message) : Prop :=
  from a = from b ∧ msgtype a = msgtype b ∧ msggroup a = msggroup b
  ∧ priority a = priority b ∧ reliable a = reliable b ∧ targets a = targets b
  ∧ malloc a = malloc b.

Lemma same_head_refl m : same_head m m.
Proof. by repeat split. Qed.

Lemma same_head_trans a b c : same_head a b → same_head b c → same_head a c.
Proof. unfold same_head. intros. destruct_and!. splits; congruence. Qed.

Lemma new_char_put bs n :
  (length bs ≤ n)%nat →
  ∃ tl, put bs (new_char n, 0%nat) = Ok (bs ++ tl, length bs) ∧ length (bs ++ tl) = n.
Proof.
  intros H. exists (drop (length bs) (new_char n)).
  rewrite put_start by (unfold new_char; len).
  split; [done|]. unfold new_char. len.
Qed.

Lemma fetch_content m :
  Message_inv m → fetch_bytes (msize m) (mdata m) = Ok (content m, drop (msize m) (mdata m)).
Proof.
  intros Hi. rewrite (data_split m) at 1. apply fetch_bytes_app. by apply length_content.
Qed.

(** A copy has the members and the content of the original. *)
Definition copy_of (m' m : Message) : Prop :=
  same_head m' m ∧ msize m' = msize m ∧ mfree m' = mfree m ∧ content m' = content m
  ∧ Message_inv m'.

Lemma Message_copy_ok m : Message_inv m →
  ∃ m', Message_copy m = Ok m' ∧ copy_of m' m ∧ mcurr m' = mcurr m.
Proof.
  intros Hi. unfold Message_copy. rewrite fetch_content, bind_ok by done. cbn beta iota.
  pose proof (length_content m Hi) as L.
  destruct (new_char_put (content m) (msize m + mfree m)) as (tl & -> & E); [lia|].
  rewrite bind_ok. cbn beta iota. eexists. split; [reflexivity|]. split; [|done].
  split; [by repeat split|]. splits; try done.
  - unfold content at 1. cbn. rewrite take_app_le, take_ge by lia. done.
  - destruct Hi. split; cbn; lia.
Qed.

Lemma Message_assign_ok m : Message_inv m →
  ∃ m', Message_assign m = Ok m' ∧ copy_of m' m ∧ mcurr m' = 0%nat.
Proof.
  intros Hi. destruct (Message_copy_ok m Hi) as (m' & E & (S & Z & F & C & I) & _).
  exists (reset m'). unfold Message_assign. unfold Message_copy in E.
  apply bind_inv in E as ([bs p] & -> & E). rewrite bind_ok. cbn beta iota in E |- *.
  apply bind_inv in E as ([d p'] & -> & E). rewrite bind_ok. cbn beta iota. injection E as <-. split; [done|]. split; [|done].
  split; [exact S|]. splits; try done. destruct I. split; [done|cbn; lia].
Qed.

Lemma copy_contentEquals m' m : Message_inv m → copy_of m' m → Message_contentEquals m' m.
Proof.
  intros Hi ((H1 & H2 & H3 & H4 & H5 & H6 & H7) & Z & F & C & I).
  unfold Message_contentEquals. by splits.
Qed.

Lemma expand_newsize s len :
  (s + len < ((s + len) / VAST_MSGSIZ + 1) * VAST_MSGSIZ)%nat.
Proof.
  unfold VAST_MSGSIZ. pose proof (Nat.div_mod_eq (s + len) 1024).
  pose proof (Nat.mod_upper_bound (s + len) 1024). lia.
Qed.

Lemma expand_ok m len :
  Message_inv m →
  ∃ m', expand m len = Ok m' ∧ Message_inv m' ∧ content m' = content m
  ∧ msize m' = msize m ∧ mcurr m' = mcurr m ∧ same_head m' m ∧ (len ≤ mfree m')%nat.
Proof.
  intros Hi. pose proof Hi as [Hc Hp]. unfold expand.
  destruct (Nat.leb_spec len (mfree m)); [exists m; by splits|].
  pose proof (expand_newsize (msize m) len) as Hn.
  set (newsize := (_ * VAST_MSGSIZ)%nat) in *.
  rewrite fetch_content by done. rewrite bind_ok. cbn beta iota.
  destruct (new_char_put (content m) newsize) as (tl & -> & Hl);
    [rewrite length_content by done; lia|].
  rewrite bind_ok. cbn beta iota. eexists. split; [reflexivity|].
  splits; try done.
  - split; cbn [with_buf msize mfree mdata mcurr]; [rewrite Hl; lia|lia].
  - unfold content at 1. cbn. apply take_app_len. by rewrite length_content.
  - cbn [with_buf mfree]. lia.
Qed.

(** *** The abstract message: content and read position

    [store] appends to the content and leaves the position at the end; [extract] reads
    at the position, or cuts the content's tail. *)

Definition appends (m m' : Message) (bs : list byte) : Prop :=
  Message_inv m' ∧ content m' = content m ++ bs ∧ mcurr m' = msize m' ∧ same_head m' m.

Lemma appends_trans m1 m2 m3 a b :
  appends m1 m2 a → appends m2 m3 b → appends m1 m3 (a ++ b).
Proof.
  intros (I1 & C1 & P1 & S1) (I2 & C2 & P2 & S2). unfold appends. splits; [done| |done|].
  - by rewrite C2, C1, app_assoc.
  - eauto using same_head_trans.
Qed.

Lemma appends_start m1 m2 m3 b : appends m1 m2 [] → appends m2 m3 b → appends m1 m3 b.
Proof. exact (appends_trans m1 m2 m3 [] b). Qed.

Lemma write_append m bs :
  Message_inv m → mcurr m = msize m → (length bs ≤ mfree m)%nat →
  ∃ m', write_curr m bs = Ok m' ∧ appends m (addSize m' (length bs)) bs
        ∧ mfree (addSize m' (length bs)) = (mfree m - length bs)%nat.
Proof.
  intros [Hc Hp] He Hb. unfold write_curr, put. rewrite He.
  destruct (Nat.leb_spec (msize m + length bs) (length (mdata m))); [|lia].
  rewrite bind_ok. cbn beta iota. eexists. split; [reflexivity|].
  split; [|done]. unfold appends, Message_inv, content.
  cbn [addSize with_buf msize mfree mcurr mdata]. splits; [|lia| |lia|by repeat split].
  - rewrite !length_app, length_take, length_drop. lia.
  - rewrite app_assoc. apply take_app_len. rewrite length_app, length_take. lia.
Qed.

(** The state in which [store] starts writing: enough space, position at the end. *)
Lemma store_prepare m n :
  Message_inv m →
  ∃ m', expand m n = Ok m' ∧
  let m1 := with_buf m' (mdata m') (msize m') (mfree m') (msize m') in
  appends m m1 [] ∧ (n ≤ mfree m1)%nat.
Proof.
  intros Hi. destruct (expand_ok m n Hi) as (m' & E & [I1 I2] & C & Hs & Hp & Hh & Hf).
  exists m'. split; [done|]. cbn zeta. split; [|done].
  unfold appends. splits; [|by rewrite app_nil_r|done|done]. split; cbn; lia.
Qed.

Lemma store_spec m bs rs :
  Message_inv m → malloc m = true →
  ∃ m', store m bs rs = Ok (m', true)
  ∧ appends m m' ((if rs then le_bytes 4 (Z.of_nat (length bs)) else []) ++ bs).
Proof.
  intros Hi Ha. unfold store. rewrite Ha. cbn [negb].
  destruct (store_prepare m (if rs then length bs + 4 else length bs)%nat Hi)
    as (m0 & -> & H0 & Hf).
  rewrite bind_ok. cbn zeta in *. set (m1 := with_buf m0 _ _ _ _) in *.
  pose proof H0 as (I1 & _ & P1 & _). destruct rs.
  - destruct (write_append m1 (le_bytes 4 (Z.of_nat (length bs)))) as (m2 & -> & H2 & F2);
      [done|done|rewrite length_le_bytes; lia|].
    rewrite !bind_ok. rewrite length_le_bytes in *.
    destruct (write_append (addSize m2 4) bs) as (m3 & -> & H3 & _);
      [apply H2|apply H2|lia|].
    rewrite bind_ok. eexists. split; [reflexivity|].
    eapply appends_start; [done|]. eapply appends_trans; done.
  - rewrite bind_ok.
    destruct (write_append m1 bs) as (m3 & -> & H3 & _); [done|done|lia|].
    rewrite bind_ok. eexists. split; [reflexivity|].
    eapply appends_start; done.
Qed.

Lemma store_obj_spec {A} `{SerializableLaws A} m (x : A) :
  Message_inv m →
  ∃ m', store_obj m x = Ok (m', true) ∧ appends m m' (wire x).
Proof.
  intros Hi. unfold store_obj.
  destruct (store_prepare m (sizeOf x) Hi) as (m0 & -> & Ha & Hf).
  rewrite bind_ok. cbn zeta in *. set (m1 := with_buf m0 _ _ _ _) in *.
  pose proof Ha as (I1 & _ & P1 & _).
  destruct (write_append m1 (wire x)) as (m3 & E3 & Hb & _);
    [done|done|by rewrite wire_length|].
  unfold write_curr in E3. rewrite serialize_put. run_inv E3. destruct r as [data k].
  rewrite E, bind_ok. cbn beta iota in E3 |- *. injection E3 as <-.
  eexists. split; [reflexivity|]. rewrite <- wire_length.
  eapply appends_start; done.
Qed.

Lemma fetch_at m n k :
  Message_inv m → (k + n ≤ msize m)%nat →
  fetch_bytes n (drop k (mdata m)) =
  Ok (take n (drop k (content m)), drop n (drop k (content m)) ++ drop (msize m) (mdata m)).
Proof.
  intros Hi Hn. rewrite (data_split m) at 1.
  pose proof (length_content m Hi) as Hl.
  rewrite drop_app_le by lia. rewrite <- (take_drop n (drop k (content m))) at 1.
  rewrite <- app_assoc. apply fetch_bytes_app. rewrite length_take, length_drop. lia.
Qed.

(** [extract] of a non-empty fixed-size item. *)
Lemma extract_spec m n :
  Message_inv m → (0 < n)%nat →
  if (mcurr m + n <=? msize m)%nat then
    ∃ m', extract m n false = Ok (m', Some (take n (drop (mcurr m) (content m))), n)
    ∧ Message_inv m' ∧ content m' = content m ∧ msize m' = msize m
    ∧ mcurr m' = (mcurr m + n)%nat ∧ same_head m' m
  else extract m n false = Ok (m, None, 0%nat).
Proof.
  intros Hi Hn. unfold extract. destruct (Nat.eqb_spec n 0); [lia|]. cbn [andb].
  rewrite bind_ok. cbn beta iota.
  destruct (Nat.leb_spec (mcurr m + n) (msize m));
    destruct (Nat.ltb_spec (msize m) (mcurr m + n)); try lia; [|done].
  rewrite fetch_at by (done || lia). rewrite bind_ok. cbn beta iota.
  eexists. split; [reflexivity|]. destruct Hi as [Hc Hp].
  splits; try done; split; cbn; lia.
Qed.

(** [extract] of an item that was stored with its size. *)
Lemma extract_sized_spec m bs tl :
  Message_inv m → fits 32 (Z.of_nat (length bs)) →
  drop (mcurr m) (content m) = le_bytes 4 (Z.of_nat (length bs)) ++ bs ++ tl →
  ∃ m', extract m 0 false = Ok (m', Some bs, length bs)
  ∧ Message_inv m' ∧ content m' = content m
  ∧ mcurr m' = (mcurr m + 4 + length bs)%nat ∧ same_head m' m.
Proof.
  intros Hi Hf Hd. pose proof (length_content m Hi) as Hl. pose proof Hi as [Hc Hp].
  assert (Hlen : (msize m - mcurr m = 4 + (length bs + length tl))%nat).
  { rewrite <- Hl, <- length_drop, Hd, !length_app, length_le_bytes. lia. }
  unfold extract. cbn [Nat.eqb andb].
  destruct (Nat.leb_spec (mcurr m + 4) (msize m)); [|lia].
  unfold fetch at 1. rewrite fetch_at by (done || lia). rewrite bind_ok. cbn beta iota.
  rewrite Hd, (take_app_len (le_bytes 4 _)), le_val_bytes, Z.mod_small
    by (done || by rewrite length_le_bytes).
  rewrite !bind_ok. cbn beta iota. rewrite Nat2Z.id.
  set (m1 := with_buf m _ _ _ _).
  assert (Hi1 : Message_inv m1) by (split; cbn; lia).
  destruct (Nat.ltb_spec (msize m1) (mcurr m1 + length bs)); [cbn in *; lia|].
  rewrite fetch_at by (done || (cbn in *; lia)). rewrite bind_ok. cbn beta iota.
  assert (Hd1 : drop (mcurr m1) (content m1) = bs ++ tl).
  { change (content m1) with (content m). change (mcurr m1) with (mcurr m + 4)%nat.
    rewrite <- drop_drop, Hd. apply drop_app_len. by rewrite length_le_bytes. }
  rewrite Hd1, take_app_len by done.
  eexists. split; [reflexivity|]. splits; try done; split; cbn in *; lia.
Qed.

Lemma extract_end_spec m n :
  Message_inv m → (0 < n)%nat → (mcurr m + n ≤ msize m)%nat →
  ∃ m', extract m n true = Ok (m', Some (drop (msize m - n) (content m)), n)
  ∧ Message_inv m' ∧ content m' = take (msize m - n) (content m)
  ∧ msize m' = (msize m - n)%nat ∧ mcurr m' = mcurr m ∧ same_head m' m.
Proof.
  intros Hi Hn Hle. pose proof (length_content m Hi) as Hl.
  unfold extract. destruct (Nat.eqb_spec n 0); [lia|]. cbn [andb].
  rewrite bind_ok. cbn beta iota.
  destruct (Nat.ltb_spec (msize m) (mcurr m + n)); [lia|].
  rewrite fetch_at by (done || lia). rewrite bind_ok. cbn beta iota.
  rewrite (take_ge _ n) by (rewrite length_drop; lia).
  eexists. split; [reflexivity|]. destruct Hi as [Hc Hp].
  splits; try done; [split; cbn; lia|].
  unfold content. cbn. rewrite take_take. f_equal. lia.
Qed.

Lemma extract_obj_spec {A} `{SerializableLaws A} m (x old : A) tl :
  Message_inv m → valid x → sizeOf old = sizeOf x → (0 < sizeOf x)%nat →
  drop (mcurr m) (content m) = wire x ++ tl →
  ∃ m', extract_obj m old false = Ok (m', merge old x, sizeOf x)
  ∧ Message_inv m' ∧ content m' = content m
  ∧ mcurr m' = (mcurr m + sizeOf x)%nat ∧ same_head m' m.
Proof.
  intros Hi Hv Hs Hpos Hd. pose proof (length_content m Hi) as Hl. pose proof Hi as [Hc Hp].
  assert (Hlen : (msize m - mcurr m = sizeOf x + length tl)%nat).
  { rewrite <- Hl, <- length_drop, Hd, length_app, wire_length. lia. }
  unfold extract_obj. rewrite Hs.
  destruct (Nat.ltb_spec (msize m) (mcurr m + sizeOf x)); [lia|]. cbn zeta.
  rewrite (data_split m), drop_app_le, Hd, <- app_assoc by lia.
  rewrite deserialize_wire, bind_ok by (done || lia). cbn beta iota.
  destruct (Nat.eqb_spec (sizeOf x) 0); [lia|].
  eexists. split; [by rewrite <- data_split|].
  splits; try done; split; cbn; lia.
Qed.

(** *** Wire format *)

Definition targets_wire (ts : list Z) : list byte := concat (le_bytes 8 <$> ts).

Definition msg_wire (m : Message) : list byte :=
  le_bytes 8 (from m) ++ le_bytes 4 (Z.of_nat (msize m)) ++ le_bytes 2 (msgtype m)
  ++ le_bytes 1 (msggroup m) ++ le_bytes 1 (priority m) ++ le_bytes 1 (reliable m)
  ++ le_bytes 1 (u8 (Z.of_nat (length (targets m))))
  ++ targets_wire (targets m) ++ content m.

Definition Message_valid (m : Message) : Prop :=
  fits 64 (from m) ∧ fits 32 (Z.of_nat (msize m)) ∧ fits 16 (msgtype m)
  ∧ fits 8 (msggroup m) ∧ fits 8 (priority m) ∧ fits 8 (reliable m)
  ∧ Forall (fits 64) (targets m).

#[export] Instance Message_valid_dec m : Decision (Message_valid m).
Proof. unfold Message_valid. apply _. Defined.

Lemma length_targets_wire ts : length (targets_wire ts) = (8 * length ts)%nat.
Proof.
  unfold targets_wire. induction ts as [|t ts IH]; cbn [fmap list_fmap concat length]; [done|].
  rewrite length_app, length_le_bytes, IH. lia.
Qed.

Lemma length_msg_wire m : Message_inv m → length (msg_wire m) = Message_sizeOf m.
Proof.
  intros Hi. unfold msg_wire, Message_sizeOf.
  rewrite !length_app, !length_le_bytes, length_targets_wire, length_content by done. lia.
Qed.

Lemma bind_put_targets ts a c :
  put a c ≫= put_targets ts = put (a ++ targets_wire ts) c.
Proof.
  revert a. induction ts as [|t ts IH]; intros a.
  - unfold targets_wire. cbn. rewrite app_nil_r. by destruct (put a c).
  - transitivity (put (a ++ le_bytes 8 t) c ≫= put_targets ts).
    + rewrite <- put_put, bind_assoc. done.
    + rewrite IH, <- app_assoc. done.
Qed.

Lemma Message_serialize_put m c : Message_inv m → Message_serialize m c = put (msg_wire m) c.
Proof.
  intros Hi. unfold Message_serialize. rewrite fetch_content by done.
  cbn beta iota zeta delta [mbind outcome_bind].
  rewrite <- !bind_assoc, !put_put, bind_put_targets, put_put, <- !app_assoc. done.
Qed.

Lemma get_targets_wire ts p :
  Forall (fits 64) ts → get_targets (length ts) (targets_wire ts ++ p) = Ok (ts, p).
Proof.
  induction 1 as [|t ts Ht _ IH]; [done|].
  unfold targets_wire in *. cbn [fmap list_fmap concat length get_targets].
  rewrite <- app_assoc. fetch_step. by rewrite IH.
Qed.

Lemma clear_inv m t s pr : Message_inv m → Message_inv (clear m t s pr).
Proof. intros [Hc _]. split; cbn; lia. Qed.

Lemma clear_content m t s pr : content (clear m t s pr) = [].
Proof. done. Qed.

Lemma with_head_inv m fr ty gr pr re ts :
  Message_inv m →
  Message_inv (mkMsg fr (msize m) ty gr pr re (mdata m) ts (mfree m) (mcurr m) (malloc m)).
Proof. done. Qed.

Lemma Message_new_inv t s : Message_inv (Message_new t s).
Proof. split; [cbn [Message_new msize mfree mdata]; unfold new_char; rewrite length_replicate; lia|done]. Qed.

Lemma Message_deserialize_wire m old rest n :
  Message_inv m → Message_inv old → Message_valid m → (length (targets m) < 256)%nat →
  (Message_sizeOf m ≤ n)%nat →
  ∃ m', Message_deserialize old (Some (msg_wire m ++ rest)) n
        = Ok (m', (msize m + MSG_HEADER)%nat)
  ∧ Message_contentEquals m' m ∧ mcurr m' = 0%nat ∧ Message_inv m'.
Proof.
  intros Hi Ho (H1 & H2 & H3 & H4 & H5 & H6 & H7) Ht Hn.
  unfold Message_sizeOf in Hn.
  assert (Hnt : u8 (Z.of_nat (length (targets m))) = Z.of_nat (length (targets m))).
  { apply wrap_id. unfold fits. change (2 ^ 8) with 256. lia. }
  unfold Message_deserialize, msg_wire. rewrite Hnt. cbn zeta.
  destruct (Nat.ltb_spec n MSG_HEADER); [unfold MSG_HEADER in *; lia|].
  rewrite <- !app_assoc. do 6 fetch_step.
  rewrite fetch_le_fits by (unfold fits; cbn; lia). rewrite bind_ok. cbn beta iota.
  rewrite !Nat2Z.id.
  destruct (Nat.ltb_spec (n - MSG_HEADER) (length (targets m) * 8 + msize m));
    [unfold MSG_HEADER in *; lia|].
  rewrite get_targets_wire, bind_ok by done. cbn beta iota.
  rewrite fetch_bytes_app, bind_ok by by apply length_content. cbn beta iota.
  set (m1 := with_targets _ _).
  assert (Hi1 : Message_inv m1) by (destruct Ho; split; cbn; lia).
  destruct (store_spec m1 (content m) false Hi1 eq_refl) as (m2 & -> & Hi2 & Hc2 & Hp2 & Hh2).
  rewrite bind_ok. cbn [negb].
  eexists. split; [reflexivity|].
  assert (Hs : msize m2 = msize m).
  { rewrite <- (length_content m2), Hc2, <- (length_content m) by done. done. }
  destruct Hh2 as (? & ? & ? & ? & ? & ? & ?). split; [|split; [done|]].
  - unfold Message_contentEquals. splits; done.
  - destruct Hi2. split; cbn; lia.
Qed.

(** On any memory [deserialize] either returns or reads past its end; the latter only
    when [size] exceeds the memory. *)
Lemma fetch_bytes_cases n p :
  (fetch_bytes n p = Ok (take n p, drop n p) ∧ (n ≤ length p)%nat)
  ∨ (fetch_bytes n p = Fail OutOfBounds ∧ (length p < n)%nat).
Proof. unfold fetch_bytes. destruct (Nat.leb_spec n (length p)); [left|right]; done. Qed.

Lemma fetch_cases n p :
  (∃ z, fetch n p = Ok (z, drop n p) ∧ (n ≤ length p)%nat)
  ∨ (fetch n p = Fail OutOfBounds ∧ (length p < n)%nat).
Proof.
  destruct (Nat.le_gt_cases n (length p)) as [H|H].
  - left. destruct (fetch_ok n p H) as [z E]. eauto.
  - right. unfold fetch, fetch_bytes. destruct (Nat.leb_spec n (length p)); [lia|done].
Qed.

Lemma get_targets_cases n p :
  (∃ ts, get_targets n p = Ok (ts, drop (8 * n) p) ∧ (8 * n ≤ length p)%nat)
  ∨ (get_targets n p = Fail OutOfBounds ∧ (length p < 8 * n)%nat).
Proof.
  revert p. induction n as [|n IH]; intros p.
  - left. exists []. rewrite drop_0. split; [done|lia].
  - cbn [get_targets]. destruct (fetch_cases 8 p) as [(z & -> & H)|(-> & H)];
      [|right; split; [done|lia]].
    rewrite bind_ok. cbn beta iota.
    destruct (IH (drop 8 p)) as [(ts & -> & Ht)|(-> & Ht)]; rewrite length_drop in Ht.
    + left. rewrite bind_ok, drop_drop. cbn beta iota. eexists.
      split; [|lia]. do 2 f_equal. f_equal. lia.
    + right. split; [done|lia].
Qed.

Lemma Message_deserialize_cases m p size : Message_inv m →
  (∃ r, Message_deserialize m (Some p) size = Ok r)
  ∨ (Message_deserialize m (Some p) size = Fail OutOfBounds ∧ (length p < size)%nat).
Proof.
  intros Hi. unfold Message_deserialize.
  pose proof (clear_inv m 0 0 3 Hi) as Hc. set (m0 := clear m 0 0 3) in *. cbv zeta.
  destruct (Nat.ltb_spec size MSG_HEADER) as [|Hsz]; [eauto|]. unfold MSG_HEADER in *.
  do 7 (match goal with |- context [fetch ?n ?q] =>
    destruct (fetch_cases n q) as [(? & -> & ?)|(-> & ?)] end;
    [rewrite bind_ok; cbn beta iota|right; split; [done|len]]).
  match goal with |- context [(?a <? ?b)%nat] => destruct (Nat.ltb_spec a b) end; [eauto|].
  match goal with |- context [get_targets ?n ?q] =>
    destruct (get_targets_cases n q) as [(? & -> & ?)|(-> & ?)] end;
    [rewrite bind_ok; cbn beta iota|right; split; [done|len]].
  match goal with |- context [fetch_bytes ?n ?q] =>
    destruct (fetch_bytes_cases n q) as [(-> & ?)|(-> & ?)] end;
    [rewrite bind_ok; cbn beta iota|right; split; [done|len]].
  match goal with |- context [store ?m1 ?bs false] =>
    destruct (store_spec m1 bs false) as (m' & -> & _) end; [exact Hc|reflexivity|].
  rewrite bind_ok. cbn. eauto.
Qed.

(** *** Sequences of items, as the handlers of the protocol store and extract them *)

Inductive item :=
  | Int (n : nat) (z : Z)          (* an integer of [n] bytes *)
  | Sized (bs : list byte).        (* bytes stored with their size *)

Definition item_ok (i : item) : Prop :=
  match i with
  | Int n z => (0 < n)%nat ∧ fits (8 * Z.of_nat n) z
  | Sized bs => fits 32 (Z.of_nat (length bs))
  end.

Definition item_wire (i : item) : list byte :=
  match i with
  | Int n z => le_bytes n z
  | Sized bs => le_bytes 4 (Z.of_nat (length bs)) ++ bs
  end.

Fixpoint store_all (its : list item) (m : Message) : outcome Message :=
  match its with
  | [] => Ok m
  | i :: its =>
      '(m, _) ← match i with
                | Int n z => store_int n m z
                | Sized bs => store m bs true
                end;
      store_all its m
  end.

(** Extract items of the given shape. *)
Fixpoint extract_all (its : list item) (m : Message) : outcome (list item * Message) :=
  match its with
  | [] => Ok ([], m)
  | i :: its =>
      '(i, m) ← match i with
                | Int n _ => '(m, z, _) ← extract_int n m 0 false; Ok (Int n z, m)
                | Sized _ => '(m, bs, _) ← extract m 0 false; Ok (Sized (default [] bs), m)
                end;
      '(l, m) ← extract_all its m;
      Ok (i :: l, m)
  end.

Lemma store_all_spec its m :
  Message_inv m → malloc m = true →
  ∃ m', store_all its m = Ok m' ∧ Message_inv m'
  ∧ content m' = content m ++ concat (item_wire <$> its).
Proof.
  revert m. induction its as [|i its IH]; intros m Hi Ha.
  - exists m. cbn. by rewrite app_nil_r.
  - assert (∃ m1, (match i with Int n z => store_int n m z | Sized bs => store m bs true end)
                  = Ok (m1, true) ∧ appends m m1 (item_wire i)) as (m1 & E & Hap).
    { destruct i as [n z|bs]; [exact (store_spec m (le_bytes n z) false Hi Ha)
                              |exact (store_spec m bs true Hi Ha)]. }
    cbn [store_all]. rewrite E, bind_ok. cbn beta iota.
    destruct Hap as (I1 & C1 & _ & Hh).
    destruct (IH m1) as (m' & E' & I' & C'); [done|by destruct Hh as (_ & _ & _ & _ & _ & _ & ->)|].
    exists m'. splits; [done|done|]. rewrite C', C1, <- app_assoc. done.
Qed.

Lemma extract_int_spec n m old z tl :
  Message_inv m → (0 < n)%nat → 0 ≤ z < 2 ^ (8 * Z.of_nat n) →
  drop (mcurr m) (content m) = le_bytes n z ++ tl →
  ∃ m', extract_int n m old false = Ok (m', z, n) ∧ Message_inv m'
  ∧ drop (mcurr m') (content m') = tl ∧ content m' = content m
  ∧ mcurr m' = (mcurr m + n)%nat ∧ same_head m' m.
Proof.
  intros Hi Hn Hz Hd. pose proof (extract_spec m n Hi Hn) as Hs.
  assert (Hl : (n ≤ msize m - mcurr m)%nat).
  { rewrite <- (length_content m), <- length_drop, Hd, length_app, length_le_bytes by done. lia. }
  destruct (Nat.leb_spec (mcurr m + n) (msize m)); [|lia].
  destruct Hs as (m1 & E & I1 & C1 & _ & P1 & S1). exists m1.
  unfold extract_int. rewrite E, !bind_ok. cbn beta iota.
  rewrite Hd, take_app_len, le_val_bytes, Z.mod_small by (done || by rewrite length_le_bytes).
  splits; try done. rewrite C1, P1, <- drop_drop, Hd.
  apply drop_app_len. by rewrite length_le_bytes.
Qed.

Lemma extract_all_spec its m tl :
  Message_inv m → Forall item_ok its →
  drop (mcurr m) (content m) = concat (item_wire <$> its) ++ tl →
  ∃ m', extract_all its m = Ok (its, m') ∧ drop (mcurr m') (content m') = tl.
Proof.
  revert m. induction its as [|i its IH]; intros m Hi Hok Hd; [by exists m|].
  inversion_clear Hok as [|? ? Hx Hok']. cbn [fmap list_fmap concat] in Hd.
  rewrite <- app_assoc in Hd. cbn [extract_all].
  assert (∃ m1, (match i with
                 | Int n _ => '(m, z, _) ← extract_int n m 0 false; Ok (Int n z, m)
                 | Sized _ => '(m, bs, _) ← extract m 0 false; Ok (Sized (default [] bs), m)
                 end) = Ok (i, m1) ∧ Message_inv m1
          ∧ drop (mcurr m1) (content m1) = concat (item_wire <$> its) ++ tl)
    as (m1 & -> & Hi1 & Hd1).
  { destruct i as [n z|bs]; cbn [item_wire item_ok] in *.
    - destruct Hx as [Hn Hz].
      destruct (extract_int_spec n m 0 z _ Hi Hn Hz Hd) as (m1 & E & I1 & D1 & _).
      exists m1. by rewrite E, bind_ok. 
    - rewrite <- app_assoc in Hd.
      destruct (extract_sized_spec m bs _ Hi Hx Hd) as (m1 & E & I1 & C1 & P1 & _).
      exists m1. rewrite E, bind_ok. cbn. splits; [done|done|].
      rewrite C1, P1, <- !drop_drop, Hd, (drop_app_len (le_bytes 4 _)) by by rewrite length_le_bytes.
      by apply drop_app_len. }
  rewrite bind_ok. cbn beta iota.
  destruct (IH m1 Hi1 Hok' Hd1) as (m' & -> & Ht). rewrite bind_ok. by exists m'.
Qed.

(** *** Properties *)

(** Whatever sequence of integers and size-prefixed byte strings is stored in a new
    message, extracting the same shapes after [reset ()] returns exactly the values
    stored, in order, and consumes the whole content, growth of the buffer included. *)
Theorem store_extract_roundtrip its type sender :
  Forall item_ok its →
  ∃ m1 m2, store_all its (Message_new type sender) = Ok m1
  ∧ content m1 = concat (item_wire <$> its)
  ∧ extract_all its (reset m1) = Ok (its, m2)
  ∧ drop (mcurr m2) (content m2) = [].
Proof.
  intros Hok.
  destruct (store_all_spec its (Message_new type sender)) as (m1 & E & I1 & C1);
    [apply Message_new_inv|done|].
  destruct (extract_all_spec its (reset m1) []) as (m2 & E2 & D2).
  - destruct I1 as [I1 _]. split; cbn; lia.
  - done.
  - change (content (reset m1)) with (content m1). rewrite C1, app_nil_r. done.
  - exists m1, m2. splits; done.
Qed.

Definition items_example : list item :=
  [Int 8 4242; Sized [Byte.x41; Byte.x42]; Int 1 7; Sized []].

Lemma store_extract_roundtrip_witness :
  ∃ m1 m2, store_all items_example (Message_new 13 5) = Ok m1
  ∧ extract_all items_example (reset m1) = Ok (items_example, m2).
Proof.
  assert (H : Forall item_ok items_example) by (repeat constructor; cbn; lia).
  destruct (store_extract_roundtrip items_example 13 5 H) as (m1 & m2 & E1 & _ & E2 & _).
  exists m1, m2. split; [exact E1|exact E2].
Defined.

(** C40: A message written by [serialize] into a large enough buffer and read back by
    [deserialize], whatever follows it in memory, is content-equal to the original and
    ready to be extracted from the start, provided it has at most 255 targets. The
    value returned is the content size plus the fixed header: the targets are not
    counted in it. *)
Theorem message_roundtrip m old mem rest :
  Message_inv m → Message_inv old → Message_valid m → (length (targets m) < 256)%nat →
  (Message_sizeOf m ≤ length mem)%nat →
  ∃ mem' m', Message_serialize m (mem, 0%nat) = Ok (mem', Message_sizeOf m)
  ∧ Message_deserialize old (Some (mem' ++ rest)) (Message_sizeOf m)
    = Ok (m', (msize m + MSG_HEADER)%nat)
  ∧ Message_contentEquals m' m ∧ mcurr m' = 0%nat.
Proof.
  intros Hi Ho Hv Ht Hl. pose proof (length_msg_wire m Hi) as Hw.
  set (mem' := msg_wire m ++ drop (length (msg_wire m)) mem).
  destruct (Message_deserialize_wire m old (drop (length (msg_wire m)) mem ++ rest)
              (Message_sizeOf m)) as (m' & E & Hc & Hp & _); [done..|].
  exists mem', m'. splits; [| |done|done].
  - rewrite Message_serialize_put, put_start by (done || lia). unfold mem'. by rewrite Hw.
  - unfold mem'. by rewrite <- app_assoc.
Qed.

Definition msg_example : Message :=
  mkMsg 281474976710657 2 13 2 1 1 [Byte.x68; Byte.x69; Byte.x00] [5; 6] 1 2 true.

Lemma message_roundtrip_witness :
  ∃ mem' m', Message_serialize msg_example (replicate 40 Byte.x00, 0%nat) = Ok (mem', 36%nat)
  ∧ Message_deserialize (Message_new 0 0) (Some (mem' ++ [])) 36 = Ok (m', 20%nat)
  ∧ targets m' = [5; 6].
Proof.
  assert (Hi : Message_inv msg_example) by (split; cbn; lia).
  assert (Hv : Message_valid msg_example) by (repeat (split || constructor); done).
  destruct (message_roundtrip msg_example (Message_new 0 0) (replicate 40 Byte.x00) []
              Hi (Message_new_inv 0 0) Hv) as (mem' & m' & E1 & E2 & Hc & _);
    [cbn; lia|apply Nat.leb_le; reflexivity|].
  exists mem', m'. split; [exact E1|]. split; [exact E2|apply Hc].
Defined.

Lemma get_targets_length n p ts q : get_targets n p = Ok (ts, q) → length ts = n.
Proof.
  revert p ts q. induction n as [|n IH]; intros p ts q H; [by injection H as <- _|].
  cbn [get_targets] in H. run_inv H. destruct r as [t p1]. run_inv H. destruct r as [l p2].
  injection H as <- <-. cbn. f_equal. eauto.
Qed.

Lemma expand_targets m n m' : expand m n = Ok m' → targets m' = targets m.
Proof.
  unfold expand. destruct (Nat.leb n (mfree m)); [by intros [= <-]|]. cbn zeta. intros H.
  run_inv H. destruct r as [b1 q1]. run_inv H. destruct r as [b2 q2]. by injection H as <-.
Qed.

Lemma write_curr_targets m bs m' : write_curr m bs = Ok m' → targets m' = targets m.
Proof. unfold write_curr. intros H. run_inv H. destruct r as [d k]. by injection H as <-. Qed.

Lemma store_targets m bs m' b : store m bs false = Ok (m', b) → targets m' = targets m.
Proof.
  unfold store. destruct (malloc m); cbn [negb]; [|by intros [= <- _]].
  intros H. run_inv H. cbn beta iota zeta in H. rewrite bind_ok in H. run_inv H.
  injection H as <- _. apply write_curr_targets in E0. apply expand_targets in E.
  cbn [addSize with_buf targets] in *. congruence.
Qed.

(** A message obtained by [deserialize] has at most 255 targets, because
    [serialize] sends their number in one byte ([listsize_t]): a message with 256
    targets or more never arrives with its targets. *)
Theorem deserialize_target_bound old p size m' n :
  Message_deserialize old p size = Ok (m', n) → n ≠ 0%nat →
  (length (targets m') < 256)%nat.
Proof.
  unfold Message_deserialize. cbn zeta. destruct p as [p|]; [|by intros [= _ <-]].
  destruct (size <? MSG_HEADER)%nat; [by intros [= _ <-]|]. intros H Hn.
  do 7 (run_inv H; destruct r as [? ?]).
  destruct (_ <? _)%nat; [by injection H as _ <-|].
  run_inv H; destruct r as [? ?]. run_inv H; destruct r as [? ?]. run_inv H; destruct r as [m2 ok].
  destruct ok; cbn [negb] in H; [|by injection H as _ <-]. injection H as <- _.
  apply get_targets_length in E6. apply store_targets in E8.
  apply fetch_inv in E5 as (bs & _ & Hl & ->). pose proof (le_val_fits bs) as Hb.
  rewrite Hl in Hb. change (2 ^ (8 * Z.of_nat 1)) with 256 in Hb.
  change (targets (with_buf m2 (mdata m2) (msize m2) (mfree m2) 0)) with (targets m2).
  rewrite E8. cbn [with_targets targets clear]. cbn. lia.
Qed.

Lemma deserialize_target_bound_witness :
  ∃ m', Message_deserialize (Message_new 0 0) (Some (msg_wire msg_example)) 36 = Ok (m', 20%nat)
  ∧ (length (targets m') < 256)%nat.
Proof.
  destruct (Message_deserialize (Message_new 0 0) (Some (msg_wire msg_example)) 36)
    as [[m' n]|] eqn:E; [|vm_compute in E; discriminate].
  assert (Hn : n = 20%nat) by (vm_compute in E; congruence).
  exists m'. split; [by rewrite Hn|].
  apply (deserialize_target_bound _ _ _ _ _ E). by rewrite Hn.
Defined.
