(* ===== verification/NCMessage.v ===== *)
(** The network-coding header and message: VASTnet/udpnc_packet_factory.{h,cpp} and
    VASTnet/udpncmessage.{h,cpp}.

    [UDPNCHeader] is two 32-bit words of bit fields, first field in the low bits (the
    layout of the x86-64 targets). Members that C++ leaves uninitialised are arguments
    named [junk]. *)

From S2P Require Import Prelude Bytes Float Serial.
Local Open Scope Z_scope.

Definition START_BITS : Z := 13.
Definition END_BITS : Z := 14.
Definition MAX_PACKET_SIZE : nat := 500.
Definition GENSIZE : Z := 1.
Definition NET_ID_UNASSIGNED : Z := 0.

(** *** Header *)

Record UDPNCHeader := mkNCH {
  h_start : Z; h_ordering : Z; h_gensize : Z; h_generation : Z; enc_packet_count : Z;
  packetsize : Z; h_padding : Z; h_end : Z }.

#[export] Instance UDPNCHeader_eq_dec : EqDecision UDPNCHeader.
Proof. solve_decision. Defined.

Definition header_valid (h : UDPNCHeader) : Prop :=
  fits 4 (h_start h) ∧ fits 8 (h_ordering h) ∧ fits 4 (h_gensize h)
  ∧ fits 8 (h_generation h) ∧ fits 8 (enc_packet_count h)
  ∧ fits 24 (packetsize h) ∧ fits 4 (h_padding h) ∧ fits 4 (h_end h).

#[export] Instance header_valid_dec h : Decision (header_valid h).
Proof. unfold header_valid. apply _. Defined.

Definition header_word0 (h : UDPNCHeader) : Z :=
  h_start h + h_ordering h * 2 ^ 4 + h_gensize h * 2 ^ 12 + h_generation h * 2 ^ 16
  + enc_packet_count h * 2 ^ 24.
Definition header_word1 (h : UDPNCHeader) : Z :=
  packetsize h + h_padding h * 2 ^ 24 + h_end h * 2 ^ 28.

(** The object representation, [sizeof (UDPNCHeader)] = 8 bytes. *)
Definition header_bytes (h : UDPNCHeader) : list byte :=
  le_bytes 4 (header_word0 h) ++ le_bytes 4 (header_word1 h).

Definition header_of_words (w0 w1 : Z) : UDPNCHeader :=
  mkNCH (w0 mod 2 ^ 4) (w0 / 2 ^ 4 mod 2 ^ 8) (w0 / 2 ^ 12 mod 2 ^ 4)
        (w0 / 2 ^ 16 mod 2 ^ 8) (w0 / 2 ^ 24 mod 2 ^ 8)
        (w1 mod 2 ^ 24) (w1 / 2 ^ 24 mod 2 ^ 4) (w1 / 2 ^ 28 mod 2 ^ 4).

(** [memcpy (&header, p, sizeof (UDPNCHeader))] *)
Definition fetch_header (p : list byte) : outcome (UDPNCHeader * list byte) :=
  '(w0, p) ← fetch 4 p;
  '(w1, p) ← fetch 4 p;
  Ok (header_of_words w0 w1, p).

Definition isUDPNCHeader (h : UDPNCHeader) : bool :=
  (h_start h =? START_BITS) && (h_end h =? END_BITS).

Definition isUDPNCHeadersEqual (a b : UDPNCHeader) : bool :=
  (h_start a =? h_start b) && (h_ordering a =? h_ordering b)
  && (packetsize a =? packetsize b) && (h_gensize a =? h_gensize b)
  && (h_generation a =? h_generation b) && (enc_packet_count a =? enc_packet_count b)
  && (h_padding a =? h_padding b) && (h_end a =? h_end b).

Definition getUDPNCHeaderOffset (h : UDPNCHeader) : Z :=
  8 + enc_packet_count h * 8 + enc_packet_count h * 8.

(** *** Header factory: its own header and three [int] members *)

Record UDPNCHeader_factory := mkFactory {
  f_header : UDPNCHeader; f_ordering : Z; f_gensize : Z; f_generation : Z }.

Definition resetUDPNCHeader (f : UDPNCHeader_factory) (h : UDPNCHeader) : UDPNCHeader :=
  mkNCH (h_start h) (u8 (f_ordering f)) (wrap 4 (f_gensize f)) (u8 (f_generation f)) 0
        0 (h_padding h) (h_end h).

(** [UDPNCHeader_factory (gensize, generation, ordering)]: the arguments reach the
    header only, the members keep their default 0. *)
Definition factory_make (junk : UDPNCHeader) (gensize generation ordering : Z)
    : UDPNCHeader_factory :=
  let f := mkFactory junk 0 0 0 in
  let h := resetUDPNCHeader f junk in
  mkFactory (mkNCH (h_start h) (u8 ordering) (wrap 4 gensize) (u8 generation)
                   (enc_packet_count h) (packetsize h) (h_padding h) (h_end h)) 0 0 0.

Definition build (f : UDPNCHeader_factory) : UDPNCHeader * UDPNCHeader_factory :=
  let h := f_header f in
  let h := mkNCH START_BITS (h_ordering h) (h_gensize h) (h_generation h)
                 (enc_packet_count h) (packetsize h) (h_padding h) END_BITS in
  let h := resetUDPNCHeader f h in
  let ord := f_ordering f + 1 in
  let h := mkNCH (h_start h) (u8 ord) (h_gensize h) (h_generation h)
                 (enc_packet_count h) (packetsize h) (h_padding h) (h_end h) in
  (h, mkFactory h ord (f_gensize f) (f_generation f)).

(** *** Message *)

Record UDPNCMessage := mkNCM {
  header : UDPNCHeader;
  pkt_ids : list Z; from_ids : list Z; to_addrs : list IPaddr;
  msg : list byte; checksum : Z;
  socket_addr : IPaddr              (* not serialized *)
}.

#[export] Instance UDPNCMessage_eq_dec : EqDecision UDPNCMessage.
Proof. solve_decision. Defined.

(** [UDPNCMessage ()] leaves the header uninitialised; [UDPNCMessage (header)] copies
    its argument (and then clears the count of the argument, not of the member). *)
Definition NCM_default (junk : UDPNCHeader) : UDPNCMessage :=
  mkNCM junk [] [] [] [] 0 IPaddr_null.
Definition NCM_of_header (h : UDPNCHeader) : UDPNCMessage :=
  mkNCM h [] [] [] [] 0 IPaddr_null.

Definition with_header (m : UDPNCMessage) (h : UDPNCHeader) : UDPNCMessage :=
  mkNCM h (pkt_ids m) (from_ids m) (to_addrs m) (msg m) (checksum m) (socket_addr m).

Definition set_count (h : UDPNCHeader) (c : Z) : UDPNCHeader :=
  mkNCH (h_start h) (h_ordering h) (h_gensize h) (h_generation h) (u8 c)
        (packetsize h) (h_padding h) (h_end h).
Definition set_packetsize (h : UDPNCHeader) (s : Z) : UDPNCHeader :=
  mkNCH (h_start h) (h_ordering h) (h_gensize h) (h_generation h) (enc_packet_count h)
        (wrap 24 s) (h_padding h) (h_end h).
Definition set_ordering (h : UDPNCHeader) (o : Z) : UDPNCHeader :=
  mkNCH (h_start h) (u8 o) (h_gensize h) (h_generation h) (enc_packet_count h)
        (packetsize h) (h_padding h) (h_end h).

Definition getFirstFromId (m : UDPNCMessage) : outcome Z := front (from_ids m).

Definition putPacketId (m : UDPNCMessage) (pkt_id : Z) (autonumber : bool) : UDPNCMessage :=
  let ids := pkt_ids m ++ [pkt_id] in
  mkNCM (if autonumber then set_count (header m) (Z.of_nat (length ids)) else header m)
        ids (from_ids m) (to_addrs m) (msg m) (checksum m) (socket_addr m).

Definition putFromId (m : UDPNCMessage) (from_id : Z) : UDPNCMessage :=
  mkNCM (header m) (pkt_ids m) (from_ids m ++ [from_id]) (to_addrs m) (msg m)
        (checksum m) (socket_addr m).

Definition putToAddr (m : UDPNCMessage) (addr : IPaddr) : UDPNCMessage :=
  mkNCM (header m) (pkt_ids m) (from_ids m) (to_addrs m ++ [addr]) (msg m)
        (checksum m) (socket_addr m).

Definition putIdsAddr (m : UDPNCMessage) (pkt_id from_id : Z) (addr : IPaddr)
    (autonumber : bool) : UDPNCMessage :=
  putToAddr (putFromId (putPacketId m pkt_id autonumber) from_id) addr.

Definition with_msg (m : UDPNCMessage) (h : UDPNCHeader) (bs : list byte) : UDPNCMessage :=
  mkNCM h (pkt_ids m) (from_ids m) (to_addrs m) bs (checksum m) (socket_addr m).

Definition putMessage (m : UDPNCMessage) (bs : list byte) : UDPNCMessage :=
  with_msg m (set_packetsize (header m) (Z.of_nat (length bs))) bs.

Definition getMessageSize (m : UDPNCMessage) : Z := packetsize (header m).
Definition putOrdering (m : UDPNCMessage) (o : Z) : UDPNCMessage :=
  with_header m (set_ordering (header m) o).
Definition getOrdering (m : UDPNCMessage) : Z := h_ordering (header m).

Definition setChecksum (m : UDPNCMessage) (c : Z) : UDPNCMessage :=
  mkNCM (header m) (pkt_ids m) (from_ids m) (to_addrs m) (msg m) c (socket_addr m).

Definition set_socket_addr (m : UDPNCMessage) (a : IPaddr) : UDPNCMessage :=
  mkNCM (header m) (pkt_ids m) (from_ids m) (to_addrs m) (msg m) (checksum m) a.

(** [sizeOf ()]: the port and the padding of the addresses are counted once, not once
    per address. *)
Definition NCM_sizeOf (m : UDPNCMessage) : Z :=
  let c := enc_packet_count (header m) in
  8 + c * 8 + c * 8 + (c * 4 + 2 * 2) + packetsize (header m) + 4.

(** The loop of [serialize] from index [i] on, [k] iterations left. *)
Fixpoint put_entries (m : UDPNCMessage) (i k : nat) (c : cursor) : outcome cursor :=
  match k with
  | O => Ok c
  | S k =>
      pid ← at_idx (pkt_ids m) i;
      c ← put (le_bytes 8 pid) c;
      fid ← at_idx (from_ids m) i;
      c ← put (le_bytes 8 fid) c;
      addr ← at_idx (to_addrs m) i;
      c ← IPaddr_serialize addr c;
      put_entries m (S i) k c
  end.

(** [serialize (buffer)], [buffer] not [NULL]: the buffer afterwards and the value
    returned. *)
Definition NCM_serialize (m : UDPNCMessage) (buffer : list byte)
    : outcome (list byte * nat) :=
  c ← put (header_bytes (header m)) (buffer, 0%nat);
  if negb ((length (pkt_ids m) =? length (from_ids m))%nat
           && (length (from_ids m) =? length (to_addrs m))%nat)
  then Fail LogicError else
  c ← put (le_bytes 4 (checksum m)) c;
  '(buffer, n) ← put_entries m 0 (Z.to_nat (enc_packet_count (header m))) c;
  let ps := Z.to_nat (packetsize (header m)) in
  '(buffer, _) ← put (take ps (msg m)) (buffer, n);
  Ok (buffer, (n + ps)%nat).

(** The value passed as [size] to [IPaddr::deserialize], which only compares it with
    8: [size - sizeof (UDPNCHeader) - i * 24], a [size_t]. *)
Definition remaining_bytes (size i : nat) : nat :=
  Z.to_nat (Z.min (u64 (Z.of_nat size - 8 - Z.of_nat i * 24)) 8).

(** The loop of [deserialize]: [i] entries read, [k] left, [p] at [buffer + n]. *)
Fixpoint get_entries (m : UDPNCMessage) (size i k : nat) (p : list byte) (n : nat)
    : outcome (UDPNCMessage * list byte * nat) :=
  match k with
  | O => Ok (m, p, n)
  | S k =>
      '(pid, p) ← fetch 8 p;
      let m := putPacketId m pid false in
      '(fid, p) ← fetch 8 p;
      let m := putFromId m fid in
      '(addr, _) ← IPaddr_deserialize IPaddr_null (Some p) (remaining_bytes size i);
      let m := putToAddr m addr in
      get_entries m size (S i) k (drop 8 p) (n + 24)%nat
  end.

(** [deserialize (buffer, size)] on a non-[NULL] buffer; [buffer] is the memory from
    the pointer on, which may be longer or shorter than [size]. The branch for a wrong
    header prints ten bytes of the buffer. *)
Definition NCM_deserialize (m : UDPNCMessage) (buffer : list byte) (size : nat)
    : outcome (UDPNCMessage * Z) :=
  if (size <=? 8)%nat then Ok (m, 0) else
  '(h, p) ← fetch_header buffer;
  let m := with_header m h in
  if negb (isUDPNCHeader h) then
    _ ← fetch_bytes 10 buffer; Ok (m, -1)
  else
    '(cs, p) ← fetch 4 p;
    let m := setChecksum m cs in
    '(m, p, n) ← get_entries m size 0 (Z.to_nat (enc_packet_count h)) p 12%nat;
    if Z.of_nat size <? packetsize h then
      if (size <? n)%nat then Fail LengthError else
      '(bs, _) ← fetch_bytes (size - n) p;
      Ok (with_msg m h bs, -1)
    else
      '(bs, _) ← fetch_bytes (Z.to_nat (packetsize h)) p;
      Ok (with_msg m h bs, Z.of_nat n + packetsize h).

Fixpoint list_eqb {A} (eqb : A → A → bool) (l k : list A) : bool :=
  match l, k with
  | [], [] => true
  | x :: l, y :: k => eqb x y && list_eqb eqb l k
  | _, _ => false
  end.

Definition NCM_contentEquals (this other : UDPNCMessage) : bool :=
  isUDPNCHeadersEqual (header other) (header this)
  && list_eqb Z.eqb (pkt_ids other) (pkt_ids this)
  && list_eqb Z.eqb (from_ids other) (from_ids this)
  && list_eqb IPaddr_eqb (to_addrs other) (to_addrs this)
  && (packetsize (header other) =? packetsize (header this))
  && bool_decide (msg other = msg this)
  && (checksum other =? checksum this).

Definition NCM_eqb (this other : UDPNCMessage) : bool :=
  NCM_contentEquals this other && IPaddr_eqb (socket_addr other) (socket_addr this).

(** [generatePacketId]: the splitmix64 finaliser of the host id, plus the number. *)
Definition generatePacketId (id : Z) (sequence_number : Z) : Z :=
  let x := u64 id in
  let x := u64 (x + 0x9e3779b97f4a7c15) in
  let x := Z.lxor x (Z.shiftr x 30) in
  let x := u64 (x * 0xbf58476d1ce4e5b9) in
  let x := Z.lxor x (Z.shiftr x 27) in
  let x := u64 (x * 0x94d049bb133111eb) in
  let x := Z.lxor x (Z.shiftr x 31) in
  u64 (x + sequence_number).

#[global] Arguments header_bytes : simpl never.
#[global] Arguments fetch_header : simpl never.

(** *** Lemmas: header *)

Lemma length_header_bytes h : length (header_bytes h) = 8%nat.
Proof. unfold header_bytes. by rewrite length_app, !length_le_bytes. Qed.
#[export] Hint Rewrite length_header_bytes : vast.

Ltac pows := change (2 ^ 4) with 16 in *; change (2 ^ 8) with 256 in *;
  change (2 ^ 12) with 4096 in *; change (2 ^ 16) with 65536 in *;
  change (2 ^ 24) with 16777216 in *; change (2 ^ 28) with 268435456 in *;
  change (2 ^ 32) with 4294967296 in *.

Lemma header_of_words_inv h :
  header_valid h → header_of_words (header_word0 h) (header_word1 h) = h.
Proof.
  destruct h as [a b c d e f g i]. unfold header_valid, fits. cbn. pows.
  intros (? & ? & ? & ? & ? & ? & ? & ?).
  unfold header_of_words, header_word0, header_word1.
  cbn [h_start h_ordering h_gensize h_generation enc_packet_count packetsize h_padding h_end].
  pows. f_equal; Z.div_mod_to_equations; lia.
Qed.

Lemma header_words_fit h :
  header_valid h → fits 32 (header_word0 h) ∧ fits 32 (header_word1 h).
Proof.
  unfold header_valid, fits, header_word0, header_word1. pows. lia.
Qed.

Lemma fetch_header_bytes h q :
  header_valid h → fetch_header (header_bytes h ++ q) = Ok (h, q).
Proof.
  intros Hv. destruct (header_words_fit h Hv) as [H0 H1].
  unfold fetch_header, header_bytes. rewrite <- app_assoc. do 2 fetch_step.
  by rewrite header_of_words_inv.
Qed.

Lemma fetch_header_valid p h q : fetch_header p = Ok (h, q) → header_valid h.
Proof.
  unfold fetch_header. intros H. do 2 (run_inv H; destruct r as [? ?]).
  injection H as <- _. unfold header_valid, fits, header_of_words. cbn. pows.
  repeat match goal with |- context [?a mod ?b] =>
    pose proof (Z.mod_pos_bound a b ltac:(lia)); generalize dependent (a mod b); intros end.
  lia.
Qed.

Lemma reset_valid f h : header_valid h → header_valid (resetUDPNCHeader f h).
Proof.
  unfold header_valid. cbn. intros (? & ? & ? & ? & ? & ? & ? & ?).
  splits; auto with vast; try apply wrap_fits; try lia; split; lia.
Qed.

(** *** Lemmas: the wire image of a message *)

Definition entry_wire (pid fid : Z) (a : IPaddr) : list byte :=
  le_bytes 8 pid ++ le_bytes 8 fid ++ wire a.

Fixpoint entries_wire (ps fs : list Z) (ads : list IPaddr) : list byte :=
  match ps, fs, ads with
  | p :: ps, f :: fs, a :: ads => entry_wire p f a ++ entries_wire ps fs ads
  | _, _, _ => []
  end.

(** A message that [serialize] can write and [deserialize] can read: one address and
    one host id per packet id, the counts of the header those of the lists and of the
    payload. *)
Record NCM_wf (m : UDPNCMessage) : Prop := mk_NCM_wf {
  wf_header : header_valid (header m);
  wf_start : isUDPNCHeader (header m) = true;
  wf_pids : Z.of_nat (length (pkt_ids m)) = enc_packet_count (header m);
  wf_fids : length (from_ids m) = length (pkt_ids m);
  wf_addrs : length (to_addrs m) = length (pkt_ids m);
  wf_msg : Z.of_nat (length (msg m)) = packetsize (header m);
  wf_pids_fit : Forall (fits 64) (pkt_ids m);
  wf_fids_fit : Forall (fits 64) (from_ids m);
  wf_addrs_valid : Forall IPaddr_valid (to_addrs m);
  wf_checksum : fits 32 (checksum m) }.

Definition NCM_wire (m : UDPNCMessage) : list byte :=
  header_bytes (header m) ++ le_bytes 4 (checksum m)
  ++ entries_wire (pkt_ids m) (from_ids m) (to_addrs m) ++ msg m.

Lemma length_wire_IPaddr (a : IPaddr) : length (wire a) = 8%nat.
Proof. exact (wire_length a). Qed.

Lemma length_entry_wire p f a : length (entry_wire p f a) = 24%nat.
Proof. unfold entry_wire. by rewrite !length_app, !length_le_bytes, length_wire_IPaddr. Qed.

Lemma length_entries_wire ps fs ads :
  length fs = length ps → length ads = length ps →
  length (entries_wire ps fs ads) = (24 * length ps)%nat.
Proof.
  revert fs ads. induction ps as [|p ps IH]; intros [|f fs] [|a ads] Hf Ha; try done.
  cbn [entries_wire]. rewrite length_app, length_entry_wire, IH by (cbn in *; lia).
  cbn [length]. lia.
Qed.

Lemma bind_put_IPaddr (a : IPaddr) m : m ≫= IPaddr_serialize a = m ≫= put (wire a).
Proof. destruct m as [c|]; [exact (serialize_put a c)|done]. Qed.

Lemma bind_put_entry {B} w p f a c (k : cursor → outcome B) :
  (c ← put w c; c ← put (le_bytes 8 p) c; c ← put (le_bytes 8 f) c;
   c ← IPaddr_serialize a c; k c) = put (w ++ entry_wire p f a) c ≫= k.
Proof.
  unfold entry_wire. rewrite <- put_put, bind_assoc.
  destruct (put w c) as [c1|]; [|done]. rewrite !bind_ok, <- put_put, bind_assoc.
  destruct (put (le_bytes 8 p) c1) as [c2|]; [|done]. rewrite !bind_ok, <- put_put, bind_assoc.
  destruct (put (le_bytes 8 f) c2) as [c3|]; [|done]. rewrite !bind_ok.
  change (IPaddr_serialize a c3) with (serialize a c3). by rewrite (serialize_put a).
Qed.

Lemma put_entries_wire m k i w c :
  (i + k = length (pkt_ids m))%nat →
  length (from_ids m) = length (pkt_ids m) → length (to_addrs m) = length (pkt_ids m) →
  put w c ≫= put_entries m i k =
  put (w ++ entries_wire (drop i (pkt_ids m)) (drop i (from_ids m)) (drop i (to_addrs m))) c.
Proof.
  revert i w. induction k as [|k IH]; intros i w Hi Hf Ha.
  - rewrite drop_ge by lia. cbn. rewrite app_nil_r. by destruct (put w c).
  - destruct (lookup_lt_is_Some_2 (pkt_ids m) i) as [p Hp]; [lia|].
    destruct (lookup_lt_is_Some_2 (from_ids m) i) as [f Hff]; [lia|].
    destruct (lookup_lt_is_Some_2 (to_addrs m) i) as [a Haa]; [lia|].
    rewrite (drop_S _ _ _ Hp), (drop_S _ _ _ Hff), (drop_S _ _ _ Haa).
    cbn [entries_wire put_entries]. rewrite (at_idx_ok _ _ _ Hp), (at_idx_ok _ _ _ Hff),
      (at_idx_ok _ _ _ Haa). cbn beta iota delta [mbind outcome_bind].
    rewrite app_assoc, <- IH by lia. by rewrite <- bind_put_entry.
Qed.

Lemma NCM_serialize_put m mem :
  NCM_wf m → NCM_serialize m mem = put (NCM_wire m) (mem, 0%nat).
Proof.
  intros [Hv Hs Hp Hf Ha Hm _ _ _ _]. unfold NCM_serialize.
  rewrite <- Hp, <- Hm, !Nat2Z.id, Hf, Ha, !Nat.eqb_refl. cbn [negb andb].
  rewrite take_ge by lia.
  transitivity ('(b, n) ← put (NCM_wire m) (mem, 0%nat); Ok (b, n) : outcome (list byte * nat)).
  - unfold NCM_wire. rewrite <- (put_put (header_bytes _)), bind_assoc.
    destruct (put (header_bytes (header m)) (mem, 0%nat)) as [c1|]; [cbn|done].
    rewrite <- bind_assoc, put_entries_wire by (done || lia). rewrite !drop_0.
    rewrite (app_assoc (le_bytes 4 _)), <- (put_put _ (msg m)), bind_assoc.
    destruct (put _ c1) as [[b2 n2]|]; [cbn|done].
    destruct (put (msg m) (b2, n2)) as [[b3 n3]|] eqn:E; [cbn|done].
    by apply put_length in E as [_ ->].
  - by destruct (put (NCM_wire m) (mem, 0%nat)) as [[b n]|].
Qed.

Lemma NCM_serialize_wire m mem :
  NCM_wf m → (length (NCM_wire m) ≤ length mem)%nat →
  NCM_serialize m mem =
  Ok (NCM_wire m ++ drop (length (NCM_wire m)) mem, length (NCM_wire m)).
Proof. intros Hw Hl. by rewrite NCM_serialize_put, put_start. Qed.

Lemma NCM_serialize_overflow m mem :
  NCM_wf m → (length mem < length (NCM_wire m))%nat →
  NCM_serialize m mem = Fail OutOfBounds.
Proof.
  intros Hw Hl. rewrite NCM_serialize_put by done. unfold put. cbn [fst snd].
  destruct (Nat.leb_spec (0 + length (NCM_wire m)) (length mem)); [lia|done].
Qed.

Lemma length_NCM_wire m :
  NCM_wf m →
  Z.of_nat (length (NCM_wire m)) = 12 + 24 * enc_packet_count (header m) + packetsize (header m).
Proof.
  intros [Hv Hs Hp Hf Ha Hm _ _ _ _]. unfold NCM_wire.
  rewrite !length_app, length_header_bytes, length_le_bytes, length_entries_wire by done. lia.
Qed.

Lemma IPaddr_restore (a old : IPaddr) rest n :
  IPaddr_valid a → (8 ≤ n)%nat → IPaddr_deserialize old (Some (wire a ++ rest)) n = Ok (a, 8%nat).
Proof. exact (deserialize_wire a old rest n). Qed.

Lemma remaining_enough size i k ps :
  (24 * (i + S k) + ps + 12 ≤ size)%nat → Z.of_nat size < 2 ^ 64 →
  remaining_bytes size i = 8%nat.
Proof.
  intros H Hs. unfold remaining_bytes. rewrite wrap_id by (split; lia). lia.
Qed.

(** Reading entries adds them to whatever the object already lists. *)
Lemma get_entries_wire ps fs ads m size i p n tail :
  length fs = length ps → length ads = length ps →
  Forall (fits 64) ps → Forall (fits 64) fs → Forall IPaddr_valid ads →
  p = entries_wire ps fs ads ++ tail →
  (24 * (i + length ps) + 12 ≤ size)%nat → Z.of_nat size < 2 ^ 64 →
  get_entries m size i (length ps) p n =
  Ok (mkNCM (header m) (pkt_ids m ++ ps) (from_ids m ++ fs) (to_addrs m ++ ads)
            (msg m) (checksum m) (socket_addr m), tail, (n + 24 * length ps)%nat).
Proof.
  revert fs ads m i p n. induction ps as [|pid ps IH];
    intros [|fid fs] [|a ads] m i p n Hf Ha Fp Ff Fa -> Hsz H64; try done.
  - cbn. rewrite !app_nil_r, Nat.add_0_r. by destruct m.
  - inversion_clear Fp. inversion_clear Ff. inversion_clear Fa.
    cbn [length get_entries entries_wire]. unfold entry_wire. rewrite <- !app_assoc.
    do 2 fetch_step. rewrite (remaining_enough size i (length ps) 0) by (done || (cbn in *; lia)).
    rewrite IPaddr_restore, bind_ok by done. cbn beta iota zeta.
    rewrite (IH fs ads); try done; try (cbn in *; lia).
    + replace (n + 24 * S (length ps))%nat with (n + 24 + 24 * length ps)%nat by lia.
      unfold putPacketId, putFromId, putToAddr.
      cbn [header pkt_ids from_ids to_addrs msg checksum socket_addr].
      by rewrite <- !app_assoc.
Qed.

(** What deserializing the image of [m] over [old] leaves. *)
Definition NCM_merge (old m : UDPNCMessage) : UDPNCMessage :=
  mkNCM (header m) (pkt_ids old ++ pkt_ids m) (from_ids old ++ from_ids m)
        (to_addrs old ++ to_addrs m) (msg m) (checksum m) (socket_addr old).

Lemma NCM_deserialize_wire m old tail size :
  NCM_wf m → (length (NCM_wire m) ≤ size)%nat → Z.of_nat size < 2 ^ 64 →
  NCM_deserialize old (NCM_wire m ++ tail) size
  = Ok (NCM_merge old m, Z.of_nat (length (NCM_wire m))).
Proof.
  intros Hw Hl H64. pose proof (length_NCM_wire m Hw) as Hlen.
  destruct Hw as [Hv Hs Hp Hf Ha Hm Fp Ff Fa Hc].
  assert (0 ≤ enc_packet_count (header m)) by apply Hv.
  unfold NCM_deserialize. destruct (Nat.leb_spec size 8); [lia|].
  unfold NCM_wire. rewrite <- !app_assoc.
  rewrite fetch_header_bytes, bind_ok by done. cbn beta iota zeta.
  rewrite Hs. cbn [negb]. fetch_step. rewrite <- Hp, Nat2Z.id.
  rewrite (get_entries_wire _ (from_ids m) (to_addrs m) _ _ _ _ _ (msg m ++ tail));
    try done; [|lia].
  rewrite bind_ok. cbn beta iota zeta.
  destruct (Z.ltb_spec (Z.of_nat size) (packetsize (header m))); [lia|].
  rewrite fetch_bytes_app, bind_ok by lia. cbn beta iota.
  f_equal. f_equal. unfold NCM_wire in Hlen. lia.
Qed.

Lemma get_entries_wf k m size i p n m' p' n' :
  get_entries m size i k p n = Ok (m', p', n') →
  header m' = header m ∧ checksum m' = checksum m ∧
  (n' = n + 24 * k)%nat ∧
  ∃ ps fs ads, pkt_ids m' = pkt_ids m ++ ps ∧ from_ids m' = from_ids m ++ fs
  ∧ to_addrs m' = to_addrs m ++ ads ∧ length ps = k ∧ length fs = k ∧ length ads = k
  ∧ Forall (fits 64) ps ∧ Forall (fits 64) fs ∧ Forall IPaddr_valid ads.
Proof.
  revert m i p n. induction k as [|k IH]; intros m i p n H; cbn [get_entries] in H.
  - injection H as <- <- <-. splits; [done|done|lia|].
    exists [], [], []. by rewrite !app_nil_r.
  - run_inv H. destruct r as [pid p1]. run_inv H. destruct r as [fid p2].
    run_inv H. destruct r as [a sz].
    apply IH in H as (Hh & Hc & Hn & ps & fs & ads & Hp & Hf & Ha & L1 & L2 & L3 & F1 & F2 & F3).
    cbn [header checksum pkt_ids from_ids to_addrs putToAddr putFromId putPacketId] in *.
    splits; [done|done|lia|].
    exists (pid :: ps), (fid :: fs), (a :: ads).
    rewrite Hp, Hf, Ha, <- !app_assoc. cbn [length].
    apply fetch_fits in E, E0.
    assert (IPaddr_valid a) by (eapply IPaddr_deserialize_valid; [|exact E1]; done).
    splits; try congruence; by constructor.
Qed.

(** Whatever the buffer holds, a fresh object that [deserialize] fills and returns a
    positive size for is well formed. *)
Lemma NCM_deserialize_wf junk buffer size m n :
  NCM_deserialize (NCM_default junk) buffer size = Ok (m, n) → 0 < n → NCM_wf m.
Proof.
  unfold NCM_deserialize. intros H Hn.
  destruct (size <=? 8)%nat; [injection H as _ <-; lia|].
  run_inv H. destruct r as [h p]. cbv zeta in H.
  destruct (isUDPNCHeader h) eqn:Es; cbn [negb] in H; cycle 1.
  { run_inv H. injection H as _ <-. lia. }
  run_inv H. destruct r as [cs p1]. run_inv H. destruct r as [[m1 p2] n1].
  destruct (_ <? _).
  { destruct (_ <? _)%nat; [done|]. run_inv H. destruct r. injection H as _ <-. lia. }
  run_inv H. destruct r as [bs p3]. injection H as <- <-.
  apply get_entries_wf in E1 as (Hh & Hc & -> & ps & fs & ads & Hp & Hf & Ha & L1 & L2 & L3 & F1 & F2 & F3).
  pose proof (fetch_header_valid _ _ _ E) as Hv.
  apply fetch_fits in E0. apply fetch_bytes_inv in E2 as [_ Hl].
  assert (0 ≤ enc_packet_count h ∧ 0 ≤ packetsize h) as [? ?] by (split; apply Hv).
  constructor; cbn [header pkt_ids from_ids to_addrs msg checksum with_msg];
    rewrite ?Hp, ?Hf, ?Ha, ?Hc; try done; cbn; try lia; by rewrite ?Hl, ?Z2Nat.id.
Qed.


(** *** [generatePacketId] is a bijection of the host ids *)

Lemma testbit_high x n i : fits n x → 0 ≤ n ≤ i → Z.testbit x i = false.
Proof.
  intros [H0 H1] Hi. destruct (decide (x = 0)) as [->|Hx]; [apply Z.bits_0|].
  apply Z.bits_above_log2; [lia|]. apply Z.log2_lt_pow2; [lia|].
  eapply Z.lt_le_trans; [exact H1|]. apply Z.pow_le_mono_r; lia.
Qed.

Lemma xorshift_inj x y s :
  fits 64 x → fits 64 y → 0 < s →
  Z.lxor x (Z.shiftr x s) = Z.lxor y (Z.shiftr y s) → x = y.
Proof.
  intros Hx Hy Hs E.
  assert (Hk : ∀ (k : nat) i, 0 ≤ i → 64 - Z.of_nat k ≤ i → Z.testbit x i = Z.testbit y i).
  { induction k as [|k IH]; intros i Hi Hk.
    - rewrite (testbit_high x 64), (testbit_high y 64) by (done || lia). done.
    - apply (f_equal (λ z, Z.testbit z i)) in E. cbn beta in E.
      rewrite !Z.lxor_spec, !Z.shiftr_spec, (IH (i + s)) in E by lia.
      by apply (f_equal (λ b, xorb b (Z.testbit y (i + s)))) in E;
        rewrite !xorb_assoc, !xorb_nilpotent, !xorb_false_r in E. }
  apply Z.bits_inj'. intros i Hi. apply (Hk 64%nat); lia.
Qed.

Lemma xorshift_fits x s : fits 64 x → 0 ≤ s → fits 64 (Z.lxor x (Z.shiftr x s)).
Proof.
  intros [Hx0 Hx] Hs.
  assert (H0 : 0 ≤ Z.lxor x (Z.shiftr x s)).
  { apply Z.lxor_nonneg. split; intros; [apply Z.shiftr_nonneg; lia|lia]. }
  split; [done|]. destruct (Z.lt_ge_cases (Z.lxor x (Z.shiftr x s)) (2 ^ 64)) as [|Hge]; [done|].
  assert (Hl : 64 ≤ Z.log2 (Z.lxor x (Z.shiftr x s))).
  { rewrite <- (Z.log2_pow2 64) by lia. by apply Z.log2_le_mono. }
  pose proof (Z.bit_log2 (Z.lxor x (Z.shiftr x s)) ltac:(lia)) as Hb.
  rewrite Z.lxor_spec, Z.shiftr_spec, (testbit_high x 64), (testbit_high x 64) in Hb;
    try split; try done; lia.
Qed.

Lemma mul_inj x y c d :
  fits 64 x → fits 64 y → u64 (c * d) = 1 → u64 (x * c) = u64 (y * c) → x = y.
Proof.
  intros Hx Hy Hd E. apply (f_equal (λ z, u64 (z * d))) in E. cbn beta in E.
  unfold wrap in *. rewrite !Zmult_mod_idemp_l, <- !Z.mul_assoc in E.
  rewrite <- (Zmult_mod_idemp_r (c * d) x), <- (Zmult_mod_idemp_r (c * d) y), Hd, !Z.mul_1_r in E.
  by rewrite !Z.mod_small in E.
Qed.

Lemma add_inj x y c : fits 64 x → fits 64 y → u64 (x + c) = u64 (y + c) → x = y.
Proof.
  unfold wrap, fits. intros Hx Hy E.
  apply (f_equal (λ z, (z - c) mod 2 ^ 64)) in E.
  rewrite !Zminus_mod_idemp_l, !Z.add_simpl_r, !Z.mod_small in E by lia. done.
Qed.

Ltac fit64 := repeat first [apply wrap_fits; lia | apply xorshift_fits; [|lia]].

Lemma generatePacketId_fits id n : fits 64 (generatePacketId id n).
Proof. apply wrap_fits. lia. Qed.

Lemma generatePacketId_seq id n1 n2 :
  generatePacketId id n1 = generatePacketId id n2 → u64 n1 = u64 n2.
Proof.
  unfold generatePacketId. cbn zeta. set (x := Z.lxor _ _). intros E.
  unfold wrap in *. apply (f_equal (λ z, (z - x) mod 2 ^ 64)) in E.
  rewrite !Zminus_mod_idemp_l in E.
  by replace (x + n1 - x) with n1 in E by lia; replace (x + n2 - x) with n2 in E by lia.
Qed.

(** For a given sequence number, distinct host ids get distinct packet ids; for a
    given host, sequence numbers that differ modulo 2^64 do. *)
Theorem generatePacketId_injective id1 id2 n1 n2 :
  fits 64 id1 → fits 64 id2 → generatePacketId id1 n1 = generatePacketId id2 n2 →
  (n1 = n2 → id1 = id2) ∧ (id1 = id2 → u64 n1 = u64 n2).
Proof.
  intros H1 H2 E. split; [|intros ->; by apply generatePacketId_seq in E].
  intros ->. unfold generatePacketId in E. cbn zeta in E.
  rewrite (wrap_id _ id1), (wrap_id _ id2) in E by done.
  apply add_inj in E; [|fit64..].
  apply xorshift_inj in E; [|fit64..|lia].
  apply (mul_inj _ _ _ 0x319642b2d24d8ec3) in E; [|fit64..|reflexivity].
  apply xorshift_inj in E; [|fit64..|lia].
  apply (mul_inj _ _ _ 0x96de1b173f119089) in E; [|fit64..|reflexivity].
  apply xorshift_inj in E; [|fit64..|lia].
  by apply add_inj in E.
Qed.

Lemma generatePacketId_injective_witness :
  fits 64 5 ∧ (generatePacketId 5 1 = generatePacketId 5 1 → u64 1 = u64 1).
Proof.
  assert (H : fits 64 5) by done. split; [exact H|]. intros E.
  exact (proj2 (generatePacketId_injective 5 5 1 1 H H E) eq_refl).
Defined.

(** *** Properties of the wire format *)

Lemma list_eqb_refl {A} (eqb : A → A → bool) l : (∀ x, eqb x x = true) → list_eqb eqb l l = true.
Proof. intros H. induction l as [|x l IH]; [done|]. cbn. by rewrite H, IH. Qed.

Lemma isUDPNCHeadersEqual_refl h : isUDPNCHeadersEqual h h = true.
Proof. unfold isUDPNCHeadersEqual. by rewrite !Z.eqb_refl. Qed.

Lemma NCM_contentEquals_sock m a : NCM_contentEquals (set_socket_addr m a) m = true.
Proof.
  unfold NCM_contentEquals. cbn.
  rewrite isUDPNCHeadersEqual_refl, !list_eqb_refl, !Z.eqb_refl
    by (apply Z.eqb_refl || apply IPaddr_eqb_refl).
  by rewrite bool_decide_eq_true_2.
Qed.

(** A well-formed network-coding message serialized into a large enough buffer is
    read back by [deserialize] into a fresh object: same contents, and the number of
    bytes consumed is the number written. *)
Theorem nc_message_roundtrip m junk mem tail :
  NCM_wf m → (length (NCM_wire m) ≤ length mem)%nat → Z.of_nat (length mem) < 2 ^ 64 →
  ∃ mem' n m', NCM_serialize m mem = Ok (mem', n)
  ∧ NCM_deserialize (NCM_default junk) (mem' ++ tail) n = Ok (m', Z.of_nat n)
  ∧ NCM_contentEquals m' m = true ∧ pkt_ids m' = pkt_ids m ∧ msg m' = msg m.
Proof.
  intros Hw Hl H64. rewrite NCM_serialize_wire by done.
  exists (NCM_wire m ++ drop (length (NCM_wire m)) mem), (length (NCM_wire m)), (set_socket_addr m IPaddr_null).
  splits; [done| |apply NCM_contentEquals_sock|done|done].
  rewrite <- app_assoc, NCM_deserialize_wire by (done || lia). done.
Qed.

Definition nc_example : UDPNCMessage :=
  mkNCM (mkNCH 13 7 0 0 1 3 0 14) [77] [9] [mkIPaddr 167772161 1037 0]
        [Byte.x61; Byte.x62; Byte.x63] 0 IPaddr_null.

Lemma nc_example_wf : NCM_wf nc_example.
Proof. constructor; try reflexivity; repeat (split || constructor); done. Defined.

Lemma nc_message_roundtrip_witness :
  NCM_wf nc_example ∧
  ∃ mem' m', NCM_serialize nc_example (replicate 64 Byte.x00) = Ok (mem', 39%nat)
  ∧ NCM_deserialize (NCM_default (header nc_example)) (mem' ++ []) 39 = Ok (m', 39)
  ∧ NCM_contentEquals m' nc_example = true.
Proof.
  split; [exact nc_example_wf|].
  destruct (nc_message_roundtrip nc_example (header nc_example) (replicate 64 Byte.x00) []
              nc_example_wf) as (mem' & n & m' & E1 & E2 & E3 & _);
    [apply Nat.leb_le; vm_compute; reflexivity|reflexivity|].
  assert (Hn : n = 39%nat) by (vm_compute in E1; congruence).
  exists mem', m'. rewrite Hn in E1, E2. split; [exact E1|]. split; [exact E2|exact E3].
Defined.

(** [serialize] writes [sizeOf ()] bytes exactly for a message of one packet; for a
    message of [c] packets coded together it writes [4 * (c - 1)] bytes more than
    [sizeOf ()] announces. *)
Theorem nc_sizeOf_serialize m mem :
  NCM_wf m → (length (NCM_wire m) ≤ length mem)%nat →
  ∃ mem' n, NCM_serialize m mem = Ok (mem', n)
  ∧ Z.of_nat n = NCM_sizeOf m + 4 * (enc_packet_count (header m) - 1).
Proof.
  intros Hw Hl. rewrite NCM_serialize_wire by done. do 2 eexists. split; [done|].
  rewrite length_NCM_wire by done. unfold NCM_sizeOf. lia.
Qed.

Lemma nc_sizeOf_serialize_witness :
  NCM_wf nc_example ∧ ∃ mem' n, NCM_serialize nc_example (replicate 64 Byte.x00) = Ok (mem', n)
  ∧ Z.of_nat n = NCM_sizeOf nc_example + 4 * (1 - 1).
Proof.
  split; [exact nc_example_wf|].
  apply (nc_sizeOf_serialize nc_example (replicate 64 Byte.x00) nc_example_wf).
  apply Nat.leb_le. vm_compute. reflexivity.
Defined.

Fixpoint build_n (n : nat) (f : UDPNCHeader_factory) : list UDPNCHeader :=
  match n with
  | O => []
  | S n => let '(h, f) := build f in h :: build_n n f
  end.

(** Whatever the constructor is given and whatever the memory held, the [k]-th
    header a factory builds is a UDPNC header with ordering [k + 1] (modulo 256), no
    packets and no payload; its [gensize] and [generation] are 0, not the
    constructor's arguments. *)
Theorem factory_headers junk gensize generation ordering n k h :
  build_n n (factory_make junk gensize generation ordering) !! k = Some h →
  isUDPNCHeader h = true ∧ h_ordering h = u8 (Z.of_nat k + 1)
  ∧ h_gensize h = 0 ∧ h_generation h = 0 ∧ enc_packet_count h = 0 ∧ packetsize h = 0.
Proof.
  assert (G : ∀ n k f, f_gensize f = 0 → f_generation f = 0 →
    build_n n f !! k = Some h →
    isUDPNCHeader h = true ∧ h_ordering h = u8 (f_ordering f + Z.of_nat k + 1)
    ∧ h_gensize h = 0 ∧ h_generation h = 0 ∧ enc_packet_count h = 0 ∧ packetsize h = 0).
  { clear. induction n as [|n IH]; intros k f Hg Hn H; [done|].
    cbn [build_n] in H. destruct (build f) as [h0 f0] eqn:E. unfold build in E.
    injection E as Eh Ef. destruct k as [|k].
    - injection H as <-. subst h0. cbn. rewrite Hg, Hn.
      splits; try done. by rewrite Z.add_0_r.
    - destruct (IH k f0) as (? & Ho & ?); [by subst f0|by subst f0|done|].
      split; [done|]. split; [|done]. rewrite Ho. subst f0. cbn [f_ordering]. f_equal. lia. }
  intros H. apply G in H; [|done|done]. exact H.
Qed.

Lemma factory_headers_witness :
  ∃ h, build_n 3 (factory_make (header nc_example) 1 9 0) !! 2%nat = Some h ∧ h_ordering h = 3.
Proof.
  destruct (build_n 3 (factory_make (header nc_example) 1 9 0) !! 2%nat) as [h|] eqn:E.
  - exists h. split; [reflexivity|].
    exact (proj1 (proj2 (factory_headers _ _ _ _ _ _ _ E))).
  - discriminate E.
Defined.
