(* ===== verification/Coding.v ===== *)
(** The third-party code the network-coding layer calls: the random linear network
    coder of kodo-rlnc (two symbols of [MAX_PACKET_SIZE] bytes over binary8) and
    boost's CRC-32. Neither is in the repository: they are parameters. The laws state
    the documented behaviour of the coder; [XorCoder] is a concrete coder (both
    coefficients 1) that satisfies them. *)

From S2P Require Import Prelude Bytes Float Serial NCMessage.
Local Open Scope Z_scope.

(** [boost::crc_32_type] over a block of bytes *)
Class Crc32 := crc32 : list byte → Z.

(** [UDPNCMessage::generateChecksum (buffer, bufsize)] *)
Definition generateChecksum `{Crc32} (buffer : list byte) (bufsize : Z) : outcome Z :=
  '(bs, _) ← fetch_bytes (Z.to_nat bufsize) buffer; Ok (crc32 bs).

(** kodo_rlnc's encoder and decoder with two symbols. [seed] stands for the state of
    the encoder's random generator when a payload is written. *)
Class Rlnc := {
  seed : Type;
  payload_size : nat;
  write_payload : seed → list byte → list byte → list byte;
  decoder : Type;
  decoder_build : decoder;
  read_uncoded_symbol : decoder → list byte → nat → decoder;
  read_payload : decoder → list byte → decoder;
  is_complete : decoder → bool;
  data_out : decoder → list byte;        (* the mutable symbols, 2 * MAX_PACKET_SIZE *)
}.

(** [innovative g k]: the payload drawn from [g] is linearly independent of symbol
    [k]. Payload buffers may be longer than the payload. *)
Class RlncLaws `{Rlnc} := {
  innovative : seed → nat → Prop;
  payload_size_bound : (payload_size ≤ MAX_PACKET_SIZE + 20)%nat;
  write_payload_length g s0 s1 : length (write_payload g s0 s1) = payload_size;
  one_symbol_incomplete s k :
    is_complete (read_uncoded_symbol decoder_build s k) = false;
  decode_other g s0 s1 k pad :
    length s0 = MAX_PACKET_SIZE → length s1 = MAX_PACKET_SIZE → (k < 2)%nat →
    innovative g k →
    let d := read_payload (read_uncoded_symbol decoder_build (if (k =? 0)%nat then s0 else s1) k)
                          (write_payload g s0 s1 ++ pad) in
    is_complete d = true ∧ data_out d = s0 ++ s1;
}.

(** *** A concrete coder: the payload is the exclusive or of the symbols. *)

Definition byte_xor (a b : byte) : byte := byte_of_Z (Z.lxor (byte_to_Z a) (byte_to_Z b)).

Definition xor_bytes : list byte → list byte → list byte := zip_with byte_xor.

Record xor_state := mkXor { xs0 : option (list byte); xs1 : option (list byte) }.

Definition xor_read (d : xor_state) (s : list byte) (k : nat) : xor_state :=
  if (k =? 0)%nat then mkXor (Some s) (xs1 d) else mkXor (xs0 d) (Some s).

Definition xor_read_payload (d : xor_state) (p : list byte) : xor_state :=
  let p := take MAX_PACKET_SIZE p in
  match xs0 d, xs1 d with
  | Some a, None => mkXor (Some a) (Some (xor_bytes a p))
  | None, Some b => mkXor (Some (xor_bytes b p)) (Some b)
  | _, _ => d
  end.

Definition XorCoder : Rlnc := {|
  seed := unit;
  payload_size := MAX_PACKET_SIZE;
  write_payload _ s0 s1 := take MAX_PACKET_SIZE (xor_bytes s0 s1 ++ replicate MAX_PACKET_SIZE Byte.x00);
  decoder := xor_state;
  decoder_build := mkXor None None;
  read_uncoded_symbol := xor_read;
  read_payload := xor_read_payload;
  is_complete d := match xs0 d, xs1 d with Some _, Some _ => true | _, _ => false end;
  data_out d := default [] (xs0 d) ++ default [] (xs1 d) |}.

Lemma byte_xor_cancel a b : byte_xor a (byte_xor a b) = b.
Proof.
  unfold byte_xor. rewrite byte_to_of.
  pose proof (byte_to_Z_fits a) as Ha. pose proof (byte_to_Z_fits b) as Hb.
  assert (Hx : 0 ≤ Z.lxor (byte_to_Z a) (byte_to_Z b) < 256).
  { assert (H0 : 0 ≤ Z.lxor (byte_to_Z a) (byte_to_Z b))
      by (apply Z.lxor_nonneg; unfold fits in *; lia).
    split; [done|]. destruct (Z.lt_ge_cases (Z.lxor (byte_to_Z a) (byte_to_Z b)) 256) as [|Hge]; [done|].
    assert (Hl : 8 ≤ Z.log2 (Z.lxor (byte_to_Z a) (byte_to_Z b)))
      by (change 8 with (Z.log2 256); by apply Z.log2_le_mono).
    pose proof (Z.bit_log2 (Z.lxor (byte_to_Z a) (byte_to_Z b)) ltac:(lia)) as E.
    rewrite Z.lxor_spec, (testbit_high _ 8), (testbit_high _ 8) in E by (done || lia). done. }
  rewrite Z.mod_small by done.
  rewrite <- Z.lxor_assoc, Z.lxor_nilpotent, Z.lxor_0_l. apply byte_of_to.
Qed.

Lemma byte_xor_comm a b : byte_xor a b = byte_xor b a.
Proof. unfold byte_xor. by rewrite Z.lxor_comm. Qed.

Lemma xor_bytes_cancel a b : length a = length b → xor_bytes a (xor_bytes a b) = b.
Proof.
  unfold xor_bytes. revert b. induction a as [|x a IH]; intros [|y b] H; try done.
  cbn. rewrite byte_xor_cancel. f_equal. apply IH. cbn in H. lia.
Qed.

Lemma xor_bytes_comm a b : xor_bytes a b = xor_bytes b a.
Proof.
  unfold xor_bytes. revert b. induction a as [|x a IH]; intros [|y b]; try done.
  cbn. rewrite byte_xor_comm. f_equal. apply IH.
Qed.

Lemma length_xor_bytes a b : length a = length b → length (xor_bytes a b) = length a.
Proof.
  unfold xor_bytes. revert b. induction a as [|x a IH]; intros [|y b] H; try done.
  cbn. rewrite IH; [done|]. cbn in H. lia.
Qed.

#[local] Opaque MAX_PACKET_SIZE.

#[local] Obligation Tactic := idtac.

Program Definition XorCoder_laws : @RlncLaws XorCoder :=
  {| innovative _ _ := True |}.
Next Obligation. cbn. lia. Qed.
Next Obligation.
  intros g s0 s1. cbn. rewrite length_take, length_app, length_replicate. lia.
Qed.
Next Obligation. intros s k. cbn. unfold xor_read. by destruct (k =? 0)%nat. Qed.
Next Obligation.
  intros g s0 s1 k pad H0 H1 Hk _. cbn.
  assert (Hp : take MAX_PACKET_SIZE (take MAX_PACKET_SIZE
      (xor_bytes s0 s1 ++ replicate MAX_PACKET_SIZE Byte.x00) ++ pad) = xor_bytes s0 s1).
  { rewrite (take_app_len (xor_bytes s0 s1)), take_app_len;
      rewrite ?length_xor_bytes; congruence. }
  unfold xor_read, xor_read_payload. destruct (Nat.eqb_spec k 0); cbn; rewrite Hp.
  - split; [done|]. cbn. by rewrite xor_bytes_cancel by congruence.
  - split; [done|]. cbn. by rewrite xor_bytes_comm, xor_bytes_comm, (xor_bytes_comm s0), xor_bytes_cancel by congruence.
Qed.
