(* ===== verification/Recoder.v ===== *)
(** The coding host's recoder: coding_host/udpncrecoder.{h,cpp}. A pool of uncoded
    packets, from which pairs of packets of different hosts are coded together. *)

From S2P Require Import Prelude Bytes StdMap Float Serial NCMessage Coding.
Local Open Scope Z_scope.

Record UDPNCrecoder := mkRecoder {
  packet_pool : list (Z * UDPNCMessage);
  header_factory : UDPNCHeader_factory;
  max_packetpool_size : nat;
  packets_encoded : nat }.

(** [UDPNCrecoder ()]: [header_factory (GENSIZE, 0)] *)
Definition Recoder_new (junk : UDPNCHeader) : UDPNCrecoder :=
  mkRecoder [] (factory_make junk GENSIZE 0 0) 0 0.

(** The check at the end of [addUDPNCMessage]. *)
Fixpoint check_keys (pool : list (Z * UDPNCMessage)) : outcome () :=
  match pool with
  | [] => Ok ()
  | (k, m) :: pool =>
      id ← at_idx (pkt_ids m) 0;
      if negb (k =? id) then Fail LogicError else check_keys pool
  end.

Definition Recoder_addUDPNCMessage (r : UDPNCrecoder) (m : UDPNCMessage) : outcome UDPNCrecoder :=
  let pktids := pkt_ids m in
  first_id ← getFirstFromId m;
  if first_id =? NET_ID_UNASSIGNED then Ok r else
  pool ← (if (length pktids =? 1)%nat && (NCM_sizeOf m <? Z.of_nat MAX_PACKET_SIZE)
          then id ← front pktids; Ok (set id m (packet_pool r))
          else Ok (packet_pool r));
  let mx := if (max_packetpool_size r <? length pool)%nat then length pool
            else max_packetpool_size r in
  _ ← check_keys pool;
  Ok (mkRecoder pool (header_factory r) mx (packets_encoded r)).

(** The search from the back for a packet of another host: [message2] is [m2], [rits]
    the packets [reverse_iter] still has to visit. *)
Fixpoint select_second (first_id : Z) (m2 : UDPNCMessage) (rits : list UDPNCMessage)
    : outcome UDPNCMessage :=
  id2 ← getFirstFromId m2;
  if first_id =? id2 then
    match rits with
    | [] => Ok m2
    | m :: rits => select_second first_id m rits
    end
  else Ok m2.

(** [packet_pool.erase (packet_pool.find (id))]: erasing [end ()] is undefined. *)
Definition erase_found (id : Z) (pool : list (Z * UDPNCMessage))
    : outcome (list (Z * UDPNCMessage)) :=
  if has id pool then Ok (erase id pool) else Fail OutOfBounds.

Section recoder.
Context `{Crc32} `{Rlnc}.

(** The body of [produceUDPNCMessage] once the two packets are chosen: serialize
    both into zeroed symbols, list both in a fresh header, sum the checksums and
    write a coded payload. *)
Definition encode_pair (h : UDPNCHeader) (g : seed) (m1 m2 : UDPNCMessage)
    : outcome UDPNCMessage :=
  '(data1, _) ← NCM_serialize m1 (replicate MAX_PACKET_SIZE Byte.x00);
  '(data2, _) ← NCM_serialize m2 (replicate MAX_PACKET_SIZE Byte.x00);
  p1 ← at_idx (pkt_ids m1) 0; f1 ← at_idx (from_ids m1) 0; a1 ← at_idx (to_addrs m1) 0;
  p2 ← at_idx (pkt_ids m2) 0; f2 ← at_idx (from_ids m2) 0; a2 ← at_idx (to_addrs m2) 0;
  let message := NCM_of_header h in
  let message := putIdsAddr message p1 f1 a1 true in
  let message := putIdsAddr message p2 f2 a2 true in
  checksum1 ← generateChecksum data1 (NCM_sizeOf m1);
  checksum2 ← generateChecksum data2 (NCM_sizeOf m2);
  let message := setChecksum message (u32 (checksum1 + checksum2)) in
  Ok (putMessage message (write_payload g data1 data2)).

Definition produceUDPNCMessage (r : UDPNCrecoder) (g : seed)
    : outcome (UDPNCrecoder * option UDPNCMessage) :=
  if (length (packet_pool r) <? 2)%nat then Ok (r, None) else
  message1 ← front (snd <$> packet_pool r);
  last ← front (snd <$> reverse (packet_pool r));
  id1 ← getFirstFromId message1;
  message2 ← select_second id1 last (snd <$> reverse (packet_pool r));
  id2 ← getFirstFromId message2;
  if id1 =? id2 then Ok (r, None) else
  let '(h, f) := build (header_factory r) in
  message ← encode_pair h g message1 message2;
  p1 ← at_idx (pkt_ids message1) 0;
  pool ← erase_found p1 (packet_pool r);
  p2 ← at_idx (pkt_ids message2) 0;
  pool ← erase_found p2 pool;
  Ok (mkRecoder pool f (max_packetpool_size r) (S (packets_encoded r)), Some message).
End recoder.

(** *** Lemmas *)

(** A packet that may be coded: one packet id, a known sender, and an image that fits
    a symbol. *)
Record codable (k : Z) (m : UDPNCMessage) : Prop := mk_codable {
  cod_wf : NCM_wf m;
  cod_id : pkt_ids m = [k];
  cod_from : ∃ f, from_ids m = [f] ∧ f ≠ NET_ID_UNASSIGNED;
  cod_addr : ∃ a, to_addrs m = [a];
  cod_size : NCM_sizeOf m = Z.of_nat (length (NCM_wire m));
  cod_fits : (length (NCM_wire m) < MAX_PACKET_SIZE)%nat }.

Definition from_of (m : UDPNCMessage) : Z := default 0 (head (from_ids m)).

(** The zero-padded image of a packet, the symbol it is coded as. *)
Definition symbol (m : UDPNCMessage) : list byte :=
  NCM_wire m ++ replicate (MAX_PACKET_SIZE - length (NCM_wire m)) Byte.x00.

Definition pool_ok (pool : list (Z * UDPNCMessage)) : Prop :=
  ordered pool ∧ Forall (λ p, codable (fst p) (snd p)) pool.

(** The packets [addUDPNCMessage] admits. *)
Definition admits (m : UDPNCMessage) : bool :=
  negb (from_of m =? NET_ID_UNASSIGNED) && (length (pkt_ids m) =? 1)%nat
  && (NCM_sizeOf m <? Z.of_nat MAX_PACKET_SIZE).

Record Recoder_inv (r : UDPNCrecoder) : Prop := mk_Recoder_inv {
  rec_pool : pool_ok (packet_pool r);
  rec_max : (length (packet_pool r) ≤ max_packetpool_size r)%nat;
  rec_header : header_valid (f_header (header_factory r)) }.

#[local] Opaque MAX_PACKET_SIZE.

Lemma codable_first k m : codable k m → getFirstFromId m = Ok (from_of m).
Proof. intros [_ _ (f & Hf & _) _ _ _]. unfold getFirstFromId, from_of. by rewrite Hf. Qed.

Lemma single_length m k : NCM_wf m → pkt_ids m = [k] →
  NCM_sizeOf m = Z.of_nat (length (NCM_wire m)).
Proof.
  intros Hw Hk. rewrite length_NCM_wire by done. destruct Hw as [_ _ Hp _ _ _ _ _ _ _].
  unfold NCM_sizeOf. rewrite Hk in Hp. cbn in Hp. lia.
Qed.

Lemma length_symbol k m : codable k m → length (symbol m) = MAX_PACKET_SIZE.
Proof. intros C. pose proof (cod_fits _ _ C). unfold symbol. rewrite length_app, length_replicate. lia. Qed.

Lemma serialize_symbol k m : codable k m →
  NCM_serialize m (replicate MAX_PACKET_SIZE Byte.x00)
  = Ok (symbol m, length (NCM_wire m)).
Proof.
  intros C. pose proof (cod_fits _ _ C).
  rewrite NCM_serialize_wire; [|apply C|rewrite length_replicate; lia].
  unfold symbol. by rewrite drop_replicate.
Qed.

Lemma from_singleton m : NCM_wf m → pkt_ids m ≠ [] → getFirstFromId m = Ok (from_of m).
Proof.
  intros Hw Hne. pose proof (wf_fids _ Hw) as Hl. unfold getFirstFromId, from_of.
  destruct (from_ids m); [|done]. by destruct (pkt_ids m).
Qed.

Lemma length_one {A} (l : list A) : length l = 1%nat → ∃ x, l = [x].
Proof. destruct l as [|x [|]]; try done. eauto. Qed.

Lemma single_lists m : NCM_wf m → length (pkt_ids m) = 1%nat →
  ∃ k f a, pkt_ids m = [k] ∧ from_ids m = [f] ∧ to_addrs m = [a].
Proof.
  intros Hw Hl. pose proof (wf_fids _ Hw) as Hf. pose proof (wf_addrs _ Hw) as Ha.
  rewrite Hl in Hf, Ha. apply length_one in Hl as [k Hk], Hf as [f Hf], Ha as [a Ha]. eauto 6.
Qed.

Lemma admits_codable m : NCM_wf m → admits m = true → ∃ k, pkt_ids m = [k] ∧ codable k m.
Proof.
  intros Hw H. unfold admits in H. rewrite !andb_true_iff, negb_true_iff in H.
  destruct H as [[Hf Hl] Hs]. apply Z.eqb_neq in Hf. apply Nat.eqb_eq in Hl. apply Z.ltb_lt in Hs.
  destruct (single_lists m Hw Hl) as (k & f & a & Hk & Hff & Ha).
  exists k. split; [done|]. rewrite (single_length m k) in Hs by done.
  unfold from_of in Hf. rewrite Hff in Hf.
  constructor; eauto using single_length. lia.
Qed.

Lemma check_keys_ok pool : Forall (λ p, codable (fst p) (snd p)) pool → check_keys pool = Ok ().
Proof.
  induction 1 as [|[k m] pool C _ IH]; [done|]. cbn [check_keys].
  cbn in C. by rewrite (cod_id _ _ C), (at_idx_ok [k] 0 k), bind_ok, Z.eqb_refl.
Qed.

Lemma le_high_mark n m : (n ≤ if (m <? n)%nat then n else m)%nat.
Proof. test_cases; lia. Qed.

(** [addUDPNCMessage] on every branch. *)
Lemma Recoder_add_spec r m :
  Recoder_inv r → NCM_wf m → pkt_ids m ≠ [] →
  ∃ r', Recoder_addUDPNCMessage r m = Ok r' ∧ Recoder_inv r'
  ∧ packet_pool r' = (if admits m then set (default 0 (head (pkt_ids m))) m (packet_pool r)
                      else packet_pool r)
  ∧ packets_encoded r' = packets_encoded r.
Proof.
  intros [[Ho Hc] Hm Hh] Hw Hne. unfold Recoder_addUDPNCMessage.
  rewrite (from_singleton m) by done. cbn beta iota zeta delta [mbind outcome_bind].
  pose proof (admits_codable m Hw) as Had. unfold admits in *.
  destruct (Z.eqb_spec (from_of m) NET_ID_UNASSIGNED); cbn [negb andb] in *.
  { eexists. splits; [done|done| |done]. done. }
  destruct ((length (pkt_ids m) =? 1)%nat && (NCM_sizeOf m <? Z.of_nat MAX_PACKET_SIZE)) eqn:Ea.
  - destruct (Had eq_refl) as (k & Hk & C). rewrite Hk. cbn [front head default].
    assert (Hc' : Forall (λ p, codable (fst p) (snd p)) (set k m (packet_pool r)))
      by (by apply Forall_set).
    cbn beta iota zeta delta [mbind outcome_bind front].
    rewrite check_keys_ok by done. eexists. splits; [done| |done|done].
    constructor; [split; [by apply ordered_set|done]|apply le_high_mark|done].
  - cbn beta iota zeta delta [mbind outcome_bind].
    rewrite check_keys_ok by done. eexists. splits; [done| |done|done].
    constructor; [done|apply le_high_mark|done].
Qed.

(** The second packet: the last of the visited ones that comes from another host. *)
Lemma select_second_spec f rits m2 :
  Forall (λ m, getFirstFromId m = Ok (from_of m)) (m2 :: rits) →
  ∃ m, select_second f m2 rits = Ok m
  ∧ ((from_of m ≠ f ∧ ∃ pre post, m2 :: rits = pre ++ m :: post ∧ Forall (λ m, from_of m = f) pre)
     ∨ (from_of m = f ∧ m ∈ m2 :: rits ∧ Forall (λ m, from_of m = f) (m2 :: rits))).
Proof.
  revert m2. induction rits as [|m3 rits IH]; intros m2 H;
    apply Forall_cons in H as [H2 Hr]; cbn [select_second]; rewrite H2, bind_ok;
    destruct (Z.eqb_spec f (from_of m2)) as [->|Hne].
  - exists m2. split; [done|]. right. splits; [done|constructor|by repeat constructor].
  - exists m2. split; [done|]. left. split; [done|]. by exists [], [].
  - destruct (IH m3 Hr) as (m & E & Hd). exists m. split; [done|].
    destruct Hd as [(Hn & pre & post & El & Hp)|(Hn & Hin & Hall)].
    + left. split; [done|]. exists (m2 :: pre), post. split; [by rewrite El|by constructor].
    + right. splits; [done|by constructor|by constructor].
  - exists m2. split; [done|]. left. split; [done|]. by exists [], (m3 :: rits).
Qed.

Section coding.
Context `{Crc32} `{RlncLaws}.

(** The coded message of [m1] and [m2]. *)
Definition coded (h : UDPNCHeader) (g : seed) (k1 k2 : Z) (m1 m2 : UDPNCMessage) : UDPNCMessage :=
  let payload := write_payload g (symbol m1) (symbol m2) in
  mkNCM (set_packetsize (set_count h 2) (Z.of_nat (length payload)))
        [k1; k2] (from_ids m1 ++ from_ids m2) (to_addrs m1 ++ to_addrs m2)
        payload (u32 (crc32 (NCM_wire m1) + crc32 (NCM_wire m2))) IPaddr_null.

Lemma checksum_symbol k m tail : codable k m →
  generateChecksum (symbol m ++ tail) (NCM_sizeOf m) = Ok (crc32 (NCM_wire m)).
Proof.
  intros C. unfold generateChecksum, symbol.
  rewrite (cod_size _ _ C), Nat2Z.id, <- app_assoc.
  rewrite fetch_bytes_app by done. done.
Qed.

Lemma encode_pair_coded h g k1 k2 m1 m2 :
  codable k1 m1 → codable k2 m2 → encode_pair h g m1 m2 = Ok (coded h g k1 k2 m1 m2).
Proof.
  intros C1 C2. unfold encode_pair.
  rewrite (serialize_symbol k1 m1), bind_ok by done. cbn beta iota.
  rewrite (serialize_symbol k2 m2), bind_ok by done. cbn beta iota.
  pose proof (checksum_symbol k1 m1 [] C1) as S1. pose proof (checksum_symbol k2 m2 [] C2) as S2.
  rewrite app_nil_r in S1, S2.
  destruct (cod_from _ _ C1) as (f1 & Hf1 & _). destruct (cod_from _ _ C2) as (f2 & Hf2 & _).
  destruct (cod_addr _ _ C1) as (a1 & Ha1). destruct (cod_addr _ _ C2) as (a2 & Ha2).
  unfold coded.
  rewrite (cod_id _ _ C1), (cod_id _ _ C2), Hf1, Hf2, Ha1, Ha2.
  rewrite !(at_idx_ok [_] 0 _ eq_refl), !bind_ok. cbv zeta.
  rewrite S1, bind_ok, S2, bind_ok. done.
Qed.

Lemma coded_wf h g k1 k2 m1 m2 :
  codable k1 m1 → codable k2 m2 → header_valid h → isUDPNCHeader h = true →
  NCM_wf (coded h g k1 k2 m1 m2).
Proof.
  intros C1 C2 Hv Hs. pose proof (write_payload_length g (symbol m1) (symbol m2)) as Hl.
  pose proof payload_size_bound as Hb.
  assert (HM : (MAX_PACKET_SIZE = 500)%nat) by done.
  assert (Hw : wrap 24 (Z.of_nat payload_size) = Z.of_nat payload_size)
    by (apply wrap_id; split; [lia|pows; lia]).
  destruct (cod_from _ _ C1) as (f1 & Hf1 & _). destruct (cod_from _ _ C2) as (f2 & Hf2 & _).
  destruct (cod_addr _ _ C1) as (a1 & Ha1). destruct (cod_addr _ _ C2) as (a2 & Ha2).
  pose proof (wf_pids_fit _ (cod_wf _ _ C1)). pose proof (wf_pids_fit _ (cod_wf _ _ C2)).
  rewrite (cod_id _ _ C1) in *. rewrite (cod_id _ _ C2) in *.
  unfold coded. constructor; cbn [header pkt_ids from_ids to_addrs msg checksum].
  - unfold header_valid in *. cbn. rewrite Hl.
    destruct Hv as (? & ? & ? & ? & ? & ? & ? & ?). splits; try done. apply wrap_fits. lia.
  - exact Hs.
  - cbn. by rewrite wrap_id.
  - by rewrite Hf1, Hf2.
  - by rewrite Ha1, Ha2.
  - cbn. by rewrite Hl, Hw.
  - by apply (Forall_app_2 _ [_]).
  - apply Forall_app_2; [apply (cod_wf _ _ C1)|apply (cod_wf _ _ C2)].
  - apply Forall_app_2; [apply (cod_wf _ _ C1)|apply (cod_wf _ _ C2)].
  - apply wrap_fits. lia.
Qed.

Lemma build_ok f : header_valid (f_header f) →
  header_valid (fst (build f)) ∧ isUDPNCHeader (fst (build f)) = true
  ∧ f_header (snd (build f)) = fst (build f).
Proof.
  intros (? & ? & ? & ? & ? & ? & ? & ?). unfold build. cbn [fst snd f_header].
  splits; [|done|done]. unfold header_valid. cbn -[wrap].
  splits; first [done | apply wrap_fits; lia].
Qed.
End coding.

Lemma ordered_before {V} (l r : list (Z * V)) p q :
  ordered (l ++ p :: r) → q ∈ l → fst q < fst p.
Proof.
  induction l as [|x l IH]; [by rewrite elem_of_nil|].
  cbn. intros [Ho Hf]%ordered_inv [->|Hin]%elem_of_cons; [|by apply IH].
  rewrite Forall_forall in Hf. apply (Hf p). apply elem_of_app. right. constructor.
Qed.

Lemma fmap_snd_split (l : list (Z * UDPNCMessage)) pre m post :
  snd <$> l = pre ++ m :: post →
  ∃ lp k lq, l = lp ++ (k, m) :: lq ∧ snd <$> lp = pre.
Proof.
  intros H. apply fmap_app_inv in H as (lp & lq' & -> & H & ->).
  symmetry in H. apply fmap_cons_inv in H as ([k m'] & lq & -> & _ & ->). by exists lp, k, lq.
Qed.

(** The choice of the second packet, on an ordered pool. *)
Lemma select_pool pool f :
  pool_ok pool → pool ≠ [] →
  ∃ k m, (last ← front (snd <$> reverse pool);
          select_second f last (snd <$> reverse pool)) = Ok m
  ∧ (k, m) ∈ pool
  ∧ ((from_of m ≠ f ∧ ∀ k' m', (k', m') ∈ pool → k < k' → from_of m' = f)
     ∨ (from_of m = f ∧ Forall (λ p, from_of (snd p) = f) pool)).
Proof.
  intros [Ho Hc] Hne.
  assert (Hg : Forall (λ m, getFirstFromId m = Ok (from_of m)) (snd <$> reverse pool)).
  { apply Forall_fmap, Forall_reverse. eapply Forall_impl; [exact Hc|].
    intros [k m]. apply codable_first. }
  destruct (reverse pool) as [|[k0 m0] revs] eqn:Er.
  { apply (f_equal reverse) in Er. by rewrite reverse_involutive in Er. }
  change (snd <$> (k0, m0) :: revs) with (m0 :: (snd <$> revs)) in *.
  cbn [front]. rewrite bind_ok.
  destruct (select_second_spec f (m0 :: (snd <$> revs)) m0) as (m & E & Hd).
  { constructor; [by inversion Hg|done]. }
  destruct Hd as [(Hn & pre & post & El & Hp)|(Hn & Hin & Hall)].
  - assert (∃ pre post, snd <$> reverse pool = pre ++ m :: post
                        ∧ Forall (λ m, from_of m = f) pre) as (pre' & post' & El' & Hp').
    { rewrite Er. destruct pre as [|x pre]; injection El as -> El.
      - by exists [], (snd <$> revs).
      - exists pre, post. split; [exact El|by inversion Hp]. }
    apply fmap_snd_split in El' as (lp & k & lq & El' & <-).
    apply (f_equal reverse) in El'.
    rewrite reverse_involutive, reverse_app, reverse_cons, <- app_assoc in El'.
    exists k, m. splits; [exact E| |left; split; [done|]].
    { rewrite El'. apply elem_of_app. right. apply elem_of_app. left. constructor. }
    intros k' m' Hin Hlt. rewrite El' in Hin, Ho.
    apply elem_of_app in Hin as [Hin|Hin].
    + apply (ordered_before _ _ _ _ Ho) in Hin. cbn in Hin. lia.
    + cbn in Hin. apply elem_of_cons in Hin as [[= -> ->]|Hin]; [lia|].
      rewrite elem_of_reverse in Hin. rewrite Forall_fmap, Forall_forall in Hp'.
      exact (Hp' _ Hin).
  - inversion_clear Hall.
    assert (Hin' : m ∈ snd <$> reverse pool)
      by (rewrite Er; apply elem_of_cons in Hin as [->|]; [constructor|done]).
    apply list_elem_of_fmap in Hin' as ([k m'] & -> & Hin'). exists k, m'.
    splits; [exact E|by apply elem_of_reverse|right; split; [done|]].
    change (m0 :: (snd <$> revs)) with (snd <$> (k0, m0) :: revs) in *.
    rewrite <- Er, Forall_fmap, Forall_reverse in *. done.
Qed.

Section produce.
Context `{Crc32} `{RlncLaws}.

(** What [produceUDPNCMessage] does to a pool that satisfies the invariant. *)
Definition produced (r : UDPNCrecoder) (g : seed) (r' : UDPNCrecoder)
    (o : option UDPNCMessage) : Prop :=
  match o with
  | None => r' = r ∧ ∃ f, Forall (λ p, from_of (snd p) = f) (packet_pool r)
  | Some c => ∃ k1 m1 k2 m2,
      head (packet_pool r) = Some (k1, m1) ∧ (k2, m2) ∈ packet_pool r
      ∧ from_of m1 ≠ from_of m2
      ∧ (∀ k m, (k, m) ∈ packet_pool r → k2 < k → from_of m = from_of m1)
      ∧ c = coded (fst (build (header_factory r))) g k1 k2 m1 m2
      ∧ packet_pool r' = erase k2 (erase k1 (packet_pool r))
      ∧ packets_encoded r' = S (packets_encoded r)
  end.

Lemma erase_found_ok k m pool : find k pool = Some m → erase_found k pool = Ok (erase k pool).
Proof. unfold erase_found, has. by intros ->. Qed.

Lemma pool_ok_erase k pool : pool_ok pool → pool_ok (erase k pool).
Proof. intros [Ho Hc]. split; [by apply ordered_erase|by apply Forall_erase]. Qed.

Lemma one_sender_short pool : (length pool < 2)%nat →
  ∃ f, Forall (λ p : Z * UDPNCMessage, from_of (snd p) = f) pool.
Proof.
  intros Hl. destruct pool as [|p [|q pool]]; cbn in Hl; [by exists 0| |lia].
  exists (from_of (snd p)). by repeat constructor.
Qed.

Lemma produce_finish r g k1 m1 k2 m2 h f :
  Recoder_inv r → build (header_factory r) = (h, f) →
  (k1, m1) ∈ packet_pool r → (k2, m2) ∈ packet_pool r → k1 ≠ k2 →
  (message ← encode_pair h g m1 m2;
   p1 ← at_idx (pkt_ids m1) 0; pool ← erase_found p1 (packet_pool r);
   p2 ← at_idx (pkt_ids m2) 0; pool ← erase_found p2 pool;
   Ok (mkRecoder pool f (max_packetpool_size r) (S (packets_encoded r)), Some message))
  = Ok (mkRecoder (erase k2 (erase k1 (packet_pool r))) f (max_packetpool_size r)
                  (S (packets_encoded r)), Some (coded h g k1 k2 m1 m2)).
Proof.
  intros [[Ho Hc] Hm Hh] Hb Hin1 Hin2 Hne.
  rewrite Forall_forall in Hc. pose proof (Hc _ Hin1) as C1. pose proof (Hc _ Hin2) as C2.
  cbn in C1, C2. rewrite (encode_pair_coded h g k1 k2), bind_ok by done. cbn beta.
  rewrite (cod_id _ _ C1), (cod_id _ _ C2), !(at_idx_ok [_] 0 _ eq_refl), !bind_ok.
  rewrite (erase_found_ok k1 m1), bind_ok by (by apply In_find).
  cbn beta. rewrite bind_ok, (erase_found_ok k2 m2), bind_ok; [done|].
  rewrite find_erase_ne by congruence. by apply In_find.
Qed.

Lemma produce_ok r g : Recoder_inv r →
  ∃ r' o, produceUDPNCMessage r g = Ok (r', o) ∧ Recoder_inv r' ∧ produced r g r' o.
Proof.
  intros Hi. pose proof Hi as [Hp Hm Hh]. unfold produceUDPNCMessage.
  destruct (Nat.ltb_spec (length (packet_pool r)) 2).
  { do 2 eexists. splits; [done|done|]. split; [done|]. by apply one_sender_short. }
  destruct (packet_pool r) as [|[k1 m1] tl] eqn:Ep; [cbn in *; lia|].
  destruct (select_pool ((k1, m1) :: tl) (from_of m1)) as (k2 & m2 & E & Hin2 & Hd); [done|done|].
  rewrite <- Ep in *. destruct Hp as [Ho Hc].
  assert (Hin : (k1, m1) ∈ packet_pool r) by (rewrite Ep; constructor).
  pose proof Hc as Hc'. rewrite Forall_forall in Hc. pose proof (Hc _ Hin) as C1. cbn in C1.
  replace (front (snd <$> packet_pool r)) with (Ok m1) by (by rewrite Ep).
  rewrite bind_ok, (codable_first k1 m1) by done.
  apply bind_inv in E as (last & El & E). rewrite El, !bind_ok. rewrite E, bind_ok.
  pose proof (Hc _ Hin2) as C2. cbn in C2.
  rewrite (codable_first k2 m2), bind_ok by done.
  destruct Hd as [(Hn & Hmax)|(Hn & Hall)].
  - destruct (Z.eqb_spec (from_of m1) (from_of m2)); [congruence|].
    destruct (build_ok (header_factory r) Hh) as (Hv & _ & Hf).
    destruct (build (header_factory r)) as [h f] eqn:Eb. cbn in Hv, Hf.
    rewrite (produce_finish r g k1 m1 k2 m2) by (try done; intros ->;
      apply In_find in Hin, Hin2; congruence).
    do 2 eexists. splits; [done| |].
    + constructor; cbn [packet_pool header_factory max_packetpool_size].
      * do 2 apply pool_ok_erase. done.
      * pose proof (length_erase_le k1 (packet_pool r)).
        pose proof (length_erase_le k2 (erase k1 (packet_pool r))). lia.
      * by rewrite Hf.
    + exists k1, m1, k2, m2. rewrite Eb. splits; try done. by rewrite Ep.
  - rewrite Hn, Z.eqb_refl. do 2 eexists. splits; [done|done|]. split; [done|]. by exists (from_of m1).
Qed.
End produce.

(** *** Properties *)

Section properties.
Context `{Crc32} `{RlncLaws}.

(** On a recoder that satisfies its invariant, [produceUDPNCMessage] never fails; it
    returns a message exactly when the pool holds packets of two different hosts; the
    message is well formed, lists the first packet of the pool and the last one of
    another host, carries the sum of their checksums and a payload drawn over their
    zero-padded images; both packets leave the pool. *)
Theorem recoder_produces r g : Recoder_inv r →
  ∃ r' o, produceUDPNCMessage r g = Ok (r', o) ∧ Recoder_inv r'
  ∧ (o ≠ None ↔ ∃ p q, p ∈ packet_pool r ∧ q ∈ packet_pool r
                       ∧ from_of (snd p) ≠ from_of (snd q))
  ∧ ∀ c, o = Some c → NCM_wf c ∧ ∃ k1 m1 k2 m2,
      head (packet_pool r) = Some (k1, m1) ∧ (k2, m2) ∈ packet_pool r
      ∧ from_of m1 ≠ from_of m2
      ∧ (∀ k m, (k, m) ∈ packet_pool r → k2 < k → from_of m = from_of m1)
      ∧ pkt_ids c = [k1; k2] ∧ from_ids c = [from_of m1; from_of m2]
      ∧ checksum c = u32 (crc32 (NCM_wire m1) + crc32 (NCM_wire m2))
      ∧ msg c = write_payload g (symbol m1) (symbol m2)
      ∧ packet_pool r' = erase k2 (erase k1 (packet_pool r)).
Proof.
  intros Hi. destruct (produce_ok r g Hi) as (r' & o & E & Hi' & Hd).
  exists r', o. destruct Hi as [[Ho Hc] _ Hh]. rewrite Forall_forall in Hc.
  destruct o as [c|]; cbn in Hd; splits; try done.
  - destruct Hd as (k1 & m1 & k2 & m2 & Hhd & Hin & Hne & _).
    split; [|done]. intros _. exists (k1, m1), (k2, m2). splits; [|done|done].
    destruct (packet_pool r); [done|]. injection Hhd as ->. constructor.
  - intros c' [= <-]. destruct Hd as (k1 & m1 & k2 & m2 & Hhd & Hin & Hne & Hmax & -> & Hpool & _).
    assert (Hin1 : (k1, m1) ∈ packet_pool r)
      by (destruct (packet_pool r); [done|]; injection Hhd as ->; constructor).
    pose proof (Hc _ Hin1) as C1. pose proof (Hc _ Hin) as C2. cbn in C1, C2.
    destruct (build_ok (header_factory r) Hh) as (Hv & Hs & _).
    split; [by apply coded_wf|]. exists k1, m1, k2, m2. splits; try done.
    destruct (cod_from _ _ C1) as (f1 & Hf1 & _). destruct (cod_from _ _ C2) as (f2 & Hf2 & _).
    unfold coded, from_of. cbn [from_ids]. by rewrite Hf1, Hf2.
  - destruct Hd as (_ & f & Hall). rewrite Forall_forall in Hall. split; [done|].
    intros (p & q & Hp & Hq & Hne). exfalso. apply Hne. by rewrite (Hall p Hp), (Hall q Hq).
Qed.

(** A run of the coding host: packets added, messages produced. *)
Inductive rec_op := RAdd (m : UDPNCMessage) | RProduce (g : seed).

Fixpoint rec_run (ops : list rec_op) (r : UDPNCrecoder)
    : outcome (UDPNCrecoder * list UDPNCMessage) :=
  match ops with
  | [] => Ok (r, [])
  | RAdd m :: ops => r ← Recoder_addUDPNCMessage r m; rec_run ops r
  | RProduce g :: ops =>
      '(r, o) ← produceUDPNCMessage r g;
      '(r, out) ← rec_run ops r;
      Ok (r, match o with Some c => c :: out | None => out end)
  end.

Definition rec_op_ok (o : rec_op) : Prop :=
  match o with RAdd m => NCM_wf m ∧ pkt_ids m ≠ [] | RProduce _ => True end.

Definition admitted (o : rec_op) : bool :=
  match o with RAdd m => admits m | RProduce _ => false end.

Definition added (ops : list rec_op) : nat := length (filter (λ o, admitted o = true) ops).

Lemma length_set_le {V} k (v : V) m : (length (set k v m) ≤ S (length m))%nat.
Proof.
  induction m as [|[k' v'] m IH]; cbn [set]; [done|].
  destruct (k =? k'); [cbn; lia|]. destruct (k <? k'); cbn; lia.
Qed.

Lemma Recoder_new_inv junk : header_valid junk → Recoder_inv (Recoder_new junk).
Proof.
  intros (? & ? & ? & ? & ? & ? & ? & ?). constructor; [split; [constructor|done]|done|].
  unfold header_valid. cbn -[wrap]. splits; first [done | apply wrap_fits; lia].
Qed.

Definition count_some {A} (o : option A) : nat := match o with Some _ => 1 | None => 0 end.

Lemma produced_facts r g r' o : Recoder_inv r → produced r g r' o →
  (∀ c, o = Some c → NCM_wf c)
  ∧ packets_encoded r' = (packets_encoded r + count_some o)%nat
  ∧ length (packet_pool r) = (length (packet_pool r') + 2 * count_some o)%nat.
Proof.
  intros [[Ho Hc] _ Hh] Hd. destruct o as [c|]; cbn in Hd |- *.
  2: { destruct Hd as [-> _]. splits; [done|lia..]. }
  destruct Hd as (k1 & m1 & k2 & m2 & Hhd & Hin & Hne & _ & -> & Hp & Hs).
  rewrite Forall_forall in Hc.
  assert (Hin1 : (k1, m1) ∈ packet_pool r)
    by (destruct (packet_pool r); [done|]; injection Hhd as ->; constructor).
  pose proof (Hc _ Hin1). pose proof (Hc _ Hin).
  destruct (build_ok (header_factory r) Hh) as (Hv & Hst & _).
  apply In_find in Hin, Hin1; [|done..].
  assert (k2 ≠ k1) by congruence.
  splits; [intros c [= <-]; by apply coded_wf|lia|].
  rewrite Hp, (length_erase k1 m1 _ Hin1).
  rewrite <- (find_erase_ne k2 k1) in Hin by done.
  rewrite (length_erase k2 m2 _ Hin). lia.
Qed.

Lemma rec_run_ok ops r : Recoder_inv r → Forall rec_op_ok ops →
  ∃ r' out, rec_run ops r = Ok (r', out) ∧ Recoder_inv r' ∧ Forall NCM_wf out
  ∧ (packets_encoded r' = packets_encoded r + length out)%nat
  ∧ (length (packet_pool r') + 2 * length out ≤ length (packet_pool r) + added ops)%nat.
Proof.
  intros Hi Hops. revert r Hi. induction Hops as [|o ops Ho Hops IH]; intros r Hi.
  { exists r, []. splits; try done; cbn; lia. }
  destruct o as [m|g]; cbn [rec_run].
  - destruct Ho as [Hw Hne].
    destruct (Recoder_add_spec r m Hi Hw Hne) as (r1 & E & Hi1 & Hp & He).
    destruct (IH r1 Hi1) as (r' & out & E' & Hi' & Hout & He' & Hl).
    rewrite E, bind_ok. exists r', out. splits; try done; [congruence|].
    unfold added in *. rewrite filter_cons. cbn [admitted]. rewrite Hp in Hl.
    destruct (admits m) eqn:Ea.
    + rewrite decide_True by done. cbn [length].
      pose proof (length_set_le (default 0 (head (pkt_ids m))) m (packet_pool r)). lia.
    + rewrite decide_False by done. lia.
  - destruct (produce_ok r g Hi) as (r1 & o & E & Hi1 & Hd).
    destruct (produced_facts r g r1 o Hi Hd) as (Hw & He & Hlen).
    destruct (IH r1 Hi1) as (r' & out & E' & Hi' & Hout & He' & Hl).
    rewrite E, bind_ok. cbn beta iota. rewrite E', bind_ok.
    do 2 eexists. splits; [done|done| | |]; unfold added in *;
      rewrite ?filter_cons_False by discriminate;
      destruct o as [c|]; cbn [count_some length] in *; try done; try lia.
    constructor; [by apply Hw|done].
Qed.

(** A coding host that starts with an empty recoder and is given any sequence of
    well-formed packets never fails (no key mismatch, no buffer overrun, no erase of
    an absent packet); every message it emits is well formed; each message uses up
    two of the packets that were admitted. *)
Theorem recoder_run_safe junk ops : header_valid junk → Forall rec_op_ok ops →
  ∃ r' out, rec_run ops (Recoder_new junk) = Ok (r', out) ∧ Recoder_inv r'
  ∧ Forall NCM_wf out ∧ packets_encoded r' = length out
  ∧ (length (packet_pool r') + 2 * length out ≤ added ops)%nat.
Proof. intros Hj. exact (rec_run_ok ops _ (Recoder_new_inv junk Hj)). Qed.
End properties.

(** Two packets of different hosts, and a stand-in for the checksum. *)
#[local] Instance sum_crc : Crc32 := λ bs, u32 (foldr (λ b z, byte_to_Z b + z) 0 bs).
#[local] Existing Instance XorCoder.
#[local] Existing Instance XorCoder_laws.

Definition nc_example2 : UDPNCMessage :=
  mkNCM (mkNCH 13 8 0 0 1 2 0 14) [5] [11] [mkIPaddr 167772162 1038 0]
        [Byte.x64; Byte.x65] 0 IPaddr_null.

Lemma nc_example2_wf : NCM_wf nc_example2.
Proof. constructor; try reflexivity; repeat (split || constructor); done. Defined.

Lemma nc_example_codable : codable 77 nc_example.
Proof.
  constructor; [exact nc_example_wf|reflexivity|exists 9; split; [reflexivity|done]
    |eexists; reflexivity|vm_compute; reflexivity|apply Nat.ltb_lt; vm_compute; reflexivity].
Defined.

Lemma nc_example2_codable : codable 5 nc_example2.
Proof.
  constructor; [exact nc_example2_wf|reflexivity|exists 11; split; [reflexivity|done]
    |eexists; reflexivity|vm_compute; reflexivity|apply Nat.ltb_lt; vm_compute; reflexivity].
Defined.

Definition xor_seed : @seed XorCoder := ().

Definition rec_example : UDPNCrecoder :=
  mkRecoder [(5, nc_example2); (77, nc_example)] (factory_make (header nc_example) 1 0 0) 2 0.

Lemma rec_example_inv : Recoder_inv rec_example.
Proof.
  constructor; [split|reflexivity|by apply (bool_decide_unpack (header_valid _))].
  - repeat constructor.
  - apply Forall_cons_2; [exact nc_example2_codable|].
    apply Forall_cons_2; [exact nc_example_codable|constructor].
Qed.

Lemma recoder_produces_witness :
  Recoder_inv rec_example ∧
  ∃ r' c, produceUDPNCMessage rec_example xor_seed = Ok (r', Some c) ∧ NCM_wf c
  ∧ packet_pool r' = [].
Proof.
  split; [exact rec_example_inv|].
  destruct (recoder_produces rec_example xor_seed rec_example_inv) as (r' & o & E & _ & Ho & Hc).
  destruct o as [c|].
  - exists r', c. destruct (Hc c eq_refl) as (Hw & _). split; [exact E|]. split; [exact Hw|].
    vm_compute in E. by injection E as <- _.
  - exfalso. apply (proj2 Ho); [|reflexivity].
    exists (5, nc_example2), (77, nc_example).
    split; [apply list_elem_of_here|].
    split; [apply list_elem_of_further, list_elem_of_here|discriminate].
Defined.

Lemma recoder_run_safe_witness :
  Forall rec_op_ok [RAdd nc_example; RAdd nc_example2; RProduce xor_seed; RProduce xor_seed] ∧
  ∃ r' out, rec_run [RAdd nc_example; RAdd nc_example2; RProduce xor_seed; RProduce xor_seed]
                    (Recoder_new (header nc_example)) = Ok (r', out)
  ∧ Forall NCM_wf out ∧ length out = 1%nat.
Proof.
  assert (Hops : Forall rec_op_ok [RAdd nc_example; RAdd nc_example2; RProduce xor_seed; RProduce xor_seed]).
  { assert (H1 : pkt_ids nc_example ≠ []) by discriminate.
    assert (H2 : pkt_ids nc_example2 ≠ []) by discriminate.
    apply Forall_cons_2; [exact (conj nc_example_wf H1)|].
    apply Forall_cons_2; [exact (conj nc_example2_wf H2)|].
    repeat constructor. }
  split; [exact Hops|].
  destruct (recoder_run_safe (header nc_example) _ (wf_header _ nc_example_wf) Hops)
    as (r' & out & E & _ & Hw & _).
  exists r', out. split; [exact E|]. split; [exact Hw|].
  vm_compute in E. by injection E as _ <-.
Defined.
