(* ===== verification/Decoder.v ===== *)
(** The client's network-coding decoder: VASTnet/udpNC_decoder.{h,cpp}. It pools the
    uncoded packets it is given and recovers, from a coded packet all but one of whose
    members are pooled, the missing one. The mutex is not modelled: each operation runs
    to its end. *)

From S2P Require Import Prelude Bytes StdMap Float Serial NCMessage Coding Recoder.
Local Open Scope Z_scope.

Record udpNC_decoder := mkDecoder {
  dec_pool : list (Z * UDPNCMessage);
  NC_packets : list UDPNCMessage;
  packets_recovered : nat; packets_added_packetpool : nat; packets_already_decoded : nat;
  packets_missing_undecodable : nat; packet_linearly_dependent : nat;
  packets_checksum_incorrect : nat; decodes_attempted : nat;
  dec_max_packetpool_size : nat; max_NC_packets_size : nat }.

Definition Decoder_new : udpNC_decoder := mkDecoder [] [] 0 0 0 0 0 0 0 0 0.

(** Updates of single members. *)
Definition set_queues (d : udpNC_decoder) pool nc : udpNC_decoder :=
  mkDecoder pool nc (packets_recovered d) (packets_added_packetpool d)
    (packets_already_decoded d) (packets_missing_undecodable d) (packet_linearly_dependent d)
    (packets_checksum_incorrect d) (decodes_attempted d) (dec_max_packetpool_size d)
    (max_NC_packets_size d).

Definition count_stats (d : udpNC_decoder) (recovered added already missing dependent
    incorrect attempted : nat) : udpNC_decoder :=
  mkDecoder (dec_pool d) (NC_packets d) (packets_recovered d + recovered)
    (packets_added_packetpool d + added) (packets_already_decoded d + already)
    (packets_missing_undecodable d + missing) (packet_linearly_dependent d + dependent)
    (packets_checksum_incorrect d + incorrect) (decodes_attempted d + attempted)
    (dec_max_packetpool_size d) (max_NC_packets_size d).

Definition high_marks (d : udpNC_decoder) : udpNC_decoder :=
  mkDecoder (dec_pool d) (NC_packets d) (packets_recovered d) (packets_added_packetpool d)
    (packets_already_decoded d) (packets_missing_undecodable d) (packet_linearly_dependent d)
    (packets_checksum_incorrect d) (decodes_attempted d)
    (if (dec_max_packetpool_size d <? length (dec_pool d))%nat then length (dec_pool d)
     else dec_max_packetpool_size d)
    (if (max_NC_packets_size d <? length (NC_packets d))%nat then length (NC_packets d)
     else max_NC_packets_size d).

Definition Decoder_addUDPNCMessage (d : udpNC_decoder) (m : UDPNCMessage)
    : outcome udpNC_decoder :=
  let d := count_stats d 0 1 0 0 0 0 0 in
  let pktids := pkt_ids m in
  uncoded ← (if (length pktids =? 1)%nat && (getMessageSize m <? Z.of_nat MAX_PACKET_SIZE)
             then from ← getFirstFromId m; Ok (negb (from =? NET_ID_UNASSIGNED))
             else Ok false);
  d ← (if uncoded : bool then
         id ← front pktids;
         match find id (dec_pool d) with
         | Some stored =>
             if negb (NCM_eqb stored m) then Fail LogicError
             else Ok (set_queues d (set id m (dec_pool d)) (NC_packets d))
         | None => Ok (set_queues d (set id m (dec_pool d)) (NC_packets d))
         end
       else if (1 <? length pktids)%nat then
         Ok (set_queues d (dec_pool d) (NC_packets d ++ [m]))
       else Ok d);
  Ok (high_marks d).

Definition clearPacketPool (d : udpNC_decoder) : udpNC_decoder := set_queues d [] [].

(** *** [_fetchFromPacketPool] *)

Definition available_ids (pool : list (Z * UDPNCMessage)) (pktids : list Z) : nat :=
  length (filter (λ id, has id pool = true) pktids).

(** The copy of the pooled packets by their index [j] on, and the index of the packet
    that is missing. Where the code calls it one packet is missing, so the initial value
    of the index, [size_t (-1)] in the code, is overwritten. *)
Fixpoint copy_available (pool : list (Z * UDPNCMessage)) (pktids : list Z) (j : nat)
    (avail : list (Z * UDPNCMessage)) (index : nat) : list (Z * UDPNCMessage) * nat :=
  match pktids with
  | [] => (avail, index)
  | id :: pktids =>
      match find id pool with
      | Some m => copy_available pool pktids (S j) (set (Z.of_nat j) m avail) index
      | None => copy_available pool pktids (S j) avail j
      end
  end.

Definition erase_used (pool : list (Z * UDPNCMessage)) (pktids : list Z)
    : list (Z * UDPNCMessage) :=
  fold_left (λ pool id, if has id pool then erase id pool else pool) pktids pool.

(** The loop over [NC_packets] from index [i]: each visited packet is erased and then
    [i] is incremented. Returned with the decoder: the active packet, the available
    packets and the index of the missing one. *)
Fixpoint fetch_loop (fuel i : nat) (d : udpNC_decoder)
    : udpNC_decoder * option (UDPNCMessage * list (Z * UDPNCMessage) * nat) :=
  match fuel with
  | O => (d, None)
  | S fuel =>
      match NC_packets d !! i with
      | None => (d, None)
      | Some m =>
          let pktids := pkt_ids m in
          let available := available_ids (dec_pool d) pktids in
          let rest := delete i (NC_packets d) in
          if (available =? length pktids)%nat then
            fetch_loop fuel (S i)
              (count_stats (set_queues d (dec_pool d) rest) 0 0 1 0 0 0 0)
          else if (length pktids - 1 <=? available)%nat then
            let '(avail, index) := copy_available (dec_pool d) pktids 0 [] 0 in
            (set_queues d (erase_used (dec_pool d) pktids) rest, Some (m, avail, index))
          else
            fetch_loop fuel (S i)
              (count_stats (set_queues d (dec_pool d) rest) 0 0 0 1 0 0 0)
      end
  end.

(** [Some]: the call returned [true]. Without an active packet both containers are
    empty and the call returns [false]. *)
Definition fetchFromPacketPool (d : udpNC_decoder)
    : udpNC_decoder * option (UDPNCMessage * list (Z * UDPNCMessage) * nat) :=
  match fetch_loop (length (NC_packets d)) 0 d with
  | (d, Some (active, avail, index)) =>
      if (length avail =? length (pkt_ids active))%nat then (d, None)
      else if negb (length avail =? length (pkt_ids active) - 1)%nat then (d, None)
      else (d, Some (active, avail, index))
  | (d, None) => (d, None)
  end.

Section decoder.
Context `{Crc32} `{Rlnc}.

(** The loop of [_putAvailableInDecoder] from index [k], [n] iterations left. *)
Fixpoint putAvailableInDecoder (dec : decoder) (avail : list (Z * UDPNCMessage))
    (index k n : nat) (total : Z) : outcome (decoder * Z) :=
  match n with
  | O => Ok (dec, total)
  | S n =>
      if (k =? index)%nat then putAvailableInDecoder dec avail index (S k) n total else
      m ← match find (Z.of_nat k) avail with Some m => Ok m | None => Fail LogicError end;
      '(buffer, _) ← NCM_serialize m (replicate MAX_PACKET_SIZE Byte.x00);
      checksum ← generateChecksum buffer (NCM_sizeOf m);
      let total := u32 (total + checksum) in
      let dec := read_uncoded_symbol dec buffer k in
      if is_complete dec then Ok (dec, total)
      else putAvailableInDecoder dec avail index (S k) n total
  end.

(** What follows the decoding: read the recovered symbol, and check the sum of the
    checksums against the coded packet's. *)
Definition recover (junk : UDPNCHeader) (d : udpNC_decoder) (dec : decoder)
    (active : UDPNCMessage) (index : nat) (total : Z)
    : outcome (udpNC_decoder * option UDPNCMessage) :=
  let data := drop (index * MAX_PACKET_SIZE) (data_out dec) in
  '(m, n) ← NCM_deserialize (NCM_default junk) data MAX_PACKET_SIZE;
  if n =? -1 then Ok (d, None) else
  c ← generateChecksum data (NCM_sizeOf m);
  if negb (u32 (total + c) =? checksum active)
  then Ok (count_stats d 0 0 0 0 0 1 0, None)
  else Ok (count_stats d 1 0 0 0 0 0 0, Some m).

Definition produceDecodedUDPNCMessage (junk : UDPNCHeader) (d : udpNC_decoder)
    : outcome (udpNC_decoder * option UDPNCMessage) :=
  let d := count_stats d 0 0 0 0 0 0 1 in
  match fetchFromPacketPool d with
  | (d, None) => Ok (d, None)
  | (d, Some (active, avail, index)) =>
      if negb (length avail =? 1)%nat then Fail LogicError else
      '(dec, total) ← putAvailableInDecoder decoder_build avail index 0
                        (length (pkt_ids active)) 0;
      '(message, _) ← fetch_bytes (Z.to_nat (getMessageSize active)) (msg active ++ [Byte.x00]);
      '(payload, _) ← put message (replicate (MAX_PACKET_SIZE + 20) Byte.x00, 0%nat);
      let dec := read_payload dec payload in
      if is_complete dec then recover junk d dec active index total
      else Ok (count_stats d 0 0 0 0 1 0 0, None)
  end.
End decoder.

(** *** Invariant *)

(** A packet of the pool. Its payload is bounded, but its image may be longer than a
    symbol: the header and the entry are not counted. *)
Record pooled (k : Z) (m : UDPNCMessage) : Prop := mk_pooled {
  po_wf : NCM_wf m;
  po_id : pkt_ids m = [k];
  po_from : ∃ f, from_ids m = [f] ∧ f ≠ NET_ID_UNASSIGNED;
  po_size : getMessageSize m < Z.of_nat MAX_PACKET_SIZE }.

Record Decoder_inv (d : udpNC_decoder) : Prop := mk_Decoder_inv {
  di_ordered : ordered (dec_pool d);
  di_pool : Forall (λ p, pooled (fst p) (snd p)) (dec_pool d);
  di_coded : Forall (λ m, NCM_wf m ∧ (1 < length (pkt_ids m))%nat) (NC_packets d);
  di_max : (length (dec_pool d) ≤ dec_max_packetpool_size d)%nat;
  di_nc_max : (length (NC_packets d) ≤ max_NC_packets_size d)%nat }.

#[local] Opaque MAX_PACKET_SIZE.

Lemma Decoder_new_inv : Decoder_inv Decoder_new.
Proof. constructor; try constructor. Qed.

Lemma high_marks_inv d :
  ordered (dec_pool d) → Forall (λ p, pooled (fst p) (snd p)) (dec_pool d) →
  Forall (λ m, NCM_wf m ∧ (1 < length (pkt_ids m))%nat) (NC_packets d) →
  Decoder_inv (high_marks d).
Proof. intros. constructor; try done; apply le_high_mark. Qed.

(** Is [m] an uncoded packet that the decoder pools? *)
Definition poolable (m : UDPNCMessage) : bool :=
  (length (pkt_ids m) =? 1)%nat && (getMessageSize m <? Z.of_nat MAX_PACKET_SIZE)
  && negb (from_of m =? NET_ID_UNASSIGNED).

Lemma poolable_pooled m : NCM_wf m → poolable m = true → ∃ k, pkt_ids m = [k] ∧ pooled k m.
Proof.
  intros Hw H. unfold poolable in H. rewrite !andb_true_iff, negb_true_iff in H.
  destruct H as [[Hl Hs] Hf]. apply Z.eqb_neq in Hf. apply Nat.eqb_eq in Hl. apply Z.ltb_lt in Hs.
  destruct (single_lists m Hw Hl) as (k & f & a & Hk & Hff & Ha).
  exists k. split; [done|]. unfold from_of in Hf. rewrite Hff in Hf.
  constructor; eauto.
Qed.

(** [addUDPNCMessage] on every branch. *)
Lemma Decoder_add_spec d m :
  Decoder_inv d → NCM_wf m →
  match Decoder_addUDPNCMessage d m with
  | Ok d' =>
      Decoder_inv d'
      ∧ (if poolable m then ∃ k, pkt_ids m = [k] ∧ dec_pool d' = set k m (dec_pool d)
                                 ∧ NC_packets d' = NC_packets d
         else dec_pool d' = dec_pool d
              ∧ NC_packets d' = NC_packets d ++ (if (1 <? length (pkt_ids m))%nat then [m] else []))
  | Fail f =>
      f = LogicError ∧ ∃ k stored, poolable m = true ∧ pkt_ids m = [k]
      ∧ find k (dec_pool d) = Some stored ∧ NCM_eqb stored m = false
  end.
Proof.
  intros [Ho Hp Hc Hm Hn] Hw. unfold Decoder_addUDPNCMessage. cbv zeta.
  assert (Hu : (if (length (pkt_ids m) =? 1)%nat && (getMessageSize m <? Z.of_nat MAX_PACKET_SIZE)
                then from ← getFirstFromId m; Ok (negb (from =? NET_ID_UNASSIGNED))
                else Ok false) = Ok (poolable m)).
  { unfold poolable. destruct (Nat.eqb_spec (length (pkt_ids m)) 1); [|done].
    destruct (_ <? _); [|done]. cbn [andb].
    rewrite from_singleton; [done|done|]. by destruct (pkt_ids m). }
  rewrite Hu, bind_ok. pose proof (poolable_pooled m Hw) as Hpo.
  destruct (poolable m).
  - destruct (Hpo eq_refl) as (k & Hk & Hpk). rewrite Hk. cbn [front]. rewrite bind_ok.
    cbn [dec_pool NC_packets count_stats].
    destruct (find k (dec_pool d)) as [stored|] eqn:Ef; [destruct (NCM_eqb stored m) eqn:Ee|];
      cbn [negb]; rewrite ?bind_ok.
    + split; [|by exists k]. apply high_marks_inv; cbn; [by apply ordered_set|by apply Forall_set|done].
    + split; [done|]. by exists k, stored.
    + split; [|by exists k]. apply high_marks_inv; cbn; [by apply ordered_set|by apply Forall_set|done].
  - destruct (Nat.ltb_spec 1 (length (pkt_ids m))); rewrite bind_ok; cbn.
    + split; [|done]. apply high_marks_inv; cbn; [done..|].
      apply Forall_app_2; [done|]. by apply Forall_singleton.
    + split; [|by rewrite app_nil_r]. by apply high_marks_inv.
Qed.

(** *** The scan of the queue *)

(** Can [m] be decoded, all but one of its packets being pooled? *)
Definition decodable (pool : list (Z * UDPNCMessage)) (m : UDPNCMessage) : bool :=
  negb (available_ids pool (pkt_ids m) =? length (pkt_ids m))%nat
  && (length (pkt_ids m) - 1 <=? available_ids pool (pkt_ids m))%nat.

(** The reference of the loop: it looks at the packets at even positions only, drops
    the ones it looks at, and stops at the first decodable one. *)
Fixpoint scan (pool : list (Z * UDPNCMessage)) (l : list UDPNCMessage)
    : list UDPNCMessage * option UDPNCMessage :=
  match l with
  | [] => ([], None)
  | [m] => ([], if decodable pool m then Some m else None)
  | m :: x :: l =>
      if decodable pool m then (x :: l, Some m)
      else let '(rest, o) := scan pool l in (x :: rest, o)
  end.

Lemma delete_app_len {A} (pre : list A) x l : delete (length pre) (pre ++ x :: l) = pre ++ l.
Proof. induction pre as [|y pre IH]; [done|]. cbn. by rewrite <- IH. Qed.

Lemma lookup_app_len {A} (pre l : list A) : (pre ++ l) !! length pre = head l.
Proof. rewrite lookup_app_r, Nat.sub_diag by lia. by destruct l. Qed.

(** The members that the loop does not write. *)
Definition kept (d d' : udpNC_decoder) : Prop :=
  packets_recovered d' = packets_recovered d
  ∧ packets_added_packetpool d' = packets_added_packetpool d
  ∧ packet_linearly_dependent d' = packet_linearly_dependent d
  ∧ packets_checksum_incorrect d' = packets_checksum_incorrect d
  ∧ decodes_attempted d' = decodes_attempted d
  ∧ dec_max_packetpool_size d' = dec_max_packetpool_size d
  ∧ max_NC_packets_size d' = max_NC_packets_size d.

Lemma kept_trans d1 d2 d3 : kept d1 d2 → kept d2 d3 → kept d1 d3.
Proof. unfold kept. intuition congruence. Qed.

Definition fetched (d d' : udpNC_decoder) (m : UDPNCMessage)
    (o : option (UDPNCMessage * list (Z * UDPNCMessage) * nat)) : Prop :=
  dec_pool d' = erase_used (dec_pool d) (pkt_ids m)
  ∧ o = Some (m, fst (copy_available (dec_pool d) (pkt_ids m) 0 [] 0),
              snd (copy_available (dec_pool d) (pkt_ids m) 0 [] 0)).

(** One iteration. *)
Lemma fetch_loop_step fuel pre m l d :
  NC_packets d = pre ++ m :: l →
  if decodable (dec_pool d) m
  then ∃ d' o, fetch_loop (S fuel) (length pre) d = (d', o) ∧ kept d d'
       ∧ NC_packets d' = pre ++ l ∧ fetched d d' m o
  else ∃ d1, fetch_loop (S fuel) (length pre) d = fetch_loop fuel (S (length pre)) d1
       ∧ kept d d1 ∧ NC_packets d1 = pre ++ l ∧ dec_pool d1 = dec_pool d.
Proof.
  intros Hl. cbn [fetch_loop]. rewrite Hl, lookup_app_len, delete_app_len. cbn [head]. cbv zeta.
  unfold decodable.
  assert (K : ∀ n, kept d (count_stats (set_queues d (dec_pool d) (pre ++ l)) 0 0 n 0 0 0 0)
              ∧ kept d (count_stats (set_queues d (dec_pool d) (pre ++ l)) 0 0 0 n 0 0 0)).
  { intros n. unfold kept. cbn. lia. }
  destruct (_ =? _)%nat; cbn [negb andb].
  { eexists. splits; [done|apply K|done|done]. }
  destruct (_ <=? _)%nat.
  - unfold fetched. destruct (copy_available _ _ _ _ _) as [avail index].
    do 2 eexists. splits; [done|done|done|done|done].
  - eexists. splits; [done|apply K|done|done].
Qed.

Lemma fetch_loop_past fuel i d :
  (length (NC_packets d) ≤ i)%nat → fetch_loop fuel i d = (d, None).
Proof. intros H. destruct fuel; [done|]. cbn. by rewrite lookup_ge_None_2. Qed.

Lemma fetch_loop_scan fuel pre l d :
  NC_packets d = pre ++ l → (length l ≤ fuel)%nat →
  ∃ d' o, fetch_loop fuel (length pre) d = (d', o) ∧ kept d d'
  ∧ NC_packets d' = pre ++ fst (scan (dec_pool d) l)
  ∧ match snd (scan (dec_pool d) l) with
    | None => o = None ∧ dec_pool d' = dec_pool d
    | Some m => fetched d d' m o
    end.
Proof.
  revert pre l d. induction fuel as [|fuel IH]; intros pre l d Hl Hf.
  { destruct l; [|cbn in Hf; lia]. rewrite app_nil_r in Hl.
    exists d, None. by rewrite app_nil_r. }
  destruct l as [|m l].
  { rewrite app_nil_r in Hl. rewrite fetch_loop_past by (by rewrite Hl).
    exists d, None. by rewrite app_nil_r. }
  pose proof (fetch_loop_step fuel pre m l d Hl) as Hs.
  assert (Hsc : scan (dec_pool d) (m :: l) =
    if decodable (dec_pool d) m then (l, Some m) else
    match l with
    | [] => ([], None)
    | x :: l => (x :: fst (scan (dec_pool d) l), snd (scan (dec_pool d) l))
    end).
  { destruct l as [|x l]; cbn; destruct (decodable _ m); try done. by destruct (scan _ l). }
  rewrite Hsc. destruct (decodable (dec_pool d) m).
  - destruct Hs as (d' & o & E & Hk & Hn & Hfe). by exists d', o.
  - destruct Hs as (d1 & E & Hk & Hn & Hp). rewrite E. destruct l as [|x l].
    + rewrite app_nil_r in Hn. rewrite fetch_loop_past by (rewrite Hn; lia).
      exists d1, None. by rewrite app_nil_r.
    + destruct (IH (pre ++ [x]) l d1) as (d' & o & E' & Hk' & Hn' & Hd).
      { by rewrite <- app_assoc. }
      { cbn in Hf. lia. }
      rewrite length_app, Nat.add_1_r in E'. exists d', o.
      rewrite Hp in *. splits; [done|by eapply kept_trans|by rewrite Hn', <- app_assoc|].
      cbn [snd]. destruct (snd (scan _ l)) as [m'|]; [|done].
      unfold fetched in *. by rewrite Hp in Hd.
Qed.

Lemma available_ids_le pool ids : (available_ids pool ids ≤ length ids)%nat.
Proof. apply length_filter. Qed.

Lemma decodable_count pool m : decodable pool m = true →
  available_ids pool (pkt_ids m) = (length (pkt_ids m) - 1)%nat ∧ (0 < length (pkt_ids m))%nat.
Proof.
  unfold decodable. rewrite andb_true_iff, negb_true_iff.
  intros [H1%Nat.eqb_neq H2%Nat.leb_le].
  pose proof (available_ids_le pool (pkt_ids m)). lia.
Qed.

Lemma copy_available_length pool ids j avail index :
  Forall (λ p, fst p < Z.of_nat j) avail →
  length (fst (copy_available pool ids j avail index))
  = (length avail + available_ids pool ids)%nat.
Proof.
  revert j avail index. induction ids as [|id ids IH]; intros j avail index Hb; [cbn; lia|].
  assert (Hb' : Forall (λ p : Z * UDPNCMessage, fst p < Z.of_nat (S j)) avail).
  { eapply Forall_impl; [exact Hb|]. intros x Hx. cbn beta in Hx |- *. lia. }
  cbn [copy_available]. unfold available_ids, has. rewrite filter_cons.
  destruct (find id pool) as [m|].
  - rewrite decide_True, IH by (done || (apply Forall_set; [cbn; lia|done])).
    rewrite length_set_new; [cbn [length]; unfold available_ids, has; lia|].
    destruct (find (Z.of_nat j) avail) as [v|] eqn:E; [|done].
    apply find_In in E. rewrite Forall_forall in Hb. apply Hb in E. cbn in E. lia.
  - by rewrite decide_False, IH.
Qed.

Lemma scan_decodable pool l m : snd (scan pool l) = Some m → decodable pool m = true.
Proof.
  enough (H : ∀ n l, (length l ≤ n)%nat → snd (scan pool l) = Some m → decodable pool m = true)
    by (by apply (H (length l))).
  clear l. induction n as [|n IH]; intros [|m' [|x l]] Hl;
    cbn [scan snd length] in *; try done; try lia;
    destruct (decodable pool m') eqn:Em; try done; try (by intros [= ->]).
  intros H. apply (IH l); [lia|]. by destruct (scan pool l).
Qed.

Lemma scan_length pool l :
  (length (fst (scan pool l)) ≤ pred (length l))%nat
  ∧ (snd (scan pool l) = None → length (fst (scan pool l)) = Nat.div2 (length l)).
Proof.
  remember (length l) as n eqn:Hn. revert l Hn. induction n as [n IH] using lt_wf_ind.
  intros [|m [|x l]] ->; cbn [scan]; [done|done|].
  destruct (decodable pool m); [done|].
  destruct (IH (length l)) with (l := l) as [H1 H2]; [cbn; lia|done|].
  destruct (scan pool l) as [rest o]. cbn [fst snd length Nat.div2 pred] in *.
  split; [lia|]. intros ->. by rewrite H2.
Qed.

Lemma fetch_spec d : ∃ d',
  fetchFromPacketPool d =
    (d', match snd (scan (dec_pool d) (NC_packets d)) with
         | None => None
         | Some m => let '(avail, index) := copy_available (dec_pool d) (pkt_ids m) 0 [] 0 in
                     Some (m, avail, index)
         end)
  ∧ kept d d' ∧ NC_packets d' = fst (scan (dec_pool d) (NC_packets d))
  ∧ dec_pool d' = match snd (scan (dec_pool d) (NC_packets d)) with
                  | None => dec_pool d
                  | Some m => erase_used (dec_pool d) (pkt_ids m)
                  end.
Proof.
  destruct (fetch_loop_scan (length (NC_packets d)) [] (NC_packets d) d)
    as (d' & o & E & Hk & Hn & Hd); [done|done|].
  exists d'. unfold fetchFromPacketPool. cbn [length] in E. rewrite E.
  pose proof (scan_decodable (dec_pool d) (NC_packets d)) as Hdec.
  destruct (snd (scan (dec_pool d) (NC_packets d))) as [m|].
  - destruct Hd as [Hp ->]. pose proof (decodable_count _ _ (Hdec m eq_refl)) as [Hc Hl].
    pose proof (copy_available_length (dec_pool d) (pkt_ids m) 0 [] 0 (Forall_nil_2 _)) as Hlen.
    destruct (copy_available _ _ _ _ _) as [avail index]. cbn [fst snd length] in *.
    rewrite Hlen, Hc, Nat.add_0_l, Nat.eqb_refl.
    destruct (Nat.eqb_spec (length (pkt_ids m) - 1) (length (pkt_ids m))); [lia|].
    cbn [negb]. by splits.
  - destruct Hd as [-> Hp]. by splits.
Qed.

Section recovery.
Context `{Crc32} `{RlncLaws}.

(** *** Decoding a pair *)

(** Messages with the same wire image are the same but for the address they came from. *)
Lemma symbol_wire m1 m2 : NCM_wire m1 = NCM_wire m2 → symbol m1 = symbol m2.
Proof. unfold symbol. by intros ->. Qed.

Lemma put_one_available dec m k i other :
  codable k m → (i < 2)%nat → other = (1 - i)%nat →
  is_complete (read_uncoded_symbol dec (symbol m) i) = false →
  putAvailableInDecoder dec [(Z.of_nat i, m)] other 0 2 0
  = Ok (read_uncoded_symbol dec (symbol m) i, u32 (crc32 (NCM_wire m))).
Proof.
  intros C Hi -> Hn. pose proof (checksum_symbol k m [] C) as Hs. rewrite app_nil_r in Hs.
  assert (i = 0 ∨ i = 1)%nat as [-> | ->] by lia; cbn [putAvailableInDecoder Nat.sub Nat.eqb find].
  all: rewrite Z.eqb_refl, bind_ok, (serialize_symbol k), bind_ok by done; cbn beta iota;
    rewrite Hs, bind_ok; cbv zeta; by rewrite Hn.
Qed.

Lemma recover_symbol junk d dec m k active other total rest :
  codable k m → drop (other * MAX_PACKET_SIZE) (data_out dec) = symbol m ++ rest →
  checksum active = u32 (total + crc32 (NCM_wire m)) →
  recover junk d dec active other total
  = Ok (count_stats d 1 0 0 0 0 0 0, Some (set_socket_addr m IPaddr_null)).
Proof.
  intros C Hd Hc. unfold recover. cbv zeta. rewrite Hd.
  pose proof (cod_fits _ _ C) as Hf. pose proof (checksum_symbol k m rest C) as Hs.
  assert (HM : (MAX_PACKET_SIZE = 500)%nat) by done.
  assert (E : NCM_deserialize (NCM_default junk) (symbol m ++ rest) MAX_PACKET_SIZE
              = Ok (NCM_merge (NCM_default junk) m, Z.of_nat (length (NCM_wire m)))).
  { unfold symbol. rewrite <- app_assoc. apply NCM_deserialize_wire; [apply C|lia..]. }
  rewrite E, bind_ok. cbn beta iota.
  destruct (Z.eqb_spec (Z.of_nat (length (NCM_wire m))) (-1)); [lia|].
  change (NCM_sizeOf (NCM_merge (NCM_default junk) m)) with (NCM_sizeOf m).
  rewrite Hs, bind_ok, Hc, Z.eqb_refl. done.
Qed.

(** The payload of a coded message fits the buffer it is copied to. *)
Lemma payload_fits h g k1 k2 m1 m2 a :
  let c := set_socket_addr (coded h g k1 k2 m1 m2) a in
  ∃ pad, ('(message, _) ← fetch_bytes (Z.to_nat (getMessageSize c)) (msg c ++ [Byte.x00]);
          put message (replicate (MAX_PACKET_SIZE + 20) Byte.x00, 0%nat))
         = Ok (write_payload g (symbol m1) (symbol m2) ++ pad,
               length (write_payload g (symbol m1) (symbol m2))).
Proof.
  cbv zeta. unfold getMessageSize, coded. cbn [header set_socket_addr msg packetsize set_packetsize].
  pose proof payload_size_bound as Hb. assert (HM : (MAX_PACKET_SIZE = 500)%nat) by done.
  rewrite write_payload_length, wrap_id, Nat2Z.id by (split; [lia|pows; lia]).
  rewrite fetch_bytes_app, bind_ok by (by rewrite write_payload_length). cbn beta iota.
  rewrite put_start; [eexists; by rewrite write_payload_length|].
  rewrite length_replicate, write_payload_length. lia.
Qed.

Lemma codable_sock k m a : codable k m → codable k (set_socket_addr m a).
Proof. intros [[] H2 H3 H4 H5 H6]. constructor; [by constructor|done..]. Qed.

Definition pick {A} (i : nat) (x y : A) : A := if (i =? 0)%nat then x else y.

(** The scan of a queue that starts with a coded pair one of which is pooled. *)
Lemma pair_available pool k1 k2 i m :
  (i < 2)%nat → find (pick i k1 k2) pool = Some m → find (pick (1 - i) k1 k2) pool = None →
  available_ids pool [k1; k2] = 1%nat
  ∧ copy_available pool [k1; k2] 0 [] 0 = ([(Z.of_nat i, m)], (1 - i)%nat)
  ∧ erase_used pool [k1; k2] = erase (pick i k1 k2) pool.
Proof.
  intros Hi Hf Hn. unfold available_ids, erase_used, has. cbn [fold_left copy_available].
  assert (i = 0 ∨ i = 1)%nat as [-> | ->] by lia; unfold pick in *; cbn [Nat.eqb Nat.sub] in *.
  - assert (k2 ≠ k1) by congruence. rewrite !filter_cons, Hf, Hn, decide_True, decide_False by done.
    splits; [done|done|]. by rewrite find_erase_ne, Hn.
  - rewrite !filter_cons, Hf, Hn, decide_False, decide_True, Hf by done. done.
Qed.

Lemma produce_pair junk d h g k1 k2 m1 m2 a a' i rest :
  codable k1 m1 → codable k2 m2 → (i < 2)%nat → innovative g i →
  NC_packets d = set_socket_addr (coded h g k1 k2 m1 m2) a :: rest →
  find (pick i k1 k2) (dec_pool d) = Some (set_socket_addr (pick i m1 m2) a') →
  find (pick (1 - i) k1 k2) (dec_pool d) = None →
  ∃ d', produceDecodedUDPNCMessage junk d
        = Ok (d', Some (set_socket_addr (pick (1 - i) m1 m2) IPaddr_null))
  ∧ NC_packets d' = rest ∧ dec_pool d' = erase (pick i k1 k2) (dec_pool d)
  ∧ packets_recovered d' = S (packets_recovered d).
Proof.
  intros C1 C2 Hi Hg Hq Hf Hn. unfold produceDecodedUDPNCMessage.
  set (d0 := count_stats d 0 0 0 0 0 0 1).
  destruct (fetch_spec d0) as (d1 & E & Hk & Hq1 & Hp1).
  change (NC_packets d0) with (NC_packets d) in *. change (dec_pool d0) with (dec_pool d) in *.
  destruct (pair_available _ _ _ _ _ Hi Hf Hn) as (Ha & Hc & He).
  assert (Hs : scan (dec_pool d) (NC_packets d)
               = (rest, Some (set_socket_addr (coded h g k1 k2 m1 m2) a))).
  { rewrite Hq. assert (Hd : decodable (dec_pool d)
      (set_socket_addr (coded h g k1 k2 m1 m2) a) = true)
      by (unfold decodable; cbn [set_socket_addr coded pkt_ids]; by rewrite Ha).
    destruct rest; cbn [scan]; by rewrite Hd. }
  rewrite Hs in E, Hq1, Hp1. cbn [fst snd set_socket_addr coded pkt_ids] in E, Hq1, Hp1.
  rewrite Hc in E. rewrite He in Hp1. rewrite E. cbn [length Nat.eqb negb].
  change (pkt_ids (mkNCM _ [k1; k2] _ _ _ _ _)) with [k1; k2]. cbn [length].
  set (s0 := symbol m1). set (s1 := symbol m2).
  assert (Hsym : symbol (set_socket_addr (pick i m1 m2) a') = pick i s0 s1)
    by (by destruct i).
  assert (Hco : ∀ j, codable (pick j k1 k2) (pick j m1 m2)) by (by intros [|j]).
  rewrite (put_one_available _ _ (pick i k1 k2)), bind_ok; try done;
    [|by apply codable_sock|apply one_symbol_incomplete].
  cbn beta iota. rewrite Hsym.
  change (NCM_wire (set_socket_addr (pick i m1 m2) a')) with (NCM_wire (pick i m1 m2)).
  destruct (payload_fits h g k1 k2 m1 m2 a) as (pad & Hpad).
  apply bind_inv in Hpad as ([message p] & Ef & Hpad). rewrite Ef, bind_ok. cbn beta iota.
  rewrite Hpad, bind_ok. cbn beta iota zeta.
  destruct (decode_other g s0 s1 i pad) as [Hcomp Hout];
    [by eapply length_symbol|by eapply length_symbol|done|done|].
  cbv zeta in Hcomp, Hout.
  change (if (i =? 0)%nat then s0 else s1) with (pick i s0 s1) in Hcomp, Hout.
  fold s0 s1. rewrite Hcomp.
  rewrite (recover_symbol _ _ _ (pick (1 - i) m1 m2) (pick (1 - i) k1 k2) _ _ _
             (pick i [] s1)); [|apply Hco| |].
  - eexists. splits; [done|by cbn|by cbn|].
    cbn [packets_recovered count_stats]. rewrite (proj1 Hk). cbn. lia.
  - rewrite Hout. assert (i = 0 ∨ i = 1)%nat as [-> | ->] by lia; unfold pick; cbn [Nat.eqb Nat.sub].
    + rewrite Nat.mul_1_l, drop_app_len, app_nil_r; [done|]. symmetry. exact (length_symbol k1 m1 C1).
    + done.
  - cbn [checksum set_socket_addr coded].
    assert (i = 0 ∨ i = 1)%nat as [-> | ->] by lia; unfold pick, wrap; cbn [Nat.eqb Nat.sub];
      rewrite Zplus_mod_idemp_l; [done|by rewrite Z.add_comm].
Qed.
End recovery.

(** *** Properties *)

Section properties.
Context `{Crc32} `{RlncLaws}.

(** C14: End to end. A recoder that satisfies its invariant codes the packets [k1] and
    [k2] into [c]; [c] is serialized, received and given to a client whose decoder
    pools one of the two packets and lacks the other. If the payload is independent of
    the packet the client has, the next [produceDecodedUDPNCMessage] returns a message
    with the content of the packet it lacked, and the pooled packet is used up. *)
Theorem lost_packet_recovered r g r' c k1 k2 mem junk junk' d i have lost a a' :
  Recoder_inv r → produceUDPNCMessage r g = Ok (r', Some c) → pkt_ids c = [k1; k2] →
  (length (NCM_wire c) ≤ length mem)%nat → Z.of_nat (length mem) < 2 ^ 64 →
  Decoder_inv d → NC_packets d = [] → (i < 2)%nat → innovative g i →
  find (pick i k1 k2) (packet_pool r) = Some have →
  find (pick (1 - i) k1 k2) (packet_pool r) = Some lost →
  find (pick i k1 k2) (dec_pool d) = Some (set_socket_addr have a') →
  find (pick (1 - i) k1 k2) (dec_pool d) = None →
  ∃ buf n c' d1 d2 m,
    NCM_serialize c mem = Ok (buf, n)
    ∧ NCM_deserialize (NCM_default junk) buf n = Ok (c', Z.of_nat n)
    ∧ Decoder_addUDPNCMessage d (set_socket_addr c' a) = Ok d1
    ∧ produceDecodedUDPNCMessage junk' d1 = Ok (d2, Some m)
    ∧ NCM_contentEquals m lost = true
    ∧ dec_pool d2 = erase (pick i k1 k2) (dec_pool d) ∧ NC_packets d2 = []
    ∧ packets_recovered d2 = S (packets_recovered d).
Proof.
  intros Hr E Hids Hmem H64 Hd Hq Hi Hg Hhave Hlost Hdh Hdl.
  destruct (produce_ok r g Hr) as (r1 & o & E1 & _ & Hp).
  rewrite E in E1. injection E1 as <- <-.
  destruct Hp as (q1 & m1 & q2 & m2 & Hhd & Hin & _ & _ & Hc & _).
  rewrite Hc in Hids. injection Hids as -> ->.
  destruct Hr as [[Ho Hpool] _ Hh].
  assert (Hin1 : (k1, m1) ∈ packet_pool r)
    by (destruct (packet_pool r); [done|]; injection Hhd as ->; constructor).
  rewrite Forall_forall in Hpool.
  pose proof (Hpool _ Hin1) as C1. pose proof (Hpool _ Hin) as C2. cbn in C1, C2.
  apply In_find in Hin, Hin1; [|done..].
  assert (Hms : have = pick i m1 m2 ∧ lost = pick (1 - i) m1 m2).
  { assert (i = 0 ∨ i = 1)%nat as [-> | ->] by lia; cbn in Hhave, Hlost |- *;
      split; congruence. }
  destruct Hms as [-> ->].
  destruct (build_ok (header_factory r) Hh) as (Hv & Hs & _).
  pose proof (coded_wf _ g k1 k2 m1 m2 C1 C2 Hv Hs) as Hw.
  set (hd := fst (build (header_factory r))) in *. subst c.
  rewrite NCM_serialize_wire by done.
  set (cc := coded hd g k1 k2 m1 m2) in *.
  set (c' := set_socket_addr cc a).
  assert (Hw' : NCM_wf c') by (destruct Hw; by constructor).
  pose proof (Decoder_add_spec d c' Hd Hw') as Hadd.
  change (poolable c') with false in Hadd. change (pkt_ids c') with [k1; k2] in Hadd.
  destruct (Decoder_addUDPNCMessage d c') as [d1|] eqn:Ed.
  2: { destruct Hadd as (_ & k & st & Hf & _). done. }
  destruct Hadd as (Hd1 & Hp1 & Hq1). rewrite Hq in Hq1.
  assert (Hrec1 : packets_recovered d1 = packets_recovered d).
  { unfold Decoder_addUDPNCMessage in Ed. cbn in Ed. injection Ed as <-. cbn. lia. }
  destruct (produce_pair junk' d1 hd g k1 k2 m1 m2 a a' i [])
    as (d2 & E2 & Hq2 & Hp2 & Hr2); try done; [by rewrite Hp1..|].
  rewrite Hp1 in Hp2. rewrite Hrec1 in Hr2.
  do 2 eexists. exists (set_socket_addr cc IPaddr_null), d1, d2, (set_socket_addr (pick (1 - i) m1 m2) IPaddr_null).
  splits; [done| |exact Ed|exact E2|apply NCM_contentEquals_sock|done..].
  rewrite NCM_deserialize_wire by (done || lia). done.
Qed.
End properties.

(** What [_fetchFromPacketPool] does to the queue of coded packets. It looks at the
    packets at even positions only, since it increments its index after erasing the
    packet at that index; every packet it looks at is erased, and the first decodable
    one is handed out. A call shortens a non-empty queue, so that enough calls empty it;
    a call that finds nothing leaves half of the queue unexamined. *)
Theorem fetch_examines_alternate d :
  ∃ d' o, fetchFromPacketPool d = (d', o)
  ∧ (NC_packets d', option_map (λ x, fst (fst x)) o) = scan (dec_pool d) (NC_packets d)
  ∧ (NC_packets d ≠ [] → (length (NC_packets d') < length (NC_packets d))%nat)
  ∧ (o = None → dec_pool d' = dec_pool d ∧ length (NC_packets d') = Nat.div2 (length (NC_packets d))).
Proof.
  destruct (fetch_spec d) as (d' & E & _ & Hq & Hp).
  destruct (scan_length (dec_pool d) (NC_packets d)) as [H1 H2].
  do 2 eexists. split; [exact E|]. rewrite Hq.
  destruct (scan (dec_pool d) (NC_packets d)) as [rest [m|]]; cbn [fst snd] in *.
  - destruct (copy_available _ _ _ _ _) as [avail index]. splits; [done| |done].
    intros Hne. destruct (NC_packets d); [done|cbn [length pred] in *; lia].
  - splits; [done| |intros _; split; [exact Hp|exact (H2 eq_refl)]].
    intros Hne. destruct (NC_packets d); [done|cbn [length pred] in *; lia].
Qed.

Section overflow.
Context `{Crc32} `{RlncLaws}.

(** The pool admits packets by the size of their payload alone, but a pooled packet
    is serialized with its header and its entry into a buffer of [MAX_PACKET_SIZE]
    bytes: a packet of 465 to 499 payload bytes overruns the buffer as soon as a coded
    packet that lists it and one unknown packet is decoded. *)
Theorem oversize_packet_overruns junk d c k1 k2 m rest :
  NC_packets d = c :: rest → pkt_ids c = [k1; k2] →
  find k1 (dec_pool d) = Some m → pooled k1 m → find k2 (dec_pool d) = None →
  465 ≤ getMessageSize m → produceDecodedUDPNCMessage junk d = Fail OutOfBounds.
Proof.
  intros Hq Hids Hf Hpo Hn Hsz. unfold produceDecodedUDPNCMessage.
  set (d0 := count_stats d 0 0 0 0 0 0 1).
  destruct (fetch_spec d0) as (d1 & E & _).
  change (NC_packets d0) with (NC_packets d) in *. change (dec_pool d0) with (dec_pool d) in *.
  destruct (pair_available (dec_pool d) k1 k2 0 m) as (Ha & Hc & _); [lia|done|done|].
  assert (Hs : scan (dec_pool d) (NC_packets d) = (rest, Some c)).
  { rewrite Hq. assert (Hd : decodable (dec_pool d) c = true)
      by (unfold decodable; by rewrite Hids, Ha).
    destruct rest; cbn [scan]; by rewrite Hd. }
  rewrite Hs in E. cbn [snd] in E. rewrite Hids, Hc in E. rewrite E, Hids.
  cbn [length Nat.eqb negb putAvailableInDecoder find Nat.sub].
  rewrite Z.eqb_refl, bind_ok, NCM_serialize_overflow; [done|apply Hpo|].
  rewrite length_replicate. pose proof (length_NCM_wire m (po_wf _ _ Hpo)) as Hl.
  pose proof (wf_pids _ (po_wf _ _ Hpo)) as Hp. rewrite (po_id _ _ Hpo) in Hp.
  unfold getMessageSize in Hsz. cbn [length] in Hp.
  assert (HM : (MAX_PACKET_SIZE = 500)%nat) by done. lia.
Qed.
End overflow.

(** *** Witnesses *)

#[local] Existing Instance sum_crc.
#[local] Existing Instance XorCoder.
#[local] Existing Instance XorCoder_laws.

(** A client that received [nc_example2] but not [nc_example]. *)
Definition dec_example : udpNC_decoder :=
  mkDecoder [(5, set_socket_addr nc_example2 (mkIPaddr 3 4 0))] [] 0 1 0 0 0 0 0 1 0.

Lemma dec_example_inv : Decoder_inv dec_example.
Proof.
  constructor; try (constructor; done); try (cbn; lia); [repeat constructor|].
  apply Forall_singleton. pose proof nc_example2_wf as Hw.
  constructor; [by destruct Hw; constructor|done|by exists 11|done].
Qed.

Lemma lost_packet_recovered_witness :
  ∃ r' c buf n c' d1 d2 m,
    produceUDPNCMessage rec_example xor_seed = Ok (r', Some c)
    ∧ NCM_serialize c (replicate 600 Byte.x00) = Ok (buf, n)
    ∧ NCM_deserialize (NCM_default (header nc_example)) buf n = Ok (c', Z.of_nat n)
    ∧ Decoder_addUDPNCMessage dec_example (set_socket_addr c' IPaddr_null) = Ok d1
    ∧ produceDecodedUDPNCMessage (header nc_example) d1 = Ok (d2, Some m)
    ∧ NCM_contentEquals m nc_example = true.
Proof.
  destruct (produceUDPNCMessage rec_example xor_seed) as [[r' [c|]]|] eqn:E.
  - assert (Hids : pkt_ids c = [5; 77]) by (vm_compute in E; by injection E as _ <-).
    assert (Hl : (length (NCM_wire c) ≤ length (replicate 600 Byte.x00))%nat)
      by (apply Nat.leb_le; vm_compute in E; injection E as _ <-; vm_compute; reflexivity).
    destruct (lost_packet_recovered (H1 := XorCoder_laws) rec_example xor_seed r' c 5 77 (replicate 600 Byte.x00)
                (header nc_example) (header nc_example) dec_example 0 nc_example2 nc_example
                IPaddr_null (mkIPaddr 3 4 0) rec_example_inv E Hids Hl eq_refl dec_example_inv
                eq_refl (le_S _ _ (le_n _)) I eq_refl eq_refl eq_refl eq_refl)
      as (buf & n & c' & d1 & d2 & m & H1 & H2 & H3 & H4 & H5 & _).
    exists r', c, buf, n, c', d1, d2, m.
    split; [reflexivity|]. by splits.
  - vm_compute in E. discriminate E.
  - vm_compute in E. discriminate E.
Defined.

Definition big_example : UDPNCMessage :=
  mkNCM (mkNCH 13 7 0 0 1 480 0 14) [77] [9] [mkIPaddr 167772161 1037 0]
        (replicate 480 Byte.x61) 0 IPaddr_null.

Lemma big_example_wf : NCM_wf big_example.
Proof. constructor; try reflexivity; repeat (split || constructor); done. Qed.

Lemma oversize_packet_overruns_witness :
  ∃ d, Decoder_addUDPNCMessage Decoder_new big_example = Ok d
  ∧ ∃ d', Decoder_addUDPNCMessage d (putIdsAddr big_example 78 11 IPaddr_null true) = Ok d'
  ∧ produceDecodedUDPNCMessage (header nc_example) d' = Fail OutOfBounds.
Proof.
  eexists. split; [reflexivity|]. eexists. split; [reflexivity|].
  eapply (oversize_packet_overruns _ _ _ 77 78 big_example []);
    [reflexivity|reflexivity|reflexivity| |reflexivity|].
  - constructor; [exact big_example_wf|reflexivity|by exists 9|reflexivity].
  - intros E. discriminate E.
Defined.
