(* ===== verification/Consumer.v ===== *)
(** The client's ordering stage: VASTnet/net_udpnc_consumer.{h,cpp} and the queue
    common/ConcurrentQueue.h that feeds it. Uncoded packets, received or recovered, are
    filtered by destination and put in order by the 8-bit ordering number of their
    sender; what passes goes to the unicast handler. *)

From S2P Require Import Prelude Bytes StdMap Float Serial NCMessage.
Local Open Scope Z_scope.

(** *** ConcurrentQueue

    One operation at a time: each holds the mutex. [pop] on an empty active queue waits
    on the condition variable. *)

Record ConcurrentQueue (T : Type) := mkCQ { queue_ : list T; cq_active : bool }.
Arguments mkCQ {T} _ _.
Arguments queue_ {T} _.
Arguments cq_active {T} _.

Definition cq_new {T} : ConcurrentQueue T := mkCQ [] true.

Inductive pop_result (T : Type) :=
  | Waits
  | Returns (item : T) (q : ConcurrentQueue T).
Arguments Waits {T}.
Arguments Returns {T} _ _.

(** [pop (item)]: a closed queue leaves [item] as it was. *)
Definition pop {T} (q : ConcurrentQueue T) (item : T) : pop_result T :=
  if negb (cq_active q) then Returns item q else
  match queue_ q with
  | [] => Waits
  | x :: l => Returns x (mkCQ l (cq_active q))
  end.

Definition push {T} (q : ConcurrentQueue T) (item : T) : ConcurrentQueue T :=
  if negb (cq_active q) then q else mkCQ (queue_ q ++ [item]) (cq_active q).

Definition cq_close {T} (q : ConcurrentQueue T) : ConcurrentQueue T := mkCQ (queue_ q) false.

Definition cq_size {T} (q : ConcurrentQueue T) : nat := length (queue_ q).

(** *** Consumer *)

Definition LOWEST_RESET_PACKET_ORDERING_NUMBER : Z := 240.
Definition HIGHEST_RESET_ACCEPTING_ORDERING_NUMBER : Z := 10.

Record net_udpNC_consumer := mkConsumer {
  recvd_ordering : list (Z * Z);
  msg_queue : ConcurrentQueue UDPNCMessage;
  running : bool;
  total_packets_processed : nat; total_not_meantforme_unicast : nat;
  total_not_meantforme_multicast : nat; total_toolate_packets : nat;
  total_usedpackets : nat }.

Definition Consumer_new : net_udpNC_consumer := mkConsumer [] cq_new true 0 0 0 0 0.

(** What the consumer does to the other parts: clear the packet pool of the multicast
    handler, hand a message to the unicast handler. *)
Inductive consumer_event :=
  | ClearPacketPool
  | Handoff (m : UDPNCMessage) (socket_addr : IPaddr).

Definition set_queue (c : net_udpNC_consumer) (q : ConcurrentQueue UDPNCMessage)
    : net_udpNC_consumer :=
  mkConsumer (recvd_ordering c) q (running c) (total_packets_processed c)
    (total_not_meantforme_unicast c) (total_not_meantforme_multicast c)
    (total_toolate_packets c) (total_usedpackets c).

Definition set_recvd (c : net_udpNC_consumer) (r : list (Z * Z)) : net_udpNC_consumer :=
  mkConsumer r (msg_queue c) (running c) (total_packets_processed c)
    (total_not_meantforme_unicast c) (total_not_meantforme_multicast c)
    (total_toolate_packets c) (total_usedpackets c).

Definition bump (c : net_udpNC_consumer) (processed unicast multicast late used : nat)
    : net_udpNC_consumer :=
  mkConsumer (recvd_ordering c) (msg_queue c) (running c)
    (total_packets_processed c + processed) (total_not_meantforme_unicast c + unicast)
    (total_not_meantforme_multicast c + multicast) (total_toolate_packets c + late)
    (total_usedpackets c + used).

(** [UDPNC_msg_received]: store the message for the consuming thread. *)
Definition Consumer_UDPNC_msg_received (c : net_udpNC_consumer) (m : UDPNCMessage)
    (socket_addr : IPaddr) : net_udpNC_consumer :=
  set_queue c (push (msg_queue c) (set_socket_addr m socket_addr)).

(** The end of [order_input], reached by the messages that are accepted. *)
Definition use_input (c : net_udpNC_consumer) (id : Z) (m : UDPNCMessage) (sa : IPaddr)
    (evs : list consumer_event) : net_udpNC_consumer * list consumer_event :=
  (bump (set_recvd c (set id (getOrdering m) (recvd_ordering c))) 0 0 0 0 1,
   evs ++ [Handoff m sa]).

Definition order_input (c : net_udpNC_consumer) (m : UDPNCMessage) (sa : IPaddr)
    : outcome (net_udpNC_consumer * list consumer_event) :=
  firstFromID ← getFirstFromId m;
  let ordering := getOrdering m in
  if getMessageSize m =? 0 then
    Ok (use_input (set_recvd c (set firstFromID ordering (recvd_ordering c))) firstFromID m sa [])
  else if firstFromID =? NET_ID_UNASSIGNED then Ok (use_input c firstFromID m sa [])
  else match find firstFromID (recvd_ordering c) with
  | None =>
      Ok (use_input (set_recvd c (set firstFromID ordering (recvd_ordering c))) firstFromID m sa [])
  | Some last =>
      if (LOWEST_RESET_PACKET_ORDERING_NUMBER <=? last)
         && (ordering <? HIGHEST_RESET_ACCEPTING_ORDERING_NUMBER) then
        Ok (use_input (set_recvd c (set firstFromID 0 (recvd_ordering c))) firstFromID m sa
                      [ClearPacketPool])
      else if ordering <=? last then Ok (bump c 0 0 0 1 0, [])
      else Ok (use_input c firstFromID m sa [])
  end.

(** [filter_input], with [me] the address [getPublicIPaddr ()] returns *)
Definition filter_input (me : IPaddr) (c : net_udpNC_consumer) (m : UDPNCMessage) (sa : IPaddr)
    : outcome (net_udpNC_consumer * list consumer_event) :=
  match to_addrs m with
  | [] => Ok (c, [])
  | a :: _ =>
      if IPaddr_eqb me a then order_input c m sa
      else if negb ((host sa =? 0) && (port sa =? 0)) then Ok (bump c 0 1 0 0 0, [])
      else Ok (bump c 0 0 1 0 0, [])
  end.

Definition Consumer_process_input (me : IPaddr) (c : net_udpNC_consumer) (m : UDPNCMessage)
    (sa : IPaddr) : outcome (net_udpNC_consumer * list consumer_event) :=
  let c := bump c 1 0 0 0 0 in
  if (1 <? length (pkt_ids m))%nat then Fail LogicError else filter_input me c m sa.

(** One turn of the loop of [consume], [msg] the local message; [None] when it waits. *)
Definition consume_turn (me : IPaddr) (c : net_udpNC_consumer) (msg : UDPNCMessage)
    : option (outcome (net_udpNC_consumer * UDPNCMessage * list consumer_event)) :=
  match pop (msg_queue c) msg with
  | Waits => None
  | Returns msg q =>
      let c := set_queue c q in
      Some (if running c
            then '(c, evs) ← Consumer_process_input me c msg (socket_addr msg); Ok (c, msg, evs)
            else Ok (c, msg, []))
  end.

(** The loop, at most [fuel] turns, until it waits or stops. *)
Fixpoint consume (fuel : nat) (me : IPaddr) (c : net_udpNC_consumer) (msg : UDPNCMessage)
    : outcome (net_udpNC_consumer * list consumer_event) :=
  match fuel with
  | O => Ok (c, [])
  | S fuel =>
      if negb (running c) then Ok (c, []) else
      match consume_turn me c msg with
      | None => Ok (c, [])
      | Some r =>
          '(c, msg, evs) ← r;
          '(c, evs') ← consume fuel me c msg;
          Ok (c, evs ++ evs')
      end
  end.

(** [close]: the thread is joined after the queue is closed. *)
Definition Consumer_close (c : net_udpNC_consumer) : net_udpNC_consumer :=
  mkConsumer (recvd_ordering c) (cq_close (msg_queue c)) false (total_packets_processed c)
    (total_not_meantforme_unicast c) (total_not_meantforme_multicast c)
    (total_toolate_packets c) (total_usedpackets c).

(** *** Lemmas *)

(** A run of the consumer over the messages it pops. *)
Fixpoint process_all (me : IPaddr) (c : net_udpNC_consumer) (l : list (UDPNCMessage * IPaddr))
    : outcome (net_udpNC_consumer * list consumer_event) :=
  match l with
  | [] => Ok (c, [])
  | (m, sa) :: l =>
      '(c, evs) ← Consumer_process_input me c m sa;
      '(c, evs') ← process_all me c l;
      Ok (c, evs ++ evs')
  end.

Definition handoffs (evs : list consumer_event) : list (UDPNCMessage * IPaddr) :=
  omap (λ e, match e with Handoff m sa => Some (m, sa) | ClearPacketPool => None end) evs.

(** An uncoded packet from host [f] to [me]. *)
Record packet_of (me : IPaddr) (f : Z) (m : UDPNCMessage) : Prop := mk_packet_of {
  pk_single : (length (pkt_ids m) ≤ 1)%nat;
  pk_from : head (from_ids m) = Some f;
  pk_to : ∃ a l, to_addrs m = a :: l ∧ IPaddr_eqb me a = true;
  pk_ordering : fits 8 (getOrdering m) }.

(** Does a packet with content, of ordering [o], pass after one of ordering [last]? *)
Definition passes (last o : Z) : bool :=
  ((LOWEST_RESET_PACKET_ORDERING_NUMBER <=? last)
   && (o <? HIGHEST_RESET_ACCEPTING_ORDERING_NUMBER)) || (last <? o).

Lemma process_packet me f c m sa :
  packet_of me f m → f ≠ NET_ID_UNASSIGNED →
  ∃ c' evs, Consumer_process_input me c m sa = Ok (c', evs)
  ∧ if match find f (recvd_ordering c) with
       | None => true
       | Some last => (getMessageSize m =? 0) || passes last (getOrdering m)
       end
    then handoffs evs = [(m, sa)] ∧ find f (recvd_ordering c') = Some (getOrdering m)
         ∧ total_usedpackets c' = S (total_usedpackets c)
    else evs = [] ∧ recvd_ordering c' = recvd_ordering c
         ∧ total_toolate_packets c' = S (total_toolate_packets c).
Proof.
  intros [Hs Hf (a & l & Hto & Ha) Ho] Hne. unfold Consumer_process_input, filter_input.
  destruct (Nat.ltb_spec 1 (length (pkt_ids m))); [lia|].
  rewrite Hto, Ha. unfold order_input, getFirstFromId.
  destruct (from_ids m) as [|f' fs]; [done|]. injection Hf as ->. cbn [front].
  rewrite bind_ok. cbn [recvd_ordering bump]. unfold use_input.
  destruct (Z.eqb_spec (getMessageSize m) 0).
  { cbn [orb]. destruct (find f (recvd_ordering c));
      (do 2 eexists; splits; [done|done|apply find_set_eq|cbn; lia]). }
  destruct (Z.eqb_spec f NET_ID_UNASSIGNED); [done|]. cbn [orb].
  destruct (find f (recvd_ordering c)) as [last|] eqn:E.
  - unfold passes. destruct (_ && _); cbn [orb].
    + do 2 eexists. splits; [done|done|apply find_set_eq|cbn; lia].
    + destruct (Z.leb_spec (getOrdering m) last), (Z.ltb_spec last (getOrdering m)); try lia.
      * do 2 eexists. splits; [done|done|done|cbn; lia].
      * do 2 eexists. splits; [done|done|apply find_set_eq|cbn; lia].
  - do 2 eexists. splits; [done|done|apply find_set_eq|cbn; lia].
Qed.

(** [o] comes at most ten packets after [last], modulo 256. *)
Definition follows (last o : Z) : Prop := ∃ d, 1 ≤ d ≤ 10 ∧ o = u8 (last + d).

Fixpoint in_order (last : option Z) (l : list Z) : Prop :=
  match l with
  | [] => True
  | o :: l => match last with None => True | Some p => follows p o end ∧ in_order (Some o) l
  end.

Lemma follows_passes last o : fits 8 last → follows last o → passes last o = true.
Proof.
  unfold fits, passes, LOWEST_RESET_PACKET_ORDERING_NUMBER,
    HIGHEST_RESET_ACCEPTING_ORDERING_NUMBER.
  intros Hl (d & Hd & ->). unfold wrap. change (2 ^ 8) with 256 in *.
  assert ((last + d) mod 256 = last + d
          ∨ (last + d) mod 256 = last + d - 256 ∧ 256 ≤ last + d) as [E | [E ?]]
    by (Z.div_mod_to_equations; lia);
    rewrite E, orb_true_iff, andb_true_iff, !Z.ltb_lt, Z.leb_le.
  all: lia.
Qed.

Lemma process_stream me f l c :
  f ≠ NET_ID_UNASSIGNED → Forall (λ p, packet_of me f (fst p)) l →
  (∀ p, find f (recvd_ordering c) = Some p → fits 8 p) →
  in_order (find f (recvd_ordering c)) ((λ p, getOrdering (fst p)) <$> l) →
  ∃ c' evs, process_all me c l = Ok (c', evs) ∧ handoffs evs = l
  ∧ total_usedpackets c' = (total_usedpackets c + length l)%nat.
Proof.
  intros Hne. revert c. induction l as [|[m sa] l IH]; intros c Hl Hfit Hord.
  { exists c, []. splits; [done|done|cbn; lia]. }
  apply Forall_cons in Hl as [Hm Hl]. cbn in Hord, Hm. destruct Hord as [H0 Hord].
  destruct (process_packet me f c m sa Hm Hne) as (c1 & evs & E & Hif).
  assert (Hpass : match find f (recvd_ordering c) with
                  | None => true
                  | Some last => (getMessageSize m =? 0) || passes last (getOrdering m)
                  end = true).
  { destruct (find f (recvd_ordering c)) as [last|]; [|done]. apply orb_true_iff. right.
    apply follows_passes; [by apply Hfit|done]. }
  rewrite Hpass in Hif. destruct Hif as (He & Hr & Hu).
  destruct (IH c1 Hl) as (c' & evs' & E' & He' & Hu').
  { rewrite Hr. intros p [= <-]. apply (pk_ordering _ _ _ Hm). }
  { by rewrite Hr. }
  cbn [process_all]. rewrite E, bind_ok. cbn beta iota. rewrite E', bind_ok.
  do 2 eexists. splits; [done| |cbn [length]; lia].
  unfold handoffs in *. by rewrite omap_app, He, He'.
Qed.

(** *** Properties *)

(** C39: The packets of one sender whose ordering numbers increase by 1 to 10 at a time,
    modulo 256, so that at most nine packets in a row are missing, are all handed to the
    unicast handler, each once and in the order of arrival, through any number of
    wrap-arounds. *)
Theorem ordered_stream_delivered me f l c :
  f ≠ NET_ID_UNASSIGNED → Forall (λ p, packet_of me f (fst p)) l →
  find f (recvd_ordering c) = None →
  in_order None ((λ p, getOrdering (fst p)) <$> l) →
  ∃ c' evs, process_all me c l = Ok (c', evs) ∧ handoffs evs = l
  ∧ total_usedpackets c' = (total_usedpackets c + length l)%nat.
Proof.
  intros Hne Hl Hf Ho. apply (process_stream me f); try done; by rewrite Hf.
Qed.

(** A packet with content that arrives again, or [k] places late, is dropped without any effect
    but on the statistics exactly when no wrap-around lies between ([k <= last]), except
    in the window that restarts the chain; a packet from before the wrap-around passes
    again. *)
Theorem late_packet_dropped me f c m sa last k :
  packet_of me f m → getMessageSize m ≠ 0 → f ≠ NET_ID_UNASSIGNED →
  find f (recvd_ordering c) = Some last → fits 8 last → 0 ≤ k < 256 → getOrdering m = u8 (last - k) →
  ∃ c' evs, Consumer_process_input me c m sa = Ok (c', evs)
  ∧ (handoffs evs = [] ↔ k ≤ last ∧ ¬ (240 ≤ last ∧ last - k < 10))
  ∧ (handoffs evs = [] → evs = [] ∧ recvd_ordering c' = recvd_ordering c).
Proof.
  intros Hm Hsz Hne Hf Hl Hk Ho.
  destruct (process_packet me f c m sa Hm Hne) as (c' & evs & E & Hif).
  exists c', evs. split; [exact E|]. rewrite Hf in Hif.
  destruct (Z.eqb_spec (getMessageSize m) 0); [done|]. cbn [orb] in Hif.
  assert (Hp : passes last (getOrdering m) = false ↔ k ≤ last ∧ ¬ (240 ≤ last ∧ last - k < 10)).
  { rewrite Ho. unfold passes, wrap, LOWEST_RESET_PACKET_ORDERING_NUMBER,
      HIGHEST_RESET_ACCEPTING_ORDERING_NUMBER, fits in *. change (2 ^ 8) with 256 in *.
    assert ((last - k) mod 256 = last - k ∧ k ≤ last
            ∨ (last - k) mod 256 = last - k + 256 ∧ last < k) as [[-> ?] | [-> ?]]
      by (Z.div_mod_to_equations; lia);
      rewrite orb_false_iff, andb_false_iff, !Z.ltb_ge, Z.leb_gt; lia. }
  destruct (passes last (getOrdering m)).
  - destruct Hif as (-> & _). split; [|done].
    split; [done|]. intros H. apply Hp in H. done.
  - destruct Hif as (-> & Hr & _). split; [|done]. split; [|done]. intros _. by apply Hp.
Qed.

(** Processing does not look at the queue. *)
Lemma process_input_queue me c q m sa :
  Consumer_process_input me (set_queue c q) m sa
  = ('(c, evs) ← Consumer_process_input me c m sa; Ok (set_queue c q, evs)).
Proof.
  unfold Consumer_process_input, filter_input, order_input, use_input.
  destruct (1 <? length (pkt_ids m))%nat; [done|].
  destruct (to_addrs m) as [|a l]; [done|].
  destruct (IPaddr_eqb me a); [|by destruct (negb _)].
  destruct (getFirstFromId m) as [f|]; [|done]. rewrite !bind_ok.
  cbn [recvd_ordering bump set_queue].
  destruct (_ =? 0); [done|]. destruct (f =? _); [done|].
  destruct (find f (recvd_ordering c)) as [last|]; [|done].
  destruct (_ && _); [done|]. by destruct (_ <=? last).
Qed.

Lemma process_input_keeps me c m sa c' evs :
  Consumer_process_input me c m sa = Ok (c', evs) →
  msg_queue c' = msg_queue c ∧ running c' = running c.
Proof.
  unfold Consumer_process_input, filter_input, order_input, use_input.
  destruct (1 <? length (pkt_ids m))%nat; [done|].
  destruct (to_addrs m) as [|a l]; [by intros [= <- <-]|].
  destruct (IPaddr_eqb me a); [|destruct (negb _); by intros [= <- <-]].
  destruct (getFirstFromId m) as [f|]; [|done]. rewrite !bind_ok.
  destruct (_ =? 0); [by intros [= <- <-]|]. destruct (f =? _); [by intros [= <- <-]|].
  destruct (find f _) as [last|]; [|by intros [= <- <-]].
  destruct (_ && _); [by intros [= <- <-]|]. destruct (_ <=? last); by intros [= <- <-].
Qed.

Lemma consume_process_all me c l msg fuel :
  running c = true → cq_active (msg_queue c) = true → queue_ (msg_queue c) = l →
  (length l < fuel)%nat →
  consume fuel me c msg
  = process_all me (set_queue c cq_new) ((λ m, (m, socket_addr m)) <$> l).
Proof.
  revert c msg fuel. induction l as [|m l IH]; intros c msg fuel Hr Ha Hq Hf;
    (destruct fuel as [|fuel]; [cbn in Hf; lia|]); cbn [consume]; rewrite Hr; cbn [negb];
    unfold consume_turn, pop; rewrite Ha, Hq; cbn [negb].
  - destruct c as [r [q a] run]. cbn in *. subst. done.
  - cbn [running set_queue]. rewrite Hr. cbn [fmap list_fmap process_all].
    rewrite !process_input_queue.
    destruct (Consumer_process_input me c m (socket_addr m)) as [[c1 evs]|] eqn:E; [|done].
    rewrite !bind_ok. cbn beta iota.
    rewrite (IH (set_queue c1 (mkCQ l true)) m fuel).
    + reflexivity.
    + apply process_input_keeps in E as [_ E]. cbn. congruence.
    + done.
    + done.
    + cbn in Hf. lia.
Qed.

(** The consuming thread empties an open queue in FIFO order: with more turns than
    queued messages it does what processing them one after the other does, and then
    waits with an empty queue. *)
Theorem consume_drains_fifo me c l msg fuel :
  running c = true → cq_active (msg_queue c) = true → queue_ (msg_queue c) = l →
  (length l < fuel)%nat →
  consume fuel me c msg
  = process_all me (set_queue c cq_new) ((λ m, (m, socket_addr m)) <$> l).
Proof. apply consume_process_all. Qed.

(** *** Witnesses *)

Definition me_example : IPaddr := mkIPaddr 167772161 1037 0.

(** A packet of host [f] with ordering [o] *)
Definition packet_example (f o : Z) : UDPNCMessage :=
  mkNCM (mkNCH 13 o 0 0 1 1 0 14) [100 + o] [f] [me_example] [Byte.x61] 0 IPaddr_null.

Lemma packet_example_of f o : fits 8 o → packet_of me_example f (packet_example f o).
Proof.
  intros Ho. constructor; [done|done|by exists me_example, []|done].
Qed.

Definition stream_example : list (UDPNCMessage * IPaddr) :=
  (λ o, (packet_example 9 o, IPaddr_null)) <$> [250; 252; 255; 5; 6].

Lemma ordered_stream_delivered_witness :
  ∃ c' evs, process_all me_example Consumer_new stream_example = Ok (c', evs)
  ∧ handoffs evs = stream_example ∧ total_usedpackets c' = 5%nat.
Proof.
  refine (ordered_stream_delivered me_example 9 stream_example Consumer_new _ _ eq_refl _).
  - discriminate.
  - unfold stream_example. cbn [fmap list_fmap].
    repeat (apply Forall_cons_2; [apply packet_example_of; split; reflexivity || discriminate|]).
    apply Forall_nil_2.
  - cbn. splits; try exact I; [exists 2|exists 3|exists 6|exists 1]; split; try reflexivity;
      split; discriminate.
Defined.

Lemma late_packet_dropped_witness :
  ∃ c c' evs, Consumer_process_input me_example Consumer_new (packet_example 9 20) IPaddr_null
              = Ok (c, [Handoff (packet_example 9 20) IPaddr_null])
  ∧ Consumer_process_input me_example c (packet_example 9 18) IPaddr_null = Ok (c', evs)
  ∧ handoffs evs = [].
Proof.
  eexists. destruct (late_packet_dropped me_example 9
    (set_recvd (bump Consumer_new 1 0 0 0 1) [(9, 20)]) (packet_example 9 18) IPaddr_null 20 2)
    as (c' & evs & E & Hd & _).
  - apply packet_example_of. split; [discriminate|reflexivity].
  - discriminate.
  - discriminate.
  - reflexivity.
  - split; [discriminate|reflexivity].
  - split; [discriminate|reflexivity].
  - reflexivity.
  - exists c', evs. split; [reflexivity|]. split; [exact E|]. apply Hd. split; [discriminate|].
    intros [H _]. by apply H.
Defined.

Lemma consume_drains_fifo_witness :
  ∃ c, consume 3 me_example (Consumer_UDPNC_msg_received (Consumer_UDPNC_msg_received
         Consumer_new (packet_example 9 1) IPaddr_null) (packet_example 9 2) IPaddr_null)
         (packet_example 0 0)
  = Ok (c, [Handoff (packet_example 9 1) IPaddr_null; Handoff (packet_example 9 2) IPaddr_null]).
Proof.
  eexists. rewrite (consume_drains_fifo me_example _ [packet_example 9 1; packet_example 9 2]);
    [reflexivity|reflexivity|reflexivity|reflexivity|]. cbn. auto.
Defined.
