(* ===== verification/NetManager.v ===== *)
(** What all network bindings share: the base class of VASTnet/net_manager.cpp and
    common/net_manager.h (host ids, connections, the incoming queue), the callback
    interface VASTnet/abstract_net_udp.h, and the header of a VAST message
    (common/VASTnet.h). *)

From S2P Require Import Prelude Bytes StdMap Float Serial.
Local Open Scope Z_scope.

Definition NET_ID_UNASSIGNED : Z := 0.
Definition NET_ID_RELAY : Z := 1.
Definition NET_ID_NEWASSIGNED : Z := u64 (-1).

(** *** Host ids *)

(** [resolveHostID (addr)], [addr] not [NULL] *)
Definition resolveHostID (addr : IPaddr) : Z :=
  Z.lor (Z.lor (Z.shiftl (host addr) 32) (Z.shiftl (port addr) 16)) NET_ID_RELAY.

Definition resolveAssignedID (host_id : Z) : Z := Z.land host_id (Z.shiftr 0xFFFF 2).

Definition extractIDGroup (id : Z) : Z := Z.land 3 (Z.shiftr id 14).

(** The result is an [int]: addresses from 128.0.0.0 on are negative. *)
Definition to_int32 (z : Z) : Z := if z <? 2 ^ 31 then z else z - 2 ^ 32.
Definition extractHost (id : Z) : Z := to_int32 (Z.land (Z.shiftr id 32) 0xFFFFFFFF).

(** *** VASTHeader: one 32-bit word of bit fields *)

Record VASTHeader := mkVH { vh_start : Z; vh_type : Z; msg_size : Z; vh_end : Z }.

Definition VASTHeader_valid (h : VASTHeader) : Prop :=
  fits 4 (vh_start h) ∧ fits 2 (vh_type h) ∧ fits 22 (msg_size h) ∧ fits 4 (vh_end h).

Definition vh_word (h : VASTHeader) : Z :=
  vh_start h + vh_type h * 2 ^ 4 + msg_size h * 2 ^ 6 + vh_end h * 2 ^ 28.

Definition vh_bytes (h : VASTHeader) : list byte := le_bytes 4 (vh_word h).

Definition vh_of_word (w : Z) : VASTHeader :=
  mkVH (w mod 2 ^ 4) (w / 2 ^ 4 mod 2 ^ 2) (w / 2 ^ 6 mod 2 ^ 22) (w / 2 ^ 28 mod 2 ^ 4).

(** [memcpy (&header, p, sizeof (VASTHeader))] *)
Definition fetch_vh (p : list byte) : outcome (VASTHeader * list byte) :=
  '(w, p) ← fetch 4 p; Ok (vh_of_word w, p).

(** The test of the start and end markers. *)
Definition vh_ok (h : VASTHeader) : bool := (vh_start h =? 10) && (vh_end h =? 5).

(** *** Connections and messages *)

(** A queued message; [None] for the [NULL] message that tells a disconnection. *)
Record NetSocketMsg := mkNSM {
  fromhost : Z; recvtime : Z; nsm_msg : option (list byte) }.

(** [stream] stands for the stream object. The member [is_secure], which the constructor
    leaves unset, is not modelled. *)
Record ConnectInfo := mkConn { stream : Z; lasttime : Z }.

Record net_manager := mkNM {
  nm_id : Z;
  self_addr : Addr;
  nm_active : bool;
  id2conn : list (Z * ConnectInfo);
  recv_queue : list NetSocketMsg;
  recvmsg : option NetSocketMsg }.

Definition isConnected (n : net_manager) (target : Z) : bool := has target (id2conn n).

Definition setID (n : net_manager) (my_id : Z) : net_manager * Z :=
  (mkNM my_id (mkAddr my_id (lastAccessed (self_addr n)) (publicIP (self_addr n)))
        (nm_active n) (id2conn n) (recv_queue n) (recvmsg n), nm_id n).

Definition getLastTime (n : net_manager) (id : Z) : Z :=
  match find id (id2conn n) with Some c => lasttime c | None => 0 end.

(** [net_manager::start] *)
Definition nm_start (n : net_manager) : net_manager :=
  mkNM NET_ID_UNASSIGNED (self_addr n) (nm_active n) (id2conn n) (recv_queue n) None.

Definition with_conns (n : net_manager) (c : list (Z * ConnectInfo)) : net_manager :=
  mkNM (nm_id n) (self_addr n) (nm_active n) c (recv_queue n) (recvmsg n).

Definition with_queue (n : net_manager) (q : list NetSocketMsg) (r : option NetSocketMsg)
    : net_manager :=
  mkNM (nm_id n) (self_addr n) (nm_active n) (id2conn n) q r.

(** *** The callbacks a handler makes (abstract_net_udp.h)

    [N] is the state behind the interface and [now] the clock. *)
Class AbstractNetUdp (N : Type) := {
  msg_received : N → Z → Z → option (list byte) → outcome N;    (* now, fromhost, message *)
  socket_connected : N → Z → Z → Z → outcome (N * bool);        (* now, id, stream *)
  socket_disconnected : N → Z → Z → outcome (N * bool);         (* now, id *)
  getPublicIPaddr : N → IPaddr;
  getID : N → Z;
}.

(** *** Lemmas *)

#[global] Arguments fetch_vh : simpl never.
#[global] Arguments vh_bytes : simpl never.

Ltac vpows := change (2 ^ 2) with 4 in *; change (2 ^ 4) with 16 in *;
  change (2 ^ 6) with 64 in *; change (2 ^ 16) with 65536 in *; change (2 ^ 22) with 4194304 in *;
  change (2 ^ 28) with 268435456 in *; change (2 ^ 32) with 4294967296 in *.

Lemma length_vh_bytes h : length (vh_bytes h) = 4%nat.
Proof. apply length_le_bytes. Qed.
#[export] Hint Rewrite length_vh_bytes : vast.

Lemma vh_of_word_inv h : VASTHeader_valid h → vh_of_word (vh_word h) = h.
Proof.
  destruct h as [a b c d]. unfold VASTHeader_valid, fits. cbn. vpows. intros (? & ? & ? & ?).
  unfold vh_of_word, vh_word. cbn [vh_start vh_type msg_size vh_end]. vpows.
  f_equal; Z.div_mod_to_equations; lia.
Qed.

Lemma fetch_vh_bytes h q : VASTHeader_valid h → fetch_vh (vh_bytes h ++ q) = Ok (h, q).
Proof.
  intros Hv. unfold fetch_vh, vh_bytes.
  assert (fits 32 (vh_word h)).
  { revert Hv. unfold VASTHeader_valid, fits, vh_word. vpows. lia. }
  fetch_step. by rewrite vh_of_word_inv.
Qed.

Lemma vh_of_word_valid w : VASTHeader_valid (vh_of_word w).
Proof. unfold VASTHeader_valid, vh_of_word, fits. cbn. vpows. Z.div_mod_to_equations. lia. Qed.

(** *** The parts of a host id *)

Lemma shiftr_small x n : fits n x → 0 ≤ n → Z.shiftr x n = 0.
Proof. intros [H0 H1] Hn. rewrite Z.shiftr_div_pow2 by done. by apply Z.div_small. Qed.

Lemma resolveHostID_host a : fits 16 (port a) → Z.shiftr (resolveHostID a) 32 = host a.
Proof.
  intros Hp. unfold resolveHostID. rewrite !Z.shiftr_lor.
  rewrite (Z.shiftr_shiftl_l (host a)), Z.sub_diag, Z.shiftl_0_r by lia.
  rewrite (Z.shiftr_shiftl_r (port a)) by lia. cbn [Z.sub].
  change (32 - 16) with 16. rewrite (shiftr_small (port a)) by (done || lia).
  by rewrite !Z.lor_0_r.
Qed.

Lemma resolveHostID_port a : fits 16 (port a) → u16 (Z.shiftr (resolveHostID a) 16) = port a.
Proof.
  intros Hp. unfold resolveHostID, wrap. rewrite !Z.shiftr_lor.
  rewrite (Z.shiftr_shiftl_l (host a)), (Z.shiftr_shiftl_l (port a)) by lia.
  rewrite Z.sub_diag, Z.shiftl_0_r. change (Z.shiftr NET_ID_RELAY 16) with 0.
  rewrite Z.lor_0_r. rewrite <- Z.land_ones, Z.land_lor_distr_l by lia.
  change (32 - 16) with 16. rewrite (Z.land_ones (Z.shiftl _ _)) by lia.
  rewrite Z.shiftl_mul_pow2, Z.mod_mul, Z.lor_0_l, Z.land_ones by lia.
  by apply wrap_id.
Qed.

Lemma resolveHostID_low a : Z.land (resolveHostID a) 0xFFFF = 1.
Proof.
  unfold resolveHostID. change 0xFFFF with (Z.ones 16).
  rewrite !Z.land_lor_distr_l, !(Z.land_ones (Z.shiftl _ _)) by lia.
  rewrite !Z.shiftl_mul_pow2 by lia.
  replace (2 ^ 32) with (2 ^ 16 * 2 ^ 16) by lia.
  by rewrite Z.mul_assoc, !Z.mod_mul by lia.
Qed.

(** A host id determines the address it was made from: [IPaddr (id)] gives back host
    and port, [extractHost] the host (as a signed [int]); the assigned number is the
    relay's 1 and the group 0. Hence two hosts with different addresses have different
    ids. *)
Theorem host_id_roundtrip a : IPaddr_valid a →
  IPaddr_of_id (resolveHostID a) = mkIPaddr (host a) (port a) 0
  ∧ u32 (extractHost (resolveHostID a)) = host a
  ∧ resolveAssignedID (resolveHostID a) = NET_ID_RELAY ∧ extractIDGroup (resolveHostID a) = 0
  ∧ resolveHostID a ≠ NET_ID_UNASSIGNED
  ∧ ∀ b, IPaddr_valid b → resolveHostID a = resolveHostID b → IPaddr_eqb a b = true.
Proof.
  intros (Hh & Hp & _). pose proof (resolveHostID_host a Hp) as E1.
  pose proof (resolveHostID_port a Hp) as E2. pose proof (resolveHostID_low a) as E3.
  assert (H1 : Z.land (resolveHostID a) (Z.shiftr 0xFFFF 2) = 1).
  { change (Z.shiftr 0xFFFF 2) with (Z.land 0xFFFF (Z.shiftr 0xFFFF 2)).
    by rewrite Z.land_assoc, E3. }
  splits.
  - unfold IPaddr_of_id. by rewrite E1, E2, wrap_id.
  - unfold extractHost, to_int32. rewrite E1. change 0xFFFFFFFF with (Z.ones 32).
    rewrite Z.land_ones by lia. change (host a mod 2 ^ 32) with (u32 (host a)).
    rewrite (wrap_id 32 (host a)) by done. destruct (_ <? _); [by apply wrap_id|].
    unfold wrap. replace (host a - 2 ^ 32) with (host a + -1 * 2 ^ 32) by lia.
    rewrite Z_mod_plus_full. by apply wrap_id.
  - exact H1.
  - unfold extractIDGroup. rewrite Z.land_comm.
    replace (Z.land (Z.shiftr (resolveHostID a) 14) 3)
      with (Z.shiftr (Z.land (Z.land (resolveHostID a) 0xFFFF) 0xC000) 14).
    + by rewrite E3.
    + rewrite <- Z.land_assoc. change (Z.land 0xFFFF 0xC000) with 0xC000.
      rewrite Z.shiftr_land. done.
  - intros E. by rewrite E in H1.
  - intros b (Hhb & Hpb & _) E. apply IPaddr_eqb_true. rewrite <- E1, <- E2, E.
    by rewrite resolveHostID_host, resolveHostID_port.
Qed.

Lemma host_id_roundtrip_witness :
  IPaddr_valid (mkIPaddr 3232235777 1037 0) ∧
  IPaddr_of_id (resolveHostID (mkIPaddr 3232235777 1037 0)) = mkIPaddr 3232235777 1037 0.
Proof.
  assert (H : IPaddr_valid (mkIPaddr 3232235777 1037 0)) by (repeat split; discriminate).
  split; [exact H|exact (proj1 (host_id_roundtrip _ H))].
Defined.
