(* ===== verification/AddrText.v ===== *)
(** Addresses as text (common/VASTTypes.h, VAST/VASTVerse.cpp): what [IPaddr::getString] prints
    and [IPaddr::parseIP] reads. Of the C library they use [sprintf] with [%d] and [%u], and
    [atoi], which is undefined on numbers that do not fit an [int]; here such numbers have
    their value, which is out of the range that is accepted. *)

From Stdlib Require Import Ascii String.
From Stdlib Require Import List.
From S2P Require Import Prelude Bytes Serial NetManager.
Local Open Scope Z_scope.

Definition text : Type := list ascii.
Abbreviation length := List.length (only parsing).
Definition char_code (c : ascii) : Z := Z.of_N (N_of_ascii c).
Definition char_of (z : Z) : ascii := ascii_of_N (Z.to_N z).
Definition is_digit (c : ascii) : bool := (48 <=? char_code c) && (char_code c <=? 57).

(** *** Printing *)

(** Decimal digits; twenty are enough for 64 bits. *)
Fixpoint decimal (fuel : nat) (n : Z) : text :=
  match fuel with
  | O => []
  | S fuel => if n <? 10 then [char_of (48 + n)] else decimal fuel (n / 10) ++ [char_of (48 + n mod 10)]
  end.
Definition print_int (n : Z) : text := decimal 20 n.

(** [getString (p)] *)
Definition getString (a : IPaddr) : text :=
  let part k := print_int (Z.land (Z.shiftr (host a) k) 0xFF) in
  part 24 ++ ["."%char] ++ part 16 ++ ["."%char] ++ part 8 ++ ["."%char] ++ part 0
  ++ [":"%char] ++ print_int (port a).

(** *** Reading *)

(** A C string ends at its first NUL. *)
Fixpoint c_str (s : text) : text :=
  match s with
  | [] => []
  | c :: s => if char_code c =? 0 then [] else c :: c_str s
  end.

(** The loop of [IPaddr (ip_string, p)] *)
Definition ip_char (s : Z * Z) (c : ascii) : Z * Z :=
  let '(i, t) := s in
  if is_digit c then (i, u32 (t * 10 + (char_code c - 48)))
  else if Ascii.eqb c "." then (u32 (Z.shiftl i 8 + t), 0)
  else (i, t).
Definition IPaddr_of_text (s : text) (p : Z) : IPaddr :=
  let '(i, t) := foldl ip_char (0, 0) (c_str s) in mkIPaddr (u32 (Z.shiftl i 8 + t)) p 0.

(** [atoi] *)
Definition is_space (c : ascii) : bool :=
  (char_code c =? 32) || (9 <=? char_code c) && (char_code c <=? 13).
Fixpoint skip_space (s : text) : text :=
  match s with
  | c :: s' => if is_space c then skip_space s' else s
  | [] => []
  end.
Fixpoint number (n : Z) (s : text) : Z :=
  match s with
  | c :: s => if is_digit c then number (n * 10 + (char_code c - 48)) s else n
  | [] => n
  end.
Definition atoi (s : text) : Z :=
  match skip_space (c_str s) with
  | c :: s' => if Ascii.eqb c "-" then - number 0 s' else if Ascii.eqb c "+" then number 0 s' else number 0 (c :: s')
  | [] => 0
  end.

(** [instr.find (c)]: what is before and behind the first [c] *)
Fixpoint split_at (c : ascii) (s : text) : option (text * text) :=
  match s with
  | [] => None
  | d :: s =>
      if Ascii.eqb d c then Some ([], s)
      else match split_at c s with Some (a, b) => Some (d :: a, b) | None => None end
  end.

(** [parseIP (addr, instr)]: [None] is -1. *)
Definition parseIP (s : text) : option IPaddr :=
  match split_at ":" s with
  | None => None
  | Some (ip, p) =>
      let p := atoi p in
      if (p <=? 0) || (65535 <=? p) then None else Some (IPaddr_of_text ip (u16 p))
  end.

(** [Addr::toString], [Addr::fromString]: the part behind a bar is ignored. *)
Definition Addr_toString (a : Addr) : text := getString (publicIP a).
Definition Addr_fromString (s : text) : option Addr :=
  let s := match split_at "|" s with Some (pub, _) => pub | None => s end in
  match parseIP s with
  | Some ip => Some (mkAddr 0 0 ip)
  | None => None
  end.

(** [VASTVerse::translateAddress (str)] *)
Definition translateAddress (s : text) : option Addr :=
  match parseIP s with
  | Some ip => Some (Addr_make (resolveHostID ip) ip)
  | None => None
  end.

(** *** Digits *)

Lemma char_code_of n : 0 ≤ n < 256 → char_code (char_of n) = n.
Proof.
  intros H. unfold char_code, char_of. rewrite N_ascii_embedding; [|lia]. lia.
Qed.

Lemma digit_code n : 0 ≤ n < 10 → char_code (char_of (48 + n)) = 48 + n.
Proof. intros. apply char_code_of. lia. Qed.

Lemma digit_is n : 0 ≤ n < 10 → is_digit (char_of (48 + n)) = true.
Proof. intros. unfold is_digit. rewrite digit_code by done. apply andb_true_intro. split; apply Z.leb_le; lia. Qed.

Lemma decimal_digits fuel n : 0 ≤ n → Forall (λ c, is_digit c = true) (decimal fuel n).
Proof.
  revert n. induction fuel as [|fuel IH]; intros n Hn; cbn [decimal]; [constructor|].
  destruct (Z.ltb_spec n 10).
  - constructor; [by apply digit_is|constructor].
  - apply Forall_app. split; [apply IH, Z.div_pos; lia|]. constructor; [|constructor]. apply digit_is, Z.mod_pos_bound. lia.
Qed.

Lemma decimal_length fuel n (k : nat) : 0 ≤ n < 10 ^ Z.of_nat k → (0 < k)%nat → (length (decimal fuel n) ≤ k)%nat.
Proof.
  revert n k. induction fuel as [|fuel IH]; intros n k Hn Hk; cbn [decimal length]; [lia|].
  destruct (Z.ltb_spec n 10); [cbn; lia|]. rewrite length_app. cbn [length].
  destruct k as [|[|k]]; [lia|change (10 ^ Z.of_nat 1) with 10 in Hn; lia|].
  assert (length (decimal fuel (n / 10)) ≤ S k)%nat; [|lia]. apply IH; [|lia]. split; [apply Z.div_pos; lia|].
  apply Z.div_lt_upper_bound; [lia|]. rewrite <- Z.pow_succ_r by lia. rewrite <- Nat2Z.inj_succ. apply Hn.
Qed.

(** Reading digits one after the other *)
Definition digits_value (n : Z) (s : text) : Z := foldl (λ n c, n * 10 + (char_code c - 48)) n s.

Lemma decimal_value fuel n : 0 ≤ n < 10 ^ Z.of_nat fuel → digits_value 0 (decimal fuel n) = n.
Proof.
  revert n. induction fuel as [|fuel IH]; intros n Hn; cbn [decimal]; [cbn in Hn; cbn; lia|].
  destruct (Z.ltb_spec n 10).
  - unfold digits_value. cbn [foldl]. rewrite digit_code by lia. lia.
  - unfold digits_value in *. rewrite foldl_app, IH.
    + cbn [foldl]. rewrite digit_code by (apply Z.mod_pos_bound; lia). pose proof (Z.div_mod n 10). lia.
    + split; [apply Z.div_pos; lia|]. apply Z.div_lt_upper_bound; [lia|]. rewrite <- Z.pow_succ_r by lia. rewrite <- Nat2Z.inj_succ. apply Hn.
Qed.

Lemma print_int_spec n : 0 ≤ n < 2 ^ 64 → digits_value 0 (print_int n) = n ∧ Forall (λ c, is_digit c = true) (print_int n).
Proof. intros H. split; [apply decimal_value; cbn; lia|apply decimal_digits; lia]. Qed.

Lemma digit_range c : is_digit c = true → 48 ≤ char_code c ≤ 57.
Proof. unfold is_digit. intros [H1 H2]%andb_prop. split; by apply Z.leb_le. Qed.

Lemma digit_other c d : is_digit c = true → is_digit d = false → Ascii.eqb c d = false.
Proof. intros Hc Hd. apply Ascii.eqb_neq. intros ->. congruence. Qed.

(** *** What is printed is read again *)

Lemma split_at_app c a b : Forall (λ d, Ascii.eqb d c = false) a → split_at c (a ++ c :: b) = Some (a, b).
Proof.
  induction a as [|d a IH]; cbn; intros F; [by rewrite Ascii.eqb_refl|]. apply Forall_cons in F as [-> F]. by rewrite IH.
Qed.

Lemma c_str_id s : Forall (λ c, char_code c ≠ 0) s → c_str s = s.
Proof.
  induction s as [|c s IH]; cbn; intros F; [done|]. apply Forall_cons in F as [Hc F].
  rewrite (proj2 (Z.eqb_neq _ _) Hc). by rewrite IH.
Qed.

Lemma digits_nonzero s : Forall (λ c, is_digit c = true) s → Forall (λ c, char_code c ≠ 0) s.
Proof. intros F. eapply Forall_impl; [exact F|]. intros c Hc%digit_range. lia. Qed.

Lemma number_digits n s : Forall (λ c, is_digit c = true) s → number n s = digits_value n s.
Proof. revert n. induction s as [|c s IH]; intros n F; cbn; [done|]. apply Forall_cons in F as [-> F]. by apply IH. Qed.

Lemma print_int_nonempty n : print_int n ≠ [].
Proof. unfold print_int. cbn [decimal]. destruct (n <? 10); [done|]. by intros [_ [=]]%app_eq_nil. Qed.

Lemma atoi_print n : 0 ≤ n < 2 ^ 64 → atoi (print_int n) = n.
Proof.
  intros H. destruct (print_int_spec n H) as [V D]. unfold atoi. rewrite c_str_id by by apply digits_nonzero.
  destruct (print_int n) as [|c s] eqn:E; [by destruct (print_int_nonempty n)|]. pose proof D as [Hc _]%Forall_cons.
  pose proof (digit_range c Hc) as Hr. cbn [skip_space].
  assert (is_space c = false) as ->.
  { unfold is_space. rewrite (proj2 (Z.eqb_neq _ _)) by lia. rewrite (proj2 (Z.leb_gt (char_code c) 13)) by lia. apply andb_false_r. }
  rewrite !digit_other by done. rewrite number_digits by done. exact V.
Qed.

(** The loop over one part of an address *)
Lemma ip_digits i s t : Forall (λ c, is_digit c = true) s → u32 t = t → u32 (digits_value t s) = digits_value t s →
  0 ≤ t → foldl ip_char (i, t) s = (i, digits_value t s).
Proof.
  revert t. induction s as [|c s IH]; intros t F Ht Hv H0; cbn; [done|]. apply Forall_cons in F as [Hc F].
  rewrite Hc. pose proof (digit_range c Hc) as Hr. cbn in Hv.
  assert (Hle : t * 10 + (char_code c - 48) ≤ digits_value (t * 10 + (char_code c - 48)) s).
  { assert (Hm : ∀ s t, Forall (λ c, is_digit c = true) s → 0 ≤ t → t ≤ digits_value t s).
    { clear. induction s as [|c s IH]; intros t F Ht; cbn; [lia|]. apply Forall_cons in F as [Hc F].
      pose proof (digit_range c Hc). etransitivity; [|apply IH; [done|lia]]. lia. }
    apply Hm; [done|lia]. }
  assert (Hu : u32 (t * 10 + (char_code c - 48)) = t * 10 + (char_code c - 48)).
  { apply wrap_id. assert (0 ≤ digits_value (t * 10 + (char_code c - 48)) s < 2 ^ 32); [|split; lia].
    pose proof (wrap_fits 32 (digits_value (t * 10 + (char_code c - 48)) s)) as W. unfold fits in W.
    change (foldl (λ n c, n * 10 + (char_code c - 48)) (t * 10 + (char_code c - 48)) s)
      with (digits_value (t * 10 + (char_code c - 48)) s) in Hv. rewrite Hv in W. apply W. lia. }
  rewrite Hu. apply IH; [done|done|exact Hv|lia].
Qed.

Definition byte_at (a k : Z) : Z := Z.land (Z.shiftr a k) 0xFF.

Lemma byte_at_eq a k : 0 ≤ k → byte_at a k = a / 2 ^ k mod 256.
Proof. intros Hk. unfold byte_at. change 0xFF with (Z.ones 8). by rewrite Z.land_ones, Z.shiftr_div_pow2 by lia. Qed.

Lemma byte_at_range a k : 0 ≤ k → 0 ≤ byte_at a k < 256.
Proof. intros. rewrite byte_at_eq by done. apply Z.mod_pos_bound. lia. Qed.

(** One part of an address, and the dot behind it *)
Lemma ip_part i n : 0 ≤ n < 256 → foldl ip_char (i, 0) (print_int n) = (i, n).
Proof.
  intros H. destruct (print_int_spec n) as [V D]; [lia|]. rewrite ip_digits, V; [done|done|done| |lia].
  apply wrap_id. split; lia.
Qed.

Lemma ip_dot i n s : 0 ≤ n < 256 →
  foldl ip_char (i, 0) (print_int n ++ "."%char :: s) = foldl ip_char (u32 (Z.shiftl i 8 + n), 0) s.
Proof. intros H. by rewrite foldl_app, ip_part. Qed.

Lemma bytes_of_word a : fits 32 a →
  u32 (Z.shiftl (u32 (Z.shiftl (u32 (Z.shiftl (u32 (Z.shiftl 0 8 + byte_at a 24)) 8 + byte_at a 16)) 8 + byte_at a 8)) 8 + byte_at a 0) = a.
Proof.
  intros [H0 H1]. rewrite !byte_at_eq by lia. rewrite !Z.shiftl_mul_pow2 by lia. unfold wrap.
  change (2 ^ 24) with 16777216. change (2 ^ 16) with 65536. change (2 ^ 8) with 256. change (2 ^ 0) with 1.
  change (2 ^ 32) with 4294967296 in *. Z.div_mod_to_equations. lia.
Qed.

Definition printed_host (a : Z) : text :=
  print_int (byte_at a 24) ++ "."%char :: print_int (byte_at a 16) ++ "."%char :: print_int (byte_at a 8)
  ++ "."%char :: print_int (byte_at a 0).

Lemma getString_eq a : getString a = printed_host (host a) ++ ":"%char :: print_int (port a).
Proof.
  unfold getString, printed_host. cbv zeta. fold (byte_at (host a) 24) (byte_at (host a) 16) (byte_at (host a) 8) (byte_at (host a) 0).
  cbn [app]. repeat (rewrite <- app_assoc; cbn [app]). reflexivity.
Qed.

Definition plain (c : ascii) : Prop := is_digit c = true ∨ c = "."%char.

Lemma printed_plain a : Forall plain (printed_host a).
Proof.
  assert (P : ∀ k, 0 ≤ k → Forall plain (print_int (byte_at a k))).
  { intros k Hk. eapply Forall_impl; [apply decimal_digits; by apply byte_at_range|]. by left. }
  unfold printed_host. repeat (apply Forall_app; split; [by apply P|]; constructor; [by right|]). by apply P.
Qed.

(** What [parseIP] makes of a printed address: the pad is not printed, and the port decides. *)
Lemma parse_printed a : fits 32 (host a) → fits 16 (port a) →
  parseIP (getString a) = if (0 <? port a) && (port a <? 65535) then Some (mkIPaddr (host a) (port a) 0) else None.
Proof.
  intros Hh Hp. pose proof Hp as [P0 P1]. unfold parseIP. rewrite getString_eq, split_at_app.
  2:{ eapply Forall_impl; [apply printed_plain|]. intros c [Hc| ->]; [by apply digit_other|done]. }
  rewrite atoi_print by (split; [lia|]; etransitivity; [exact P1|reflexivity]).
  destruct (Z.leb_spec (port a) 0), (Z.ltb_spec 0 (port a)); try lia; [done|].
  destruct (Z.leb_spec 65535 (port a)), (Z.ltb_spec (port a) 65535); try lia; [done|].
  cbn [orb andb]. f_equal. rewrite wrap_id by done. unfold IPaddr_of_text. rewrite c_str_id.
  2:{ eapply Forall_impl; [apply printed_plain|]. intros c [Hc| ->]; [|done]. apply digit_range in Hc. lia. }
  unfold printed_host. rewrite !ip_dot, ip_part by by apply byte_at_range. by rewrite bytes_of_word.
Qed.

Lemma printed_no_bar a : fits 16 (port a) → split_at "|" (getString a) = None.
Proof.
  intros Hp. assert (N : ∀ s, Forall (λ d, Ascii.eqb d "|" = false) s → split_at "|" s = None).
  { induction s as [|c s IH]; intros F; [done|]. apply Forall_cons in F as [Hc F]. cbn [split_at]. by rewrite Hc, IH. }
  apply N. rewrite getString_eq. apply Forall_app. split; [|constructor; [done|]].
  - eapply Forall_impl; [apply printed_plain|]. intros c [Hc| ->]; [by apply digit_other|done].
  - eapply Forall_impl; [apply decimal_digits; destruct Hp; lia|]. intros c Hc. by apply digit_other.
Qed.

(** C36: What becomes of the text of an address, for every host and every port, by each of its
    three readers: if the port is neither 0 nor 65535, the host and the port are read as they
    were printed (the pad is not printed and comes back as 0; what [translateAddress] reads
    carries the id of the host); an address with port 0 or port 65535 is refused. *)
Theorem address_text_roundtrip i a : fits 32 (host a) → fits 16 (port a) →
  let here := mkIPaddr (host a) (port a) 0 in
  let read {A} (x : A) := if (0 <? port a) && (port a <? 65535) then Some x else None in
  parseIP (getString a) = read here
  ∧ Addr_fromString (Addr_toString (Addr_make i a)) = read (mkAddr 0 0 here)
  ∧ translateAddress (getString a) = read (Addr_make (resolveHostID a) here).
Proof.
  intros Hh Hp here read. subst read. cbv beta. unfold Addr_fromString, Addr_toString, translateAddress.
  cbn [publicIP Addr_make]. rewrite printed_no_bar, parse_printed by done. by destruct (_ && _).
Qed.

(** Printing fits the buffers of 23 and 30 characters it is given, its NUL included. *)
Lemma getString_length a : fits 16 (port a) → (length (getString a) ≤ 21)%nat.
Proof.
  intros [P0 P1]. rewrite getString_eq. unfold printed_host. repeat (rewrite length_app; cbn [List.length]).
  assert (B : ∀ k, 0 ≤ k → (length (print_int (byte_at (host a) k)) ≤ 3)%nat).
  { intros k Hk. apply decimal_length; [|lia]. pose proof (byte_at_range (host a) k Hk). cbn. lia. }
  pose proof (B 24). pose proof (B 16). pose proof (B 8). pose proof (B 0).
  assert (length (print_int (port a)) ≤ 5)%nat by (apply decimal_length; [cbn; lia|lia]). lia.
Qed.

Lemma address_text_roundtrip_witness :
  let a := mkIPaddr 167772161 1037 0 in
  translateAddress (getString a) = Some (Addr_make (resolveHostID a) a)
  ∧ parseIP (getString (mkIPaddr 167772161 0 0)) = None
  ∧ getString a = list_ascii_of_string "10.0.0.1:1037"%string.
Proof.
  intros a. split; [|split; [|reflexivity]].
  - refine (proj2 (proj2 (address_text_roundtrip 0 (mkIPaddr 167772161 1037 0) _ _))); split; [discriminate|reflexivity|discriminate|reflexivity].
  - refine (proj1 (address_text_roundtrip 0 (mkIPaddr 167772161 0 0) _ _)); split; [discriminate|reflexivity|discriminate|reflexivity].
Defined.

(** A port that a socket may have is refused, and a host name is read as the address 0. *)
Example port_65535_refused : parseIP (getString (mkIPaddr 167772161 65535 0)) = None.
Proof. reflexivity. Qed.
Example host_name_is_zero : parseIP (list_ascii_of_string "localhost:1037"%string) = Some (mkIPaddr 0 1037 0).
Proof. reflexivity. Qed.
