(* ===== verification/UdpHandler.v ===== *)
(** The unicast UDP handler: VASTnet/net_udp_handler.{h,cpp}. It splits what it receives
    into VAST messages, remembers which host has which address and calls back into the
    network manager through [AbstractNetUdp]. *)

From S2P Require Import Prelude Bytes StdMap Float Serial Message NetManager.
Local Open Scope Z_scope.

(** [std::map<IPaddr, id_t>] is ordered by host, then port: the keys are represented by
    one number in the same order. *)
Definition ip_key (a : IPaddr) : Z := host a * 2 ^ 16 + port a.

Record net_udp_handler := mkUH {
  is_open : bool;
  local_endpoint : IPaddr;
  remote_ids : list Z;                       (* _remote_ids *)
  remote_addrs : list (Z * IPaddr);          (* _remote_addrs *)
  remote_ids_IPs : list (Z * Z);             (* _remote_ids_IPs, by [ip_key] *)
  uh_packets_received : nat }.

(** The constructor. *)
Definition UdpHandler_new (local : IPaddr) : net_udp_handler := mkUH false local [0] [] [] 0.

Definition with_addrs (h : net_udp_handler) (ra : list (Z * IPaddr)) (ri : list (Z * Z))
    : net_udp_handler :=
  mkUH (is_open h) (local_endpoint h) (remote_ids h) ra ri (uh_packets_received h).

Definition UdpHandler_getRemoteAddress (h : net_udp_handler) (host_id : Z) : option IPaddr :=
  find host_id (remote_addrs h).

Definition getRemoteIDByIP (h : net_udp_handler) (addr : IPaddr) : Z :=
  match find (ip_key addr) (remote_ids_IPs h) with Some id => id | None => NET_ID_UNASSIGNED end.

(** [storeRemoteAddress]: the comparison inserts a null address for an unknown host; an
    address other than the one the id stands for, on port 1037, is replaced by it. *)
Definition storeRemoteAddress (h : net_udp_handler) (host_id : Z) (addr : IPaddr)
    : net_udp_handler :=
  let ra := match find host_id (remote_addrs h) with
            | Some _ => remote_addrs h
            | None => set host_id IPaddr_null (remote_addrs h)
            end in
  let old := match find host_id ra with Some a => a | None => IPaddr_null end in
  if IPaddr_eqb old addr then with_addrs h ra (remote_ids_IPs h) else
  let addr_from_id := IPaddr_make (Z.shiftr host_id 32) 1037 in
  let addr := if negb (host_id =? 0) && negb (IPaddr_eqb addr_from_id addr)
              then addr_from_id else addr in
  with_addrs h (set host_id addr ra) (set (ip_key addr) host_id (remote_ids_IPs h)).

(** [*it = newID] for the first [oldID] *)
Fixpoint replace_first (oldID newID : Z) (l : list Z) : option (list Z) :=
  match l with
  | [] => None
  | x :: l =>
      if x =? oldID then Some (newID :: l)
      else match replace_first oldID newID l with Some l => Some (x :: l) | None => None end
  end.

Definition switchRemoteID (h : net_udp_handler) (oldID newID : Z) : net_udp_handler * bool :=
  match replace_first oldID newID (remote_ids h) with
  | None => (h, false)
  | Some l => (mkUH (is_open h) (local_endpoint h) l (remote_addrs h) (remote_ids_IPs h)
                    (uh_packets_received h), true)
  end.

(** The stream pointer given to the manager. *)
Definition this_stream : Z := 1.

Section process.
Context {N : Type} `{AbstractNetUdp N}.

Definition handle_disconnect (now : Z) (h : net_udp_handler) (n : N) (ip_addr : IPaddr)
    : outcome N :=
  let id := getRemoteIDByIP h ip_addr in
  if negb (id =? NET_ID_UNASSIGNED)
  then '(n, _) ← socket_disconnected n now id; Ok n
  else Ok n.

(** The loop of [process_input]: [n] is the [size_t] count of bytes left, [p] the
    memory from the pointer on. Each turn reads four bytes of [p], so that
    [length p] turns are enough; without memory left the next read is out of bounds. *)
Fixpoint process_frames (fuel : nat) (now : Z) (h : net_udp_handler) (nu : N)
    (p : list byte) (n : Z) (remote_addr : IPaddr) (fromhost : Z)
    : outcome (net_udp_handler * N) :=
  if n <=? 4 then Ok (h, nu) else
  match fuel with
  | O => Fail OutOfBounds
  | S fuel =>
      '(header, q) ← fetch_vh p;
      let n := u64 (n - 4) in
      if negb (vh_ok header) then Ok (h, nu) else
      let sz := Z.to_nat (msg_size header) in
      _ ← Message_deserialize (Message_new 0 0) (Some q) sz;
      '(h, nu, temp_id) ← (
         if negb ((host remote_addr =? 0) && (port remote_addr =? 0)) then
           let temp_id := resolveHostID remote_addr in
           let h := storeRemoteAddress h temp_id remote_addr in
           '(nu, _) ← socket_connected nu now temp_id this_stream;
           Ok (h, nu, temp_id)
         else Ok (h, nu, fromhost));
      '(bs, _) ← fetch_bytes (sz + 4) p;
      nu ← msg_received nu now temp_id (Some bs);
      process_frames fuel now h nu (drop sz q) (u64 (n - msg_size header)) remote_addr fromhost
  end.

(** [process_input (buffer, bytes_transferred, remote_addr, fromhost)] *)
Definition UdpHandler_process_input (now : Z) (h : net_udp_handler) (nu : N)
    (buffer : list byte) (bytes_transferred : nat) (remote_addr : IPaddr) (fromhost : Z)
    : outcome (net_udp_handler * N) :=
  process_frames (length buffer) now h nu buffer (Z.of_nat bytes_transferred)
                 remote_addr fromhost.

(** [handle_input] without an error: [buf] is the receive buffer after the datagram
    was stored, [remote] the endpoint it came from. *)
Definition UdpHandler_handle_input (now : Z) (h : net_udp_handler) (nu : N)
    (buf : list byte) (bytes_transferred : nat) (remote : IPaddr)
    : outcome (net_udp_handler * N) :=
  let h := mkUH (is_open h) (local_endpoint h) (remote_ids h) (remote_addrs h)
                (remote_ids_IPs h) (S (uh_packets_received h)) in
  UdpHandler_process_input now h nu buf bytes_transferred remote (resolveHostID remote).
End process.

(** *** Frames *)

(** A VAST message as it is sent: the header and [msg_size] bytes. *)
Record frame := mkFrame { fr_header : VASTHeader; fr_body : list byte }.

Definition frame_ok (f : frame) : Prop :=
  VASTHeader_valid (fr_header f) ∧ vh_ok (fr_header f) = true
  ∧ msg_size (fr_header f) = Z.of_nat (length (fr_body f)).

Definition frame_bytes (f : frame) : list byte := vh_bytes (fr_header f) ++ fr_body f.

Definition frames_bytes (fs : list frame) : list byte := concat (frame_bytes <$> fs).

Lemma frames_bytes_cons f fs : frames_bytes (f :: fs) = frame_bytes f ++ frames_bytes fs.
Proof. done. Qed.

Lemma length_frame_bytes f : length (frame_bytes f) = (4 + length (fr_body f))%nat.
Proof. unfold frame_bytes. by rewrite length_app, length_vh_bytes. Qed.

Lemma fetch_frame f rest : frame_ok f →
  fetch_vh (frame_bytes f ++ rest) = Ok (fr_header f, fr_body f ++ rest).
Proof. intros (Hv & _). unfold frame_bytes. rewrite <- app_assoc. by apply fetch_vh_bytes. Qed.

Lemma length_frames_bytes fs : (4 * length fs ≤ length (frames_bytes fs))%nat.
Proof.
  induction fs as [|f fs IH]; [done|].
  rewrite frames_bytes_cons, length_app, length_frame_bytes. cbn [length]. lia.
Qed.

Section frames.
Context {N : Type} `{AbstractNetUdp N}.

(** What one frame does, the specification of a turn of the loop. *)
Definition frame_step (now : Z) (remote_addr : IPaddr) (fromhost : Z)
    (s : net_udp_handler * N) (bs : list byte) : outcome (net_udp_handler * N) :=
  let '(h, nu) := s in
  if (host remote_addr =? 0) && (port remote_addr =? 0) then
    nu ← msg_received nu now fromhost (Some bs); Ok (h, nu)
  else
    let id := resolveHostID remote_addr in
    '(nu, _) ← socket_connected nu now id this_stream;
    nu ← msg_received nu now id (Some bs);
    Ok (storeRemoteAddress h id remote_addr, nu).

Fixpoint frames_run (now : Z) (remote_addr : IPaddr) (fromhost : Z)
    (s : net_udp_handler * N) (l : list (list byte)) : outcome (net_udp_handler * N) :=
  match l with
  | [] => Ok s
  | bs :: l => s ← frame_step now remote_addr fromhost s bs;
               frames_run now remote_addr fromhost s l
  end.

Lemma deserialize_body q n : (n ≤ length q)%nat →
  ∃ r, Message_deserialize (Message_new 0 0) (Some q) n = Ok r.
Proof.
  intros H1. destruct (Message_deserialize_cases (Message_new 0 0) q n) as [|[_ Hl]];
    [apply Message_new_inv|done|lia].
Qed.

Lemma process_frames_frame fuel now h nu f rest n ra fh :
  frame_ok f → Z.of_nat (length (frame_bytes f)) ≤ n < 2 ^ 64 → fr_body f ≠ [] →
  process_frames (S fuel) now h nu (frame_bytes f ++ rest) n ra fh
  = ('(h, nu) ← frame_step now ra fh (h, nu) (frame_bytes f);
     process_frames fuel now h nu rest (n - Z.of_nat (length (frame_bytes f))) ra fh).
Proof.
  intros (Hv & Hk & Hs) Hn Hne. rewrite length_frame_bytes in *. cbn [process_frames].
  assert (0 < length (fr_body f))%nat by (destruct (fr_body f); [done|cbn; lia]).
  destruct (Z.leb_spec n 4); [lia|].
  rewrite fetch_frame, bind_ok by done.
  cbn beta iota zeta. rewrite Hk. cbn [negb]. rewrite Hs, Nat2Z.id.
  destruct (deserialize_body (fr_body f ++ rest) (length (fr_body f))) as [r ->];
    [rewrite length_app; lia|].
  rewrite bind_ok, fetch_bytes_app by (rewrite length_frame_bytes; lia).
  rewrite drop_app_len by done.
  replace (u64 (u64 (n - 4) - Z.of_nat (length (fr_body f))))
    with (n - Z.of_nat (4 + length (fr_body f)))
    by (rewrite !wrap_id; unfold fits; rewrite ?wrap_id; unfold fits; lia).
  unfold frame_step. destruct ((host ra =? 0) && (port ra =? 0)); cbn [negb].
  - cbn beta iota delta [mbind outcome_bind]. by destruct (msg_received nu now fh _).
  - cbn beta iota delta [mbind outcome_bind].
    destruct (socket_connected nu now _ _) as [[nu1 b]|]; [|done].
    cbn beta iota delta [mbind outcome_bind].
    by destruct (msg_received nu1 now (resolveHostID ra) (Some (frame_bytes f))).
Qed.
End frames.

(** *** Properties *)

Section properties.
Context {N : Type} `{AbstractNetUdp N}.

Lemma process_frames_run fs fuel now h nu tail n ra fh :
  Forall (λ f, frame_ok f ∧ fr_body f ≠ []) fs → (length fs ≤ fuel)%nat →
  n = Z.of_nat (length (frames_bytes fs)) → n < 2 ^ 64 →
  process_frames fuel now h nu (frames_bytes fs ++ tail) n ra fh
  = frames_run now ra fh (h, nu) (frame_bytes <$> fs).
Proof.
  revert fuel h nu n. induction fs as [|f fs IH]; intros fuel h nu n Hf Hfu Hn H64.
  { cbn in Hn. subst n. by destruct fuel. }
  destruct fuel as [|fuel]; [cbn in Hfu; lia|].
  apply Forall_cons in Hf as [[Hf Hne] Hfs].
  rewrite frames_bytes_cons, length_app in Hn. rewrite frames_bytes_cons, <- app_assoc.
  rewrite process_frames_frame by (done || lia).
  cbn [fmap list_fmap frames_run].
  destruct (frame_step now ra fh (h, nu) (frame_bytes f)) as [[h1 nu1]|]; [|done].
  rewrite !bind_ok. cbn beta iota. apply IH; [done|cbn in Hfu; lia|lia|lia].
Qed.

(** Whatever is behind the interface, [process_input] on a datagram made of VAST
    messages does for each of them, in order, what the specification [frame_step]
    says: learn the sender's address and connect it when the address is known, and
    deliver the message, header included, under the host id of the sender (the given
    one for a recovered packet); it reads nothing beyond the datagram and leaves the
    loop at its end. *)
Theorem datagram_delivers_messages now h nu fs tail ra fh :
  Forall (λ f, frame_ok f ∧ fr_body f ≠ []) fs →
  Z.of_nat (length (frames_bytes fs)) < 2 ^ 64 →
  UdpHandler_process_input now h nu (frames_bytes fs ++ tail) (length (frames_bytes fs)) ra fh
  = frames_run now ra fh (h, nu) (frame_bytes <$> fs).
Proof.
  intros Hfs H64. apply process_frames_run; try done.
  rewrite length_app. pose proof (length_frames_bytes fs). lia.
Qed.

(** A message whose header announces more bytes than the buffer holds is not
    rejected: [process_input] reads past the end of the buffer. *)
Theorem overlong_message_overreads now h nu hd rest fh :
  VASTHeader_valid hd → vh_ok hd = true → rest ≠ [] →
  Z.of_nat (length rest) < msg_size hd →
  UdpHandler_process_input now h nu (vh_bytes hd ++ rest) (4 + length rest) IPaddr_null fh
  = Fail OutOfBounds.
Proof.
  intros Hv Hk Hne Hs. unfold UdpHandler_process_input.
  rewrite length_app, length_vh_bytes. cbn [Nat.add process_frames].
  assert (0 < length rest)%nat by (destruct rest; [done|cbn; lia]).
  destruct (Z.leb_spec (Z.of_nat (S (S (S (S (length rest)))))) 4); [lia|].
  rewrite fetch_vh_bytes, bind_ok by done. cbn beta iota zeta. rewrite Hk. cbn [negb].
  destruct (Message_deserialize_cases (Message_new 0 0) rest (Z.to_nat (msg_size hd)))
    as [[r ->]|[-> _]]; [apply Message_new_inv| |done].
  rewrite bind_ok. change ((host IPaddr_null =? 0) && (port IPaddr_null =? 0)) with true.
  cbn [negb]. rewrite bind_ok. cbn beta iota.
  destruct (fetch_bytes_cases (Z.to_nat (msg_size hd) + 4) (vh_bytes hd ++ rest))
    as [[_ Hl]|[-> _]]; [|done].
  rewrite length_app, length_vh_bytes in Hl. lia.
Qed.
End properties.

(** The address learned from the first datagram of a host. It is stored under the
    host id of the sender and found again both ways; its host is the sender's, but its
    port is always 1037, so that it is the sender's address only if the sender uses that
    port. Other hosts' addresses stay. *)
Theorem learned_address h a :
  IPaddr_valid a → IPaddr_eqb IPaddr_null a = false →
  find (resolveHostID a) (remote_addrs h) = None →
  let id := resolveHostID a in
  let h' := storeRemoteAddress h id a in
  ∃ b, UdpHandler_getRemoteAddress h' id = Some b ∧ getRemoteIDByIP h' b = id
  ∧ host b = host a ∧ port b = 1037
  ∧ (IPaddr_eqb b a = true ↔ port a = 1037)
  ∧ ∀ id', id' ≠ id → UdpHandler_getRemoteAddress h' id' = UdpHandler_getRemoteAddress h id'.
Proof.
  intros (Hh & Hp & Hd) Hnull Hf. cbv zeta.
  assert (Hid : resolveHostID a ≠ 0).
  { intros E. pose proof (resolveHostID_low a) as H. by rewrite E in H. }
  unfold UdpHandler_getRemoteAddress, getRemoteIDByIP, storeRemoteAddress.
  rewrite Hf, find_set_eq, Hnull, resolveHostID_host by done.
  destruct (Z.eqb_spec (resolveHostID a) 0); [done|]. cbn [negb andb].
  assert (Hm : IPaddr_make (host a) 1037 = mkIPaddr (host a) 1037 0)
    by (unfold IPaddr_make; by rewrite (wrap_id 32 (host a))).
  rewrite Hm. set (b := if negb _ then _ else a).
  assert (Hb : host b = host a ∧ port b = 1037).
  { unfold b. destruct (IPaddr_eqb (mkIPaddr _ _ _) a) eqn:E; cbn [negb]; [|done].
    apply IPaddr_eqb_true in E as [_ E]. by cbn in E. }
  destruct Hb as [Hbh Hbp].
  exists b. cbn [remote_addrs remote_ids_IPs with_addrs]. rewrite !find_set_eq.
  splits; try done.
  - rewrite IPaddr_eqb_true, Hbh, Hbp. split; [intros [_ E]; congruence|intros ->; done].
  - intros id' Hne. by rewrite !find_set_ne.
Qed.

(** *** Witnesses *)

(** A manager that only records what it is told. *)
#[local] Instance recording : AbstractNetUdp (list (Z * option (list byte))) := {|
  msg_received n _ id m := Ok (n ++ [(id, m)]);
  socket_connected n _ id _ := Ok (n ++ [(id, None)], true);
  socket_disconnected n _ id := Ok (n, true);
  getPublicIPaddr _ := IPaddr_null;
  getID _ := 0 |}.

Definition frame_example (b : byte) : frame := mkFrame (mkVH 10 3 2 5) [b; b].

Definition handler_example : net_udp_handler := UdpHandler_new (mkIPaddr 167772161 1037 0).

Lemma datagram_delivers_messages_witness :
  Forall (λ f, frame_ok f ∧ fr_body f ≠ []) [frame_example Byte.x61; frame_example Byte.x62] ∧
  UdpHandler_process_input 0 handler_example ([] : list (Z * option (list byte)))
    (frames_bytes [frame_example Byte.x61; frame_example Byte.x62] ++ []) 12 IPaddr_null 7
  = Ok (handler_example, [(7, Some (frame_bytes (frame_example Byte.x61)));
                          (7, Some (frame_bytes (frame_example Byte.x62)))]).
Proof.
  assert (H : Forall (λ f, frame_ok f ∧ fr_body f ≠ [])
                [frame_example Byte.x61; frame_example Byte.x62]).
  { repeat (apply Forall_cons_2; [split; [repeat split; discriminate|discriminate]|]).
    apply Forall_nil_2. }
  split; [exact H|].
  exact (datagram_delivers_messages 0 handler_example ([] : list (Z * option (list byte)))
           _ [] IPaddr_null 7 H eq_refl).
Defined.

Lemma overlong_message_overreads_witness :
  UdpHandler_process_input 0 handler_example ([] : list (Z * option (list byte)))
    (vh_bytes (mkVH 10 3 5 5) ++ [Byte.x61]) 5 IPaddr_null 7 = Fail OutOfBounds.
Proof.
  apply (overlong_message_overreads 0 handler_example ([] : list (Z * option (list byte)))
           (mkVH 10 3 5 5) [Byte.x61] 7).
  - repeat split; discriminate.
  - reflexivity.
  - discriminate.
  - reflexivity.
Defined.

Lemma learned_address_witness :
  ∃ b, UdpHandler_getRemoteAddress
         (storeRemoteAddress handler_example (resolveHostID (mkIPaddr 167772162 1038 0))
                             (mkIPaddr 167772162 1038 0))
         (resolveHostID (mkIPaddr 167772162 1038 0)) = Some b
  ∧ IPaddr_eqb b (mkIPaddr 167772162 1038 0) = false.
Proof.
  destruct (learned_address handler_example (mkIPaddr 167772162 1038 0))
    as (b & E & _ & _ & _ & Hp & _).
  - repeat split; discriminate.
  - reflexivity.
  - reflexivity.
  - exists b. split; [exact E|].
    destruct (IPaddr_eqb b (mkIPaddr 167772162 1038 0)); [|reflexivity].
    discriminate (proj1 Hp eq_refl).
Defined.
