(* ===== verification/NetUdp.v ===== *)
(** The UDP network manager: VASTnet/net_udp.{h,cpp}. Incoming messages are queued, and
    connections are entries of a map, since UDP has none.

    [net_udp] keeps the base class's state and whether [_conn_mutex] is held between
    operations; a [lock ()] while it is held never returns ([Deadlock]). [_msg_mutex] is
    always released. [now] is the clock. The handler is a component of its own
    ([udp_node]). *)

From S2P Require Import Prelude Bytes StdMap Float Serial Message NetManager UdpHandler.
Local Open Scope Z_scope.

Record net_udp := mkUdp { base : net_manager; conn_locked : bool }.

Definition with_base (n : net_udp) (b : net_manager) : net_udp := mkUdp b (conn_locked n).

(** [_conn_mutex.lock ()] and [unlock ()] *)
Definition lock (n : net_udp) : outcome net_udp :=
  if conn_locked n then Fail Deadlock else Ok (mkUdp (base n) true).
Definition unlock (n : net_udp) : net_udp := mkUdp (base n) false.

Definition Udp_socket_connected (n : net_udp) (now id stream : Z) : outcome (net_udp * bool) :=
  if id =? NET_ID_UNASSIGNED then Ok (n, false) else
  let conn := mkConn stream now in
  n ← lock n;
  let '(n, stored) :=
    if has id (id2conn (base n)) then (n, false)
    else (with_base n (with_conns (base n) (set id conn (id2conn (base n)))), true) in
  Ok (unlock n, stored).

(** [msg_received (fromhost, message, size, recvtime, in_front)] *)
Definition Udp_msg_received (n : net_udp) (now fromhost : Z) (message : option (list byte))
    (recvtime : Z) (in_front : bool) : outcome (net_udp * bool) :=
  let recvtime := if recvtime =? 0 then now else recvtime in
  let msg := mkNSM fromhost recvtime message in
  let b := base n in
  let n := with_base n (with_queue b (if in_front then msg :: recv_queue b else recv_queue b ++ [msg])
                                   (recvmsg b)) in
  n ← lock n;
  let conns := id2conn (base n) in
  n ← (match find fromhost conns with
       | Some c =>
           Ok (if lasttime c <? recvtime
               then with_base n (with_conns (base n) (set fromhost (mkConn (stream c) recvtime) conns))
               else n)
       | None =>
           match message with
           | Some _ =>
               if negb (fromhost =? NET_ID_UNASSIGNED)
               then '(n, _) ← Udp_socket_connected n now fromhost this_stream; Ok n
               else Ok n
           | None => Ok n
           end
       end);
  Ok (unlock n, true).

Definition Udp_socket_disconnected (n : net_udp) (now id : Z) : outcome (net_udp * bool) :=
  if negb (nm_active (base n)) then Ok (n, false) else
  n ← lock n;
  let '(n, success) :=
    if has id (id2conn (base n))
    then (with_base n (with_conns (base n) (erase id (id2conn (base n)))), true)
    else (n, false) in
  let n := unlock n in
  if success : bool then '(n, _) ← Udp_msg_received n now id None now false; Ok (n, true)
  else Ok (n, false).

(** The callbacks, with the default arguments of the interface. *)
#[export] Instance net_udp_interface : AbstractNetUdp net_udp := {|
  msg_received n now id m := '(n, _) ← Udp_msg_received n now id m 0 false; Ok n;
  socket_connected := Udp_socket_connected;
  socket_disconnected := Udp_socket_disconnected;
  getPublicIPaddr n := publicIP (self_addr (base n));
  getID n := nm_id (base n) |}.

(** [receive ()]: the next message; the one returned before is deleted. *)
Definition Udp_receive (n : net_udp) : net_udp * option NetSocketMsg :=
  let b := base n in
  match recv_queue b with
  | [] => (with_base n (with_queue b [] None), None)
  | m :: q => (with_base n (with_queue b q (Some m)), Some m)
  end.

(** *** With the handler *)

Record udp_node := mkNode_udp { udp : net_udp; uhandler : net_udp_handler }.

Definition Udp_getRemoteAddress (s : udp_node) (host_id : Z) (addr : IPaddr) : IPaddr * bool :=
  match UdpHandler_getRemoteAddress (uhandler s) host_id with
  | None => (addr, false)
  | Some a => (a, true)
  end.

Definition Udp_connect (s : udp_node) (now target host port : Z) : outcome (udp_node * bool) :=
  let n := udp s in
  if negb (nm_active (base n)) then Ok (s, false) else
  if (target =? nm_id (base n)) || isConnected (base n) target then Ok (s, false) else
  if negb (is_open (uhandler s)) then Fail LogicError else
  let h := storeRemoteAddress (uhandler s) target (IPaddr_make host port) in
  '(n, _) ← Udp_socket_connected n now target this_stream;
  Ok (mkNode_udp n h, true).

(** [disconnect]: the return for an unknown host keeps the mutex. *)
Definition Udp_disconnect (s : udp_node) (now target : Z) : outcome (udp_node * bool) :=
  n ← lock (udp s);
  let handler := match find target (id2conn (base n)) with Some c => stream c | None => 0 end in
  if handler =? 0 then Ok (mkNode_udp n (uhandler s), false) else
  '(n, _) ← Udp_socket_disconnected (unlock n) now target;
  Ok (mkNode_udp n (uhandler s), true).

(** [send (target, msg, size, addr)]: the endpoint the handler is asked to send to, when
    there is one. *)
Definition Udp_send (s : udp_node) (target : Z) (addr : option Addr) : option IPaddr :=
  if negb (nm_active (base (udp s))) then None else
  match addr with
  | Some a => Some (publicIP a)
  | None => UdpHandler_getRemoteAddress (uhandler s) target
  end.

Definition Udp_switchID (s : udp_node) (prevID newID : Z) : udp_node * bool :=
  let b := base (udp s) in
  match find prevID (id2conn b) with
  | Some c =>
      if negb (prevID =? newID) then
        let conns := erase prevID (set newID c (id2conn b)) in
        let '(h, result) := switchRemoteID (uhandler s) prevID newID in
        (mkNode_udp (with_base (udp s) (with_conns b conns)) h, result)
      else (s, true)
  | None => (s, true)
  end.

(** [net_udp::start], the handler opened on [port] *)
Definition Udp_start (s : udp_node) (now port : Z) : outcome (udp_node * bool) :=
  let b := nm_start (base (udp s)) in
  let h := uhandler s in
  let h := mkUH true (mkIPaddr (host (local_endpoint h)) port 0) (remote_ids h) (remote_addrs h)
                (remote_ids_IPs h) (uh_packets_received h) in
  let a := Addr_setPublic (self_addr b) (host (publicIP (self_addr b))) port in
  let a := mkAddr (resolveHostID (publicIP a)) (lastAccessed a) (publicIP a) in
  let b := mkNM (nm_id b) a true (id2conn b) (recv_queue b) (recvmsg b) in
  '(n, stored) ← Udp_socket_connected (with_base (udp s) b) now (host_id a) this_stream;
  Ok (mkNode_udp n h, stored).

(** [net_udp::stop]: every connection is dropped, the queue is cleared, the handler is
    closed. *)
Fixpoint disconnect_all (s : udp_node) (now : Z) (l : list Z) : outcome udp_node :=
  match l with
  | [] => Ok s
  | id :: l => '(s, _) ← Udp_disconnect s now id; disconnect_all s now l
  end.

Definition Udp_stop (s : udp_node) (now : Z) : outcome udp_node :=
  s ← (if negb (nm_active (base (udp s))) then Ok s else
       s ← disconnect_all s now (fst <$> id2conn (base (udp s)));
       Ok (mkNode_udp (with_base (udp s) (with_queue (base (udp s)) [] None)) (uhandler s)));
  let h := uhandler s in
  let h := mkUH false (local_endpoint h) (remote_ids h) (remote_addrs h) (remote_ids_IPs h)
                (uh_packets_received h) in
  let b := base (udp s) in
  Ok (mkNode_udp (with_base (udp s)
        (mkNM (nm_id b) (self_addr b) false (id2conn b) (recv_queue b) (recvmsg b))) h).

(** *** Lemmas *)

Definition unlocked (n : net_udp) : Prop := conn_locked n = false.

Lemma lock_ok n : unlocked n → lock n = Ok (mkUdp (base n) true).
Proof. unfold lock, unlocked. by intros ->. Qed.

Lemma socket_connected_ok n now id stream :
  unlocked n → id ≠ NET_ID_UNASSIGNED →
  ∃ n', Udp_socket_connected n now id stream = Ok (n', negb (has id (id2conn (base n))))
  ∧ unlocked n' ∧ has id (id2conn (base n')) = true
  ∧ recv_queue (base n') = recv_queue (base n) ∧ nm_active (base n') = nm_active (base n)
  ∧ (∀ id', id' ≠ id → find id' (id2conn (base n')) = find id' (id2conn (base n)))
  ∧ (∀ c, find id (id2conn (base n)) = Some c → find id (id2conn (base n')) = Some c).
Proof.
  intros Hu Hid. unfold Udp_socket_connected.
  destruct (Z.eqb_spec id NET_ID_UNASSIGNED); [done|].
  rewrite lock_ok, bind_ok by done. cbn [base]. unfold has at 1 2.
  destruct (find id (id2conn (base n))) as [c|] eqn:E.
  - exists (unlock (mkUdp (base n) true)).
    splits; [done|done|unfold has; cbn; by rewrite E|done|done|done|].
    by intros c' [= <-].
  - eexists. splits; [done|done|unfold has; cbn; by rewrite find_set_eq|done|done| |done].
    intros id' Hne. cbn. by rewrite find_set_ne.
Qed.

(** A message of a connected host, or of none. *)
Lemma msg_received_ok n now from msg rt front :
  unlocked n →
  has from (id2conn (base n)) = true ∨ from = NET_ID_UNASSIGNED ∨ msg = None →
  ∃ n', Udp_msg_received n now from msg rt front = Ok (n', true) ∧ unlocked n'
  ∧ recv_queue (base n') =
      (let m := mkNSM from (if rt =? 0 then now else rt) msg in
       if front then m :: recv_queue (base n) else recv_queue (base n) ++ [m])
  ∧ nm_active (base n') = nm_active (base n)
  ∧ (∀ id, has id (id2conn (base n')) = has id (id2conn (base n))).
Proof.
  intros Hu Hc. unfold Udp_msg_received. cbv zeta.
  rewrite lock_ok, bind_ok by done. cbn [base with_base with_queue id2conn].
  unfold has in *. destruct (find from (id2conn (base n))) as [c|] eqn:E.
  - rewrite bind_ok. eexists. splits; [done|done| | |];
      destruct (lasttime c <? _); cbn; try done.
    intros id. rewrite find_set. by destruct (Z.eqb_spec id from) as [->|]; [rewrite E|].
  - destruct Hc as [Hc|[->| ->]]; [done| |].
    + destruct msg; cbn [negb Z.eqb NET_ID_UNASSIGNED]; rewrite bind_ok; eexists; by splits.
    + rewrite bind_ok. eexists. by splits.
Qed.

(** The first message of a host that has no connection yet: [msg_received] calls
    [socket_connected] with [_conn_mutex] held, which locks it again, and never returns.
    A recovered packet of a host that was not heard before takes this path. *)
Theorem unknown_host_deadlocks n now from bs rt front :
  from ≠ NET_ID_UNASSIGNED → has from (id2conn (base n)) = false →
  Udp_msg_received n now from (Some bs) rt front = Fail Deadlock.
Proof.
  intros Hid Hc. unfold Udp_msg_received, lock. cbv zeta. cbn [conn_locked with_base].
  destruct (conn_locked n); [done|]. rewrite bind_ok.
  cbn [base with_base with_queue id2conn]. unfold has in Hc.
  destruct (find from _); [done|]. unfold Udp_socket_connected.
  destruct (Z.eqb_spec from NET_ID_UNASSIGNED); [done|]. done.
Qed.

(** [disconnect] of a host that is not connected returns with [_conn_mutex] held;
    every later connection, message or disconnection blocks for ever. *)
Theorem disconnect_unknown_blocks s now target :
  unlocked (udp s) → has target (id2conn (base (udp s))) = false →
  ∃ s', Udp_disconnect s now target = Ok (s', false)
  ∧ (∀ t x, Udp_disconnect s' t x = Fail Deadlock)
  ∧ (∀ t id m, msg_received (udp s') t id m = Fail Deadlock)
  ∧ (∀ t id st, id ≠ NET_ID_UNASSIGNED → socket_connected (udp s') t id st = Fail Deadlock).
Proof.
  intros Hu Hc. unfold Udp_disconnect. rewrite lock_ok, bind_ok by done. cbn [base].
  unfold has in Hc. destruct (find target _); [done|]. cbn [Z.eqb].
  eexists. splits; [done|done|done|].
  intros t id st Hid. cbn. unfold Udp_socket_connected.
  by destruct (Z.eqb_spec id NET_ID_UNASSIGNED).
Qed.

(** [disconnect] of a connected host removes its connection, leaves the others, and
    puts one [NULL] message that names it at the end of the queue. *)
Theorem disconnect_notifies s now target c :
  unlocked (udp s) → nm_active (base (udp s)) = true → 0 < now →
  ordered (id2conn (base (udp s))) →
  find target (id2conn (base (udp s))) = Some c → stream c ≠ 0 →
  ∃ s', Udp_disconnect s now target = Ok (s', true) ∧ unlocked (udp s')
  ∧ (∀ id, has id (id2conn (base (udp s'))) = (has id (id2conn (base (udp s))) && negb (id =? target)))
  ∧ recv_queue (base (udp s')) = recv_queue (base (udp s)) ++ [mkNSM target now None].
Proof.
  intros Hu Ha Hnow Ho Hf Hst. unfold Udp_disconnect. rewrite lock_ok, bind_ok by done.
  cbn [base]. rewrite Hf. destruct (Z.eqb_spec (stream c) 0); [done|].
  unfold Udp_socket_disconnected. cbn [unlock base]. rewrite Ha. cbn [negb].
  rewrite lock_ok, bind_ok by done. cbn [base unlock]. unfold has at 1. rewrite Hf.
  set (n1 := unlock _).
  destruct (msg_received_ok n1 now target None now false) as (n' & E & Hu' & Hq & _ & Hh);
    [done|by right; right|].
  rewrite E, !bind_ok. eexists. splits; [done|done| |].
  - intros id. cbn [udp]. rewrite Hh. unfold n1, has. cbn.
    destruct (Z.eqb_spec id target) as [->|Hne]; [by rewrite find_erase_eq, andb_false_r|].
    by rewrite find_erase_ne, andb_true_r.
  - cbn [udp]. rewrite Hq. by destruct (now =? 0).
Qed.

(** [receive] until it returns [NULL], at most [k] times. *)
Fixpoint receive_all (k : nat) (n : net_udp) : list NetSocketMsg * net_udp :=
  match k with
  | O => ([], n)
  | S k =>
      match Udp_receive n with
      | (n, None) => ([], n)
      | (n, Some m) => let '(l, n) := receive_all k n in (m :: l, n)
      end
  end.

Lemma receive_all_queue k n : (length (recv_queue (base n)) < k)%nat →
  fst (receive_all k n) = recv_queue (base n) ∧ recv_queue (base (snd (receive_all k n))) = [].
Proof.
  revert n. induction k as [|k IH]; intros n Hk; [lia|].
  cbn [receive_all]. unfold Udp_receive.
  destruct (recv_queue (base n)) as [|m q] eqn:E; [done|].
  destruct (IH (with_base n (with_queue (base n) q (Some m)))) as [H1 H2]; [cbn in *; lia|].
  destruct (receive_all k _) as [l n']. cbn in H1, H2 |- *. by rewrite H1, H2.
Qed.

Lemma resolveHostID_nonzero a : resolveHostID a ≠ NET_ID_UNASSIGNED.
Proof. intros E. pose proof (resolveHostID_low a) as H. by rewrite E in H. Qed.

Definition null_addr (a : IPaddr) : bool := (host a =? 0) && (port a =? 0).

(** The host a message is attributed to. *)
Definition sender (ra : IPaddr) (fromhost : Z) : Z :=
  if null_addr ra then fromhost else resolveHostID ra.

Lemma frame_step_queued now ra fh h n bs :
  unlocked n → (null_addr ra = true → has fh (id2conn (base n)) = true) →
  ∃ h' n', frame_step now ra fh (h, n) bs = Ok (h', n') ∧ unlocked n'
  ∧ recv_queue (base n') = recv_queue (base n) ++ [mkNSM (sender ra fh) now (Some bs)]
  ∧ has (sender ra fh) (id2conn (base n')) = true.
Proof.
  intros Hu Hc. unfold frame_step, sender, null_addr in *.
  destruct ((host ra =? 0) && (port ra =? 0)).
  - destruct (msg_received_ok n now fh (Some bs) 0 false) as (n' & E & Hu' & Hq & _ & Hh);
      [done|left; by apply Hc|].
    cbn [msg_received net_udp_interface]. rewrite E, !bind_ok.
    do 2 eexists. splits; [done|done|by rewrite Hq|rewrite Hh; by apply Hc].
  - destruct (socket_connected_ok n now (resolveHostID ra) this_stream)
      as (n1 & E1 & Hu1 & Hh1 & Hq1 & _); [done|apply resolveHostID_nonzero|].
    cbn [socket_connected msg_received net_udp_interface]. rewrite E1, bind_ok. cbn beta iota.
    destruct (msg_received_ok n1 now (resolveHostID ra) (Some bs) 0 false)
      as (n' & E & Hu' & Hq & _ & Hh); [done|by left|].
    rewrite E, !bind_ok. do 2 eexists.
    splits; [done|done|by rewrite Hq, Hq1|by rewrite Hh].
Qed.

Lemma frames_run_queued now ra fh l h n :
  unlocked n → (null_addr ra = true → has fh (id2conn (base n)) = true) →
  ∃ h' n', frames_run now ra fh (h, n) l = Ok (h', n') ∧ unlocked n'
  ∧ recv_queue (base n')
    = recv_queue (base n) ++ ((λ bs, mkNSM (sender ra fh) now (Some bs)) <$> l).
Proof.
  revert h n. induction l as [|bs l IH]; intros h n Hu Hc.
  { exists h, n. splits; [done|done|by rewrite app_nil_r]. }
  destruct (frame_step_queued now ra fh h n bs Hu Hc) as (h1 & n1 & E & Hu1 & Hq1 & Hh1).
  destruct (IH h1 n1 Hu1) as (h' & n' & E' & Hu' & Hq').
  { intros Hn. unfold sender in Hh1. by rewrite Hn in Hh1. }
  cbn [frames_run fmap list_fmap]. rewrite E, bind_ok, E'. do 2 eexists.
  splits; [done|done|]. by rewrite Hq', Hq1, <- app_assoc.
Qed.

(** On an idle manager whose mutex is free, a datagram of VAST messages, received from
    an address or recovered from a host that is connected, is processed without
    blocking; [receive] then returns the messages, each with its header and the sender's
    host id, in the order of the datagram, and then [NULL]. *)
Theorem datagram_received_in_order now h n fs tail ra fh :
  unlocked n → recv_queue (base n) = [] →
  (null_addr ra = true → has fh (id2conn (base n)) = true) →
  Forall (λ f, frame_ok f ∧ fr_body f ≠ []) fs →
  Z.of_nat (length (frames_bytes fs)) < 2 ^ 64 →
  ∃ h' n', UdpHandler_process_input now h n (frames_bytes fs ++ tail)
             (length (frames_bytes fs)) ra fh = Ok (h', n')
  ∧ unlocked n'
  ∧ fst (receive_all (S (length fs)) n')
    = (λ f, mkNSM (sender ra fh) now (Some (frame_bytes f))) <$> fs
  ∧ snd (Udp_receive (snd (receive_all (S (length fs)) n'))) = None.
Proof.
  intros Hu Hq Hc Hfs H64. unfold UdpHandler_process_input.
  rewrite process_frames_run; try done.
  2: { rewrite length_app. pose proof (length_frames_bytes fs). lia. }
  destruct (frames_run_queued now ra fh (frame_bytes <$> fs) h n Hu Hc) as (h' & n' & E & Hu' & Hq').
  rewrite Hq in Hq'. cbn [app] in Hq'. rewrite <- list_fmap_compose in Hq'.
  destruct (receive_all_queue (S (length fs)) n') as [H1 H2];
    [rewrite Hq', length_fmap; lia|].
  exists h', n'. splits; [done|done|by rewrite H1, Hq'|].
  unfold Udp_receive. by rewrite H2.
Qed.

(** [switchID] moves a connection to the new id, with its data, and leaves the others;
    but it reports failure unless the handler's list of ids, which nothing but
    [switchID] itself extends beyond its initial 0, holds the old id. *)
Theorem switchID_moves s prevID newID c :
  ordered (id2conn (base (udp s))) →
  find prevID (id2conn (base (udp s))) = Some c → prevID ≠ newID →
  let '(s', ok) := Udp_switchID s prevID newID in
  (∀ id, find id (id2conn (base (udp s'))) =
         if id =? prevID then None else if id =? newID then Some c
         else find id (id2conn (base (udp s))))
  ∧ ok = memb prevID (remote_ids (uhandler s)).
Proof.
  intros Ho Hf Hne. unfold Udp_switchID. rewrite Hf.
  destruct (Z.eqb_spec prevID newID); [done|]. cbn [negb].
  assert (Hr : (λ p, snd p) (switchRemoteID (uhandler s) prevID newID)
               = memb prevID (remote_ids (uhandler s))).
  { unfold switchRemoteID, memb. induction (remote_ids (uhandler s)) as [|x l IH]; [done|].
    cbn [replace_first existsb]. rewrite (Z.eqb_sym prevID x).
    destruct (x =? prevID); [done|]. cbn [orb]. rewrite <- IH.
    by destruct (replace_first prevID newID l). }
  destruct (switchRemoteID (uhandler s) prevID newID) as [h ok]. cbn in Hr. split; [|done].
  intros id. cbn. destruct (Z.eqb_spec id prevID) as [->|H1].
  - apply find_erase_eq. by apply ordered_set.
  - rewrite find_erase_ne, find_set by done. done.
Qed.

(** *** Witnesses *)

Definition udp_example : net_udp :=
  mkUdp (mkNM 0 (Addr_make 5 (mkIPaddr 167772161 1037 0)) true [(7, mkConn this_stream 1)] [] None)
        false.

Definition udp_node_example : udp_node :=
  mkNode_udp udp_example (UdpHandler_new (mkIPaddr 167772161 1037 0)).

Lemma unknown_host_deadlocks_witness :
  Udp_msg_received udp_example 3 9 (Some [Byte.x61]) 0 false = Fail Deadlock.
Proof. apply (unknown_host_deadlocks udp_example 3 9); [discriminate|reflexivity]. Defined.

Lemma disconnect_unknown_blocks_witness :
  ∃ s', Udp_disconnect udp_node_example 3 9 = Ok (s', false)
  ∧ Udp_disconnect s' 4 7 = Fail Deadlock.
Proof.
  destruct (disconnect_unknown_blocks udp_node_example 3 9) as (s' & E & H & _);
    [reflexivity|reflexivity|].
  exists s'. split; [exact E|apply H].
Defined.

Lemma disconnect_notifies_witness :
  ∃ s', Udp_disconnect udp_node_example 3 7 = Ok (s', true)
  ∧ recv_queue (base (udp s')) = [mkNSM 7 3 None].
Proof.
  destruct (disconnect_notifies udp_node_example 3 7 (mkConn this_stream 1))
    as (s' & E & _ & _ & H); try reflexivity; [repeat constructor|discriminate|].
  exists s'. split; [exact E|exact H].
Defined.

Definition frame_ex (b : byte) : frame := mkFrame (mkVH 10 3 2 5) [b; b].

Lemma datagram_received_in_order_witness :
  ∃ h' n', UdpHandler_process_input 3 (UdpHandler_new (mkIPaddr 167772161 1037 0)) udp_example
             (frames_bytes [frame_ex Byte.x61; frame_ex Byte.x62] ++ [])
             12 (mkIPaddr 167772162 1037 0) 0 = Ok (h', n')
  ∧ nsm_msg <$> fst (receive_all 3 n')
    = [Some (frame_bytes (frame_ex Byte.x61)); Some (frame_bytes (frame_ex Byte.x62))].
Proof.
  destruct (datagram_received_in_order 3 (UdpHandler_new (mkIPaddr 167772161 1037 0)) udp_example
              [frame_ex Byte.x61; frame_ex Byte.x62] [] (mkIPaddr 167772162 1037 0) 0)
    as (h' & n' & E & _ & H & _).
  - reflexivity.
  - reflexivity.
  - intros E. discriminate E.
  - repeat (apply Forall_cons_2; [split; [repeat split; discriminate|discriminate]|]).
    apply Forall_nil_2.
  - reflexivity.
  - exists h', n'. split; [exact E|]. cbn [length] in H. rewrite H. reflexivity.
Defined.

Lemma switchID_moves_witness :
  snd (Udp_switchID udp_node_example 7 8) = false.
Proof.
  pose proof (switchID_moves udp_node_example 7 8 (mkConn this_stream 1)) as H.
  destruct (Udp_switchID udp_node_example 7 8) as [s' ok] eqn:E.
  destruct H as [_ H]; [repeat constructor|reflexivity|discriminate|]. exact H.
Defined.
