(* ===== verification/NCHandler.v ===== *)
(** The network-coding handlers of a client: VASTnet/net_udpnc_mchandler.{h,cpp} (coded
    packets and the decoder) and VASTnet/net_udpNC_handler.{h,cpp} (which extends the
    unicast handler: numbering and packing of what is sent, keep-alive packets, sorting
    of what is received).

    Threads and sockets are left out: a datagram given to [send_to] is a result, and a
    received one an argument (the receive buffer, which may hold older bytes after it). *)

From S2P Require Import Prelude Bytes StdMap Float Serial Subscription NCMessage Coding.
From S2P Require Import Recoder Decoder Consumer NetManager UdpHandler NetUdp.
Local Open Scope Z_scope.

(** *** net_udpNC_MChandler *)

Record net_udpNC_MChandler := mkMC {
  mc_local_endpoint : IPaddr;
  mc_decoder : udpNC_decoder;
  mc_packets_processed : nat; unicastpackets_processed : nat; toaddrs_pkts_ignored : nat;
  raw_interval_MCrecv_bytes : Z; used_interval_MCrecv_bytes : Z;
  raw_MCRecvBytes : StatType; used_MCRecvBytes : StatType }.

Definition MC_new (local : IPaddr) : net_udpNC_MChandler :=
  mkMC local Decoder_new 0 0 0 0 0 Stat_reset Stat_reset.

Definition with_decoder (m : net_udpNC_MChandler) (d : udpNC_decoder) : net_udpNC_MChandler :=
  mkMC (mc_local_endpoint m) d (mc_packets_processed m) (unicastpackets_processed m)
       (toaddrs_pkts_ignored m) (raw_interval_MCrecv_bytes m) (used_interval_MCrecv_bytes m)
       (raw_MCRecvBytes m) (used_MCRecvBytes m).

Definition mc_count (m : net_udpNC_MChandler) (processed unicast ignored : nat) (raw used : Z)
    : net_udpNC_MChandler :=
  mkMC (mc_local_endpoint m) (mc_decoder m) (mc_packets_processed m + processed)
       (unicastpackets_processed m + unicast) (toaddrs_pkts_ignored m + ignored)
       (u64 (raw_interval_MCrecv_bytes m + raw)) (u64 (used_interval_MCrecv_bytes m + used))
       (raw_MCRecvBytes m) (used_MCRecvBytes m).

Definition toAddrForMe (m : net_udpNC_MChandler) (msg : UDPNCMessage) : bool :=
  existsb (λ addr, IPaddr_eqb addr (mc_local_endpoint m)) (to_addrs msg).

Definition putOtherUDPNCMessage (m : net_udpNC_MChandler) (other : UDPNCMessage)
    : outcome net_udpNC_MChandler :=
  d ← Decoder_addUDPNCMessage (mc_decoder m) other; Ok (with_decoder m d).

Definition MC_clearPacketPool (m : net_udpNC_MChandler) : net_udpNC_MChandler :=
  with_decoder m (clearPacketPool (mc_decoder m)).

(** [tick]: record the bytes received since the last one. *)
Definition MC_tick (m : net_udpNC_MChandler) : net_udpNC_MChandler :=
  mkMC (mc_local_endpoint m) (mc_decoder m) (mc_packets_processed m)
       (unicastpackets_processed m) (toaddrs_pkts_ignored m) 0 0
       (addRecord (raw_MCRecvBytes m) (raw_interval_MCrecv_bytes m))
       (addRecord (used_MCRecvBytes m) (used_interval_MCrecv_bytes m)).

Section mchandler.
Context `{Crc32} `{Rlnc} (junk : UDPNCHeader).

(** [process_encoded]: a recovered packet is queued at the consumer, with the null
    address. The result of [deserialize] is not looked at. *)
Definition MC_process_encoded (m : net_udpNC_MChandler) (c : net_udpNC_consumer)
    (buf : list byte) (bytes_transferred : nat)
    : outcome (net_udpNC_MChandler * net_udpNC_consumer) :=
  '(message1, _) ← NCM_deserialize (NCM_default junk) buf bytes_transferred;
  let m := mc_count m 1 0 0 (Z.of_nat bytes_transferred) 0 in
  if toAddrForMe m message1 then
    let m := mc_count m 0 0 0 0 (Z.of_nat bytes_transferred) in
    m ← putOtherUDPNCMessage m message1;
    '(d, decoded_msg) ← produceDecodedUDPNCMessage junk (mc_decoder m);
    let m := with_decoder m d in
    match decoded_msg with
    | Some decoded => Ok (m, Consumer_UDPNC_msg_received c decoded IPaddr_null)
    | None => Ok (m, c)
    end
  else Ok (mc_count m 0 0 1 0 0, c).

(** [process_input] of a multicast datagram *)
Definition MC_process_input (m : net_udpNC_MChandler) (c : net_udpNC_consumer)
    (buf : list byte) (bytes_transferred : nat)
    : outcome (net_udpNC_MChandler * net_udpNC_consumer) :=
  '(header, _) ← fetch_header buf;
  if negb (isUDPNCHeader header) then Ok (m, c)
  else if 1 <? enc_packet_count header then MC_process_encoded m c buf bytes_transferred
  else
    '(other, _) ← NCM_deserialize (NCM_default junk) buf bytes_transferred;
    m ← putOtherUDPNCMessage m other;
    Ok (mc_count m 0 1 0 0 0, c).
End mchandler.

(** *** net_udpNC_handler *)

Record net_udpNC_handler := mkNC {
  nc_udp : net_udp_handler;                      (* the base class *)
  mchandler : net_udpNC_MChandler;
  consumer : net_udpNC_consumer;
  send_ordering : list (Z * Z);                  (* std::map<id_t, uint8_t> *)
  pkt_gen_count : Z;                             (* size_t *)
  timeout_keepalive : Z;
  packets_MChandler_handover : nat }.

Definition NC_new (local : IPaddr) : net_udpNC_handler :=
  mkNC (UdpHandler_new local) (MC_new local) Consumer_new [] 0 0 0.

Definition with_parts (h : net_udpNC_handler) (u : net_udp_handler) (m : net_udpNC_MChandler)
    (c : net_udpNC_consumer) : net_udpNC_handler :=
  mkNC u m c (send_ordering h) (pkt_gen_count h) (timeout_keepalive h)
       (packets_MChandler_handover h).

(** What the handler asks the socket to send. *)
Record datagram := mkDgram { dg_bytes : list byte; dg_dest : IPaddr }.

(** The message [send_helper] builds for [msg] ([None] is [NULL]), as number [ordering] of
    host [myID], [count] the packets made before. *)
Definition make_packet (junk : UDPNCHeader) (msg : option (list byte)) (myID count ordering : Z)
    (to_addr : IPaddr) : outcome UDPNCMessage :=
  let '(h, _) := build (factory_make junk GENSIZE 0 0) in
  let message := NCM_of_header h in
  message ← match msg with
            | Some (b :: bs) => Ok (putMessage message (b :: bs))
            | _ => if negb (getMessageSize message =? 0) then Fail LogicError else Ok message
            end;
  let message := putPacketId message (generatePacketId myID (to_int32 (u32 count))) true in
  let message := putOrdering message ordering in
  let message := putFromId message myID in
  Ok (putToAddr message to_addr).

(** [send_helper (msg, n, remote_endpoint)], the socket open *)
Definition send_helper (junk : UDPNCHeader) (myID : Z) (h : net_udpNC_handler)
    (msg : option (list byte)) (remote_endpoint : IPaddr)
    : outcome (net_udpNC_handler * datagram) :=
  let to_addr := IPaddr_make (host remote_endpoint) (port remote_endpoint) in
  let id := resolveHostID to_addr in
  let so := if has id (send_ordering h) then send_ordering h else set id 0 (send_ordering h) in
  let ordering := default 0 (find id so) in
  let so := set id (u8 (ordering + 1)) so in
  message ← make_packet junk msg myID (pkt_gen_count h) ordering to_addr;
  m ← putOtherUDPNCMessage (mchandler h) message;
  '(buf, sending_len) ← NCM_serialize message (replicate (Z.to_nat (NCM_sizeOf message)) Byte.x00);
  Ok (mkNC (nc_udp h) m (consumer h) so (u64 (pkt_gen_count h + 1)) (timeout_keepalive h)
           (packets_MChandler_handover h),
      mkDgram (take sending_len buf) remote_endpoint).

(** [send]: a keep-alive packet goes first when the last one is older than
    [keepalive], which is 10 * MS_PER_STEP. *)
Definition NC_send (junk : UDPNCHeader) (now keepalive myID : Z) (h : net_udpNC_handler)
    (msg : list byte) (remote_endpoint : IPaddr)
    : outcome (net_udpNC_handler * list datagram) :=
  '(h, pre) ← (
     if timeout_keepalive h + keepalive <? now then
       '(h, d) ← send_helper junk myID h None remote_endpoint;
       Ok (mkNC (nc_udp h) (mchandler h) (consumer h) (send_ordering h) (pkt_gen_count h) now
                (packets_MChandler_handover h), [d])
     else Ok (h, []));
  '(h, d) ← send_helper junk myID h (Some msg) remote_endpoint;
  Ok (h, pre ++ [d]).

Section handler.
Context `{Crc32} `{Rlnc} (junk : UDPNCHeader).

(** [process_input] of a datagram from [remote_endpoint]; the result of [deserialize]
    is not looked at. *)
Definition NC_process_input (h : net_udpNC_handler) (buf : list byte)
    (remote_endpoint : IPaddr) (bytes_transferred : nat) : outcome net_udpNC_handler :=
  '(header, _) ← fetch_header buf;
  if negb (isUDPNCHeader header) then Ok h
  else if 1 <? enc_packet_count header then
    '(m, c) ← MC_process_encoded junk (mchandler h) (consumer h) buf bytes_transferred;
    Ok (mkNC (nc_udp h) m c (send_ordering h) (pkt_gen_count h) (timeout_keepalive h)
             (S (packets_MChandler_handover h)))
  else
    '(input_message, _) ← NCM_deserialize (NCM_default junk) buf bytes_transferred;
    m ← putOtherUDPNCMessage (mchandler h) input_message;
    let remote_addr := IPaddr_make (host remote_endpoint) (port remote_endpoint) in
    Ok (with_parts h (nc_udp h) m
          (Consumer_UDPNC_msg_received (consumer h) input_message remote_addr)).

Context {N : Type} `{AbstractNetUdp N}.

(** [handoff_input]: [getMessage ()] is a [c_str ()], which ends with a NUL. *)
Definition handoff_input (now : Z) (h : net_udpNC_handler) (nu : N) (m : UDPNCMessage)
    (socket_addr : IPaddr) : outcome (net_udpNC_handler * N) :=
  fromhost ← getFirstFromId m;
  '(u, nu) ← UdpHandler_process_input now (nc_udp h) nu (msg m ++ [Byte.x00])
               (Z.to_nat (getMessageSize m)) socket_addr fromhost;
  Ok (with_parts h u (mchandler h) (consumer h), nu).

(** The effects of the consumer on the handlers. *)
Definition apply_event (now : Z) (s : net_udpNC_handler * N) (e : consumer_event)
    : outcome (net_udpNC_handler * N) :=
  let '(h, nu) := s in
  match e with
  | ClearPacketPool =>
      Ok (with_parts h (nc_udp h) (MC_clearPacketPool (mchandler h)) (consumer h), nu)
  | Handoff m sa => handoff_input now h nu m sa
  end.

Fixpoint apply_events (now : Z) (s : net_udpNC_handler * N) (evs : list consumer_event)
    : outcome (net_udpNC_handler * N) :=
  match evs with
  | [] => Ok s
  | e :: evs => s ← apply_event now s e; apply_events now s evs
  end.

(** One turn of the consumer's thread on the whole handler; [None] when it waits. *)
Definition consumer_turn (now : Z) (h : net_udpNC_handler) (nu : N) (msg : UDPNCMessage)
    : option (outcome (net_udpNC_handler * N)) :=
  match consume_turn (getPublicIPaddr nu) (consumer h) msg with
  | None => None
  | Some r =>
      Some ('(c, _, evs) ← r;
            apply_events now (with_parts h (nc_udp h) (mchandler h) c, nu) evs)
  end.

(** [tick] of the handler *)
Definition NC_tick (h : net_udpNC_handler) : net_udpNC_handler :=
  with_parts h (nc_udp h) (MC_tick (mchandler h)) (consumer h).

(** [close]: the threads are joined. *)
Definition NC_close (h : net_udpNC_handler) : net_udpNC_handler :=
  let u := nc_udp h in
  with_parts h (mkUH false (local_endpoint u) (remote_ids u) (remote_addrs u)
                     (remote_ids_IPs u) (uh_packets_received u))
             (mchandler h) (Consumer_close (consumer h)).
End handler.

(** *** Lemmas: the packets a handler makes *)

Lemma to_int32_inj a b : fits 32 a → fits 32 b → u64 (to_int32 a) = u64 (to_int32 b) → a = b.
Proof.
  unfold fits, to_int32, wrap.
  change (2 ^ 32) with 4294967296. change (2 ^ 31) with 2147483648.
  change (2 ^ 64) with 18446744073709551616. intros Ha Hb.
  destruct (Z.ltb_spec a 2147483648), (Z.ltb_spec b 2147483648); Z.div_mod_to_equations; lia.
Qed.

(** The id of the packet number [k] of host [id] *)
Definition packet_id (id k : Z) : Z := generatePacketId id (to_int32 (u32 k)).

Lemma packet_id_inj id j k : fits 32 j → fits 32 k → packet_id id j = packet_id id k → j = k.
Proof.
  intros Hj Hk E. apply generatePacketId_seq in E. rewrite (wrap_id 32 j), (wrap_id 32 k) in E by done.
  by apply to_int32_inj.
Qed.

(** [m] is the packet number [k] of host [id], the [o]-th to [a]. *)
Record made (id k o : Z) (a : IPaddr) (bs : list byte) (m : UDPNCMessage) : Prop := mk_made {
  made_wf : NCM_wf m;
  made_pid : pkt_ids m = [packet_id id k];
  made_from : from_ids m = [id];
  made_to : to_addrs m = [a];
  made_msg : msg m = bs;
  made_ordering : getOrdering m = u8 o;
  made_sock : socket_addr m = IPaddr_null }.

Definition payload (msg : option (list byte)) : list byte := default [] msg.

Lemma make_packet_ok junk bs id k o a :
  header_valid junk → Z.of_nat (length (payload bs)) < 2 ^ 24 → fits 64 id → IPaddr_valid a →
  ∃ m, make_packet junk bs id k (u8 o) a = Ok m ∧ made id k o a (payload bs) m.
Proof.
  intros Hj Hl Hid Ha. unfold make_packet.
  assert (Hf : header_valid (f_header (factory_make junk GENSIZE 0 0))).
  { destruct Hj as (? & ? & ? & ? & ? & ? & ? & ?). unfold header_valid. cbn -[wrap].
    splits; first [done | apply wrap_fits; lia]. }
  destruct (build_ok _ Hf) as (Hv & Hs & _).
  assert (Hz : enc_packet_count (fst (build (factory_make junk GENSIZE 0 0))) = 0
               ∧ packetsize (fst (build (factory_make junk GENSIZE 0 0))) = 0) by done.
  destruct (build _) as [h f]. cbn [fst] in *. destruct Hz as [Hz1 Hz2].
  set (m0 := match bs with Some (b :: bs) => _ | _ => _ end).
  assert (E0 : ∃ m1, m0 = Ok m1 ∧ m1 = mkNCM (header m1) [] [] [] (payload bs) 0 IPaddr_null
    ∧ header_valid (header m1) ∧ isUDPNCHeader (header m1) = true
    ∧ packetsize (header m1) = Z.of_nat (length (payload bs))).
  { unfold m0, getMessageSize. cbn [header NCM_of_header].
    destruct bs as [[|b bs]|]; rewrite ?Hz2; (eexists; splits; [reflexivity|reflexivity| | |]);
      cbn [header NCM_of_header putMessage with_msg]; try done.
    - destruct Hv as (? & ? & ? & ? & ? & ? & ? & ?). unfold header_valid.
      cbn -[wrap]. splits; first [done | apply wrap_fits; lia].
    - cbn [packetsize set_packetsize payload default] in *. apply wrap_id. split; [lia|done]. }
  destruct E0 as (m1 & -> & E1 & Hv1 & Hs1 & Hp1). rewrite bind_ok. cbv zeta.
  eexists. split; [reflexivity|]. rewrite E1. cbn [header] in *.
  destruct Hv1 as (? & ? & ? & ? & ? & ? & ? & ?).
  constructor; try reflexivity.
  - constructor; cbn -[wrap generatePacketId]; try done; try (by repeat constructor).
    + unfold header_valid. cbn -[wrap]. splits; first [done | apply wrap_fits; lia].
    + constructor; [apply generatePacketId_fits|constructor].
    + by apply Forall_singleton.
    + by apply Forall_singleton.
  - unfold getOrdering. cbn -[wrap]. by rewrite wrap_wrap.
Qed.

(** *** A pool that knows only the packets of one host *)

Definition pool_of (id k : Z) (d : udpNC_decoder) : Prop :=
  Decoder_inv d ∧ ∀ p, has p (dec_pool d) = true → ∃ j, 0 ≤ j < k ∧ p = packet_id id j.

Lemma pool_add id k o a bs d m :
  pool_of id k d → fits 32 k → made id k o a bs m →
  ∃ d', Decoder_addUDPNCMessage d m = Ok d' ∧ pool_of id (k + 1) d'.
Proof.
  intros [Hd Hp] Hk Hm. pose proof (Decoder_add_spec d m Hd (made_wf _ _ _ _ _ _ Hm)) as Hs.
  pose proof (made_pid _ _ _ _ _ _ Hm) as Hid.
  destruct (Decoder_addUDPNCMessage d m) as [d'|f].
  - destruct Hs as [Hi Hs]. exists d'. split; [done|]. split; [done|].
    intros p Hh. destruct (poolable m).
    + destruct Hs as (q & Hq & Hpool & _). rewrite Hid in Hq. injection Hq as <-.
      unfold has in Hh. rewrite Hpool, find_set in Hh.
      destruct (Z.eqb_spec p (packet_id id k)) as [Ep|].
      * exists k. split; [unfold fits in Hk; lia|done].
      * destruct (Hp p Hh) as (j & Hj & ->). exists j. split; [lia|done].
    + destruct Hs as [Hpool _]. rewrite Hpool in Hh.
      destruct (Hp p Hh) as (j & Hj & ->). exists j. split; [lia|done].
  - destruct Hs as (_ & q & st & _ & Hq & Hf & _). rewrite Hid in Hq. injection Hq as <-.
    destruct (Hp (packet_id id k)) as (j & Hj & E); [unfold has; by rewrite Hf|].
    apply packet_id_inj in E; [lia|done|unfold fits in *; lia].
Qed.

(** *** Sending *)

(** The sender made [k] packets, all to [a], and pools nothing else. *)
Record sender_at (id k : Z) (a : IPaddr) (h : net_udpNC_handler) : Prop := mk_sender {
  sa_count : pkt_gen_count h = k;
  sa_ordering : default 0 (find (resolveHostID a) (send_ordering h)) = u8 k;
  sa_pool : pool_of id k (mc_decoder (mchandler h)) }.

Definition plain (a : IPaddr) : IPaddr := IPaddr_make (host a) (port a).

Lemma send_helper_ok junk id k h bs remote :
  header_valid junk → Z.of_nat (length (payload bs)) < 2 ^ 24 → fits 64 id → fits 32 k →
  sender_at id k (plain remote) h →
  ∃ h' m, send_helper junk id h bs remote = Ok (h', mkDgram (NCM_wire m) remote)
  ∧ made id k k (plain remote) (payload bs) m ∧ sender_at id (k + 1) (plain remote) h'
  ∧ timeout_keepalive h' = timeout_keepalive h.
Proof.
  intros Hj Hl Hid Hk [Hc Ho Hp]. unfold send_helper. cbv zeta.
  fold (plain remote). set (rid := resolveHostID (plain remote)) in *.
  set (so := if has rid (send_ordering h) then _ else _).
  assert (Hso : default 0 (find rid so) = u8 k).
  { unfold so, has. destruct (find rid (send_ordering h)) eqn:E; [by rewrite E|].
    by rewrite find_set_eq. }
  rewrite Hso, Hc.
  destruct (make_packet_ok junk bs id k k (plain remote)) as (m & -> & Hm);
    [done|done|done|apply IPaddr_make_valid|].
  rewrite bind_ok. unfold putOtherUDPNCMessage.
  destruct (pool_add id k k (plain remote) (payload bs) (mc_decoder (mchandler h)) m)
    as (d' & -> & Hp'); [done|done|done|].
  rewrite !bind_ok. pose proof (made_wf _ _ _ _ _ _ Hm) as Hw.
  rewrite (single_length m (packet_id id k)) by (done || apply Hm).
  rewrite Nat2Z.id, NCM_serialize_wire, bind_ok by (done || by rewrite length_replicate).
  cbn beta iota. rewrite take_app_len by done.
  eexists _, m. splits; [done|done| |done].
  unfold fits in Hk. constructor; cbn [pkt_gen_count send_ordering mchandler mc_decoder with_decoder].
  - apply wrap_id. unfold fits. lia.
  - rewrite find_set_eq. cbn [default]. unfold wrap. by rewrite Zplus_mod_idemp_l.
  - done.
Qed.

(** The messages of a list of sends, keep-alive packets included, are numbered from
    [k]. *)
Fixpoint numbered (id k : Z) (a : IPaddr) (ms : list UDPNCMessage) : Prop :=
  match ms with
  | [] => True
  | m :: ms => (∃ bs, made id k k a bs m) ∧ numbered id (k + 1) a ms
  end.

Lemma numbered_app id k a ms ms' :
  numbered id k a (ms ++ ms') ↔ numbered id k a ms ∧ numbered id (k + Z.of_nat (length ms)) a ms'.
Proof.
  revert k. induction ms as [|m ms IH]; intros k; cbn [app numbered length].
  - rewrite Z.add_0_r. tauto.
  - rewrite IH. replace (k + 1 + Z.of_nat (length ms)) with (k + Z.of_nat (S (length ms))) by lia.
    tauto.
Qed.

(** Sends to one destination, each with its time and its content. *)
Fixpoint send_all (junk : UDPNCHeader) (keepalive id : Z) (h : net_udpNC_handler)
    (l : list (Z * list byte)) (remote : IPaddr) : outcome (net_udpNC_handler * list datagram) :=
  match l with
  | [] => Ok (h, [])
  | (now, bs) :: l =>
      '(h, ds) ← NC_send junk now keepalive id h bs remote;
      '(h, ds') ← send_all junk keepalive id h l remote;
      Ok (h, ds ++ ds')
  end.

Definition contents (ms : list UDPNCMessage) : list (list byte) :=
  filter (λ bs, bs ≠ []) (msg <$> ms).

Lemma NC_send_ok junk now ka id k h bs remote :
  header_valid junk → Z.of_nat (length bs) < 2 ^ 24 → bs ≠ [] → fits 64 id →
  fits 32 (k + 1) → 0 ≤ k → sender_at id k (plain remote) h →
  ∃ h' ms, NC_send junk now ka id h bs remote = Ok (h', (λ m, mkDgram (NCM_wire m) remote) <$> ms)
  ∧ numbered id k (plain remote) ms ∧ (length ms ≤ 2)%nat ∧ contents ms = [bs]
  ∧ sender_at id (k + Z.of_nat (length ms)) (plain remote) h'.
Proof.
  intros Hj Hl Hne Hid Hk Hk0 Hs. unfold NC_send, contents.
  destruct (_ <? now).
  - destruct (send_helper_ok junk id k h None remote) as (h1 & m1 & -> & H1 & Hs1 & _);
      [done|cbn; lia|done|unfold fits in *; lia|done|].
    rewrite !bind_ok. cbn beta iota. set (h1' := mkNC _ _ _ _ _ _ _).
    destruct (send_helper_ok junk id (k + 1) h1' (Some bs) remote) as (h2 & m2 & -> & H2 & Hs2 & _);
      [done|done|done|done|by destruct Hs1|].
    rewrite !bind_ok. exists h2, [m1; m2]. cbn [numbered fmap list_fmap length].
    splits; [done|by eexists|by eexists|done|lia| |by replace (k + Z.of_nat 2) with (k + 1 + 1) by lia].
    rewrite (made_msg _ _ _ _ _ _ H1), (made_msg _ _ _ _ _ _ H2). cbn [payload default].
    by rewrite filter_cons_False, filter_cons_True by (done || (intros Hx; by apply Hx)).
  - rewrite bind_ok. cbn beta iota.
    destruct (send_helper_ok junk id k h (Some bs) remote) as (h2 & m2 & -> & H2 & Hs2 & _);
      [done|done|done|unfold fits in *; lia|done|].
    rewrite !bind_ok. exists h2, [m2]. cbn [numbered fmap list_fmap length].
    splits; [done|by eexists|done|lia| |done].
    rewrite (made_msg _ _ _ _ _ _ H2). by rewrite filter_cons_True.
Qed.

Lemma contents_app ms ms' : contents (ms ++ ms') = contents ms ++ contents ms'.
Proof. unfold contents. by rewrite fmap_app, filter_app. Qed.

Lemma send_all_ok junk ka id k h l remote :
  header_valid junk → fits 64 id → 0 ≤ k → k + 2 * Z.of_nat (length l) < 2 ^ 32 →
  Forall (λ p, Z.of_nat (length (snd p)) < 2 ^ 24 ∧ snd p ≠ []) l →
  sender_at id k (plain remote) h →
  ∃ h' ms, send_all junk ka id h l remote
           = Ok (h', (λ m, mkDgram (NCM_wire m) remote) <$> ms)
  ∧ numbered id k (plain remote) ms ∧ contents ms = snd <$> l
  ∧ (length ms ≤ 2 * length l)%nat.
Proof.
  intros Hj Hid Hk0 Hk Hl. revert k h Hk0 Hk. induction Hl as [|[now bs] l [H1 H2] Hl IH];
    intros k h Hk0 Hk Hs.
  { exists h, []. splits; done. }
  cbn [send_all length] in *.
  destruct (NC_send_ok junk now ka id k h bs remote) as (h1 & ms1 & -> & N1 & L1 & C1 & S1);
    [done|done|done|done|unfold fits; lia|done|done|].
  rewrite bind_ok. cbn beta iota.
  destruct (IH (k + Z.of_nat (length ms1)) h1) as (h' & ms2 & -> & N2 & C2 & L2); [lia|lia|done|].
  rewrite bind_ok. exists h', (ms1 ++ ms2).
  splits; [by rewrite fmap_app|by rewrite numbered_app|by rewrite contents_app, C1, C2|].
  rewrite length_app. lia.
Qed.

(** *** Receiving *)

Section receive.
Context `{Crc32} `{RlncLaws} (junk : UDPNCHeader).

(** Datagrams from [from], one after the other; [stale] is what the receive buffer
    holds after each of them. *)
Fixpoint receive_dgs (h : net_udpNC_handler) (from : IPaddr) (stale : list byte)
    (l : list (list byte)) : outcome net_udpNC_handler :=
  match l with
  | [] => Ok h
  | dg :: l =>
      h ← NC_process_input junk h (dg ++ stale) from (length dg);
      receive_dgs h from stale l
  end.

Lemma NC_process_input_packet h id k o a bs m from stale :
  made id k o a bs m → Z.of_nat (length (NCM_wire m)) < 2 ^ 64 →
  (length (NCM_wire m) > 8)%nat →
  NC_process_input junk h (NCM_wire m ++ stale) from (length (NCM_wire m))
  = (mc ← putOtherUDPNCMessage (mchandler h) m;
     Ok (with_parts h (nc_udp h) mc
           (Consumer_UDPNC_msg_received (consumer h) m (plain from)))).
Proof.
  intros Hm H64 _. pose proof (made_wf _ _ _ _ _ _ Hm) as Hw.
  unfold NC_process_input.
  assert (Hf : fetch_header (NCM_wire m ++ stale)
               = Ok (header m, drop 8 (NCM_wire m ++ stale))).
  { unfold NCM_wire. rewrite <- !app_assoc, fetch_header_bytes by apply Hw.
    by rewrite drop_app_len by (by rewrite length_header_bytes). }
  rewrite Hf, bind_ok. cbn beta iota. rewrite (wf_start _ Hw). cbn [negb].
  pose proof (wf_pids _ Hw) as Hc. rewrite (made_pid _ _ _ _ _ _ Hm) in Hc. cbn in Hc.
  rewrite <- Hc. cbn [Z.ltb Z.compare Pos.compare Pos.compare_cont].
  rewrite NCM_deserialize_wire, bind_ok by (done || lia). cbn beta iota.
  assert (Hmm : NCM_merge (NCM_default junk) m = m).
  { unfold NCM_merge, NCM_default. cbn. rewrite <- (made_sock _ _ _ _ _ _ Hm). by destruct m. }
  by rewrite Hmm.
Qed.

Lemma receive_dgs_ok id k a ms h from stale :
  numbered id k a ms → 0 ≤ k → k + Z.of_nat (length ms) ≤ 2 ^ 32 →
  Forall (λ m, Z.of_nat (length (NCM_wire m)) < 2 ^ 64) ms →
  cq_active (msg_queue (consumer h)) = true →
  pool_of id k (mc_decoder (mchandler h)) →
  ∃ h', receive_dgs h from stale (NCM_wire <$> ms) = Ok h'
  ∧ consumer h' = set_queue (consumer h)
      (mkCQ (queue_ (msg_queue (consumer h)) ++ ((λ m, set_socket_addr m (plain from)) <$> ms)) true)
  ∧ nc_udp h' = nc_udp h.
Proof.
  revert k h. induction ms as [|m ms IH]; intros k h Hn Hk0 Hk Hl Ha Hp.
  { exists h. splits; [done| |done]. rewrite app_nil_r, <- Ha.
    by destruct h as [u mc [r [q ac] run] so pc tk hv]. }
  destruct Hn as [[bs Hm] Hn]. apply Forall_cons in Hl as [Hl1 Hl]. cbn [length] in Hk.
  cbn [fmap list_fmap receive_dgs].
  pose proof (made_wf _ _ _ _ _ _ Hm) as Hw.
  rewrite (NC_process_input_packet h id k k a bs m); [|done|done|].
  2: { pose proof (length_NCM_wire m Hw) as Hlen. destruct (wf_header _ Hw) as (_ & _ & _ & _ & ? & ? & _).
       unfold fits in *. lia. }
  unfold putOtherUDPNCMessage.
  destruct (pool_add id k k a bs (mc_decoder (mchandler h)) m) as (d' & -> & Hp');
    [done|unfold fits; lia|done|].
  rewrite !bind_ok. set (h1 := with_parts h _ _ _).
  destruct (IH (k + 1) h1) as (h' & E & Hc & Hu); [done|lia|lia|done| |done|].
  { unfold h1. cbn. unfold push. by rewrite Ha. }
  exists h'. rewrite E. splits; [done| |by rewrite Hu].
  rewrite Hc. unfold h1, Consumer_UDPNC_msg_received, push. cbn [consumer with_parts].
  rewrite Ha. cbn [negb queue_ msg_queue set_queue].
  by rewrite <- app_assoc.
Qed.
End receive.

Lemma numbered_in_order id k a ms sa :
  numbered id k a ms → 0 ≤ k →
  in_order (Some (u8 (k - 1))) ((λ p, getOrdering (fst p)) <$> ((λ m, (set_socket_addr m sa, sa)) <$> ms)).
Proof.
  revert k. induction ms as [|m ms IH]; intros k Hn Hk; [done|].
  destruct Hn as [[bs Hm] Hn]. cbn [fmap list_fmap in_order fst]. split.
  - exists 1. split; [lia|].
    change (getOrdering (set_socket_addr m sa)) with (getOrdering m).
    rewrite (made_ordering _ _ _ _ _ _ Hm). unfold wrap. rewrite Zplus_mod_idemp_l.
    f_equal. lia.
  - change (getOrdering (set_socket_addr m sa)) with (getOrdering m).
    rewrite (made_ordering _ _ _ _ _ _ Hm).
    replace k with (k + 1 - 1) by lia. apply IH; [|lia].
    by replace (k + 1 - 1 + 1) with (k + 1) by lia.
Qed.

Lemma in_order_first p l : in_order (Some p) l → in_order None l.
Proof. by destruct l as [|o l]; [|intros [_ H]]. Qed.

Lemma made_packet_of me id k o a bs m sa :
  made id k o a bs m → IPaddr_eqb me a = true → packet_of me id (set_socket_addr m sa).
Proof.
  intros Hm Ha. constructor; cbn [set_socket_addr pkt_ids from_ids to_addrs].
  - by rewrite (made_pid _ _ _ _ _ _ Hm).
  - by rewrite (made_from _ _ _ _ _ _ Hm).
  - exists a, []. by rewrite (made_to _ _ _ _ _ _ Hm).
  - change (getOrdering (set_socket_addr m sa)) with (getOrdering m).
    rewrite (made_ordering _ _ _ _ _ _ Hm). apply wrap_fits. lia.
Qed.

Lemma numbered_packets me id k a ms sa :
  numbered id k a ms → IPaddr_eqb me a = true →
  Forall (λ p, packet_of me id (fst p)) ((λ m, (set_socket_addr m sa, sa)) <$> ms).
Proof.
  intros Hn Ha. revert k Hn. induction ms as [|m ms IH]; intros k Hn; cbn [fmap list_fmap].
  - constructor.
  - destruct Hn as [[bs Hm] Hn]. constructor; [by eapply made_packet_of|by eapply IH].
Qed.

Lemma numbered_bound id k a ms :
  numbered id k a ms → Forall (λ m, Z.of_nat (length (NCM_wire m)) < 2 ^ 64) ms.
Proof.
  revert k. induction ms as [|m ms IH]; intros k Hn; [constructor|].
  destruct Hn as [[bs Hm] Hn]. constructor; [|by eapply IH].
  pose proof (made_wf _ _ _ _ _ _ Hm) as Hw. rewrite length_NCM_wire by done.
  destruct (wf_header _ Hw) as (_ & _ & _ & _ & He & Hs & _). unfold fits in *. lia.
Qed.

Section end_to_end.
Context `{Crc32} `{RlncLaws}.

(** C29: End to end, without loss. A fresh handler sends any number of contents to one
    destination, with keep-alive packets wherever the clock asks for them; the
    destination, fresh too, receives the datagrams in order. Nothing fails (all packet
    ids differ, all buffers suffice) and the consumer hands over exactly the contents
    sent, each once and in order, the keep-alive packets being the empty ones. *)
Theorem nc_stream_end_to_end junk junk' ka id l remote from me stale :
  header_valid junk → fits 64 id → id ≠ NET_ID_UNASSIGNED →
  2 * Z.of_nat (length l) < 2 ^ 32 →
  Forall (λ p, Z.of_nat (length (snd p)) < 2 ^ 24 ∧ snd p ≠ []) l →
  IPaddr_eqb me (plain remote) = true →
  ∃ hA dgs hB c evs,
    send_all junk ka id (NC_new from) l remote = Ok (hA, dgs)
    ∧ receive_dgs junk' (NC_new me) from stale (dg_bytes <$> dgs) = Ok hB
    ∧ consume (S (length dgs)) me (consumer hB) (NCM_default junk') = Ok (c, evs)
    ∧ filter (λ bs, bs ≠ []) ((λ p, msg (fst p)) <$> handoffs evs) = snd <$> l.
Proof.
  intros Hj Hid Hne Hk Hl Hme.
  destruct (send_all_ok junk ka id 0 (NC_new from) l remote) as (hA & ms & -> & Hn & Hc & Hlen);
    [done|done|lia|lia|done| |].
  { constructor; [done|done|]. split; [apply Decoder_new_inv|done]. }
  destruct (receive_dgs_ok junk' id 0 (plain remote) ms (NC_new me) from stale)
    as (hB & E & HcB & _); [done|lia|lia|by eapply numbered_bound|done| |].
  { split; [apply Decoder_new_inv|done]. }
  exists hA, ((λ m, mkDgram (NCM_wire m) remote) <$> ms), hB.
  rewrite <- list_fmap_compose. change (dg_bytes ∘ _) with NCM_wire.
  rewrite E, length_fmap, HcB.
  rewrite (consume_process_all me _ ((λ m, set_socket_addr m (plain from)) <$> ms));
    [|done|done|done|rewrite length_fmap; lia].
  rewrite <- list_fmap_compose.
  change ((λ m, (m, socket_addr m)) ∘ (λ m, set_socket_addr m (plain from)))
    with (λ m, (set_socket_addr m (plain from), plain from)).
  set (c0 := set_queue (set_queue _ _) _).
  destruct (process_stream me id ((λ m, (set_socket_addr m (plain from), plain from)) <$> ms) c0)
    as (c & evs & Ep & Hh & _); [done|by eapply numbered_packets|done| |].
  { eapply in_order_first, (numbered_in_order id 0); [done|lia]. }
  exists c, evs. splits; [done|done|exact Ep|].
  rewrite Hh, <- list_fmap_compose. exact Hc.
Qed.
End end_to_end.

(** *** A lost packet, from the coded datagram to the network manager's queue *)

Section recovered.
Context `{Crc32} `{RlncLaws}.

Lemma coded_to_me hd g k1 k2 m1 m2 i a mc :
  (i < 2)%nat → to_addrs (pick (1 - i) m1 m2) = [a] →
  IPaddr_eqb a (mc_local_endpoint mc) = true →
  toAddrForMe mc (coded hd g k1 k2 m1 m2) = true.
Proof.
  intros Hi Ha He. unfold toAddrForMe. cbn [coded to_addrs]. rewrite existsb_app.
  assert (i = 0 ∨ i = 1)%nat as [-> | ->] by lia; cbn in Ha; rewrite Ha; cbn [existsb]; rewrite He;
    [by rewrite orb_true_r|done].
Qed.

(** A coded datagram one packet of which is pooled: the other is queued at the
    consumer, with the null address. *)
Lemma coded_datagram_recovers junk h hd g k1 k2 m1 m2 i a a' from stale :
  codable k1 m1 → codable k2 m2 → header_valid hd → isUDPNCHeader hd = true →
  (i < 2)%nat → innovative g i →
  to_addrs (pick (1 - i) m1 m2) = [a] →
  IPaddr_eqb a (mc_local_endpoint (mchandler h)) = true →
  let d := mc_decoder (mchandler h) in
  let c := coded hd g k1 k2 m1 m2 in
  Decoder_inv d → NC_packets d = [] →
  find (pick i k1 k2) (dec_pool d) = Some (set_socket_addr (pick i m1 m2) a') →
  find (pick (1 - i) k1 k2) (dec_pool d) = None →
  ∃ h', NC_process_input junk h (NCM_wire c ++ stale) from (length (NCM_wire c)) = Ok h'
  ∧ consumer h' = Consumer_UDPNC_msg_received (consumer h)
                    (set_socket_addr (pick (1 - i) m1 m2) IPaddr_null) IPaddr_null
  ∧ nc_udp h' = nc_udp h
  ∧ dec_pool (mc_decoder (mchandler h')) = erase (pick i k1 k2) (dec_pool d).
Proof.
  intros C1 C2 Hv Hs Hi Hg Hto Hme d c Hd Hq Hf Hn.
  pose proof (coded_wf hd g k1 k2 m1 m2 C1 C2 Hv Hs) as Hw. fold c in Hw.
  assert (Hlen : (length (NCM_wire c) < 1000)%nat).
  { apply Nat2Z.inj_lt. rewrite length_NCM_wire by done. unfold c, coded.
    cbn [header enc_packet_count packetsize set_packetsize set_count].
    rewrite write_payload_length. pose proof payload_size_bound.
    assert (MAX_PACKET_SIZE = 500)%nat by done.
    rewrite !wrap_id by (unfold fits; lia). lia. }
  unfold NC_process_input.
  assert (Hfh : fetch_header (NCM_wire c ++ stale) = Ok (header c, drop 8 (NCM_wire c ++ stale))).
  { unfold NCM_wire. rewrite <- !app_assoc, fetch_header_bytes by apply Hw.
    by rewrite drop_app_len by (by rewrite length_header_bytes). }
  rewrite Hfh, bind_ok. cbn beta iota. rewrite (wf_start _ Hw). cbn [negb].
  change (enc_packet_count (header c)) with 2. cbn [Z.ltb Z.compare Pos.compare Pos.compare_cont].
  unfold MC_process_encoded.
  rewrite NCM_deserialize_wire, bind_ok by (done || lia). cbn beta iota zeta.
  change (NCM_merge (NCM_default junk) c) with c.
  match goal with |- context [toAddrForMe ?mc c] =>
    replace (toAddrForMe mc c) with true
      by (symmetry; by apply (coded_to_me hd g k1 k2 m1 m2 i a mc)) end.
  unfold putOtherUDPNCMessage. cbn [mc_count mc_decoder].
  pose proof (Decoder_add_spec d c Hd Hw) as Hadd.
  change (poolable c) with false in Hadd. change (pkt_ids c) with [k1; k2] in Hadd.
  fold d. destruct (Decoder_addUDPNCMessage d c) as [d1|]; cycle 1.
  { by destruct Hadd as (_ & k & st & Hf' & _). }
  destruct Hadd as (Hd1 & Hp1 & Hq1). rewrite Hq in Hq1. rewrite !bind_ok.
  cbn [with_decoder mc_decoder].
  destruct (produce_pair junk d1 hd g k1 k2 m1 m2 IPaddr_null a' i [])
    as (d2 & E & Hq2 & Hp2 & _); try done; [by rewrite Hp1..|].
  rewrite E, bind_ok. cbn beta iota. rewrite bind_ok.
  eexists. splits; [done|done|done|]. cbn. by rewrite Hp2, Hp1.
Qed.
End recovered.

Section events.
Context {N : Type} `{AbstractNetUdp N}.

Lemma apply_events_none now h (n : N) evs : handoffs evs = [] →
  ∃ h', apply_events now (h, n) evs = Ok (h', n) ∧ nc_udp h' = nc_udp h.
Proof.
  revert h. induction evs as [|[|m sa] evs IH]; intros h He; [by exists h| |done].
  cbn [apply_events apply_event]. rewrite bind_ok.
  destruct (IH (with_parts h (nc_udp h) (MC_clearPacketPool (mchandler h)) (consumer h)) He)
    as (h' & E & Hu). by exists h'.
Qed.

(** The single message of a turn reaches the unicast handler. *)
Lemma apply_events_one now h (n : N) evs m sa u' n' :
  handoffs evs = [(m, sa)] →
  (f ← getFirstFromId m;
   UdpHandler_process_input now (nc_udp h) n (msg m ++ [Byte.x00])
     (Z.to_nat (getMessageSize m)) sa f) = Ok (u', n') →
  ∃ h', apply_events now (h, n) evs = Ok (h', n') ∧ nc_udp h' = u'.
Proof.
  revert h. induction evs as [|[|m1 sa1] evs IH]; intros h He Hp; [done| |].
  - cbn [apply_events apply_event]. rewrite bind_ok.
    apply (IH (with_parts h (nc_udp h) (MC_clearPacketPool (mchandler h)) (consumer h)) He Hp).
  - injection He as -> -> He. cbn [apply_events apply_event]. unfold handoff_input.
    apply bind_inv in Hp as (f & -> & Hp). rewrite bind_ok, Hp, !bind_ok.
    destruct (apply_events_none now (with_parts h u' (mchandler h) (consumer h)) n' evs He)
      as (h' & E & Hu). by exists h'.
Qed.
End events.

(** A client that pools [have] but lacks [lost], number [kl], a packet of a connected host
    with VAST messages for this client, next in the order of its sender; its consumer is
    idle. *)
Record lacks (h : net_udpNC_handler) (n : net_udp) (kh kl : Z) (have lost : UDPNCMessage)
    (fs : list frame) : Prop := mk_lacks {
  la_decoder : Decoder_inv (mc_decoder (mchandler h));
  la_coded : NC_packets (mc_decoder (mchandler h)) = [];
  la_have : ∃ a, find kh (dec_pool (mc_decoder (mchandler h))) = Some (set_socket_addr have a);
  la_lost : find kl (dec_pool (mc_decoder (mchandler h))) = None;
  la_me : ∃ a, to_addrs lost = [a] ∧ IPaddr_eqb a (mc_local_endpoint (mchandler h)) = true
               ∧ IPaddr_eqb (getPublicIPaddr n) a = true;
  la_frames : msg lost = frames_bytes fs ∧ Forall (λ f, frame_ok f ∧ fr_body f ≠ []) fs;
  la_conn : has (from_of lost) (id2conn (base n)) = true ∧ unlocked n;
  la_idle : running (consumer h) = true ∧ msg_queue (consumer h) = cq_new;
  la_next : ∀ last, find (from_of lost) (recvd_ordering (consumer h)) = Some last →
              passes last (getOrdering lost) = true }.

Lemma codable_packet_of k m me a sa :
  codable k m → to_addrs m = [a] → IPaddr_eqb me a = true →
  packet_of me (from_of m) (set_socket_addr m sa).
Proof.
  intros C Ha He. destruct (cod_from _ _ C) as (f & Hf & _). unfold from_of.
  constructor; cbn [set_socket_addr pkt_ids from_ids to_addrs].
  - by rewrite (cod_id _ _ C).
  - by rewrite Hf.
  - by exists a, [].
  - apply (wf_header _ (cod_wf _ _ C)).
Qed.

Section delivery.
Context `{Crc32} `{RlncLaws}.

(** C1: End to end, with loss. The coding host sent the combination of two packets to a
    client that has one of them and lacks the other. Handling the datagram and one turn
    of the consumer's thread put the VAST messages of the lost packet, which never
    arrived, at the end of the network manager's queue, in order and under the host id
    of their sender. *)
Theorem lost_packet_delivered junk now h n hd g k1 k2 m1 m2 i from stale fs msg0 :
  codable k1 m1 → codable k2 m2 → header_valid hd → isUDPNCHeader hd = true →
  (i < 2)%nat → innovative g i →
  lacks h n (pick i k1 k2) (pick (1 - i) k1 k2) (pick i m1 m2) (pick (1 - i) m1 m2) fs →
  ∃ h1 h2 n2,
    NC_process_input junk h (NCM_wire (coded hd g k1 k2 m1 m2) ++ stale) from
      (length (NCM_wire (coded hd g k1 k2 m1 m2))) = Ok h1
    ∧ consumer_turn now h1 n msg0 = Some (Ok (h2, n2)) ∧ unlocked n2
    ∧ recv_queue (base n2) = recv_queue (base n)
        ++ ((λ f, mkNSM (from_of (pick (1 - i) m1 m2)) now (Some (frame_bytes f))) <$> fs).
Proof.
  intros C1 C2 Hv Hs Hi Hg [Hd Hq [a' Hf] Hn (a & Hto & Hmc & Hme) [Hmsg Hfs] [Hcon Hu] [Hr Hcq] Hnext].
  destruct (coded_datagram_recovers junk h hd g k1 k2 m1 m2 i a a' from stale)
    as (h1 & E1 & Hc1 & Hu1 & _); try done.
  assert (Cl : codable (pick (1 - i) k1 k2) (pick (1 - i) m1 m2))
    by (unfold pick; by destruct (_ =? 0)%nat).
  set (lost := pick (1 - i) m1 m2) in *. clearbody lost.
  set (lost' := set_socket_addr lost IPaddr_null) in *.
  destruct (cod_from _ _ Cl) as (f & Hff & Hf0).
  assert (Hfo : from_of lost = f) by (unfold from_of; by rewrite Hff).
  set (c1 := set_queue (consumer h) (mkCQ [] true)).
  destruct (process_packet (getPublicIPaddr n) (from_of lost) c1 lost' IPaddr_null)
    as (c2 & evs & E2 & Hev).
  { by apply (codable_packet_of (pick (1 - i) k1 k2) _ _ a). }
  { by rewrite Hfo. }
  assert (Hpass : match find (from_of lost) (recvd_ordering c1) with
                  | None => true
                  | Some last => (getMessageSize lost' =? 0) || passes last (getOrdering lost')
                  end = true).
  { destruct (find _ (recvd_ordering c1)) as [last|] eqn:E; [|done].
    apply orb_true_iff. right. by apply Hnext. }
  rewrite Hpass in Hev. destruct Hev as (Hh & _).
  pose proof (cod_wf _ _ Cl) as Hw. pose proof (wf_msg _ Hw) as Hml.
  destruct (frames_run_queued now IPaddr_null f (frame_bytes <$> fs) (nc_udp h1) n)
    as (u' & n' & E3 & Hu' & Hq'); [done|intros _; by rewrite <- Hfo|].
  destruct (apply_events_one now (with_parts h1 (nc_udp h1) (mchandler h1) c2) n evs lost'
              IPaddr_null u' n' Hh) as (h2 & E4 & _).
  { unfold getFirstFromId. cbn [from_ids set_socket_addr lost' nc_udp with_parts msg].
    rewrite Hff. cbn [front]. rewrite bind_ok.
    change (getMessageSize lost') with (packetsize (header lost)).
    rewrite <- Hml, Hmsg, Nat2Z.id. unfold UdpHandler_process_input.
    rewrite process_frames_run; try done.
    - rewrite length_app. pose proof (length_frames_bytes fs). lia.
    - rewrite Hmsg in Hml. rewrite Hml. destruct (wf_header _ Hw) as (_ & _ & _ & _ & _ & ? & _).
      unfold fits in *. lia. }
  exists h1, h2, n'. splits; [exact E1| |done|].
  - unfold consumer_turn, consume_turn. rewrite Hc1.
    unfold Consumer_UDPNC_msg_received, push. rewrite Hcq.
    cbn [msg_queue set_queue cq_active cq_new negb queue_ app pop running].
    rewrite Hr. change (set_queue (set_queue (consumer h) _) (mkCQ [] true)) with c1.
    change (socket_addr (set_socket_addr lost' IPaddr_null)) with IPaddr_null.
    change (set_socket_addr lost' IPaddr_null) with lost'.
    rewrite E2, !bind_ok. cbn beta iota. by rewrite E4.
  - rewrite Hq', <- list_fmap_compose. by rewrite Hfo.
Qed.
End delivery.

(** *** Witnesses *)

#[local] Existing Instance sum_crc.
#[local] Existing Instance XorCoder.
#[local] Existing Instance XorCoder_laws.

Lemma nc_stream_end_to_end_witness :
  ∃ hA dgs hB c evs,
    send_all (header nc_example) 1000 9 (NC_new (mkIPaddr 167772162 1037 0))
      [(500, [Byte.x61]); (2500, [Byte.x62; Byte.x63])] me_example = Ok (hA, dgs)
    ∧ receive_dgs (header nc_example) (NC_new me_example) (mkIPaddr 167772162 1037 0) []
        (dg_bytes <$> dgs) = Ok hB
    ∧ consume (S (length dgs)) me_example (consumer hB) (NCM_default (header nc_example)) = Ok (c, evs)
    ∧ filter (λ bs, bs ≠ []) ((λ p, msg (fst p)) <$> handoffs evs)
      = [[Byte.x61]; [Byte.x62; Byte.x63]].
Proof.
  refine (nc_stream_end_to_end (header nc_example) (header nc_example) 1000 9
            [(500, [Byte.x61]); (2500, [Byte.x62; Byte.x63])] me_example
            (mkIPaddr 167772162 1037 0) me_example [] (wf_header _ nc_example_wf) _ _ _ _ _).
  - split; [discriminate|reflexivity].
  - discriminate.
  - reflexivity.
  - repeat (apply Forall_cons_2; [split; [reflexivity|discriminate]|]). apply Forall_nil_2.
  - reflexivity.
Defined.

Definition lost_example : UDPNCMessage :=
  mkNCM (mkNCH 13 3 0 0 1 6 0 14) [77] [7] [me_example] (frames_bytes [frame_ex Byte.x61]) 0 IPaddr_null.

Lemma lost_example_codable : codable 77 lost_example.
Proof.
  assert (Hw : NCM_wf lost_example)
    by (constructor; try reflexivity; repeat (split || constructor); done).
  constructor; [exact Hw|reflexivity|exists 7; split; [reflexivity|discriminate]
    |eexists; reflexivity|vm_compute; reflexivity|apply Nat.ltb_lt; vm_compute; reflexivity].
Qed.

Definition lacking_example : net_udpNC_handler :=
  mkNC (UdpHandler_new me_example) (with_decoder (MC_new me_example) dec_example) Consumer_new
       [] 0 0 0.

Lemma lost_packet_delivered_witness :
  ∃ h1 h2 n2,
    NC_process_input (header nc_example) lacking_example
      (NCM_wire (coded (header nc_example) xor_seed 5 77 nc_example2 lost_example) ++ [])
      IPaddr_null
      (length (NCM_wire (coded (header nc_example) xor_seed 5 77 nc_example2 lost_example))) = Ok h1
    ∧ consumer_turn 3 h1 udp_example lost_example = Some (Ok (h2, n2))
    ∧ recv_queue (base n2) = [mkNSM 7 3 (Some (frame_bytes (frame_ex Byte.x61)))].
Proof.
  destruct (lost_packet_delivered (H1 := XorCoder_laws) (header nc_example) 3 lacking_example
              udp_example (header nc_example) xor_seed 5 77 nc_example2 lost_example 0 IPaddr_null []
              [frame_ex Byte.x61] lost_example nc_example2_codable lost_example_codable
              (wf_header _ nc_example_wf) eq_refl (le_S _ _ (le_n _)) I)
    as (h1 & h2 & n2 & E1 & E2 & _ & E3).
  - constructor.
    + exact dec_example_inv.
    + reflexivity.
    + exists (mkIPaddr 3 4 0). reflexivity.
    + reflexivity.
    + exists me_example. split; [reflexivity|split; reflexivity].
    + split; [reflexivity|]. apply Forall_cons_2; [|apply Forall_nil_2].
      split; [repeat split; discriminate|discriminate].
    + split; reflexivity.
    + split; reflexivity.
    + intros last E. discriminate E.
  - exists h1, h2, n2. split; [exact E1|]. split; [exact E2|exact E3].
Defined.
