(* ===== verification/Listener.v ===== *)
(** The coding host: coding_host/packet_listener.{h,cpp}. It listens to the clients'
    uncoded packets, gives them to the recoder and sends what the recoder produces to the
    two clients whose packets it combines.

    The two threads share the queue of coded messages: [Listener_process_input] is a
    whole turn of the receiving thread and [start_send_turn] one of the sending thread,
    which the mutex makes atomic on the queue. *)

From S2P Require Import Prelude Bytes StdMap Float Serial NCMessage Coding Recoder.
Local Open Scope Z_scope.

Definition BUFSIZ : nat := Z.to_nat 8192.
Definition PACKET_DEQUE_TOO_LONG : nat := 100.

Record packet_listener := mkListener {
  recoder : UDPNCrecoder;
  msgs : list UDPNCMessage;                  (* std::deque *)
  total_coded_msgs_sent : nat; total_resets : nat; recv_msgs_count : nat;
  process_msg_count : nat; total_msgstoolong_cleared : nat;
  recvfrommap_count : list (Z * Z) }.

Definition Listener_new (junk : UDPNCHeader) : packet_listener :=
  mkListener (Recoder_new junk) [] 0 0 0 0 0 [].

Definition bump_listener (l : packet_listener) (sent resets recv processed cleared : nat)
    : packet_listener :=
  mkListener (recoder l) (msgs l) (total_coded_msgs_sent l + sent) (total_resets l + resets)
    (recv_msgs_count l + recv) (process_msg_count l + processed)
    (total_msgstoolong_cleared l + cleared) (recvfrommap_count l).

Definition with_recoder (l : packet_listener) (r : UDPNCrecoder) (ms : list UDPNCMessage)
    (counts : list (Z * Z)) : packet_listener :=
  mkListener r ms (total_coded_msgs_sent l) (total_resets l) (recv_msgs_count l)
    (process_msg_count l) (total_msgstoolong_cleared l) counts.

Section listener.
Context `{Crc32} `{Rlnc} (junk : UDPNCHeader).

(** [process_input (buf, bytes_transferred)]; [g] is the encoder's random state. What
    [deserialize] returns is not looked at. *)
Definition Listener_process_input (l : packet_listener) (buf : list byte)
    (bytes_transferred : nat) (g : seed) : outcome packet_listener :=
  let l := bump_listener l 0 0 0 1 0 in
  '(header, _) ← fetch_header buf;
  if negb (isUDPNCHeader header) then Ok l
  else if 1 <? enc_packet_count header then Ok l
  else
    '(message, _) ← NCM_deserialize (NCM_default junk) buf bytes_transferred;
    from ← getFirstFromId message;
    if from =? NET_ID_UNASSIGNED then Ok l else
    if getMessageSize message =? 0 then Ok l else
    from ← getFirstFromId message;
    let counts := set from (default 0 (find from (recvfrommap_count l)) + 1)
                      (recvfrommap_count l) in
    r ← Recoder_addUDPNCMessage (recoder l) message;
    '(r, temp_msg) ← produceUDPNCMessage r g;
    Ok (with_recoder l r (msgs l ++ match temp_msg with Some m => [m] | None => [] end) counts).

(** [handle_input]: on an error nothing is processed (nor received again). *)
Definition Listener_handle_input (l : packet_listener) (error : bool) (buf : list byte)
    (bytes_transferred : nat) (g : seed) : outcome packet_listener :=
  let l := bump_listener l 0 0 1 0 0 in
  if negb error then Listener_process_input l buf bytes_transferred g else Ok l.
End listener.

(** A datagram and the endpoint it is sent to. *)
Record sent := mkSent { sent_bytes : list byte; sent_host : Z; sent_port : Z }.

(** One turn of the loop of [start_send]: nothing to do, too much to do, or one message
    sent to its two recipients. *)
Definition start_send_turn (l : packet_listener) (sendbuf : list byte)
    : outcome (packet_listener * list byte * list sent) :=
  if (length (msgs l) <? 1)%nat then Ok (l, sendbuf, []) else
  if (PACKET_DEQUE_TOO_LONG <? length (msgs l))%nat then
    Ok (bump_listener (with_recoder l (recoder l) [] (recvfrommap_count l)) 0 0 0 0 1, sendbuf, [])
  else
    message ← front (msgs l);
    let l := with_recoder l (recoder l) (tail (msgs l)) (recvfrommap_count l) in
    '(sendbuf, sendlen) ← NCM_serialize message sendbuf;
    a0 ← at_idx (to_addrs message) 0;
    a1 ← at_idx (to_addrs message) 1;
    '(bs, _) ← fetch_bytes sendlen sendbuf;
    Ok (bump_listener l 2 0 0 0 0, sendbuf,
        [mkSent bs (host a0) (port a0); mkSent bs (host a1) (port a0)]).

(** [handle_send_to]: the completion of one asynchronous send *)
Definition handle_send_to (l : packet_listener) (err aborted : bool) : packet_listener :=
  if negb err then bump_listener l 1 0 0 0 0
  else if aborted then bump_listener l 0 1 0 0 0 else l.

(** *** Lemmas *)

(** A coded message ready to be sent: two packets, an image that fits the buffer. *)
Definition sendable (m : UDPNCMessage) : Prop :=
  NCM_wf m ∧ length (to_addrs m) = 2%nat ∧ (length (NCM_wire m) ≤ BUFSIZ)%nat.

Record Listener_inv (l : packet_listener) : Prop := mk_Listener_inv {
  li_recoder : Recoder_inv (recoder l);
  li_msgs : Forall sendable (msgs l) }.

Lemma Listener_new_inv junk : header_valid junk → Listener_inv (Listener_new junk).
Proof. intros Hj. constructor; [by apply Recoder_new_inv|constructor]. Qed.

Section properties.
Context `{Crc32} `{RlncLaws} (junk : UDPNCHeader).

Lemma coded_sendable r g r' o : Recoder_inv r → produced r g r' o →
  Forall sendable (match o with Some m => [m] | None => [] end).
Proof.
  intros Hi Hp. destruct o as [c|]; [|constructor]. apply Forall_singleton.
  destruct (produced_facts r g r' (Some c) Hi Hp) as (Hw & _).
  destruct Hp as (k1 & m1 & k2 & m2 & Hhd & Hin & _ & _ & Hc & _).
  destruct Hi as [[_ Hc'] _ _]. rewrite Forall_forall in Hc'.
  assert (Hin1 : (k1, m1) ∈ packet_pool r)
    by (destruct (packet_pool r); [done|]; injection Hhd as ->; constructor).
  destruct (cod_addr _ _ (Hc' _ Hin1)) as [a1 Ha1]. destruct (cod_addr _ _ (Hc' _ Hin)) as [a2 Ha2].
  specialize (Hw c eq_refl). cbn in Ha1, Ha2. unfold sendable. splits; [done| |].
  - by rewrite Hc; cbn [coded to_addrs]; rewrite Ha1, Ha2.
  - apply Nat2Z.inj_le. rewrite length_NCM_wire by done. rewrite Hc. unfold coded.
    cbn [header enc_packet_count packetsize set_packetsize set_count].
    rewrite write_payload_length. pose proof payload_size_bound.
    assert (MAX_PACKET_SIZE = 500)%nat by done.
    rewrite !wrap_id by (unfold fits; lia). unfold BUFSIZ. lia.
Qed.

(** What a well-formed uncoded datagram does. *)
Lemma process_datagram l m stale g :
  Listener_inv l → NCM_wf m → length (pkt_ids m) = 1%nat →
  Z.of_nat (length (NCM_wire m)) < 2 ^ 64 →
  ∃ l', Listener_process_input junk l (NCM_wire m ++ stale) (length (NCM_wire m)) g = Ok l'
  ∧ Listener_inv l'
  ∧ (length (msgs l) ≤ length (msgs l') ≤ S (length (msgs l)))%nat.
Proof.
  intros [Hr Hm] Hw Hone H64. unfold Listener_process_input. cbv zeta.
  assert (Hfh : fetch_header (NCM_wire m ++ stale) = Ok (header m, drop 8 (NCM_wire m ++ stale))).
  { unfold NCM_wire. rewrite <- !app_assoc, fetch_header_bytes by apply Hw.
    by rewrite drop_app_len by (by rewrite length_header_bytes). }
  rewrite Hfh, bind_ok. cbn beta iota. rewrite (wf_start _ Hw). cbn [negb].
  destruct (Z.ltb_spec 1 (enc_packet_count (header m))).
  { eexists. splits; [done|done|cbn; lia..]. }
  rewrite NCM_deserialize_wire, bind_ok by (done || lia). cbn beta iota.
  set (m' := NCM_merge (NCM_default junk) m).
  assert (Hw' : NCM_wf m') by (destruct Hw; by constructor).
  assert (Hne : pkt_ids m' ≠ []) by (cbn; by destruct (pkt_ids m)).
  rewrite (from_singleton m'), bind_ok by done.
  destruct (_ =? NET_ID_UNASSIGNED); [eexists; splits; [done|done|cbn; lia..]|].
  destruct (_ =? 0); [eexists; splits; [done|done|cbn; lia..]|].
  rewrite bind_ok. cbn [recoder bump_listener].
  destruct (Recoder_add_spec (recoder l) m' Hr Hw' Hne) as (r1 & -> & Hr1 & _).
  rewrite bind_ok. destruct (produce_ok r1 g Hr1) as (r2 & o & -> & Hr2 & Hp).
  rewrite bind_ok. cbn beta iota. eexists. split; [done|]. split.
  - constructor; [done|]. cbn [msgs with_recoder bump_listener].
    apply Forall_app_2; [done|]. exact (coded_sendable r1 g r2 o Hr1 Hp).
  - cbn [msgs with_recoder bump_listener]. rewrite length_app. destruct o; cbn; lia.
Qed.

(** The coding host at work: datagrams received, turns of the sending thread. *)
Inductive event := Recv (m : UDPNCMessage) (stale : list byte) (g : seed) | SendTurn.

Definition event_ok (e : event) : Prop :=
  match e with
  | Recv m _ _ => NCM_wf m ∧ length (pkt_ids m) = 1%nat ∧ Z.of_nat (length (NCM_wire m)) < 2 ^ 64
  | SendTurn => True
  end.

Fixpoint run (evs : list event) (l : packet_listener) (sendbuf : list byte)
    : outcome (packet_listener * list sent) :=
  match evs with
  | [] => Ok (l, [])
  | Recv m stale g :: evs =>
      l ← Listener_handle_input junk l false (NCM_wire m ++ stale) (length (NCM_wire m)) g;
      run evs l sendbuf
  | SendTurn :: evs =>
      '(l, sendbuf, out) ← start_send_turn l sendbuf;
      '(l, out') ← run evs l sendbuf;
      Ok (l, out ++ out')
  end.

Lemma send_turn_ok l sendbuf : Listener_inv l → length sendbuf = BUFSIZ →
  ∃ l' buf' out, start_send_turn l sendbuf = Ok (l', buf', out) ∧ Listener_inv l'
  ∧ length buf' = BUFSIZ ∧ Forall (λ s, (length (sent_bytes s) ≤ BUFSIZ)%nat) out.
Proof.
  intros [Hr Hm] Hb. unfold start_send_turn.
  destruct (msgs l) as [|m ms] eqn:Em.
  { exists l, sendbuf, []. splits; [done|constructor; [done|by rewrite Em]|done|constructor]. }
  change (length (m :: ms) <? 1)%nat with false. cbn iota.
  destruct (PACKET_DEQUE_TOO_LONG <? _)%nat.
  { do 3 eexists. splits; [done|constructor; [done|constructor]|done|constructor]. }
  apply Forall_cons in Hm as [(Hw & Ha & Hl) Hm].
  cbn [front]. rewrite bind_ok. cbv zeta.
  rewrite NCM_serialize_wire, bind_ok by (done || lia). cbn beta iota.
  destruct (to_addrs m) as [|a0 [|a1 [|]]] eqn:Eto; try done.
  rewrite (at_idx_ok _ 0 a0), bind_ok, (at_idx_ok _ 1 a1), bind_ok by done.
  rewrite fetch_bytes_app, bind_ok by done. cbn beta iota. do 3 eexists.
  splits; [done|constructor; [done|exact Hm]| |].
  - rewrite length_app, length_drop. lia.
  - repeat (constructor; [done|]). constructor.
Qed.

Lemma run_ok evs l sendbuf : Listener_inv l → length sendbuf = BUFSIZ → Forall event_ok evs →
  ∃ l' out, run evs l sendbuf = Ok (l', out) ∧ Listener_inv l'
  ∧ Forall (λ s, (length (sent_bytes s) ≤ BUFSIZ)%nat) out.
Proof.
  intros Hi Hb He. revert l sendbuf Hi Hb.
  induction He as [|[m stale g|] evs He Hevs IH]; intros l sendbuf Hi Hb.
  - exists l, []. by splits.
  - destruct He as (Hw & Hone & H64). cbn [run]. unfold Listener_handle_input. cbn [negb].
    destruct (process_datagram (bump_listener l 0 0 1 0 0) m stale g) as (l1 & -> & Hi1 & _);
      [by destruct Hi|done|done|done|].
    rewrite bind_ok. by apply IH.
  - cbn [run]. destruct (send_turn_ok l sendbuf Hi Hb) as (l1 & b1 & o1 & -> & Hi1 & Hb1 & Ho1).
    rewrite bind_ok. cbn beta iota.
    destruct (IH l1 b1 Hi1 Hb1) as (l2 & o2 & -> & Hi2 & Ho2). rewrite bind_ok.
    exists l2, (o1 ++ o2). splits; [done|done|]. by apply Forall_app_2.
Qed.

(** C30: The coding host, started with empty queues and given any interleaving of
    well-formed uncoded datagrams (followed by whatever its receive buffer held before)
    and turns of its sending thread, never fails: no access outside a buffer, no
    exception; every datagram it sends fits its send buffer. *)
Theorem coding_host_safe evs sendbuf :
  header_valid junk → Forall event_ok evs → length sendbuf = BUFSIZ →
  ∃ l' out, run evs (Listener_new junk) sendbuf = Ok (l', out) ∧ Listener_inv l'
  ∧ Forall (λ s, (length (sent_bytes s) ≤ BUFSIZ)%nat) out.
Proof. intros Hj He Hb. apply run_ok; [by apply Listener_new_inv|done|done]. Qed.

(** A datagram of at most 8 bytes is not checked for its length: with a header of an
    uncoded packet in the receive buffer (left by the datagram before it), the listener
    calls [front ()] on the empty list of senders of a message that was not filled. *)
Theorem short_datagram_crashes l buf n g h rest :
  fetch_header buf = Ok (h, rest) → isUDPNCHeader h = true → enc_packet_count h ≤ 1 →
  (n ≤ 8)%nat → Listener_process_input junk l buf n g = Fail EmptyFront.
Proof.
  intros Hf Hs Hc Hn. unfold Listener_process_input. cbv zeta.
  rewrite Hf, bind_ok. cbn beta iota. rewrite Hs. cbn [negb].
  destruct (Z.ltb_spec 1 (enc_packet_count h)); [lia|].
  unfold NCM_deserialize. destruct (Nat.leb_spec n 8); [|lia]. done.
Qed.
End properties.

(** A turn of the sending thread on a queue that is not too long sends the image of
    the first coded message to both recipients it lists, but to the second one on the
    first one's port: the second recipient is reached exactly if the two ports agree. *)
Theorem send_turn_recipients l m ms a0 a1 sendbuf :
  msgs l = m :: ms → (length (msgs l) ≤ PACKET_DEQUE_TOO_LONG)%nat →
  NCM_wf m → to_addrs m = [a0; a1] → (length (NCM_wire m) ≤ length sendbuf)%nat →
  ∃ l' buf' s0 s1, start_send_turn l sendbuf = Ok (l', buf', [s0; s1]) ∧ msgs l' = ms
  ∧ sent_bytes s0 = NCM_wire m ∧ sent_bytes s1 = NCM_wire m
  ∧ (sent_host s0 = host a0 ∧ sent_port s0 = port a0)
  ∧ (sent_host s1 = host a1 ∧ (sent_port s1 = port a1 ↔ port a0 = port a1)).
Proof.
  intros Hm Hl Hw Ha Hb. unfold start_send_turn. rewrite Hm in *.
  change (length (m :: ms) <? 1)%nat with false. cbn iota.
  destruct (Nat.ltb_spec PACKET_DEQUE_TOO_LONG (length (m :: ms))); [lia|].
  cbn [front]. rewrite bind_ok. cbv zeta.
  rewrite NCM_serialize_wire, bind_ok by done. cbn beta iota.
  rewrite Ha, (at_idx_ok _ 0 a0), bind_ok, (at_idx_ok _ 1 a1), bind_ok by done.
  rewrite fetch_bytes_app, bind_ok by done. do 4 eexists.
  splits; try reflexivity; done.
Qed.

(** *** Witnesses *)

#[local] Existing Instance sum_crc.
#[local] Existing Instance XorCoder.
#[local] Existing Instance XorCoder_laws.

Definition events_example : list event :=
  [Recv nc_example [] xor_seed; SendTurn; Recv nc_example2 [Byte.x61] xor_seed; SendTurn].

Lemma coding_host_safe_witness :
  Forall event_ok events_example ∧
  ∃ l' out, run (header nc_example) events_example (Listener_new (header nc_example))
              (replicate BUFSIZ Byte.x00) = Ok (l', out)
  ∧ Forall (λ s, (length (sent_bytes s) ≤ BUFSIZ)%nat) out.
Proof.
  assert (He : Forall event_ok events_example).
  { apply Forall_cons_2; [split; [exact nc_example_wf|split; vm_compute; reflexivity]|].
    apply Forall_cons_2; [exact I|].
    apply Forall_cons_2; [split; [exact nc_example2_wf|split; vm_compute; reflexivity]|].
    apply Forall_cons_2; [exact I|apply Forall_nil_2]. }
  split; [exact He|].
  destruct (coding_host_safe (header nc_example) events_example (replicate BUFSIZ Byte.x00)
              (wf_header _ nc_example_wf) He (length_replicate _ _)) as (l' & out & E & _ & Ho).
  exists l', out. split; [exact E|exact Ho].
Defined.

Lemma short_datagram_crashes_witness :
  Listener_process_input (header nc_example) (Listener_new (header nc_example))
    ([Byte.x00] ++ []) 1 xor_seed = Fail OutOfBounds ∧
  Listener_process_input (header nc_example) (Listener_new (header nc_example))
    (NCM_wire nc_example) 1 xor_seed = Fail EmptyFront.
Proof.
  split; [reflexivity|].
  eapply (short_datagram_crashes (header nc_example) _ (NCM_wire nc_example) 1 xor_seed
            (header nc_example)).
  - apply (fetch_header_bytes (header nc_example)). exact (wf_header _ nc_example_wf).
  - reflexivity.
  - intros E. discriminate E.
  - repeat constructor.
Defined.

Definition coded_example : UDPNCMessage :=
  mkNCM (mkNCH 13 1 0 0 2 1 0 14) [5; 77] [11; 9]
        [mkIPaddr 167772161 1037 0; mkIPaddr 167772162 1038 0] [Byte.x61] 0 IPaddr_null.

Lemma send_turn_recipients_witness :
  ∃ l' buf' s0 s1,
    start_send_turn (with_recoder (Listener_new (header nc_example))
                       (Recoder_new (header nc_example)) [coded_example] [])
                    (replicate 100 Byte.x00) = Ok (l', buf', [s0; s1])
  ∧ sent_port s1 ≠ 1038.
Proof.
  destruct (send_turn_recipients (with_recoder (Listener_new (header nc_example))
              (Recoder_new (header nc_example)) [coded_example] []) coded_example []
              (mkIPaddr 167772161 1037 0) (mkIPaddr 167772162 1038 0) (replicate 100 Byte.x00))
    as (l' & buf' & s0 & s1 & E & _ & _ & _ & _ & _ & Hp).
  - reflexivity.
  - apply Nat.leb_le. reflexivity.
  - constructor; try reflexivity; repeat (split || constructor); done.
  - reflexivity.
  - apply Nat.leb_le. vm_compute. reflexivity.
  - exists l', buf', s0, s1. split; [exact E|]. intros H. by apply Hp in H.
Defined.
