(* ===== verification/VastBuffer.v ===== *)
(** The byte buffer of common/VASTBuffer.h, in which outgoing messages and partly
    received ones are collected. As in [Message], bytes of fresh memory are unspecified
    and written [x00]. *)

From S2P Require Import Prelude Bytes Float Serial Message.
Local Open Scope Z_scope.

(** common/Config.h *)
Definition VAST_BUFSIZ : nat := Z.to_nat 32000.

Record VASTBuffer := mkVB { vb_size : nat; vb_data : list byte; bufsize : nat }.

(** [VASTBuffer (size)]; the default constructor takes [VAST_BUFSIZ]. *)
Definition VB_new (size : nat) : VASTBuffer := mkVB 0 (new_char size) size.
Definition VB_default : VASTBuffer := VB_new VAST_BUFSIZ.

(** [expand (len)]: room for [len] more bytes, in multiples of [VAST_BUFSIZ] *)
Definition VB_expand (b : VASTBuffer) (len : nat) : outcome (VASTBuffer * bool) :=
  let newsize := (((vb_size b + len) / VAST_BUFSIZ + 1) * VAST_BUFSIZ)%nat in
  if (newsize <=? bufsize b)%nat then Ok (b, false) else
  '(bs, _) ← fetch_bytes (vb_size b) (vb_data b);
  '(temp, _) ← put bs (new_char newsize, 0%nat);
  Ok (mkVB (vb_size b) temp newsize, true).

Definition VB_reserve (b : VASTBuffer) (len : nat) : outcome VASTBuffer :=
  let b := mkVB 0 (vb_data b) (bufsize b) in
  if (bufsize b <? len)%nat then '(b, _) ← VB_expand b len; Ok b else Ok b.

Definition VB_clear (b : VASTBuffer) : VASTBuffer := mkVB 0 (vb_data b) (bufsize b).

(** The test both [add]s begin with: whether there is room, after growing if needed. *)
Definition VB_room (b : VASTBuffer) (len : nat) : outcome (VASTBuffer * bool) :=
  if (bufsize b <? vb_size b + len)%nat then VB_expand b len else Ok (b, true).

(** [add (stuff, len)] with [bs] the [len] bytes at [stuff] *)
Definition VB_add (b : VASTBuffer) (bs : list byte) : outcome (VASTBuffer * bool) :=
  '(b, room) ← VB_room b (length bs);
  if negb room then Ok (b, false) else
  '(data, n) ← put bs (vb_data b, vb_size b);
  Ok (mkVB n data (bufsize b), true).

(** [add (Serializable *obj)] *)
Definition VB_add_obj {A} `{Serializable A} (b : VASTBuffer) (obj : A)
    : outcome (VASTBuffer * bool) :=
  let len := sizeOf obj in
  if (len =? 0)%nat then Ok (b, false) else
  '(b, room) ← VB_room b len;
  if negb room then Ok (b, false) else
  '(data, n) ← serialize obj (vb_data b, vb_size b);
  if negb (n - vb_size b =? len)%nat then Ok (mkVB (vb_size b) data (bufsize b), false)
  else Ok (mkVB (vb_size b + len) data (bufsize b), true).

(** A [Message] is [Serializable] too. *)
#[export] Instance Message_serializable : Serializable Message := {|
  sizeOf := Message_sizeOf;
  serialize := Message_serialize;
  deserialize := Message_deserialize |}.

(** *** The abstract buffer: a byte string that only grows at its end *)

Definition VB_inv (b : VASTBuffer) : Prop :=
  length (vb_data b) = bufsize b ∧ (vb_size b ≤ bufsize b)%nat.

Definition vb_content (b : VASTBuffer) : list byte := take (vb_size b) (vb_data b).

Lemma length_vb_content b : VB_inv b → length (vb_content b) = vb_size b.
Proof. intros [H1 H2]. unfold vb_content. rewrite length_take. lia. Qed.

Lemma VB_new_inv n : VB_inv (VB_new n) ∧ vb_content (VB_new n) = [].
Proof.
  unfold VB_inv, VB_new, new_char. cbn [vb_data bufsize vb_size].
  rewrite length_replicate. splits; [done|lia|done].
Qed.

Lemma VB_clear_inv b : VB_inv b → VB_inv (VB_clear b) ∧ vb_content (VB_clear b) = [].
Proof. unfold VB_inv. intros [H1 H2]. cbn. splits; [done|lia|done]. Qed.

Lemma VB_newsize s len : (s + len < ((s + len) / VAST_BUFSIZ + 1) * VAST_BUFSIZ)%nat.
Proof.
  assert (HB : VAST_BUFSIZ ≠ 0%nat) by (unfold VAST_BUFSIZ; lia).
  pose proof (Nat.div_mod_eq (s + len) VAST_BUFSIZ).
  pose proof (Nat.mod_upper_bound (s + len) VAST_BUFSIZ HB). lia.
Qed.

(** Growing succeeds whenever it is asked for, so that [add] never fails. *)
Lemma VB_room_ok b len : VB_inv b →
  ∃ b', VB_room b len = Ok (b', true) ∧ VB_inv b' ∧ vb_content b' = vb_content b
  ∧ vb_size b' = vb_size b ∧ (vb_size b' + len ≤ bufsize b')%nat.
Proof.
  intros Hi. pose proof Hi as [H1 H2]. unfold VB_room.
  destruct (Nat.ltb_spec (bufsize b) (vb_size b + len)); [|by exists b].
  unfold VB_expand. pose proof (VB_newsize (vb_size b) len) as Hn.
  set (newsize := (_ * VAST_BUFSIZ)%nat) in *.
  destruct (Nat.leb_spec newsize (bufsize b)); [lia|].
  destruct (fetch_bytes_cases (vb_size b) (vb_data b)) as [(-> & _)|(_ & ?)]; [|lia].
  rewrite bind_ok. cbn beta iota. fold (vb_content b).
  destruct (new_char_put (vb_content b) newsize) as (tl & -> & Hl);
    [rewrite length_vb_content by done; lia|].
  rewrite bind_ok. cbn beta iota. eexists. split; [reflexivity|].
  splits; [split; cbn [vb_data bufsize vb_size]; [done|lia]| |done|cbn [vb_size bufsize]; lia].
  unfold vb_content at 1. cbn. apply take_app_len. by rewrite length_vb_content.
Qed.

Lemma VB_put b bs : VB_inv b → (vb_size b + length bs ≤ bufsize b)%nat →
  ∃ data, put bs (vb_data b, vb_size b) = Ok (data, (vb_size b + length bs)%nat)
  ∧ length data = length (vb_data b) ∧ take (vb_size b + length bs) data = vb_content b ++ bs.
Proof.
  intros [H1 H2] H. unfold put.
  destruct (Nat.leb_spec (vb_size b + length bs) (length (vb_data b))); [|lia].
  eexists. split; [reflexivity|]. split; [len|].
  rewrite app_assoc. apply take_app_len. unfold vb_content. len.
Qed.

Lemma VB_add_ok b bs : VB_inv b →
  ∃ b', VB_add b bs = Ok (b', true) ∧ VB_inv b' ∧ vb_content b' = vb_content b ++ bs.
Proof.
  intros Hi. unfold VB_add.
  destruct (VB_room_ok b (length bs) Hi) as (b1 & -> & I1 & C1 & S1 & R1).
  rewrite bind_ok. cbn [negb].
  destruct (VB_put b1 bs I1 R1) as (data & -> & Hd & Ht). rewrite bind_ok. cbn beta iota.
  eexists. split; [reflexivity|]. destruct I1.
  split; [split; cbn [vb_data bufsize vb_size]; lia|].
  unfold vb_content at 1. cbn [vb_size vb_data]. by rewrite Ht, C1.
Qed.

(** An object whose [serialize] writes the bytes [w], [sizeOf ()] of them and at least
    one, is appended. *)
Lemma VB_add_obj_ok {A} `{Serializable A} b (obj : A) w : VB_inv b →
  (∀ c, serialize obj c = put w c) → length w = sizeOf obj → (0 < sizeOf obj)%nat →
  ∃ b', VB_add_obj b obj = Ok (b', true) ∧ VB_inv b' ∧ vb_content b' = vb_content b ++ w.
Proof.
  intros Hi Hs Hw H0. unfold VB_add_obj. cbn zeta.
  destruct (Nat.eqb_spec (sizeOf obj) 0); [lia|].
  destruct (VB_room_ok b (sizeOf obj) Hi) as (b1 & -> & I1 & C1 & S1 & R1).
  rewrite bind_ok. cbn [negb]. rewrite Hs.
  destruct (VB_put b1 w I1) as (data & -> & Hd & Ht); [lia|].
  rewrite bind_ok. cbn beta iota. rewrite Nat.add_comm, Nat.add_sub.
  destruct (Nat.eqb_spec (length w) (sizeOf obj)); [cbn [negb]|done].
  eexists. split; [reflexivity|]. destruct I1.
  split; [split; cbn [vb_data bufsize vb_size]; lia|].
  unfold vb_content at 1. cbn [vb_size vb_data]. by rewrite <- Hw, Ht, C1.
Qed.

Lemma VB_add_msg b m : VB_inv b → Message_inv m →
  ∃ b', VB_add_obj b m = Ok (b', true) ∧ VB_inv b' ∧ vb_content b' = vb_content b ++ msg_wire m.
Proof.
  intros Hb Hm. apply VB_add_obj_ok; [done| | |].
  - intros c. by apply Message_serialize_put.
  - by apply length_msg_wire.
  - cbn. unfold Message_sizeOf. lia.
Qed.

(** Reading the content: what [flush] passes to the network. *)
Lemma fetch_vb b : VB_inv b →
  fetch_bytes (vb_size b) (vb_data b) = Ok (vb_content b, drop (vb_size b) (vb_data b)).
Proof.
  intros [H1 H2]. destruct (fetch_bytes_cases (vb_size b) (vb_data b)) as [(-> & _)|(_ & ?)]; [done|lia].
Qed.

#[global] Arguments VB_default : simpl never.
#[global] Arguments VB_add : simpl never.
#[global] Arguments VB_add_obj : simpl never.
