(* ===== verification/NetInterface.v ===== *)
(** The network binding as VASTnet/VASTnet.cpp sees it: the virtual functions of
    [net_manager] (common/net_manager.h) it calls. [VASTnet]'s theorems are proved from
    the laws; VastLink.v discharges them for [net_udp], NetEmu.v for [net_emu]. *)

From S2P Require Import Prelude Bytes StdMap Float Serial NetManager.
Local Open Scope Z_scope.

(** [now] is the clock ([getTimestamp ()]) during the call. [send] returns the number of
    bytes, as a [size_t]; an unknown [Addr] is [None], as the default argument [NULL]. *)
Class NetManager (N : Type) := {
  startup : N → Z → outcome N;                            (* start (), now *)
  shutdown : N → Z → outcome N;                           (* stop (), now *)
  isActive : N → bool;
  nm_getID : N → Z;
  nm_setID : N → Z → N;
  getAddress : N → Addr;                                  (* my own address *)
  connected : N → Z → bool;                               (* isConnected *)
  lastTime : N → Z → Z;                                   (* getLastTime *)
  perSecond : N → Z;                                      (* getTimestampPerSecond *)
  remoteAddress : N → Z → IPaddr → IPaddr * bool;         (* host_id, addr *)
  connect : N → Z → Z → Z → Z → outcome (N * bool);       (* now, target, host, port *)
  disconnect : N → Z → Z → outcome (N * bool);            (* now, target *)
  send : N → Z → list byte → option Addr → N * Z;         (* target, msg, addr *)
  receive : N → N * option NetSocketMsg;
  switchID : N → Z → Z → N * bool;                        (* prevID, newID *)
  (* now, fromhost, message, recvtime, in_front *)
  msg_stored : N → Z → Z → option (list byte) → Z → bool → outcome (N * bool);
}.

(** What an operation leaves as it was. *)
Record same_node {N} `{NetManager N} (n n' : N) : Prop := mk_same_node {
  same_active : isActive n' = isActive n;
  same_id : nm_getID n' = nm_getID n;
  same_addr : getAddress n' = getAddress n;
  same_connected : ∀ id, connected n' id = connected n id }.

Lemma same_node_refl {N} `{NetManager N} (n : N) : same_node n n.
Proof. done. Qed.

Lemma same_node_trans {N} `{NetManager N} (n1 n2 n3 : N) :
  same_node n1 n2 → same_node n2 n3 → same_node n1 n3.
Proof. intros [] []. split; intros; congruence. Qed.

(** [ready] is the state in which the binding may be used (its mutex free, for instance),
    [pending] the incoming messages in the order in which they will be received, and [due] the
    times of messages that can be. [front_first] tells whether what is stored in front is
    received first, also when something else is pending. *)
Class NetManagerLaws (N : Type) `{NetManager N} := {
  ready : N → Prop;
  pending : N → list NetSocketMsg;
  due : N → Z → Prop;
  front_first : bool;
  receive_law n : ready n →
    ∃ n', receive n = (n', head (pending n)) ∧ pending n' = tail (pending n)
    ∧ ready n' ∧ same_node n n' ∧ ∀ t, due n t → due n' t;
  due_law n : ready n → Forall (λ m, due n (recvtime m)) (pending n);
  msg_stored_law n now f bs rt : ready n → connected n f = true ∨ f = NET_ID_UNASSIGNED →
    due n rt → bs ≠ [] →
    ∃ n', msg_stored n now f (Some bs) rt true = Ok (n', true)
    ∧ (front_first = true ∨ pending n = [] → ∃ t, pending n' = mkNSM f t (Some bs) :: pending n)
    ∧ ready n' ∧ same_node n n';
  connect_law n now target h p : ready n →
    ∃ n' ok, connect n now target h p = Ok (n', ok) ∧ ready n' ∧ pending n' = pending n
    ∧ isActive n' = isActive n ∧ nm_getID n' = nm_getID n ∧ getAddress n' = getAddress n
    ∧ (∀ id, connected n id = true → connected n' id = true)
    ∧ (ok = true → target ≠ NET_ID_UNASSIGNED → connected n' target = true);
  send_law n target bs addr n' k : ready n → send n target bs addr = (n', k) →
    ready n' ∧ pending n' = pending n ∧ same_node n n';
  switchID_law n a b n' ok : ready n → switchID n a b = (n', ok) →
    ready n' ∧ pending n' = pending n
    ∧ isActive n' = isActive n ∧ nm_getID n' = nm_getID n ∧ getAddress n' = getAddress n
    ∧ (connected n a = true → connected n' b = true);
  setID_law n i : ready n →
    ready (nm_setID n i) ∧ pending (nm_setID n i) = pending n
    ∧ nm_getID (nm_setID n i) = i ∧ isActive (nm_setID n i) = isActive n
    ∧ ∀ id, connected (nm_setID n i) id = connected n id;
  lastTime_law n id : lastTime n id ≠ 0 → connected n id = true;
}.
