(* ===== verification/VastNet.v ===== *)
(** The message layer: VASTnet/VASTnet.cpp and common/VASTnet.h, over any network
    binding. Outgoing messages are framed and collected per host until [flush]; incoming
    byte strings are reassembled by [process] into messages, which [receiveMessage] hands
    out by priority; hosts obtain their ids with [ID_REQUEST] and [ID_ASSIGN].

    The members of the class are those of the record, [_recvmsg] and the queues of
    received data in a record of their own, the counters in another. Statistics logging,
    compression (disabled in the source) and the choice of the binding are left out. *)

From S2P Require Import Prelude Bytes StdMap Float Serial Message VastBuffer NetManager.
From S2P Require Import NetInterface.
Local Open Scope Z_scope.

(** *** Data *)

Inductive VASTHeaderType := ID_REQUEST | ID_ASSIGN | HANDSHAKE | REGULAR.

Definition type_code (t : VASTHeaderType) : Z :=
  match t with ID_REQUEST => 0 | ID_ASSIGN => 1 | HANDSHAKE => 2 | REGULAR => 3 end.

Definition type_of_code (c : Z) : option VASTHeaderType :=
  if c =? 0 then Some ID_REQUEST else if c =? 1 then Some ID_ASSIGN
  else if c =? 2 then Some HANDSHAKE else if c =? 3 then Some REGULAR else None.

(** [VASTnetMessage] *)
Definition DISCONNECT : Z := 0.

(** A partly received message. *)
Record HALF_VMSG := mkHalf { hq_header : VASTHeader; received : nat; hq_buf : VASTBuffer }.

Definition HALF_new (h : VASTHeader) : HALF_VMSG :=
  mkHalf h 0 (VB_new (4 + Z.to_nat (msg_size h))).

Record FULL_VMSG := mkFull { fm_fromhost : Z; fm_recvtime : Z; fm_msg : Message }.

Record incoming := mkIn {
  half_queue : list (Z * HALF_VMSG);
  full_queue : list (Z * FULL_VMSG);            (* multimap: by priority *)
  socket_queue : list NetSocketMsg;
  in_recvmsg : option Message;
  recvmsg_socket : option NetSocketMsg }.

Record net_stats := mkStats {
  sendsize : Z; recvsize : Z;
  type2sendsize : list (Z * Z); type2recvsize : list (Z * Z) }.

Record VASTnet (N : Type) := mkVN {
  manager : N;
  is_public : bool;
  entries : list IPaddr;
  id2addr : list (Z * Addr);
  time_adjust : Z;
  timeout_IDrequest : Z;
  timeout_cleanup : Z;
  IDcounter : list (Z * Z);
  inq : incoming;
  sendbuf_TCP : list (Z * VASTBuffer);
  sendbuf_UDP : list (Z * VASTBuffer);
  stats : net_stats;
  local_targets : list (Z * bool) }.
Arguments mkVN {N}.
Arguments manager {N}. Arguments is_public {N}. Arguments entries {N}. Arguments id2addr {N}.
Arguments time_adjust {N}. Arguments timeout_IDrequest {N}. Arguments timeout_cleanup {N}.
Arguments IDcounter {N}. Arguments inq {N}. Arguments sendbuf_TCP {N}. Arguments sendbuf_UDP {N}.
Arguments stats {N}. Arguments local_targets {N}.

Section setters.
Context {N : Type}.
Implicit Types v : VASTnet N.

Definition with_manager v (n : N) := mkVN n (is_public v) (entries v) (id2addr v) (time_adjust v)
  (timeout_IDrequest v) (timeout_cleanup v) (IDcounter v) (inq v) (sendbuf_TCP v)
  (sendbuf_UDP v) (stats v) (local_targets v).
Definition with_public v b := mkVN (manager v) b (entries v) (id2addr v) (time_adjust v)
  (timeout_IDrequest v) (timeout_cleanup v) (IDcounter v) (inq v) (sendbuf_TCP v)
  (sendbuf_UDP v) (stats v) (local_targets v).
Definition with_entries v es := mkVN (manager v) (is_public v) es (id2addr v) (time_adjust v)
  (timeout_IDrequest v) (timeout_cleanup v) (IDcounter v) (inq v) (sendbuf_TCP v)
  (sendbuf_UDP v) (stats v) (local_targets v).
Definition with_id2addr v m := mkVN (manager v) (is_public v) (entries v) m (time_adjust v)
  (timeout_IDrequest v) (timeout_cleanup v) (IDcounter v) (inq v) (sendbuf_TCP v)
  (sendbuf_UDP v) (stats v) (local_targets v).
Definition with_times v a r c := mkVN (manager v) (is_public v) (entries v) (id2addr v) a
  r c (IDcounter v) (inq v) (sendbuf_TCP v) (sendbuf_UDP v) (stats v) (local_targets v).
Definition with_counter v c := mkVN (manager v) (is_public v) (entries v) (id2addr v)
  (time_adjust v) (timeout_IDrequest v) (timeout_cleanup v) c (inq v) (sendbuf_TCP v)
  (sendbuf_UDP v) (stats v) (local_targets v).
Definition with_inq v i := mkVN (manager v) (is_public v) (entries v) (id2addr v)
  (time_adjust v) (timeout_IDrequest v) (timeout_cleanup v) (IDcounter v) i (sendbuf_TCP v)
  (sendbuf_UDP v) (stats v) (local_targets v).
Definition with_sendbufs v t u := mkVN (manager v) (is_public v) (entries v) (id2addr v)
  (time_adjust v) (timeout_IDrequest v) (timeout_cleanup v) (IDcounter v) (inq v) t u
  (stats v) (local_targets v).
Definition with_stats v s l := mkVN (manager v) (is_public v) (entries v) (id2addr v)
  (time_adjust v) (timeout_IDrequest v) (timeout_cleanup v) (IDcounter v) (inq v)
  (sendbuf_TCP v) (sendbuf_UDP v) s l.
End setters.

Definition set_half (i : incoming) q :=
  mkIn q (full_queue i) (socket_queue i) (in_recvmsg i) (recvmsg_socket i).
Definition set_full (i : incoming) q r :=
  mkIn (half_queue i) q (socket_queue i) r (recvmsg_socket i).
Definition set_socket (i : incoming) q r :=
  mkIn (half_queue i) (full_queue i) q (in_recvmsg i) r.

Definition set_from (m : Message) (id : Z) : Message :=
  mkMsg id (msize m) (msgtype m) (msggroup m) (priority m) (reliable m) (mdata m)
        (targets m) (mfree m) (mcurr m) (malloc m).
Definition set_priority (m : Message) (p : Z) : Message :=
  mkMsg (from m) (msize m) (msgtype m) (msggroup m) p (reliable m) (mdata m)
        (targets m) (mfree m) (mcurr m) (malloc m).

Section operations.
Context {N : Type} `{NetManager N}.
Implicit Types v : VASTnet N.

(** The constructor, over a new binding *)
Definition VN_new (n : N) : VASTnet N :=
  mkVN n true [] [] 0 0 0 [] (mkIn [] [] [] None None) [] [] (mkStats 0 0 [] []) [].

Definition VN_start v (now : Z) : outcome (VASTnet N) :=
  n ← startup (manager v) now; Ok (with_manager v n).
Definition VN_stop v (now : Z) : outcome (VASTnet N) :=
  n ← shutdown (manager v) now; Ok (with_manager v n).

(** [setTimestampAdjustment (adjustment)] adds to the adjustment so far. *)
Definition setTimestampAdjustment v (adjustment : Z) : VASTnet N :=
  with_times v (time_adjust v + adjustment) (timeout_IDrequest v) (timeout_cleanup v).

(** [getTimestamp ()]: the [int] adjustment is converted to [timestamp_t]. *)
Definition VN_getTimestamp v (now : Z) : Z := u64 (now + time_adjust v).

(** *** Addresses *)

Definition storeMapping v (addr : Addr) : VASTnet N :=
  if host_id addr =? NET_ID_UNASSIGNED then v
  else with_id2addr v (set (host_id addr) addr (id2addr v)).

Definition VN_getAddress v (id : Z) : Addr := default Addr_null (find id (id2addr v)).

Definition getConnections v : list (Z * Addr) :=
  filter (λ p, connected (manager v) (fst p) = true) (id2addr v).

Definition isEntryPoint (id : Z) : bool := Z.land 0x0FFFF id =? NET_ID_RELAY.

(** 2130706433 is 127.0.0.1 *)
Definition validateIPAddress v (addr : IPaddr) : IPaddr :=
  if (host addr =? 0) || (host addr =? 2130706433)
  then mkIPaddr (host (publicIP (getAddress (manager v)))) (port addr) (pad addr) else addr.

(** [addEntries (entries)]; the entries of the argument are replaced in place. *)
Definition addEntries v (es : list IPaddr) : VASTnet N * list IPaddr :=
  let es := validateIPAddress v <$> es in (with_entries v (entries v ++ es), es).

Definition resolvePort (host_id : Z) : Z := Z.shiftr (Z.land host_id 0x00000000FFFF0000) 16.

(** [registerHostID (my_id, is_public)] *)
Definition registerHostID v (my_id : Z) (pub : bool) : VASTnet N :=
  if negb (nm_getID (manager v) =? NET_ID_UNASSIGNED) then v else
  let v := with_manager v (nm_setID (manager v) my_id) in
  with_public (with_id2addr v (set my_id (getAddress (manager v)) (id2addr v))) pub.

(** [getUniqueID (id_group)] *)
Definition getUniqueID v (id_group : Z) : VASTnet N * Z :=
  if negb (isEntryPoint (nm_getID (manager v))) then (v, NET_ID_UNASSIGNED) else
  if (id_group <? 0) || (4 <=? id_group) then (v, NET_ID_UNASSIGNED) else
  let counter := if has id_group (IDcounter v) then IDcounter v
                 else set id_group (NET_ID_RELAY + 1) (IDcounter v) in
  let v := with_counter v counter in
  let c := default 0 (find id_group counter) in
  if (c <=? 0) || (16384 <=? c) then (v, NET_ID_UNASSIGNED) else
  let a := publicIP (getAddress (manager v)) in
  (with_counter v (set id_group (u64 (c + 1)) counter),
   Z.lor (Z.lor (Z.lor (Z.shiftl (host a) 32) (Z.shiftl (port a) 16)) (Z.shiftl id_group 14)) c).

(** *** Statistics *)

Definition add_to (k size : Z) (m : list (Z * Z)) : list (Z * Z) :=
  set k (u64 (default 0 (find k m) + size)) m.

(** [updateTransmissionStat (target, msgtype, size, type)] *)
Definition updateTransmissionStat v (target msgtype size type : Z) : VASTnet N :=
  if (target =? nm_getID (manager v)) || has target (local_targets v) then v else
  let s := stats v in
  if type =? 1 then
    with_stats v (mkStats (u64 (sendsize s + size)) (recvsize s)
      (add_to msgtype size (type2sendsize s)) (type2recvsize s)) (local_targets v)
  else if type =? 2 then
    with_stats v (mkStats (sendsize s) (u64 (recvsize s + size)) (type2sendsize s)
      (add_to msgtype size (type2recvsize s))) (local_targets v)
  else v.

Definition getSendSize v (msgtype : Z) : Z :=
  if msgtype =? 0 then sendsize (stats v) else default 0 (find msgtype (type2sendsize (stats v))).
Definition getReceiveSize v (msgtype : Z) : Z :=
  if msgtype =? 0 then recvsize (stats v) else default 0 (find msgtype (type2recvsize (stats v))).
Definition resetTransmissionSize v : VASTnet N :=
  with_stats v (mkStats 0 0 [] []) (local_targets v).
Definition recordLocalTarget v (target : Z) : VASTnet N :=
  with_stats v (stats v) (set target true (local_targets v)).

(** *** Incoming queues *)

Definition storeVASTMessage v (now fromhost : Z) (msg : Message) : VASTnet N * bool :=
  if negb (isActive (manager v)) then (v, false) else
  let fromhost := if fromhost =? NET_ID_UNASSIGNED then from msg else fromhost in
  let q := minsert (priority msg) (mkFull fromhost now msg) (full_queue (inq v)) in
  (with_inq v (set_full (inq v) q (in_recvmsg (inq v))), true).

Definition storeSocketMessage v (m : NetSocketMsg) : VASTnet N * bool :=
  if negb (isActive (manager v)) then (v, false) else
  (with_inq v (set_socket (inq v) (socket_queue (inq v) ++ [m]) (recvmsg_socket (inq v))), true).

(** [receiveMessage (fromhost)]: the message and the host; [time_left] tells whether the
    [TimeMonitor] has time available. *)
Definition receiveMessage v (time_left : bool) : VASTnet N * option (Message * Z) :=
  if negb (isActive (manager v)) then (v, None) else
  if negb time_left then (v, None) else
  match full_queue (inq v) with
  | [] => (with_inq v (set_full (inq v) [] None), None)
  | (_, nextmsg) :: q =>
      let msg := fm_msg nextmsg in
      let fromhost := fm_fromhost nextmsg in
      let v := with_inq v (set_full (inq v) q (Some msg)) in
      (updateTransmissionStat v fromhost (msgtype msg) (4 + Z.of_nat (msize msg)) 2,
       Some (msg, fromhost))
  end.

(** [receiveSocket (socket, size)]: the message, its host and size in it *)
Definition receiveSocket v : VASTnet N * option NetSocketMsg :=
  match socket_queue (inq v) with
  | [] => (with_inq v (set_socket (inq v) [] None), None)
  | m :: q => (with_inq v (set_socket (inq v) q (Some m)), Some m)
  end.

(** *** Sending

    [sendMessage] makes sure of a connection, which may send a handshake, which calls
    [sendMessage]: the recursion is on [fuel]. *)

(** The header of an outgoing message; [msg_size] has 22 bits. *)
Definition out_header (type : VASTHeaderType) (size : nat) : VASTHeader :=
  mkVH 10 (type_code type) (wrap 22 (Z.of_nat size)) 5.

(** The end of [sendMessage]: the framed message is added to the target's buffer. *)
Definition enqueue v (target : Z) (msg : Message) (reliable : bool) (type : VASTHeaderType)
    : outcome (VASTnet N * Z) :=
  let send_buf := if reliable then sendbuf_TCP v else sendbuf_UDP v in
  let buf := default VB_default (find target send_buf) in
  let header := out_header type (Message_sizeOf msg) in
  '(buf, _) ← VB_add buf (vh_bytes header);
  '(buf, _) ← VB_add_obj buf msg;
  let send_buf := set target buf send_buf in
  let v := if reliable then with_sendbufs v send_buf (sendbuf_UDP v)
           else with_sendbufs v (sendbuf_TCP v) send_buf in
  Ok (updateTransmissionStat v target (msgtype msg) (Z.of_nat (msize msg) + 4) 1,
      msg_size header).

Definition sender : Type :=
  VASTnet N → Z → Message → bool → VASTHeaderType → outcome (VASTnet N * Message * Z).

Definition sendHandshake_with (send : sender) v (target : Z) : outcome (VASTnet N) :=
  let my_id := nm_getID (manager v) in
  if my_id =? NET_ID_UNASSIGNED then Ok v else
  '(msg, _) ← store_int 8 (set_priority (Message_new 0 0) 0) my_id;
  '(v, _, _) ← send v target msg true HANDSHAKE;
  Ok v.

Definition validateConnection_with (send : sender) v (now id : Z)
    : outcome (VASTnet N * bool) :=
  if (nm_getID (manager v) =? id) || connected (manager v) id then Ok (v, true) else
  match find id (id2addr v) with
  | None => Ok (v, false)
  | Some a =>
      '(n, ok) ← connect (manager v) now id (host (publicIP a)) (port (publicIP a));
      let v := with_manager v n in
      if negb ok then Ok (v, false) else
      v ← sendHandshake_with send v id;
      Ok (v, true)
  end.

(** [sendMessage (target, msg, reliable, type)]: the state, the message (whose [from] may
    be filled in) and the value returned. *)
Definition sendMessage_with (send : sender) (now : Z) v (target : Z) (msg : Message)
    (reliable : bool) (type : VASTHeaderType) : outcome (VASTnet N * Message * Z) :=
  if negb (isActive (manager v)) then Ok (v, msg, 0) else
  let msg := if from msg =? 0 then set_from msg (nm_getID (manager v)) else msg in
  if target =? nm_getID (manager v) then
    newmsg ← Message_copy msg;
    let '(v, _) := storeVASTMessage v now (nm_getID (manager v)) (reset newmsg) in
    Ok (v, msg, Z.of_nat (msize msg))
  else
    '(v, ok) ← validateConnection_with send v now target;
    if negb ok then Ok (v, msg, 0) else
    '(v, k) ← enqueue v target msg reliable type;
    Ok (v, msg, k).

Fixpoint sendMessage_fuel (fuel : nat) (now : Z) : sender :=
  λ v target msg reliable type,
  match fuel with
  | O => Fail Diverges
  | S fuel => sendMessage_with (sendMessage_fuel fuel now) now v target msg reliable type
  end.

(** A handshake is sent to a connected host, so that two levels are enough
    ([sendMessage_queues]). *)
Definition SEND_DEPTH : nat := 2.

Definition sendMessage (now : Z) := sendMessage_fuel SEND_DEPTH now.
Definition sendHandshake (now : Z) := sendHandshake_with (sendMessage now).
Definition validateConnection v (now id : Z) := validateConnection_with (sendMessage now) v now id.

(** *** Host ids: requests and assignments *)

(** [processIDRequest (msg, actualIP)]: the reply, which replaces the request in [msg],
    and the id accepted or assigned. [junk] is the uninitialised [id]. *)
Definition processIDRequest (msg : Message) (actualIP : IPaddr) (junk : Z)
    : outcome (Message * Z) :=
  '(msg, id, _) ← extract_int 8 msg junk false;
  '(msg, detectedIP, _) ← extract_obj msg IPaddr_null false;
  let is_public := host actualIP =? host detectedIP in
  let id := if is_public then id else resolveHostID actualIP in
  if id =? NET_ID_UNASSIGNED then Ok (msg, id) else
  let msg := set_priority (clear msg 0 0 3) 0 in
  '(msg, _) ← store_int 8 msg id;
  '(msg, _) ← store msg (le_bytes 1 (if is_public then 1 else 0)) false;
  Ok (msg, id).

(** [processIDAssignment (msg)] *)
Definition processIDAssignment v (msg : Message) (junk : Z) : outcome (VASTnet N * bool) :=
  if negb (msize msg =? 8 + 1)%nat then Ok (v, false) else
  '(msg, id, _) ← extract_int 8 msg junk false;
  '(msg, pub, _) ← extract_int 1 msg junk false;
  Ok (registerHostID v id (negb (pub =? 0)), true).

Definition processHandshake (msg : Message) (junk : Z) : outcome Z :=
  '(_, id, _) ← extract_int 8 msg junk false; Ok id.

(** [processVASTMessage (header, p, remote_id)] *)
Definition processVASTMessage v (now junk : Z) (header : VASTHeader) (p : list byte)
    (remote_id : Z) : outcome (VASTnet N * bool) :=
  '(msg, k) ← Message_deserialize (Message_new 0 0) (Some p) (Z.to_nat (msg_size header));
  if (k =? 0)%nat then Ok (v, false) else
  match type_of_code (vh_type header) with
  | Some ID_REQUEST =>
      let '(actual_IP, _) := remoteAddress (manager v) remote_id IPaddr_null in
      '(msg, new_id) ← processIDRequest msg actual_IP junk;
      if new_id =? NET_ID_UNASSIGNED then Ok (v, true) else
      let '(n, _) := switchID (manager v) remote_id new_id in
      '(v, _, _) ← sendMessage now (with_manager v n) new_id msg true ID_ASSIGN;
      Ok (v, true)
  | Some ID_ASSIGN => '(v, _) ← processIDAssignment v msg junk; Ok (v, true)
  | Some HANDSHAKE =>
      id ← processHandshake msg junk;
      if id =? NET_ID_UNASSIGNED then Ok (v, true) else
      let '(n, _) := switchID (manager v) remote_id id in Ok (with_manager v n, true)
  | Some REGULAR => let '(v, _) := storeVASTMessage v now remote_id msg in Ok (v, true)
  | None => Ok (v, true)
  end.

(** *** Reassembly *)

(** The partial message [from] has, or the one that [bs] begins. *)
Definition find_half v (from : Z) (bs : list byte) : outcome (option HALF_VMSG) :=
  match find from (half_queue (inq v)) with
  | Some hq => Ok (Some hq)
  | None =>
      if (4 <? length bs)%nat
      then '(header, _) ← fetch_vh bs;
           Ok (if vh_ok header then Some (HALF_new header) else None)
      else Ok None
  end.

Definition with_half v q : VASTnet N := with_inq v (set_half (inq v) q).

(** A turn of the loop of [process] on the message [m]: the state and what is added to
    the number of messages processed. *)
Definition process_turn v (now junk : Z) (m : NetSocketMsg) : outcome (VASTnet N * nat) :=
  let from := fromhost m in
  let bs := default [] (nsm_msg m) in
  if (length bs =? 0)%nat then
    let '(v, _) := storeVASTMessage v now from (set_from (Message_new DISCONNECT 0) from) in
    Ok (v, 0%nat)
  else
  hq ← find_half v from bs;
  match hq with
  | None => let '(v, _) := storeSocketMessage v m in Ok (v, 1%nat)
  | Some hq =>
      let full_size := (4 + Z.to_nat (msg_size (hq_header hq)))%nat in
      let size_toadd := Nat.min (full_size - received hq) (length bs) in
      '(buf, _) ← VB_add (hq_buf hq) (take size_toadd bs);
      let hq := mkHalf (hq_header hq) (received hq + size_toadd) buf in
      let v := with_half v (set from hq (half_queue (inq v))) in
      v ← (if (received hq =? full_size)%nat then
             '(v, _) ← processVASTMessage v now junk (hq_header hq) (drop 4 (vb_data buf)) from;
             Ok (with_half v (erase from (half_queue (inq v))))
           else Ok v);
      if (size_toadd <? length bs)%nat then
        '(n, _) ← msg_stored (manager v) now from (Some (drop size_toadd bs)) (recvtime m) true;
        Ok (with_manager v n, 1%nat)
      else Ok (v, 1%nat)
  end.

(** [process ()], without the final [_manager->tick ()] (statistics) *)
Fixpoint process (fuel : nat) (now junk : Z) v : outcome (VASTnet N * nat) :=
  match fuel with
  | O => Fail Diverges
  | S fuel =>
      let '(n, m) := receive (manager v) in
      let v := with_manager v n in
      match m with
      | None => Ok (v, 0%nat)
      | Some m =>
          '(v, k) ← process_turn v now junk m;
          '(v, k') ← process fuel now junk v;
          Ok (v, (k + k')%nat)
      end
  end.

(** *** Flushing and cleaning up *)

(** common/timeouts.h, [ms] being [g_MS_PER_TIMESTEP] ([int] division) *)
Definition TIMEOUT_CONNECTION_CLEANUP (ms : Z) : Z := Z.quot (100 * ms) 1000.
Definition TIMEOUT_REMOVE_CONNECTION (ms : Z) : Z := Z.quot (1500 * ms) 1000.
Definition TIMEOUT_ID_REQUEST (ms : Z) : Z := Z.quot (500 * ms) 1000.

(** [removeConnection (target)] *)
Definition removeConnection v (now target : Z) : outcome (VASTnet N * bool) :=
  '(n, removed) ← disconnect (manager v) now target;
  let in_buf := has target (sendbuf_TCP v) || has target (sendbuf_UDP v) in
  Ok (with_sendbufs (with_manager v n) (erase target (sendbuf_TCP v))
        (erase target (sendbuf_UDP v)), removed || in_buf).

(** The connections [cleanConnections] finds inactive *)
Definition inactive v (now ms : Z) (id : Z) : bool :=
  let timeout := u64 (TIMEOUT_REMOVE_CONNECTION ms * perSecond (manager v)) in
  let lasttime := lastTime (manager v) id in
  if (lasttime =? 0) || (u64 (VN_getTimestamp v now - lasttime) <? timeout) then false
  else negb (connected (manager v) id).

Fixpoint remove_all v (now : Z) (l : list Z) : outcome (VASTnet N) :=
  match l with
  | [] => Ok v
  | id :: l => '(v, _) ← removeConnection v now id; remove_all v now l
  end.

Definition cleanConnections v (now ms : Z) : outcome (VASTnet N) :=
  remove_all v now (filter (λ id, inactive v now ms id = true) (fst <$> sendbuf_TCP v)).

(** One buffer of [flush]: what is sent and the cleared buffer. [addr] is [NULL] for the
    reliable queue. *)
Definition flush_buf (n : N) (target : Z) (b : VASTBuffer) (go : bool) (addr : option Addr)
    : outcome (N * Z * VASTBuffer) :=
  '(n, k) ← (if (0 <? vb_size b)%nat && go then
               '(bs, _) ← fetch_bytes (vb_size b) (vb_data b); Ok (send n target bs addr)
             else Ok (n, 0));
  Ok (n, k, VB_clear b).

Fixpoint flush_TCP (n : N) (total : Z) (bufs : list (Z * VASTBuffer))
    : outcome (N * Z * list (Z * VASTBuffer)) :=
  match bufs with
  | [] => Ok (n, total, [])
  | (target, b) :: bufs =>
      '(n, k, b) ← flush_buf n target b true None;
      '(n, total, bufs) ← flush_TCP n (u64 (total + k)) bufs;
      Ok (n, total, (target, b) :: bufs)
  end.

Fixpoint flush_UDP (addrs : list (Z * Addr)) (n : N) (total : Z)
    (bufs : list (Z * VASTBuffer)) : outcome (N * Z * list (Z * VASTBuffer)) :=
  match bufs with
  | [] => Ok (n, total, [])
  | (target, b) :: bufs =>
      '(n, k, b) ← flush_buf n target b (has target addrs) (find target addrs);
      '(n, total, bufs) ← flush_UDP addrs n (u64 (total + k)) bufs;
      Ok (n, total, (target, b) :: bufs)
  end.

(** [flush ()]: the state and the number of bytes sent *)
Definition flush v (now ms : Z) : outcome (VASTnet N * Z) :=
  '(n, total, tcp) ← flush_TCP (manager v) 0 (sendbuf_TCP v);
  '(n, total, udp) ← flush_UDP (id2addr v) n total (sendbuf_UDP v);
  let v := with_sendbufs (with_manager v n) tcp udp in
  if timeout_cleanup v <? now then
    let v := with_times v (time_adjust v) (timeout_IDrequest v)
               (u64 (now + TIMEOUT_CONNECTION_CLEANUP ms * perSecond (manager v))) in
    v ← cleanConnections v now ms;
    Ok (v, total)
  else Ok (v, total).

(** *** Joining, sockets *)

(** [isJoined ()]; [r] is the index [rand () % _entries.size ()]. *)
Definition isJoined v (now ms : Z) (r : nat) : outcome (VASTnet N * bool) :=
  if negb (isActive (manager v)) then Ok (v, false) else
  let t := VN_getTimestamp v now in
  v ← (if negb (nm_getID (manager v) =? NET_ID_UNASSIGNED) then Ok v
       else if (length (entries v) =? 0)%nat then
         Ok (registerHostID v (resolveHostID (publicIP (getAddress (manager v)))) true)
       else if timeout_IDrequest v <=? t then
         let v := with_times v (time_adjust v)
                    (u64 (t + TIMEOUT_ID_REQUEST ms * perSecond (manager v)))
                    (timeout_cleanup v) in
         entry ← at_idx (entries v) r;
         let target := resolveHostID entry in
         let v := storeMapping v (Addr_make target entry) in
         let self_addr := getAddress (manager v) in
         let msg := set_priority (Message_new 0 0) 0 in
         '(msg, _) ← store_int 8 msg (host_id self_addr);
         '(msg, _) ← store_obj msg (publicIP self_addr);
         '(v, _, _) ← sendMessage now v target msg true ID_REQUEST;
         Ok v
       else Ok v);
  Ok (v, negb (nm_getID (manager v) =? NET_ID_UNASSIGNED)).

(** [openSocket (ip_port)]: the state and the socket's id *)
Definition openSocket v (now ms : Z) (r : nat) (ip_port : IPaddr) : outcome (VASTnet N * Z) :=
  '(v, joined) ← isJoined v now ms r;
  if negb joined then Ok (v, NET_ID_UNASSIGNED) else
  let '(v, socket_id) := getUniqueID v 0 in
  if socket_id =? NET_ID_UNASSIGNED then Ok (v, NET_ID_UNASSIGNED) else
  let v := storeMapping v (mkAddr socket_id 0 ip_port) in
  '(n, ok) ← connect (manager v) now socket_id (host ip_port) (port ip_port);
  Ok (with_manager v n, if negb ok then NET_ID_UNASSIGNED else socket_id).

Definition closeSocket v (now socket : Z) : outcome (VASTnet N * bool) :=
  '(n, ok) ← disconnect (manager v) now socket; Ok (with_manager v n, ok).

Definition sendSocket v (socket : Z) (msg : list byte) : VASTnet N * bool :=
  let '(n, k) := send (manager v) socket msg None in (with_manager v n, 0 <? k).

End operations.
