(* ===== verification/VastSend.v ===== *)
(** Sending through [VASTnet]: what [sendMessage] puts into the buffers, that its
    recursion ends, what [flush] hands to the network, the statistics, and the ids and
    connections it manages. *)

From S2P Require Import Prelude Bytes StdMap Float Serial Message VastBuffer NetManager.
From S2P Require Import NetInterface VastNet.
Local Open Scope Z_scope.

(** The bytes of a message in a buffer: header and serialized message. *)
Definition framed (type : VASTHeaderType) (m : Message) : list byte :=
  vh_bytes (out_header type (Message_sizeOf m)) ++ msg_wire m.

Section sending.
Context {N : Type} `{NetManagerLaws N}.
Implicit Types v : VASTnet N.

Definition sendbuf v (reliable : bool) : list (Z * VASTBuffer) :=
  if reliable then sendbuf_TCP v else sendbuf_UDP v.

(** What is queued for a host. *)
Definition outq v (reliable : bool) (target : Z) : list byte :=
  match find target (sendbuf v reliable) with Some b => vb_content b | None => [] end.

Definition bufs_ok v : Prop :=
  ∀ r, ordered (sendbuf v r) ∧ Forall (λ p, VB_inv (snd p)) (sendbuf v r).

(** The parts of the state that sending leaves alone. *)
Record kept (v v' : VASTnet N) : Prop := mk_kept {
  kept_inq : inq v' = inq v;
  kept_addr : id2addr v' = id2addr v;
  kept_counter : IDcounter v' = IDcounter v;
  kept_entries : entries v' = entries v;
  kept_public : is_public v' = is_public v;
  kept_timeout : timeout_IDrequest v' = timeout_IDrequest v;
  kept_id : nm_getID (manager v') = nm_getID (manager v);
  kept_active : isActive (manager v') = isActive (manager v);
  kept_self : getAddress (manager v') = getAddress (manager v) }.

Lemma kept_refl v : kept v v.
Proof. done. Qed.

Lemma kept_step v1 v2 v3 : kept v1 v2 → kept v2 v3 → kept v1 v3.
Proof. intros [] []. split; congruence. Qed.

Lemma stat_same v t ty k d :
  let v' := updateTransmissionStat v t ty k d in
  manager v' = manager v ∧ sendbuf_TCP v' = sendbuf_TCP v ∧ sendbuf_UDP v' = sendbuf_UDP v
  ∧ kept v v'.
Proof.
  cbv zeta. unfold updateTransmissionStat. destruct (_ || _); [done|].
  destruct (d =? 1); [done|]. by destruct (d =? 2).
Qed.

Lemma default_buf_ok v r t : bufs_ok v → VB_inv (default VB_default (find t (sendbuf v r))).
Proof.
  intros Hb. destruct (find t (sendbuf v r)) eqn:E; cbn; [|apply VB_new_inv].
  apply find_In in E. by eapply (proj1 (Forall_forall _ _) (proj2 (Hb r))) in E.
Qed.

Lemma outq_default v r t :
  vb_content (default VB_default (find t (sendbuf v r))) = outq v r t.
Proof. unfold outq. destruct (find t (sendbuf v r)); [done|apply VB_new_inv]. Qed.

(** [enqueue] appends the frame to one buffer. *)
Lemma enqueue_ok v t m r ty : bufs_ok v → Message_inv m →
  ∃ v', enqueue v t m r ty = Ok (v', wrap 22 (Z.of_nat (Message_sizeOf m)))
  ∧ bufs_ok v' ∧ manager v' = manager v ∧ kept v v'
  ∧ (∀ r' t', outq v' r' t' =
       if Bool.eqb r' r && (t' =? t) then outq v r' t' ++ framed ty m else outq v r' t').
Proof.
  intros Hb Hm. unfold enqueue. fold (sendbuf v r). cbv zeta.
  destruct (VB_add_ok _ (vh_bytes (out_header ty (Message_sizeOf m))) (default_buf_ok v r t Hb))
    as (b1 & -> & I1 & C1). rewrite bind_ok. cbn beta iota.
  destruct (VB_add_msg b1 m I1 Hm) as (b2 & -> & I2 & C2). rewrite bind_ok. cbn beta iota.
  rewrite C1, outq_default, <- app_assoc in C2. fold (framed ty m) in C2.
  set (v0 := if r then _ else _).
  destruct (stat_same v0 t (msgtype m) (Z.of_nat (msize m) + 4) 1) as (Em & Et & Eu & K).
  eexists. split; [reflexivity|].
  assert (Es : ∀ r', sendbuf (updateTransmissionStat v0 t (msgtype m) (Z.of_nat (msize m) + 4) 1) r'
                     = if Bool.eqb r' r then set t b2 (sendbuf v r) else sendbuf v r').
  { intros r'. unfold sendbuf. destruct r'; rewrite ?Et, ?Eu; unfold v0; by destruct r. }
  split; [|split; [|split]].
  - intros r'. rewrite Es. destruct (Bool.eqb r' r); [|apply Hb].
    destruct (Hb r). split; [by apply ordered_set|by apply Forall_set].
  - rewrite Em. unfold v0. by destruct r.
  - apply (kept_step _ v0); [|done]. unfold v0. by destruct r.
  - intros r' t'. unfold outq. rewrite Es.
    destruct (Bool.eqb_spec r' r) as [->|]; cbn [andb]; [|done].
    rewrite find_set. destruct (Z.eqb_spec t' t) as [->|]; [|done].
    by rewrite C2.
Qed.

(** The message with its sender filled in. *)
Definition filled v (m : Message) : Message :=
  if from m =? 0 then set_from m (nm_getID (manager v)) else m.

Lemma filled_inv v m : Message_inv m → Message_inv (filled v m).
Proof. unfold filled. by destruct (from m =? 0). Qed.

(** The queues after a frame for [t] was added. *)
Definition queued v v' (r : bool) (t : Z) (bs : list byte) : Prop :=
  ∀ r' t', outq v' r' t' = if Bool.eqb r' r && (t' =? t) then outq v r' t' ++ bs else outq v r' t'.

Lemma sendMessage_S f now v t m r ty :
  sendMessage_fuel (S f) now v t m r ty
  = sendMessage_with (sendMessage_fuel f now) now v t m r ty.
Proof. reflexivity. Qed.

(** To a connected host: at any depth of the recursion. *)
Lemma send_connected f now v t m r ty :
  isActive (manager v) = true → t ≠ nm_getID (manager v) → connected (manager v) t = true →
  bufs_ok v → Message_inv m →
  ∃ v', sendMessage_fuel (S f) now v t m r ty
        = Ok (v', filled v m, wrap 22 (Z.of_nat (Message_sizeOf (filled v m))))
  ∧ bufs_ok v' ∧ manager v' = manager v ∧ kept v v' ∧ queued v v' r t (framed ty (filled v m)).
Proof.
  intros Ha Hid Hc Hb Hm. rewrite sendMessage_S. unfold sendMessage_with. rewrite Ha. cbn [negb].
  fold (filled v m). destruct (Z.eqb_spec t (nm_getID (manager v))); [done|].
  unfold validateConnection_with. rewrite Hc, orb_true_r, bind_ok. cbn [negb].
  destruct (enqueue_ok v t (filled v m) r ty Hb (filled_inv v m Hm)) as (v' & -> & I & E & K & Q).
  rewrite bind_ok. cbn beta iota. eauto 10.
Qed.

(** The wire image of a control message: no targets, group and priority 0. *)
Definition control_wire (fr : Z) (bs : list byte) : list byte :=
  le_bytes 8 fr ++ le_bytes 4 (Z.of_nat (length bs)) ++ le_bytes 2 0 ++ le_bytes 1 0
  ++ le_bytes 1 0 ++ le_bytes 1 1 ++ le_bytes 1 0 ++ bs.

Definition control_frame (ty : VASTHeaderType) (fr : Z) (bs : list byte) : list byte :=
  vh_bytes (out_header ty (18 + length bs)) ++ control_wire fr bs.

(** A control message under construction: [bs] stored so far. *)
Definition control (m : Message) (bs : list byte) : Prop :=
  Message_inv m ∧ content m = bs ∧ malloc m = true ∧ from m = 0 ∧ msgtype m = 0
  ∧ msggroup m = 0 ∧ priority m = 0 ∧ reliable m = 1 ∧ targets m = [].

Lemma control_new : control (set_priority (Message_new 0 0) 0) [].
Proof.
  unfold control. destruct (Message_new_inv 0 0) as [I1 I2].
  split; [split; [exact I1|exact I2]|]. by splits.
Qed.

Lemma control_appends m m' a b : control m a → appends m m' b → control m' (a ++ b).
Proof.
  intros (I & C & M & F & T & G & P & R & Ts) (I' & C' & _ & S1 & S2 & S3 & S4 & S5 & S6 & S7).
  unfold control. splits; try congruence; done.
Qed.

Lemma control_store_int n m z bs : control m bs →
  ∃ m', store_int n m z = Ok (m', true) ∧ control m' (bs ++ le_bytes n z).
Proof.
  intros C. pose proof C as (I & _ & M & _).
  destruct (store_spec m (le_bytes n z) false I M) as (m' & E & A).
  exists m'. split; [exact E|]. by apply (control_appends m).
Qed.

Lemma control_wire_eq m bs id : control m bs →
  Message_sizeOf (set_from m id) = (18 + length bs)%nat
  ∧ msg_wire (set_from m id) = control_wire id bs.
Proof.
  intros (I & C & M & F & T & G & P & R & Ts).
  assert (L : msize m = length bs) by (rewrite <- C; symmetry; by apply length_content).
  split.
  - unfold Message_sizeOf. cbn [set_from msize targets length]. rewrite Ts, L. cbn [length]. lia.
  - assert (Ec : content (set_from m id) = bs) by exact C. unfold msg_wire. rewrite Ec.
    cbn [set_from from msize msgtype msggroup priority reliable targets].
    rewrite T, G, P, R, Ts, L. unfold control_wire. by rewrite app_nil_l.
Qed.

Lemma control_framed v ty m bs : control m bs →
  framed ty (filled v m) = control_frame ty (nm_getID (manager v)) bs.
Proof.
  intros C. destruct (control_wire_eq m bs (nm_getID (manager v)) C) as [E1 E2].
  destruct C as (_ & _ & _ & F & _). unfold filled. rewrite F. cbn [Z.eqb].
  unfold framed, control_frame. by rewrite E1, E2.
Qed.

(** The handshake a new connection begins with, if I have an id. *)
Definition hello v : list byte :=
  let id := nm_getID (manager v) in
  if id =? NET_ID_UNASSIGNED then [] else control_frame HANDSHAKE id (le_bytes 8 id).

Lemma handshake_ok f now v t :
  isActive (manager v) = true → t ≠ nm_getID (manager v) → connected (manager v) t = true →
  bufs_ok v →
  ∃ v', sendHandshake_with (sendMessage_fuel (S f) now) v t = Ok v'
  ∧ bufs_ok v' ∧ manager v' = manager v ∧ kept v v' ∧ queued v v' true t (hello v).
Proof.
  intros Ha Hid Hc Hb. unfold sendHandshake_with, hello. cbv zeta.
  destruct (Z.eqb_spec (nm_getID (manager v)) NET_ID_UNASSIGNED).
  - exists v. splits; try done. intros r' t'. rewrite app_nil_r. by destruct (_ && _).
  - destruct (control_store_int 8 _ (nm_getID (manager v)) [] control_new) as (m & -> & C).
    rewrite bind_ok. cbn beta iota. rewrite app_nil_l in C.
    destruct (send_connected f now v t m true HANDSHAKE) as (v' & -> & ? & ? & ? & Q);
      try done; [apply C|].
    rewrite bind_ok. cbn beta iota. rewrite (control_framed v HANDSHAKE m _ C) in Q. eauto 10.
Qed.

(** The depth does not matter for a connected host, hence not from 2 on. *)
Lemma send_connected_fuel f now v t m r ty :
  connected (manager v) t = true →
  sendMessage_fuel (S f) now v t m r ty = sendMessage_fuel 1 now v t m r ty.
Proof.
  intros Hc. rewrite !sendMessage_S. unfold sendMessage_with, validateConnection_with.
  by rewrite Hc, orb_true_r.
Qed.

Lemma connect_ok v now t a n ok :
  ready (manager v) → t ≠ NET_ID_UNASSIGNED →
  connect (manager v) now t (host (publicIP a)) (port (publicIP a)) = Ok (n, ok) →
  ready n ∧ pending n = pending (manager v) ∧ kept v (with_manager v n)
  ∧ (ok = true → connected n t = true).
Proof.
  intros Hr Ht Ec.
  destruct (connect_law (manager v) now t (host (publicIP a)) (port (publicIP a)) Hr)
    as (n' & ok' & E & R & P & A & I & S & _ & C).
  rewrite Ec in E. injection E as <- <-. splits; [done|done|by split|eauto].
Qed.

Lemma handshake_ext (send1 send2 : sender) v t :
  (∀ m, send1 v t m true HANDSHAKE = send2 v t m true HANDSHAKE) →
  sendHandshake_with send1 v t = sendHandshake_with send2 v t.
Proof.
  intros E. unfold sendHandshake_with. cbv zeta. destruct (_ =? _); [done|].
  generalize (store_int 8 (set_priority (Message_new 0 0) 0) (nm_getID (manager v))).
  intros [[m b]|]; [|done]. rewrite !bind_ok. cbn beta iota. by rewrite E.
Qed.

Lemma validate_fuel f now v t :
  ready (manager v) → t ≠ NET_ID_UNASSIGNED →
  validateConnection_with (sendMessage_fuel (S f) now) v now t
  = validateConnection_with (sendMessage_fuel 1 now) v now t.
Proof.
  intros Hr Ht. unfold validateConnection_with.
  destruct ((nm_getID (manager v) =? t) || connected (manager v) t); [done|].
  destruct (find t (id2addr v)) as [a|]; [|done].
  destruct (connect (manager v) now t _ _) as [[n ok]|] eqn:Ec; [|by rewrite !bind_fail].
  rewrite !bind_ok. cbv zeta.
  destruct (connect_ok v now t a n ok Hr Ht Ec) as (_ & _ & _ & C).
  destruct ok; cbn [negb]; [|reflexivity].
  rewrite (handshake_ext (sendMessage_fuel (S f) now) (sendMessage_fuel 1 now)); [reflexivity|].
  intros m. apply send_connected_fuel. by apply C.
Qed.

Lemma send_fuel f now v t m r ty :
  ready (manager v) → t ≠ NET_ID_UNASSIGNED →
  sendMessage_fuel (S (S f)) now v t m r ty = sendMessage now v t m r ty.
Proof.
  intros Hr Ht. unfold sendMessage, SEND_DEPTH. rewrite !sendMessage_S.
  unfold sendMessage_with. by rewrite validate_fuel.
Qed.

(** [sendMessage] to another host: what is queued. *)
Lemma send_queues now v t m r ty :
  ready (manager v) → isActive (manager v) = true → bufs_ok v → Message_inv m →
  t ≠ nm_getID (manager v) → t ≠ NET_ID_UNASSIGNED →
  ∃ v' k, sendMessage now v t m r ty = Ok (v', filled v m, k)
  ∧ ready (manager v') ∧ pending (manager v') = pending (manager v) ∧ bufs_ok v' ∧ kept v v'
  ∧ (∀ r' t', t' ≠ t → outq v' r' t' = outq v r' t')
  ∧ if connected (manager v) t
    then queued v v' r t (framed ty (filled v m))
    else match find t (id2addr v) with
    | None => v' = v ∧ k = 0
    | Some a => ∃ n ok,
        connect (manager v) now t (host (publicIP a)) (port (publicIP a)) = Ok (n, ok)
        ∧ if ok : bool
          then manager v' = n
            ∧ outq v' true t = outq v true t ++ hello v ++ (if r then framed ty (filled v m) else [])
            ∧ outq v' false t = outq v false t ++ (if r then [] else framed ty (filled v m))
          else k = 0 ∧ ∀ r', outq v' r' t = outq v r' t
    end.
Proof.
  intros Hr Ha Hb Hm Hid Ht.
  destruct (connected (manager v) t) eqn:Hc.
  { destruct (send_connected 1 now v t m r ty Ha Hid Hc Hb Hm) as (v' & E & B & M & K & Q).
    exists v'. eexists. split; [exact E|]. rewrite M. splits; try done.
    intros r' t' Hne. rewrite Q. destruct (Z.eqb_spec t' t); [done|]. by rewrite andb_false_r. }
  unfold sendMessage, SEND_DEPTH. rewrite sendMessage_S. unfold sendMessage_with. rewrite Ha. cbn [negb]. fold (filled v m).
  destruct (Z.eqb_spec t (nm_getID (manager v))); [done|].
  unfold validateConnection_with. rewrite Hc, orb_false_r.
  destruct (Z.eqb_spec (nm_getID (manager v)) t); [by subst t|].
  destruct (find t (id2addr v)) as [a|] eqn:Ea.
  2: { rewrite bind_ok. cbn [negb]. exists v, 0. by splits. }
  destruct (connect_law (manager v) now t (host (publicIP a)) (port (publicIP a)) Hr)
    as (nn & ok & Ec & _).
  destruct (connect_ok v now t a nn ok Hr Ht Ec) as (R & P & K & C).
  rewrite Ec, bind_ok. cbn beta iota. set (v1 := with_manager v nn) in *.
  assert (B1 : bufs_ok v1) by exact Hb.
  assert (O1 : ∀ r' t', outq v1 r' t' = outq v r' t') by done.
  destruct ok; cbn [negb].
  2: { rewrite bind_ok. cbn [negb]. exists v1, 0.
       splits; try done. exists nn, false. by splits. }
  specialize (C eq_refl).
  assert (Ei : nm_getID (manager v1) = nm_getID (manager v)) by apply K.
  destruct (handshake_ok 0 now v1 t) as (v2 & -> & B2 & M2 & K2 & Q2);
    [by rewrite (kept_active _ _ K)|by rewrite Ei|exact C|done|].
  rewrite !bind_ok. cbn [negb].
  destruct (enqueue_ok v2 t (filled v m) r ty B2 (filled_inv v m Hm)) as (v3 & -> & B3 & M3 & K3 & Q3).
  rewrite bind_ok. cbn beta iota. exists v3. eexists. split; [reflexivity|].
  assert (Eh : hello v1 = hello v) by (unfold hello; by rewrite Ei).
  rewrite M3, M2. splits; try done.
  - apply (kept_step _ v1); [exact K|]. by apply (kept_step _ v2).
  - intros r' t' Hne. rewrite (Q3 r' t'). destruct (Z.eqb_spec t' t) as [|Hb']; [done|].
    rewrite andb_false_r, (Q2 r' t'). apply Z.eqb_neq in Hb'. rewrite Hb', andb_false_r. apply O1.
  - exists nn, true. split; [done|].
    rewrite (Q3 true t), (Q3 false t), (Q2 true t), (Q2 false t), Eh, Z.eqb_refl.
    split; [done|]. split; destruct r; cbn; by rewrite ?app_nil_r, <- ?app_assoc.
Qed.

(** C33: [sendMessage] to another host, whatever the binding. The recursion through the
    handshake ends (more depth changes nothing) and nothing fails. To a connected host
    the framed message, with its sender filled in, is appended to the host's buffer. To a
    host that is not connected nothing is queued if its address is unknown or [connect]
    fails; otherwise the handshake, if this host has an id, and then the message are.
    Other hosts' buffers, the received messages and the addresses stay. *)
Theorem sendMessage_queues now v t m r ty :
  ready (manager v) → isActive (manager v) = true → bufs_ok v → Message_inv m →
  t ≠ nm_getID (manager v) → t ≠ NET_ID_UNASSIGNED →
  (∀ f, sendMessage_fuel (S (S f)) now v t m r ty = sendMessage now v t m r ty)
  ∧ ∃ v' k, sendMessage now v t m r ty = Ok (v', filled v m, k)
  ∧ ready (manager v') ∧ pending (manager v') = pending (manager v) ∧ bufs_ok v' ∧ kept v v'
  ∧ (∀ r' t', t' ≠ t → outq v' r' t' = outq v r' t')
  ∧ if connected (manager v) t
    then queued v v' r t (framed ty (filled v m))
    else match find t (id2addr v) with
    | None => v' = v ∧ k = 0
    | Some a => ∃ n ok,
        connect (manager v) now t (host (publicIP a)) (port (publicIP a)) = Ok (n, ok)
        ∧ if ok : bool
          then manager v' = n
            ∧ outq v' true t = outq v true t ++ hello v ++ (if r then framed ty (filled v m) else [])
            ∧ outq v' false t = outq v false t ++ (if r then [] else framed ty (filled v m))
          else k = 0 ∧ ∀ r', outq v' r' t = outq v r' t
    end.
Proof.
  intros Hr Ha Hb Hm Hid Ht. split; [intros f; by apply send_fuel|by apply send_queues].
Qed.

(** *** Flushing *)

(** A timestamp is recorded for connected hosts only, so that no connection is both
    timed out and closed. *)
Lemma clean_noop v now ms : cleanConnections v now ms = Ok v.
Proof.
  unfold cleanConnections. rewrite filter_none; [done|].
  apply Forall_forall. intros id _. unfold inactive. cbv zeta.
  destruct (Z.eqb_spec (lastTime (manager v) id) 0); cbn [orb]; [done|].
  destruct (_ <? _); [done|]. by rewrite (lastTime_law (manager v) id).
Qed.

(** What [flush] is to send: every non-empty reliable buffer; every non-empty other
    buffer whose host has an address. *)
Definition tcp_out (bufs : list (Z * VASTBuffer)) : list (Z * list byte * option Addr) :=
  (λ p, (fst p, vb_content (snd p), None)) <$> filter (λ p, vb_content (snd p) ≠ []) bufs.

Definition udp_out (addrs : list (Z * Addr)) (bufs : list (Z * VASTBuffer))
    : list (Z * list byte * option Addr) :=
  (λ p, (fst p, vb_content (snd p), find (fst p) addrs))
    <$> filter (λ p, vb_content (snd p) ≠ [] ∧ has (fst p) addrs = true) bufs.

Definition send_each (s : N * Z) (l : list (Z * list byte * option Addr)) : N * Z :=
  foldl (λ s x, let '(t, bs, a) := x in
                let '(n, k) := send (fst s) t bs a in (n, u64 (snd s + k))) s l.

Definition cleared (bufs : list (Z * VASTBuffer)) : list (Z * VASTBuffer) :=
  (λ p, (fst p, VB_clear (snd p))) <$> bufs.

Lemma size_content b : VB_inv b → (0 <? vb_size b)%nat = bool_decide (vb_content b ≠ []).
Proof.
  intros Hb. pose proof (length_vb_content b Hb) as L.
  destruct (Nat.ltb_spec 0 (vb_size b)); symmetry.
  - apply bool_decide_eq_true. intros E. rewrite E in L. cbn in L. lia.
  - apply bool_decide_eq_false. intros E. apply E. apply length_zero_iff_nil. lia.
Qed.

Lemma flush_buf_ok n t b go a : VB_inv b →
  flush_buf n t b go a
  = Ok (if bool_decide (vb_content b ≠ []) && go then send n t (vb_content b) a else (n, 0),
        VB_clear b).
Proof.
  intros Hb. unfold flush_buf. rewrite size_content by done.
  destruct (bool_decide _ && go); [|by rewrite bind_ok].
  rewrite fetch_vb, !bind_ok by done. cbn beta iota. by destruct (send n t _ a).
Qed.

Lemma flush_TCP_ok n total bufs : fits 64 total → Forall (λ p, VB_inv (snd p)) bufs →
  flush_TCP n total bufs = Ok (send_each (n, total) (tcp_out bufs), cleared bufs).
Proof.
  intros Ht Hb. revert n total Ht. induction Hb as [|[t b] bufs Hb1 _ IH]; intros n total Ht; [done|].
  cbn [flush_TCP]. rewrite flush_buf_ok by done. rewrite bind_ok, andb_true_r.
  unfold tcp_out. rewrite filter_cons. cbn [snd] in *.
  destruct (decide (vb_content b ≠ [])) as [d|d].
  - rewrite bool_decide_eq_true_2 by done. destruct (send n t (vb_content b) None) as [n' k] eqn:Es.
    cbn beta iota. rewrite IH by by apply wrap_fits. rewrite bind_ok.
    unfold send_each, tcp_out. cbn [fmap list_fmap foldl fst snd]. rewrite Es.
    by destruct (foldl _ _ _).
  - rewrite bool_decide_eq_false_2 by done. cbn beta iota. rewrite Z.add_0_r, wrap_id by done.
    rewrite IH by done. rewrite bind_ok. unfold tcp_out. by destruct (send_each _ _).
Qed.

Lemma flush_UDP_ok addrs n total bufs : fits 64 total → Forall (λ p, VB_inv (snd p)) bufs →
  flush_UDP addrs n total bufs = Ok (send_each (n, total) (udp_out addrs bufs), cleared bufs).
Proof.
  intros Ht Hb. revert n total Ht. induction Hb as [|[t b] bufs Hb1 _ IH]; intros n total Ht; [done|].
  cbn [flush_UDP]. rewrite flush_buf_ok by done. rewrite bind_ok.
  unfold udp_out. rewrite filter_cons. cbn [fst snd] in *.
  destruct (decide (vb_content b ≠ [] ∧ has t addrs = true)) as [[d1 d2]|d].
  - rewrite bool_decide_eq_true_2, d2 by done.
    destruct (send n t (vb_content b) (find t addrs)) as [n' k] eqn:Es.
    cbn [andb]. cbn beta iota. rewrite IH by by apply wrap_fits. rewrite bind_ok.
    unfold send_each, udp_out. cbn [fmap list_fmap foldl fst snd]. rewrite Es.
    by destruct (foldl _ _ _).
  - assert (E : bool_decide (vb_content b ≠ []) && has t addrs = false).
    { destruct (bool_decide_reflect (vb_content b ≠ [])); cbn; [|done].
      destruct (has t addrs) eqn:Eh; [|done]. by destruct d. }
    rewrite E. cbn beta iota. rewrite Z.add_0_r, wrap_id by done.
    rewrite IH by done. rewrite bind_ok. unfold udp_out. by destruct (send_each _ _).
Qed.

Lemma send_each_app s l k : send_each s (l ++ k) = send_each (send_each s l) k.
Proof. unfold send_each. by rewrite foldl_app. Qed.

Lemma send_each_same s l : ready (fst s) →
  ready (fst (send_each s l)) ∧ pending (fst (send_each s l)) = pending (fst s)
  ∧ same_node (fst s) (fst (send_each s l)).
Proof.
  revert s. induction l as [|[[t bs] a] l IH]; intros [n k] Hr; [done|].
  unfold send_each in *. cbn [foldl fst snd] in *. destruct (send n t bs a) as [n' k'] eqn:Es.
  destruct (send_law n t bs a n' k' Hr Es) as (R & P & S).
  destruct (IH (n', u64 (k + k')) R) as (R2 & P2 & S2). cbn [fst] in *.
  splits; [done|congruence|by eapply same_node_trans].
Qed.

Lemma send_each_fits s l : fits 64 (snd s) → fits 64 (snd (send_each s l)).
Proof.
  revert s. induction l as [|[[t bs] a] l IH]; intros [n k] Hf; [done|].
  unfold send_each in *. cbn [foldl fst snd]. destruct (send n t bs a). apply IH.
  by apply wrap_fits.
Qed.

Lemma cleared_ok bufs : ordered bufs → Forall (λ p, VB_inv (snd p)) bufs →
  (ordered (cleared bufs) ∧ Forall (λ p, VB_inv (snd p)) (cleared bufs))
  ∧ fst <$> cleared bufs = fst <$> bufs
  ∧ ∀ t, match find t (cleared bufs) with Some b => vb_content b | None => [] end = [].
Proof.
  intros Ho Hb. splits.
  - induction Ho as [|[k b] l _ IH Hl]; [constructor|]. cbn [cleared fmap list_fmap].
    constructor; [by apply IH; apply Forall_inv_tail in Hb|]. apply Forall_fmap. exact Hl.
  - unfold cleared. apply Forall_fmap. eapply Forall_impl; [exact Hb|].
    intros [t b] Hi. by apply VB_clear_inv.
  - unfold cleared. rewrite <- list_fmap_compose. done.
  - intros t. clear Ho. induction bufs as [|[k b] bufs IH]; [done|]. cbn.
    destruct (t =? k); [done|]. apply IH. by apply Forall_inv_tail in Hb.
Qed.

(** A whole [flush]. *)
Lemma flush_ok now ms v :
  ready (manager v) → bufs_ok v →
  ∃ v' n total, flush v now ms = Ok (v', total)
  ∧ (n, total) = send_each (manager v, 0) (tcp_out (sendbuf_TCP v)
                                           ++ udp_out (id2addr v) (sendbuf_UDP v))
  ∧ manager v' = n ∧ ready n ∧ pending n = pending (manager v) ∧ kept v v' ∧ bufs_ok v'
  ∧ (∀ r t, outq v' r t = []) ∧ ∀ r, fst <$> sendbuf v' r = fst <$> sendbuf v r.
Proof.
  intros Hr Hb. unfold flush.
  rewrite flush_TCP_ok by (done || apply (proj2 (Hb true))). rewrite bind_ok.
  set (s1 := send_each _ (tcp_out _)).
  assert (F1 : fits 64 (snd s1)) by by apply send_each_fits.
  destruct s1 as [n1 t1] eqn:E1. cbn [snd] in F1. cbn beta iota.
  rewrite flush_UDP_ok by (done || apply (proj2 (Hb false))). rewrite bind_ok.
  set (s2 := send_each (n1, t1) _).
  assert (E2 : send_each (manager v, 0) (tcp_out (sendbuf_TCP v)
                 ++ udp_out (id2addr v) (sendbuf_UDP v)) = s2).
  { rewrite send_each_app. unfold s2. by rewrite <- E1. }
  destruct (send_each_same (manager v, 0) (tcp_out (sendbuf_TCP v)
    ++ udp_out (id2addr v) (sendbuf_UDP v)) Hr) as (R & P & [S1 S2 S3 _]).
  rewrite E2 in R, P, S1, S2, S3.
  destruct s2 as [n2 t2]. cbn [fst] in *. cbn beta iota. cbv zeta.
  destruct (cleared_ok _ (proj1 (Hb true)) (proj2 (Hb true))) as (CT & KT & OT).
  destruct (cleared_ok _ (proj1 (Hb false)) (proj2 (Hb false))) as (CU & KU & OU).
  destruct (_ <? _); [rewrite clean_noop, bind_ok|];
    (eexists _, n2, t2; split; [reflexivity|]; splits; try done;
     [intros [|]; done|intros [|] t; [apply OT|apply OU]|intros [|]; done]).
Qed.

(** [flush] hands the network exactly the bytes queued: one [send] per host and kind
    of buffer that is not empty, in the order of the host ids, the reliable buffers
    first; the others only if the host's address is known. Every buffer is empty
    afterwards, none is dropped, and the number of bytes returned is the sum of what the
    sends report. *)
Theorem flush_sends now ms v :
  ready (manager v) → bufs_ok v →
  ∃ v' n total, flush v now ms = Ok (v', total)
  ∧ (n, total) = send_each (manager v, 0) (tcp_out (sendbuf_TCP v)
                                           ++ udp_out (id2addr v) (sendbuf_UDP v))
  ∧ manager v' = n ∧ ready n ∧ pending n = pending (manager v) ∧ kept v v' ∧ bufs_ok v'
  ∧ (∀ r t, outq v' r t = []) ∧ ∀ r, fst <$> sendbuf v' r = fst <$> sendbuf v r.
Proof. apply flush_ok. Qed.

(** [cleanConnections] never removes a connection or a buffer, however long its host has
    been silent: a timestamp is recorded for connected hosts only ([getLastTime] is 0 for
    others), and a connected host is not removed. *)
Theorem cleanup_never_removes v now ms : cleanConnections v now ms = Ok v.
Proof. apply clean_noop. Qed.

(** *** Statistics *)

(** A transmission as [updateTransmissionStat] is told of it. *)
Record transmission := mkTr { tr_target : Z; tr_type : Z; tr_size : Z; tr_dir : Z }.

Definition record_all v (l : list transmission) : VASTnet N :=
  foldl (λ v x, updateTransmissionStat v (tr_target x) (tr_type x) (tr_size x) (tr_dir x)) v l.

(** Transmissions in direction [d] to or from other hosts. *)
Definition counted v (d : Z) (x : transmission) : bool :=
  (tr_dir x =? d) && negb ((tr_target x =? nm_getID (manager v)) || has (tr_target x) (local_targets v)).

Definition bytes (l : list transmission) : Z := foldr (λ x s, tr_size x + s) 0 l.

Lemma u64_add a b c : u64 (u64 (a + b) + c) = u64 (a + (b + c)).
Proof. unfold wrap. by rewrite Z.add_mod_idemp_l, Z.add_assoc. Qed.

Lemma find_add_to k k' s m :
  default 0 (find k (add_to k' s m))
  = if k =? k' then u64 (default 0 (find k' m) + s) else default 0 (find k m).
Proof. unfold add_to. rewrite find_set. by destruct (k =? k'). Qed.

(** One transmission. *)
Lemma stat_step v x ty :
  let v' := updateTransmissionStat v (tr_target x) (tr_type x) (tr_size x) (tr_dir x) in
  manager v' = manager v ∧ local_targets v' = local_targets v
  ∧ getSendSize v' ty = (if counted v 1 x && ((ty =? 0) || (ty =? tr_type x))
                         then u64 (getSendSize v ty + tr_size x) else getSendSize v ty)
  ∧ getReceiveSize v' ty = (if counted v 2 x && ((ty =? 0) || (ty =? tr_type x))
                            then u64 (getReceiveSize v ty + tr_size x) else getReceiveSize v ty).
Proof.
  cbv zeta. unfold updateTransmissionStat, counted, getSendSize, getReceiveSize.
  destruct ((tr_target x =? nm_getID (manager v)) || has (tr_target x) (local_targets v));
    [by rewrite !andb_false_r|].
  destruct (Z.eqb_spec (tr_dir x) 1) as [H1|H1];
    [destruct (Z.eqb_spec (tr_dir x) 2); [lia|]
    |destruct (Z.eqb_spec (tr_dir x) 2) as [H2|H2]; cbn [negb andb]; [|done]]; cbn [negb andb];
    cbn [with_stats stats sendsize recvsize type2sendsize type2recvsize manager local_targets];
    splits; try done; destruct (ty =? 0); cbn [orb]; try done; rewrite find_add_to;
    destruct (Z.eqb_spec ty (tr_type x)) as [->|]; done.
Qed.

(** The transmission statistics. After any sequence of transmissions, the total sent
    (received) has grown by the bytes sent to (received from) other hosts, those of this
    host and of the targets recorded as local left out, and the size by message type by
    the bytes of that type, all modulo 2^64. *)
Theorem transmission_sums v l ty :
  fits 64 (getSendSize v ty) → fits 64 (getReceiveSize v ty) →
  let of_type := λ x : transmission, ((ty =? 0) || (ty =? tr_type x)) = true in
  getSendSize (record_all v l) ty
  = u64 (getSendSize v ty + bytes (filter (λ x, counted v 1 x = true ∧ of_type x) l))
  ∧ getReceiveSize (record_all v l) ty
  = u64 (getReceiveSize v ty + bytes (filter (λ x, counted v 2 x = true ∧ of_type x) l)).
Proof.
  cbv zeta. revert v. induction l as [|x l IH]; intros v Hs Hr.
  { cbn. by rewrite !Z.add_0_r, !wrap_id. }
  unfold record_all in *. cbn [foldl].
  destruct (stat_step v x ty) as (Em & El & Es & Er).
  set (v' := updateTransmissionStat v _ _ _ _) in *.
  assert (Ec : ∀ d y, counted v' d y = counted v d y)
    by (intros d y; unfold counted; by rewrite Em, El).
  destruct (IH v') as [I1 I2].
  { rewrite Es. by destruct (counted v 1 x && _); [apply wrap_fits|]. }
  { rewrite Er. by destruct (counted v 2 x && _); [apply wrap_fits|]. }
  rewrite I1, I2, Es, Er. clear I1 I2.
  assert (Ef : ∀ d, filter (λ y, counted v' d y = true ∧ ((ty =? 0) || (ty =? tr_type y)) = true) l
                  = filter (λ y, counted v d y = true ∧ ((ty =? 0) || (ty =? tr_type y)) = true) l)
    by (intros d; apply list_filter_iff; intros y; by rewrite Ec).
  rewrite !Ef, !filter_cons. split.
  - destruct (counted v 1 x && _) eqn:Eb;
      [apply andb_true_iff in Eb; rewrite decide_True by done; cbn [bytes foldr]; apply u64_add|].
    rewrite decide_False; [done|]. by rewrite <- andb_true_iff, Eb.
  - destruct (counted v 2 x && _) eqn:Eb;
      [apply andb_true_iff in Eb; rewrite decide_True by done; cbn [bytes foldr]; apply u64_add|].
    rewrite decide_False; [done|]. by rewrite <- andb_true_iff, Eb.
Qed.

(** *** A batch of messages *)

(** [sendMessage] of several regular messages to one host. *)
Fixpoint send_all (now : Z) v (t : Z) (r : bool) (ms : list Message)
    : outcome (VASTnet N) :=
  match ms with
  | [] => Ok v
  | m :: ms => '(v, _, _) ← sendMessage now v t m r REGULAR; send_all now v t r ms
  end.

Lemma send_all_queues now v t r ms :
  isActive (manager v) = true → t ≠ nm_getID (manager v) → connected (manager v) t = true →
  bufs_ok v → Forall Message_inv ms →
  ∃ v', send_all now v t r ms = Ok v' ∧ bufs_ok v' ∧ manager v' = manager v ∧ kept v v'
  ∧ queued v v' r t (concat (framed REGULAR <$> (filled v <$> ms))).
Proof.
  intros Ha Hid Hc Hb Hms. revert v Ha Hid Hc Hb. induction Hms as [|m ms Hm _ IH];
    intros v Ha Hid Hc Hb.
  { exists v. splits; try done. intros r' t'. cbn. rewrite app_nil_r. by destruct (_ && _). }
  destruct (send_connected 1 now v t m r REGULAR Ha Hid Hc Hb Hm) as (v1 & E & B1 & M1 & K1 & Q1).
  cbn [send_all]. unfold sendMessage, SEND_DEPTH. rewrite E, bind_ok. cbn beta iota.
  destruct (IH v1) as (v' & E' & B' & M' & K' & Q'); [by rewrite M1|by rewrite M1|by rewrite M1|done|].
  exists v'. splits; [done|done|congruence|by apply (kept_step _ v1)|].
  assert (Ef : filled v1 <$> ms = filled v <$> ms).
  { apply list_fmap_ext. intros i m' _. unfold filled. by rewrite M1. }
  intros r' t'. specialize (Q1 r' t'). rewrite Q', Ef. cbn [fmap list_fmap concat].
  destruct (_ && _); rewrite Q1; [by rewrite <- app_assoc|done].
Qed.

(** One buffer that is not empty. *)
Lemma one_buffer (bufs : list (Z * VASTBuffer)) t bs :
  ordered bufs → bs ≠ [] →
  (∀ t', match find t' bufs with Some b => vb_content b | None => [] end
         = if t' =? t then bs else []) →
  ∃ b, vb_content b = bs ∧ ∀ P (DP : ∀ p, Decision (P p)),
    P (t, b) → filter (λ p, vb_content (snd p) ≠ [] ∧ P p) bufs = [(t, b)].
Proof.
  intros Ho Hne Hf. pose proof (Hf t) as Ht. rewrite Z.eqb_refl in Ht.
  destruct (find t bufs) as [b|] eqn:E; [|by destruct bs].
  exists b. split; [done|]. intros P DP HP. clear Ht. 
  induction Ho as [|[k c] l Hs IH Hl]; [done|]. cbn [find] in E. rewrite filter_cons.
  destruct (Z.eqb_spec t k) as [->|Hk].
  - injection E as ->. pose proof (Hf k) as Hk. cbn [find] in Hk. rewrite !Z.eqb_refl in Hk.
    rewrite decide_True by (split; [cbn; congruence|done]). f_equal.
    apply filter_none. apply Forall_forall. intros [k' c'] Hin [Hc' _].
    assert (Hlt : k < k') by exact (proj1 (Forall_forall _ _) Hl _ Hin).
    pose proof (Hf k') as Hk'. cbn [find] in Hk'.
    destruct (Z.eqb_spec k' k); [lia|].
    rewrite (In_find k' c' l Hs Hin) in Hk'. done.
  - pose proof (Hf k) as Hk'. cbn [find] in Hk'. rewrite Z.eqb_refl in Hk'.
    destruct (Z.eqb_spec k t); [by subst|]. rewrite decide_False by (cbn; tauto).
    apply IH; [|done]. intros t'. specialize (Hf t'). cbn [find] in Hf.
    destruct (Z.eqb_spec t' k) as [Etk|]; [rewrite Etk|exact Hf].
    destruct (Z.eqb_spec k t); [done|].
    rewrite (find_key_lt (k, c) k l Hl ltac:(cbn; lia)). done.
Qed.

Lemma no_buffer (bufs : list (Z * VASTBuffer)) (P : Z * VASTBuffer → Prop)
    (DP : ∀ p, Decision (vb_content (snd p) ≠ [] ∧ P p)) :
  ordered bufs → (∀ t, match find t bufs with Some b => vb_content b | None => [] end = []) →
  filter (λ p, vb_content (snd p) ≠ [] ∧ P p) bufs = [].
Proof.
  intros Ho Hf. apply filter_none, Forall_forall. intros [k b] Hin [Hb _].
  specialize (Hf k). by rewrite (In_find k b bufs Ho Hin) in Hf.
Qed.

Lemma tcp_filter (bufs : list (Z * VASTBuffer)) :
  filter (λ p, vb_content (snd p) ≠ []) bufs = filter (λ p, vb_content (snd p) ≠ [] ∧ True) bufs.
Proof. apply list_filter_iff. tauto. Qed.

(** A flush with only one buffer that is not empty. *)
Lemma flush_single now ms v r t bs :
  ready (manager v) → bufs_ok v → bs ≠ [] →
  (∀ r' t', outq v r' t' = if Bool.eqb r' r && (t' =? t) then bs else []) →
  (r = false → has t (id2addr v) = true) →
  ∃ v' total, flush v now ms = Ok (v', total) ∧ kept v v'
  ∧ manager v' = fst (send (manager v) t bs (if r then None else find t (id2addr v))).
Proof.
  intros Hr Hb Hne Hq Hrt. destruct (flush_ok now ms v Hr Hb) as (v' & n & total & E & Es & Em & _ & _ & K & _).
  exists v', total. split; [done|]. split; [done|]. rewrite Em. clear E Em K.
  assert (Hs : ∀ x, (n, total) = send_each (manager v, 0) [(t, bs, x)] → n = fst (send (manager v) t bs x)).
  { intros x. unfold send_each. cbn [foldl fst]. destruct (send (manager v) t bs x). by intros [= -> _]. }
  unfold tcp_out, udp_out in Es. destruct r; apply Hs; rewrite Es; f_equal.
  - destruct (one_buffer (sendbuf_TCP v) t bs (proj1 (Hb true)) Hne (Hq true)) as (b & Eb & F).
    rewrite (no_buffer _ (λ p, has (fst p) (id2addr v) = true) _ (proj1 (Hb false)) (Hq false)).
    rewrite tcp_filter, (F (λ _, True) _ I). cbn [fmap list_fmap app fst snd]. by rewrite Eb.
  - destruct (one_buffer (sendbuf_UDP v) t bs (proj1 (Hb false)) Hne (Hq false)) as (b & Eb & F).
    rewrite tcp_filter, (no_buffer _ (λ _, True) _ (proj1 (Hb true)) (Hq true)).
    rewrite (F (λ p, has (fst p) (id2addr v) = true)) by (by apply Hrt).
    cbn [fmap list_fmap app fst snd]. by rewrite Eb.
Qed.
End sending.
