(* ===== verification/VastReceive.v ===== *)
(** Receiving through [VASTnet]: the reassembly of messages from the byte strings the
    network delivers, however they are cut, and the order in which [receiveMessage] hands
    them out. *)

From S2P Require Import Prelude Bytes StdMap Float Serial Message VastBuffer NetManager.
From S2P Require Import NetInterface VastNet VastSend.
From Stdlib Require Import Sorting.Sorted.
Local Open Scope Z_scope.

(** A message that arrives as it was sent: at most 255 targets, at most 2^22 - 1 bytes. *)
Definition transferable (m : Message) : Prop :=
  Message_inv m ∧ Message_valid m ∧ (length (targets m) < 256)%nat
  ∧ Z.of_nat (Message_sizeOf m) < 2 ^ 22.

(** [m'] is [m] as received: same contents, ready to be extracted from the start. *)
Definition arrived (m' m : Message) : Prop :=
  Message_contentEquals m' m ∧ Message_inv m' ∧ mcurr m' = 0%nat.

Lemma out_header_valid ty n : VASTHeader_valid (out_header ty n).
Proof.
  unfold VASTHeader_valid, out_header, fits. cbn [vh_start vh_type msg_size vh_end].
  pose proof (wrap_fits 22 (Z.of_nat n)) as [H1 H2]; [done|].
  splits; try done; destruct ty; cbn; lia.
Qed.

Lemma transferable_size ty m : transferable m →
  Z.to_nat (msg_size (out_header ty (Message_sizeOf m))) = Message_sizeOf m.
Proof.
  intros (_ & _ & _ & Hs). cbn [out_header msg_size]. rewrite wrap_id, Nat2Z.id; [done|].
  split; [lia|done].
Qed.

Lemma length_framed ty m : Message_inv m → length (framed ty m) = (4 + Message_sizeOf m)%nat.
Proof. intros. unfold framed. by rewrite length_app, length_vh_bytes, length_msg_wire. Qed.

Lemma out_header_ok ty n : vh_ok (out_header ty n) = true.
Proof. reflexivity. Qed.

Lemma type_code_inv ty : type_of_code (type_code ty) = Some ty.
Proof. by destruct ty. Qed.

Section receiving.
Context {N : Type} `{NetManagerLaws N}.
Implicit Types v : VASTnet N.

(** A received message in the priority queue. *)
Definition insert_msg (now f : Z) (q : list (Z * FULL_VMSG)) (m : Message) :=
  minsert (priority m) (mkFull f now m) q.

Lemma store_active v now f m : isActive (manager v) = true → f ≠ NET_ID_UNASSIGNED →
  storeVASTMessage v now f m
  = (with_inq v (set_full (inq v) (insert_msg now f (full_queue (inq v)) m) (in_recvmsg (inq v))), true).
Proof.
  intros Ha Hf. unfold storeVASTMessage. rewrite Ha. cbn [negb].
  by destruct (Z.eqb_spec f NET_ID_UNASSIGNED).
Qed.

Lemma deserialize_transferable m ty rest : transferable m →
  ∃ m', Message_deserialize (Message_new 0 0) (Some (msg_wire m ++ rest))
          (Z.to_nat (msg_size (out_header ty (Message_sizeOf m))))
        = Ok (m', (msize m + MSG_HEADER)%nat) ∧ arrived m' m.
Proof.
  intros Hs. rewrite transferable_size by done. destruct Hs as (Hi & Hv & Ht & _).
  destruct (Message_deserialize_wire m (Message_new 0 0) rest (Message_sizeOf m) Hi
    (Message_new_inv 0 0) Hv Ht (le_n _)) as (m' & E & C & P & I).
  exists m'. split; [exact E|]. unfold arrived. by splits.
Qed.

(** A complete regular message. *)
Lemma process_regular v now junk f m rest :
  isActive (manager v) = true → f ≠ NET_ID_UNASSIGNED → transferable m →
  ∃ m', arrived m' m ∧
  processVASTMessage v now junk (out_header REGULAR (Message_sizeOf m)) (msg_wire m ++ rest) f
  = Ok (with_inq v (set_full (inq v) (insert_msg now f (full_queue (inq v)) m') (in_recvmsg (inq v))),
        true).
Proof.
  intros Ha Hf Hs. destruct (deserialize_transferable m REGULAR rest Hs) as (m' & E & A).
  exists m'. split; [done|]. unfold processVASTMessage. rewrite E, bind_ok. cbn beta iota.
  destruct (Nat.eqb_spec (msize m + MSG_HEADER) 0); [unfold MSG_HEADER in *; lia|].
  cbn [vh_type out_header]. rewrite type_code_inv. by rewrite store_active.
Qed.

(** *** One turn of the loop on a byte string of a message that is being received *)

Definition hq_ok (hq : HALF_VMSG) (c : list byte) : Prop :=
  VB_inv (hq_buf hq) ∧ vb_content (hq_buf hq) = c ∧ received hq = length c.

Lemma hq_new_ok h : hq_ok (HALF_new h) [].
Proof. destruct (VB_new_inv (4 + Z.to_nat (msg_size h))). by split. Qed.

Definition chunk (f : Z) (bs : list byte) (x : NetSocketMsg) : Prop :=
  fromhost x = f ∧ nsm_msg x = Some bs.

Lemma turn_partial v now junk x f bs hq c :
  chunk f bs x → bs ≠ [] → find_half v f bs = Ok (Some hq) → hq_ok hq c →
  (length c + length bs < 4 + Z.to_nat (msg_size (hq_header hq)))%nat →
  ∃ hq', process_turn v now junk x = Ok (with_half v (set f hq' (half_queue (inq v))), 1%nat)
  ∧ hq_ok hq' (c ++ bs) ∧ hq_header hq' = hq_header hq.
Proof.
  intros [Ef Eb] Hne Eh (I & C & R) Hlt. unfold process_turn. rewrite Ef, Eb. cbn [from_option]; unfold id.
  destruct (Nat.eqb_spec (length bs) 0) as [E0|_]; [by apply length_zero_iff_nil in E0|].
  rewrite Eh, bind_ok. cbv zeta. rewrite R.
  rewrite Nat.min_r, take_ge by lia.
  destruct (VB_add_ok (hq_buf hq) bs I) as (b' & -> & I' & C').
  rewrite bind_ok. cbn beta iota. cbn [received hq_header].
  destruct (Nat.eqb_spec (length c + length bs) (4 + Z.to_nat (msg_size (hq_header hq)))); [lia|].
  rewrite bind_ok, Nat.ltb_irrefl. eexists. split; [reflexivity|]. split; [|done].
  split; [done|]. cbn [hq_buf received]. rewrite C', C. split; [done|len].
Qed.

Lemma turn_complete v now junk x f rest more hq c (P : HALF_VMSG → VASTnet N → Prop) :
  chunk f (rest ++ more) x → rest ≠ [] → find_half v f (rest ++ more) = Ok (Some hq) →
  hq_ok hq c →
  (length c + length rest = 4 + Z.to_nat (msg_size (hq_header hq)))%nat →
  (∀ hq' tl, ∃ v2 ok, processVASTMessage (with_half v (set f hq' (half_queue (inq v)))) now junk
     (hq_header hq) (drop 4 (c ++ rest) ++ tl) f = Ok (v2, ok) ∧ P hq' v2) →
  ∃ hq' v2, P hq' v2 ∧ process_turn v now junk x =
    let v3 := with_half v2 (erase f (half_queue (inq v2))) in
    if bool_decide (more = []) then Ok (v3, 1%nat)
    else '(n, _) ← msg_stored (manager v3) now f (Some more) (recvtime x) true;
         Ok (with_manager v3 n, 1%nat).
Proof.
  intros [Ef Eb] Hne Eh (I & C & R) Hlt Hp. unfold process_turn. rewrite Ef, Eb. cbn [from_option]; unfold id.
  assert (Hr : (0 < length rest)%nat).
  { destruct rest; [done|cbn; lia]. }
  destruct (Nat.eqb_spec (length (rest ++ more)) 0) as [E0|_]; [len|].
  rewrite Eh, bind_ok. cbv zeta. rewrite R, length_app.
  rewrite Nat.min_l by lia.
  replace (4 + Z.to_nat (msg_size (hq_header hq)) - length c)%nat with (length rest) by lia.
  rewrite take_app_length, drop_app_length.
  destruct (VB_add_ok (hq_buf hq) rest I) as (b' & -> & I' & C').
  rewrite bind_ok. cbn beta iota. cbn [received hq_header].
  destruct (Nat.eqb_spec (length c + length rest) (4 + Z.to_nat (msg_size (hq_header hq)))); [|lia].
  set (hq' := mkHalf _ _ _).
  assert (Ed : drop 4 (vb_data b') = drop 4 (c ++ rest) ++ drop (vb_size b') (vb_data b')).
  { rewrite <- C, <- C'. rewrite <- drop_app_le.
    - unfold vb_content. by rewrite take_drop.
    - rewrite C', C. len. }
  destruct (Hp hq' (drop (vb_size b') (vb_data b'))) as (v2 & ok & E2 & HP).
  exists hq', v2. split; [done|]. rewrite Ed, E2, bind_ok. cbn beta iota. rewrite bind_ok.
  destruct (Nat.ltb_spec (length rest) (length rest + length more)).
  - rewrite bool_decide_eq_false_2; [done|]. intros ->. cbn in *. lia.
  - rewrite bool_decide_eq_true_2; [done|]. apply length_zero_iff_nil. lia.
Qed.

(** *** Whole streams

    A stream of messages from one host, in pieces: [pss] holds the pieces of each frame
    (with [c] the part of the first frame that has been received already). No cut lies
    within the first five bytes of a frame, since [process] takes a byte string of at most
    four bytes for a socket message. *)
Fixpoint cut (c : list byte) (pss : list (list (list byte))) (ms : list Message) : Prop :=
  match pss, ms with
  | [], [] => c = []
  | ps :: pss, m :: ms =>
      ps ≠ [] ∧ Forall (λ p, p ≠ []) ps ∧ c ++ concat ps = framed REGULAR m
      ∧ (c = [] → (4 < length (hd [] ps))%nat) ∧ transferable m ∧ cut [] pss ms
  | _, _ => False
  end.

(** What is kept of the frame being received. *)
Definition mid v (f : Z) (c : list byte) (ms : list Message) : Prop :=
  match c with
  | [] => find f (half_queue (inq v)) = None
  | _ => ∃ hq m, find f (half_queue (inq v)) = Some hq ∧ hq_ok hq c ∧ head ms = Some m
         ∧ hq_header hq = out_header REGULAR (Message_sizeOf m)
  end.

(** From [v] to [v'] the messages [ms] of [f] arrived, and nothing else happened but to
    the partial message of [f]. *)
Record advanced (f now : Z) (ms : list Message) (v v' : VASTnet N) : Prop := mk_advanced {
  adv_only : ∃ n i, v' = with_inq (with_manager v n) i;
  adv_node : same_node (manager v) (manager v');
  adv_others : ∀ g, g ≠ f → find g (half_queue (inq v')) = find g (half_queue (inq v));
  adv_ordered : ordered (half_queue (inq v)) → ordered (half_queue (inq v'));
  adv_socket : socket_queue (inq v') = socket_queue (inq v);
  adv_recv : in_recvmsg (inq v') = in_recvmsg (inq v)
             ∧ recvmsg_socket (inq v') = recvmsg_socket (inq v);
  adv_full : ∃ ms', Forall2 arrived ms' ms
             ∧ full_queue (inq v') = foldl (insert_msg now f) (full_queue (inq v)) ms' }.

Lemma advanced_trans f now a b v1 v2 v3 :
  advanced f now a v1 v2 → advanced f now b v2 v3 → advanced f now (a ++ b) v1 v3.
Proof.
  intros [(n & i & ->) S1 O1 D1 Q1 [R1 R1'] (a' & A1 & F1)]
         [(n' & i' & ->) S2 O2 D2 Q2 [R2 R2'] (b' & A2 & F2)].
  split.
  - by exists n', i'.
  - by eapply same_node_trans.
  - intros g Hg. by rewrite O2, O1.
  - eauto.
  - congruence.
  - split; congruence.
  - exists (a' ++ b'). split; [by apply Forall2_app|]. by rewrite F2, F1, foldl_app.
Qed.

(** Receiving, or requeueing, leaves all but the queue of the network. *)
Lemma advanced_manager f now v n : same_node (manager v) n → advanced f now [] v (with_manager v n).
Proof.
  intros S. split; try done; [by exists n, (inq v)|]. exists []. by split.
Qed.

Lemma advanced_half f now v hq :
  advanced f now [] v (with_half v (set f hq (half_queue (inq v)))).
Proof.
  split; try done.
  - eexists (manager v), _. unfold with_half. reflexivity.
  - intros g Hg. cbn. by apply find_set_ne.
  - cbn. apply ordered_set.
  - exists []. by split.
Qed.

Lemma fetch_head m bs : (4 ≤ length bs)%nat → take 4 bs = take 4 (framed REGULAR m) →
  ∃ q, fetch_vh bs = Ok (out_header REGULAR (Message_sizeOf m), q).
Proof.
  intros Hl Ht. exists (drop 4 bs).
  assert (Eb : bs = vh_bytes (out_header REGULAR (Message_sizeOf m)) ++ drop 4 bs).
  { rewrite <- (take_drop 4 bs) at 1. rewrite Ht. unfold framed.
    by rewrite take_app_len by by rewrite length_vh_bytes. }
  rewrite Eb at 1. apply fetch_vh_bytes, out_header_valid.
Qed.

(** The partial message the next chunk belongs to. *)
Lemma find_half_mid v f c ps pss m ms g tl :
  cut c (ps :: pss) (m :: ms) → mid v f c (m :: ms) → g ≠ [] → g ++ tl = ps ++ concat pss →
  ∃ hq, find_half v f (concat g) = Ok (Some hq) ∧ hq_ok hq c
  ∧ hq_header hq = out_header REGULAR (Message_sizeOf m).
Proof.
  intros (Hps & _ & Ec & H4 & Hs & _) Hm Hg Eg. unfold find_half.
  destruct c as [|b c].
  - cbn in Hm. rewrite Hm. specialize (H4 eq_refl).
    destruct g as [|p g]; [done|]. destruct ps as [|p' ps]; [done|].
    cbn [app] in Eg. injection Eg as <- _. cbn [hd] in H4. cbn [concat] in *. rewrite app_nil_l in Ec.
    destruct (Nat.ltb_spec 4 (length (p ++ concat g))); [|len].
    destruct (fetch_head m (p ++ concat g)) as [q ->]; [len| |].
    + rewrite <- Ec, !take_app_le by lia. done.
    + rewrite bind_ok. cbn beta iota. rewrite out_header_ok. eexists. split; [reflexivity|].
      split; [apply hq_new_ok|done].
  - destruct Hm as (hq & m' & -> & Hq & [= <-] & Eh). eauto.
Qed.

Lemma concat_nonempty {A} (g : list (list A)) :
  g ≠ [] → Forall (λ p, p ≠ []) g → concat g ≠ [].
Proof.
  intros Hg Hf. destruct g as [|p g]; [done|]. apply Forall_inv in Hf. cbn.
  by destruct p.
Qed.

(** A chunk that does not complete the frame. *)
Lemma step_partial v now junk f c g ps pss m ms tl x :
  cut c ((g ++ ps) :: pss) (m :: ms) → mid v f c (m :: ms) → g ≠ [] → ps ≠ [] →
  g ++ tl = (g ++ ps) ++ concat pss → chunk f (concat g) x →
  ∃ v', process_turn v now junk x = Ok (v', 1%nat) ∧ advanced f now [] v v'
  ∧ manager v' = manager v
  ∧ cut (c ++ concat g) (ps :: pss) (m :: ms) ∧ mid v' f (c ++ concat g) (m :: ms).
Proof.
  intros Hc Hm Hg Hps Et Hx.
  destruct (find_half_mid v f c (g ++ ps) pss m ms g tl Hc Hm Hg Et) as (hq & Eh & Hq & Ehd).
  destruct Hc as (_ & Hf & Ec & _ & Hs & Hc).
  apply Forall_app in Hf as [Hfg Hfp]. rewrite concat_app in Ec.
  pose proof (concat_nonempty g Hg Hfg) as Ng. pose proof (concat_nonempty ps Hps Hfp) as Np.
  destruct (turn_partial v now junk x f (concat g) hq c Hx Ng Eh Hq) as (hq' & E & Hq' & Eh').
  { rewrite Ehd, transferable_size by done. rewrite <- (length_framed REGULAR) by apply Hs.
    rewrite <- Ec, !length_app. destruct (concat ps); [done|cbn; lia]. }
  eexists. split; [exact E|]. splits.
  - apply advanced_half.
  - done.
  - cbn [cut]. splits; try done; [by rewrite <- app_assoc|].
    intros E0. apply app_nil in E0 as [_ E0]. done.
  - assert (Hne : c ++ concat g ≠ []) by (intros E0; by apply app_nil in E0 as [_ E0]).
    unfold mid. destruct (c ++ concat g) eqn:Ecg; [done|]. rewrite <- Ecg in *.
    exists hq', m. cbn. rewrite find_set_eq. splits; [done|exact Hq'|done|].
    by rewrite Eh', Ehd.
Qed.

(** A chunk that completes the frame; what follows is requeued. *)
Lemma step_complete v now junk f c g ps pss m ms tl x :
  cut c (ps :: pss) (m :: ms) → mid v f c (m :: ms) → 
  ready (manager v) → isActive (manager v) = true → f ≠ NET_ID_UNASSIGNED →
  connected (manager v) f = true → ordered (half_queue (inq v)) →
  due (manager v) (recvtime x) → front_first (N := N) = true ∨ pending (manager v) = [] →
  Forall (λ p, p ≠ []) g → (ps ++ g) ++ tl = ps ++ concat pss → chunk f (concat (ps ++ g)) x →
  ∃ v', process_turn v now junk x = Ok (v', 1%nat) ∧ advanced f now [m] v v'
  ∧ ready (manager v') ∧ find f (half_queue (inq v')) = None
  ∧ if bool_decide (g = []) then pending (manager v') = pending (manager v)
    else ∃ y, pending (manager v') = y :: pending (manager v) ∧ chunk f (concat g) y.
Proof.
  intros Hc Hm Hr Ha Hf0 Hcf Ho Hdue Hfront Hfg Et Hx.
  assert (Hg : ps ++ g ≠ []).
  { destruct Hc as (Hps & _). intros E0. by apply app_nil in E0 as [? _]. }
  destruct (find_half_mid v f c ps pss m ms (ps ++ g) tl Hc Hm Hg Et) as (hq & Eh & Hq & Ehd).
  destruct Hc as (Hps & Hf & Ec & _ & Hs & Hc).
  rewrite concat_app in Hx, Eh. pose proof (concat_nonempty ps Hps Hf) as Np.
  destruct (turn_complete v now junk x f (concat ps) (concat g) hq c
    (λ hq' v2, ∃ m', arrived m' m ∧ v2 = with_inq v (set_full (set_half (inq v)
        (set f hq' (half_queue (inq v)))) (insert_msg now f (full_queue (inq v)) m')
        (in_recvmsg (inq v)))) Hx Np Eh Hq) as (hq' & v2 & (m' & Am & E2) & E).
  { rewrite Ehd, transferable_size by done. rewrite <- (length_framed REGULAR) by apply Hs.
    by rewrite <- Ec, length_app. }
  { intros hq' rest. rewrite Ehd, Ec. unfold framed.
    rewrite drop_app_len by by rewrite length_vh_bytes.
    destruct (process_regular (with_half v (set f hq' (half_queue (inq v)))) now junk f m rest Ha Hf0 Hs)
      as (m' & Am & Ep).
    exists (with_inq v (set_full (set_half (inq v) (set f hq' (half_queue (inq v))))
              (insert_msg now f (full_queue (inq v)) m') (in_recvmsg (inq v)))), true.
    split; [exact Ep|]. by exists m'. }
  cbv zeta in E. rewrite E2 in E. cbn [inq with_inq set_full set_half half_queue] in E.
  set (v3 := with_half _ _) in E.
  assert (A3 : advanced f now [m] v v3).
  { split; try done.
    - eexists (manager v), _. unfold v3, with_half. reflexivity.
    - intros h Hh. cbn. by rewrite find_erase_ne, find_set_ne.
    - intros _. cbn. by apply ordered_erase, ordered_set.
    - exists [m']. split; [constructor; [exact Am|constructor]|done]. }
  assert (N3 : find f (half_queue (inq v3)) = None).
  { cbn. by apply find_erase_eq, ordered_set. }
  destruct (bool_decide_reflect (concat g = [])) as [Eg|Eg].
  - exists v3. splits; try done. rewrite bool_decide_eq_true_2; [done|].
    destruct g as [|p g]; [done|]. apply Forall_inv in Hfg. cbn in Eg. by apply app_nil in Eg as [? _].
  - destruct (msg_stored_law (manager v3) now f (concat g) (recvtime x) Hr) as (n & En & Pn & Rn & Sn);
      [by left|done|done|].
    rewrite En, bind_ok in E. cbn beta iota in E.
    exists (with_manager v3 n). splits; try done.
    + change [m] with ([m] ++ []). apply (advanced_trans f now [m] [] v v3); [done|].
      by apply advanced_manager.
    + rewrite bool_decide_eq_false_2 by (intros ->; by destruct Eg).
      cbn. destruct (Pn Hfront) as (t & ->). eexists. split; [reflexivity|]. by split.
Qed.

Lemma cut_no_pieces c pss ms : cut c pss ms → concat pss = [] → pss = [] ∧ ms = [] ∧ c = [].
Proof.
  destruct pss as [|ps pss], ms as [|m ms]; cbn [cut]; try done.
  intros (Hps & _) E. cbn in E. by apply app_nil in E as [? _].
Qed.

Lemma cut_nonempty c pss ms : cut c pss ms → Forall (λ p, p ≠ []) (concat pss).
Proof.
  revert c ms. induction pss as [|ps pss IH]; intros c ms Hc; [constructor|].
  destruct ms as [|m ms]; [done|]. destruct Hc as (_ & Hf & _ & _ & _ & Hc).
  cbn. apply Forall_app. eauto.
Qed.

(** The conditions under which [process] runs on the chunks [grp] of the stream. *)
Record receiving (v : VASTnet N) (f : Z) (c : list byte) (pss : list (list (list byte)))
    (ms : list Message) (grp : list (list (list byte))) : Prop := mk_receiving {
  rcv_ready : ready (manager v);
  rcv_active : isActive (manager v) = true;
  rcv_conn : connected (manager v) f = true;
  rcv_ordered : ordered (half_queue (inq v));
  rcv_cut : cut c pss ms;
  rcv_mid : mid v f c ms;
  rcv_groups : Forall (λ g, g ≠ []) grp;
  rcv_pieces : concat grp = concat pss;
  rcv_order : front_first (N := N) = true ∨ (length grp ≤ 1)%nat;
  rcv_pending : Forall2 (λ g x, chunk f (concat g) x) grp (pending (manager v)) }.

Lemma advanced_env f now a v v' :
  isActive (manager v) = true → connected (manager v) f = true → ordered (half_queue (inq v)) →
  advanced f now a v v' →
  isActive (manager v') = true ∧ connected (manager v') f = true ∧ ordered (half_queue (inq v')).
Proof.
  intros Ha Hc Ho [_ [S1 _ _ S4] _ O _ _ _]. rewrite S1, S4. eauto.
Qed.

(** Either the next chunk completes the current frame, or it is a part of it. *)
Lemma split_pieces {A} (g grp ps pss : list A) : g ++ grp = ps ++ pss →
  (∃ g', g = ps ++ g' ∧ pss = g' ++ grp) ∨ (∃ ps', ps' ≠ [] ∧ ps = g ++ ps' ∧ grp = ps' ++ pss).
Proof.
  intros E. destruct (app_eq_inv g grp ps pss E) as [(g' & -> & ->)|(ps' & -> & ->)]; [by left; exists g'|].
  destruct ps' as [|p ps']; [left; exists []; by rewrite !app_nil_r|right; by exists (p :: ps')].
Qed.

Definition reassembles (fuel : nat) (now junk f : Z) : Prop :=
  ∀ v c pss ms grp, (length grp + length ms < fuel)%nat → receiving v f c pss ms grp →
  ∃ v' k, process fuel now junk v = Ok (v', k) ∧ advanced f now ms v v'
  ∧ ready (manager v') ∧ pending (manager v') = [] ∧ find f (half_queue (inq v')) = None.

(** The rest of the run after a turn that brought [a]. *)
Lemma reassemble_rest fuel now junk f v v2 a c pss ms grp :
  reassembles fuel now junk f → (length grp + length ms < fuel)%nat →
  advanced f now a v v2 → receiving v2 f c pss ms grp →
  ∃ v' k, ('(v, k') ← process fuel now junk v2; Ok (v, (1 + k')%nat)) = Ok (v', k)
  ∧ advanced f now (a ++ ms) v v'
  ∧ ready (manager v') ∧ pending (manager v') = [] ∧ find f (half_queue (inq v')) = None.
Proof.
  intros IH Hl A Hv. destruct (IH v2 c pss ms grp Hl Hv) as (v3 & k & E & A3 & Q).
  rewrite E, bind_ok. cbn beta iota. exists v3, (1 + k)%nat. split; [done|].
  split; [by eapply advanced_trans|done].
Qed.

Lemma reassemble fuel now junk f : f ≠ NET_ID_UNASSIGNED → reassembles fuel now junk f.
Proof.
  intros Hf. induction fuel as [|fuel IH]; intros v c pss ms grp Hl [Hr Ha Hc Ho Hcut Hm Hg Hp Hor Hq];
    [lia|].
  destruct (receive_law (manager v) Hr) as (n1 & E1 & P1 & R1 & S1 & D1).
  pose proof (due_law (manager v) Hr) as Hdue.
  cbn [process]. rewrite E1. set (v1 := with_manager v n1).
  pose proof (advanced_manager f now v n1 S1) as A1. fold v1 in A1.
  destruct (advanced_env f now [] v v1 Ha Hc Ho A1) as (Ha1 & Hc1 & Ho1).
  destruct grp as [|g grp].
  { apply Forall2_nil_inv_l in Hq. rewrite Hq in *. cbn [head tail] in *.
    destruct (cut_no_pieces c pss ms Hcut (eq_sym Hp)) as (-> & -> & ->).
    by exists v1, 0%nat. }
  apply Forall2_cons_inv_l in Hq as (x & q & Hx & Hq & Eq). rewrite Eq in *. cbn [head tail] in *.
  apply Forall_cons in Hg as [Hg0 Hg]. cbn [concat] in Hp. apply Forall_inv, D1 in Hdue.
  assert (Hfront : front_first (N := N) = true ∨ pending (manager v1) = []).
  { change (manager v1) with n1. rewrite P1. destruct Hor as [?|Hl1]; [by left|right]. cbn [length] in Hl1.
    destruct grp as [|? grp]; [by apply Forall2_nil_inv_l in Hq|cbn [length] in Hl1; lia]. }
  assert (Hor' : front_first (N := N) = true ∨ (length grp ≤ 1)%nat) by (destruct Hor as [?|Hl1]; [by left|right; cbn [length] in Hl1; lia]).
  destruct pss as [|ps pss]; [by cbn in Hp; apply app_nil in Hp as [-> _]|].
  destruct ms as [|m ms]; [done|]. cbn [concat] in Hp.
  destruct (split_pieces _ _ _ _ Hp) as [(g' & -> & Ep)|(ps' & Hps' & -> & Ep)].
  - assert (Hfg : Forall (λ p, p ≠ []) g').
    { destruct Hcut as (_ & _ & _ & _ & _ & Hcut). apply cut_nonempty in Hcut.
      rewrite Ep in Hcut. by apply Forall_app in Hcut as [? _]. }
    destruct (step_complete v1 now junk f c g' ps pss m ms (concat grp) x) as
      (v2 & E2 & A2 & R2 & N2 & P2); try done.
    rewrite E2, bind_ok. cbn beta iota.
    pose proof (advanced_trans f now [] [m] v v1 v2 A1 A2) as A12.
    destruct (advanced_env f now [m] v v2 Ha Hc Ho A12) as (Ha2 & Hc2 & Ho2).
    destruct Hcut as (_ & _ & _ & _ & _ & Hcut).
    destruct (bool_decide_reflect (g' = [])) as [->|Hg'].
    + eapply (reassemble_rest fuel now junk f v v2 [m] [] pss ms grp IH); [cbn in Hl; lia|done|].
      split; try done. rewrite P2. change (manager v1) with n1. by rewrite P1.
    + destruct P2 as (y & P2 & Hy).
      eapply (reassemble_rest fuel now junk f v v2 [m] [] pss ms (g' :: grp) IH); [cbn in *; lia|done|].
      split; try done; [by constructor|]. rewrite P2. change (manager v1) with n1. rewrite P1. by constructor.
  - destruct (step_partial v1 now junk f c g ps' pss m ms (concat grp) x) as
      (v2 & E2 & A2 & M2 & C2 & Hm2); try done.
    rewrite E2, bind_ok. cbn beta iota.
    pose proof (advanced_trans f now [] [] v v1 v2 A1 A2) as A12.
    destruct (advanced_env f now [] v v2 Ha Hc Ho A12) as (Ha2 & Hc2 & Ho2).
    eapply (reassemble_rest fuel now junk f v v2 [] (c ++ concat g) (ps' :: pss) (m :: ms) grp IH);
      [cbn in *; lia|done|].
    split; try done; rewrite M2; [done|]. change (manager v1) with n1. by rewrite P1.
Qed.

(** A string of at most four bytes is not taken for the beginning of a message. *)
Lemma turn_short v now junk x f bs : chunk f bs x → (0 < length bs ≤ 4)%nat → find f (half_queue (inq v)) = None →
  process_turn v now junk x = Ok (fst (storeSocketMessage v x), 1%nat).
Proof.
  intros [Ef Eb] Hl Hn. unfold process_turn. rewrite Ef, Eb. cbn [from_option]. unfold id.
  destruct (Nat.eqb_spec (length bs) 0); [lia|]. unfold find_half. rewrite Hn.
  destruct (Nat.ltb_spec 4 (length bs)); [lia|]. rewrite bind_ok. by destruct (storeSocketMessage v x).
Qed.


(** *** The order of delivery *)

Definition store_all now v (l : list (Z * Message)) : VASTnet N :=
  foldl (λ v x, fst (storeVASTMessage v now (fst x) (snd x))) v l.

Fixpoint drain (k : nat) v : list (Message * Z) :=
  match k with
  | O => []
  | S k => match receiveMessage v true with
           | (v, Some x) => x :: drain k v
           | (_, None) => []
           end
  end.

Lemma store_all_queue now v l :
  isActive (manager v) = true → Forall (λ x, fst x ≠ NET_ID_UNASSIGNED) l →
  isActive (manager (store_all now v l)) = true
  ∧ full_queue (inq (store_all now v l))
    = foldl (λ q x, minsert (fst x) (snd x) q) (full_queue (inq v))
        ((λ x, (priority (snd x), mkFull (fst x) now (snd x))) <$> l).
Proof.
  intros Ha Hl. revert v Ha. induction Hl as [|[f m] l Hf _ IH]; intros v Ha; [done|].
  unfold store_all in *. cbn [foldl fst snd fmap list_fmap]. rewrite store_active by done.
  cbn [fst].
  match goal with |- context [foldl _ ?v0 l] => by destruct (IH v0 Ha) as [-> ->] end.
Qed.

Lemma drain_queue k v :
  isActive (manager v) = true → (length (full_queue (inq v)) ≤ k)%nat →
  drain k v = (λ p, (fm_msg (snd p), fm_fromhost (snd p))) <$> full_queue (inq v).
Proof.
  revert v. induction k as [|k IH]; intros v Ha Hl; [by destruct (full_queue (inq v)); [|cbn in Hl; lia]|].
  cbn [drain]. unfold receiveMessage. rewrite Ha. cbn [negb].
  destruct (full_queue (inq v)) as [|[p fm] q] eqn:E; [done|]. cbn [fmap list_fmap].
  set (v0 := with_inq v _).
  destruct (stat_same v0 (fm_fromhost fm) (msgtype (fm_msg fm)) (4 + Z.of_nat (msize (fm_msg fm))) 2)
    as (Em & _ & _ & [Ei _ _ _ _ _ _ _ _]).
  rewrite IH; rewrite ?Em, ?Ei; [done|done|]. cbn in *. lia.
Qed.

(** [receiveMessage] hands out the stored messages by increasing priority value, and
    those of one priority in the order in which they were stored; each once, with the
    host it came from. *)
Theorem received_by_priority now v l k :
  isActive (manager v) = true → full_queue (inq v) = [] →
  Forall (λ x, fst x ≠ NET_ID_UNASSIGNED) l → (length l ≤ k)%nat →
  let out := drain k (store_all now v l) in
  out ≡ₚ (λ x, (snd x, fst x)) <$> l
  ∧ StronglySorted (λ a b, priority (fst a) ≤ priority (fst b)) out
  ∧ ∀ p, filter (λ x, priority (fst x) = p) out
         = (λ x, (snd x, fst x)) <$> filter (λ x, priority (snd x) = p) l.
Proof.
  intros Ha Hq Hl Hk. cbv zeta. destruct (store_all_queue now v l Ha Hl) as [Ha' Eq].
  rewrite Hq in Eq. set (l' := (λ x, (priority (snd x), mkFull (fst x) now (snd x))) <$> l) in *.
  destruct (foldl_minsert l' [] ltac:(constructor)) as (O & P & F). cbn [app] in P.
  rewrite <- Eq in O, P, F. rewrite drain_queue; [|done|].
  2: { rewrite P. unfold l'. by rewrite length_fmap. }
  assert (Hkey : Forall (λ p, fst p = priority (fm_msg (snd p))) (full_queue (inq (store_all now v l)))).
  { rewrite P. unfold l'. apply Forall_fmap. apply Forall_forall. done. }
  split; [|split].
  - rewrite P. unfold l'. rewrite <- list_fmap_compose. done.
  - revert O Hkey. generalize (full_queue (inq (store_all now v l))). intros q O.
    induction O as [|[p fm] q Hs IH Hf]; intros Hkey; [constructor|].
    apply Forall_cons in Hkey as [K Hkey]. cbn [fmap list_fmap]. constructor; [by apply IH|].
    apply Forall_fmap. rewrite Forall_forall in *. intros [p' fm'] Hin. cbn in *.
    specialize (Hf _ Hin). specialize (Hkey _ Hin). unfold key_le in Hf. cbn in *. congruence.
  - intros p. specialize (F p). cbn [app] in F. rewrite filter_nil, app_nil_l in F.
    assert (E1 : ∀ q : list (Z * FULL_VMSG), Forall (λ p, fst p = priority (fm_msg (snd p))) q →
       filter (λ x : Message * Z, priority (fst x) = p) ((λ p, (fm_msg (snd p), fm_fromhost (snd p))) <$> q)
       = (λ p, (fm_msg (snd p), fm_fromhost (snd p))) <$> filter (λ x, fst x = p) q).
    { induction 1 as [|[p' fm] q K _ IH]; [done|]. cbn [fmap list_fmap]. rewrite !filter_cons.
      cbn [fst snd] in *. rewrite IH, K. by destruct (decide (priority (fm_msg fm) = p)). }
    rewrite E1 by done. rewrite F. unfold l'. clear. induction l as [|[f m] l IH]; [done|].
    cbn [fmap list_fmap]. rewrite !filter_cons. cbn [fst snd].
    destruct (decide (priority m = p)); cbn [fmap list_fmap]; by rewrite <- IH.
Qed.
End receiving.
