(* ===== verification/VastJoin.v ===== *)
(** Host ids: the ids an entry point gives out, and the exchange by which a host obtains
    its own id from one (request, assignment). *)

From S2P Require Import Prelude Bytes StdMap Float Serial Message VastBuffer NetManager.
From S2P Require Import NetInterface VastNet VastSend VastReceive.
Local Open Scope Z_scope.

(** *** The parts of an id *)

Lemma lor_low a n b : 0 ≤ n → fits n b → Z.lor (Z.shiftl a n) b = a * 2 ^ n + b.
Proof.
  intros Hn [H0 H1]. rewrite <- Z.add_nocarry_lor; [by rewrite Z.shiftl_mul_pow2|].
  apply Z.bits_inj'. intros i Hi. rewrite Z.land_spec, Z.bits_0.
  destruct (Z.lt_ge_cases i n).
  - by rewrite Z.shiftl_spec_low.
  - destruct (Z.eq_dec b 0) as [->|]; [by rewrite Z.bits_0, andb_false_r|].
    rewrite (Z.bits_above_log2 b i), andb_false_r; [done|done|].
    assert (Z.log2 b < n) by (apply Z.log2_lt_pow2; lia). lia.
Qed.

(** The id with group [g] and number [c] on the host with address [a]. *)
Definition compose_id (a : IPaddr) (g c : Z) : Z :=
  Z.lor (Z.lor (Z.lor (Z.shiftl (host a) 32) (Z.shiftl (port a) 16)) (Z.shiftl g 14)) c.

Lemma compose_id_sum a g c : fits 16 (port a) → fits 2 g → fits 14 c →
  compose_id a g c = host a * 2 ^ 32 + port a * 2 ^ 16 + g * 2 ^ 14 + c.
Proof.
  intros Hp Hg Hc. unfold compose_id.
  assert (E1 : Z.lor (Z.shiftl (host a) 32) (Z.shiftl (port a) 16)
               = Z.shiftl (host a * 2 ^ 16 + port a) 16).
  { replace (Z.shiftl (host a) 32) with (Z.shiftl (Z.shiftl (host a) 16) 16)
      by (by rewrite Z.shiftl_shiftl).
    by rewrite <- Z.shiftl_lor, lor_low. }
  assert (E2 : Z.lor (Z.shiftl (host a * 2 ^ 16 + port a) 16) (Z.shiftl g 14)
               = Z.shiftl ((host a * 2 ^ 16 + port a) * 2 ^ 2 + g) 14).
  { replace (Z.shiftl (host a * 2 ^ 16 + port a) 16)
      with (Z.shiftl (Z.shiftl (host a * 2 ^ 16 + port a) 2) 14) by (by rewrite Z.shiftl_shiftl).
    by rewrite <- Z.shiftl_lor, lor_low. }
  rewrite E1, E2, lor_low by done. ring.
Qed.

Lemma compose_id_parts a g c : fits 32 (host a) → fits 16 (port a) → fits 2 g → fits 14 c →
  resolveAssignedID (compose_id a g c) = c ∧ extractIDGroup (compose_id a g c) = g
  ∧ resolvePort (compose_id a g c) = port a
  ∧ IPaddr_of_id (compose_id a g c) = mkIPaddr (host a) (port a) 0.
Proof.
  intros Hh Hp Hg Hc.
  unfold resolveAssignedID, extractIDGroup, resolvePort, IPaddr_of_id.
  rewrite compose_id_sum by done. set (x := _ + c).
  assert (Ex : x = host a * 2 ^ 32 + port a * 2 ^ 16 + g * 2 ^ 14 + c) by done. clearbody x.
  unfold fits, wrap in *. change (2 ^ 32) with 4294967296 in *. change (2 ^ 16) with 65536 in *.
  change (2 ^ 14) with 16384 in *. change (2 ^ 2) with 4 in *.
  splits.
  - change (Z.shiftr 0xFFFF 2) with (Z.ones 14). rewrite Z.land_ones by lia.
    change (2 ^ 14) with 16384. Z.div_mod_to_equations; lia.
  - rewrite Z.land_comm. change 3 with (Z.ones 2). rewrite Z.land_ones, Z.shiftr_div_pow2 by lia.
    change (2 ^ 14) with 16384. change (2 ^ 2) with 4. Z.div_mod_to_equations; lia.
  - rewrite Z.shiftr_land. change (Z.shiftr 0x00000000FFFF0000 16) with (Z.ones 16).
    rewrite Z.land_ones, Z.shiftr_div_pow2 by lia. change (2 ^ 16) with 65536.
    Z.div_mod_to_equations; lia.
  - rewrite !Z.shiftr_div_pow2 by lia. change (2 ^ 32) with 4294967296. change (2 ^ 16) with 65536.
    f_equal; Z.div_mod_to_equations; lia.
Qed.

Lemma resolveHostID_fits a : IPaddr_valid a → fits 64 (resolveHostID a).
Proof.
  intros (Hh & Hp & _). replace (resolveHostID a) with (compose_id a 0 1).
  - rewrite compose_id_sum by done. unfold fits in *. change (2 ^ 32) with 4294967296 in *.
    change (2 ^ 16) with 65536 in *. change (2 ^ 14) with 16384. change (2 ^ 64) with 18446744073709551616.
    lia.
  - unfold compose_id, resolveHostID. rewrite Z.shiftl_0_l, Z.lor_0_r. done.
Qed.

Section ids.
Context {N : Type} `{NetManagerLaws N}.
Implicit Types v : VASTnet N.

(** *** Unique ids *)

(** The next number of a group: 1 is the entry point's own. *)
Definition next_number v (g : Z) : Z := default 2 (find g (IDcounter v)).

Definition counters_ok v : Prop := ∀ g, 2 ≤ next_number v g ≤ 16384.

Lemma getUniqueID_spec v g :
  isEntryPoint (nm_getID (manager v)) = true → 0 ≤ g < 4 → counters_ok v →
  let c := next_number v g in
  ∃ v', getUniqueID v g
        = (v', if c <? 16384 then compose_id (publicIP (getAddress (manager v))) g c else 0)
  ∧ manager v' = manager v ∧ kept (with_counter v (IDcounter v')) v'
  ∧ ∀ g', next_number v' g' = if (g' =? g) && (c <? 16384) then c + 1 else next_number v g'.
Proof.
  intros He Hg Hc. cbv zeta. unfold getUniqueID. rewrite He. cbn [negb].
  destruct (Z.ltb_spec g 0); [lia|]. destruct (Z.leb_spec 4 g); [lia|]. cbn [orb].
  set (counter := if has g _ then _ else _).
  assert (Ef : ∀ g', default 2 (find g' counter) = next_number v g').
  { intros g'. unfold counter, has, next_number. destruct (find g (IDcounter v)) eqn:E; [done|].
    rewrite find_set. by destruct (Z.eqb_spec g' g) as [->|]; [rewrite E|]. }
  assert (Eg : default 0 (find g counter) = next_number v g).
  { rewrite <- Ef. unfold counter, has. destruct (find g (IDcounter v)) eqn:E; [by rewrite E|].
    by rewrite find_set_eq. }
  rewrite Eg. specialize (Hc g). destruct (Z.leb_spec (next_number v g) 0); [lia|]. cbn [orb].
  destruct (Z.leb_spec 16384 (next_number v g)); destruct (Z.ltb_spec (next_number v g) 16384);
    try lia; cbv zeta.
  - eexists. split; [reflexivity|]. splits; [done|by split|].
    intros g'. rewrite andb_false_r. apply Ef.
  - eexists. split; [reflexivity|]. splits; [done|by split|].
    intros g'. rewrite andb_true_r. unfold next_number at 1. cbn [with_counter IDcounter].
    rewrite find_set. destruct (g' =? g); [|apply Ef]. cbn.
    rewrite wrap_id; [done|]. split; [lia|]. change (2 ^ 64) with 18446744073709551616. lia.
Qed.

Fixpoint unique_run v (gs : list Z) : list Z :=
  match gs with
  | [] => []
  | g :: gs => let '(v, id) := getUniqueID v g in id :: unique_run v gs
  end.

Definition count (g : Z) (gs : list Z) : Z := Z.of_nat (length (filter (λ g', g' = g) gs)).

Lemma count_cons g g0 gs : count g (g0 :: gs) = (if g =? g0 then 1 else 0) + count g gs.
Proof.
  unfold count. rewrite filter_cons. destruct (decide (g0 = g)) as [->|Hne].
  - rewrite Z.eqb_refl, length_cons. lia.
  - destruct (Z.eqb_spec g g0); [by subst|done].
Qed.

Lemma unique_run_spec v gs i g :
  isEntryPoint (nm_getID (manager v)) = true → counters_ok v →
  Forall (λ g, 0 ≤ g < 4) gs → gs !! i = Some g →
  let c := next_number v g + count g (take i gs) in
  unique_run v gs !! i
  = Some (if c <? 16384 then compose_id (publicIP (getAddress (manager v))) g c else 0).
Proof.
  cbv zeta. revert v i. induction gs as [|g0 gs IH]; intros v i He Hc Hgs Hi; [done|].
  apply Forall_cons in Hgs as [Hg0 Hgs]. cbn [unique_run].
  destruct (getUniqueID_spec v g0 He Hg0 Hc) as (v1 & E & Em & _ & Hn). rewrite E.
  destruct i as [|i].
  - injection Hi as ->. cbn [lookup list_lookup take]. unfold count. cbn [filter]. 
    rewrite Z.add_0_r. done.
  - rewrite lookup_cons in Hi. rewrite lookup_cons. cbn [take].
    assert (Hc1 : counters_ok v1).
    { intros g'. rewrite Hn. pose proof (Hc g') as B1. pose proof (Hc g0) as B2.
      destruct (_ =? _); cbn [andb]; [|done]. destruct (Z.ltb_spec (next_number v g0) 16384); lia. }
    rewrite (IH v1 i); [|by rewrite Em|done|done|done].
    rewrite Em, Hn, count_cons. pose proof (Hc g0) as B2.
    assert (0 ≤ count g (take i gs)) by (unfold count; lia).
    destruct (Z.eqb_spec g g0) as [->|]; cbn [andb]; [|done].
    destruct (Z.ltb_spec (next_number v g0) 16384).
    + by replace (next_number v g0 + 1 + count g0 (take i gs))
        with (next_number v g0 + (1 + count g0 (take i gs))) by lia.
    + destruct (Z.ltb_spec (next_number v g0 + count g0 (take i gs)) 16384); [lia|].
      destruct (Z.ltb_spec (next_number v g0 + (1 + count g0 (take i gs))) 16384); [lia|done].
Qed.

Lemma length_unique_run v gs : length (unique_run v gs) = length gs.
Proof.
  revert v. induction gs as [|g gs IH]; intros v; [done|]. cbn.
  destruct (getUniqueID v g). cbn. by rewrite IH.
Qed.

Lemma count_nonneg g l : 0 ≤ count g l.
Proof. unfold count. lia. Qed.

Lemma count_lt g gs i j : (i < j)%nat → gs !! i = Some g → count g (take i gs) < count g (take j gs).
Proof.
  intros Hij Hi. rewrite <- (take_drop i (take j gs)), take_take, Nat.min_l by lia.
  assert (Hi' : drop i (take j gs) !! 0%nat = Some g)
    by (rewrite lookup_drop, Nat.add_0_r, lookup_take_lt by lia; done).
  destruct (drop i (take j gs)) as [|g' tl]; [done|]. injection Hi' as ->.
  unfold count. rewrite filter_app, filter_cons_True, length_app by done. cbn. lia.
Qed.

(** The parts of the id a request gets, when it gets one. *)
Lemma unique_run_parts v gs i g x :
  isEntryPoint (nm_getID (manager v)) = true → IPaddr_valid (publicIP (getAddress (manager v))) →
  IDcounter v = [] → Forall (λ g, 0 ≤ g < 4) gs → gs !! i = Some g → unique_run v gs !! i = Some x →
  (x = NET_ID_UNASSIGNED ∧ 16382 ≤ count g (take i gs))
  ∨ (count g (take i gs) < 16382 ∧ resolveAssignedID x = 2 + count g (take i gs)
     ∧ extractIDGroup x = g ∧ IPaddr_eqb (IPaddr_of_id x) (publicIP (getAddress (manager v))) = true).
Proof.
  intros He (Hh & Hp & _) Hc0 Hgs Hi Hx. set (a := publicIP (getAddress (manager v))) in *.
  assert (Hn : ∀ g, next_number v g = 2) by (intros g'; unfold next_number; by rewrite Hc0).
  assert (Hc : counters_ok v) by (intros g'; rewrite Hn; lia).
  pose proof (unique_run_spec v gs i g He Hc Hgs Hi) as Ex. cbv zeta in Ex.
  rewrite Hx, Hn in Ex. injection Ex as Ex. fold a in Ex. pose proof (count_nonneg g (take i gs)).
  destruct (Z.ltb_spec (2 + count g (take i gs)) 16384) as [Hlt|Hge]; [right|left; split; [done|lia]].
  assert (Hg : 0 ≤ g < 4) by (by eapply (proj1 (Forall_lookup _ _) Hgs) in Hi).
  destruct (compose_id_parts a g (2 + count g (take i gs))) as (? & ? & _ & E); try done.
  { split; [lia|]. change (2 ^ 14) with 16384. lia. }
  rewrite <- Ex in *. splits; try done; [lia|]. rewrite E. by apply IPaddr_eqb_true.
Qed.

(** C38: The ids an entry point gives out. Whatever groups are asked for, in whatever order,
    an id names the entry point's address, the group and a number of at least 2, and no
    two requests get the same id; a request is refused exactly when the 16382 numbers of
    its group are used up. *)
Theorem unique_ids v gs i g x :
  isEntryPoint (nm_getID (manager v)) = true → IPaddr_valid (publicIP (getAddress (manager v))) →
  IDcounter v = [] → Forall (λ g, 0 ≤ g < 4) gs →
  gs !! i = Some g → unique_run v gs !! i = Some x →
  (x = NET_ID_UNASSIGNED ↔ 16382 ≤ count g (take i gs))
  ∧ (x ≠ NET_ID_UNASSIGNED →
      extractIDGroup x = g ∧ 2 ≤ resolveAssignedID x
      ∧ IPaddr_eqb (IPaddr_of_id x) (publicIP (getAddress (manager v))) = true
      ∧ ∀ j, unique_run v gs !! j = Some x → j = i).
Proof.
  intros He Ha Hc0 Hgs Hi Hx. pose proof (count_nonneg g (take i gs)) as Hpos.
  destruct (unique_run_parts v gs i g x He Ha Hc0 Hgs Hi Hx) as [[-> Hc]|(Hc & Ea & Eg & Ei)];
    [by split|].
  assert (Hne : x ≠ NET_ID_UNASSIGNED) by 
    (intros ->; change (resolveAssignedID NET_ID_UNASSIGNED) with 0 in Ea; lia).
  split; [split; [done|intros ?; lia]|]. intros _. splits; [done|lia|done|].
  intros j Hj. destruct (gs !! j) as [g'|] eqn:Hgj.
  2: { apply lookup_ge_None in Hgj. apply lookup_lt_Some in Hj. rewrite length_unique_run in Hj. lia. }
  destruct (unique_run_parts v gs j g' x He Ha Hc0 Hgs Hgj Hj) as [[? _]|(_ & Ea' & Eg' & _)]; [done|].
  assert (g' = g) as -> by congruence.
  destruct (Nat.lt_trichotomy i j) as [Hij|[->|Hij]]; [|done|].
  - pose proof (count_lt g gs i j Hij Hi). lia.
  - pose proof (count_lt g gs j i Hij Hgj). lia.
Qed.

(** *** Control messages on the way *)

Lemma control_exists bs : ∃ m, control m bs.
Proof.
  pose proof control_new as C. pose proof C as (I & _ & M & _).
  destruct (store_spec _ bs false I M) as (m & _ & A). exists m.
  exact (control_appends _ m [] bs C A).
Qed.

Lemma control_arrives id bs ty rest :
  fits 64 id → Z.of_nat (18 + length bs) < 2 ^ 22 →
  ∃ m', Message_deserialize (Message_new 0 0) (Some (control_wire id bs ++ rest))
          (Z.to_nat (msg_size (out_header ty (18 + length bs))))
        = Ok (m', (length bs + MSG_HEADER)%nat)
  ∧ Message_inv m' ∧ content m' = bs ∧ mcurr m' = 0%nat.
Proof.
  intros Hid Hl. destruct (control_exists bs) as [m C].
  destruct (control_wire_eq m bs id C) as [Es Ew].
  destruct C as (I & Ec & M & F & T & G & P & R & Ts).
  assert (L : msize m = length bs) by (rewrite <- Ec; symmetry; by apply length_content).
  assert (Hs : transferable (set_from m id)).
  { unfold transferable, Message_valid. rewrite Es.
    cbn [set_from from msize msgtype msggroup priority reliable targets]. rewrite T, G, P, R, Ts, L.
    splits; try done; try (split; [lia|]); cbn [length]; try lia. }
  destruct (deserialize_transferable (set_from m id) ty rest Hs) as (m' & E & (_ & E2 & _ & _ & _ & _ & E7 & _) & I' & Pc).
  rewrite Es, Ew in E. cbn [set_from msize] in E, E2. rewrite L in E, E2. exists m'. splits; try done.
  unfold content. rewrite E7. exact Ec.
Qed.

(** *** The exchange *)

(** The content of a request: the host's id and address. *)
Definition request (a : Addr) : list byte := le_bytes 8 (host_id a) ++ wire (publicIP a).

(** The content of an assignment. *)
Definition assignment (id : Z) (pub : bool) : list byte :=
  le_bytes 8 id ++ le_bytes 1 (if pub then 1 else 0).

(** The id a host with the declared id and address gets, seen from address [actual]. *)
Definition assigned (a : Addr) (actual : IPaddr) : Z :=
  if host actual =? host (publicIP a) then host_id a else resolveHostID actual.

Lemma processIDRequest_ok m a actual junk :
  Message_inv m → mcurr m = 0%nat → content m = request a →
  fits 64 (host_id a) → IPaddr_valid (publicIP a) → assigned a actual ≠ NET_ID_UNASSIGNED →
  ∃ m', processIDRequest m actual junk = Ok (m', assigned a actual)
  ∧ control m' (assignment (assigned a actual) (host actual =? host (publicIP a))).
Proof.
  intros Hi Hp Hc Hid Hv Hne. unfold processIDRequest.
  destruct (extract_int_spec 8 m junk (host_id a) (wire (publicIP a))) as (m1 & -> & I1 & D1 & C1 & _);
    [done|lia|exact Hid|by rewrite Hp, Hc|].
  rewrite bind_ok. cbn beta iota.
  destruct (extract_obj_spec m1 (publicIP a) IPaddr_null []) as (m2 & -> & I2 & _ & _ & _);
    [done|done|done|change (0 < 8)%nat; lia|by rewrite app_nil_r|].
  rewrite bind_ok. cbn beta iota. cbn [merge IPaddr_laws]. fold (assigned a actual).
  destruct (Z.eqb_spec (assigned a actual) NET_ID_UNASSIGNED); [done|].
  assert (C0 : control (set_priority (clear m2 0 0 3) 0) []).
  { destruct (clear_inv m2 0 0 3 I2). unfold control. splits; try done; by split. }
  destruct (control_store_int 8 _ (assigned a actual) [] C0) as (m3 & -> & C3).
  rewrite bind_ok. cbn beta iota. pose proof C3 as (I3 & _ & M3 & _).
  destruct (store_spec m3 (le_bytes 1 (if host actual =? host (publicIP a) then 1 else 0)) false I3 M3)
    as (m4 & -> & A4).
  rewrite bind_ok. cbn beta iota. exists m4. split; [done|].
  by apply (control_appends m3).
Qed.

Lemma length_request a : length (request a) = 16%nat.
Proof. unfold request. by rewrite length_app, length_le_bytes, wire_length. Qed.

Lemma length_assignment id pub : length (assignment id pub) = 9%nat.
Proof. unfold assignment. by rewrite length_app, !length_le_bytes. Qed.

(** The entry point's part. *)
Lemma request_answered v now junk a actual ok remote fr rest :
  ready (manager v) → isActive (manager v) = true → bufs_ok v →
  connected (manager v) remote = true →
  remoteAddress (manager v) remote IPaddr_null = (actual, ok) →
  fits 64 fr → fits 64 (host_id a) → IPaddr_valid (publicIP a) →
  assigned a actual ≠ NET_ID_UNASSIGNED → assigned a actual ≠ nm_getID (manager v) →
  ∃ v', processVASTMessage v now junk (out_header ID_REQUEST 34)
          (control_wire fr (request a) ++ rest) remote = Ok (v', true)
  ∧ ready (manager v') ∧ inq v' = inq v
  ∧ queued v v' true (assigned a actual)
      (control_frame ID_ASSIGN (nm_getID (manager v))
         (assignment (assigned a actual) (host actual =? host (publicIP a)))).
Proof.
  intros Hr Ha Hb Hc Hre Hfr Hid Hv Hne Hself. set (new := assigned a actual) in *.
  destruct (control_arrives fr (request a) ID_REQUEST rest Hfr) as (m & E & I & C & P);
    [by rewrite length_request|].
  rewrite length_request in E. change (18 + 16)%nat with 34%nat in E.
  unfold processVASTMessage. rewrite E, bind_ok. cbn beta iota. cbn [Nat.eqb Nat.add MSG_HEADER].
  cbn [vh_type out_header]. rewrite type_code_inv, Hre.
  destruct (processIDRequest_ok m a actual junk I P C Hid Hv Hne) as (m2 & -> & C2).
  fold new in C2 |- *. rewrite bind_ok. cbn beta iota.
  destruct (Z.eqb_spec new NET_ID_UNASSIGNED); [done|].
  destruct (switchID (manager v) remote new) as [nn b] eqn:Es.
  destruct (switchID_law (manager v) remote new nn b Hr Es) as (R & _ & A & G & _ & Cn).
  destruct (send_connected 1 now (with_manager v nn) new m2 true ID_ASSIGN) as (v' & Ev & B & M & K & Q).
  - cbn. congruence.
  - cbn. congruence.
  - cbn. auto.
  - done.
  - apply C2.
  - unfold sendMessage, SEND_DEPTH. rewrite Ev, bind_ok. cbn beta iota.
    exists v'. splits; [done|by rewrite M|by rewrite (kept_inq _ _ K)|].
    rewrite (control_framed (with_manager v nn) ID_ASSIGN m2 _ C2) in Q. cbn [manager with_manager] in Q.
    rewrite G in Q. exact Q.
Qed.

(** The new host's part. *)
Lemma assignment_registered v now junk id pub g fr rest :
  ready (manager v) → nm_getID (manager v) = NET_ID_UNASSIGNED →
  fits 64 fr → fits 64 id →
  ∃ v', processVASTMessage v now junk (out_header ID_ASSIGN 27)
          (control_wire fr (assignment id pub) ++ rest) g = Ok (v', true)
  ∧ nm_getID (manager v') = id ∧ is_public v' = pub ∧ inq v' = inq v
  ∧ (∀ r t, outq v' r t = outq v r t)
  ∧ ∀ k, find k (id2addr v') = if k =? id then Some (getAddress (manager v')) else find k (id2addr v).
Proof.
  intros Hr Hg0 Hfr Hid.
  destruct (control_arrives fr (assignment id pub) ID_ASSIGN rest Hfr) as (m & E & I & C & P);
    [by rewrite length_assignment|].
  rewrite length_assignment in E. change (18 + 9)%nat with 27%nat in E.
  unfold processVASTMessage. rewrite E, bind_ok. cbn beta iota. cbn [Nat.eqb Nat.add MSG_HEADER].
  cbn [vh_type out_header]. rewrite type_code_inv. unfold processIDAssignment.
  assert (L : msize m = 9%nat) by (by rewrite <- length_content, C, length_assignment).
  rewrite L. cbn [Nat.eqb Nat.add negb].
  destruct (extract_int_spec 8 m junk id (le_bytes 1 (if pub then 1 else 0))) as (m1 & -> & I1 & D1 & _);
    [done|lia|exact Hid|by rewrite P, C|].
  rewrite bind_ok. cbn beta iota.
  destruct (extract_int_spec 1 m1 junk (if pub then 1 else 0) []) as (m2 & -> & _);
    [done|lia|by destruct pub|by rewrite app_nil_r|].
  rewrite bind_ok. cbn beta iota. rewrite bind_ok. cbn beta iota.
  assert (Ep : negb ((if pub then 1 else 0) =? 0) = pub) by by destruct pub. rewrite Ep.
  destruct (setID_law (manager v) id Hr) as (_ & _ & Gi & _).
  eexists. split; [reflexivity|]. unfold registerHostID. rewrite Hg0. cbn [negb Z.eqb NET_ID_UNASSIGNED].
  splits; try done. intros k. cbn [with_public with_id2addr with_manager id2addr manager].
  apply find_set.
Qed.

(** A host obtains its id. An entry point that receives the request of a host answers
    with exactly one assignment to the new id, after moving the host's connection to it.
    The id is the one the host declares if the host's own address is the one it is seen
    from, and otherwise the id of the address it is seen from. The host, on receiving the
    assignment, takes this id, records whether its address is public, and stores its own
    address under the id. *)
Theorem host_obtains_id vg vc now junk a actual ok remote fr rest rest' from_g :
  ready (manager vg) → isActive (manager vg) = true → bufs_ok vg →
  connected (manager vg) remote = true →
  remoteAddress (manager vg) remote IPaddr_null = (actual, ok) →
  fits 64 fr → fits 64 (nm_getID (manager vg)) → fits 64 (host_id a) →
  IPaddr_valid (publicIP a) → IPaddr_valid actual →
  assigned a actual ≠ NET_ID_UNASSIGNED → assigned a actual ≠ nm_getID (manager vg) →
  ready (manager vc) → nm_getID (manager vc) = NET_ID_UNASSIGNED →
  let new := if host actual =? host (publicIP a) then host_id a else resolveHostID actual in
  let reply := assignment new (host actual =? host (publicIP a)) in
  ∃ vg' vc',
    processVASTMessage vg now junk (out_header ID_REQUEST 34)
      (control_wire fr (request a) ++ rest) remote = Ok (vg', true)
    ∧ queued vg vg' true new (control_frame ID_ASSIGN (nm_getID (manager vg)) reply)
    ∧ processVASTMessage vc now junk (out_header ID_ASSIGN 27)
      (control_wire (nm_getID (manager vg)) reply ++ rest') from_g = Ok (vc', true)
    ∧ nm_getID (manager vc') = new ∧ is_public vc' = (host actual =? host (publicIP a))
    ∧ find new (id2addr vc') = Some (getAddress (manager vc')).
Proof.
  intros Hr Ha Hb Hc Hre Hfr Hg Hid Hv Hact Hne Hself Hrc Hg0. cbv zeta. fold (assigned a actual).
  destruct (request_answered vg now junk a actual ok remote fr rest)
    as (vg' & E1 & _ & _ & Q); try done.
  assert (Hnew : fits 64 (assigned a actual)).
  { unfold assigned. destruct (_ =? _); [done|]. by apply resolveHostID_fits. }
  destruct (assignment_registered vc now junk (assigned a actual) (host actual =? host (publicIP a))
    from_g (nm_getID (manager vg)) rest') as (vc' & E2 & I2 & P2 & _ & _ & F2); try done.
  exists vg', vc'. splits; try done. by rewrite F2, Z.eqb_refl.
Qed.
(** *** The request *)

Lemma control_store_ip m bs (a : IPaddr) : control m bs →
  ∃ m', store_obj m a = Ok (m', true) ∧ control m' (bs ++ wire a).
Proof.
  intros C. pose proof C as (I & _). destruct (store_obj_spec m a I) as (m' & E & A).
  exists m'. split; [exact E|]. by apply (control_appends m).
Qed.

Lemma request_built (a : Addr) : ∃ m1 m2,
  store_int 8 (set_priority (Message_new 0 0) 0) (host_id a) = Ok (m1, true)
  ∧ store_obj m1 (publicIP a) = Ok (m2, true) ∧ control m2 (request a).
Proof.
  destruct (control_store_int 8 _ (host_id a) [] control_new) as (m1 & E1 & C1).
  destruct (control_store_ip m1 _ (publicIP a) C1) as (m2 & E2 & C2). by exists m1, m2.
Qed.

(** Joining. Each call of [isJoined] on a host without an id, once the last request has
    timed out, takes the entry point chosen, stores its address, and queues exactly one
    id request for it, with this host's declared id and address and without a handshake
    before it, provided the entry point is connected or can be connected to; the next
    request waits for the timeout. The host has not joined by that. *)
Theorem join_requests v now ms r entry :
  ready (manager v) → isActive (manager v) = true → bufs_ok v →
  nm_getID (manager v) = NET_ID_UNASSIGNED →
  entries v !! r = Some entry → timeout_IDrequest v ≤ VN_getTimestamp v now →
  let t := resolveHostID entry in
  let frame := control_frame ID_REQUEST NET_ID_UNASSIGNED (request (getAddress (manager v))) in
  ∃ v', isJoined v now ms r = Ok (v', false)
  ∧ ready (manager v') ∧ bufs_ok v' ∧ inq v' = inq v
  ∧ find t (id2addr v') = Some (Addr_make t entry)
  ∧ timeout_IDrequest v'
    = u64 (VN_getTimestamp v now + TIMEOUT_ID_REQUEST ms * perSecond (manager v))
  ∧ (∀ r' t', t' ≠ t → outq v' r' t' = outq v r' t') ∧ outq v' false t = outq v false t
  ∧ if connected (manager v) t then outq v' true t = outq v true t ++ frame
    else ∃ n ok, connect (manager v) now t (host entry) (port entry) = Ok (n, ok)
         ∧ outq v' true t = outq v true t ++ (if ok : bool then frame else []).
Proof.
  intros Hr Ha Hb Hid He Ht t frame.
  assert (Ht0 : t ≠ NET_ID_UNASSIGNED).
  { intros E. pose proof (resolveHostID_low entry) as L. fold t in L. by rewrite E in L. }
  unfold isJoined. rewrite Ha, Hid. cbn [negb Z.eqb NET_ID_UNASSIGNED].
  destruct (Nat.eqb_spec (length (entries v)) 0) as [El|_].
  { apply length_zero_iff_nil in El. by rewrite El in He. }
  destruct (Z.leb_spec (timeout_IDrequest v) (VN_getTimestamp v now)); [|lia].
  cbv zeta. cbn [with_times entries]. rewrite (at_idx_ok _ _ _ He), bind_ok. fold t.
  unfold storeMapping. cbn [host_id Addr_make]. destruct (Z.eqb_spec t NET_ID_UNASSIGNED); [done|].
  set (v1 := with_id2addr _ _).
  destruct (request_built (getAddress (manager v))) as (m1 & m2 & E1 & E2 & C).
  change (manager v1) with (manager v). rewrite E1, bind_ok. cbn beta iota.
  rewrite E2, bind_ok. cbn beta iota.
  destruct (send_queues now v1 t m2 true ID_REQUEST) as (v' & k & -> & R & _ & B & K & O & Q);
    [done|done|done|apply C|change (t ≠ nm_getID (manager v)); by rewrite Hid|done|].
  rewrite !bind_ok. cbn beta iota.
  pose proof (kept_id _ _ K) as Kid. change (manager v1) with (manager v) in *. rewrite Kid, Hid.
  rewrite (control_framed v1 ID_REQUEST m2 _ C) in Q. change (manager v1) with (manager v) in Q.
  rewrite Hid in Q. fold frame in Q.
  assert (Ea : find t (id2addr v1) = Some (Addr_make t entry)) by apply find_set_eq.
  rewrite Ea in Q. unfold hello in Q. change (manager v1) with (manager v) in Q. rewrite Hid in Q.
  cbn [Z.eqb NET_ID_UNASSIGNED publicIP Addr_make app] in Q.
  exists v'. splits; try done.
  - by rewrite (kept_inq _ _ K).
  - by rewrite (kept_addr _ _ K).
  - by rewrite (kept_timeout _ _ K).
  - destruct (connected (manager v) t); [by rewrite (Q false t)|].
    destruct Q as (nn & [] & _ & Q); [|by destruct Q as [_ ->]].
    destruct Q as (_ & _ & ->). by rewrite app_nil_r.
  - destruct (connected (manager v) t); [by rewrite (Q true t), Z.eqb_refl|].
    destruct Q as (nn & ok & Ec & Q). exists nn, ok. split; [done|].
    destruct ok; [by destruct Q as (_ & -> & _)|destruct Q as [_ ->]; by rewrite app_nil_r].
Qed.
End ids.
