(* ===== verification/VastLink.v ===== *)
(** [net_udp] and its handler behind the interface of [VASTnet], and the laws of the
    interface for them. *)

From S2P Require Import Prelude Bytes StdMap Float Serial Message NetManager UdpHandler NetUdp.
From S2P Require Import VastBuffer NetInterface VastNet VastSend VastReceive VastJoin.
Local Open Scope Z_scope.

(** The manager with its handler, and the datagrams given to the socket so far. *)
Record udp_link := mkLink { node : udp_node; sent_dgs : list (IPaddr * list byte) }.

Definition with_node (l : udp_link) (s : udp_node) : udp_link := mkLink s (sent_dgs l).
Definition with_udp (l : udp_link) (n : net_udp) : udp_link :=
  with_node l (mkNode_udp n (uhandler (node l))).
Definition link_base (l : udp_link) : net_manager := base (udp (node l)).

(** [net_udp::send] over [net_udp_handler::send]: an open socket takes the whole datagram;
    without a socket the result is [-1], as a [size_t]. *)
Definition link_send (l : udp_link) (target : Z) (bs : list byte) (addr : option Addr)
    : udp_link * Z :=
  match Udp_send (node l) target addr with
  | None => (l, 0)
  | Some a =>
      if is_open (uhandler (node l))
      then (mkLink (node l) (sent_dgs l ++ [(a, bs)]), Z.of_nat (length bs))
      else (l, u64 (-1))
  end.

#[export] Instance link_manager : NetManager udp_link := {|
  startup l now :=
    '(s, _) ← Udp_start (node l) now (port (local_endpoint (uhandler (node l)))); Ok (with_node l s);
  shutdown l now := s ← Udp_stop (node l) now; Ok (with_node l s);
  isActive l := nm_active (link_base l);
  nm_getID l := nm_id (link_base l);
  nm_setID l i := with_udp l (with_base (udp (node l)) (fst (setID (link_base l) i)));
  getAddress l := self_addr (link_base l);
  connected l id := isConnected (link_base l) id;
  lastTime l id := getLastTime (link_base l) id;
  perSecond _ := 1000;
  remoteAddress l := Udp_getRemoteAddress (node l);
  connect l now target host port :=
    '(s, ok) ← Udp_connect (node l) now target host port; Ok (with_node l s, ok);
  disconnect l now target :=
    '(s, ok) ← Udp_disconnect (node l) now target; Ok (with_node l s, ok);
  send := link_send;
  receive l := let '(n, m) := Udp_receive (udp (node l)) in (with_udp l n, m);
  switchID l prevID newID :=
    let '(s, ok) := Udp_switchID (node l) prevID newID in (with_node l s, ok);
  msg_stored l now from msg rt front :=
    '(n, ok) ← Udp_msg_received (udp (node l)) now from msg rt front; Ok (with_udp l n, ok) |}.

(** The mutex is free, an active manager's socket is open, the connections are a map. *)
Definition link_ready (l : udp_link) : Prop :=
  unlocked (udp (node l)) ∧ (nm_active (link_base l) = true → is_open (uhandler (node l)) = true)
  ∧ ordered (id2conn (link_base l)).

Lemma link_receive_law l : link_ready l →
  ∃ l', receive l = (l', head (recv_queue (link_base l)))
  ∧ recv_queue (link_base l') = tail (recv_queue (link_base l)) ∧ link_ready l' ∧ same_node l l'.
Proof.
  intros Hr. cbn [receive link_manager]. unfold Udp_receive. fold (link_base l).
  destruct (recv_queue (link_base l)) as [|m q] eqn:E; (eexists; split; [reflexivity|]; by splits).
Qed.

Lemma link_stored_law l now f bs rt : link_ready l →
  connected l f = true ∨ f = NET_ID_UNASSIGNED →
  ∃ l', msg_stored l now f (Some bs) rt true = Ok (l', true)
  ∧ recv_queue (link_base l') = mkNSM f (if rt =? 0 then now else rt) (Some bs)
                                :: recv_queue (link_base l)
  ∧ link_ready l' ∧ same_node l l'.
Proof.
  intros (Hu & Hop & Ho) Hc. cbn [msg_stored connected link_manager] in *.
  unfold Udp_msg_received. cbv zeta. rewrite lock_ok, bind_ok by done.
  cbn [base with_base with_queue id2conn]. fold (link_base l).
  unfold isConnected, has in Hc. destruct (find f (id2conn (link_base l))) as [c|] eqn:E.
  - rewrite !bind_ok. eexists. split; [reflexivity|].
    assert (Hs : ∀ id, isConnected (with_conns (link_base l)
        (set f (mkConn (stream c) (if rt =? 0 then now else rt)) (id2conn (link_base l)))) id
        = isConnected (link_base l) id).
    { intros id. unfold isConnected, has. cbn. rewrite find_set.
      by destruct (Z.eqb_spec id f) as [->|]; [rewrite E|]. }
    destruct (lasttime c <? _).
    + split; [done|]. split; [|by split]. split; [done|]. split; [done|]. cbn. by apply ordered_set.
    + split; [done|]. split; [by split|by split].
  - destruct Hc as [|Hc]; [done|]. rewrite Hc. cbn [Z.eqb NET_ID_UNASSIGNED negb].
    rewrite !bind_ok. eexists. split; [reflexivity|]. by splits.
Qed.

Lemma store_open h id a : is_open (storeRemoteAddress h id a) = is_open h.
Proof. unfold storeRemoteAddress. cbv zeta. by repeat case_match. Qed.

Lemma link_connected_law l h now target : link_ready l →
  is_open h = is_open (uhandler (node l)) →
  ∃ n b, Udp_socket_connected (udp (node l)) now target this_stream = Ok (n, b)
  ∧ let l' := with_node l (mkNode_udp n h) in
    link_ready l' ∧ recv_queue (link_base l') = recv_queue (link_base l)
    ∧ isActive l' = isActive l ∧ nm_getID l' = nm_getID l ∧ getAddress l' = getAddress l
    ∧ (∀ id, connected l id = true → connected l' id = true)
    ∧ (target ≠ NET_ID_UNASSIGNED → connected l' target = true).
Proof.
  intros (Hu & Hop & Ho) Hh. unfold Udp_socket_connected.
  destruct (Z.eqb_spec target NET_ID_UNASSIGNED).
  { eexists _, _. split; [reflexivity|]. cbv zeta. split; [|by splits].
    split; [done|]. split; [|done]. cbn. rewrite Hh. exact Hop. }
  rewrite lock_ok, bind_ok by done. cbn [base]. fold (link_base l).
  destruct (has target (id2conn (link_base l))) eqn:E; cbv zeta;
    (eexists _, _; split; [reflexivity|]).
  - split; [|by splits]. split; [done|]. split; [|done]. cbn. rewrite Hh. exact Hop.
  - split; [|splits; try done].
    + split; [done|]. split; [cbn; rewrite Hh; exact Hop|]. cbn. by apply ordered_set.
    + intros id. cbn. unfold isConnected, has. cbn. rewrite find_set. by destruct (id =? target).
    + intros _. cbn. unfold isConnected, has. cbn. by rewrite find_set_eq.
Qed.

Lemma link_connect_law l now target h p : link_ready l →
  ∃ l' ok, connect l now target h p = Ok (l', ok) ∧ link_ready l'
  ∧ recv_queue (link_base l') = recv_queue (link_base l)
  ∧ isActive l' = isActive l ∧ nm_getID l' = nm_getID l ∧ getAddress l' = getAddress l
  ∧ (∀ id, connected l id = true → connected l' id = true)
  ∧ (ok = true → target ≠ NET_ID_UNASSIGNED → connected l' target = true).
Proof.
  intros Hr. assert (Hsame : with_node l (node l) = l) by (by destruct l).
  cbn [connect link_manager]. unfold Udp_connect. fold (link_base l).
  destruct (nm_active (link_base l)) eqn:Ea; cbn [negb].
  2: { exists l, false. split; [cbn; by rewrite Hsame|by splits]. }
  destruct ((target =? nm_id (link_base l)) || isConnected (link_base l) target) eqn:Es.
  { exists l, false. split; [cbn; by rewrite Hsame|by splits]. }
  rewrite (proj1 (proj2 Hr) Ea). cbn [negb].
  destruct (link_connected_law l (storeRemoteAddress (uhandler (node l)) target (IPaddr_make h p))
    now target Hr) as (n & b & -> & R & Q & A & I & S & C & T); [apply store_open|].
  rewrite !bind_ok. cbn beta iota. eexists _, true. split; [reflexivity|].
  splits; try done.
Qed.

Lemma link_send_law l target bs addr l' k : link_ready l → send l target bs addr = (l', k) →
  link_ready l' ∧ recv_queue (link_base l') = recv_queue (link_base l) ∧ same_node l l'.
Proof.
  intros Hr. cbn [send link_manager]. unfold link_send.
  destruct (Udp_send _ _ _); [destruct (is_open _)|]; intros [= <- _]; by splits.
Qed.

Lemma switch_open h a b : is_open (fst (switchRemoteID h a b)) = is_open h.
Proof. unfold switchRemoteID. by repeat case_match. Qed.

Lemma link_switch_law l a b l' ok : link_ready l → switchID l a b = (l', ok) →
  link_ready l' ∧ recv_queue (link_base l') = recv_queue (link_base l)
  ∧ isActive l' = isActive l ∧ nm_getID l' = nm_getID l ∧ getAddress l' = getAddress l
  ∧ (connected l a = true → connected l' b = true).
Proof.
  intros (Hu & Hop & Ho). cbn [switchID link_manager]. unfold Udp_switchID. fold (link_base l).
  destruct (find a (id2conn (link_base l))) as [c|] eqn:E.
  2: { intros [= <- _]. splits; try done. cbn. unfold isConnected, has. by rewrite E. }
  destruct (Z.eqb_spec a b) as [<-|Hne]; cbn [negb].
  { intros [= <- _]. by splits. }
  destruct (switchRemoteID (uhandler (node l)) a b) as [h res] eqn:Es. intros [= <- _].
  splits; try done.
  - split; [done|]. split.
    + cbn. pose proof (switch_open (uhandler (node l)) a b) as Eo. rewrite Es in Eo. cbn in Eo.
      rewrite Eo. exact Hop.
    + cbn. by apply ordered_erase, ordered_set.
  - intros _. cbn. unfold isConnected, has. cbn. by rewrite find_erase_ne, find_set_eq by done.
Qed.

#[export] Program Instance link_laws : NetManagerLaws udp_link := {|
  ready := link_ready;
  pending l := recv_queue (link_base l);
  due _ _ := True;
  front_first := true;
  connect_law := link_connect_law;
  send_law := link_send_law;
  switchID_law := link_switch_law |}.
Next Obligation. intros l Hr. destruct (link_receive_law l Hr) as (l' & E & P & R & S). by exists l'. Qed.
Next Obligation. intros l _. by apply Forall_forall. Qed.
Next Obligation.
  intros l now f bs rt Hr Hc _ _. destruct (link_stored_law l now f bs rt Hr Hc) as (l' & E & P & R & S). exists l'. splits; try done.
  intros _. by eexists.
Qed.
Next Obligation. intros l i (Hu & Hop & Ho). by splits. Qed.
Next Obligation.
  intros l id. cbn. unfold getLastTime, isConnected, has. by destruct (find id _).
Qed.

(** ** Two hosts over UDP: what one sends with [VASTnet::sendMessage] and [flush], the other
    receives with [net_udp_handler::process_input] and [VASTnet::process]. *)

(** *** What the handler leaves of the manager's state *)

Lemma socket_connected_keeps n now id st n' b :
  Udp_socket_connected n now id st = Ok (n', b) →
  nm_active (base n') = nm_active (base n)
  ∧ (ordered (id2conn (base n)) → ordered (id2conn (base n'))).
Proof.
  unfold Udp_socket_connected, lock. destruct (id =? _); [by intros [= <- _]|].
  destruct (conn_locked n); [done|]. rewrite bind_ok. cbn [base].
  destruct (has id _); intros [= <- _]; [done|]. split; [done|]. cbn. apply ordered_set.
Qed.

Lemma msg_received_keeps n now f m rt front n' b : unlocked n →
  Udp_msg_received n now f m rt front = Ok (n', b) →
  nm_active (base n') = nm_active (base n)
  ∧ (ordered (id2conn (base n)) → ordered (id2conn (base n'))).
Proof.
  intros Hu. unfold Udp_msg_received. cbv zeta. rewrite lock_ok, bind_ok by done.
  cbn [base with_base with_queue id2conn].
  destruct (find f (id2conn (base n))) as [c|].
  - rewrite bind_ok. intros [= <- _]. destruct (lasttime c <? _); [|done].
    split; [done|]. cbn. apply ordered_set.
  - destruct m as [bs|]; [|rewrite bind_ok; by intros [= <- _]].
    destruct (negb _) eqn:E; [|rewrite bind_ok; by intros [= <- _]].
    unfold Udp_socket_connected, lock. apply negb_true_iff in E. by rewrite E.
Qed.

Lemma frames_run_ready now ra fh l h n :
  unlocked n → l ≠ [] → null_addr ra = false → is_open h = true →
  ordered (id2conn (base n)) →
  ∃ h' n', frames_run now ra fh (h, n) l = Ok (h', n') ∧ unlocked n' ∧ is_open h' = true
  ∧ ordered (id2conn (base n')) ∧ nm_active (base n') = nm_active (base n)
  ∧ has (resolveHostID ra) (id2conn (base n')) = true
  ∧ recv_queue (base n')
    = recv_queue (base n) ++ ((λ bs, mkNSM (resolveHostID ra) now (Some bs)) <$> l).
Proof.
  intros Hu Hl Hn. revert h n Hu. induction l as [|bs l IH]; intros h n Hu Hop Ho; [done|].
  destruct (frame_step_queued now ra fh h n bs Hu) as (h1 & n1 & E & Hu1 & Hq1 & Hh1);
    [by rewrite Hn|].
  unfold NetUdp.sender in Hq1, Hh1. rewrite Hn in Hq1, Hh1.
  assert (K : is_open h1 = true ∧ ordered (id2conn (base n1))
              ∧ nm_active (base n1) = nm_active (base n)).
  { unfold frame_step in E. unfold null_addr in Hn. rewrite Hn in E.
    destruct (socket_connected_ok n now (resolveHostID ra) this_stream)
      as (n2 & E2 & Hu2 & _); [done|apply resolveHostID_nonzero|].
    cbn [socket_connected msg_received net_udp_interface] in E. rewrite E2, bind_ok in E.
    cbn beta iota in E. destruct (socket_connected_keeps _ _ _ _ _ _ E2) as [A2 O2].
    destruct (Udp_msg_received n2 now (resolveHostID ra) (Some bs) 0 false) as [[n3 b]|] eqn:E3;
      [|by rewrite !bind_fail in E].
    destruct (msg_received_keeps _ _ _ _ _ _ _ _ Hu2 E3) as [A3 O3].
    rewrite !bind_ok in E. injection E as <- <-.
    splits; [by rewrite store_open|auto|congruence]. }
  destruct K as (K1 & K2 & K3). cbn [frames_run fmap list_fmap]. rewrite E, bind_ok.
  destruct l as [|bs' l].
  { cbn [frames_run]. exists h1, n1. splits; try done. }
  destruct (IH ltac:(done) h1 n1 Hu1 K1 K2) as (h' & n' & E' & ? & ? & ? & A & ? & Q).
  exists h', n'. splits; try done; [congruence|]. rewrite Q, Hq1, <- app_assoc. done.
Qed.

(** *** The datagram of a flush *)

(** Where [flush] sends what is queued for a host: the address the handler knows, or the
    one of the message layer for messages that need not be reliable. *)
Definition route (v : VASTnet udp_link) (r : bool) (t : Z) : option IPaddr :=
  if r then UdpHandler_getRemoteAddress (uhandler (node (manager v))) t
  else publicIP <$> find t (id2addr v).

Lemma flush_datagram now ms v r t bs a :
  ready (manager v) → isActive (manager v) = true → bufs_ok v → bs ≠ [] →
  (∀ r' t', outq v r' t' = if Bool.eqb r' r && (t' =? t) then bs else []) →
  route v r t = Some a →
  ∃ v' total, flush v now ms = Ok (v', total)
  ∧ sent_dgs (manager v') = sent_dgs (manager v) ++ [(a, bs)].
Proof.
  intros Hr Ha Hb Hne Hq Hrt.
  destruct (flush_single now ms v r t bs Hr Hb Hne Hq) as (v' & total & E & _ & Em).
  { intros ->. unfold route in Hrt. unfold has. by destruct (find t (id2addr v)). }
  exists v', total. split; [done|]. rewrite Em. cbn [send link_manager]. unfold link_send, Udp_send.
  cbn [isActive link_manager] in Ha. rewrite (proj1 (proj2 Hr) Ha). unfold link_base in Ha. rewrite Ha.
  cbn [negb]. destruct r; cbn [route] in Hrt; [by rewrite Hrt|].
  destruct (find t (id2addr v)) as [ad|]; [|done]. injection Hrt as <-. done.
Qed.

(** *** The receiving host *)

(** A framed message is a frame of the handler. *)
Definition frame_of (m : Message) : frame :=
  mkFrame (out_header REGULAR (Message_sizeOf m)) (msg_wire m).

Lemma frame_of_ok m : transferable m → frame_ok (frame_of m) ∧ fr_body (frame_of m) ≠ [].
Proof.
  intros Hs. assert (L : length (msg_wire m) = Message_sizeOf m) by (apply length_msg_wire, Hs).
  split; [split; [apply out_header_valid|split; [done|]]|].
  - cbn [frame_of fr_header fr_body out_header msg_size]. rewrite L, wrap_id; [done|].
    split; [lia|apply Hs].
  - cbn [frame_of fr_body]. intros E. rewrite E in L. unfold Message_sizeOf in L. cbn in L. lia.
Qed.

Lemma frames_bytes_of ms : frames_bytes (frame_of <$> ms) = concat (framed REGULAR <$> ms).
Proof. unfold frames_bytes. by rewrite <- list_fmap_compose. Qed.

(** Frames that arrive one by one are a stream without cuts. *)
Lemma whole_frames ms : Forall transferable ms →
  cut [] ((λ m, [framed REGULAR m]) <$> ms) ms.
Proof.
  induction 1 as [|m ms Hm _ IH]; [done|]. cbn [fmap list_fmap cut concat hd].
  assert (L : length (framed REGULAR m) = (4 + Message_sizeOf m)%nat) by (apply length_framed, Hm).
  splits; try done.
  - constructor; [|constructor]. intros E. rewrite E in L. cbn in L. lia.
  - by rewrite app_nil_l, app_nil_r.
  - intros _. rewrite L. unfold Message_sizeOf. lia.
Qed.

Lemma filled_msgs_inv {N} `{NetManager N} (v : VASTnet N) msgs :
  Forall transferable (filled v <$> msgs) → Forall Message_inv msgs.
Proof.
  intros Hms. eapply Forall_impl; [exact (proj1 (Forall_fmap (filled v) transferable msgs) Hms)|].
  intros m (Hi & _). unfold filled in Hi. by destruct (from m =? 0).
Qed.

Lemma framed_nonempty ms : Forall transferable ms → ms ≠ [] → concat (framed REGULAR <$> ms) ≠ [].
Proof.
  intros Hms Hne. destruct Hms as [|m ms Hm _]; [done|]. cbn [fmap list_fmap concat].
  intros E. apply app_nil in E as [E _].
  apply (f_equal length) in E. rewrite length_framed in E by apply Hm. cbn in E. lia.
Qed.

(** Receiver state after the handler is done. *)
Definition received_by (w : VASTnet udp_link) (h : net_udp_handler) (n : net_udp) : VASTnet udp_link :=
  with_manager w (with_node (manager w) (mkNode_udp n h)).

Lemma datagram_processed now junk fuel w ms tail ra :
  ready (manager w) → isActive (manager w) = true → pending (manager w) = [] →
  ordered (half_queue (inq w)) → find (resolveHostID ra) (half_queue (inq w)) = None →
  null_addr ra = false → ms ≠ [] → Forall transferable ms →
  let bs := concat (framed REGULAR <$> ms) in
  length (bs ++ tail) = VAST_BUFSIZ → (2 * length ms < fuel)%nat →
  ∃ h n w' k ms',
    UdpHandler_handle_input now (uhandler (node (manager w))) (udp (node (manager w)))
      (bs ++ tail) (length bs) ra = Ok (h, n)
    ∧ process fuel now junk (received_by w h n) = Ok (w', k)
    ∧ Forall2 arrived ms' ms
    ∧ full_queue (inq w') = foldl (insert_msg now (resolveHostID ra)) (full_queue (inq w)) ms'
    ∧ pending (manager w') = [].
Proof.
  intros (Hu & Hop & Ho) Ha Hp Hoh Hh Hra Hne Hms bs Hbuf Hf.
  assert (Hl : Z.of_nat (length bs) < 2 ^ 64).
  { rewrite length_app in Hbuf. unfold VAST_BUFSIZ in Hbuf. lia. }
  clear Hbuf. unfold UdpHandler_handle_input, UdpHandler_process_input, bs in *. cbv zeta.
  set (h0 := mkUH _ _ _ _ _ _). set (fh := resolveHostID ra).
  rewrite <- frames_bytes_of in *.
  rewrite process_frames_run; [| |by rewrite length_app; pose proof (length_frames_bytes (frame_of <$> ms)); lia
                               |done|exact Hl].
  2: { apply Forall_fmap. eapply Forall_impl; [exact Hms|]. exact frame_of_ok. }
  destruct (frames_run_ready now ra fh (frame_bytes <$> (frame_of <$> ms))
    h0 (udp (node (manager w)))) as (h & n & E & Hu' & Hop' & Ho' & Ha' & Hc & Q);
    [done|by destruct ms|done|by apply Hop|done|].
  assert (Hq : recv_queue (base n) = (λ m, mkNSM (resolveHostID ra) now (Some (framed REGULAR m))) <$> ms).
  { rewrite Q. cbn [pending link_laws] in Hp. unfold link_base in Hp. rewrite Hp, app_nil_l.
    by rewrite <- !list_fmap_compose. }
  destruct (reassemble fuel now junk (resolveHostID ra) (resolveHostID_nonzero ra) (received_by w h n) []
    ((λ m, [framed REGULAR m]) <$> ms) ms ((λ m, [framed REGULAR m]) <$> ms))
    as (w' & k & E' & Adv & _ & P' & _).
  - rewrite length_fmap. lia.
  - split; cbn [received_by with_manager manager]; try done.
    + cbn [isActive link_manager] in *. unfold link_base in *. cbn. congruence.
    + by apply whole_frames.
    + apply Forall_fmap, Forall_forall. done.
    + by left.
    + cbn. unfold link_base. cbn. rewrite Hq. clear. induction ms as [|m ms IH]; [constructor|].
      cbn [fmap list_fmap]. constructor; [|exact IH]. split; [done|]. cbn. by rewrite app_nil_r.
  - destruct Adv as [_ _ _ _ _ _ (ms' & A & F)].
    exists h, n, w', k, ms'. by splits.
Qed.

(** C2: Messages from one host to another, end to end. Regular messages sent to a connected
    host with [sendMessage] and flushed leave as one datagram, to the address of the
    host. The receiving host's handler and [process], given this datagram in the receive
    buffer of [VAST_BUFSIZ] bytes (whatever is behind it), put into the priority queue exactly these messages, in
    their order, content-equal and with the sender filled in, under the host id of the
    address they came from; nothing is left to process. *)
Theorem messages_cross now ms v w t r msgs a now' junk fuel tail ra :
  ready (manager v) → isActive (manager v) = true → bufs_ok v → (∀ r t, outq v r t = []) →
  connected (manager v) t = true → t ≠ nm_getID (manager v) → route v r t = Some a →
  msgs ≠ [] → Forall transferable (filled v <$> msgs) →
  ready (manager w) → isActive (manager w) = true → pending (manager w) = [] →
  ordered (half_queue (inq w)) → find (resolveHostID ra) (half_queue (inq w)) = None →
  null_addr ra = false → (2 * length msgs < fuel)%nat →
  let bs := concat (framed REGULAR <$> (filled v <$> msgs)) in
  length (bs ++ tail) = VAST_BUFSIZ →
  ∃ v1 v2 total, send_all now v t r msgs = Ok v1 ∧ flush v1 now ms = Ok (v2, total)
  ∧ sent_dgs (manager v2) = sent_dgs (manager v) ++ [(a, bs)]
  ∧ ∃ h n w' k msgs',
      UdpHandler_handle_input now' (uhandler (node (manager w))) (udp (node (manager w)))
        (bs ++ tail) (length bs) ra = Ok (h, n)
      ∧ process fuel now' junk (received_by w h n) = Ok (w', k)
      ∧ Forall2 arrived msgs' (filled v <$> msgs)
      ∧ full_queue (inq w') = foldl (insert_msg now' (resolveHostID ra)) (full_queue (inq w)) msgs'
      ∧ pending (manager w') = [].
Proof.
  intros Hr Ha Hb Hq Hc Hid Hrt Hne Hms Hrw Haw Hpw How Hhw Hra Hfu bs Hl.
  pose proof (filled_msgs_inv v msgs Hms) as Hi.
  destruct (send_all_queues now v t r msgs Ha Hid Hc Hb Hi) as (v1 & E1 & B1 & M1 & K1 & Q1).
  destruct (flush_datagram now ms v1 r t bs a) as (v2 & total & E2 & S2);
    [by rewrite M1|by rewrite M1|done| | | |].
  - apply framed_nonempty; [done|]. by destruct msgs.
  - intros r' t'. rewrite (Q1 r' t'), Hq. by destruct (_ && _).
  - unfold route. by rewrite M1, (kept_addr _ _ K1).
  - destruct (datagram_processed now' junk fuel w (filled v <$> msgs) tail ra)
      as (h & n & w' & k & ms' & P); try done.
    + by destruct msgs.
    + by rewrite length_fmap.
    + exists v1, v2, total. rewrite M1 in S2. splits; try done. by exists h, n, w', k, ms'.
Qed.
