(* ===== verification/VastExamples.v ===== *)
(** Two concrete hosts over UDP, on which the theorems of the message layer apply. *)

From S2P Require Import Prelude Bytes StdMap Float Serial Message VastBuffer NetManager.
From S2P Require Import UdpHandler NetUdp NetInterface VastNet VastSend VastReceive VastJoin.
From S2P Require Import VastLink.
From Stdlib Require Import Sorting.Sorted.
Local Open Scope Z_scope.

(** *** The hosts *)

Definition ipA : IPaddr := mkIPaddr 167772161 1037 0.
Definition ipB : IPaddr := mkIPaddr 167772162 1037 0.
Definition idA : Z := Eval compute in resolveHostID ipA.
Definition idB : Z := Eval compute in resolveHostID ipB.

(** A running host with id [id] that is connected to [peers]. *)
Definition link_ex (id : Z) (ip : IPaddr) (peers : list (Z * IPaddr)) (q : list NetSocketMsg)
    : udp_link :=
  mkLink (mkNode_udp
    (mkUdp (mkNM id (Addr_make id ip) true ((λ p, (fst p, mkConn this_stream 1)) <$> peers) q None)
           false)
    (mkUH true ip [0] peers [] 0)) [].

Definition hostA : VASTnet udp_link := VN_new (link_ex idA ipA [(idB, ipB)] []).
Definition hostB (q : list NetSocketMsg) : VASTnet udp_link := VN_new (link_ex idB ipB [(idA, ipA)] q).

Lemma hostA_ready : ready (manager hostA).
Proof. split; [reflexivity|split; [reflexivity|repeat constructor]]. Qed.

Lemma hostB_ready q : ready (manager (hostB q)).
Proof. split; [reflexivity|split; [reflexivity|repeat constructor]]. Qed.

Lemma new_bufs_ok {N} `{NetManager N} (n : N) : bufs_ok (VN_new n).
Proof. intros []; split; constructor. Qed.

(** Two messages: ["hi"] to two targets with priority 1 and no sender yet, ["!"] with
    priority 0. *)
Definition msg_hi : Message :=
  mkMsg 0 2 13 2 1 1 [Byte.x68; Byte.x69; Byte.x00] [5; 6] 1 2 true.
Definition msg_bang : Message := mkMsg idA 1 14 2 0 1 [Byte.x21] [7] 0 1 true.

Lemma msg_hi_ok : transferable (filled hostA msg_hi).
Proof.
  split; [split; apply Nat.leb_le; reflexivity|]. split; [|split; [apply Nat.ltb_lt|]; reflexivity].
  unfold Message_valid. splits; try (split; [discriminate|reflexivity]).
  repeat (constructor; [split; [discriminate|reflexivity]|]). constructor.
Qed.

Lemma msg_bang_ok : transferable msg_bang.
Proof.
  split; [split; apply Nat.leb_le; reflexivity|]. split; [|split; [apply Nat.ltb_lt|]; reflexivity].
  unfold Message_valid. splits; try (split; [discriminate|reflexivity]).
  repeat (constructor; [split; [discriminate|reflexivity]|]). constructor.
Qed.

Lemma msg_hi_inv : Message_inv msg_hi.
Proof. split; apply Nat.leb_le; reflexivity. Qed.

(** *** Sending *)

Lemma sendMessage_queues_witness :
  ∃ v' k, sendMessage 5 hostA idB msg_hi true REGULAR = Ok (v', filled hostA msg_hi, k)
  ∧ outq v' true idB = framed REGULAR (filled hostA msg_hi).
Proof.
  destruct (sendMessage_queues 5 hostA idB msg_hi true REGULAR) as [_ (v' & k & E & _ & _ & _ & _ & _ & Q)];
    [exact hostA_ready|reflexivity|apply new_bufs_ok|exact msg_hi_inv|discriminate|discriminate|].
  exists v', k. split; [exact E|].
  change (connected (manager hostA) idB) with true in Q. cbv iota in Q.
  rewrite (Q true idB). reflexivity.
Defined.

(** A host with something queued for [hostB]. *)
Definition hostA_queued : VASTnet udp_link :=
  with_sendbufs hostA [(idB, mkVB 2 [Byte.x01; Byte.x02; Byte.x00; Byte.x00] 4)] [].

Lemma hostA_queued_ok : bufs_ok hostA_queued.
Proof.
  intros []; (split; [repeat constructor|]); [|apply Forall_nil_2].
  apply Forall_cons_2; [|apply Forall_nil_2].
  split; [reflexivity|]. apply Nat.leb_le. reflexivity.
Qed.

Lemma flush_sends_witness :
  ∃ v', flush hostA_queued 5 10 = Ok (v', 2)
  ∧ sent_dgs (manager v') = [(ipB, [Byte.x01; Byte.x02])] ∧ outq v' true idB = [].
Proof.
  destruct (flush_sends 5 10 hostA_queued hostA_ready hostA_queued_ok)
    as (v' & n & total & E & Es & Em & _ & _ & _ & _ & O & _).
  exists v'. vm_compute in Es. injection Es as En Et. subst total.
  split; [exact E|]. split; [rewrite Em, En; reflexivity|apply O].
Defined.

(** Fifteen bytes to [hostB], and some to [hostA] itself. *)
Definition transmissions : list transmission :=
  [mkTr idB 13 10 1; mkTr idA 13 99 1; mkTr idB 14 5 1; mkTr idB 13 7 2].

Lemma transmission_sums_witness :
  getSendSize (record_all hostA transmissions) 0 = 15
  ∧ getReceiveSize (record_all hostA transmissions) 13 = 7.
Proof.
  destruct (transmission_sums hostA transmissions 0) as [E1 _];
    [split; [discriminate|reflexivity]|split; [discriminate|reflexivity]|].
  destruct (transmission_sums hostA transmissions 13) as [_ E2];
    [split; [discriminate|reflexivity]|split; [discriminate|reflexivity]|].
  rewrite E1, E2. split; reflexivity.
Defined.

(** *** Receiving *)

Definition frame_hi : list byte := framed REGULAR (filled hostA msg_hi).
Definition frame_bang : list byte := framed REGULAR msg_bang.

(** The first message is cut in two; the rest of it comes with the second message. *)
Definition pieces_ex : list (list (list byte)) :=
  [[take 10 frame_hi; drop 10 frame_hi]; [frame_bang]].
Definition groups_ex : list (list (list byte)) :=
  [[take 10 frame_hi]; [drop 10 frame_hi; frame_bang]].
Definition chunks_ex : list NetSocketMsg := (λ g, mkNSM idA 3 (Some (concat g))) <$> groups_ex.

Lemma receiving_ex :
  receiving (hostB chunks_ex) idA [] pieces_ex [filled hostA msg_hi; msg_bang] groups_ex.
Proof.
  split; try reflexivity.
  - apply hostB_ready.
  - constructor.
  - cbn [cut pieces_ex]. splits; try reflexivity; try discriminate.
    + repeat (apply Forall_cons_2; [discriminate|]). apply Forall_nil_2.
    + intros _. apply Nat.ltb_lt. reflexivity.
    + exact msg_hi_ok.
    + repeat (apply Forall_cons_2; [discriminate|]). apply Forall_nil_2.
    + intros _. apply Nat.ltb_lt. reflexivity.
    + exact msg_bang_ok.
  - repeat (apply Forall_cons_2; [discriminate|]). apply Forall_nil_2.
  - by left.
  - repeat constructor.
Qed.


Lemma received_by_priority_witness :
  drain 2 (store_all 4 (hostB []) [(idA, msg_hi); (idA, msg_bang)])
  ≡ₚ [(msg_hi, idA); (msg_bang, idA)]
  ∧ StronglySorted (λ a b, priority (fst a) ≤ priority (fst b))
      (drain 2 (store_all 4 (hostB []) [(idA, msg_hi); (idA, msg_bang)])).
Proof.
  destruct (received_by_priority 4 (hostB []) [(idA, msg_hi); (idA, msg_bang)] 2) as (P & S & _);
    [reflexivity|reflexivity| |apply Nat.leb_le; reflexivity|].
  - repeat (apply Forall_cons_2; [discriminate|]). apply Forall_nil_2.
  - split; [exact P|exact S].
Defined.

(** The receive buffer behind the two messages. *)
Definition tail_ex : list byte := new_char (VAST_BUFSIZ - length (frame_hi ++ frame_bang)).

Lemma tail_ex_fills : length ((frame_hi ++ frame_bang) ++ tail_ex) = VAST_BUFSIZ.
Proof.
  rewrite length_app. unfold tail_ex, new_char. rewrite length_replicate.
  assert (length (frame_hi ++ frame_bang) ≤ VAST_BUFSIZ)%nat
    by (apply Nat.leb_le; vm_compute; reflexivity).
  lia.
Qed.

Lemma messages_cross_witness :
  ∃ v1 v2 total, send_all 5 hostA idB true [msg_hi; msg_bang] = Ok v1
  ∧ flush v1 5 10 = Ok (v2, total) ∧ sent_dgs (manager v2) = [(ipB, frame_hi ++ frame_bang)].
Proof.
  destruct (messages_cross 5 10 hostA (hostB []) idB true [msg_hi; msg_bang] ipB 9 0 5 tail_ex ipA)
    as (v1 & v2 & total & E1 & E2 & E3 & _);
    [exact hostA_ready|reflexivity|apply new_bufs_ok|intros []; reflexivity|reflexivity
    |discriminate|reflexivity|discriminate| |apply hostB_ready|reflexivity|reflexivity
    |constructor|reflexivity|reflexivity|apply Nat.ltb_lt; reflexivity|exact tail_ex_fills|].
  - apply Forall_cons_2; [exact msg_hi_ok|]. apply Forall_cons_2; [exact msg_bang_ok|apply Forall_nil_2].
  - exists v1, v2, total. split; [exact E1|]. split; [exact E2|]. rewrite E3. reflexivity.
Defined.

(** *** Joining *)

(** A host without an id that knows [hostA] as entry point. *)
Definition hostC : VASTnet udp_link := with_entries (VN_new (link_ex 0 ipB [(idA, ipA)] [])) [ipA].

Lemma valid_ip a : ((host a <? 2 ^ 32) && (0 <=? host a) && (port a <? 2 ^ 16) && (0 <=? port a)
  && (pad a <? 2 ^ 16) && (0 <=? pad a)) = true → IPaddr_valid a.
Proof. rewrite !andb_true_iff, !Z.ltb_lt, !Z.leb_le. intros. split; [|split]; split; tauto. Qed.

(** The third request, the second one in group 0. *)
Lemma unique_ids_witness :
  extractIDGroup 720575944742207491 = 0
  ∧ ∀ j, unique_run hostA [0; 1; 0] !! j = Some 720575944742207491 → j = 2%nat.
Proof.
  destruct (unique_ids hostA [0; 1; 0] 2 0 720575944742207491) as [_ U];
    [reflexivity|apply valid_ip; reflexivity|reflexivity| |reflexivity|vm_compute; reflexivity|].
  - repeat (apply Forall_cons_2; [split; [discriminate|reflexivity]|]). apply Forall_nil_2.
  - destruct U as (E & _ & _ & J); [discriminate|]. split; [exact E|exact J].
Defined.

Lemma host_obtains_id_witness :
  ∃ vg' vc',
    processVASTMessage hostA 5 0 (out_header ID_REQUEST 34)
      (control_wire 0 (request (Addr_make idB ipB)) ++ []) idB = Ok (vg', true)
    ∧ processVASTMessage hostC 5 0 (out_header ID_ASSIGN 27)
      (control_wire idA (assignment idB true) ++ []) idA = Ok (vc', true)
    ∧ nm_getID (manager vc') = idB.
Proof.
  destruct (host_obtains_id hostA hostC 5 0 (Addr_make idB ipB) ipB true idB 0 [] [] idA)
    as (vg' & vc' & E1 & _ & E2 & E3 & _);
    [exact hostA_ready|reflexivity|apply new_bufs_ok|reflexivity|reflexivity
    |split; [discriminate|reflexivity]|split; [discriminate|reflexivity]
    |split; [discriminate|reflexivity]|apply valid_ip; reflexivity|apply valid_ip; reflexivity
    |discriminate|discriminate|split; [reflexivity|split; [reflexivity|repeat constructor]]
    |reflexivity|].
  exists vg', vc'. split; [exact E1|]. split; [exact E2|exact E3].
Defined.

Lemma join_requests_witness :
  ∃ v', isJoined hostC 5 10 0 = Ok (v', false)
  ∧ outq v' true idA = outq hostC true idA
      ++ control_frame ID_REQUEST NET_ID_UNASSIGNED (request (Addr_make 0 ipB)).
Proof.
  destruct (join_requests hostC 5 10 0 ipA) as (v' & E & _ & _ & _ & _ & _ & _ & _ & Q);
    [split; [reflexivity|split; [reflexivity|repeat constructor]]|reflexivity
    |intros []; split; constructor|reflexivity|reflexivity|discriminate|].
  exists v'. split; [exact E|].
  change (connected (manager hostC) (resolveHostID ipA)) with true in Q. exact Q.
Defined.
