(* ===== verification/NetEmu.v ===== *)
(** The emulated network of a simulation: the hosts of one process and the bridge through
    which they find each other (VASTnet/net_emu.cpp, VASTnet/net_emubridge.cpp), and the laws
    of the interface of [VASTnet] for them. *)

From S2P Require Import Prelude Bytes StdMap Float Serial Message NetManager VastBuffer.
From S2P Require Import NetInterface VastNet VastSend VastReceive VastJoin VastLink VastExamples.
Local Open Scope Z_scope.

(** *** The bridge

    A pointer to a host is its place among the hosts that were created, [None] is [NULL]. *)

Record net_emubridge := mkBridge {
  id_count : Z; id2ptr : list (Z * option nat); br_time : Z }.

(** The loss and failure rates and the seed are not used; [_vivaldi] is read only where
    [ENABLE_LATENCY] is defined. *)
Definition emubridge_new (init_time : Z) : net_emubridge := mkBridge 1 [] init_time.

Definition obtain_id (b : net_emubridge) (p : nat) : net_emubridge * Z :=
  (mkBridge (u64 (id_count b + 1)) (set (id_count b) (Some p) (id2ptr b)) (br_time b), id_count b).

(** The warning is only printed: [_id2ptr[temp_id]] makes a [NULL] entry for an unknown id. *)
Definition replaceHostID (b : net_emubridge) (temp_id id : Z) : net_emubridge :=
  let m := if has temp_id (id2ptr b) then id2ptr b else set temp_id None (id2ptr b) in
  let m := set id (default None (find temp_id m)) m in
  let m := if negb (id =? temp_id) then erase temp_id m else m in
  mkBridge (id_count b) m (br_time b).

Definition releaseHostID (b : net_emubridge) (id : Z) : net_emubridge :=
  if has id (id2ptr b) then mkBridge (id_count b) (erase id (id2ptr b)) (br_time b) else b.

Definition getArrivalTime (b : net_emubridge) : Z := u64 (br_time b + 1).

Definition getNetworkInterface (b : net_emubridge) (target : Z) : option nat :=
  default None (find target (id2ptr b)).

Definition bridge_tick (b : net_emubridge) (tickvalue : Z) : net_emubridge :=
  mkBridge (id_count b) (id2ptr b) (u64 (br_time b + tickvalue)).

(** *** The hosts of the process *)

Record net_emu := mkEH { emu_base : net_manager; sec2timestamp : Z }.

(** [g_bridge], [g_bridge_ref] and the hosts; [None] is the place of a destroyed one. *)
Record emulation := mkEmu {
  g_bridge : option net_emubridge; g_bridge_ref : Z; emus : list (option net_emu) }.

Definition with_bridge (e : emulation) (b : net_emubridge) : emulation :=
  mkEmu (Some b) (g_bridge_ref e) (emus e).

Definition put (e : emulation) (p : nat) (h : net_emu) : emulation :=
  mkEmu (g_bridge e) (g_bridge_ref e) (<[p := Some h]> (emus e)).

(** [*p], and [*g_bridge] *)
Definition deref (e : emulation) (p : nat) : outcome net_emu :=
  match emus e !! p with Some (Some h) => Ok h | _ => Fail OutOfBounds end.
Definition the_bridge (e : emulation) : outcome net_emubridge :=
  match g_bridge e with Some b => Ok b | None => Fail OutOfBounds end.

Definition Emu_getTimestamp (e : emulation) : Z :=
  match g_bridge e with Some b => br_time b | None => 0 end.

Definition eh_with (h : net_emu) (b : net_manager) : net_emu := mkEH b (sec2timestamp h).

(** The constructor of [net_emu]; [id0] and [active0] are the values of the members that it
    does not set. *)
Definition Emu_new (e : emulation) (sec : Z) (id0 : Z) (active0 : bool) : emulation * nat :=
  let this := length (emus e) in
  let b := default (emubridge_new 1) (g_bridge e) in
  let '(b, id) := obtain_id b this in
  let a := Addr_setPublic Addr_null 2130706433 (u16 (1037 + id - 1)) in
  let a := mkAddr (resolveHostID (publicIP a)) (lastAccessed a) (publicIP a) in
  let b := replaceHostID b id (host_id a) in
  (mkEmu (Some b) (g_bridge_ref e + 1)
     (emus e ++ [Some (mkEH (mkNM id0 a active0 [] [] None) sec)]), this).

(** The destructor *)
Definition Emu_delete (e : emulation) (this : nat) : outcome emulation :=
  h ← deref e this;
  b ← the_bridge e;
  let b := releaseHostID b (nm_id (emu_base h)) in
  let r := g_bridge_ref e - 1 in
  Ok (mkEmu (if r =? 0 then None else Some b) r (<[this := None]> (emus e))).

Definition Emu_start (e : emulation) (this : nat) : outcome emulation :=
  h ← deref e this;
  let b := emu_base h in
  let b := mkNM (nm_id b) (self_addr b) true (id2conn b) (recv_queue b) (recvmsg b) in
  Ok (put e this (eh_with h (nm_start b))).

(** [msg_received] appends the message, whatever [in_front] says; [now] is [getTimestamp ()]. *)
Definition Emu_msg_received (now : Z) (h : net_emu) (fromhost : Z) (message : option (list byte))
    (rt : Z) : net_emu :=
  let b := emu_base h in
  let rt := if rt =? 0 then now else rt in
  let message := match message with Some [] => None | m => m end in
  let b := with_queue b (recv_queue b ++ [mkNSM fromhost rt message]) (recvmsg b) in
  match find fromhost (id2conn b) with
  | Some c =>
      if lasttime c <? rt
      then eh_with h (with_conns b (set fromhost (mkConn (stream c) rt) (id2conn b)))
      else eh_with h b
  | None => eh_with h b
  end.

(** The stream of a connection is [NULL] ([0]). *)
Definition Emu_socket_connected (now : Z) (h : net_emu) (id : Z) : net_emu * bool :=
  let b := emu_base h in
  if has id (id2conn b) then (h, false)
  else (eh_with h (with_conns b (set id (mkConn 0 now) (id2conn b))), true).

Definition Emu_socket_disconnected (now : Z) (h : net_emu) (id : Z) : net_emu * bool :=
  let b := emu_base h in
  if negb (has id (id2conn b)) then (h, false)
  else (Emu_msg_received now (eh_with h (with_conns b (erase id (id2conn b)))) id None 0, true).

Definition remoteConnect (now : Z) (h : net_emu) (remote_id : Z) : net_emu * bool :=
  if negb (nm_active (emu_base h)) then (h, false)
  else (fst (Emu_socket_connected now h remote_id), true).

Definition remoteDisconnect (now : Z) (h : net_emu) (remote_id : Z) : net_emu :=
  fst (Emu_socket_disconnected now h remote_id).

(** *** The operations on a host *)

Definition Emu_getRemoteAddress (e : emulation) (id : Z) (addr : IPaddr) : outcome (IPaddr * bool) :=
  match g_bridge e with
  | Some b =>
      match getNetworkInterface b id with
      | None => Ok (addr, false)
      | Some p => r ← deref e p; Ok (publicIP (self_addr (emu_base r)), true)
      end
  | None => Ok (addr, false)
  end.

Definition Emu_connect (e : emulation) (this : nat) (target : Z) : outcome (emulation * bool) :=
  h ← deref e this;
  if negb (nm_active (emu_base h)) then Ok (e, false)
  else if target =? nm_id (emu_base h) then Ok (e, false)
  else
    b ← the_bridge e;
    match getNetworkInterface b target with
    | None => Ok (e, false)
    | Some p =>
        let now := Emu_getTimestamp e in
        let e := put e this (fst (Emu_socket_connected now h target)) in
        r ← deref e p;
        Ok (put e p (fst (remoteConnect now r (host_id (self_addr (emu_base h))))), true)
    end.

Definition Emu_disconnect (e : emulation) (this : nat) (target : Z) : outcome (emulation * bool) :=
  h ← deref e this;
  if negb (has target (id2conn (emu_base h))) then Ok (e, false)
  else
    b ← the_bridge e;
    match getNetworkInterface b target with
    | None => Ok (e, false)
    | Some p =>
        let now := Emu_getTimestamp e in
        let e := put e this (fst (Emu_socket_disconnected now h target)) in
        r ← deref e p;
        Ok (put e p (remoteDisconnect now r (nm_id (emu_base h))), true)
    end.

(** [net_manager::stop] and [net_emu::stop]: the entry at the bridge is gone for good, as
    [start] does not make a new one. *)
Fixpoint Emu_disconnect_all (e : emulation) (this : nat) (l : list Z) : outcome emulation :=
  match l with
  | [] => Ok e
  | id :: l => '(e, _) ← Emu_disconnect e this id; Emu_disconnect_all e this l
  end.

Definition Emu_stop (e : emulation) (this : nat) : outcome emulation :=
  h ← deref e this;
  e ← (if negb (nm_active (emu_base h)) then Ok e else
       e ← Emu_disconnect_all e this (fst <$> id2conn (emu_base h));
       h ← deref e this;
       Ok (put e this (eh_with h (with_queue (emu_base h) [] None))));
  b ← the_bridge e;
  h ← deref e this;
  let e := with_bridge e (releaseHostID b (host_id (self_addr (emu_base h)))) in
  let m := emu_base h in
  Ok (put e this (eh_with h
        (mkNM (nm_id m) (self_addr m) false (id2conn m) (recv_queue m) (recvmsg m)))).

(** The result is the number of bytes; [addr] only decides what [getArrivalTime] ignores. *)
Definition Emu_send (e : emulation) (this : nat) (target : Z) (msg : list byte)
    : outcome (emulation * Z) :=
  h ← deref e this;
  if negb (nm_active (emu_base h)) || negb (isConnected (emu_base h) target) then Ok (e, 0)
  else
    b ← the_bridge e;
    match getNetworkInterface b target with
    | None => Ok (e, 0)
    | Some p =>
        let rt := getArrivalTime b in
        if rt =? u64 (-1) then Ok (e, 0)
        else
          r ← deref e p;
          let e := put e p (Emu_msg_received (br_time b) r (host_id (self_addr (emu_base h)))
                              (Some msg) rt) in
          h ← deref e this;
          let m := emu_base h in
          let h := match find target (id2conn m) with
                   | Some c => eh_with h (with_conns m (set target
                                 (mkConn (stream c) (Emu_getTimestamp e)) (id2conn m)))
                   | None => h
                   end in
          Ok (put e this h, Z.of_nat (length msg))
    end.

(** The first message that is due: a message is not received in the step it was sent for. *)
Fixpoint take_due (now : Z) (q : list NetSocketMsg) : option (NetSocketMsg * list NetSocketMsg) :=
  match q with
  | [] => None
  | m :: q =>
      if (recvtime m =? 0) || (recvtime m <? now) then Some (m, q)
      else match take_due now q with
           | Some (m', q) => Some (m', m :: q)
           | None => None
           end
  end.

Definition Emu_receive (now : Z) (h : net_emu) : net_emu * option NetSocketMsg :=
  let b := with_queue (emu_base h) (recv_queue (emu_base h)) None in
  match take_due now (recv_queue b) with
  | Some (m, q) => (eh_with h (with_queue b q (Some m)), Some m)
  | None => (eh_with h b, None)
  end.

Definition Emu_switchID (h : net_emu) (prevID newID : Z) : net_emu * bool :=
  let b := emu_base h in
  if has newID (id2conn b) || negb (has prevID (id2conn b)) then (h, false)
  else match find prevID (id2conn b) with
       | Some c => (eh_with h (with_conns b (erase prevID (set newID c (id2conn b)))), true)
       | None => (h, false)
       end.

Definition Emu_tickLogicalClock (e : emulation) : emulation :=
  match g_bridge e with Some b => with_bridge e (bridge_tick b 1) | None => e end.

(** *** A host behind the interface of [VASTnet] *)

(** The emulation, as one of its hosts sees it. *)
Record emu_node := mkEN { net : emulation; me : nat }.

Definition self (n : emu_node) : net_emu :=
  match deref (net n) (me n) with
  | Ok h => h
  | Fail _ => mkEH (mkNM 0 Addr_null false [] [] None) 0
  end.

Definition with_self (n : emu_node) (h : net_emu) : emu_node := mkEN (put (net n) (me n) h) (me n).

(** The result of a call that the interface takes for total; where [ready] holds it does not
    fail ([Emu_send_ok], [Emu_getRemoteAddress_ok]). *)
Definition or_default {A} (d : A) (r : outcome A) : A := match r with Ok a => a | Fail _ => d end.

(** The clock is that of the bridge, not the one the caller has read. *)
#[export] Instance emu_manager : NetManager emu_node := {|
  startup n _ := e ← Emu_start (net n) (me n); Ok (mkEN e (me n));
  shutdown n _ := e ← Emu_stop (net n) (me n); Ok (mkEN e (me n));
  isActive n := nm_active (emu_base (self n));
  nm_getID n := nm_id (emu_base (self n));
  nm_setID n i := with_self n (eh_with (self n) (fst (setID (emu_base (self n)) i)));
  getAddress n := self_addr (emu_base (self n));
  connected n id := isConnected (emu_base (self n)) id;
  lastTime n id := getLastTime (emu_base (self n)) id;
  perSecond n := sec2timestamp (self n);
  remoteAddress n id addr := or_default (addr, false) (Emu_getRemoteAddress (net n) id addr);
  connect n _ target _ _ := '(e, ok) ← Emu_connect (net n) (me n) target; Ok (mkEN e (me n), ok);
  disconnect n _ target := '(e, ok) ← Emu_disconnect (net n) (me n) target; Ok (mkEN e (me n), ok);
  send n target msg _ := let '(e, k) := or_default (net n, 0) (Emu_send (net n) (me n) target msg) in
                         (mkEN e (me n), k);
  receive n := let '(h, m) := Emu_receive (Emu_getTimestamp (net n)) (self n) in (with_self n h, m);
  switchID n prevID newID := let '(h, ok) := Emu_switchID (self n) prevID newID in (with_self n h, ok);
  msg_stored n _ from msg rt _ :=
    h ← deref (net n) (me n);
    Ok (with_self n (Emu_msg_received (Emu_getTimestamp (net n)) h from msg rt), true) |}.

(** *** What holds of the emulation *)

Definition good_host (h : net_emu) : Prop :=
  ordered (id2conn (emu_base h)) ∧ Forall (λ m, recvtime m ≠ 0) (recv_queue (emu_base h)).

(** There is a bridge, its clock has not come round to 0, it knows no destroyed host. *)
Definition emulation_ok (e : emulation) : Prop :=
  (∃ b, g_bridge e = Some b ∧ br_time b ≠ 0 ∧ fits 64 (br_time b)
    ∧ ∀ id p, getNetworkInterface b id = Some p → ∃ h, emus e !! p = Some (Some h))
  ∧ ∀ p h, emus e !! p = Some (Some h) → good_host h.

Definition emu_ready (n : emu_node) : Prop :=
  emulation_ok (net n) ∧ emus (net n) !! me n = Some (Some (self n)).

Definition is_due (now : Z) (m : NetSocketMsg) : Prop := recvtime m = 0 ∨ recvtime m < now.
#[export] Instance is_due_dec now m : Decision (is_due now m).
Proof. unfold is_due. apply _. Defined.

Definition due_part (now : Z) (h : net_emu) : list NetSocketMsg :=
  filter (is_due now) (recv_queue (emu_base h)).

(** A change of a host that leaves what it can receive now; with [grow] it may have more
    connections. *)
Record quiet (grow : bool) (now : Z) (h h' : net_emu) : Prop := mk_quiet {
  q_good : good_host h → good_host h';
  q_due : due_part now h' = due_part now h;
  q_active : nm_active (emu_base h') = nm_active (emu_base h);
  q_id : nm_id (emu_base h') = nm_id (emu_base h);
  q_addr : self_addr (emu_base h') = self_addr (emu_base h);
  q_conn : ∀ id, isConnected (emu_base h) id = true → isConnected (emu_base h') id = true;
  q_same : grow = false → ∀ id, isConnected (emu_base h') id = isConnected (emu_base h) id }.

Lemma quiet_refl grow now h : quiet grow now h h.
Proof. by split. Qed.

Lemma quiet_trans grow now h1 h2 h3 :
  quiet grow now h1 h2 → quiet grow now h2 h3 → quiet grow now h1 h3.
Proof.
  intros [A1 A2 A3 A4 A5 A6 A7] [B1 B2 B3 B4 B5 B6 B7]. split; try congruence; auto.
  intros Hg id. by rewrite B7, A7.
Qed.

Lemma deref_some e p h : deref e p = Ok h ↔ emus e !! p = Some (Some h).
Proof. unfold deref. destruct (emus e !! p) as [[?|]|]; split; intros E; simplify_eq; done. Qed.

Lemma ready_deref e i : emu_ready (mkEN e i) → deref e i = Ok (self (mkEN e i)).
Proof. intros [_ E]. by apply deref_some. Qed.

Lemma self_put e i p h h0 : emus e !! p = Some h0 →
  self (mkEN (put e p h) i) = if decide (i = p) then h else self (mkEN e i).
Proof.
  intros E. unfold self, deref. cbn [net me put emus]. destruct (decide (i = p)) as [->|Hne].
  - rewrite list_lookup_insert_eq; [done|]. by apply lookup_lt_Some in E.
  - by rewrite list_lookup_insert_ne.
Qed.

(** An update of a host that may be this one. *)
Lemma put_ready e i p h h' : emu_ready (mkEN e i) → deref e p = Ok h → (good_host h → good_host h') →
  emu_ready (mkEN (put e p h') i).
Proof.
  intros [[(b & Eb & Ht & Hft & Hp) Hg] Hs] Hd Hq. apply deref_some in Hd. cbn [net me] in *.
  split; [split|].
  - exists b. split; [done|]. split; [done|]. split; [done|]. intros id q Hi. destruct (Hp id q Hi) as (hq & Eq).
    cbn [net put emus]. destruct (decide (q = p)) as [->|Hne].
    + exists h'. apply list_lookup_insert_eq. by apply lookup_lt_Some in Hd.
    + exists hq. by rewrite list_lookup_insert_ne.
  - cbn [net put emus]. intros q hq. rewrite list_lookup_insert_Some.
    intros [(-> & [= <-] & _)|(_ & E)]; eauto.
  - cbn [net me put emus]. rewrite (self_put e i p h' _ Hd). destruct (decide (i = p)) as [->|Hne].
    + apply list_lookup_insert_eq. by apply lookup_lt_Some in Hd.
    + by rewrite list_lookup_insert_ne.
Qed.

Lemma put_quiet grow e i p h h' now :
  emu_ready (mkEN e i) → deref e p = Ok h → quiet grow now h h' →
  emu_ready (mkEN (put e p h') i) ∧ quiet grow now (self (mkEN e i)) (self (mkEN (put e p h') i)).
Proof.
  intros Hr Hd Hq. split; [eapply put_ready; [done..|apply Hq]|].
  apply deref_some in Hd. rewrite (self_put e i p h' _ Hd). destruct (decide (i = p)) as [->|Hne].
  - assert (self (mkEN e p) = h) as -> by (unfold self, deref; cbn; by rewrite Hd). done.
  - apply quiet_refl.
Qed.

(** *** The operations on one host *)

(** The state of the host after a message, but for the time of the connection. *)
Lemma emu_received_ok now h f m rt : 
  let t := if rt =? 0 then now else rt in
  let h' := Emu_msg_received now h f m rt in
  recv_queue (emu_base h')
  = recv_queue (emu_base h) ++ [mkNSM f t (match m with Some [] => None | m => m end)]
  ∧ nm_active (emu_base h') = nm_active (emu_base h) ∧ nm_id (emu_base h') = nm_id (emu_base h)
  ∧ self_addr (emu_base h') = self_addr (emu_base h)
  ∧ (∀ id, isConnected (emu_base h') id = isConnected (emu_base h) id)
  ∧ (ordered (id2conn (emu_base h)) → ordered (id2conn (emu_base h'))).
Proof.
  cbv zeta. unfold Emu_msg_received. cbv zeta. cbn [id2conn with_queue].
  destruct (find f (id2conn (emu_base h))) as [c|] eqn:E; [destruct (lasttime c <? _)|]; splits; try done.
  - intros id. unfold isConnected, has. cbn. rewrite find_set.
    by destruct (Z.eqb_spec id f) as [->|]; [rewrite E|].
  - cbn. apply ordered_set.
Qed.

Lemma msg_received_good now h f m rt : now ≠ 0 → good_host h → good_host (Emu_msg_received now h f m rt).
Proof.
  intros Hn [Ho Hq]. destruct (emu_received_ok now h f m rt) as (Q & _ & _ & _ & _ & O).
  split; [auto|]. rewrite Q. apply Forall_app. split; [done|]. constructor; [|constructor].
  cbn [recvtime]. by destruct (Z.eqb_spec rt 0).
Qed.

Lemma msg_received_quiet now h f m rt : now ≠ 0 → rt = 0 ∨ now ≤ rt →
  quiet false now h (Emu_msg_received now h f m rt).
Proof.
  intros Hn Hrt. destruct (emu_received_ok now h f m rt) as (Q & A & I & S & C & _). split; try done.
  - by apply msg_received_good.
  - unfold due_part. rewrite Q, filter_app, filter_cons_False, filter_nil, app_nil_r; [done|].
    unfold is_due. cbn [recvtime]. destruct (Z.eqb_spec rt 0); lia.
  - intros id. by rewrite C.
Qed.

(** What is put back while it is due comes after everything that is pending. *)
Lemma msg_received_due now h f m rt : rt ≠ 0 → rt < now →
  due_part now (Emu_msg_received now h f m rt)
  = due_part now h ++ [mkNSM f rt (match m with Some [] => None | m => m end)].
Proof.
  intros Hn Hrt. destruct (emu_received_ok now h f m rt) as (Q & _).
  unfold due_part. rewrite Q, filter_app. f_equal. destruct (Z.eqb_spec rt 0); [done|].
  rewrite filter_cons_True, filter_nil; [done|]. by right.
Qed.

Lemma conns_quiet now h cs : (ordered (id2conn (emu_base h)) → ordered cs) →
  (∀ id, has id (id2conn (emu_base h)) = true → has id cs = true) →
  quiet true now h (eh_with h (with_conns (emu_base h) cs)).
Proof. intros Ho Hc. split; try done. intros [O Q]. split; [by apply Ho|done]. Qed.

Lemma has_set_key {V} k k' (v : V) m : has k (set k' v m) = (k =? k') || has k m.
Proof. unfold has. rewrite find_set. by destruct (k =? k'). Qed.

Lemma emu_socket_connected_quiet now h id :
  quiet true now h (fst (Emu_socket_connected now h id))
  ∧ isConnected (emu_base (fst (Emu_socket_connected now h id))) id = true.
Proof.
  unfold Emu_socket_connected. destruct (has id (id2conn (emu_base h))) eqn:E; [by split; [apply quiet_refl|]|].
  split.
  - apply conns_quiet; [apply ordered_set|]. intros id' H. by rewrite has_set_key, H, orb_true_r.
  - cbn. unfold isConnected. cbn. by rewrite has_set_key, Z.eqb_refl.
Qed.

Lemma remoteConnect_quiet now h id : quiet true now h (fst (remoteConnect now h id)).
Proof.
  unfold remoteConnect. destruct (negb _); [apply quiet_refl|]. apply emu_socket_connected_quiet.
Qed.

Lemma take_due_ok now q :
  match take_due now q with
  | Some (m, q') => head (filter (is_due now) q) = Some m
      ∧ filter (is_due now) q' = tail (filter (is_due now) q)
      ∧ ∀ P : NetSocketMsg → Prop, Forall P q → Forall P q'
  | None => filter (is_due now) q = []
  end.
Proof.
  induction q as [|m q IH]; [done|]. cbn [take_due].
  assert (B : (recvtime m =? 0) || (recvtime m <? now) = bool_decide (is_due now m)).
  { symmetry. destruct (Z.eqb_spec (recvtime m) 0), (Z.ltb_spec (recvtime m) now); cbn [orb];
      first [apply bool_decide_eq_true_2; unfold is_due; lia
            |apply bool_decide_eq_false_2; unfold is_due; lia]. }
  rewrite B. destruct (bool_decide_reflect (is_due now m)) as [Hd|Hd].
  - rewrite filter_cons_True by done. splits; try done. intros P. by apply Forall_inv_tail.
  - rewrite filter_cons_False by done. destruct (take_due now q) as [[m' q']|]; [|done].
    destruct IH as (E & F & G). rewrite filter_cons_False by done. splits; try done.
    intros P HP. apply Forall_cons in HP as [? HP]. constructor; auto.
Qed.

(** *** The laws of the interface *)

Lemma ready_pointer n b id p : emu_ready n → g_bridge (net n) = Some b →
  getNetworkInterface b id = Some p → ∃ h, deref (net n) p = Ok h.
Proof.
  intros [[(b' & Eb & _ & _ & Hp) _] _] E Hi. rewrite E in Eb. injection Eb as <-.
  destruct (Hp id p Hi) as (h & Eh). exists h. by apply deref_some.
Qed.

Lemma ready_bridge n : emu_ready n →
  ∃ b, g_bridge (net n) = Some b ∧ the_bridge (net n) = Ok b
  ∧ Emu_getTimestamp (net n) = br_time b ∧ br_time b ≠ 0 ∧ fits 64 (br_time b).
Proof.
  intros [[(b & E & Ht & Hf & _) _] _]. exists b. unfold the_bridge, Emu_getTimestamp. by rewrite E.
Qed.

Lemma ready_due n : emu_ready n →
  Forall (λ m, recvtime m ≠ 0 ∧ recvtime m < Emu_getTimestamp (net n))
    (due_part (Emu_getTimestamp (net n)) (self n)).
Proof.
  intros [[_ Hg] Hs]. destruct (Hg _ _ Hs) as [_ Hq]. unfold due_part.
  apply Forall_forall. intros m Hm. apply list_elem_of_filter in Hm as [[Hd|Hd] Hm];
    pose proof (proj1 (Forall_forall _ _) Hq m Hm); done.
Qed.

Abbreviation pending_of n := (due_part (Emu_getTimestamp (net n)) (self n)).

(** What the laws say of an operation on a connection. *)
Definition settled (n n' : emu_node) : Prop :=
  emu_ready n' ∧ pending_of n' = pending_of n ∧ isActive n' = isActive n
  ∧ nm_getID n' = nm_getID n ∧ getAddress n' = getAddress n.

Lemma quiet_settled grow n n' : emu_ready n' → g_bridge (net n') = g_bridge (net n) →
  quiet grow (Emu_getTimestamp (net n)) (self n) (self n') → settled n n'.
Proof.
  intros Hr Eg [_ D A I S _ _]. unfold settled, Emu_getTimestamp in *. rewrite Eg. by splits.
Qed.

Lemma settled_refl n : emu_ready n → settled n n.
Proof. done. Qed.

Lemma emu_connect_law n now target h p : emu_ready n →
  ∃ n' ok, connect n now target h p = Ok (n', ok) ∧ settled n n'
  ∧ (∀ id, connected n id = true → connected n' id = true)
  ∧ (ok = true → target ≠ NET_ID_UNASSIGNED → connected n' target = true).
Proof.
  intros Hr. destruct (ready_bridge n Hr) as (b & Eb & Eb' & Et & _). destruct n as [e i]. cbn [net me] in *.
  cbn [connect emu_manager net me]. unfold Emu_connect. rewrite (ready_deref e i Hr), bind_ok. cbn beta.
  destruct (nm_active (emu_base (self (mkEN e i)))); cbn [negb]; [|by eexists _, false].
  destruct (target =? _); [by eexists _, false|]. rewrite Eb', bind_ok. cbn beta.
  destruct (getNetworkInterface b target) as [q|] eqn:Eq; [|by eexists _, false].
  cbv zeta. set (now' := Emu_getTimestamp e).
  destruct (emu_socket_connected_quiet now' (self (mkEN e i)) target) as [Q1 C1].
  set (h1 := fst (Emu_socket_connected _ _ target)) in *.
  destruct (put_quiet true e i i _ h1 now' Hr (ready_deref e i Hr) Q1) as [R1 S1].
  assert (Es : self (mkEN (put e i h1) i) = h1)
    by (rewrite (self_put e i i h1 _ (proj2 Hr)); by rewrite decide_True).
  destruct (ready_pointer _ b target q R1 Eb Eq) as (r & Er). cbn [net] in Er. rewrite Er, bind_ok.
  destruct (put_quiet true (put e i h1) i q r _ now' R1 Er
    (remoteConnect_quiet now' r (host_id (self_addr (emu_base (self (mkEN e i))))))) as [R2 S2].
  cbn beta iota. rewrite bind_ok. cbn beta iota. eexists _, true. split; [reflexivity|].
  pose proof (quiet_trans _ _ _ _ _ S1 S2) as S. split; [by eapply quiet_settled|].
  split; [apply S|]. intros _ _. apply S2. rewrite Es. exact C1.
Qed.

Lemma Emu_send_ok n target bs : emu_ready n →
  ∃ n' k, Emu_send (net n) (me n) target bs = Ok (net n', k) ∧ me n' = me n ∧ settled n n'
  ∧ ∀ id, connected n' id = connected n id.
Proof.
  intros Hr. destruct (ready_bridge n Hr) as (b & Eb & Eb' & Et & Hb & Hf). destruct n as [e i]. cbn [net me] in *.
  unfold Emu_send. rewrite (ready_deref e i Hr), bind_ok. cbn beta.
  destruct (_ || _) eqn:Ea; [by eexists (mkEN e i), _|]. rewrite Eb', bind_ok. cbn beta.
  destruct (getNetworkInterface b target) as [q|] eqn:Eq; [|by eexists (mkEN e i), _].
  cbv zeta. destruct (_ =? u64 (-1)) eqn:El; [by eexists (mkEN e i), _|].
  destruct (ready_pointer _ b target q Hr Eb Eq) as (r & Er). cbn [net] in Er. rewrite Er, bind_ok. cbn beta.
  set (f := host_id _). assert (Hrt : getArrivalTime b = 0 ∨ br_time b ≤ getArrivalTime b).
  { unfold getArrivalTime, wrap, fits in *. Z.div_mod_to_equations. lia. }
  pose proof (msg_received_quiet (br_time b) r f (Some bs) _ Hb Hrt) as Q1.
  destruct (put_quiet false e i q r _ (br_time b) Hr Er Q1) as [R1 S1].
  set (e1 := put e q _) in *. pose proof (ready_deref _ _ R1) as Ed.
  rewrite Ed, bind_ok. cbn beta.
  set (h1 := self (mkEN e1 i)) in *. set (h2 := match find target _ with Some _ => _ | None => h1 end).
  assert (Q2 : quiet false (br_time b) h1 h2).
  { unfold h2. destruct (find target (id2conn (emu_base h1))) as [c|] eqn:E; [|apply quiet_refl].
    assert (Hs : ∀ id, has id (set target (mkConn (stream c) (Emu_getTimestamp e1)) (id2conn (emu_base h1)))
                 = has id (id2conn (emu_base h1))).
    { intros id. rewrite has_set_key. destruct (Z.eqb_spec id target) as [->|]; [|done].
      unfold has. by rewrite E. }
    split; try done.
    - intros [O Q]. split; [by apply ordered_set|done].
    - intros id. unfold isConnected. cbn. by rewrite Hs. }
  destruct (put_quiet false e1 i i h1 h2 (br_time b) R1 Ed Q2) as [R2 S2].
  exists (mkEN (put e1 i h2) i), (Z.of_nat (length bs)). split; [done|]. split; [done|].
  pose proof (quiet_trans _ _ _ _ _ S1 S2) as S. split; [|by apply S].
  apply (quiet_settled false); [done|done|]. cbn [net]. rewrite Et. exact S.
Qed.

Lemma emu_send_law n target bs addr n' k : emu_ready n → send n target bs addr = (n', k) →
  emu_ready n' ∧ pending_of n' = pending_of n ∧ same_node n n'.
Proof.
  intros Hr. cbn [send emu_manager].
  destruct (Emu_send_ok n target bs Hr) as (n1 & k1 & E & Em & (R & P & A & I & S) & C). rewrite E.
  cbn [or_default]. intros [= <- _]. rewrite <- Em. destruct n1. by splits.
Qed.

(** An update of this host. *)
Lemma with_self_ready n h : emu_ready n → (good_host (self n) → good_host h) →
  emu_ready (with_self n h) ∧ self (with_self n h) = h.
Proof.
  intros Hr Hg. destruct n as [e i]. split.
  - eapply put_ready; [done|by apply ready_deref|done].
  - unfold with_self. cbn [net me]. rewrite (self_put e i i h _ (proj2 Hr)). by rewrite decide_True.
Qed.

Lemma emu_receive_law n : emu_ready n →
  ∃ n', receive n = (n', head (pending_of n)) ∧ pending_of n' = tail (pending_of n)
  ∧ emu_ready n' ∧ same_node n n' ∧ Emu_getTimestamp (net n') = Emu_getTimestamp (net n).
Proof.
  intros Hr. cbn [receive emu_manager]. unfold Emu_receive. cbv zeta. cbn [recv_queue with_queue].
  pose proof (take_due_ok (Emu_getTimestamp (net n)) (recv_queue (emu_base (self n)))) as T.
  destruct (take_due _ _) as [[m q]|].
  - destruct T as (E & F & G).
    set (h := eh_with _ _). destruct (with_self_ready n h Hr) as [R S].
    { intros [O Q]. split; [done|]. by apply G. }
    exists (with_self n h). change (Emu_getTimestamp (net (with_self n h))) with (Emu_getTimestamp (net n)).
    rewrite S. unfold due_part at 1. rewrite E. split; [done|]. split; [exact F|]. split; [done|].
    split; [|done]. split; cbn [isActive nm_getID getAddress connected emu_manager]; by rewrite S.
  - set (h := eh_with _ _). destruct (with_self_ready n h Hr) as [R S]; [by intros [O Q]|].
    exists (with_self n h). change (Emu_getTimestamp (net (with_self n h))) with (Emu_getTimestamp (net n)).
    rewrite S. unfold due_part. cbn [h eh_with emu_base with_queue recv_queue]. rewrite T. split; [done|].
    split; [done|]. split; [done|].
    split; [|done]. split; cbn [isActive nm_getID getAddress connected emu_manager]; by rewrite S.
Qed.

Lemma emu_stored_law n now f bs rt front : emu_ready n → rt ≠ 0 → rt < Emu_getTimestamp (net n) → bs ≠ [] →
  ∃ n', msg_stored n now f (Some bs) rt front = Ok (n', true)
  ∧ pending_of n' = pending_of n ++ [mkNSM f rt (Some bs)]
  ∧ emu_ready n' ∧ same_node n n'.
Proof.
  intros Hr H0 Hrt Hbs. destruct (ready_bridge n Hr) as (b & _ & _ & Et & Hb & _).
  cbn [msg_stored emu_manager]. destruct n as [e i] eqn:En. cbn [net me] in *.
  rewrite ready_deref, bind_ok by done. rewrite <- En in *. cbn beta.
  set (h := Emu_msg_received _ _ _ _ _).
  destruct (emu_received_ok (Emu_getTimestamp e) (self n) f (Some bs) rt) as (_ & A & I & S & C & _).
  fold h in A, I, S, C.
  destruct (with_self_ready n h Hr) as [R Es]; [apply msg_received_good; congruence|].
  eexists. split; [reflexivity|].
  replace (Emu_getTimestamp (net (with_self n h))) with (Emu_getTimestamp e) by (by rewrite En).
  rewrite Es. unfold h at 1. rewrite msg_received_due by done. split; [by destruct bs|]. split; [done|].
  split; cbn [isActive nm_getID getAddress connected emu_manager]; by rewrite Es.
Qed.

Lemma emu_switch_law n a b n' ok : emu_ready n → switchID n a b = (n', ok) →
  settled n n' ∧ (connected n a = true → connected n' b = true).
Proof.
  intros Hr. cbn [switchID emu_manager]. unfold Emu_switchID. cbv zeta.
  assert (Hsame : settled n (with_self n (self n))).
  { destruct (with_self_ready n (self n) Hr id) as [R S]. unfold settled. cbn [isActive nm_getID getAddress emu_manager].
    rewrite S. by splits. }
  destruct (has b _) eqn:Eb; cbn [orb].
  { intros [= <- _]. split; [done|]. intros _. cbn [connected emu_manager].
    destruct (with_self_ready n (self n) Hr id) as [_ ->]. exact Eb. }
  destruct (has a _) eqn:Ea; cbn [negb].
  2: { intros [= <- _]. split; [done|]. cbn [connected emu_manager]. unfold isConnected. by rewrite Ea. }
  destruct (find a (id2conn (emu_base (self n)))) as [c|] eqn:E; [|unfold has in Ea; by rewrite E in Ea].
  set (h := eh_with _ _). intros [= <- _].
  destruct (with_self_ready n h Hr) as [R S]; [intros [O Q]; split; [by apply ordered_erase, ordered_set|done]|].
  split; [unfold settled; cbn [isActive nm_getID getAddress emu_manager]; rewrite S; by splits|].
  intros _. cbn [connected emu_manager]. rewrite S. unfold isConnected. cbn.
  assert (a ≠ b) by (intros ->; by rewrite Ea in Eb).
  unfold has. by rewrite find_erase_ne, find_set_eq.
Qed.

Lemma emu_setID_law n i : emu_ready n →
  emu_ready (nm_setID n i) ∧ pending_of (nm_setID n i) = pending_of n
  ∧ nm_getID (nm_setID n i) = i ∧ isActive (nm_setID n i) = isActive n
  ∧ ∀ id, connected (nm_setID n i) id = connected n id.
Proof.
  intros Hr. cbn [nm_setID emu_manager]. set (h := eh_with _ _).
  destruct (with_self_ready n h Hr) as [R S]; [done|].
  cbn [isActive nm_getID connected emu_manager]. rewrite S. by splits.
Qed.

Lemma Emu_getRemoteAddress_ok n id addr : emu_ready n →
  ∃ r, Emu_getRemoteAddress (net n) id addr = Ok r ∧ remoteAddress n id addr = r.
Proof.
  intros Hr. cbn [remoteAddress emu_manager]. unfold Emu_getRemoteAddress.
  destruct (g_bridge (net n)) as [b|] eqn:E; [|by eexists].
  destruct (getNetworkInterface b id) as [p|] eqn:Ep; [|by eexists].
  destruct (ready_pointer n b id p Hr E Ep) as (r & ->). rewrite bind_ok. by eexists.
Qed.

(** The laws hold, except that what is put back is received last. *)
#[export] Program Instance emu_laws : NetManagerLaws emu_node := {|
  ready := emu_ready;
  pending n := pending_of n;
  due n t := t ≠ 0 ∧ t < Emu_getTimestamp (net n);
  front_first := false;
  due_law := ready_due;
  send_law := emu_send_law;
  setID_law := emu_setID_law |}.
Next Obligation.
  intros n Hr. destruct (emu_receive_law n Hr) as (n' & E & P & R & S & T). exists n'.
  splits; try done. by rewrite T.
Qed.
Next Obligation.
  intros n now f bs rt Hr _ [H0 Ht] Hbs.
  destruct (emu_stored_law n now f bs rt true Hr H0 Ht Hbs) as (n' & E & P & R & S).
  exists n'. split; [done|]. split; [|done]. intros [Hff|Hp]; [discriminate Hff|].
  rewrite Hp in P. exists rt. by rewrite Hp.
Qed.
Next Obligation.
  intros n now target h p Hr.
  destruct (emu_connect_law n now target h p Hr) as (n' & ok & E & (R & P & A & I & S) & C & T).
  exists n', ok. by splits.
Qed.
Next Obligation.
  intros n a b n' ok Hr E. destruct (emu_switch_law n a b n' ok Hr E) as [(R & P & A & I & S) C].
  by splits.
Qed.
Next Obligation.
  intros n id. cbn. unfold getLastTime, isConnected, has. by destruct (find id _).
Qed.

(** *** Two hosts of an emulation *)

Definition ticks (k : nat) (e : emulation) : emulation := Nat.iter k Emu_tickLogicalClock e.

(** A message layer on host [i] of [e]. *)
Definition at_host (v : VASTnet emu_node) (e : emulation) (i : nat) : VASTnet emu_node :=
  with_manager v (mkEN e i).

Lemma ready_at e i j b t : emu_ready (mkEN e i) → g_bridge e = Some b →
  getNetworkInterface b t = Some j → emu_ready (mkEN e j).
Proof.
  intros Hr Eb Hj. destruct (ready_pointer _ b t j Hr Eb Hj) as (h & E). cbn [net] in E.
  split; [apply Hr|]. cbn [net me]. unfold self. cbn [net me]. rewrite E. by apply deref_some.
Qed.

(** What is sent to another host is in its queue, with the time of the next step. *)
Lemma Emu_send_delivers e i j b t bs : emu_ready (mkEN e i) → g_bridge e = Some b →
  getNetworkInterface b t = Some j → i ≠ j → br_time b + 2 < 2 ^ 64 → bs ≠ [] →
  isActive (mkEN e i) = true → connected (mkEN e i) t = true →
  ∃ e', Emu_send e i t bs = Ok (e', Z.of_nat (length bs)) ∧ g_bridge e' = Some b
  ∧ emu_ready (mkEN e' j) ∧ quiet false (br_time b) (self (mkEN e j)) (self (mkEN e' j))
  ∧ recv_queue (emu_base (self (mkEN e' j))) = recv_queue (emu_base (self (mkEN e j)))
      ++ [mkNSM (host_id (getAddress (mkEN e i))) (br_time b + 1) (Some bs)].
Proof.
  intros Hr Eb Hj Hij Ht Hbs Ha Hc. cbn [isActive connected getAddress emu_manager] in *.
  destruct (ready_bridge _ Hr) as (b' & Eb1 & Eb' & Et & Hb & Hf). cbn [net] in *.
  rewrite Eb in Eb1. injection Eb1 as <-.
  pose proof (ready_at e i j b t Hr Eb Hj) as Rj.
  unfold Emu_send. rewrite (ready_deref e i Hr), bind_ok. cbn beta. rewrite Ha, Hc. cbn [negb orb].
  rewrite Eb', bind_ok. cbn beta. rewrite Hj. cbv zeta.
  assert (Ear : getArrivalTime b = br_time b + 1)
    by (unfold getArrivalTime; apply wrap_id; unfold fits in *; lia).
  assert (E1 : (getArrivalTime b =? u64 (-1)) = false)
    by (rewrite Ear; apply Z.eqb_neq; change (u64 (-1)) with (2 ^ 64 - 1); lia).
  rewrite E1, Ear, (ready_deref e j Rj), bind_ok. cbn beta. set (f := host_id _).
  assert (Q : quiet false (br_time b) (self (mkEN e j))
    (Emu_msg_received (br_time b) (self (mkEN e j)) f (Some bs) (br_time b + 1)))
    by (apply msg_received_quiet; [done|right; lia]).
  destruct (emu_received_ok (br_time b) (self (mkEN e j)) f (Some bs) (br_time b + 1)) as (Qu & _).
  set (r := Emu_msg_received _ _ _ _ _) in *.
  destruct (put_quiet false e j j _ r _ Rj (ready_deref e j Rj) Q) as [Rj1 _].
  destruct (put_quiet false e i j _ r _ Hr (ready_deref e j Rj) Q) as [Ri1 _].
  rewrite (ready_deref _ _ Ri1), bind_ok. cbn beta. eexists. split; [reflexivity|]. split; [exact Eb|].
  assert (Es : self (mkEN (put e j r) j) = r).
  { rewrite (self_put e j j r _ (proj2 Rj)). by rewrite decide_True. }
  split.
  - eapply put_ready; [exact Rj1|by apply ready_deref|]. intros [O Qg].
    destruct (find t _) as [c|]; [|done]. split; [by apply ordered_set|done].
  - rewrite (self_put _ j i _ _ (proj2 Ri1)), decide_False by done. cbn [net].
    rewrite Es. split; [exact Q|].
    rewrite Qu. destruct (Z.eqb_spec (br_time b + 1) 0); [unfold fits in Hf; lia|]. by destruct bs.
Qed.

(** Time passes. *)
Lemma ticks_ok k e i b : emu_ready (mkEN e i) → g_bridge e = Some b → br_time b + Z.of_nat k < 2 ^ 64 →
  emu_ready (mkEN (ticks k e) i) ∧ self (mkEN (ticks k e) i) = self (mkEN e i)
  ∧ Emu_getTimestamp (ticks k e) = br_time b + Z.of_nat k.
Proof.
  intros Hr Eb. destruct (ready_bridge _ Hr) as (b1 & Eb1 & _ & _ & Hb & Hf). cbn [net] in Eb1.
  rewrite Eb in Eb1. injection Eb1 as <-. intros Hk.
  enough (∃ b', g_bridge (ticks k e) = Some b' ∧ br_time b' = br_time b + Z.of_nat k
    ∧ id2ptr b' = id2ptr b ∧ emus (ticks k e) = emus e) as (b' & E1 & E2 & E3 & E4).
  { assert (Es : self (mkEN (ticks k e) i) = self (mkEN e i)).
    { unfold self, deref. cbn [net me]. by rewrite E4. }
    unfold Emu_getTimestamp. rewrite E1. split; [|done]. unfold emu_ready. rewrite Es. cbn [net me].
    rewrite E4. destruct Hr as [[(b0 & Eb0 & _ & _ & Hp) Hg] Hs]. split; [|done]. cbn [net] in *.
    rewrite Eb in Eb0. injection Eb0 as <-. split; [|by rewrite E4].
    exists b'. rewrite E4. unfold getNetworkInterface, fits in *. rewrite E3. splits; (done || lia). }
  induction k as [|k IH]; [exists b; splits; try done; lia|].
  destruct IH as (b' & E1 & E2 & E3 & E4); [lia|].
  change (ticks (S k) e) with (Emu_tickLogicalClock (ticks k e)). unfold Emu_tickLogicalClock.
  rewrite E1. exists (bridge_tick b' 1). cbn [g_bridge with_bridge bridge_tick br_time id2ptr emus].
  splits; try done. rewrite wrap_id, E2; unfold fits in *; lia.
Qed.

(** The byte string of several messages, received at once. *)
Lemma one_string_processed fuel now junk w f ms rt :
  ready (manager w) → isActive (manager w) = true → connected (manager w) f = true →
  f ≠ NET_ID_UNASSIGNED → ordered (half_queue (inq w)) → find f (half_queue (inq w)) = None →
  ms ≠ [] → Forall transferable ms → (1 + length ms < fuel)%nat →
  pending (manager w) = [mkNSM f rt (Some (concat (framed REGULAR <$> ms)))] →
  ∃ w' k, process fuel now junk w = Ok (w', k) ∧ advanced f now ms w w'
  ∧ ready (manager w') ∧ pending (manager w') = [] ∧ find f (half_queue (inq w')) = None.
Proof.
  intros Hr Ha Hc Hf Ho Hn Hne Hms Hfu Hp.
  apply (reassemble fuel now junk f Hf w [] ((λ m, [framed REGULAR m]) <$> ms) ms [framed REGULAR <$> ms]);
    [cbn [length]; lia|].
  split; try done.
  - by apply whole_frames.
  - constructor; [by destruct ms|constructor].
  - cbn [concat]. rewrite app_nil_r. clear. induction ms as [|m ms IH]; [done|].
    cbn [fmap list_fmap concat app]. by rewrite <- IH.
  - by right.
  - rewrite Hp. repeat constructor.
Qed.

(** C37: Messages between two emulated hosts. Regular messages sent with [sendMessage] and flushed
    cannot be received after one tick of the bridge's clock, although their arrival time is
    then reached; after two ticks [process] on the other host puts exactly these messages into
    the priority queue, in their order, content-equal and with the sender filled in, and
    nothing is left to process. *)
Theorem emulated_messages_cross now ms v w t r msgs i j e b now' junk fuel :
  manager v = mkEN e i → manager w = mkEN e j → ready (manager v) → g_bridge e = Some b →
  getNetworkInterface b t = Some j → i ≠ j → br_time b + 2 < 2 ^ 64 →
  isActive (manager v) = true → bufs_ok v → (∀ r t, outq v r t = []) →
  connected (manager v) t = true → t ≠ nm_getID (manager v) → (r = false → has t (id2addr v) = true) →
  msgs ≠ [] → Forall transferable (filled v <$> msgs) →
  let f := host_id (getAddress (manager v)) in
  isActive (manager w) = true → recv_queue (emu_base (self (manager w))) = [] →
  connected (manager w) f = true → f ≠ NET_ID_UNASSIGNED →
  ordered (half_queue (inq w)) → find f (half_queue (inq w)) = None → (1 + length msgs < fuel)%nat →
  ∃ v1 v2 total, send_all now v t r msgs = Ok v1 ∧ flush v1 now ms = Ok (v2, total)
  ∧ let e2 := net (manager v2) in
    pending (mkEN (ticks 1 e2) j) = []
    ∧ ∃ w' k msgs', process fuel now' junk (at_host w (ticks 2 e2) j) = Ok (w', k)
      ∧ Forall2 arrived msgs' (filled v <$> msgs)
      ∧ full_queue (inq w') = foldl (insert_msg now' f) (full_queue (inq w)) msgs'
      ∧ pending (manager w') = [].
Proof.
  intros Ev Ew Hr Eb Hj Hij Ht Ha Hb Hq Hc Hid Hrt Hne Hms f Haw Hqw Hcw Hf How Hhw Hfu.
  pose proof (filled_msgs_inv v msgs Hms) as Hi.
  destruct (send_all_queues now v t r msgs Ha Hid Hc Hb Hi) as (v1 & E1 & B1 & M1 & K1 & Q1).
  set (bs := concat (framed REGULAR <$> (filled v <$> msgs))) in *.
  assert (Hbs : bs ≠ []) by (apply framed_nonempty; [done|by destruct msgs]).
  destruct (flush_single now ms v1 r t bs) as (v2 & total & E2 & _ & M2); [by rewrite M1|done|done| | |].
  { intros r' t'. rewrite (Q1 r' t'), Hq. by destruct (_ && _). }
  { by rewrite (kept_addr _ _ K1). }
  exists v1, v2, total. split; [done|]. split; [done|].
  assert (Ef : host_id (getAddress (mkEN e i)) = f) by (unfold f; by rewrite Ev).
  clearbody f. rewrite Ev, Ew in *. rewrite M1 in M2.
  destruct (Emu_send_delivers e i j b t bs Hr Eb Hj Hij Ht Hbs Ha Hc) as (e' & Es & Eb' & R' & [_ D A I S C _] & Q).
  rewrite Ef in Q.
  cbn [send emu_manager net me] in M2. rewrite Es in M2. cbn [or_default fst] in M2. rewrite M2. cbv zeta. cbn [net].
  rewrite Hqw, app_nil_l in Q.
  destruct (ticks_ok 1 e' j b R' Eb') as (R1 & S1 & T1); [lia|].
  destruct (ticks_ok 2 e' j b R' Eb') as (R2 & S2 & T2); [lia|].
  split.
  { cbn [pending emu_laws net]. unfold due_part. rewrite T1, S1, Q.
    rewrite filter_cons_False, filter_nil; [done|].
    unfold is_due. cbn [recvtime]. destruct (ready_bridge _ Hr) as (b1 & Eb1 & _ & _ & _ & Hfi). 
    cbn [net] in Eb1. rewrite Eb in Eb1. injection Eb1 as <-. unfold fits in Hfi. lia. }
  destruct (one_string_processed fuel now' junk (at_host w (ticks 2 e') j) f (filled v <$> msgs)
    (br_time b + 1)) as (w' & k & E' & Adv & _ & P' & _); try done.
  - cbn [isActive emu_manager at_host with_manager manager]. rewrite S2, A. exact Haw.
  - cbn [connected emu_manager at_host with_manager manager]. rewrite S2. apply C. exact Hcw.
  - by destruct msgs.
  - by rewrite length_fmap.
  - cbn [pending emu_laws net at_host with_manager manager]. unfold due_part. rewrite T2, S2, Q.
    rewrite filter_cons_True, filter_nil; [done|]. right. cbn [recvtime]. lia.
  - destruct Adv as [_ _ _ _ _ _ (ms' & Ar & F)]. exists w', k, ms'. by splits.
Qed.

(** *** Examples *)

(** Two hosts, created and started in an empty emulation, that keep their preliminary ids; the
    first one has connected to the other. *)
Definition meet : outcome emulation :=
  let '(e, p) := Emu_new (mkEmu None 0 []) 10 0 false in
  let '(e, q) := Emu_new e 10 0 false in
  e ← Emu_start e p;
  e ← Emu_start e q;
  let keep_id := λ n, nm_setID n (host_id (getAddress n)) in
  let e := net (keep_id (mkEN e p)) in
  let e := net (keep_id (mkEN e q)) in
  '(e, _) ← Emu_connect e p (host_id (getAddress (mkEN e q)));
  Ok e.

Definition two_hosts : emulation := Eval compute in or_default (mkEmu None 0 []) meet.
Definition emuA : Z := 9151314447179776001.
Definition emuB : Z := 9151314447179841537.

Lemma two_hosts_meet : meet = Ok two_hosts
  ∧ connected (mkEN two_hosts 0) emuB = true ∧ connected (mkEN two_hosts 1) emuA = true.
Proof. splits; vm_compute; reflexivity. Qed.

Lemma two_hosts_ready i : (i < 2)%nat → emu_ready (mkEN two_hosts i).
Proof.
  intros Hi. split; [split|].
  - eexists. split; [reflexivity|]. split; [discriminate|]. split; [split; [discriminate|reflexivity]|].
    intros id p. unfold getNetworkInterface. cbn [id2ptr find].
    destruct (id =? _); [intros [= <-]; by eexists|].
    destruct (id =? _); [intros [= <-]; by eexists|done].
  - intros p h. destruct p as [|[|p]]; intros [= <-]; split; repeat constructor.
  - destruct i as [|[|i]]; [reflexivity..|lia].
Qed.

Definition emu_hostA : VASTnet emu_node := VN_new (mkEN two_hosts 0).
Definition emu_hostB : VASTnet emu_node := VN_new (mkEN two_hosts 1).

Lemma emulated_messages_cross_witness :
  ∃ v1 v2 total w' k, send_all 5 emu_hostA emuB true [msg_bang] = Ok v1 ∧ flush v1 5 10 = Ok (v2, total)
  ∧ process 3 9 0 (at_host emu_hostB (ticks 2 (net (manager v2))) 1) = Ok (w', k)
  ∧ length (full_queue (inq w')) = 1%nat.
Proof.
  destruct (emulated_messages_cross 5 10 emu_hostA emu_hostB emuB true [msg_bang] 0 1 two_hosts
    (default (emubridge_new 1) (g_bridge two_hosts)) 9 0 3)
    as (v1 & v2 & total & E1 & E2 & _ & w' & k & ms' & E3 & A & Q & _);
    [reflexivity|reflexivity|apply two_hosts_ready; lia|reflexivity|reflexivity|discriminate|reflexivity
    |reflexivity|apply new_bufs_ok|intros []; reflexivity|reflexivity|discriminate|discriminate
    |discriminate| |reflexivity|reflexivity|reflexivity|discriminate|constructor|reflexivity
    |apply Nat.ltb_lt; reflexivity|].
  - apply Forall_cons_2; [exact msg_bang_ok|apply Forall_nil_2].
  - exists v1, v2, total, w', k. split; [exact E1|]. split; [exact E2|]. split; [exact E3|].
    rewrite Q. apply Forall2_length in A. destruct ms' as [|m [|m' ms']]; [discriminate A| |discriminate A].
    reflexivity.
Defined.

(** *** Where the emulation is not like a network *)

Definition plain_msg (ty : Z) : Message := mkMsg emuA 1 ty 2 0 1 [Byte.x21] [7] 0 1 true.

(** Host B with two byte strings of host A that are due: two messages, and one. *)
Definition emu_waiting : VASTnet emu_node :=
  let chunk l := mkNSM emuA 1 (Some (concat (framed REGULAR <$> (plain_msg <$> l)))) in
  let n := mkEN (ticks 4 two_hosts) 1 in
  with_manager emu_hostB
    (with_self n (eh_with (self n) (with_queue (emu_base (self n)) [chunk [21; 22]; chunk [23]] None))).

(** [process] puts the remainder of a byte string back in front, but [net_emu::msg_received]
    ignores [in_front]: the second message of a string comes after a later string. *)
Lemma emulation_reorders :
  ∃ w' k, process 9 9 0 emu_waiting = Ok (w', k)
  ∧ (λ p, msgtype (fm_msg (snd p))) <$> full_queue (inq w') = [21; 23; 22].
Proof.
  pose (r := process 9 9 0 emu_waiting).
  assert (E : ((λ x, (λ p, msgtype (fm_msg (snd p))) <$> full_queue (inq (fst x))) <$> r)
              = Ok [21; 23; 22]) by (vm_compute; reflexivity).
  fold r. destruct r as [[w' k]|]; [|discriminate E]. injection E as E. by exists w', k.
Qed.

(** What stays of host [i] when the connections are closed. *)
Definition stays (i : nat) (e e' : emulation) : Prop :=
  g_bridge e' = g_bridge e
  ∧ ∀ h, deref e i = Ok h → ∃ h', deref e' i = Ok h' ∧ self_addr (emu_base h') = self_addr (emu_base h).

Lemma stays_trans i e1 e2 e3 : stays i e1 e2 → stays i e2 e3 → stays i e1 e3.
Proof.
  intros [G1 S1] [G2 S2]. split; [congruence|]. intros h E. destruct (S1 h E) as (h' & E' & A).
  destruct (S2 h' E') as (h2 & E2 & A2). exists h2. split; [done|congruence].
Qed.

Lemma deref_put e p q h h' : deref e p = Ok h →
  deref (put e p h') q = if decide (q = p) then Ok h' else deref e q.
Proof.
  intros E. apply deref_some in E. unfold deref. cbn [put emus].
  destruct (decide (q = p)) as [->|]; [|by rewrite list_lookup_insert_ne].
  rewrite list_lookup_insert_eq; [done|]. by apply lookup_lt_Some in E.
Qed.

Lemma deref_put_same e p h h' : deref e p = Ok h → deref (put e p h') p = Ok h'.
Proof. intros E. rewrite (deref_put e p p h h' E). by rewrite decide_True. Qed.

Lemma put_stays i e p h h' : deref e p = Ok h →
  self_addr (emu_base h') = self_addr (emu_base h) → stays i e (put e p h').
Proof.
  intros E A. split; [done|]. intros h0 E0. rewrite (deref_put e p i h h' E).
  destruct (decide (i = p)) as [->|]; [|by eexists]. rewrite E in E0. injection E0 as <-. by eexists.
Qed.

Lemma socket_disconnected_addr now h id :
  self_addr (emu_base (fst (Emu_socket_disconnected now h id))) = self_addr (emu_base h).
Proof.
  unfold Emu_socket_disconnected. destruct (negb _); [done|]. cbn [fst].
  match goal with |- context [Emu_msg_received _ ?h0 _ _ _] =>
    destruct (emu_received_ok now h0 id None 0) as (_ & _ & _ & S & _) end. exact S.
Qed.

Lemma disconnect_stays e i id e' ok : Emu_disconnect e i id = Ok (e', ok) → stays i e e'.
Proof.
  unfold Emu_disconnect. intros (h & E & X)%bind_inv.
  assert (Hs : stays i e e) by (split; [done|]; intros h0 E0; by exists h0).
  destruct (negb _); [by injection X as <- _|]. apply bind_inv in X as (b & _ & X).
  destruct (getNetworkInterface b id) as [p|]; [|by injection X as <- _]. cbv zeta in X.
  apply bind_inv in X as (r & Er & X). injection X as <- _. eapply stays_trans.
  - eapply (put_stays i e i h); [exact E|]. apply socket_disconnected_addr.
  - eapply (put_stays i _ p r); [exact Er|]. apply socket_disconnected_addr.
Qed.

Lemma disconnect_all_stays l e i e' : Emu_disconnect_all e i l = Ok e' → stays i e e'.
Proof.
  revert e. induction l as [|id l IH]; intros e; cbn [Emu_disconnect_all].
  - intros [= <-]. split; [done|]. intros h E. by exists h.
  - intros ([e1 ok] & E & X)%bind_inv. eapply stays_trans; [by eapply disconnect_stays|by apply IH].
Qed.

(** A host that is stopped and started again ([VASTVerse::pauseNetwork] and [resumeNetwork]) is
    active, but the bridge does not know it any more, so that no host can connect to it. *)
Lemma stopped_host_lost e i b e1 e2 : g_bridge e = Some b → ordered (id2ptr b) →
  Emu_stop e i = Ok e1 → Emu_start e1 i = Ok e2 →
  isActive (mkEN e2 i) = true
  ∧ ∃ b2, g_bridge e2 = Some b2 ∧ getNetworkInterface b2 (host_id (getAddress (mkEN e2 i))) = None.
Proof.
  intros Eb Ho. unfold Emu_stop, Emu_start. intros (h & Eh & X)%bind_inv (h1 & E1 & Y)%bind_inv.
  apply bind_inv in X as (e0 & E0 & X).
  assert (S : stays i e e0).
  { destruct (negb _).
    - injection E0 as <-. split; [done|]. intros h0 E0. by exists h0.
    - apply bind_inv in E0 as (e3 & E3 & E0). apply bind_inv in E0 as (h3 & Eh3 & E0). injection E0 as <-.
      eapply stays_trans; [by eapply disconnect_all_stays|]. by apply (put_stays i e3 i h3). }
  destruct S as [G S]. destruct (S h Eh) as (h0 & Eh0 & A0). clear S.
  apply bind_inv in X as (b0 & Eb0 & X). rewrite Eh0, bind_ok in X. injection X as <-.
  unfold the_bridge in Eb0. rewrite G, Eb in Eb0. injection Eb0 as <-. injection Y as <-.
  erewrite deref_put_same in E1; [|exact Eh0]. injection E1 as <-.
  cbn [isActive getAddress emu_manager]. unfold self. cbn [net me].
  erewrite deref_put_same; [|eapply deref_put_same; exact Eh0]. cbn [eh_with emu_base nm_start nm_active self_addr]. split; [done|].
  eexists. split; [reflexivity|]. unfold releaseHostID, getNetworkInterface.
  destruct (has _ (id2ptr b)) eqn:Eh'; cbn [id2ptr]; [by rewrite find_erase_eq|].
  unfold has in Eh'. by destruct (find _ (id2ptr b)).
Qed.
