(* ===== verification/MessageQueue.v ===== *)
(** The message queue of a node: VASTnet/MessageQueue.cpp, common/MessageQueue.h and
    common/MessageHandler.h. It routes outgoing messages from logical targets to hosts, and
    hands incoming messages to the handler of their group.

    Handlers are behind an interface ([MessageHandler]). A handler may send through the
    queue it is registered with, so that the queue (without its handlers) is passed to its
    operations and returned; it may also read the other handlers, which are passed as they
    are. Handlers are registered and removed between ticks only (VAST/VASTVerse.cpp). *)

From S2P Require Import Prelude Bytes StdMap Float Serial Message VastBuffer NetManager.
From S2P Require Import NetInterface VastNet.
Local Open Scope Z_scope.

(** *** The queue without its handlers *)

(** [prevDefaultHostMsg] and [defaultHostCounter] are function-local [static] variables
    of [sendMessage]. [_IDcounters] is never used. *)
Record mqueue (N : Type) := mkQ {
  net : VASTnet N;
  id2host : list (Z * Z);
  default_host : Z;
  prevDefaultHostMsg : Message;
  defaultHostCounter : Z }.
Arguments mkQ {N}. Arguments net {N}. Arguments id2host {N}. Arguments default_host {N}.
Arguments prevDefaultHostMsg {N}. Arguments defaultHostCounter {N}.

(** [strncmp (a, b, n) == 0] on [n] readable bytes: bytes behind a common NUL do not
    count. *)
Fixpoint strncmp_eq (a b : list byte) : bool :=
  match a, b with
  | x :: a, y :: b =>
      if byte_to_Z x =? byte_to_Z y
      then if byte_to_Z x =? 0 then true else strncmp_eq a b else false
  | _, _ => true
  end.

(** [operator==] of [Message]; both sides have the same size when the bytes matter. *)
Definition Message_eqb (a b : Message) : bool :=
  (from a =? from b) && (msize a =? msize b)%nat && (msgtype a =? msgtype b)
  && (msggroup a =? msggroup b) && (reliable a =? reliable b) && (priority a =? priority b)
  && Bool.eqb (malloc a) (malloc b) && (mfree a =? mfree b)%nat
  && strncmp_eq (take (msize a) (mdata a)) (take (msize b) (mdata b))
  && bool_decide (targets a = targets b).

Definition set_type (m : Message) (t : Z) : Message :=
  mkMsg (from m) (msize m) t (msggroup m) (priority m) (reliable m) (mdata m)
        (targets m) (mfree m) (mcurr m) (malloc m).
Definition set_group (m : Message) (g : Z) : Message :=
  mkMsg (from m) (msize m) (msgtype m) g (priority m) (reliable m) (mdata m)
        (targets m) (mfree m) (mcurr m) (malloc m).

Section queue.
Context {N : Type} `{NetManager N}.
Implicit Types q : mqueue N.

Definition with_net q (v : VASTnet N) : mqueue N := mkQ v (id2host q) (default_host q) (prevDefaultHostMsg q)
  (defaultHostCounter q).
Definition with_map q m := mkQ (net q) m (default_host q) (prevDefaultHostMsg q)
  (defaultHostCounter q).
Definition with_retry q m c := mkQ (net q) (id2host q) (default_host q) m c.

(** The constructor starts the network. *)
Definition MQ_new (v : VASTnet N) (now : Z) : outcome (mqueue N) :=
  v ← VN_start v now;
  Ok (mkQ v [] NET_ID_UNASSIGNED (Message_new 0 0) 0).

Definition setDefaultHost q (h : Z) : mqueue N :=
  mkQ (net q) (id2host q) h (prevDefaultHostMsg q) (defaultHostCounter q).

(** [notifyMapping (nodeID, addr)] *)
Definition notifyMapping q (nodeID : Z) (addr : Addr) : mqueue N :=
  with_map (with_net q (storeMapping (net q) addr)) (set nodeID (host_id addr) (id2host q)).

Definition MQ_getAddress q (id : Z) : Addr :=
  if (id =? nm_getID (manager (net q))) || (id =? NET_ID_UNASSIGNED)
  then getAddress (manager (net q))
  else match find id (id2host q) with
       | None => Addr_null
       | Some h => VN_getAddress (net q) h
       end.

(** The host of a target; [None] when the message is to be discarded after too many
    attempts by the default route. *)
Definition resolve_target q (msg : Message) (target : Z) : outcome (mqueue N * option Z) :=
  match find target (id2host q) with
  | Some h => Ok (q, Some h)
  | None =>
      other ← Message_copy msg;
      let c := if Message_eqb (prevDefaultHostMsg q) other
               then u64 (defaultHostCounter q + 1) else defaultHostCounter q in
      prev ← Message_assign msg;
      if 10 <=? c then Ok (with_retry q prev 0, None)
      else Ok (with_retry q prev c, Some (default_host q))
  end.

Definition add_target (h t : Z) (m : list (Z * list Z)) : list (Z * list Z) :=
  set h (default [] (find h m) ++ [t]) m.

(** The loop of [sendMessage] over the targets: the targets of each host, the targets
    that failed so far, the number of those that did not; [None] when it is left by the
    [return 0]. The connection is validated twice per target. *)
Fixpoint split_targets (now : Z) q (msg : Message) (ts : list Z)
    (hosts : list (Z * list Z)) (failed : list Z) (num : Z)
    : outcome (mqueue N * list Z * option (list (Z * list Z) * Z)) :=
  match ts with
  | [] => Ok (q, failed, Some (hosts, num))
  | t :: ts =>
      '(q, h) ← resolve_target q msg t;
      match h with
      | None => Ok (q, failed, None)
      | Some h =>
          '(v, ok) ← validateConnection (net q) now h;
          '(v, _) ← validateConnection v now h;
          let q := with_net q v in
          if ok : bool then split_targets now q msg ts (add_target h t hosts) failed (num + 1)
          else split_targets now q msg ts hosts (failed ++ [t]) num
      end
  end.

(** The loop over the hosts. *)
Fixpoint send_hosts (now : Z) q (msg : Message) (hosts : list (Z * list Z))
    : outcome (mqueue N * Message) :=
  match hosts with
  | [] => Ok (q, msg)
  | (h, ts) :: hosts =>
      let msg := with_targets msg ts in
      '(v, msg, _) ← VastNet.sendMessage now (net q) h msg (negb (reliable msg =? 0)) REGULAR;
      send_hosts now (with_net q v) msg hosts
  end.

(** [sendMessage (msg, failed_targets)]: the queue, the message (whose targets and sender
    are changed), the failed targets and the value returned. *)
Definition MQ_sendMessage (now : Z) q (msg : Message)
    : outcome (mqueue N * Message * list Z * Z) :=
  '(q, failed, r) ← split_targets now q msg (targets msg) [] [] 0;
  match r with
  | None => Ok (q, msg, failed, 0)
  | Some (hosts, num) =>
      '(q, msg) ← send_hosts now q msg hosts;
      Ok (q, msg, failed, num)
  end.

(** [MessageHandler::sendMessage]: a message of group 0 gets the handler's group. *)
Definition handler_sendMessage (now : Z) q (group : Z) (msg : Message)
    : outcome (mqueue N * Message * list Z * Z) :=
  match targets msg with
  | [] => Ok (q, msg, [], 0)
  | _ => MQ_sendMessage now q (if msggroup msg =? 0 then set_group msg group else msg)
  end.
End queue.

(** *** Handlers *)

(** [E] is what a handler sees of the others. *)
Class MessageHandler (N H : Type) := {
  initHandler : mqueue N → H → mqueue N * H;
  (* now, ms, the handlers, the queue, the handler, the message *)
  handleMessage : Z → Z → list (Z * H) → mqueue N → H → Message
                  → outcome (mqueue N * H * Message * bool);
  postHandling : Z → Z → list (Z * H) → mqueue N → H → outcome (mqueue N * H);
}.

(** A node: the queue with its handlers, by group. *)
Record MessageQueue (N H : Type) := mkMQ { queue : mqueue N; handlers : list (Z * H) }.
Arguments mkMQ {N H}. Arguments queue {N H}. Arguments handlers {N H}.

Section node.
Context {N H : Type} `{NetManager N} `{MessageHandler N H}.
Implicit Types s : MessageQueue N H.

Definition with_queue s q : MessageQueue N H := mkMQ q (handlers s).

(** [registerHandler (handler)], [g] the handler's group *)
Definition registerHandler s (g : Z) (h : H) : MessageQueue N H * bool :=
  if has g (handlers s) then (s, false)
  else let '(q, h) := initHandler (queue s) h in (mkMQ q (set g h (handlers s)), true).

(** [unregisterHandler (handler)], for the handler of group [g] *)
Definition unregisterHandler s (g : Z) : MessageQueue N H * bool :=
  if has g (handlers s) then (mkMQ (queue s) (erase g (handlers s)), true) else (s, false).

(** [handler->handleMessage (msg)] for the handler of group [g] *)
Definition call_handler (now ms : Z) s (g : Z) (msg : Message)
    : outcome (MessageQueue N H * Message * bool) :=
  match find g (handlers s) with
  | None => Ok (s, msg, false)
  | Some h =>
      '(q, h, msg, ok) ← handleMessage now ms (handlers s) (queue s) h msg;
      Ok (mkMQ q (set g h (handlers s)), msg, ok)
  end.

(** [DISCONNECT] goes to every handler, its type restored each time. *)
Fixpoint call_all (now ms : Z) s (gs : list Z) (msg : Message)
    : outcome (MessageQueue N H * Message) :=
  match gs with
  | [] => Ok (s, msg)
  | g :: gs =>
      '(s, msg, _) ← call_handler now ms s g (set_type msg DISCONNECT);
      call_all now ms s gs msg
  end.

(** The sender's host is recorded, unless the message was forwarded or the host is this
    one. *)
Definition learn (q : mqueue N) (fromhost : Z) (msg : Message) : mqueue N :=
  if negb (fromhost =? nm_getID (manager (net q))) && negb (has (from msg) (id2host q))
     && (from msg =? fromhost)
  then with_map q (set (from msg) fromhost (id2host q)) else q.

(** Targets handled here: this host, unknown ones and those mapped to this host *)
Definition is_local (q : mqueue N) (target : Z) : bool :=
  let me := nm_getID (manager (net q)) in
  (target =? me) || match find target (id2host q) with None => true | Some h => h =? me end.

(** The body of the loop of [processMessages]: the number added to the result *)
Definition process_message (now ms : Z) s (msg : Message) (fromhost : Z)
    : outcome (MessageQueue N H * Z) :=
  if msgtype msg =? DISCONNECT then
    '(s, _) ← call_all now ms s (fst <$> handlers s) (set_from msg fromhost);
    Ok (s, 0)
  else if negb (from msg =? NET_ID_UNASSIGNED) then
    let s := with_queue s (learn (queue s) fromhost msg) in
    match filter (λ t, is_local (queue s) t = true) (targets msg) with
    | [] => Ok (s, 0)
    | local =>
        let msg := with_targets msg local in
        if negb (has (msggroup msg) (handlers s)) then Ok (s, 0) else
        '(s, _, ok) ← call_handler now ms s (msggroup msg) msg;
        Ok (s, if ok : bool then 1 else 0)
    end
  else Ok (s, 0).

(** [processMessages ()]: [time] is the number of messages after which the [TimeMonitor]
    has no time left. *)
Fixpoint processMessages (time : nat) (now ms : Z) s : outcome (MessageQueue N H * Z) :=
  let '(v, r) := receiveMessage (net (queue s)) (0 <? time)%nat in
  let s := with_queue s (with_net (queue s) v) in
  match r, time with
  | Some (msg, fromhost), S time =>
      '(s, k) ← process_message now ms s msg fromhost;
      '(s, k') ← processMessages time now ms s;
      Ok (s, k + k')
  | _, _ => Ok (s, 0)
  end.

Fixpoint post_all (now ms : Z) s (gs : list Z) : outcome (MessageQueue N H) :=
  match gs with
  | [] => Ok s
  | g :: gs =>
      s ← match find g (handlers s) with
          | None => Ok s
          | Some h =>
              '(q, h) ← postHandling now ms (handlers s) (queue s) h;
              Ok (mkMQ q (set g h (handlers s)))
          end;
      post_all now ms s gs
  end.

(** [tick ()] *)
Definition MQ_tick (fuel time1 time2 : nat) (now ms junk : Z) s : outcome (MessageQueue N H) :=
  '(v, _) ← process fuel now junk (net (queue s));
  '(s, _) ← processMessages time1 now ms (with_queue s (with_net (queue s) v));
  s ← post_all now ms s (fst <$> handlers s);
  '(v, _) ← flush (net (queue s)) now ms;
  '(s, _) ← processMessages time2 now ms (with_queue s (with_net (queue s) v));
  Ok s.
End node.
