(* ===== verification/Routing.v ===== *)
(** Routing: where [MessageQueue::sendMessage] sends a message with several targets, and
    what its default route does. *)

From S2P Require Import Prelude Bytes StdMap Float Serial Message NetManager VastBuffer.
From S2P Require Import NetInterface VastNet VastSend VastReceive MessageQueue.
Local Open Scope Z_scope.

Section routing.
Context {N : Type} `{NetManagerLaws N}.
Implicit Types (v : VASTnet N) (q : mqueue N).

(** *** Connections that are settled: no attempt to connect is made *)

Definition up v (h : Z) : bool := (nm_getID (manager v) =? h) || connected (manager v) h.

Definition host_of q (t : Z) : Z := default NET_ID_UNASSIGNED (find t (id2host q)).

(** The target has a known host, and that is this host, or connected, or of unknown
    address. *)
Definition settled q (t : Z) : Prop :=
  has t (id2host q) = true
  ∧ (up (net q) (host_of q t) = true ∨ find (host_of q t) (id2addr (net q)) = None).

Definition reached q (t : Z) : bool := up (net q) (host_of q t).

Lemma validate_settled v now h : up v h = true ∨ find h (id2addr v) = None →
  validateConnection v now h = Ok (v, up v h).
Proof.
  intros Hh. unfold validateConnection, validateConnection_with. fold (up v h).
  destruct (up v h); [done|]. by destruct Hh as [| ->].
Qed.

Lemma resolve_settled q msg t : settled q t → resolve_target q msg t = Ok (q, Some (host_of q t)).
Proof.
  intros [Hh _]. unfold resolve_target, host_of, has in *. by destruct (find t (id2host q)).
Qed.

Lemma with_net_same q : with_net q (net q) = q.
Proof. by destruct q. Qed.

(** *** The targets of each host *)

Definition group q (m : list (Z * list Z)) (t : Z) := add_target (host_of q t) t m.

Lemma split_settled now q msg ts hosts failed num : Forall (settled q) ts →
  split_targets now q msg ts hosts failed num
  = Ok (q, failed ++ filter (λ t, reached q t = false) ts,
        Some (foldl (group q) hosts (filter (λ t, reached q t = true) ts),
              num + Z.of_nat (length (filter (λ t, reached q t = true) ts)))).
Proof.
  intros Hts. revert hosts failed num. induction Hts as [|t ts Ht _ IH]; intros hosts failed num.
  { cbn. by rewrite app_nil_r, Z.add_0_r. }
  cbn [split_targets]. rewrite resolve_settled, bind_ok by done. cbn beta iota.
  rewrite validate_settled, bind_ok by apply Ht. cbn beta iota.
  rewrite validate_settled, bind_ok by apply Ht. cbn beta iota zeta.
  rewrite with_net_same, !filter_cons. fold (reached q t).
  destruct (reached q t) eqn:E.
  - rewrite IH, decide_False, decide_True by done. cbn [foldl]. rewrite length_cons.
    by rewrite <- Z.add_assoc, (Nat2Z.inj_succ (length _)), <- Z.add_1_l.
  - rewrite IH, decide_True, decide_False by done. by rewrite <- app_assoc.
Qed.

Lemma find_groups q ts hosts h :
  default [] (find h (foldl (group q) hosts ts))
  = default [] (find h hosts) ++ filter (λ t, host_of q t = h) ts.
Proof.
  revert hosts. induction ts as [|t ts IH]; intros hosts; cbn [foldl].
  { by rewrite app_nil_r. }
  rewrite IH, filter_cons. unfold group, add_target. rewrite find_set.
  destruct (Z.eqb_spec h (host_of q t)) as [->|Hne].
  - rewrite decide_True by done. cbn [from_option]. unfold id. by rewrite <- app_assoc.
  - by rewrite decide_False by congruence.
Qed.

(** Every group has a target, and its host satisfies what the hosts of the targets do. *)
Lemma groups_ok (P : Z → Prop) q ts hosts :
  ordered hosts → Forall (λ p, snd p ≠ [] ∧ P (fst p)) hosts →
  Forall (λ t, P (host_of q t)) ts →
  ordered (foldl (group q) hosts ts)
  ∧ Forall (λ p, snd p ≠ [] ∧ P (fst p)) (foldl (group q) hosts ts).
Proof.
  intros Ho Hh Hts. revert hosts Ho Hh. induction Hts as [|t ts Ht _ IH]; intros hosts Ho Hh; [done|].
  apply IH; [by apply ordered_set|]. unfold group, add_target. apply Forall_set; [|done].
  split; [|done]. cbn. by destruct (default [] _).
Qed.

(** *** One message per host *)

(** [v'] is [v] but for the messages received. *)
Definition kept_sending v v' : Prop := kept (with_inq v (inq v')) v'.

Lemma filled_targets v m ts :
  filled v (with_targets (filled v m) ts) = filled v (with_targets m ts).
Proof.
  unfold filled. destruct (Z.eqb_spec (from m) 0) as [E|E]; [|done].
  cbn [with_targets set_from from]. rewrite E. by destruct (_ =? 0).
Qed.

Lemma with_targets_inv m ts : Message_inv m → Message_inv (with_targets m ts).
Proof. done. Qed.

(** A message to this host is put into its own queue. *)
Lemma send_self now v m r ty :
  isActive (manager v) = true → nm_getID (manager v) ≠ NET_ID_UNASSIGNED → Message_inv m →
  ∃ m', arrived m' (filled v m) ∧ VastNet.sendMessage now v (nm_getID (manager v)) m r ty
  = Ok (with_inq v (set_full (inq v)
          (insert_msg now (nm_getID (manager v)) (full_queue (inq v)) m') (in_recvmsg (inq v))),
        filled v m, Z.of_nat (msize (filled v m))).
Proof.
  intros Ha Hid Hm. unfold VastNet.sendMessage, SEND_DEPTH. rewrite sendMessage_S.
  unfold sendMessage_with. rewrite Ha. cbn [negb]. fold (filled v m). rewrite Z.eqb_refl.
  destruct (Message_copy_ok (filled v m) (filled_inv v m Hm)) as (m' & -> & C & P).
  rewrite bind_ok. cbn beta iota. rewrite store_active by done. cbn beta iota.
  exists (reset m'). split; [|done].
  pose proof (copy_contentEquals m' (filled v m) (filled_inv v m Hm) C) as E.
  unfold arrived. split; [exact E|]. split; [|done].
  destruct C as (_ & _ & _ & _ & I). destruct I. split; [done|cbn; lia].
Qed.

(** What is sent to host [h] out of [hosts]. *)
Definition sent_to v (msg : Message) (r : bool) (hosts : list (Z * list Z)) (r' : bool) (h : Z)
    : list byte :=
  match find h hosts with
  | Some ts => if Bool.eqb r' r && negb (h =? nm_getID (manager v))
               then framed REGULAR (filled v (with_targets msg ts)) else []
  | None => []
  end.

(** The message to this host itself, if any. *)
Definition self_sent (now : Z) v v' (msg : Message) (hosts : list (Z * list Z)) : Prop :=
  match find (nm_getID (manager v)) hosts with
  | Some ts => ∃ m', arrived m' (filled v (with_targets msg ts))
      ∧ inq v' = set_full (inq v)
          (insert_msg now (nm_getID (manager v)) (full_queue (inq v)) m') (in_recvmsg (inq v))
  | None => inq v' = inq v
  end.

Definition rel (m : Message) : bool := negb (reliable m =? 0).

Record sent_all (now : Z) v v' (msg : Message) (hosts : list (Z * list Z)) : Prop := mk_sent_all {
  sa_bufs : bufs_ok v';
  sa_manager : manager v' = manager v;
  sa_kept : kept_sending v v';
  sa_queues : ∀ r h, outq v' r h = outq v r h ++ sent_to v msg (rel msg) hosts r h;
  sa_self : self_sent now v v' msg hosts }.

(** The state after the first host, seen from the hosts that follow. *)
Lemma sent_to_step v v1 msg r h ts hosts r' h' :
  ordered ((h, ts) :: hosts) → manager v1 = manager v →
  sent_to v msg r ((h, ts) :: hosts) r' h'
  = (if Bool.eqb r' r && negb (h =? nm_getID (manager v)) && (h' =? h)
     then framed REGULAR (filled v (with_targets msg ts)) else [])
    ++ sent_to v1 (filled v (with_targets msg ts)) r hosts r' h'.
Proof.
  intros Ho Hm. apply ordered_inv in Ho as [_ Hlt]. unfold sent_to. cbn [find].
  destruct (Z.eqb_spec h' h) as [->|Hne].
  - rewrite (find_key_lt (h, ts) h hosts Hlt) by (cbn; lia). rewrite andb_true_r.
    by rewrite app_nil_r.
  - rewrite andb_false_r, app_nil_l. destruct (find h' hosts) as [ts'|]; [|done].
    rewrite Hm. assert (Ef : filled v1 (with_targets (filled v (with_targets msg ts)) ts')
                             = filled v (with_targets msg ts')).
    { unfold filled at 1. rewrite Hm. fold (filled v (with_targets (filled v (with_targets msg ts)) ts')).
      rewrite filled_targets. reflexivity. }
    by rewrite Ef.
Qed.

Lemma kept_sending_trans v1 v2 v3 : kept_sending v1 v2 → kept_sending v2 v3 → kept_sending v1 v3.
Proof. intros [] []. split; cbn in *; congruence. Qed.

(** One host that is up. *)
Lemma send_one now v h m r :
  isActive (manager v) = true → nm_getID (manager v) ≠ NET_ID_UNASSIGNED →
  bufs_ok v → Message_inv m → up v h = true →
  ∃ v1 k, VastNet.sendMessage now v h m r REGULAR = Ok (v1, filled v m, k)
  ∧ bufs_ok v1 ∧ manager v1 = manager v ∧ kept_sending v v1
  ∧ (∀ r' h', outq v1 r' h' = outq v r' h' ++
       if Bool.eqb r' r && negb (h =? nm_getID (manager v)) && (h' =? h)
       then framed REGULAR (filled v m) else [])
  ∧ if h =? nm_getID (manager v)
    then ∃ m', arrived m' (filled v m) ∧ inq v1 = set_full (inq v)
           (insert_msg now (nm_getID (manager v)) (full_queue (inq v)) m') (in_recvmsg (inq v))
    else inq v1 = inq v.
Proof.
  intros Ha Hid Hb Hm Hu. destruct (Z.eqb_spec h (nm_getID (manager v))) as [->|Hne].
  - destruct (send_self now v m r REGULAR Ha Hid Hm) as (m' & A & E).
    eexists _, _. split; [exact E|]. splits; try done; [|by exists m'].
    intros r' h'. cbn [negb]. rewrite andb_false_r. cbn [andb]. by rewrite app_nil_r.
  - unfold up in Hu. apply orb_true_iff in Hu as [Hu|Hu]; [apply Z.eqb_eq in Hu; congruence|].
    destruct (send_connected 1 now v h m r REGULAR Ha Hne Hu Hb Hm) as (v1 & E & B & M & K & Q).
    exists v1. eexists. split; [exact E|]. splits; try done.
    + unfold kept_sending. rewrite (kept_inq _ _ K). destruct K. by split.
    + intros r' h'. rewrite Q. cbn [negb]. rewrite andb_true_r.
      destruct (Bool.eqb r' r && (h' =? h)); [done|by rewrite app_nil_r].
    + by apply kept_inq.
Qed.

Lemma filled_rel v m : rel (filled v m) = rel m.
Proof. unfold filled. by destruct (from m =? 0). Qed.

Lemma send_hosts_ok now q msg hosts :
  isActive (manager (net q)) = true → nm_getID (manager (net q)) ≠ NET_ID_UNASSIGNED →
  bufs_ok (net q) → Message_inv msg → ordered hosts →
  Forall (λ p, up (net q) (fst p) = true) hosts →
  ∃ v' msg', send_hosts now q msg hosts = Ok (with_net q v', msg')
  ∧ sent_all now (net q) v' msg hosts.
Proof.
  revert q msg. induction hosts as [|[h ts] hosts IH]; intros q msg Ha Hid Hb Hm Ho Hup.
  { exists (net q), msg. rewrite with_net_same. split; [done|].
    split; try done. intros r h. by rewrite app_nil_r. }
  cbn [send_hosts]. apply Forall_cons in Hup as [Hh Hup]. cbn [fst] in Hh.
  pose proof (ordered_inv _ _ Ho) as [Ho' Hlt]. set (m1 := with_targets msg ts).
  destruct (send_one now (net q) h m1 (rel msg) Ha Hid Hb Hm Hh)
    as (v1 & k & E & B1 & M1 & K1 & Q1 & S1).
  change (negb (reliable m1 =? 0)) with (rel msg). cbv zeta. rewrite E, bind_ok. cbn beta iota.
  set (m2 := filled (net q) m1) in *.
  destruct (IH (with_net q v1) m2) as (v' & msg' & E' & [B' M' K' Q' S']); cbn [net with_net] in *;
    try (rewrite M1; assumption); try done.
  { by apply filled_inv. }
  { eapply Forall_impl; [exact Hup|]. intros p. unfold up. by rewrite M1. }
  exists v', msg'. split; [exact E'|]. split; [done|congruence|by eapply kept_sending_trans| |].
  - intros r' h'. rewrite Q', Q1, (sent_to_step (net q) v1) by done.
    unfold m2. rewrite filled_rel. by rewrite <- app_assoc.
  - unfold self_sent in *. cbn [find]. rewrite M1 in S'. rewrite (Z.eqb_sym _ h).
    destruct (Z.eqb_spec h (nm_getID (manager (net q)))) as [Eh|Hne].
    + rewrite <- Eh, (find_key_lt (h, ts) h hosts Hlt) in S' by (cbn; lia).
      rewrite S'. rewrite <- Eh in S1 |- *. exact S1.
    + rewrite S1 in S'. destruct (find _ hosts) as [ts'|]; [|done].
      destruct S' as (m' & A & Ei). exists m'. split; [|exact Ei].
      unfold m2, filled in A |- *. rewrite M1 in A. fold (filled (net q) m1) in A.
      revert A. unfold m1, filled. cbn [with_targets from set_from].
      destruct (Z.eqb_spec (from msg) 0) as [E0|E0]; cbn [with_targets from set_from];
        [|destruct (Z.eqb_spec (from msg) 0); [done|tauto]].
      by destruct (_ =? 0).
Qed.

(** The targets of [msg] that host [h] is sent. *)
Definition targets_at q (msg : Message) (h : Z) : list Z :=
  filter (λ t, host_of q t = h) (filter (λ t, reached q t = true) (targets msg)).

Lemma groups_at q msg h :
  let G := foldl (group q) [] (filter (λ t, reached q t = true) (targets msg)) in
  ordered G ∧ Forall (λ p, up (net q) (fst p) = true) G
  ∧ find h G = match targets_at q msg h with [] => None | ts => Some ts end.
Proof.
  cbv zeta. set (G := foldl _ _ _).
  destruct (groups_ok (λ h, up (net q) h = true) q (filter (λ t, reached q t = true) (targets msg)) [])
    as [Ho Hf]; [apply ordered_nil|constructor| |].
  { apply Forall_forall. intros t Ht. by apply list_elem_of_filter in Ht as [Ht _]. }
  fold G in Ho, Hf. splits; [done|eapply Forall_impl; [exact Hf|]; by intros p [_ Hp]|].
  pose proof (find_groups q (filter (λ t, reached q t = true) (targets msg)) [] h) as E.
  fold G in E. cbn [find from_option app] in E. unfold id in E. fold (targets_at q msg h) in E.
  rewrite <- E. destruct (find h G) as [ts|] eqn:Ef; [|done].
  apply find_In in Ef. rewrite Forall_forall in Hf. destruct (Hf _ Ef) as [Hne _].
  cbn in Hne. by destruct ts.
Qed.

(** A host that can send *)
Record sendable q : Prop := mk_sendable {
  sd_active : isActive (manager (net q)) = true;
  sd_id : nm_getID (manager (net q)) ≠ NET_ID_UNASSIGNED;
  sd_bufs : bufs_ok (net q) }.

(** The copy of [msg] for the host [h] *)
Definition copy_for q (msg : Message) (h : Z) : Message := filled (net q) (with_targets msg (targets_at q msg h)).

(** What is queued for host [h] when [msg] is sent, and what this host keeps of it for itself *)
Definition sent_for q (r : bool) (h : Z) (msg : Message) : list byte :=
  if Bool.eqb r (rel msg) && negb (h =? nm_getID (manager (net q))) && negb (bool_decide (targets_at q msg h = []))
  then framed REGULAR (copy_for q msg h) else [].
Definition own_copy q (msg : Message) : list Message :=
  if bool_decide (targets_at q msg (nm_getID (manager (net q))) = []) then []
  else [copy_for q msg (nm_getID (manager (net q)))].

Definition store_own (now me : Z) (i : incoming) (m : Message) : incoming :=
  set_full i (insert_msg now me (full_queue i) m) (in_recvmsg i).

(** The messages [l] are sent, one after the other: each host is queued, behind what is queued
    for it, one copy of each message that has targets there, with exactly these targets, and
    nothing else is; the messages for this host are in its own queue. *)
Record routed (now : Z) q (l : list Message) (v' : VASTnet N) : Prop := mk_routed {
  rt_bufs : bufs_ok v';
  rt_manager : manager v' = manager (net q);
  rt_kept : kept_sending (net q) v';
  rt_out : ∀ r h, outq v' r h = outq (net q) r h ++ concat (sent_for q r h <$> l);
  rt_own : ∃ ms, Forall2 arrived ms (l ≫= own_copy q)
    ∧ inq v' = foldl (store_own now (nm_getID (manager (net q)))) (inq (net q)) ms }.

Lemma routed_nil now q : bufs_ok (net q) → routed now q [] (net q).
Proof. intros B. split; try done; [intros r h; by rewrite app_nil_r|]. exists []. by split; [constructor|]. Qed.

Lemma route_settled now q msg : sendable q → Message_inv msg → Forall (settled q) (targets msg) →
  ∃ v' msg', MQ_sendMessage now q msg
    = Ok (with_net q v', msg', filter (λ t, reached q t = false) (targets msg),
          Z.of_nat (length (filter (λ t, reached q t = true) (targets msg))))
  ∧ routed now q [msg] v'.
Proof.
  intros [Ha Hid Hb] Hm Hts. unfold MQ_sendMessage. rewrite split_settled, bind_ok by done.
  cbn beta iota. rewrite app_nil_l, Z.add_0_l.
  pose proof (λ h, groups_at q msg h) as HG. cbv zeta in HG. set (G := foldl _ _ _) in *.
  destruct (send_hosts_ok now q msg G Ha Hid Hb Hm) as (v' & msg' & E & [B M K Q S]);
    [apply (HG 0)|apply (HG 0)|].
  rewrite E, bind_ok. cbn beta iota. exists v', msg'. split; [done|]. split; try done.
  - intros r h. rewrite Q. f_equal. cbn [fmap list_fmap concat]. rewrite app_nil_r.
    unfold sent_for, sent_to, copy_for. destruct (HG h) as (_ & _ & ->).
    destruct (targets_at q msg h) as [|t ts]; cbn [bool_decide negb].
    + rewrite bool_decide_eq_true_2 by done. by rewrite andb_false_r.
    + rewrite bool_decide_eq_false_2 by done. by rewrite andb_true_r.
  - unfold self_sent in S. destruct (HG (nm_getID (manager (net q)))) as (_ & _ & Ef). rewrite Ef in S.
    cbn [mbind list_bind]. unfold own_copy, copy_for. destruct (targets_at q msg _) as [|t ts].
    + rewrite bool_decide_eq_true_2 by done. exists []. by split; [constructor|].
    + rewrite bool_decide_eq_false_2 by done. destruct S as (m' & A & E'). exists [m']. split; [apply Forall2_cons_2; [exact A|apply Forall2_nil_2]|exact E'].
Qed.

(** Nothing is sent for a message without targets. *)
Lemma routed_none now q msg : bufs_ok (net q) → targets msg = [] → routed now q [msg] (net q).
Proof.
  intros B E. assert (T : ∀ h, targets_at q msg h = []) by (intros h; unfold targets_at; by rewrite E).
  split; try done.
  - intros r h. cbn [fmap list_fmap concat]. unfold sent_for. rewrite T, bool_decide_eq_true_2, andb_false_r by done. by rewrite !app_nil_r.
  - exists []. cbn [mbind list_bind]. unfold own_copy. rewrite T, bool_decide_eq_true_2 by done. split; [by constructor|done].
Qed.

Lemma sendable_with q v : sendable q → bufs_ok v → manager v = manager (net q) → sendable (with_net q v).
Proof. intros [A I _] B E. split; cbn [net with_net]; by rewrite ?E. Qed.

(** What a handler sends: a message without a group gets that of the handler. *)
Definition in_group (own : Z) (m : Message) : Message := if msggroup m =? 0 then set_group m own else m.

Lemma handler_routes now q own msg : sendable q → Message_inv msg → Forall (settled q) (targets msg) →
  ∃ v' msg', handler_sendMessage now q own msg
    = Ok (with_net q v', msg', filter (λ t, reached q t = false) (targets msg),
          Z.of_nat (length (filter (λ t, reached q t = true) (targets msg))))
  ∧ routed now q [in_group own msg] v'.
Proof.
  intros Hs Hm Ht. assert (T : targets (in_group own msg) = targets msg) by (unfold in_group; by destruct (_ =? 0)).
  assert (I : Message_inv (in_group own msg)) by (unfold in_group; by destruct (_ =? 0)).
  destruct (targets msg) as [|t ts] eqn:E.
  - exists (net q), msg. unfold handler_sendMessage. rewrite E, with_net_same. split; [done|]. by apply routed_none; [apply Hs|].
  - destruct (route_settled now q (in_group own msg) Hs I) as (v' & m' & Em & R); [by rewrite T|]. rewrite T in Em.
    exists v', m'. split; [|exact R]. unfold handler_sendMessage. rewrite E. exact Em.
Qed.

(** Sending changes neither where targets are nor who is reached. *)
Lemma host_of_with q v : host_of (with_net q v) = host_of q.
Proof. done. Qed.

Lemma reached_with q v t : manager v = manager (net q) → reached (with_net q v) t = reached q t.
Proof. intros E. unfold reached, up, host_of. cbn [net with_net id2host]. by rewrite E. Qed.

Lemma settled_with q v t : manager v = manager (net q) → kept_sending (net q) v → settled q t → settled (with_net q v) t.
Proof.
  intros E K [Hh Hu]. split; [done|]. unfold up, host_of in *. cbn [net with_net id2host]. rewrite E.
  destruct Hu as [Hu|Hu]; [by left|right]. rewrite <- Hu. pose proof (kept_addr _ _ K) as Ea. cbn in Ea. by rewrite Ea.
Qed.

Lemma targets_at_with q v m h : manager v = manager (net q) → targets_at (with_net q v) m h = targets_at q m h.
Proof.
  intros E. unfold targets_at. f_equal. apply list_filter_iff. intros t. by rewrite reached_with.
Qed.

Lemma copy_for_with q v m h : manager v = manager (net q) → copy_for (with_net q v) m h = copy_for q m h.
Proof. intros E. unfold copy_for. rewrite targets_at_with by done. unfold filled. cbn [net with_net]. by rewrite E. Qed.

Lemma routed_cons now q m l v v' : routed now q [m] v → routed now (with_net q v) l v' → routed now q (m :: l) v'.
Proof.
  intros [B1 M1 K1 O1 (m1 & F1 & I1)] [B2 M2 K2 O2 (m2 & F2 & I2)]. cbn [net with_net] in *.
  split; [done|congruence|by eapply kept_sending_trans| |].
  - intros r h. rewrite O2, O1, <- app_assoc. f_equal. rewrite !fmap_cons. cbn [fmap list_fmap concat]. rewrite app_nil_r. f_equal.
    f_equal. apply list_fmap_ext. intros _ x _. unfold sent_for. cbn [net with_net]. by rewrite M1, targets_at_with, copy_for_with.
  - exists (m1 ++ m2). split; [|by rewrite foldl_app, <- I1, I2, M1]. cbn [mbind list_bind] in *. rewrite app_nil_r in F1.
    apply Forall2_app; [done|]. replace (mbind (own_copy q) l) with (mbind (own_copy (with_net q v)) l); [done|].
    apply list_bind_ext; [|done]. intros x. unfold own_copy. cbn [net with_net]. by rewrite M1, targets_at_with, copy_for_with.
Qed.

(** C4: Routing. A message whose targets have known hosts is sent once to every host that
    is up and has at least one of them, with the targets of that host, in their order, and
    the sender filled in; nothing else is sent to anyone. A message for this host goes to
    its own queue. The targets of the other hosts are reported as failed, and the number
    returned is that of the targets that were not. *)
Theorem message_routed now q msg :
  isActive (manager (net q)) = true → nm_getID (manager (net q)) ≠ NET_ID_UNASSIGNED →
  bufs_ok (net q) → Message_inv msg → Forall (settled q) (targets msg) →
  let me := nm_getID (manager (net q)) in
  let copy := λ h, filled (net q) (with_targets msg (targets_at q msg h)) in
  ∃ v' msg', MQ_sendMessage now q msg
    = Ok (with_net q v', msg', filter (λ t, reached q t = false) (targets msg),
          Z.of_nat (length (filter (λ t, reached q t = true) (targets msg))))
  ∧ bufs_ok v' ∧ manager v' = manager (net q) ∧ kept_sending (net q) v'
  ∧ (∀ r h, outq v' r h = outq (net q) r h ++
       if Bool.eqb r (rel msg) && negb (h =? me) && negb (bool_decide (targets_at q msg h = []))
       then framed REGULAR (copy h) else [])
  ∧ if bool_decide (targets_at q msg me = []) then inq v' = inq (net q)
    else ∃ m', arrived m' (copy me)
         ∧ inq v' = set_full (inq (net q)) (insert_msg now me (full_queue (inq (net q))) m')
                      (in_recvmsg (inq (net q))).
Proof.
  intros Ha Hid Hb Hm Hts me copy. destruct (route_settled now q msg (mk_sendable q Ha Hid Hb) Hm Hts) as (v' & msg' & E & [B M K Q (ms & F & S)]).
  exists v', msg'. splits; try done.
  - intros r h. rewrite Q. cbn [fmap list_fmap concat]. by rewrite app_nil_r.
  - cbn [mbind list_bind] in F. rewrite app_nil_r in F. unfold own_copy in F. fold me in F.
    destruct (bool_decide _); [by apply Forall2_nil_inv_r in F as ->|].
    apply Forall2_cons_inv_r in F as (m' & k & A & F & ->). apply Forall2_nil_inv_r in F as ->. by exists m'.
Qed.

(** *** The default route *)

Lemma strncmp_refl bs : strncmp_eq bs bs = true.
Proof.
  induction bs as [|b bs IH]; [done|]. cbn. rewrite Z.eqb_refl. by destruct (_ =? 0).
Qed.

Lemma eqb_copies a b m : copy_of a m → copy_of b m → Message_eqb a b = true.
Proof.
  intros ((A1 & A2 & A3 & A4 & A5 & A6 & A7) & AZ & AF & AC & _)
         ((B1 & B2 & B3 & B4 & B5 & B6 & B7) & BZ & BF & BC & _).
  unfold Message_eqb. fold (content a) (content b).
  rewrite A1, A2, A3, A4, A5, A6, A7, AZ, AF, AC, B1, B2, B3, B4, B5, B6, B7, BZ, BF, BC.
  rewrite !Z.eqb_refl, !Nat.eqb_refl, strncmp_refl, bool_decide_eq_true_2 by done.
  by destruct (malloc m).
Qed.

(** A target without a mapping. *)
Lemma resolve_unknown q msg t : Message_inv msg → has t (id2host q) = false →
  ∃ prev b, copy_of prev msg ∧ (copy_of (prevDefaultHostMsg q) msg → b = true)
  ∧ resolve_target q msg t
    = let c := if b : bool then u64 (defaultHostCounter q + 1) else defaultHostCounter q in
      Ok (if 10 <=? c then (with_retry q prev 0, None) else (with_retry q prev c, Some (default_host q))).
Proof.
  intros Hm Ht. unfold resolve_target, has in *. destruct (find t (id2host q)); [done|].
  destruct (Message_copy_ok msg Hm) as (other & -> & Co & _).
  destruct (Message_assign_ok msg Hm) as (prev & -> & Cp & _). rewrite !bind_ok.
  exists prev, (Message_eqb (prevDefaultHostMsg q) other). splits; [done| |].
  - intros C. by apply (eqb_copies _ _ msg).
  - cbv zeta. by destruct (10 <=? _).
Qed.

Lemma discard_run now msg ts1 ts2 hosts failed num q :
  Message_inv msg → Forall (λ t, has t (id2host q) = false) ts1 →
  up (net q) (default_host q) = true → copy_of (prevDefaultHostMsg q) msg →
  0 ≤ defaultHostCounter q < 10 → 10 ≤ defaultHostCounter q + Z.of_nat (length ts1) →
  ∃ prev, split_targets now q msg (ts1 ++ ts2) hosts failed num
          = Ok (with_retry q prev 0, failed, None).
Proof.
  intros Hm Hts. revert q hosts num Hts. induction ts1 as [|t ts1 IH]; intros q hosts num Hts Hu Hp Hc Hl.
  { cbn in Hl. lia. }
  apply Forall_cons in Hts as [Ht Hts]. cbn [app split_targets].
  destruct (resolve_unknown q msg t Hm Ht) as (prev & b & Cp & Hb & ->). rewrite Hb by done.
  cbv zeta. rewrite wrap_id by (split; [lia|change (2 ^ 64) with 18446744073709551616; lia]).
  rewrite length_cons in Hl. destruct (Z.leb_spec 10 (defaultHostCounter q + 1)).
  { rewrite bind_ok. cbn beta iota. by exists prev. }
  rewrite bind_ok. cbn beta iota. cbn [net with_retry].
  rewrite validate_settled, bind_ok by by left. cbn beta iota.
  rewrite validate_settled, bind_ok by by left. cbn beta iota zeta. rewrite Hu.
  destruct (IH (with_net (with_retry q prev (defaultHostCounter q + 1)) (net q))
    (add_target (default_host q) t hosts) (num + 1)) as (prev' & E); try done; cbn in *; try lia.
  by exists prev'.
Qed.

(** The retry counter counts targets, not attempts. A message that begins with eleven
    targets without a mapping is discarded at the first attempt, for all its targets, even
    those that are reachable: nothing is sent and no target is reported as failed. *)
Theorem unknown_targets_discard now q msg ts1 ts2 :
  Message_inv msg → targets msg = ts1 ++ ts2 → length ts1 = 11%nat →
  Forall (λ t, has t (id2host q) = false) ts1 →
  up (net q) (default_host q) = true → 0 ≤ defaultHostCounter q < 10 →
  ∃ q', MQ_sendMessage now q msg = Ok (q', msg, [], 0)
  ∧ net q' = net q ∧ id2host q' = id2host q ∧ defaultHostCounter q' = 0.
Proof.
  intros Hm Et Hl Hts Hu Hc. unfold MQ_sendMessage. rewrite Et.
  destruct ts1 as [|t ts1]; [done|]. injection Hl as Hl. apply Forall_cons in Hts as [Ht Hts].
  cbn [app split_targets].
  destruct (resolve_unknown q msg t Hm Ht) as (prev & b & Cp & _ & ->). cbv zeta.
  rewrite wrap_id by (split; [lia|change (2 ^ 64) with 18446744073709551616; lia]).
  set (c := if b then _ else _). assert (Hcc : 0 ≤ c ≤ 10) by (unfold c; destruct b; lia).
  destruct (Z.leb_spec 10 c).
  { rewrite !bind_ok. cbn beta iota. eexists. by split. }
  rewrite bind_ok. cbn beta iota. cbn [net with_retry].
  rewrite validate_settled, bind_ok by by left. cbn beta iota.
  rewrite validate_settled, bind_ok by by left. cbn beta iota zeta. rewrite Hu.
  destruct (discard_run now msg ts1 ts2 (add_target (default_host q) t []) [] (0 + 1)
    (with_net (with_retry q prev c) (net q))) as (prev' & ->); try done; [cbn; lia|cbn; lia|].
  rewrite bind_ok. cbn beta iota. eexists. by split.
Qed.
End routing.

(** ** Dispatch: which messages the handlers of a node are called with by
    [MessageQueue::processMessages]. *)

(** *** Any handlers, observed

    A handler with the list of its calls: the message, and the id of the host and the hosts of
    the targets that were known at the time of the call. *)
Record call := mkCall { call_host : Z; call_map : list (Z * Z); call_msg : Message }.
Record logged (H : Type) := mkLog { observed : H; calls : list call }.
Arguments mkLog {H}. Arguments observed {H}. Arguments calls {H}.

Definition unlog {H} (p : Z * logged H) : Z * H := (fst p, observed (snd p)).

#[export] Instance logged_handler {N H} `{NetManager N} `{MessageHandler N H} : MessageHandler N (logged H) := {|
  initHandler q l := let '(q, h) := initHandler q (observed l) in (q, mkLog h (calls l));
  handleMessage now ms hs q l msg :=
    '(q', h, msg', ok) ← handleMessage now ms (unlog <$> hs) q (observed l) msg;
    Ok (q', mkLog h (calls l ++ [mkCall (nm_getID (manager (net q))) (id2host q) msg]), msg', ok);
  postHandling now ms hs q l :=
    '(q, h) ← postHandling now ms (unlog <$> hs) q (observed l);
    Ok (q, mkLog h (calls l)) |}.

Lemma find_unlog {H} g (hs : list (Z * logged H)) :
  find g (unlog <$> hs) = observed <$> find g hs.
Proof.
  induction hs as [|[k l] hs IH]; [done|]. cbn. destruct (g =? k); [done|]. exact IH.
Qed.

Lemma has_unlog {H} g (hs : list (Z * logged H)) : has g (unlog <$> hs) = has g hs.
Proof. unfold has. rewrite find_unlog. by destruct (find g hs). Qed.

Lemma set_unlog {H} g (l : logged H) hs : unlog <$> set g l hs = set g (observed l) (unlog <$> hs).
Proof.
  induction hs as [|[k l'] hs IH]; [done|]. cbn. destruct (g =? k); [done|].
  destruct (g <? k); [done|]. cbn. by rewrite IH.
Qed.

Lemma keys_unlog {H} (hs : list (Z * logged H)) : fst <$> (unlog <$> hs) = fst <$> hs.
Proof. by rewrite <- list_fmap_compose. Qed.

Section observed.
Context {N H : Type} `{NetManager N} `{MessageHandler N H}.
Implicit Types s : MessageQueue N (logged H).

(** The node without the observation. *)
Definition erased s : MessageQueue N H := mkMQ (queue s) (unlog <$> handlers s).

(** A target is for this host: it is the host, or one its map knows no host of, or maps to it. *)
Definition for_host (me : Z) (map : list (Z * Z)) (t : Z) : Prop :=
  t = me ∨ find t map = None ∨ find t map = Some me.

Lemma is_local_spec q t : is_local q t = true ↔ for_host (nm_getID (manager (net q))) (id2host q) t.
Proof.
  unfold is_local, for_host. rewrite orb_true_iff, Z.eqb_eq. destruct (find t (id2host q)) as [h|].
  - rewrite Z.eqb_eq. split; [intros [?| ->]; tauto|intros [?|[[=]|[= ->]]]; tauto].
  - split; [tauto|by right].
Qed.

(** What a handler of group [g] may be called with: a disconnection, or a message of its group with
    a sender and with targets all of which are for the host that calls it, as its map is then. *)
Definition addressed (g : Z) (c : call) : Prop :=
  msgtype (call_msg c) = DISCONNECT
  ∨ (msggroup (call_msg c) = g ∧ from (call_msg c) ≠ NET_ID_UNASSIGNED ∧ targets (call_msg c) ≠ []
     ∧ Forall (for_host (call_host c) (call_map c)) (targets (call_msg c))).

(** The call of a handler in a state *)
Definition the_call s (msg : Message) : call := mkCall (nm_getID (manager (net (queue s)))) (id2host (queue s)) msg.

Definition well_called s : Prop :=
  Forall (λ p, Forall (addressed (fst p)) (calls (snd p))) (handlers s).

Lemma call_logged now ms s g msg :
  call_handler now ms (erased s) g msg
  = ('(s, msg, ok) ← call_handler now ms s g msg; Ok (erased s, msg, ok)).
Proof.
  unfold call_handler. cbn [erased handlers queue]. rewrite find_unlog.
  destruct (find g (handlers s)) as [l|]; cbn [fmap option_fmap option_map]; [|by rewrite bind_ok].
  cbn [handleMessage logged_handler].
  destruct (handleMessage now ms (unlog <$> handlers s) (queue s) (observed l) msg)
    as [[[[q h] m] ok]|]; [|by rewrite !bind_fail].
  rewrite !bind_ok. cbn beta iota. unfold erased. cbn [queue handlers].
  by rewrite set_unlog.
Qed.

Lemma call_well_called now ms s g msg s' m ok :
  well_called s → (has g (handlers s) = true → addressed g (the_call s msg)) →
  call_handler now ms s g msg = Ok (s', m, ok) → well_called s'.
Proof.
  intros Hw Ha. unfold call_handler, has in *.
  destruct (find g (handlers s)) as [l|] eqn:E; [|by intros [= <- _ _]].
  cbn [handleMessage logged_handler]. intros Hr.
  apply bind_inv in Hr as ([[[q h] m'] ok'] & Hr & [= <- _ _]).
  apply bind_inv in Hr as ([[[q' h'] m''] ok''] & _ & [= _ <- _ _]).
  unfold well_called. cbn [handlers]. apply Forall_set; [|done]. cbn.
  apply Forall_app. split; [|by constructor; [apply Ha|]].
  apply find_In in E. by apply (proj1 (Forall_forall _ _) Hw) in E.
Qed.

Lemma call_all_logged now ms s gs msg :
  call_all now ms (erased s) gs msg
  = ('(s, msg) ← call_all now ms s gs msg; Ok (erased s, msg)).
Proof.
  revert s msg. induction gs as [|g gs IH]; intros s msg; cbn [call_all]; [by rewrite bind_ok|].
  rewrite call_logged.
  destruct (call_handler now ms s g (set_type msg DISCONNECT)) as [[[s' m] ok]|];
    [|by rewrite !bind_fail].
  rewrite !bind_ok. cbn beta iota. apply IH.
Qed.

Lemma call_all_well_called now ms s gs msg s' m :
  well_called s → call_all now ms s gs msg = Ok (s', m) → well_called s'.
Proof.
  revert s msg. induction gs as [|g gs IH]; intros s msg Hw; cbn [call_all]; [by intros [= <- _]|].
  intros Hr. apply bind_inv in Hr as ([[s1 m1] ok] & E & Hr).
  apply (IH s1 m1); [|exact Hr]. apply (call_well_called _ _ _ _ _ _ _ _ Hw) in E; [done|].
  intros _. by left.
Qed.

Lemma process_message_logged now ms s msg f :
  process_message now ms (erased s) msg f
  = ('(s, k) ← process_message now ms s msg f; Ok (erased s, k)).
Proof.
  unfold process_message. destruct (msgtype msg =? DISCONNECT).
  { cbn [erased handlers]. rewrite keys_unlog. fold (erased s). rewrite call_all_logged.
    destruct (call_all _ _ s _ _) as [[s' m]|]; [|by rewrite !bind_fail]. by rewrite !bind_ok. }
  destruct (negb (from msg =? NET_ID_UNASSIGNED)); [|by rewrite bind_ok].
  cbv zeta. change (queue (erased s)) with (queue s).
  set (s1 := with_queue s (learn (queue s) f msg)).
  change (with_queue (erased s) (learn (queue s) f msg)) with (erased s1).
  change (queue (erased s1)) with (queue s1). destruct (filter _ _) as [|t ts]; [by rewrite bind_ok|].
  cbn [erased handlers]. rewrite has_unlog. fold (erased s1).
  destruct (negb (has _ _)); [by rewrite bind_ok|]. rewrite call_logged.
  destruct (call_handler now ms s1 _ _) as [[[s2 m] ok]|]; [|by rewrite !bind_fail].
  by rewrite !bind_ok.
Qed.

Lemma process_message_well_called now ms s msg f s' k :
  well_called s → process_message now ms s msg f = Ok (s', k) → well_called s'.
Proof.
  intros Hw. unfold process_message. destruct (msgtype msg =? DISCONNECT).
  { intros Hr. apply bind_inv in Hr as ([s1 m] & E & [= <- _]). by apply call_all_well_called in E. }
  destruct (Z.eqb_spec (from msg) NET_ID_UNASSIGNED) as [|Hf]; cbn [negb]; [by intros [= <- _]|].
  cbv zeta. destruct (filter _ _) as [|t ts] eqn:Ets; [by intros [= <- _]|].
  destruct (negb _); [by intros [= <- _]|]. intros Hr.
  apply bind_inv in Hr as ([[s1 m] ok] & E & [= <- _]).
  apply call_well_called in E; [done|exact Hw|]. intros _. right. cbn [the_call call_msg call_host call_map]. splits; [done|done|done|].
  cbn [targets with_targets]. rewrite <- Ets. apply Forall_forall. intros x [Hx _]%list_elem_of_filter.
  by apply is_local_spec in Hx.
Qed.

(** A message that reaches a handler reaches it with all its targets for this host. *)
Lemma process_message_delivers now ms s msg f s' k h :
  msgtype msg ≠ DISCONNECT → from msg ≠ NET_ID_UNASSIGNED → find (msggroup msg) (handlers s) = Some h →
  let s1 := with_queue s (learn (queue s) f msg) in
  let mine := filter (λ t, is_local (queue s1) t = true) (targets msg) in
  mine ≠ [] → process_message now ms s msg f = Ok (s', k) →
  ∃ h', find (msggroup msg) (handlers s') = Some h' ∧ calls h' = calls h ++ [the_call s1 (with_targets msg mine)].
Proof.
  intros Ht Hf Eh s1 mine Hm. unfold process_message. rewrite (proj2 (Z.eqb_neq _ _) Ht), (proj2 (Z.eqb_neq _ _) Hf).
  cbn [negb]. cbv zeta. fold s1. fold mine. destruct mine as [|t ts] eqn:Em; [done|].
  assert (E1 : find (msggroup (with_targets msg (t :: ts))) (handlers s1) = Some h) by exact Eh.
  unfold has, call_handler. rewrite E1. cbn [negb].
  cbn [handleMessage logged_handler]. intros Hr.
  apply bind_inv in Hr as ([[s2 m2] ok2] & Hr & [= <- _]). apply bind_inv in Hr as ([[[q h2] m'] ok'] & Hr & [= <- _ _]).
  apply bind_inv in Hr as ([[[q' h'] m''] ok''] & _ & [= _ <- _ _]). eexists. split; [apply find_set_eq|done].
Qed.

(** C34: Isolation. Whatever the handlers do, sending and moving connections included:
    observing them does not change a run of [processMessages], and in any run the handler
    of a group is called only with disconnections and with messages of its own group that
    name a sender and have targets, every one of which is for this host at the time of the call:
    the host itself, a target of unknown host, or one that is mapped to this host. And a message
    with a sender, for a group that has a handler, and with targets for this host, reaches that
    handler with all of these and in their order. *)
Theorem handlers_isolated time now ms s :
  well_called s →
  processMessages time now ms (erased s)
  = ('(s, k) ← processMessages time now ms s; Ok (erased s, k))
  ∧ (∀ s' k, processMessages time now ms s = Ok (s', k) → well_called s')
  ∧ ∀ msg f s' k h, msgtype msg ≠ DISCONNECT → from msg ≠ NET_ID_UNASSIGNED → find (msggroup msg) (handlers s) = Some h →
    let s1 := with_queue s (learn (queue s) f msg) in
    let mine := filter (λ t, is_local (queue s1) t = true) (targets msg) in
    mine ≠ [] → process_message now ms s msg f = Ok (s', k) →
    ∃ h', find (msggroup msg) (handlers s') = Some h' ∧ calls h' = calls h ++ [the_call s1 (with_targets msg mine)].
Proof.
  intros Hw. cut (processMessages time now ms (erased s) = ('(s, k) ← processMessages time now ms s; Ok (erased s, k))
    ∧ ∀ s' k, processMessages time now ms s = Ok (s', k) → well_called s').
  { intros [E W]. splits; [exact E|exact W|]. intros msg f s' k h. apply process_message_delivers. }
  revert s Hw. induction time as [|time IH]; intros s Hw; cbn [processMessages].
  all: change (queue (erased s)) with (queue s).
  all: destruct (receiveMessage (net (queue s)) _) as [v [[m f]|]]; cbv zeta;
    try (split; [by rewrite bind_ok|by intros ? ? [= <- _]]).
  set (s1 := with_queue s (with_net (queue s) v)).
  change (with_queue (erased s) (with_net (queue s) v)) with (erased s1).
  rewrite process_message_logged.
  destruct (process_message now ms s1 m f) as [[s2 k]|] eqn:E; [|by rewrite !bind_fail].
  rewrite !bind_ok. cbn beta iota.
  destruct (IH s2) as [E2 W2]; [by apply (process_message_well_called now ms s1 m f s2 k)|].
  rewrite E2. destruct (processMessages time now ms s2) as [[s3 k3]|]; [|by rewrite !bind_fail].
  rewrite !bind_ok. cbn beta iota. split; [done|]. intros s' k' [= <- _]. by apply (W2 s3 k3).
Qed.
End observed.
