(* ===== verification/QueueSafe.v ===== *)
(** Safety of a node: sending through the queue never fails and keeps its invariant, and
    so does a round of handlers each of which does. Handlers discharge [SafeHandler]. *)

From S2P Require Import Prelude Bytes StdMap Float Serial Message NetManager VastBuffer.
From S2P Require Import NetInterface VastNet VastSend VastReceive MessageQueue Routing.
Local Open Scope Z_scope.

Section safe.
Context {N : Type} `{NetManagerLaws N}.
Implicit Types (v : VASTnet N) (q : mqueue N).

(** The binding is usable, the buffers are well-formed, every queued message is, and no
    address is stored for the id 0. *)
Record net_inv v : Prop := mk_net_inv {
  ni_ready : ready (manager v);
  ni_bufs : bufs_ok v;
  ni_zero : find NET_ID_UNASSIGNED (id2addr v) = None;
  ni_full : Forall (λ p, Message_inv (fm_msg (snd p))) (full_queue (inq v)) }.

(** What sending may change: the queues, and connections may come up. *)
Record sent v v' : Prop := mk_sent {
  sent_inv : net_inv v';
  sent_kept : kept_sending v v';
  sent_conn : ∀ id, connected (manager v) id = true → connected (manager v') id = true }.

Lemma sent_refl v : net_inv v → sent v v.
Proof. by split. Qed.

Lemma sent_step v1 v2 v3 : sent v1 v2 → sent v2 v3 → sent v1 v3.
Proof. intros [] []. split; [done|by eapply kept_sending_trans|eauto]. Qed.

Lemma kept_same_inq v v' : kept v v' → kept_sending v v'.
Proof. intros K. unfold kept_sending. rewrite (kept_inq _ _ K). destruct K. by split. Qed.

Lemma kept_net_inv v v' : kept v v' → ready (manager v') → bufs_ok v' → net_inv v → net_inv v'.
Proof.
  intros K R B []. split; [done|done| |].
  - by rewrite (kept_addr _ _ K).
  - by rewrite (kept_inq _ _ K).
Qed.

(** A frame is added to a buffer. *)
Lemma enqueue_safe v t m r ty : net_inv v → Message_inv m →
  ∃ v' k, enqueue v t m r ty = Ok (v', k) ∧ sent v v'.
Proof.
  intros I Hm. destruct (enqueue_ok v t m r ty (ni_bufs _ I) Hm) as (v' & E & B & M & K & _).
  eexists v', _. split; [exact E|]. split.
  - apply (kept_net_inv v); try done. rewrite M. apply I.
  - by apply kept_same_inq.
  - by rewrite M.
Qed.

(** A message to this host. *)
Lemma store_self_safe v now m : net_inv v → Message_inv m →
  ∃ m', Message_copy m = Ok m'
  ∧ sent v (fst (storeVASTMessage v now (nm_getID (manager v)) (reset m'))).
Proof.
  intros I Hm. destruct (Message_copy_ok m Hm) as (m' & -> & (_ & _ & _ & _ & C) & _).
  exists m'. split; [done|]. unfold storeVASTMessage. destruct (isActive (manager v)); [|by apply sent_refl].
  cbn [negb fst]. destruct I. split; [|done|done]. split; try done. cbn.
  rewrite minsert_Permutation. constructor; [|done]. destruct C. split; [done|cbn; lia].
Qed.

Lemma handshake_safe f now v t : net_inv v → connected (manager v) t = true →
  ∃ v', sendHandshake_with (sendMessage_fuel (S f) now) v t = Ok v' ∧ sent v v'.
Proof.
  intros I Hc. destruct (isActive (manager v)) eqn:Ha; [destruct (Z.eqb_spec t (nm_getID (manager v))) as [->|Hne]|].
  - unfold sendHandshake_with. cbv zeta. destruct (_ =? NET_ID_UNASSIGNED); [exists v; split; [done|by apply sent_refl]|].
    destruct (control_store_int 8 _ (nm_getID (manager v)) [] control_new) as (m & -> & C & _).
    rewrite bind_ok. cbn beta iota. rewrite sendMessage_S. unfold sendMessage_with. rewrite Ha. cbn [negb].
    fold (filled v m). rewrite Z.eqb_refl.
    destruct (store_self_safe v now (filled v m) I (filled_inv v m C)) as (m' & -> & S). rewrite bind_ok.
    destruct (storeVASTMessage _ _ _ _) as [v' b]. rewrite bind_ok. by exists v'.
  - destruct (handshake_ok f now v t Ha Hne Hc (ni_bufs _ I)) as (v' & E & B & M & K & _).
    exists v'. split; [exact E|]. split; [|by apply kept_same_inq|by rewrite M].
    apply (kept_net_inv v); try done. rewrite M. apply I.
  - unfold sendHandshake_with. cbv zeta. destruct (_ =? NET_ID_UNASSIGNED); [exists v; split; [done|by apply sent_refl]|].
    destruct (control_store_int 8 _ (nm_getID (manager v)) [] control_new) as (m & -> & _).
    rewrite bind_ok. cbn beta iota. rewrite sendMessage_S. unfold sendMessage_with. rewrite Ha. cbn [negb].
    rewrite bind_ok. exists v. split; [done|by apply sent_refl].
Qed.

Lemma validate_safe f now v t : net_inv v →
  ∃ v' ok, validateConnection_with (sendMessage_fuel (S f) now) v now t = Ok (v', ok) ∧ sent v v'
  ∧ (ok = true → up v' t = true).
Proof.
  intros I. unfold validateConnection_with. fold (up v t). destruct (up v t) eqn:Eu.
  { exists v, true. split; [done|]. split; [by apply sent_refl|done]. }
  destruct (find t (id2addr v)) as [a|] eqn:Ea.
  2: { exists v, false. split; [done|]. split; [by apply sent_refl|done]. }
  assert (Ht : t ≠ NET_ID_UNASSIGNED) by (intros ->; by rewrite (ni_zero _ I) in Ea).
  destruct (connect_law (manager v) now t (host (publicIP a)) (port (publicIP a)) (ni_ready _ I))
    as (n & ok & -> & R & _ & A & Id & S & Cm & C).
  rewrite bind_ok. cbn beta iota.
  assert (S1 : sent v (with_manager v n)) by (destruct I; by split).
  destruct ok; cbn [negb]; [|exists (with_manager v n), false; by split].
  destruct (handshake_safe f now (with_manager v n) t (sent_inv _ _ S1) (C eq_refl Ht)) as (v' & -> & S2).
  rewrite bind_ok. exists v', true. split; [done|]. split; [by eapply sent_step|].
  intros _. unfold up. rewrite (sent_conn _ _ S2) by auto. by rewrite orb_true_r.
Qed.

(** [sendMessage] to any id *)
Lemma send_safe now v t m r ty : net_inv v → Message_inv m →
  ∃ v' m' k, VastNet.sendMessage now v t m r ty = Ok (v', m', k) ∧ sent v v'
  ∧ (m' = m ∨ m' = filled v m).
Proof.
  intros I Hm. unfold VastNet.sendMessage, SEND_DEPTH. rewrite sendMessage_S. unfold sendMessage_with.
  destruct (isActive (manager v)); cbn [negb].
  2: { exists v, m, 0. split; [done|]. split; [by apply sent_refl|by left]. }
  fold (filled v m). pose proof (filled_inv v m Hm) as Hf. destruct (t =? nm_getID (manager v)).
  - destruct (store_self_safe v now (filled v m) I Hf) as (m' & -> & S). rewrite bind_ok.
    destruct (storeVASTMessage _ _ _ _) as [v' b]. exists v', (filled v m), (Z.of_nat (msize (filled v m))). split; [reflexivity|].
    split; [exact S|by right].
  - destruct (validate_safe 0 now v t I) as (v1 & ok & -> & S1 & _). rewrite bind_ok. cbn beta iota.
    destruct ok; cbn [negb]; [|exists v1, (filled v m), 0; split; [done|split; [done|by right]]].
    destruct (enqueue_safe v1 t (filled v m) r ty (sent_inv _ _ S1) Hf) as (v2 & k & -> & S2).
    rewrite bind_ok. exists v2, (filled v m), k. split; [done|]. split; [by eapply sent_step|by right].
Qed.

(** *** Through the queue *)

Definition q_sent q q' : Prop := sent (net q) (net q') ∧ id2host q' = id2host q
  ∧ default_host q' = default_host q.

Lemma q_sent_refl q : net_inv (net q) → q_sent q q.
Proof. split; [by apply sent_refl|done]. Qed.

Lemma q_sent_step q1 q2 q3 : q_sent q1 q2 → q_sent q2 q3 → q_sent q1 q3.
Proof. intros (S1 & E1 & D1) (S2 & E2 & D2). split; [by eapply sent_step|split; congruence]. Qed.

Lemma resolve_safe q msg t : Message_inv msg →
  ∃ q' h, resolve_target q msg t = Ok (q', h) ∧ net q' = net q ∧ id2host q' = id2host q
  ∧ default_host q' = default_host q.
Proof.
  intros Hm. unfold resolve_target. destruct (find t (id2host q)); [eauto 10|].
  destruct (Message_copy_ok msg Hm) as (c & -> & _). destruct (Message_assign_ok msg Hm) as (p & -> & _).
  rewrite !bind_ok. cbv zeta. destruct (10 <=? _); eauto 10.
Qed.

Lemma split_safe now q msg ts hosts failed num : net_inv (net q) → Message_inv msg →
  ∃ q' failed' r, split_targets now q msg ts hosts failed num = Ok (q', failed ++ failed', r)
  ∧ q_sent q q' ∧ incl failed' ts.
Proof.
  revert q hosts failed num. induction ts as [|t ts IH]; intros q hosts failed num I Hm.
  { exists q, [], (Some (hosts, num)). rewrite app_nil_r. split; [done|]. split; [by apply q_sent_refl|intros ? []]. }
  cbn [split_targets]. destruct (resolve_safe q msg t Hm) as (q1 & h & -> & N1 & M1 & D1).
  rewrite bind_ok. cbn beta iota. rewrite <- N1 in I. destruct h as [h|].
  2: { exists q1, [], None. rewrite app_nil_r. split; [done|]. split; [|intros ? []].
       unfold q_sent. rewrite <- N1. split; [by apply sent_refl|done]. }
  destruct (validate_safe 1 now (net q1) h I) as (v1 & ok & E1 & S1 & _).
  unfold validateConnection. fold (sendMessage_fuel SEND_DEPTH now) in *.
  change (VastNet.sendMessage now) with (sendMessage_fuel 2 now). rewrite E1, bind_ok. cbn beta iota.
  destruct (validate_safe 1 now v1 h (sent_inv _ _ S1)) as (v2 & ok2 & E2 & S2 & _).
  rewrite E2, bind_ok. cbn beta iota zeta.
  assert (Q : q_sent q (with_net q1 v2)).
  { split; [|done]. rewrite <- N1. by apply (sent_step _ v1). }
  assert (I2 : net_inv (net (with_net q1 v2))) by apply (sent_inv _ _ S2).
  destruct ok.
  - destruct (IH (with_net q1 v2) (add_target h t hosts) failed (num + 1) I2 Hm) as (q' & f' & r & E & Q' & F).
    exists q', f', r. split; [exact E|]. split; [by eapply q_sent_step|by apply incl_tl].
  - destruct (IH (with_net q1 v2) hosts (failed ++ [t]) num I2 Hm) as (q' & f' & r & E & Q' & F).
    exists q', (t :: f'), r. rewrite <- app_assoc in E. split; [exact E|].
    split; [by eapply q_sent_step|]. apply incl_cons; [by left|by apply incl_tl].
Qed.

(** What sending leaves of a message: the sender may be filled in, targets replaced. *)
Definition same_body (m m' : Message) : Prop :=
  Message_inv m' ∧ content m' = content m ∧ msize m' = msize m ∧ mcurr m' = mcurr m
  ∧ msgtype m' = msgtype m ∧ msggroup m' = msggroup m ∧ priority m' = priority m
  ∧ reliable m' = reliable m ∧ malloc m' = malloc m ∧ (from m ≠ 0 → from m' = from m).

Lemma same_body_refl m : Message_inv m → same_body m m.
Proof. unfold same_body. intros. splits; done. Qed.

Lemma same_body_step a b c : same_body a b → same_body b c → same_body a c.
Proof.
  unfold same_body. intros (?&?&?&?&?&?&?&?&?&F1) (?&?&?&?&?&?&?&?&?&F2).
  splits; try congruence; try done. intros Hf. rewrite F2; [by apply F1|]. by rewrite F1.
Qed.

Lemma filled_body v m : Message_inv m → same_body m (filled v m).
Proof.
  intros Hm. unfold filled. destruct (Z.eqb_spec (from m) 0) as [E|E]; [|by apply same_body_refl].
  unfold same_body. splits; done.
Qed.

Lemma targets_body m ts : Message_inv m → same_body m (with_targets m ts).
Proof. intros Hm. unfold same_body. splits; done. Qed.

Lemma send_hosts_safe now q msg hosts : net_inv (net q) → Message_inv msg →
  ∃ q' msg', send_hosts now q msg hosts = Ok (q', msg') ∧ q_sent q q' ∧ same_body msg msg'.
Proof.
  revert q msg. induction hosts as [|[h ts] hosts IH]; intros q msg I Hm; cbn [send_hosts].
  { exists q, msg. split; [done|]. split; [by apply q_sent_refl|by apply same_body_refl]. }
  cbv zeta. pose proof (targets_body msg ts Hm) as B0. set (m1 := with_targets msg ts) in *.
  destruct (send_safe now (net q) h m1 (negb (reliable m1 =? 0)) REGULAR I Hm)
    as (v1 & m2 & k & -> & S1 & Em). rewrite bind_ok. cbn beta iota.
  assert (B1 : same_body msg m2).
  { destruct Em as [->| ->]; [done|]. eapply same_body_step; [exact B0|]. by apply filled_body. }
  destruct (IH (with_net q v1) m2 (sent_inv _ _ S1)) as (q' & msg' & E & Q & B); [apply B1|].
  exists q', msg'. split; [exact E|]. split; [|by eapply same_body_step].
  apply (q_sent_step _ (with_net q v1)); [by split|exact Q].
Qed.

Lemma MQ_send_safe now q msg : net_inv (net q) → Message_inv msg →
  ∃ q' msg' failed k, MQ_sendMessage now q msg = Ok (q', msg', failed, k)
  ∧ q_sent q q' ∧ same_body msg msg' ∧ incl failed (targets msg).
Proof.
  intros I Hm. unfold MQ_sendMessage.
  destruct (split_safe now q msg (targets msg) [] [] 0 I Hm) as (q1 & failed & r & -> & Q1 & F).
  rewrite bind_ok. cbn beta iota. rewrite app_nil_l. destruct r as [[hosts num]|].
  - destruct (send_hosts_safe now q1 msg hosts) as (q2 & msg' & -> & Q2 & B); [apply Q1|done|].
    rewrite bind_ok. cbn beta iota. exists q2, msg', failed, num. splits; try done.
    by eapply q_sent_step.
  - exists q1, msg, failed, 0. split; [done|]. split; [done|]. split; [by apply same_body_refl|done].
Qed.

(** [same_body], except that the group may be set. *)
Definition same_content (m m' : Message) : Prop :=
  Message_inv m' ∧ content m' = content m ∧ msize m' = msize m ∧ mcurr m' = mcurr m
  ∧ msgtype m' = msgtype m ∧ malloc m' = malloc m.

Lemma handler_send_safe now q g msg : net_inv (net q) → Message_inv msg →
  ∃ q' msg' failed k, handler_sendMessage now q g msg = Ok (q', msg', failed, k)
  ∧ q_sent q q' ∧ same_content msg msg' ∧ incl failed (targets msg).
Proof.
  intros I Hm. unfold handler_sendMessage. destruct (targets msg) as [|t ts] eqn:Et.
  { exists q, msg, [], 0. split; [done|]. split; [by apply q_sent_refl|].
    split; [|intros ? []]. unfold same_content. by splits. }
  set (m1 := if _ =? 0 then _ else _).
  assert (E1 : targets m1 = t :: ts) by (unfold m1; destruct (_ =? 0); exact Et).
  assert (C1 : same_content msg m1) by (unfold m1; destruct (_ =? 0); unfold same_content; splits; done).
  destruct (MQ_send_safe now q m1 I) as (q' & msg' & failed & k & E & Q & B & F); [apply C1|].
  exists q', msg', failed, k. rewrite <- E1. splits; try done.
  unfold same_content, same_body in *. destruct_and!. splits; congruence.
Qed.

Lemma notify_inv q id a : net_inv (net q) → net_inv (net (notifyMapping q id a)).
Proof.
  intros []. unfold notifyMapping, storeMapping. cbn.
  destruct (Z.eqb_spec (host_id a) NET_ID_UNASSIGNED) as [|Hne]; split; cbn; try done.
  rewrite find_set. by destruct (Z.eqb_spec NET_ID_UNASSIGNED (host_id a)).
Qed.
End safe.

(** ** A node whose handlers are safe is safe: no message that the queue hands out and no
    periodic work makes it fail, other than by the faults the handlers declare. *)

(** What the queue demands of a handler: from a well-formed state, any well-formed message
    and the periodic work end in well-formed states, or with a declared fault. *)
Class SafeHandler (N H : Type) `{NetManagerLaws N} `{MessageHandler N H} := {
  h_inv : H → Prop;
  h_fault : fault → Prop;
  h_fresh : H → Prop;       (* may be registered *)
  init_safe q h : net_inv (net q) → h_fresh h →
    net_inv (net (fst (initHandler q h))) ∧ h_inv (snd (initHandler q h));
  handle_safe now ms hs q h msg :
    net_inv (net q) → Forall (λ p, h_inv (snd p)) hs → h_inv h → Message_inv msg →
    outcome_sat h_fault (λ '(q', h', msg', _), net_inv (net q') ∧ h_inv h' ∧ Message_inv msg')
      (handleMessage now ms hs q h msg);
  post_safe now ms hs q h :
    net_inv (net q) → Forall (λ p, h_inv (snd p)) hs → h_inv h →
    outcome_sat h_fault (λ '(q', h'), net_inv (net q') ∧ h_inv h') (postHandling now ms hs q h);
}.

Section node.
Context {N H : Type} `{SafeHandler N H}.
Implicit Types s : MessageQueue N H.

Record node_inv s : Prop := mk_node_inv {
  ns_net : net_inv (net (queue s));
  ns_handlers : Forall (λ p, h_inv (snd p)) (handlers s) }.

Lemma node_inv_queue s q : node_inv s → net_inv (net q) → node_inv (with_queue s q).
Proof. by intros []. Qed.

Lemma register_inv s g h : node_inv s → h_fresh h → node_inv (fst (registerHandler s g h)).
Proof.
  intros [In Ih] Hh. unfold registerHandler. destruct (has g (handlers s)); [done|].
  pose proof (init_safe (queue s) h In Hh) as [Iq Hi]. destruct (initHandler (queue s) h) as [q h'].
  split; [done|]. cbn. by apply Forall_set.
Qed.

Lemma call_safe now ms s g msg : node_inv s → Message_inv msg →
  outcome_sat h_fault (λ '(s', msg', _), node_inv s' ∧ Message_inv msg') (call_handler now ms s g msg).
Proof.
  intros [In Ih] Hm. unfold call_handler. destruct (find g (handlers s)) as [h|] eqn:E; [|by split].
  apply find_In in E. pose proof (proj1 (Forall_forall _ _) Ih _ E) as Hh. cbn in Hh.
  eapply sat_bind; [by apply handle_safe|]. intros [[[q' h'] msg'] ok] (Iq & Ihh & Im).
  split; [|done]. split; [done|]. cbn. by apply Forall_set.
Qed.

Lemma call_all_safe now ms s gs msg : node_inv s → Message_inv msg →
  outcome_sat h_fault (λ '(s', msg'), node_inv s' ∧ Message_inv msg') (call_all now ms s gs msg).
Proof.
  revert s msg. induction gs as [|g gs IH]; intros s msg Is Im; cbn [call_all]; [by split|].
  eapply sat_bind; [by apply call_safe|]. intros [[s1 m1] ok] [I1 M1]. by apply IH.
Qed.

Lemma process_message_safe now ms s msg f : node_inv s → Message_inv msg →
  outcome_sat h_fault (λ p, node_inv (fst p)) (process_message now ms s msg f).
Proof.
  intros Is Im. unfold process_message. destruct (msgtype msg =? DISCONNECT).
  { eapply sat_bind; [by apply call_all_safe|]. by intros [s' m] [I1 _]. }
  destruct (negb (from msg =? NET_ID_UNASSIGNED)); [|done].
  cbv zeta. set (s1 := with_queue s _).
  assert (I1 : node_inv s1).
  { apply node_inv_queue; [done|]. unfold learn. destruct (_ && _); apply Is. }
  destruct (filter _ _) as [|t ts]; [done|]. destruct (negb _); [done|].
  eapply sat_bind; [by apply call_safe|]. by intros [[s2 m2] ok] [I2 _].
Qed.

Lemma receive_inv v b : net_inv v →
  net_inv (fst (receiveMessage v b)) ∧ ∀ m f, snd (receiveMessage v b) = Some (m, f) → Message_inv m.
Proof.
  intros I. unfold receiveMessage. destruct (negb (isActive (manager v))); [done|].
  destruct (negb b); [done|]. destruct I as [R B Z F].
  destruct (full_queue (inq v)) as [|[p x] q] eqn:E; [by split|]. cbv zeta.
  apply Forall_cons in F as [Fx Fq]. set (v1 := with_inq v _).
  destruct (stat_same v1 (fm_fromhost x) (msgtype (fm_msg x)) (4 + Z.of_nat (msize (fm_msg x))) 2) as (Em & Et & Eu & K).
  cbn [fst snd]. split.
  - apply (kept_net_inv v1); [done|by rewrite Em| |].
    + intros r. unfold sendbuf. rewrite Et, Eu. apply (B r).
    + by split.
  - by intros m f [= <- _].
Qed.

Lemma process_messages_safe time now ms s : node_inv s →
  outcome_sat h_fault (λ p, node_inv (fst p)) (processMessages time now ms s).
Proof.
  revert s. induction time as [|time IH]; intros s Is; cbn [processMessages].
  all: match goal with |- context [receiveMessage ?v ?b] =>
         pose proof (receive_inv v b (ns_net _ Is)) as [Iv Im];
         destruct (receiveMessage v b) as [v1 r]; cbn [fst snd] in Iv, Im end; cbv zeta.
  all: assert (I1 : node_inv (with_queue s (with_net (queue s) v1))) by by apply node_inv_queue.
  { by destruct r as [[m f]|]. }
  destruct r as [[m f]|]; [|done].
  eapply sat_bind; [apply process_message_safe; [done|by eapply Im]|]. intros [s2 k] I2.
  eapply sat_bind; [by apply IH|]. by intros [s3 k3] I3.
Qed.

Lemma post_all_safe now ms s gs : node_inv s →
  outcome_sat h_fault node_inv (post_all now ms s gs).
Proof.
  revert s. induction gs as [|g gs IH]; intros s [In Ih]; cbn [post_all]; [done|].
  destruct (find g (handlers s)) as [h|] eqn:E; [|rewrite bind_ok; by apply IH].
  apply find_In in E. pose proof (proj1 (Forall_forall _ _) Ih _ E) as Hh. cbn in Hh.
  eapply sat_bind; [|intros s1 I1; by apply IH].
  eapply sat_bind; [by apply post_safe|]. intros [q' h'] [Iq Ihh]. split; [done|]. cbn. by apply Forall_set.
Qed.

Lemma flush_inv now ms v : net_inv v →
  ∃ v' total, flush v now ms = Ok (v', total) ∧ net_inv v'.
Proof.
  intros I. destruct (flush_ok now ms v (ni_ready _ I) (ni_bufs _ I))
    as (v' & n & total & E & _ & M & R & _ & K & B & _).
  exists v', total. split; [exact E|]. apply (kept_net_inv v); try done. by rewrite M.
Qed.

(** A tick, once [process] has taken the input. *)
Lemma tick_safe fuel time1 time2 now ms junk s v k :
  node_inv s → process fuel now junk (net (queue s)) = Ok (v, k) → net_inv v →
  outcome_sat h_fault node_inv (MQ_tick fuel time1 time2 now ms junk s).
Proof.
  intros Is Ep Iv. unfold MQ_tick. rewrite Ep, bind_ok. cbn beta iota.
  eapply sat_bind; [apply process_messages_safe; by apply node_inv_queue|]. intros [s1 k1] I1.
  eapply sat_bind; [by apply post_all_safe|]. intros s2 I2.
  destruct (flush_inv now ms (net (queue s2)) (ns_net _ I2)) as (v2 & t & -> & Iv2).
  rewrite bind_ok. cbn beta iota.
  eapply sat_bind; [apply process_messages_safe; by apply node_inv_queue|]. by intros [s3 k3] I3.
Qed.
End node.
