(* ===== verification/Readable.v ===== *)
(** Reading arbitrary bytes: every byte string of the right size is the wire image of some
    object, so that [extract] never fails, whatever a message contains, and what it yields
    fits its type. *)

From S2P Require Import Prelude Bytes Float Serial Subscription Message.
Local Open Scope Z_scope.

(** The wire images are all byte strings of the size. *)
Class SerializableOnto (A : Type) `{SerializableLaws A} :=
  wire_onto (old : A) (bs : list byte) : length bs = sizeOf old →
    ∃ x : A, valid x ∧ wire x = bs ∧ sizeOf x = sizeOf old.

(** The first integer of a byte string *)
Lemma le_split n k bs : length bs = (n + k)%nat →
  ∃ z rest, bs = le_bytes n z ++ rest ∧ fits (8 * Z.of_nat n) z ∧ length rest = k.
Proof.
  intros Hn. assert (L : length (take n bs) = n) by (rewrite length_take; lia).
  exists (le_val (take n bs)), (drop n bs). splits.
  - pose proof (le_bytes_val (take n bs)) as E. rewrite L in E. by rewrite E, take_drop.
  - pose proof (le_val_fits (take n bs)) as F. by rewrite L in F.
  - rewrite length_drop. lia.
Qed.

(** The bytes of an object in front *)
Lemma wire_split {A} `{SerializableOnto A} (old : A) k bs : length bs = (sizeOf old + k)%nat →
  ∃ x rest, bs = wire x ++ rest ∧ valid x ∧ length rest = k.
Proof.
  intros Hn. destruct (wire_onto old (take (sizeOf old) bs)) as (x & V & W & _);
    [rewrite length_take; lia|].
  exists x, (drop (sizeOf old) bs). rewrite W, take_drop. splits; [done|done|].
  rewrite length_drop. lia.
Qed.

#[export] Instance IPaddr_onto : SerializableOnto IPaddr.
Proof.
  intros old bs Hl. destruct (le_split 4 4 bs Hl) as (h & r1 & -> & F1 & L1).
  destruct (le_split 2 2 r1 L1) as (p & r2 & -> & F2 & L2).
  destruct (le_split 2 0 r2 L2) as (d & r3 & -> & F3 & L3). apply nil_length_inv in L3 as ->.
  exists (mkIPaddr h p d). split; [by split|]. split; [|done]. cbn. by rewrite app_nil_r.
Qed.

#[export] Instance Addr_onto : SerializableOnto Addr.
Proof.
  intros old bs Hl. destruct (le_split 8 16 bs Hl) as (h & r1 & -> & F1 & L1).
  destruct (le_split 8 8 r1 L1) as (l & r2 & -> & F2 & L2).
  destruct (wire_split (publicIP old) 0 r2) as (ip & r3 & -> & V & L3); [exact L2|]. apply nil_length_inv in L3 as ->.
  exists (mkAddr h l ip). split; [by split|]. split; [|done]. cbn. by rewrite app_nil_r.
Qed.

#[export] Instance Position_onto : SerializableOnto Position.
Proof.
  intros old bs Hl. destruct (le_split 4 8 bs Hl) as (x & r1 & -> & F1 & L1).
  destruct (le_split 4 4 r1 L1) as (y & r2 & -> & F2 & L2).
  destruct (le_split 4 0 r2 L2) as (z & r3 & -> & F3 & L3). apply nil_length_inv in L3 as ->.
  exists (mkPosition x y z). split; [by split|]. split; [|done]. cbn. by rewrite app_nil_r.
Qed.

#[export] Instance Area_onto : SerializableOnto Area.
Proof.
  intros old bs Hl. destruct (wire_split (center old) 4 bs) as (ctr & r1 & -> & V & L1); [exact Hl|].
  destruct (le_split 2 2 r1 L1) as (r & r2 & -> & F2 & L2).
  destruct (le_split 2 0 r2 L2) as (h & r3 & -> & F3 & L3). apply nil_length_inv in L3 as ->.
  exists (mkArea ctr r h). split; [by split|]. split; [|done]. by rewrite app_nil_r.
Qed.

#[export] Instance Node_onto : SerializableOnto Node.
Proof.
  intros old bs Hl. destruct (le_split 8 48 bs Hl) as (i & r1 & -> & F1 & L1).
  destruct (le_split 8 40 r1 L1) as (t & r2 & -> & F2 & L2).
  destruct (wire_split (node_aoi old) 24 r2) as (ar & r3 & -> & V & L3); [exact L2|].
  destruct (wire_split (node_addr old) 0 r3) as (ad & r4 & -> & V' & L4); [exact L3|]. apply nil_length_inv in L4 as ->.
  exists (mkNode i t ar ad). split; [by split|]. split; [|done]. by rewrite app_nil_r.
Qed.

#[export] Instance Sub_onto : SerializableOnto Subscription.
Proof.
  intros old bs Hl. destruct (le_split 8 50 bs Hl) as (h & r1 & -> & F1 & L1).
  destruct (le_split 8 42 r1 L1) as (i & r2 & -> & F2 & L2).
  destruct (le_split 2 40 r2 L2) as (l & r3 & -> & F3 & L3).
  destruct (wire_split (sub_aoi old) 24 r3) as (ar & r4 & -> & V & L4); [exact L3|].
  destruct (wire_split (relay old) 0 r4) as (ad & r5 & -> & V' & L5); [exact L4|]. apply nil_length_inv in L5 as ->.
  exists (mkSub h i l ar ad (active old) (dirty old) (in_region old) (sub_time old) (world_id old) [] []).
  split; [by split|]. split; [|done]. by rewrite app_nil_r.
Qed.

(** *** Reading from a message *)

(** What extracting leaves of a message *)
Definition read (m m' : Message) : Prop := Message_inv m' ∧ same_head m' m ∧ (msize m' ≤ msize m)%nat.

Lemma read_refl m : Message_inv m → read m m.
Proof. split; [done|]. split; [apply same_head_refl|lia]. Qed.

Lemma read_step a b c : read a b → read b c → read a c.
Proof.
  intros (I1 & S1 & L1) (I2 & S2 & L2). split; [done|].
  split; [by eapply same_head_trans|lia].
Qed.

Lemma extract_safe m n fe : Message_inv m → (0 < n)%nat →
  ∃ m' o k, extract m n fe = Ok (m', o, k) ∧ read m m'
  ∧ match o with Some bs => length bs = n | None => m' = m end.
Proof.
  intros Hi Hn. pose proof (length_content m Hi) as Lc. destruct (Nat.leb_spec (mcurr m + n) (msize m)) as [Hle|Hle].
  - destruct fe.
    + destruct (extract_end_spec m n Hi Hn Hle) as (m' & -> & I & _ & S & _ & Hh).
      eexists _, _, _. split; [reflexivity|]. split; [split; [done|split; [done|lia]]|].
      rewrite length_drop. lia.
    + pose proof (extract_spec m n Hi Hn) as E. destruct (Nat.leb_spec (mcurr m + n) (msize m)); [|lia].
      destruct E as (m' & -> & I & _ & S & _ & Hh). eexists _, _, _. split; [reflexivity|].
      split; [split; [done|split; [done|lia]]|]. rewrite length_take, length_drop. lia.
  - exists m, None, 0%nat. split; [|by split; [apply read_refl|]].
    unfold extract. destruct (Nat.eqb_spec n 0); [lia|]. cbn [andb]. rewrite bind_ok. cbn beta iota.
    by destruct (Nat.ltb_spec (msize m) (mcurr m + n)); [|lia].
Qed.

(** An integer that is extracted fits, if the variable did. *)
Lemma extract_int_safe n m old fe : Message_inv m → (0 < n)%nat →
  ∃ m' z, extract_int n m old fe = Ok (m', z, n) ∧ read m m'
  ∧ (fits (8 * Z.of_nat n) old → fits (8 * Z.of_nat n) z).
Proof.
  intros Hi Hn. unfold extract_int. destruct (extract_safe m n fe Hi Hn) as (m' & o & k & -> & R & L).
  rewrite bind_ok. cbn beta iota. eexists m', _. split; [reflexivity|]. split; [done|].
  intros F. destruct o as [bs|]; [|done]. pose proof (le_val_fits bs) as B. by rewrite L in B.
Qed.

Lemma extract_obj_safe {A} `{SerializableOnto A} m (old : A) : Message_inv m → (0 < sizeOf old)%nat →
  ∃ m' x k, extract_obj m old false = Ok (m', x, k) ∧ read m m'
  ∧ (x = old ∨ ∃ y, valid y ∧ x = merge old y).
Proof.
  intros Hi Hpos. pose proof (length_content m Hi) as Lc. pose proof Hi as [Hc Hp].
  destruct (Nat.leb_spec (mcurr m + sizeOf old) (msize m)) as [Hle|Hle].
  - destruct (wire_onto old (take (sizeOf old) (drop (mcurr m) (content m)))) as (y & V & W & S);
      [rewrite length_take, length_drop; lia|].
    destruct (extract_obj_spec m y old (drop (sizeOf old) (drop (mcurr m) (content m))) Hi V)
      as (m' & E & I & C & P & Hh); [done|lia|by rewrite W, take_drop|].
    eexists m', _, _. split; [exact E|]. split; [|eauto]. split; [done|]. split; [done|].
    rewrite <- (length_content m'), C by done. lia.
  - exists m, old, 0%nat. split; [|split; [by apply read_refl|by left]].
    unfold extract_obj. cbv zeta. by destruct (Nat.ltb_spec (msize m) (mcurr m + sizeOf old)); [|lia].
Qed.

(** Objects at the end of a message *)
Lemma extract_obj_end_spec {A} `{SerializableLaws A} m (x old : A) :
  Message_inv m → valid x → sizeOf old = sizeOf x → (0 < sizeOf x)%nat → (mcurr m + sizeOf x ≤ msize m)%nat →
  drop (msize m - sizeOf x) (content m) = wire x →
  ∃ m', extract_obj m old true = Ok (m', merge old x, sizeOf x)
  ∧ Message_inv m' ∧ content m' = take (msize m - sizeOf x) (content m)
  ∧ msize m' = (msize m - sizeOf x)%nat ∧ mcurr m' = mcurr m ∧ same_head m' m.
Proof.
  intros Hi Hv Hs Hpos Hle Hd. pose proof (length_content m Hi) as Hl. pose proof Hi as [Hc Hp].
  unfold extract_obj. rewrite Hs. destruct (Nat.ltb_spec (msize m) (mcurr m + sizeOf x)); [lia|]. cbn zeta.
  cbn [mdata mcurr with_buf]. rewrite (data_split m), drop_app_le, Hd by lia.
  rewrite deserialize_wire, bind_ok by (done || lia). cbn beta iota.
  destruct (Nat.eqb_spec (sizeOf x) 0); [lia|]. rewrite <- (data_split m).
  eexists. split; [reflexivity|]. splits; try done; [split; cbn; lia|].
  unfold content. cbn. rewrite take_take. f_equal. lia.
Qed.

Lemma extract_obj_end_safe {A} `{SerializableOnto A} m (old : A) : Message_inv m → (0 < sizeOf old)%nat →
  ∃ m' x k, extract_obj m old true = Ok (m', x, k) ∧ read m m'
  ∧ (x = old ∨ ∃ y, valid y ∧ x = merge old y).
Proof.
  intros Hi Hpos. pose proof (length_content m Hi) as Lc.
  destruct (Nat.leb_spec (mcurr m + sizeOf old) (msize m)) as [Hle|Hle].
  - destruct (wire_onto old (drop (msize m - sizeOf old) (content m))) as (y & V & W & S); [rewrite length_drop; lia|].
    destruct (extract_obj_end_spec m y old Hi V) as (m' & E & I & C & Ps & P & Hh); [done|lia|lia|by rewrite S, W|].
    eexists m', _, _. split; [exact E|]. split; [|eauto]. split; [done|]. split; [done|lia].
  - exists m, old, 0%nat. split; [|split; [by apply read_refl|by left]].
    unfold extract_obj. cbv zeta. by destruct (Nat.ltb_spec (msize m) (mcurr m + sizeOf old)); [|lia].
Qed.

(** *** Writing to a message *)

Definition written (m m' : Message) : Prop := Message_inv m' ∧ same_head m' m.

Lemma written_step a b c : written a b → written b c → written a c.
Proof. intros (I1 & S1) (I2 & S2). split; [done|]. by eapply same_head_trans. Qed.

Lemma appends_written m m' bs : appends m m' bs → written m m'.
Proof. by intros (I & _ & _ & S). Qed.

Lemma store_safe m bs : Message_inv m → ∃ m' b, store m bs false = Ok (m', b) ∧ written m m'.
Proof.
  intros Hi. destruct (malloc m) eqn:E.
  - destruct (store_spec m bs false Hi E) as (m' & -> & A). exists m', true. split; [done|].
    by eapply appends_written.
  - exists m, false. unfold store. rewrite E. split; [done|]. split; [done|apply same_head_refl].
Qed.

Lemma store_int_safe n m z : Message_inv m → ∃ m' b, store_int n m z = Ok (m', b) ∧ written m m'.
Proof. apply store_safe. Qed.

Lemma store_obj_safe {A} `{SerializableLaws A} m (x : A) : Message_inv m →
  ∃ m' b, store_obj m x = Ok (m', b) ∧ written m m'.
Proof.
  intros Hi. destruct (store_obj_spec m x Hi) as (m' & -> & A'). exists m', true. split; [done|].
  by eapply appends_written.
Qed.

Lemma addTarget_inv m t : Message_inv m → Message_inv (addTarget m t).
Proof. unfold addTarget. by destruct (memb _ _). Qed.

Lemma addTargets_inv m ts : Message_inv m → Message_inv (foldl addTarget m ts).
Proof. revert m. induction ts as [|t ts IH]; intros m I; [done|]. by apply IH, addTarget_inv. Qed.

(** Reading and writing a message: the next step is run, whatever the bytes are. *)
Ltac step_store W :=
  match goal with
  | |- context [store_int ?n ?m ?z] =>
      destruct (store_int_safe n m z) as (? & ? & -> & W & _); [try done|]
  | |- context [store_obj ?m ?x] =>
      destruct (store_obj_safe m x) as (? & ? & -> & W & _); [try done|]
  | |- context [store ?m ?bs false] =>
      destruct (store_safe m bs) as (? & ? & -> & W & _); [try done|]
  end; [..|rewrite bind_ok; cbn beta iota].

Ltac step_read R :=
  match goal with
  | |- context [extract_int ?n ?m ?old false] =>
      destruct (extract_int_safe n m old false) as (? & ? & -> & (R & _) & _); [done|lia|]
  | |- context [extract_int ?n ?m ?old true] =>
      destruct (extract_int_safe n m old true) as (? & ? & -> & (R & _) & _); [done|lia|]
  | |- context [extract_obj ?m ?old false] =>
      destruct (extract_obj_safe m old) as (? & ? & ? & -> & (R & _) & _); [done|vm_compute; lia|]
  | |- context [extract_obj ?m ?old true] =>
      destruct (extract_obj_end_safe m old) as (? & ? & ? & -> & (R & _) & _); [done|vm_compute; lia|]
  end; rewrite bind_ok; cbn beta iota.
