(* ===== verification/Handlers.v ===== *)
(** What the handlers of a VAST node share: message groups and types (common/VAST.h,
    common/MessageHandler.h), node states (common/VASTTypes.h) and what one handler sees of
    another. *)

From S2P Require Import Prelude Bytes StdMap Float Serial Subscription Message VastBuffer NetManager.
From S2P Require Import NetInterface VastNet VastJoin MessageQueue.
Local Open Scope Z_scope.

Definition MSG_GROUP_VAST_RELAY : Z := 1.
Definition MSG_GROUP_VAST_MATCHER : Z := 2.
Definition MSG_GROUP_VAST_CLIENT : Z := 3.
Definition ID_GROUP_VON_VAST : Z := 1.

Inductive NodeState := ABSENT | QUERYING | JOINING | JOINING_2 | JOINING_3 | JOINED.

#[export] Instance NodeState_eq_dec : EqDecision NodeState.
Proof. solve_decision. Defined.

(** [VAST_Message], numbered from [VON_MAX_MSG] *)
Inductive VAST_Message :=
  | MATCHER_CANDIDATE | MATCHER_INIT | MATCHER_ALIVE | MATCHER_WORLD_INFO | NOTIFY_MATCHER
  | NOTIFY_CLOSEST | JOIN | LEAVE | PUBLISH | SUBSCRIBE | SUBSCRIBE_R | SUBSCRIBE_TRANSFER
  | SUBSCRIBE_UPDATE | MOVE | MOVE_F | NEIGHBOR | NEIGHBOR_REQUEST | SEND | ORIGIN_MESSAGE
  | MESSAGE | SUBSCRIBE_NOTIFY | STAT | SYNC_CLOCK
  | REQUEST | RELAY | PING | PONG | PONG_2 | RELAY_QUERY | RELAY_QUERY_R | RELAY_JOIN
  | RELAY_JOIN_R.

Definition VON_MAX_MSG : Z := 30.

Definition VAST_Messages : list VAST_Message :=
  [MATCHER_CANDIDATE; MATCHER_INIT; MATCHER_ALIVE; MATCHER_WORLD_INFO; NOTIFY_MATCHER;
   NOTIFY_CLOSEST; JOIN; LEAVE; PUBLISH; SUBSCRIBE; SUBSCRIBE_R; SUBSCRIBE_TRANSFER;
   SUBSCRIBE_UPDATE; MOVE; MOVE_F; NEIGHBOR; NEIGHBOR_REQUEST; SEND; ORIGIN_MESSAGE;
   MESSAGE; SUBSCRIBE_NOTIFY; STAT; SYNC_CLOCK;
   REQUEST; RELAY; PING; PONG; PONG_2; RELAY_QUERY; RELAY_QUERY_R; RELAY_JOIN;
   RELAY_JOIN_R].

Definition code (t : VAST_Message) : Z :=
  VON_MAX_MSG + match t with
  | MATCHER_CANDIDATE => 0 | MATCHER_INIT => 1 | MATCHER_ALIVE => 2 | MATCHER_WORLD_INFO => 3
  | NOTIFY_MATCHER => 4 | NOTIFY_CLOSEST => 5 | JOIN => 6 | LEAVE => 7 | PUBLISH => 8
  | SUBSCRIBE => 9 | SUBSCRIBE_R => 10 | SUBSCRIBE_TRANSFER => 11 | SUBSCRIBE_UPDATE => 12
  | MOVE => 13 | MOVE_F => 14 | NEIGHBOR => 15 | NEIGHBOR_REQUEST => 16 | SEND => 17
  | ORIGIN_MESSAGE => 18 | MESSAGE => 19 | SUBSCRIBE_NOTIFY => 20 | STAT => 21
  | SYNC_CLOCK => 22 | REQUEST => 23 | RELAY => 24 | PING => 25 | PONG => 26 | PONG_2 => 27
  | RELAY_QUERY => 28 | RELAY_QUERY_R => 29 | RELAY_JOIN => 30 | RELAY_JOIN_R => 31
  end.

(** The case of a [switch] that a message type takes; [None] is [default]. *)
Definition of_code (z : Z) : option VAST_Message :=
  if z <? VON_MAX_MSG then None else VAST_Messages !! Z.to_nat (z - VON_MAX_MSG).

Lemma of_code_code t : of_code (code t) = Some t.
Proof. by destruct t. Qed.

(** Application types are kept in the upper 8 bits. *)
Definition VAST_MSGTYPE (x : Z) : Z := Z.land 0x0FF x.
Definition APP_MSGTYPE (x : Z) : Z := Z.shiftr x 8.
Definition app_type (app : Z) (t : VAST_Message) : Z := u16 (Z.lor (Z.shiftl app 8) (code t)).

(** A fresh message of type [t] *)
Definition new_msg (t : VAST_Message) : Message := Message_new (code t) 0.

(** What the client reads of the relay of its node: [isJoined], [getRelayID],
    [getClientSize]. *)
Record relay_view := mkRelayView { rv_joined : bool; rv_id : Z; rv_clients : Z }.

Definition Node_init : Node := mkNode 0 0 Area_clear Addr_null.

(** [NeighborUpdateStatus] as an [int] *)
Definition status_code (s : NeighborUpdateStatus) : Z :=
  match s with INSERTED => 1 | DELETED => 2 | UNCHANGED => 3 | UPDATED => 4 end.
Definition of_status_code (z : Z) : option NeighborUpdateStatus :=
  if z =? 1 then Some INSERTED else if z =? 2 then Some DELETED
  else if z =? 3 then Some UNCHANGED else if z =? 4 then Some UPDATED else None.

Section clock.
Context {N : Type} `{NetManager N}.
Implicit Types q : mqueue N.

(** [_net->getTimestamp ()], [_net->getTimestampPerSecond ()], [_net->getHostID ()] *)
Definition timestamp (now : Z) q : Z := VN_getTimestamp (net q) now.
Definition per_second q : Z := perSecond (manager (net q)).
Definition hostID q : Z := nm_getID (manager (net q)).
End clock.

Lemma VAST_MSGTYPE_app app t : VAST_MSGTYPE (app_type app t) = code t.
Proof.
  unfold VAST_MSGTYPE, app_type, wrap. change 0x0FF with (Z.ones 8).
  rewrite <- Z.land_ones by lia.
  rewrite Z.land_comm, <- Z.land_assoc. change (Z.land (Z.ones 16) (Z.ones 8)) with (Z.ones 8).
  rewrite Z.land_lor_distr_l, !Z.land_ones, Z.shiftl_mul_pow2, Z.mod_mul by lia.
  rewrite Z.lor_0_l. by destruct t.
Qed.

Lemma APP_MSGTYPE_app app t : fits 8 app → APP_MSGTYPE (app_type app t) = app.
Proof.
  intros [H0 H1]. unfold APP_MSGTYPE, app_type. rewrite wrap_id.
  - rewrite Z.shiftr_lor, Z.shiftr_shiftl_l, Z.sub_diag, Z.shiftl_0_r by lia.
    replace (Z.shiftr (code t) 8) with 0 by by destruct t. apply Z.lor_0_r.
  - assert (0 ≤ code t < 2 ^ 8) by by destruct t.
    rewrite lor_low by (done || lia). split; lia.
Qed.
