(* ===== verification/Client.v ===== *)
(** The client of a node: VAST/VASTClient.cpp and VAST/VASTClient.h. It joins a world
    through the gateway, subscribes at its matcher, publishes and moves through it, keeps
    the list of its neighbors, and switches to a backup matcher when its own fails.

    The client is a handler of the message queue; it sends through the queue, which is
    passed to its operations. The relay of the node is only read ([relay_view]). [_recv_buf]
    is never used. Logging, [getStat] and the texts of [MSGTYPEtoString] are left out.
    The measurement of latencies ([VAST_RECORD_LATENCY]) is enabled in Config.h. *)

From S2P Require Import Prelude Bytes StdMap Float Serial Subscription Message VastBuffer NetManager.
From S2P Require Import NetInterface VastNet MessageQueue Handlers.
Local Open Scope Z_scope.

Record VASTClient := mkClient {
  c_self : Node;
  c_state : NodeState;
  c_neighbors : list Node;
  physicals : list Node;
  logicals : list Node;
  matcher_id : Z;
  closest_id : Z;
  c_sub : Subscription;
  c_world : Z;
  next_periodic : Z;
  timeout_join : Z;
  timeout_subscribe : Z;
  last_update : list (Z * Z);
  gateway : Addr;
  msglist : list Message;
  lastmsg : option Message;
  latency : list (Z * StatType) }.

(** The members the constructor leaves unset: [_sub.world_id]. *)
Definition VASTClient_new (junk_world : Z) : VASTClient :=
  mkClient Node_init ABSENT [] [] [] NET_ID_UNASSIGNED NET_ID_UNASSIGNED (Sub_init junk_world) 0
    0 0 0 [] Addr_null [] None [].

(** *** Writing members *)

Definition with_self c (n : Node) := mkClient n (c_state c) (c_neighbors c) (physicals c)
  (logicals c) (matcher_id c) (closest_id c) (c_sub c) (c_world c) (next_periodic c)
  (timeout_join c) (timeout_subscribe c) (last_update c) (gateway c) (msglist c) (lastmsg c)
  (latency c).
Definition with_state c s := mkClient (c_self c) s (c_neighbors c) (physicals c)
  (logicals c) (matcher_id c) (closest_id c) (c_sub c) (c_world c) (next_periodic c)
  (timeout_join c) (timeout_subscribe c) (last_update c) (gateway c) (msglist c) (lastmsg c)
  (latency c).
Definition with_known c ns lu := mkClient (c_self c) (c_state c) ns (physicals c)
  (logicals c) (matcher_id c) (closest_id c) (c_sub c) (c_world c) (next_periodic c)
  (timeout_join c) (timeout_subscribe c) lu (gateway c) (msglist c) (lastmsg c) (latency c).
Definition with_nodes c ph lo := mkClient (c_self c) (c_state c) (c_neighbors c) ph
  lo (matcher_id c) (closest_id c) (c_sub c) (c_world c) (next_periodic c)
  (timeout_join c) (timeout_subscribe c) (last_update c) (gateway c) (msglist c) (lastmsg c)
  (latency c).
Definition with_matchers c m cl := mkClient (c_self c) (c_state c) (c_neighbors c) (physicals c)
  (logicals c) m cl (c_sub c) (c_world c) (next_periodic c)
  (timeout_join c) (timeout_subscribe c) (last_update c) (gateway c) (msglist c) (lastmsg c)
  (latency c).
Definition with_sub c s := mkClient (c_self c) (c_state c) (c_neighbors c) (physicals c)
  (logicals c) (matcher_id c) (closest_id c) s (c_world c) (next_periodic c)
  (timeout_join c) (timeout_subscribe c) (last_update c) (gateway c) (msglist c) (lastmsg c)
  (latency c).
Definition with_gateway c g w := mkClient (c_self c) (c_state c) (c_neighbors c) (physicals c)
  (logicals c) (matcher_id c) (closest_id c) (c_sub c) w (next_periodic c)
  (timeout_join c) (timeout_subscribe c) (last_update c) g (msglist c) (lastmsg c)
  (latency c).
Definition with_timeouts c p j s := mkClient (c_self c) (c_state c) (c_neighbors c) (physicals c)
  (logicals c) (matcher_id c) (closest_id c) (c_sub c) (c_world c) p j s (last_update c)
  (gateway c) (msglist c) (lastmsg c) (latency c).
Definition with_msgs c l last := mkClient (c_self c) (c_state c) (c_neighbors c) (physicals c)
  (logicals c) (matcher_id c) (closest_id c) (c_sub c) (c_world c) (next_periodic c)
  (timeout_join c) (timeout_subscribe c) (last_update c) (gateway c) l last (latency c).
Definition with_latency c l := mkClient (c_self c) (c_state c) (c_neighbors c) (physicals c)
  (logicals c) (matcher_id c) (closest_id c) (c_sub c) (c_world c) (next_periodic c)
  (timeout_join c) (timeout_subscribe c) (last_update c) (gateway c) (msglist c) (lastmsg c) l.

Definition set_active (s : Subscription) (b : bool) : Subscription :=
  mkSub (sub_host_id s) (sub_id s) (layer s) (sub_aoi s) (relay s) b (dirty s) (in_region s)
        (sub_time s) (world_id s) (neighbor_states s) (neighbors s).
Definition set_aoi (s : Subscription) (a : Area) (l : Z) : Subscription :=
  mkSub (sub_host_id s) (sub_id s) l a (relay s) (active s) (dirty s) (in_region s)
        (sub_time s) (world_id s) (neighbor_states s) (neighbors s).
Definition set_sub_id (s : Subscription) (id : Z) : Subscription :=
  mkSub (sub_host_id s) id (layer s) (sub_aoi s) (relay s) (active s) (dirty s) (in_region s)
        (sub_time s) (world_id s) (neighbor_states s) (neighbors s).
Definition set_host (s : Subscription) (h : Z) (r : Addr) : Subscription :=
  mkSub h (sub_id s) (layer s) (sub_aoi s) r (active s) (dirty s) (in_region s)
        (sub_time s) (world_id s) (neighbor_states s) (neighbors s).

Definition set_time (c : VASTClient) (s : Z) : VASTClient :=
  with_timeouts c (next_periodic c) (timeout_join c) s.
Definition deactivate (c : VASTClient) : VASTClient := with_sub c (set_active (c_sub c) false).

(** common/timeouts.h, [ms] being [g_MS_PER_TIMESTEP] ([int] division) *)
Definition TIMEOUT_JOIN (ms : Z) : Z := Z.quot (500 * ms) 1000.
Definition TIMEOUT_SUBSCRIBE (ms : Z) : Z := Z.quot (500 * ms) 1000.
Definition TIMEOUT_REMOVE_GHOST (ms : Z) : Z := Z.quot (500 * ms) 1000.

(** *** Local operations *)

(** [handleMatcherDisconnect ()] *)
Definition handleMatcherDisconnect (c : VASTClient) : VASTClient :=
  set_time (deactivate (with_matchers c (closest_id c) 0)) 1.

(** [update (...)] on the first neighbor with this id; [None] if there is none. *)
Fixpoint update_neighbor (id : Z) (f : Node → Node) (l : list Node) : option (list Node) :=
  match l with
  | [] => None
  | n :: l => if node_id n =? id then Some (f n :: l)
              else match update_neighbor id f l with
                   | Some l => Some (n :: l) | None => None end
  end.

(** [addNeighbor (node, now)] *)
Definition VC_addNeighbor (c : VASTClient) (node : Node) (now : Z) : VASTClient :=
  let ns := match update_neighbor (node_id node) (λ n, Node_update n node) (c_neighbors c) with
            | Some ns => ns
            | None => c_neighbors c ++ [node]
            end in
  with_known c ns (set (node_id node) now (last_update c)).

Fixpoint remove_first (id : Z) (l : list Node) : option (list Node) :=
  match l with
  | [] => None
  | n :: l => if node_id n =? id then Some l
              else match remove_first id l with Some l => Some (n :: l) | None => None end
  end.

(** [removeNeighbor (id)] *)
Definition removeNeighbor (c : VASTClient) (id : Z) : VASTClient * bool :=
  match remove_first id (c_neighbors c) with
  | Some ns => (with_known c ns (erase id (last_update c)), true)
  | None => (c, false)
  end.

(** Reading [_last_update[id]] inserts 0 when there is no entry. *)
Definition touch (c : VASTClient) (id : Z) : VASTClient :=
  if has id (last_update c) then c else with_known c (c_neighbors c) (set id 0 (last_update c)).

(** The first loop of [removeGhosts]: the ids without a recent update. *)
Fixpoint find_ghosts (c : VASTClient) (now timeout : Z) (l : list Node) : VASTClient * list Z :=
  match l with
  | [] => (c, [])
  | n :: l =>
      let id := node_id n in
      let c := touch c id in
      let last := default 0 (find id (last_update c)) in
      let '(c, ghosts) := find_ghosts c now timeout l in
      (c, if timeout <=? u64 (now - last) then id :: ghosts else ghosts)
  end.

(** The second loop; the log entry reads [_last_update] after the removal. *)
Definition remove_ghost (c : VASTClient) (id : Z) : VASTClient :=
  if id =? sub_id (c_sub c) then handleMatcherDisconnect (touch c id)
  else touch (fst (removeNeighbor c id)) id.

(** [removeGhosts ()], [now] being the timestamp and [tps] the timestamps per second *)
Definition removeGhosts (c : VASTClient) (now ms tps : Z) : VASTClient :=
  if negb (active (c_sub c)) then c else
  let timeout := u64 (TIMEOUT_REMOVE_GHOST ms * tps) in
  let '(c, ghosts) := find_ghosts c now timeout (c_neighbors c) in
  foldl remove_ghost c ghosts.

(** One latency in [stat] *)
Definition record_duration (s : StatType) (duration : Z) : StatType :=
  if duration =? 0 then s else
  mkStat (if duration <? minimum s then duration else minimum s)
         (if maximum s <? duration then duration else maximum s)
         (u64 (total s + duration)) (u64 (num_records s + 1)) (average s).

(** [recordLatency (msgtype, sendtime)], [now] being the timestamp *)
Definition recordLatency (c : VASTClient) (now msgtype sendtime : Z) : VASTClient :=
  let s := default Stat_reset (find msgtype (latency c)) in
  with_latency c (set msgtype (record_duration s (u64 (now - sendtime))) (latency c)).

(** [getMessageLatency (msgtype)] *)
Definition getMessageLatency (c : VASTClient) (msgtype : Z) : VASTClient * option StatType :=
  if msgtype =? 0 then (with_latency c [], None) else
  match find msgtype (latency c) with
  | None => (c, None)
  | Some s => let s := calculateAverage s in
              (with_latency c (set msgtype s (latency c)), Some s)
  end.

(** [receive ()] *)
Definition VC_receive (c : VASTClient) : VASTClient * option Message :=
  match msglist c with
  | [] => (with_msgs c [] None, None)
  | m :: l => (with_msgs c l (Some m), Some m)
  end.

(** [storeMessage (msg)] *)
Definition storeMessage (c : VASTClient) (msg : Message) : outcome VASTClient :=
  m ← Message_copy msg; Ok (with_msgs c (msglist c ++ [m]) (lastmsg c)).

Definition VC_isJoined (c : VASTClient) : bool := bool_decide (c_state c = JOINED).

Definition getSubscriptionID (c : VASTClient) : Z :=
  if negb (active (c_sub c)) then NET_ID_UNASSIGNED else sub_id (c_sub c).

(** [getLogicalNeighbors ()]: the neighbors' hosts, once each *)
Fixpoint unique_hosts (seen : list Z) (l : list Node) : list Node :=
  match l with
  | [] => []
  | n :: l =>
      let h := host_id (node_addr n) in
      if memb h seen then unique_hosts seen l
      else mkNode h (node_time n) (node_aoi n) (node_addr n) :: unique_hosts (h :: seen) l
  end.

Definition getLogicalNeighbors (c : VASTClient) : VASTClient * list Node :=
  let l := unique_hosts [] (c_neighbors c) in (with_nodes c (physicals c) l, l).

(** *** Operations that send *)

(** Local variables that the code leaves uninitialised when a message is too short. *)
Record uninit := mkUninit {
  junk_id : Z; junk_status : list byte; junk_time : Z; junk_size : Z }.

Section client.
Context {N : Type} `{NetManager N} (junk : uninit).
Implicit Types (q : mqueue N) (c : VASTClient).

(** A target of [sendMatcherMessage] that was not reached *)
Definition note_failed (s : VASTClient * bool) (id : Z) : VASTClient * bool :=
  let '(c, success) := s in
  if id =? matcher_id c then (c, false)
  else if id =? closest_id c then (with_matchers c (matcher_id c) 0, success)
  else (c, success).

(** [sendMatcherMessage (msg, priority, failed)]; [failed] is what the vector holds before
    the call. *)
Definition sendMatcherMessage (now : Z) q c (msg : Message) (prio : Z) (failed : list Z)
    : outcome (mqueue N * VASTClient * Message * list Z * bool) :=
  let msg := set_priority msg (if negb (prio =? 0) then prio else 1) in
  let msg := addTarget (set_group msg MSG_GROUP_VAST_MATCHER) (matcher_id c) in
  '(q, msg, new, _) ← handler_sendMessage now q MSG_GROUP_VAST_CLIENT msg;
  let failed := failed ++ new in
  let '(c, success) := foldl note_failed (c, true) failed in
  Ok (q, if success then c else handleMatcherDisconnect c, msg, failed, success).

(** [sendGatewayMessage (msg, msggroup)] *)
Definition sendGatewayMessage (now : Z) q c (msg : Message) (group : Z)
    : outcome (mqueue N * Message * bool) :=
  if host_id (gateway c) =? 0 then Ok (q, msg, false) else
  let msg := addTarget (set_group (set_priority msg 1) group) (host_id (gateway c)) in
  let q := if negb (connected (manager (net q)) (host_id (gateway c)))
           then notifyMapping q (host_id (gateway c)) (gateway c) else q in
  '(q, msg, _, k) ← handler_sendMessage now q MSG_GROUP_VAST_CLIENT msg;
  Ok (q, msg, 0 <? k).

(** [join (gatewayIP, worldID)] *)
Definition VC_join (now ms : Z) q (rv : relay_view) c (gatewayIP : IPaddr) (worldID : Z)
    : outcome (mqueue N * VASTClient * bool) :=
  let gw := validateIPAddress (net q) gatewayIP in
  let c := with_gateway c (Addr_make (resolveHostID gw) gw) worldID in
  let c := with_timeouts c (next_periodic c)
             (u64 (timestamp now q + TIMEOUT_JOIN ms * per_second q)) (timeout_subscribe c) in
  if negb (rv_joined rv) then Ok (q, c, false) else
  '(msg, _) ← store_int 2 (new_msg JOIN) (c_world c);
  let c := with_state c JOINING in
  '(q, _, ok) ← sendGatewayMessage now q c msg MSG_GROUP_VAST_MATCHER;
  Ok (q, c, ok).

(** [leave ()] *)
Definition VC_leave (now : Z) q c : outcome (mqueue N * VASTClient) :=
  if bool_decide (c_state c = ABSENT) then Ok (q, c) else
  '(q, c, msg, _, _) ← sendMatcherMessage now q c (new_msg LEAVE) 0 [];
  '(msg, _) ← store_int 2 (clear msg (code STAT) 0 3) 2;
  '(q, _, _) ← sendGatewayMessage now q c msg MSG_GROUP_VAST_MATCHER;
  Ok (q, with_state (set_time c 0) ABSENT).

(** [subscribe (area, layer)] *)
Definition VC_subscribe (now ms : Z) q (rv : relay_view) c (area : Area) (layer : Z)
    : outcome (mqueue N * VASTClient * bool) :=
  let c := set_time c (u64 (timestamp now q + TIMEOUT_SUBSCRIBE ms * per_second q)) in
  let '(q, c) :=
    if sub_id (c_sub c) =? NET_ID_UNASSIGNED
    then let '(v, id) := getUniqueID (net q) ID_GROUP_VON_VAST in
         (with_net q v, with_sub c (set_sub_id (c_sub c) id))
    else (q, c) in
  let c := with_sub c (set_aoi (c_sub c) area layer) in
  if negb (bool_decide (c_state c = JOINED)) || negb (rv_joined rv) then Ok (q, c, false) else
  let c := with_sub c (set_active (set_host (c_sub c) (hostID q) (VN_getAddress (net q) (rv_id rv)))
                         false) in
  '(msg, _) ← store_obj (new_msg SUBSCRIBE) (c_sub c);
  '(q, c, _, _, ok) ← sendMatcherMessage now q c msg 0 [];
  Ok (q, c, ok).

(** [publish (area, layer, message)] *)
Definition VC_publish (now : Z) q c (area : Area) (layer : Z) (message : Message)
    : outcome (mqueue N * VASTClient * bool) :=
  if negb (bool_decide (c_state c = JOINED)) then Ok (q, c, false) else
  msg ← Message_copy message;
  let msg := set_type msg (app_type (msgtype msg) PUBLISH) in
  '(msg, _) ← store_int 8 msg (timestamp now q);
  '(msg, _) ← store_obj msg area;
  '(msg, _) ← store_int 2 msg layer;
  '(q, c, _, _, ok) ← sendMatcherMessage now q c msg 0 [];
  Ok (q, c, ok).

(** [VONPosition] *)
Definition position_bytes (p : Position) : list byte :=
  le_bytes 4 (pos_x p) ++ le_bytes 4 (pos_y p).

(** [move (subID, aoi, update_only)]: the area returned, [None] for [NULL] *)
Definition VC_move (now : Z) q c (subID : Z) (aoi : Area) (update_only : bool)
    : outcome (mqueue N * VASTClient * option Area) :=
  if negb (active (c_sub c)) then Ok (q, c, None) else
  if negb (subID =? sub_id (c_sub c)) then Ok (q, set_time (deactivate c) 1, None) else
  if negb (bool_decide (c_state c = JOINED)) then Ok (q, c, Some (sub_aoi (c_sub c))) else
  let prev := sub_aoi (c_sub c) in
  let prev := mkArea (center aoi) (radius prev) (height prev) in
  '(msg, _) ← store_int 8 (new_msg MOVE) subID;
  '(msg, _) ← store_int 8 msg (timestamp now q);
  '(msg, _) ← store msg (position_bytes (center aoi)) false;
  '(msg, prev) ←
    (if negb (Area_eqb prev aoi) then
       '(msg, _) ← store (set_type msg (code MOVE_F)) (le_bytes 2 (radius aoi)) false;
       '(msg, _) ← store msg (le_bytes 2 (height aoi)) false;
       Ok (msg, aoi)
     else Ok (msg, prev));
  let c := with_sub c (set_aoi (c_sub c) prev (layer (c_sub c))) in
  let msg := if negb (closest_id c =? NET_ID_UNASSIGNED) then addTarget msg (closest_id c) else msg in
  '(q, c) ←
    (if negb update_only then
       '(q, c, _, _, _) ← sendMatcherMessage now q c msg 3 [];
       Ok (q, c)
     else Ok (q, c));
  let self := c_self c in
  Ok (q, with_self c (mkNode (node_id self) (node_time self) (sub_aoi (c_sub c)) (node_addr self)),
      Some (sub_aoi (c_sub c))).

Fixpoint store_ids (msg : Message) (ids : list Z) : outcome Message :=
  match ids with
  | [] => Ok msg
  | id :: ids => '(msg, _) ← store_int 8 msg id; store_ids msg ids
  end.

(** [send (message, failed)]: the failed targets (behind those [failed] holds already) and
    the number returned *)
Definition VC_send (now : Z) q c (message : Message) (failed : list Z)
    : outcome (mqueue N * VASTClient * list Z * nat) :=
  if negb (bool_decide (c_state c = JOINED)) then Ok (q, c, failed, 0%nat) else
  msg ← Message_copy message;
  let msg := if from msg =? 0 then set_from msg (sub_id (c_sub c)) else msg in
  '(msg, _) ← store_int 8 msg (timestamp now q);
  let n := u8 (Z.of_nat (length (targets msg))) in
  msg ← store_ids msg (take (Z.to_nat n) (targets msg));
  '(msg, _) ← store_int 1 msg n;
  let msg := set_type (with_targets msg []) (app_type (msgtype msg) SEND) in
  '(q, c, _, failed, success) ← sendMatcherMessage now q c msg (priority msg) failed;
  Ok (q, c, failed, if success : bool then length (targets message) else 0%nat).

(** [reportGateway (message)] and [reportOrigin (message)] *)
Definition reportGateway (now : Z) q c (message : Message) : outcome (mqueue N * bool) :=
  if negb (bool_decide (c_state c = JOINED)) then Ok (q, false) else
  msg ← Message_copy message;
  let msg := set_type (with_targets msg []) (app_type (msgtype msg) MESSAGE) in
  '(q, _, ok) ← sendGatewayMessage now q c msg MSG_GROUP_VAST_CLIENT;
  Ok (q, ok).

Definition reportOrigin (now : Z) q c (message : Message)
    : outcome (mqueue N * VASTClient * bool) :=
  if negb (bool_decide (c_state c = JOINED)) then Ok (q, c, false) else
  msg ← Message_copy message;
  let msg := set_type (with_targets msg []) (app_type (msgtype msg) ORIGIN_MESSAGE) in
  '(q, c, _, _, ok) ← sendMatcherMessage now q c msg 0 [];
  Ok (q, c, ok).

(** [getPhysicalNeighbors ()] *)
Definition getPhysicalNeighbors q c : VASTClient * list Node :=
  let l := (λ e, mkNode (host e) 0 Area_clear (Addr_make (host e) e)) <$> entries (net q) in
  (with_nodes c l (logicals c), l).

(** [requestNeighbor (id)] *)
Definition requestNeighbor (now : Z) q c (id : Z) : outcome (mqueue N * VASTClient * bool) :=
  '(msg, _) ← store_int 8 (new_msg NEIGHBOR_REQUEST) (sub_id (c_sub c));
  '(msg, _) ← store_int 8 msg id;
  '(q, c, _, _, ok) ← sendMatcherMessage now q c msg 0 [];
  Ok (q, c, ok).

(** [initHandler ()] *)
Definition VC_initHandler q c : mqueue N * VASTClient :=
  (q, with_self c (mkNode (hostID q) (node_time (c_self c)) (node_aoi (c_self c))
                      (getAddress (manager (net q))))).

(** *** Handling messages *)

(** [SUBSCRIBE_R] *)
Definition handle_subscribe_r (now : Z) q c (msg : Message)
    : outcome (mqueue N * VASTClient * Message) :=
  if active (c_sub c) then Ok (q, c, msg) else
  '(msg, sub_no, _) ← extract_int 8 msg (junk_id junk) false;
  '(msg, addr, _) ← extract_obj msg Addr_null false;
  let c := with_sub c (set_active (set_sub_id (c_sub c) sub_no) true) in
  let c := with_known c (c_neighbors c) (set sub_no (timestamp now q) (last_update c)) in
  let self := c_self c in
  let c := with_self c (mkNode (node_id self) (node_time self) (sub_aoi (c_sub c)) (node_addr self)) in
  let '(q, c) :=
    if negb (host_id addr =? matcher_id c)
    then (notifyMapping q (host_id addr) addr, with_matchers c (host_id addr) (closest_id c))
    else (q, c) in
  '(m, _) ← store_int 2 (new_msg STAT) 1;
  '(q, m, _) ← sendGatewayMessage now q c m MSG_GROUP_VAST_MATCHER;
  '(m, _) ← store_int 8 (clear m (code SYNC_CLOCK) 0 3) (timestamp now q);
  '(q, _, _) ← sendGatewayMessage now q c m MSG_GROUP_VAST_MATCHER;
  Ok (q, c, msg).

(** [NOTIFY_MATCHER] *)
Definition handle_notify_matcher q c (msg : Message)
    : outcome (mqueue N * VASTClient * Message) :=
  '(msg, addr, _) ← extract_obj msg Addr_null false;
  let '(q, c) :=
    if negb (host_id addr =? matcher_id c)
    then (notifyMapping q (host_id addr) addr, with_matchers c (host_id addr) (matcher_id c))
    else (q, c) in
  Ok (q, if bool_decide (c_state c = JOINING) then with_state c JOINED else c, msg).

(** [NOTIFY_CLOSEST] *)
Definition handle_notify_closest q c (msg : Message)
    : outcome (mqueue N * VASTClient * Message) :=
  if from msg =? matcher_id c then
    '(msg, addr, _) ← extract_obj msg Addr_null false;
    Ok (notifyMapping q (host_id addr) addr, with_matchers c (matcher_id c) (host_id addr), msg)
  else Ok (q, c, msg).

(** The variables that live through the loop of [NEIGHBOR] *)
Record neighbor_vars := mkNV {
  nv_id : Z; nv_status : list byte; nv_node : Node; nv_aoi : Area; nv_time : Z }.

(** [UPDATED] *)
Definition neighbor_updated (now : Z) q c (id time : Z) (aoi : Area)
    : outcome (mqueue N * VASTClient) :=
  let c := recordLatency c (timestamp now q) (code MOVE) time in
  match update_neighbor id (λ n, mkNode (node_id n) time aoi (node_addr n)) (c_neighbors c) with
  | Some ns => Ok (q, with_known c ns (set id (timestamp now q) (last_update c)))
  | None => '(q, c, _) ← requestNeighbor now q c id; Ok (q, c)
  end.

(** A turn of the loop *)
Definition neighbor_turn (now : Z) q c (msg : Message) (nv : neighbor_vars)
    : outcome (mqueue N * VASTClient * Message * neighbor_vars) :=
  '(msg, id, _) ← extract_int 8 msg (nv_id nv) false;
  '(msg, st, _) ← extract msg 4 false;
  let nv := mkNV id (default (nv_status nv) st) (nv_node nv) (nv_aoi nv) (nv_time nv) in
  match of_status_code (le_val (nv_status nv)) with
  | Some INSERTED =>
      '(msg, node, _) ← extract_obj msg (nv_node nv) false;
      Ok (q, VC_addNeighbor c node (timestamp now q), msg,
          mkNV id (nv_status nv) node (nv_aoi nv) (nv_time nv))
  | Some DELETED => Ok (q, fst (removeNeighbor c id), msg, nv)
  | Some UNCHANGED =>
      Ok (q, with_known c (c_neighbors c) (set id (timestamp now q) (last_update c)), msg, nv)
  | Some UPDATED =>
      '(msg, aoi, _) ← extract_obj msg (nv_aoi nv) false;
      '(msg, time, _) ← extract_int 8 msg (nv_time nv) false;
      '(q, c) ← neighbor_updated now q c id time aoi;
      Ok (q, c, msg, mkNV id (nv_status nv) (nv_node nv) aoi time)
  | None => Ok (q, c, msg, nv)
  end.

Fixpoint neighbor_loop (n : nat) (now : Z) q c (msg : Message) (nv : neighbor_vars)
    : outcome (mqueue N * VASTClient * Message) :=
  match n with
  | O => Ok (q, c, msg)
  | S n => '(q, c, msg, nv) ← neighbor_turn now q c msg nv; neighbor_loop n now q c msg nv
  end.

(** [NEIGHBOR] *)
Definition handle_neighbor (now : Z) q c (msg : Message)
    : outcome (mqueue N * VASTClient * Message) :=
  '(msg, size, _) ← extract_int 1 msg (junk_size junk) true;
  neighbor_loop (Z.to_nat size) now q c msg
    (mkNV (junk_id junk) (junk_status junk) Node_init Area_clear (junk_time junk)).

(** [MESSAGE], [app] being the application's type *)
Definition handle_message (now app : Z) q c (msg : Message)
    : outcome (mqueue N * VASTClient * Message) :=
  '(msg, sendtime, _) ← extract_int 8 (set_type msg app) (junk_time junk) true;
  let c := recordLatency c (timestamp now q) (code PUBLISH) sendtime in
  let msg := reset msg in
  c ← storeMessage c msg;
  Ok (q, c, msg).

(** What [SYNC_CLOCK] adds to the clock: [(int)] of unsigned 64-bit differences *)
Definition clock_adjust (now sent_time gateway_time : Z) : Z :=
  let latency := u64 (now - sent_time) / 2 in
  let g := u64 (gateway_time + latency) in
  if now <=? g then to_int32 (u32 (g - now)) else - to_int32 (u32 (now - g)).

(** [SYNC_CLOCK] *)
Definition handle_sync_clock (now : Z) q c (msg : Message)
    : outcome (mqueue N * VASTClient * Message) :=
  '(msg, sent_time, _) ← extract_int 8 msg (junk_time junk) false;
  '(msg, gateway_time, _) ← extract_int 8 msg (junk_time junk) false;
  Ok (with_net q (setTimestampAdjustment (net q)
        (clock_adjust (timestamp now q) sent_time gateway_time)), c, msg).

(** [DISCONNECT] *)
Definition handle_disconnect (rv : relay_view) c (fr : Z) : VASTClient :=
  if fr =? matcher_id c then handleMatcherDisconnect c
  else if (rv_id rv =? NET_ID_UNASSIGNED) || (fr =? rv_id rv)
       then set_time (deactivate c) 1 else c.

(** [handleMessage (in_msg)] *)
Definition VC_handleMessage (now : Z) (rv : relay_view) q c (msg : Message)
    : outcome (mqueue N * VASTClient * Message * bool) :=
  if bool_decide (c_state c = ABSENT) then Ok (q, c, msg, false) else
  let app := APP_MSGTYPE (msgtype msg) in
  let msg := set_type msg (VAST_MSGTYPE (msgtype msg)) in
  '(q, c, msg) ←
    match of_code (msgtype msg) with
    | Some SUBSCRIBE_R => handle_subscribe_r now q c msg
    | Some NOTIFY_MATCHER => handle_notify_matcher q c msg
    | Some NOTIFY_CLOSEST => handle_notify_closest q c msg
    | Some NEIGHBOR => handle_neighbor now q c msg
    | Some MESSAGE => handle_message now app q c msg
    | Some SYNC_CLOCK => handle_sync_clock now q c msg
    | Some _ => Ok (q, c, msg)
    | None => Ok (q, if msgtype msg =? DISCONNECT then handle_disconnect rv c (from msg) else c, msg)
    end;
  Ok (q, c, msg, true).

(** [postHandling ()] *)
Definition VC_postHandling (now ms : Z) (rv : relay_view) q c : outcome (mqueue N * VASTClient) :=
  if bool_decide (c_state c = ABSENT) then Ok (q, c) else
  let t := timestamp now q in
  '(q, c) ←
    (if matcher_id c =? NET_ID_UNASSIGNED then
       if negb (host_id (gateway c) =? 0) && (negb (timeout_join c =? 0) && (timeout_join c <=? t))
       then '(q, c, _) ← VC_join now ms q rv c (publicIP (gateway c)) (c_world c); Ok (q, c)
       else Ok (q, c)
     else if negb (active (c_sub c)) then
       if negb (timeout_subscribe c =? 0) && (timeout_subscribe c <=? t)
       then '(q, c, _) ← VC_subscribe now ms q rv c (sub_aoi (c_sub c)) (layer (c_sub c)); Ok (q, c)
       else Ok (q, c)
     else Ok (q, c));
  if next_periodic c <=? t then
    let c := with_timeouts c (u64 (t + per_second q)) (timeout_join c) (timeout_subscribe c) in
    Ok (q, removeGhosts c (timestamp now q) ms (per_second q))
  else Ok (q, c).
End client.
