(* ===== verification/ClientSafe.v ===== *)
(** The client is a safe handler: its operations end without a fault on any message, and
    keep the list of neighbors free of duplicates, each with a time of its last update. *)

From S2P Require Import Prelude Bytes StdMap Float Serial Subscription Message VastBuffer NetManager.
From S2P Require Import NetInterface VastNet VastSend MessageQueue Routing QueueSafe.
From S2P Require Import Readable Handlers Client.
Local Open Scope Z_scope.

(** *** The list of neighbors *)

Lemma update_neighbor_some id f l l' :
  (∀ n, node_id n = id → node_id (f n) = id) → update_neighbor id f l = Some l' →
  node_id <$> l' = node_id <$> l ∧ id ∈ (node_id <$> l).
Proof.
  intros Hf. revert l'. induction l as [|n l IH]; intros l'; cbn [update_neighbor]; [done|].
  destruct (Z.eqb_spec (node_id n) id) as [E|E].
  - intros [= <-]. rewrite !fmap_cons, Hf, E by done. split; [done|by left].
  - destruct (update_neighbor id f l) as [l1|]; [|done]. intros [= <-].
    destruct (IH l1 eq_refl) as [E1 Hin]. rewrite !fmap_cons, E1. split; [done|by right].
Qed.

Lemma update_neighbor_none id f l : update_neighbor id f l = None → id ∉ (node_id <$> l).
Proof.
  induction l as [|n l IH]; cbn [update_neighbor]; [by intros _ ?%elem_of_nil|].
  destruct (Z.eqb_spec (node_id n) id) as [E|E]; [done|].
  destruct (update_neighbor id f l); [done|]. intros _. rewrite fmap_cons, not_elem_of_cons.
  split; [congruence|by apply IH].
Qed.

Lemma remove_first_some id l l' : remove_first id l = Some l' →
  ∃ a n b, l = a ++ n :: b ∧ l' = a ++ b ∧ node_id n = id.
Proof.
  revert l'. induction l as [|n l IH]; intros l'; cbn [remove_first]; [done|].
  destruct (Z.eqb_spec (node_id n) id) as [E|E].
  - intros [= <-]. by exists [], n, l.
  - destruct (remove_first id l) as [l1|]; [|done]. intros [= <-].
    destruct (IH l1 eq_refl) as (a & n' & b & -> & -> & E'). by exists (n :: a), n', b.
Qed.

Lemma remove_first_none id l : remove_first id l = None → id ∉ (node_id <$> l).
Proof.
  induction l as [|n l IH]; cbn [remove_first]; [by intros _ ?%elem_of_nil|].
  destruct (Z.eqb_spec (node_id n) id) as [E|E]; [done|].
  destruct (remove_first id l); [done|]. intros _. rewrite fmap_cons, not_elem_of_cons.
  split; [congruence|by apply IH].
Qed.

Definition known_in (lu : list (Z * Z)) (n : Node) : Prop := has (node_id n) lu = true.

Record client_inv (c : VASTClient) : Prop := mk_client_inv {
  ci_nodup : NoDup (node_id <$> c_neighbors c);
  ci_known : Forall (known_in (last_update c)) (c_neighbors c);
  ci_update : ordered (last_update c);
  ci_msgs : Forall Message_inv (msglist c) }.

Lemma client_inv_same c c' : client_inv c → c_neighbors c' = c_neighbors c →
  last_update c' = last_update c → msglist c' = msglist c → client_inv c'.
Proof. intros [] E1 E2 E3. split; by rewrite ?E1, ?E2, ?E3. Qed.

Lemma known_set lu id t l : Forall (known_in lu) l → Forall (known_in (set id t lu)) l.
Proof.
  intros Hk. eapply Forall_impl; [exact Hk|]. intros n. unfold known_in. rewrite has_set.
  intros ->. by rewrite orb_true_r.
Qed.

Lemma known_ids lu l : Forall (known_in lu) l ↔ Forall (λ id, has id lu = true) (node_id <$> l).
Proof. by rewrite Forall_fmap. Qed.

Lemma new_client_inv w : client_inv (VASTClient_new w).
Proof. split; cbn; try apply ordered_nil; constructor. Qed.

(** The time of an id is noted, the neighbors' ids stay. *)
Lemma note_time_inv c ns id t : client_inv c → node_id <$> ns = node_id <$> c_neighbors c →
  client_inv (with_known c ns (set id t (last_update c))).
Proof.
  intros [D K U M] E. split; cbn; [by rewrite E| |by apply ordered_set|done].
  apply known_ids. rewrite E. by apply known_ids, known_set.
Qed.

Lemma addNeighbor_inv c node now : client_inv c → client_inv (VC_addNeighbor c node now).
Proof.
  intros I. unfold VC_addNeighbor. destruct (update_neighbor _ _ _) as [ns|] eqn:E.
  - apply update_neighbor_some in E as [E _]; [|done]. by apply note_time_inv.
  - apply update_neighbor_none in E. destruct I as [D K U M]. split; cbn; [| |by apply ordered_set|done].
    + rewrite fmap_app. apply NoDup_app. split; [done|]. split; [|apply NoDup_singleton].
      intros x Hx Hn. cbn in Hn. apply list_elem_of_singleton in Hn as ->. done.
    + apply Forall_app. split; [by apply known_set|]. constructor; [|done].
      unfold known_in. by rewrite has_set, Z.eqb_refl.
Qed.

Lemma removeNeighbor_inv c id : client_inv c → client_inv (fst (removeNeighbor c id)).
Proof.
  intros I. unfold removeNeighbor. destruct (remove_first id (c_neighbors c)) as [ns|] eqn:E; [|done].
  apply remove_first_some in E as (a & n & b & En & -> & Ei). destruct I as [D K U M].
  rewrite En, fmap_app, fmap_cons, Ei in D.
  assert (Hid : (id ∉ (node_id <$> (a ++ b))) ∧ NoDup (node_id <$> (a ++ b))).
  { rewrite <- Permutation_middle, NoDup_cons in D. by rewrite fmap_app. }
  destruct Hid as [Hid D']. split; cbn; [done| |by apply ordered_erase|done].
  rewrite En in K. apply Forall_app in K as [Ka Kb]. apply Forall_cons in Kb as [_ Kb].
  assert (Kab : Forall (known_in (last_update c)) (a ++ b)) by by apply Forall_app.
  apply Forall_forall. intros x Hx. pose proof (proj1 (Forall_forall _ _) Kab x Hx) as Hk.
  unfold known_in, has in *. rewrite find_erase_ne; [done|]. intros Ex. apply Hid.
  rewrite <- Ex. by apply list_elem_of_fmap_2.
Qed.

Lemma touch_inv c id : client_inv c → client_inv (touch c id).
Proof. intros I. unfold touch. destruct (has _ _); [done|]. by apply note_time_inv. Qed.

Lemma disconnect_inv c : client_inv c → client_inv (handleMatcherDisconnect c).
Proof. intros I. by apply (client_inv_same c). Qed.

Lemma find_ghosts_inv c now timeout l : client_inv c → client_inv (fst (find_ghosts c now timeout l)).
Proof.
  revert c. induction l as [|n l IH]; intros c I; cbn [find_ghosts]; [done|]. cbv zeta.
  specialize (IH (touch c (node_id n)) (touch_inv c _ I)).
  by destruct (find_ghosts (touch c (node_id n)) now timeout l).
Qed.

Lemma remove_ghost_inv c id : client_inv c → client_inv (remove_ghost c id).
Proof.
  intros I. unfold remove_ghost. destruct (_ =? _); [by apply disconnect_inv, touch_inv|].
  by apply touch_inv, removeNeighbor_inv.
Qed.

Lemma removeGhosts_inv c now ms tps : client_inv c → client_inv (removeGhosts c now ms tps).
Proof.
  intros I. unfold removeGhosts. destruct (negb _); [done|]. cbv zeta.
  pose proof (find_ghosts_inv c now (u64 (TIMEOUT_REMOVE_GHOST ms * tps)) (c_neighbors c) I) as I1.
  destruct (find_ghosts _ _ _ _) as [c1 ghosts]. cbn [fst] in I1. clear I.
  revert c1 I1. induction ghosts as [|g gs IH]; intros c1 I1; [done|]. cbn [foldl].
  by apply IH, remove_ghost_inv.
Qed.

Lemma recordLatency_inv c now ty t : client_inv c → client_inv (recordLatency c now ty t).
Proof. intros I. by apply (client_inv_same c). Qed.

(** *** Sending *)

Section client.
Context {N : Type} `{NetManagerLaws N} (junk : uninit).
Implicit Types (q : mqueue N) (c : VASTClient).

(** What sending changes of a client: only the choice of the matcher. *)
Record switched c c' : Prop := mk_switched {
  sw_neighbors : c_neighbors c' = c_neighbors c;
  sw_update : last_update c' = last_update c;
  sw_msgs : msglist c' = msglist c;
  sw_state : c_state c' = c_state c;
  sw_gateway : gateway c' = gateway c }.

Lemma switched_inv c c' : switched c c' → client_inv c → client_inv c'.
Proof. intros [] I. by apply (client_inv_same c). Qed.

Lemma note_failed_switched l c b : switched c (fst (foldl note_failed (c, b) l)).
Proof.
  revert c b. induction l as [|id l IH]; intros c b; [done|]. cbn [foldl]. unfold note_failed at 2.
  destruct (id =? matcher_id c); [apply IH|]. destruct (id =? closest_id c); [|apply IH].
  destruct (IH (with_matchers c (matcher_id c) 0) b). by split.
Qed.

Lemma sendMatcher_safe now q c msg prio failed : net_inv (net q) → Message_inv msg →
  ∃ q' c' msg' failed' ok, sendMatcherMessage now q c msg prio failed = Ok (q', c', msg', failed', ok)
  ∧ q_sent q q' ∧ switched c c' ∧ Message_inv msg'.
Proof.
  intros I Hm. unfold sendMatcherMessage. cbv zeta.
  set (m1 := addTarget _ _). assert (H1 : Message_inv m1) by (unfold m1, addTarget; by destruct (memb _ _)).
  destruct (QueueSafe.handler_send_safe now q MSG_GROUP_VAST_CLIENT m1 I H1)
    as (q' & msg' & new & k & -> & Q & (Hm' & _) & _).
  rewrite bind_ok. cbn beta iota. pose proof (note_failed_switched (failed ++ new) c true) as S.
  destruct (foldl note_failed (c, true) (failed ++ new)) as [c1 ok]. cbn [fst] in S.
  eexists q', _, msg', _, ok. split; [reflexivity|]. splits; [done| |done].
  destruct ok; [done|]. destruct S. by split.
Qed.

Lemma sendGateway_safe now q c msg group : net_inv (net q) → Message_inv msg →
  ∃ q' msg' ok, sendGatewayMessage now q c msg group = Ok (q', msg', ok)
  ∧ net_inv (net q') ∧ Message_inv msg'.
Proof.
  intros I Hm. unfold sendGatewayMessage. destruct (_ =? 0); [by exists q, msg, false|]. cbv zeta.
  set (m1 := addTarget _ _). assert (H1 : Message_inv m1) by (unfold m1, addTarget; by destruct (memb _ _)).
  set (q1 := if negb _ then _ else _).
  assert (I1 : net_inv (net q1)) by (unfold q1; destruct (negb _); [by apply notify_inv|done]).
  destruct (QueueSafe.handler_send_safe now q1 MSG_GROUP_VAST_CLIENT m1 I1 H1)
    as (q' & msg' & new & k & -> & Q & (Hm' & _) & _).
  rewrite bind_ok. eexists q', msg', _. split; [reflexivity|]. split; [apply Q|done].
Qed.

(** *** The handlers of messages *)

(** What every handler guarantees *)
Definition handled q c (r : outcome (mqueue N * VASTClient * Message)) : Prop :=
  ∃ q' c' msg', r = Ok (q', c', msg') ∧ net_inv (net q') ∧ client_inv c' ∧ Message_inv msg'.

Lemma handle_subscribe_r_safe now q c msg : net_inv (net q) → client_inv c → Message_inv msg →
  handled q c (handle_subscribe_r junk now q c msg).
Proof.
  intros In Ic Hm. unfold handle_subscribe_r. destruct (active _); [by exists q, c, msg|].
  destruct (extract_int_safe 8 msg (junk_id junk) false Hm) as (m1 & sub_no & -> & (R1 & _) & _); [lia|].
  rewrite bind_ok. cbn beta iota.
  destruct (extract_obj_safe m1 Addr_null R1) as (m2 & addr & k & -> & (R2 & _) & _); [cbn; lia|].
  rewrite bind_ok. cbn beta iota zeta.
  match goal with |- context [if negb (host_id addr =? matcher_id ?x) then _ else _] => set (c1 := x) end.
  assert (I1 : client_inv c1) by (apply (client_inv_same (with_known c (c_neighbors c)
    (set sub_no (timestamp now q) (last_update c)))); [by apply note_time_inv|done..]).
  set (p := if negb _ then _ else _).
  assert (Ip : net_inv (net (fst p)) ∧ client_inv (snd p)).
  { unfold p. destruct (negb _); [|done]. split; [by apply notify_inv|by apply (client_inv_same c1)]. }
  destruct p as [q1 c2]. destruct Ip as [I2 Ic2]. cbn [fst snd] in *.
  destruct (Readable.store_int_safe 2 (new_msg STAT) 1) as (m3 & b & -> & W3 & _); [apply Message_new_inv|].
  rewrite bind_ok. cbn beta iota.
  destruct (sendGateway_safe now q1 c2 m3 MSG_GROUP_VAST_MATCHER I2 W3) as (q2 & m4 & ok & -> & I3 & M4).
  rewrite bind_ok. cbn beta iota.
  destruct (Readable.store_int_safe 8 (clear m4 (code SYNC_CLOCK) 0 3) (timestamp now q2))
    as (m5 & b' & -> & W5 & _); [by apply clear_inv|]. rewrite bind_ok. cbn beta iota.
  destruct (sendGateway_safe now q2 c2 m5 MSG_GROUP_VAST_MATCHER I3 W5) as (q3 & m6 & ok' & -> & I4 & _).
  rewrite bind_ok. by exists q3, c2, m2.
Qed.

Lemma handle_notify_matcher_safe q c msg : net_inv (net q) → client_inv c → Message_inv msg →
  handled q c (handle_notify_matcher q c msg).
Proof.
  intros In Ic Hm. unfold handle_notify_matcher.
  destruct (extract_obj_safe msg Addr_null Hm) as (m2 & addr & k & -> & (R2 & _) & _); [cbn; lia|].
  rewrite bind_ok. cbn beta iota. set (p := if negb _ then _ else _).
  assert (Ip : net_inv (net (fst p)) ∧ client_inv (snd p)).
  { unfold p. destruct (negb _); [|done]. split; [by apply notify_inv|by apply (client_inv_same c)]. }
  destruct p as [q1 c2]. destruct Ip as [I2 Ic2]. cbn [fst snd] in *.
  eexists q1, _, m2. split; [reflexivity|]. splits; [done| |done].
  case_bool_decide; [by apply (client_inv_same c2)|done].
Qed.

Lemma handle_notify_closest_safe q c msg : net_inv (net q) → client_inv c → Message_inv msg →
  handled q c (handle_notify_closest q c msg).
Proof.
  intros In Ic Hm. unfold handle_notify_closest. destruct (_ =? _); [|by exists q, c, msg].
  destruct (extract_obj_safe msg Addr_null Hm) as (m2 & addr & k & -> & (R2 & _) & _); [cbn; lia|].
  rewrite bind_ok. eexists _, _, m2. split; [reflexivity|].
  splits; [by apply notify_inv|by apply (client_inv_same c)|done].
Qed.

Lemma requestNeighbor_safe now q c id : net_inv (net q) →
  ∃ q' c' ok, requestNeighbor now q c id = Ok (q', c', ok) ∧ q_sent q q' ∧ switched c c'.
Proof.
  intros I. unfold requestNeighbor.
  destruct (Readable.store_int_safe 8 (new_msg NEIGHBOR_REQUEST) (sub_id (c_sub c)))
    as (m1 & b & -> & W1 & _); [apply Message_new_inv|]. rewrite bind_ok. cbn beta iota.
  destruct (Readable.store_int_safe 8 m1 id W1) as (m2 & b' & -> & W2 & _). rewrite bind_ok. cbn beta iota.
  destruct (sendMatcher_safe now q c m2 0 [] I W2) as (q' & c' & m' & f & ok & -> & Q & S & _).
  rewrite bind_ok. by exists q', c', ok.
Qed.

Lemma neighbor_turn_safe now q c msg nv : net_inv (net q) → client_inv c → Message_inv msg →
  ∃ q' c' msg' nv', neighbor_turn now q c msg nv = Ok (q', c', msg', nv')
  ∧ net_inv (net q') ∧ client_inv c' ∧ Message_inv msg'.
Proof.
  intros In Ic Hm. unfold neighbor_turn.
  destruct (extract_int_safe 8 msg (nv_id nv) false Hm) as (m1 & id & -> & (R1 & _) & _); [lia|].
  rewrite bind_ok. cbn beta iota.
  destruct (extract_safe m1 4 false R1) as (m2 & st & k & -> & (R2 & _) & _); [lia|].
  rewrite bind_ok. cbn beta iota zeta. destruct (of_status_code _) as [[]|].
  - destruct (extract_obj_safe m2 (nv_node nv) R2) as (m3 & node & k' & E & (R3 & _) & _); [cbn; unfold Node_sizeOf; lia|].
    cbn [nv_node]. rewrite E, bind_ok. eexists _, _, m3, _. split; [reflexivity|].
    splits; [done|by apply addNeighbor_inv|done].
  - eexists _, _, m2, _. split; [reflexivity|]. splits; [done|by apply removeNeighbor_inv|done].
  - eexists _, _, m2, _. split; [reflexivity|]. splits; [done|by apply note_time_inv|done].
  - cbn [nv_aoi nv_time].
    destruct (extract_obj_safe m2 (nv_aoi nv) R2) as (m3 & aoi & k' & -> & (R3 & _) & _); [cbn; unfold Area_sizeOf, Position_sizeOf; lia|].
    rewrite bind_ok. cbn beta iota.
    destruct (extract_int_safe 8 m3 (nv_time nv) false R3) as (m4 & time & -> & (R4 & _) & _); [lia|].
    rewrite bind_ok. cbn beta iota. unfold neighbor_updated.
    set (c1 := recordLatency c _ _ _). assert (I1 : client_inv c1) by by apply recordLatency_inv.
    cbv zeta. destruct (update_neighbor _ _ _) as [ns|] eqn:E.
    + apply update_neighbor_some in E as [E _]; [|done]. rewrite bind_ok. eexists _, _, m4, _.
      split; [reflexivity|]. splits; [done|by apply note_time_inv|done].
    + destruct (requestNeighbor_safe now q c1 id In) as (q' & c' & ok & -> & Q & S).
      rewrite !bind_ok. cbn beta iota. eexists q', c', m4, _. split; [reflexivity|].
      splits; [apply Q|by eapply switched_inv|done].
  - by eexists _, _, m2, _.
Qed.

Lemma neighbor_loop_safe n now q c msg nv : net_inv (net q) → client_inv c → Message_inv msg →
  handled q c (neighbor_loop n now q c msg nv).
Proof.
  revert q c msg nv. induction n as [|n IH]; intros q c msg nv In Ic Hm; cbn [neighbor_loop].
  { by exists q, c, msg. }
  destruct (neighbor_turn_safe now q c msg nv In Ic Hm) as (q1 & c1 & m1 & nv1 & -> & I1 & Ic1 & M1).
  rewrite bind_ok. by apply IH.
Qed.

Lemma handle_message_safe now app q c msg : net_inv (net q) → client_inv c → Message_inv msg →
  handled q c (handle_message junk now app q c msg).
Proof.
  intros In Ic Hm. unfold handle_message.
  destruct (extract_int_safe 8 (set_type msg app) (junk_time junk) true) as (m1 & t & -> & ([R1 R1'] & _) & _);
    [done|lia|]. rewrite bind_ok. cbn beta iota zeta.
  assert (Hr : Message_inv (reset m1)) by (split; [exact R1|cbn; lia]).
  unfold storeMessage. destruct (Message_copy_ok (reset m1) Hr) as (m2 & -> & (_ & _ & _ & _ & C) & _).
  rewrite !bind_ok. eexists q, _, _. split; [reflexivity|]. splits; [done| |done].
  destruct Ic as [D K U M]. split; cbn; try done. apply Forall_app. by split; [|constructor].
Qed.

Lemma VC_handle_safe now rv q c msg : net_inv (net q) → client_inv c → Message_inv msg →
  ∃ q' c' msg' ok, VC_handleMessage junk now rv q c msg = Ok (q', c', msg', ok)
  ∧ net_inv (net q') ∧ client_inv c' ∧ Message_inv msg'.
Proof.
  intros In Ic Hm. unfold VC_handleMessage. case_bool_decide as Ea; [by exists q, c, msg, false|]. cbv zeta.
  set (m0 := set_type msg _). assert (Hm0 : Message_inv m0) by done.
  assert (Hh : handled q c (match of_code (msgtype m0) with
    | Some SUBSCRIBE_R => handle_subscribe_r junk now q c m0
    | Some NOTIFY_MATCHER => handle_notify_matcher q c m0
    | Some NOTIFY_CLOSEST => handle_notify_closest q c m0
    | Some NEIGHBOR => handle_neighbor junk now q c m0
    | Some MESSAGE => handle_message junk now (APP_MSGTYPE (msgtype msg)) q c m0
    | Some SYNC_CLOCK => handle_sync_clock junk now q c m0
    | Some _ => Ok (q, c, m0)
    | None => Ok (q, if msgtype m0 =? DISCONNECT then handle_disconnect rv c (from m0) else c, m0)
    end)).
  { destruct (of_code (msgtype m0)) as [[]|]; try (by exists q, c, m0).
    - by apply handle_notify_matcher_safe.
    - by apply handle_notify_closest_safe.
    - by apply handle_subscribe_r_safe.
    - unfold handle_neighbor.
      destruct (extract_int_safe 1 m0 (junk_size junk) true Hm0) as (m1 & z & -> & (R1 & _) & _); [lia|].
      rewrite bind_ok. by apply neighbor_loop_safe.
    - by apply handle_message_safe.
    - unfold handle_sync_clock.
      destruct (extract_int_safe 8 m0 (junk_time junk) false Hm0) as (m1 & t1 & -> & (R1 & _) & _); [lia|].
      rewrite bind_ok. cbn beta iota.
      destruct (extract_int_safe 8 m1 (junk_time junk) false R1) as (m2 & t2 & -> & (R2 & _) & _); [lia|].
      rewrite bind_ok. eexists _, c, m2. split; [reflexivity|]. by destruct In.
    - eexists q, _, m0. split; [reflexivity|]. splits; [done| |done].
      destruct (_ =? DISCONNECT); [|done]. unfold handle_disconnect.
      destruct (_ =? matcher_id c); [by apply disconnect_inv|].
      destruct (_ || _); [|done]. by apply (client_inv_same c). }
  destruct Hh as (q' & c' & m' & -> & I' & Ic' & M'). rewrite bind_ok. by exists q', c', m', true.
Qed.

(** *** Joining, subscribing, periodic work *)

Lemma join_safe now ms q rv c a w : net_inv (net q) → client_inv c →
  ∃ q' c' ok, VC_join now ms q rv c a w = Ok (q', c', ok) ∧ net_inv (net q') ∧ client_inv c'.
Proof.
  intros In Ic. unfold VC_join. cbv zeta. set (c1 := with_timeouts _ _ _ _).
  assert (I1 : client_inv c1) by by apply (client_inv_same c).
  destruct (negb _); [by exists q, c1, false|].
  destruct (Readable.store_int_safe 2 (new_msg JOIN) (c_world c1)) as (m1 & b & -> & W1 & _); [apply Message_new_inv|].
  rewrite bind_ok. cbn beta iota.
  destruct (sendGateway_safe now q (with_state c1 JOINING) m1 MSG_GROUP_VAST_MATCHER In W1) as (q2 & m4 & ok & -> & I3 & M4).
  rewrite bind_ok. eexists q2, _, ok. split; [reflexivity|]. split; [done|]. by apply (client_inv_same c1).
Qed.

Lemma unique_id_inv q g : net_inv (net q) → net_inv (net (with_net q (fst (getUniqueID (net q) g)))).
Proof.
  intros []. unfold getUniqueID. destruct (negb _); [by split|]. destruct (_ || _); [by split|]. cbv zeta.
  destruct (_ || _); by split.
Qed.

Lemma subscribe_safe now ms q rv c a l : net_inv (net q) → client_inv c →
  ∃ q' c' ok, VC_subscribe now ms q rv c a l = Ok (q', c', ok) ∧ net_inv (net q') ∧ client_inv c'.
Proof.
  intros In Ic. unfold VC_subscribe. cbv zeta. set (c0 := set_time c _).
  assert (I0 : client_inv c0) by by apply (client_inv_same c).
  pose proof (unique_id_inv q ID_GROUP_VON_VAST In) as Iu.
  destruct (getUniqueID (net q) ID_GROUP_VON_VAST) as [v id]. cbn [fst] in Iu. set (p := if _ =? _ then _ else _).
  assert (Ip : net_inv (net (fst p)) ∧ client_inv (snd p)).
  { unfold p. destruct (_ =? _); [|done]. split; [done|by apply (client_inv_same c0)]. }
  destruct p as [q1 c2]. destruct Ip as [I2 Ic2]. cbn [fst snd] in *.
  destruct (_ || _). { eexists q1, _, false. split; [reflexivity|]. split; [done|by apply (client_inv_same c2)]. }
  set (c3 := with_sub _ (set_active _ _)). assert (I3 : client_inv c3) by by apply (client_inv_same c2).
  destruct (Readable.store_obj_safe (new_msg SUBSCRIBE) (c_sub c3)) as (m2 & b' & -> & W2 & _); [apply Message_new_inv|].
  rewrite bind_ok. cbn beta iota.
  destruct (sendMatcher_safe now q1 c3 m2 0 [] I2 W2) as (q' & c' & m' & f & ok & -> & Q & S & _).
  rewrite bind_ok. exists q', c', ok. split; [done|]. split; [apply Q|by eapply switched_inv].
Qed.

Lemma VC_post_safe now ms rv q c : net_inv (net q) → client_inv c →
  ∃ q' c', VC_postHandling now ms rv q c = Ok (q', c') ∧ net_inv (net q') ∧ client_inv c'.
Proof.
  intros In Ic. unfold VC_postHandling. case_bool_decide as Ea; [by exists q, c|]. cbv zeta.
  match goal with |- context [mbind _ ?x] => assert (Hs : ∃ q' c', x = Ok (q', c') ∧ net_inv (net q') ∧ client_inv c') end.
  { destruct (_ =? _).
    - destruct (_ && _); [|by exists q, c].
      destruct (join_safe now ms q rv c (publicIP (gateway c)) (c_world c) In Ic) as (q' & c' & ok & -> & I').
      rewrite bind_ok. by exists q', c'.
    - destruct (negb _); [|by exists q, c]. destruct (_ && _); [|by exists q, c].
      destruct (subscribe_safe now ms q rv c (sub_aoi (c_sub c)) (layer (c_sub c)) In Ic) as (q' & c' & ok & -> & I').
      rewrite bind_ok. by exists q', c'. }
  destruct Hs as (q' & c' & -> & I' & Ic'). rewrite bind_ok. cbn beta iota.
  destruct (_ <=? _); [|by exists q', c']. eexists q', _. split; [reflexivity|]. split; [done|].
  apply removeGhosts_inv. by apply (client_inv_same c').
Qed.
End client.
