(* ===== verification/ClientSpec.v ===== *)
(** What the client does: the list of neighbors as a finite map, the synchronisation of
    the clock, what is queued for the matcher, the switch to the backup matcher, and the
    removal of neighbors that are silent. *)

From S2P Require Import Prelude Bytes StdMap Float Serial Subscription Message VastBuffer NetManager.
From S2P Require Import NetInterface VastNet VastSend MessageQueue Routing QueueSafe.
From S2P Require Import Readable Handlers Client ClientSafe.
Local Open Scope Z_scope.

(** *** Neighbors *)

(** The list of neighbors as a map from ids *)
Definition view (l : list Node) : gmap Z Node := list_to_map ((λ n, (node_id n, n)) <$> l).

(** One entry of a [NEIGHBOR] message *)
Inductive neighbor_update :=
  | Inserted (n : Node)
  | Deleted (id : Z)
  | Unchanged (id : Z)
  | Updated (id : Z) (aoi : Area) (time : Z).

Definition update_id (u : neighbor_update) : Z :=
  match u with Inserted n => node_id n | Deleted id | Unchanged id | Updated id _ _ => id end.

Definition update_status (u : neighbor_update) : NeighborUpdateStatus :=
  match u with Inserted _ => INSERTED | Deleted _ => DELETED | Unchanged _ => UNCHANGED
  | Updated _ _ _ => UPDATED end.

Definition update_payload (u : neighbor_update) : list byte :=
  match u with Inserted n => wire n | Updated _ a t => wire a ++ le_bytes 8 t | _ => [] end.

Definition update_wire (u : neighbor_update) : list byte :=
  le_bytes 8 (update_id u) ++ le_bytes 4 (status_code (update_status u)) ++ update_payload u.

Definition update_valid (u : neighbor_update) : Prop :=
  fits 64 (update_id u) ∧
  match u with Inserted n => Node_valid n | Updated _ a t => Area_valid a ∧ fits 64 t | _ => True end.

(** What an entry means *)
Definition apply_update (m : gmap Z Node) (u : neighbor_update) : gmap Z Node :=
  match u with
  | Inserted n => <[node_id n := n]> m
  | Deleted id => delete id m
  | Unchanged _ => m
  | Updated id a t => alter (λ n, mkNode (node_id n) t a (node_addr n)) id m
  end.

(** When an entry was last seen *)
Definition apply_time (now : Z) (m : gmap Z Z) (ids : gmap Z Node) (u : neighbor_update) : gmap Z Z :=
  match u with
  | Inserted n => <[node_id n := now]> m
  | Deleted id => match ids !! id with Some _ => delete id m | None => m end
  | Unchanged id => <[id := now]> m
  | Updated id _ _ => match ids !! id with Some _ => <[id := now]> m | None => m end
  end.

Lemma view_lookup_some l id n : NoDup (node_id <$> l) → view l !! id = Some n ↔ n ∈ l ∧ node_id n = id.
Proof.
  intros Hd. unfold view. rewrite <- elem_of_list_to_map.
  - rewrite list_elem_of_fmap. split; [intros (n' & [= -> ->] & Hin); done|].
    intros [Hin <-]. by exists n.
  - by rewrite <- list_fmap_compose.
Qed.

Lemma view_lookup_none l id : view l !! id = None ↔ id ∉ (node_id <$> l).
Proof.
  unfold view. rewrite <- not_elem_of_list_to_map, <- list_fmap_compose. done.
Qed.

Lemma view_perm l l' : NoDup (node_id <$> l) → l ≡ₚ l' → view l = view l'.
Proof.
  intros Hd Hp. unfold view. apply list_to_map_proper; [by rewrite <- list_fmap_compose|].
  by rewrite Hp.
Qed.

Lemma view_update id f l l' : (∀ n, node_id n = id → node_id (f n) = id) →
  update_neighbor id f l = Some l' → view l' = alter f id (view l).
Proof.
  intros Hf. revert l'. induction l as [|n l IH]; intros l'; cbn [update_neighbor]; [done|].
  destruct (Z.eqb_spec (node_id n) id) as [E|E].
  - intros [= <-]. change (view (f n :: l)) with (<[node_id (f n) := f n]> (view l)).
    change (view (n :: l)) with (<[node_id n := n]> (view l)).
    by rewrite Hf, E, alter_insert_eq by done.
  - destruct (update_neighbor id f l) as [l1|]; [|done]. intros [= <-].
    change (view (n :: l1)) with (<[node_id n := n]> (view l1)).
    change (view (n :: l)) with (<[node_id n := n]> (view l)).
    by rewrite (IH l1 eq_refl), alter_insert_ne.
Qed.

Lemma view_remove id l l' : NoDup (node_id <$> l) → remove_first id l = Some l' →
  view l' = delete id (view l).
Proof.
  intros Hd E. apply remove_first_some in E as (a & n & b & -> & -> & Ei).
  assert (Hp : a ++ n :: b ≡ₚ n :: a ++ b) by (symmetry; apply Permutation_middle).
  rewrite (view_perm _ _ Hd Hp). change (view (n :: a ++ b)) with (<[node_id n := n]> (view (a ++ b))).
  rewrite Ei, delete_insert_id; [done|]. apply view_lookup_none.
  rewrite Hp, fmap_cons, NoDup_cons, Ei in Hd. apply Hd.
Qed.

Lemma view_add c node now : client_inv c →
  view (c_neighbors (VC_addNeighbor c node now)) = <[node_id node := node]> (view (c_neighbors c)).
Proof.
  intros [D _ _ _]. unfold VC_addNeighbor. destruct (update_neighbor _ _ _) as [ns|] eqn:E;
    cbn [with_known c_neighbors].
  - pose proof E as E'. apply update_neighbor_some in E' as [_ Hin]; [|done].
    apply (view_update (node_id node)) in E; [|done]. rewrite E.
    destruct (view (c_neighbors c) !! node_id node) as [n|] eqn:Ev.
    + apply map_eq. intros k. destruct (decide (k = node_id node)) as [->|Hne].
      * rewrite lookup_alter_eq, lookup_insert_eq, Ev. cbn. by destruct node.
      * by rewrite lookup_alter_ne, lookup_insert_ne.
    + by apply view_lookup_none in Ev.
  - apply update_neighbor_none in E. rewrite (view_perm _ (node :: c_neighbors c)).
    + done.
    + rewrite fmap_app. apply NoDup_app. split; [done|]. split; [|apply NoDup_singleton].
      intros x Hx Hn. cbn in Hn. by apply list_elem_of_singleton in Hn as ->.
    + by rewrite Permutation_app_comm.
Qed.

(** An entry about a neighbor that is known, so that nothing has to be requested *)
Definition update_known (m : gmap Z Node) (u : neighbor_update) : Prop :=
  match u with Updated id _ _ => is_Some (m !! id) | _ => True end.

Fixpoint all_known (m : gmap Z Node) (us : list neighbor_update) : Prop :=
  match us with [] => True | u :: us => update_known m u ∧ all_known (apply_update m u) us end.

Fixpoint apply_times (now : Z) (t : gmap Z Z) (m : gmap Z Node) (us : list neighbor_update) : gmap Z Z :=
  match us with
  | [] => t
  | u :: us => apply_times now (apply_time now t m u) (apply_update m u) us
  end.

Lemma to_gmap_erase {V} (m : list (Z * V)) k : ordered m → to_gmap (erase k m) = delete k (to_gmap m).
Proof.
  intros Ho. apply map_eq. intros i. rewrite to_gmap_find. destruct (decide (i = k)) as [->|Hne].
  - by rewrite lookup_delete_eq, find_erase_eq.
  - by rewrite lookup_delete_ne, to_gmap_find, find_erase_ne.
Qed.

Lemma status_code_inv s : of_status_code (le_val (le_bytes 4 (status_code s))) = Some s.
Proof. by destruct s. Qed.

Section client.
Context {N : Type} `{NetManagerLaws N} (junk : uninit).
Implicit Types (q : mqueue N) (c : VASTClient).

(** The state after one entry *)
Record updated (now : Z) q c (u : neighbor_update) q' c' : Prop := mk_updated {
  up_inv : client_inv c';
  up_net : net_inv (net q');
  up_view : view (c_neighbors c') = apply_update (view (c_neighbors c)) u;
  up_known : update_known (view (c_neighbors c)) u → q' = q
    ∧ to_gmap (last_update c')
      = apply_time (timestamp now q) (to_gmap (last_update c)) (view (c_neighbors c)) u }.

Lemma inserted_ok now q c n : net_inv (net q) → client_inv c →
  updated now q c (Inserted n) q (VC_addNeighbor c n (timestamp now q)).
Proof.
  intros In Ic. split; [by apply addNeighbor_inv|done|by apply view_add|].
  intros _. split; [done|]. apply to_gmap_set.
Qed.

Lemma deleted_ok now q c id : net_inv (net q) → client_inv c →
  updated now q c (Deleted id) q (fst (removeNeighbor c id)).
Proof.
  intros In Ic. pose proof (removeNeighbor_inv c id Ic) as Ir. unfold removeNeighbor in *.
  destruct (remove_first id (c_neighbors c)) as [ns|] eqn:E; cbn [fst] in *.
  - assert (Hin : is_Some (view (c_neighbors c) !! id)).
    { destruct (view (c_neighbors c) !! id) eqn:Ev; [done|]. apply view_lookup_none in Ev.
      apply remove_first_some in E as (a & n & b & Ea & _ & En). destruct Ev.
      rewrite Ea, fmap_app, fmap_cons, En. apply elem_of_app. right. by left. }
    split; [done|done|apply view_remove; [apply Ic|done]|]. intros _. split; [done|].
    cbn [apply_time]. destruct Hin as [n ->]. apply to_gmap_erase, Ic.
  - apply remove_first_none, view_lookup_none in E. split; [done|done| |].
    + cbn [apply_update]. by rewrite delete_id.
    + intros _. split; [done|]. cbn [apply_time]. by rewrite E.
Qed.

Lemma unchanged_ok now q c id : net_inv (net q) → client_inv c →
  updated now q c (Unchanged id) q
    (with_known c (c_neighbors c) (set id (timestamp now q) (last_update c))).
Proof.
  intros In Ic. split; [by apply note_time_inv|done|done|].
  intros _. split; [done|]. apply to_gmap_set.
Qed.

Lemma neighbor_updated_ok now q c id a t : net_inv (net q) → client_inv c →
  ∃ q' c', neighbor_updated now q c id t a = Ok (q', c') ∧ updated now q c (Updated id a t) q' c'.
Proof.
  intros In Ic. unfold neighbor_updated. cbv zeta. set (c1 := recordLatency c _ _ _).
  assert (I1 : client_inv c1) by by apply recordLatency_inv.
  change (c_neighbors c1) with (c_neighbors c). destruct (update_neighbor _ _ _) as [ns|] eqn:E.
  - pose proof E as E'. apply update_neighbor_some in E' as [Ei Hin]; [|done].
    apply view_update in E as Ev; [|done]. eexists _, _. split; [reflexivity|].
    split; [by apply note_time_inv|done|exact Ev|]. intros [n Hn]. split; [done|].
    cbn [apply_time]. rewrite Hn. apply to_gmap_set.
  - apply update_neighbor_none, view_lookup_none in E.
    destruct (requestNeighbor_safe now q c1 id In) as (q' & c' & ok & -> & Q & S).
    rewrite bind_ok. exists q', c'. split; [done|]. split; [by eapply switched_inv|apply Q| |].
    + rewrite (sw_neighbors _ _ S). cbn [apply_update]. rewrite alter_id; [done|]. intros n Hn. by rewrite E in Hn.
    + cbn [update_known]. rewrite E. by intros [].
Qed.

(** One turn of the loop reads one entry. *)
Lemma neighbor_turn_ok now q c msg nv u tl : net_inv (net q) → client_inv c → Message_inv msg →
  update_valid u → drop (mcurr msg) (content msg) = update_wire u ++ tl →
  ∃ q' c' msg' nv', neighbor_turn now q c msg nv = Ok (q', c', msg', nv')
  ∧ updated now q c u q' c' ∧ Message_inv msg' ∧ drop (mcurr msg') (content msg') = tl.
Proof.
  intros In Ic Hm (Hid & Hv) Hd. unfold update_wire in Hd. rewrite <- !app_assoc in Hd.
  unfold neighbor_turn.
  destruct (extract_int_spec 8 msg (nv_id nv) (update_id u) _ Hm ltac:(lia) Hid Hd)
    as (m1 & -> & I1 & D1 & _). rewrite bind_ok. cbn beta iota.
  destruct (extract_int_spec 4 m1 0 (status_code (update_status u)) _ I1 ltac:(lia)
    ltac:(by destruct (update_status u)) D1) as (m2 & E2 & I2 & D2 & _).
  unfold extract_int in E2. apply bind_inv in E2 as ([[m2' st] k] & E2 & [= -> Es]).
  rewrite E2, bind_ok. cbn beta iota zeta. cbn [nv_status nv_node nv_aoi nv_time].
  destruct st as [bs|]; [|by destruct (update_status u)]. cbn [default].
  assert (Est : of_status_code (le_val bs) = Some (update_status u)) by (rewrite Es; by destruct u).
  unfold from_option, id. rewrite Est. destruct u as [n|i|i|i a t]; cbn [update_status update_payload update_id] in *.
  - destruct (extract_obj_spec m2 n (nv_node nv) tl I2) as (m3 & -> & I3 & C3 & P3 & _);
      [exact Hv|done|cbn; unfold Node_sizeOf; lia|exact D2|]. rewrite bind_ok. cbn beta iota. cbn [merge Node_laws].
    eexists _, _, m3, _. split; [reflexivity|]. splits; [by apply inserted_ok|done|].
    rewrite C3, P3, <- drop_drop, D2. apply drop_app_len. symmetry. apply wire_length.
  - eexists _, _, m2, _. split; [reflexivity|]. splits; [by apply deleted_ok|done|exact D2].
  - eexists _, _, m2, _. split; [reflexivity|]. splits; [by apply unchanged_ok|done|exact D2].
  - destruct Hv as [Ha Ht]. rewrite <- app_assoc in D2.
    destruct (extract_obj_spec m2 a (nv_aoi nv) (le_bytes 8 t ++ tl) I2) as (m3 & -> & I3 & C3 & P3 & _);
      [exact Ha|done|cbn; unfold Area_sizeOf, Position_sizeOf; lia|exact D2|].
    rewrite bind_ok. cbn beta iota. cbn [merge Area_laws].
    assert (D3 : drop (mcurr m3) (content m3) = le_bytes 8 t ++ tl).
    { rewrite C3, P3, <- drop_drop, D2. apply drop_app_len. symmetry. apply wire_length. }
    destruct (extract_int_spec 8 m3 (nv_time nv) t tl I3 ltac:(lia) Ht D3) as (m4 & -> & I4 & D4 & _).
    rewrite bind_ok. cbn beta iota.
    destruct (neighbor_updated_ok now q c i a t In Ic) as (q' & c' & -> & U). rewrite bind_ok. cbn beta iota.
    by eexists q', c', m4, _.
Qed.

Lemma neighbor_loop_ok now q c msg nv us tl : net_inv (net q) → client_inv c → Message_inv msg →
  Forall update_valid us → drop (mcurr msg) (content msg) = concat (update_wire <$> us) ++ tl →
  ∃ q' c' msg', neighbor_loop (length us) now q c msg nv = Ok (q', c', msg')
  ∧ client_inv c' ∧ net_inv (net q') ∧ Message_inv msg'
  ∧ view (c_neighbors c') = foldl apply_update (view (c_neighbors c)) us
  ∧ (all_known (view (c_neighbors c)) us → q' = q ∧ to_gmap (last_update c')
     = apply_times (timestamp now q) (to_gmap (last_update c)) (view (c_neighbors c)) us).
Proof.
  intros In Ic Hm Hus. revert q c msg nv In Ic Hm. induction Hus as [|u us Hu _ IH]; intros q c msg nv In Ic Hm Hd.
  { by exists q, c, msg. }
  cbn [length neighbor_loop]. rewrite fmap_cons in Hd. cbn [concat] in Hd. rewrite <- app_assoc in Hd.
  destruct (neighbor_turn_ok now q c msg nv u _ In Ic Hm Hu Hd)
    as (q1 & c1 & m1 & nv1 & -> & [I1 N1 V1 K1] & M1 & D1). rewrite bind_ok. cbn beta iota.
  destruct (IH q1 c1 m1 nv1 N1 I1 M1 D1) as (q2 & c2 & m2 & E & I2 & N2 & M2 & V2 & K2).
  exists q2, c2, m2. splits; try done; [by rewrite V2, V1|].
  cbn [all_known apply_times]. intros [Hk Hks]. destruct (K1 Hk) as [-> T1]. rewrite V1, T1 in K2. by apply K2.
Qed.

(** A whole message *)
Lemma neighbors_applied now q c msg us :
  net_inv (net q) → client_inv c → Message_inv msg → mcurr msg = 0%nat →
  Forall update_valid us → Z.of_nat (length us) < 256 →
  content msg = concat (update_wire <$> us) ++ le_bytes 1 (Z.of_nat (length us)) →
  ∃ q' c' msg', handle_neighbor junk now q c msg = Ok (q', c', msg')
  ∧ view (c_neighbors c') = foldl apply_update (view (c_neighbors c)) us ∧ client_inv c'
  ∧ (all_known (view (c_neighbors c)) us → q' = q ∧ to_gmap (last_update c')
     = apply_times (timestamp now q) (to_gmap (last_update c)) (view (c_neighbors c)) us).
Proof.
  intros In Ic Hm Hc Hus Hn Hd. pose proof (length_content msg Hm) as Lc. unfold handle_neighbor, extract_int.
  rewrite Hd, length_app, length_le_bytes in Lc.
  destruct (extract_end_spec msg 1 Hm ltac:(lia) ltac:(lia)) as (m1 & -> & I1 & C1 & Z1 & P1 & _).
  rewrite !bind_ok. cbn beta iota. rewrite Hd in C1 |- *.
  rewrite <- Lc, Nat.add_sub in *. rewrite drop_app_length, take_app_length in *.
  rewrite le_val_bytes, Z.mod_small by (split; [lia|exact Hn]). rewrite Nat2Z.id.
  destruct (neighbor_loop_ok now q c m1
    (mkNV (junk_id junk) (junk_status junk) Node_init Area_clear (junk_time junk)) us [] In Ic I1 Hus)
    as (q' & c' & m' & E & I' & _ & _ & V & K); [by rewrite P1, Hc, C1, app_nil_r|].
  exists q', c', m'. splits; [exact E|exact V|exact I'|exact K].
Qed.

(** C25: Neighbors, against the abstract map. A [NEIGHBOR] message with up to 255 entries is
    applied entry by entry: the client's list is, as a map from ids, the one the entries
    describe, without duplicates. If no entry is about a neighbor the client does not know,
    nothing is sent and the times of the last updates are those of the entries. *)
Theorem neighbors_refined now q c msg us :
  net_inv (net q) → client_inv c → Message_inv msg → mcurr msg = 0%nat →
  Forall update_valid us → Z.of_nat (length us) < 256 →
  content msg = concat (update_wire <$> us) ++ le_bytes 1 (Z.of_nat (length us)) →
  ∃ q' c' msg', handle_neighbor junk now q c msg = Ok (q', c', msg')
  ∧ NoDup (node_id <$> c_neighbors c')
  ∧ view (c_neighbors c') = foldl apply_update (view (c_neighbors c)) us
  ∧ (all_known (view (c_neighbors c)) us → q' = q ∧ to_gmap (last_update c')
     = apply_times (timestamp now q) (to_gmap (last_update c)) (view (c_neighbors c)) us).
Proof.
  intros In Ic Hm Hc Hus Hn Hd. destruct (neighbors_applied now q c msg us In Ic Hm Hc Hus Hn Hd) as (q' & c' & m' & E & V & I' & K).
  exists q', c', m'. splits; [exact E|apply I'|exact V|exact K].
Qed.

(** *** The clock *)

(** Synchronisation: when the answer of the gateway is handled, the client's clock is set
    to the gateway's time plus half the round trip, whatever the adjustment was before,
    provided the difference fits an [int]. *)
Lemma clock_set now q c msg sent gw tl :
  Message_inv msg → drop (mcurr msg) (content msg) = le_bytes 8 sent ++ le_bytes 8 gw ++ tl →
  fits 64 sent → fits 64 gw → sent ≤ timestamp now q →
  let latency := (timestamp now q - sent) / 2 in
  gw + latency < 2 ^ 64 → Z.abs (gw + latency - timestamp now q) < 2 ^ 31 →
  ∃ q' msg', handle_sync_clock junk now q c msg = Ok (q', c, msg')
  ∧ timestamp now q' = gw + latency.
Proof.
  intros Hm Hd Hs Hg Hle latency Hb Hi. unfold handle_sync_clock.
  destruct (extract_int_spec 8 msg (junk_time junk) sent _ Hm ltac:(lia) Hs Hd) as (m1 & -> & I1 & D1 & _).
  rewrite bind_ok. cbn beta iota.
  destruct (extract_int_spec 8 m1 (junk_time junk) gw _ I1 ltac:(lia) Hg D1) as (m2 & -> & I2 & _).
  rewrite bind_ok. cbn beta iota. eexists _, m2. split; [reflexivity|].
  unfold timestamp in *. set (t := VN_getTimestamp (net q) now) in *.
  assert (Ht : fits 64 t) by (apply wrap_fits; lia).
  unfold VN_getTimestamp, setTimestampAdjustment. cbn [net with_net time_adjust with_times].
  assert (Ea : clock_adjust t sent gw = gw + latency - t).
  { unfold clock_adjust. unfold fits in *. change (2 ^ 64) with 18446744073709551616 in *.
    change (2 ^ 31) with 2147483648 in *.
    rewrite (wrap_id 64 (t - sent)) by (unfold fits; change (2 ^ 64) with 18446744073709551616; lia).
    fold latency. assert (0 ≤ latency) by (apply Z.div_pos; lia).
    rewrite (wrap_id 64 (gw + latency)) by (unfold fits; change (2 ^ 64) with 18446744073709551616; lia).
    unfold to_int32. change (2 ^ 31) with 2147483648. change (2 ^ 32) with 4294967296.
    destruct (Z.leb_spec t (gw + latency)).
    - rewrite wrap_id by (unfold fits; change (2 ^ 32) with 4294967296; lia).
      destruct (Z.ltb_spec (gw + latency - t) 2147483648); lia.
    - rewrite wrap_id by (unfold fits; change (2 ^ 32) with 4294967296; lia).
      destruct (Z.ltb_spec (t - (gw + latency)) 2147483648); lia. }
  rewrite Ea. assert (Et : t = u64 (now + time_adjust (net q))) by reflexivity.
  replace (now + (time_adjust (net q) + (gw + latency - t)))
    with ((now + time_adjust (net q)) + (gw + latency - t)) by lia.
  unfold wrap in *. rewrite <- Zplus_mod_idemp_l, <- Et.
  replace (t + (gw + latency - t)) with (gw + latency) by lia. apply Z.mod_small.
  assert (0 ≤ latency) by (apply Z.div_pos; lia). unfold fits in Hg. lia.
Qed.
End client.
