(* ===== verification/ClientFlow.v ===== *)
(** What the client sends: publications and subscriptions to the matcher, the switch to the
    backup matcher, and the removal of neighbors that are silent. *)

From S2P Require Import Prelude Bytes StdMap Float Serial Subscription Message VastBuffer NetManager.
From S2P Require Import NetInterface VastNet VastSend MessageQueue Routing QueueSafe.
From S2P Require Import Readable Handlers Client ClientSafe.
Local Open Scope Z_scope.

(** *** One target *)

Section flow.
Context {N : Type} `{NetManagerLaws N}.
Implicit Types (q : mqueue N) (c : VASTClient).

(** A logical target whose host is another one, and connected *)
Record reachable q (t : Z) : Prop := mk_reachable {
  re_active : isActive (manager (net q)) = true;
  re_id : hostID q ≠ NET_ID_UNASSIGNED;
  re_bufs : bufs_ok (net q);
  re_host : has t (id2host q) = true;
  re_other : host_of q t ≠ hostID q;
  re_conn : connected (manager (net q)) (host_of q t) = true }.

Lemma reachable_settled q t : reachable q t → settled q t.
Proof. intros []. split; [done|]. left. unfold up. by rewrite re_conn0, orb_true_r. Qed.

(** The queues after one message for [t] *)
Definition sends q (v' : VASTnet N) (t : Z) (m : Message) : Prop :=
  bufs_ok v' ∧ manager v' = manager (net q) ∧ kept_sending (net q) v' ∧ inq v' = inq (net q)
  ∧ ∀ r h, outq v' r h = outq (net q) r h ++
      if Bool.eqb r (rel m) && (h =? host_of q t) then framed REGULAR m else [].

Lemma MQ_send_one now q msg t : reachable q t → Message_inv msg → targets msg = [t] →
  ∃ v', MQ_sendMessage now q msg = Ok (with_net q v', filled (net q) msg, [], 1)
  ∧ sends q v' t (filled (net q) msg).
Proof.
  intros Hr Hm Ht. pose proof (reachable_settled q t Hr) as Hs. destruct Hr as [Ha Hid Hb Hh Ho Hc].
  assert (Hre : reached q t = true) by (unfold reached, up; by rewrite Hc, orb_true_r).
  unfold MQ_sendMessage. rewrite Ht, split_settled by by constructor.
  rewrite !filter_cons, !filter_nil, decide_False, decide_True by (rewrite Hre; done).
  rewrite bind_ok. cbn beta iota.
  change (foldl (group q) [] [t]) with [(host_of q t, [t])]. cbn [send_hosts]. cbv zeta.
  replace (with_targets msg [t]) with msg by (rewrite <- Ht; by destruct msg).
  destruct (send_one now (net q) (host_of q t) msg (rel msg) Ha Hid Hb Hm)
    as (v1 & k & E & B & M & K & Q & I); [unfold up; by rewrite Hc, orb_true_r|].
  change (negb (reliable msg =? 0)) with (rel msg). rewrite E.
  destruct (Z.eqb_spec (host_of q t) (nm_getID (manager (net q)))); [done|].
  rewrite !bind_ok. exists v1. split; [done|]. unfold sends. splits; try done.
  intros r h. rewrite Q, filled_rel. by rewrite andb_true_r.
Qed.

(** *** To the matcher *)

(** A message without targets, addressed to the matcher *)
Definition to_matcher c (msg : Message) (prio : Z) : Message :=
  with_targets (set_group (set_priority msg (if prio =? 0 then 1 else prio)) MSG_GROUP_VAST_MATCHER)
               [matcher_id c].

Lemma sendMatcher_ok now q c msg prio : reachable q (matcher_id c) → Message_inv msg → targets msg = [] →
  let m := filled (net q) (to_matcher c msg prio) in
  ∃ v', sendMatcherMessage now q c msg prio [] = Ok (with_net q v', c, m, [], true)
  ∧ sends q v' (matcher_id c) m.
Proof.
  intros Hr Hm Ht m. unfold sendMatcherMessage. cbv zeta.
  assert (E : addTarget (set_group (set_priority msg (if negb (prio =? 0) then prio else 1))
      MSG_GROUP_VAST_MATCHER) (matcher_id c) = to_matcher c msg prio).
  { unfold addTarget, to_matcher. cbn [set_group set_priority targets]. rewrite Ht. by destruct (prio =? 0). }
  rewrite E. unfold handler_sendMessage. cbn [to_matcher with_targets targets].
  change (msggroup (to_matcher c msg prio) =? 0) with false. cbv iota.
  destruct (MQ_send_one now q (to_matcher c msg prio) (matcher_id c) Hr) as (v' & -> & S); [done|done|].
  rewrite bind_ok. cbn beta iota. by exists v'.
Qed.

(** What [store] appends, if the message owns its bytes *)
Definition owned (m : Message) (bs : list byte) : list byte := if malloc m then bs else [].

Lemma store_owned m bs : Message_inv m →
  ∃ m' b, store m bs false = Ok (m', b) ∧ Message_inv m' ∧ same_head m' m
  ∧ content m' = content m ++ owned m bs.
Proof.
  intros Hi. unfold owned. destruct (malloc m) eqn:E.
  - destruct (store_spec m bs false Hi E) as (m' & -> & I & C & _ & S). by exists m', true.
  - exists m, false. unfold store. rewrite E. split; [done|]. split; [done|]. split; [apply same_head_refl|].
    by rewrite app_nil_r.
Qed.

Lemma filled_head v m : content (filled v m) = content m ∧ msgtype (filled v m) = msgtype m
  ∧ msggroup (filled v m) = msggroup m ∧ priority (filled v m) = priority m
  ∧ targets (filled v m) = targets m
  ∧ from (filled v m) = if from m =? 0 then nm_getID (manager v) else from m.
Proof. unfold filled. by destruct (from m =? 0). Qed.

(** What the matcher is sent *)
Record request_msg q c (m : Message) (type prio : Z) (fr : Z) (bs : list byte) : Prop := mk_request_msg {
  rq_content : content m = bs;
  rq_type : msgtype m = type;
  rq_group : msggroup m = MSG_GROUP_VAST_MATCHER;
  rq_priority : priority m = prio;
  rq_from : from m = if fr =? 0 then hostID q else fr;
  rq_targets : targets m = [matcher_id c] }.

(** Publishing. A joined client that reaches its matcher queues exactly one message for
    the matcher's host: the content of the application's message followed by the time, the
    area and the layer, its type in the upper bits. But for a message over foreign memory
    (constructed without allocation) the copy is not extended by integers: it is published
    without the time and the layer. *)
Theorem publish_queues now q c area layer message :
  c_state c = JOINED → reachable q (matcher_id c) → Message_inv message → targets message = [] →
  ∃ v' m, VC_publish now q c area layer message = Ok (with_net q v', c, true)
  ∧ sends q v' (matcher_id c) m
  ∧ request_msg q c m (app_type (msgtype message) PUBLISH) 1 (from message)
      (content message ++ if malloc message
                          then le_bytes 8 (timestamp now q) ++ wire area ++ le_bytes 2 layer
                          else wire area).
Proof.
  intros Hj Hr Hm Ht. unfold VC_publish. rewrite bool_decide_eq_true_2 by done. cbn [negb].
  destruct (Message_copy_ok message Hm) as (m0 & -> & (S0 & _ & _ & C0 & I0) & _).
  rewrite bind_ok. cbv zeta. set (m1 := set_type m0 _). assert (I1 : Message_inv m1) by exact I0.
  destruct (store_owned m1 (le_bytes 8 (timestamp now q)) I1) as (m2 & b2 & E2 & I2 & S2 & C2).
  unfold store_int. rewrite E2, bind_ok. cbn beta iota.
  destruct (store_obj_spec m2 area I2) as (m3 & -> & I3 & C3 & _ & S3). rewrite bind_ok. cbn beta iota.
  destruct (store_owned m3 (le_bytes 2 layer) I3) as (m4 & b4 & E4 & I4 & S4 & C4).
  rewrite E4, bind_ok. cbn beta iota.
  pose proof (same_head_trans _ _ _ S4 (same_head_trans _ _ _ S3 S2)) as (F & T & _ & _ & _ & Ts & Al).
  destruct S0 as (F0 & T0 & _ & _ & _ & Ts0 & Al0).
  destruct (sendMatcher_ok now q c m4 0 Hr I4) as (v' & -> & S); [by rewrite Ts; cbn; rewrite Ts0|].
  rewrite bind_ok. eexists v', _. split; [reflexivity|]. split; [exact S|].
  destruct (filled_head (net q) (to_matcher c m4 0)) as (E1 & E3 & E5 & E6 & E7 & E8). split; try done.
  - rewrite E1. change (content (to_matcher c m4 0)) with (content m4).
    assert (A3 : malloc m3 = malloc message).
    { transitivity (malloc m1); [|exact Al0]. transitivity (malloc m2); [apply S3|apply S2]. }
    rewrite C4, C3, C2. unfold owned. rewrite A3. change (content m1) with (content m0). rewrite C0.
    change (malloc m1) with (malloc m0). rewrite Al0.
    destruct (malloc message); rewrite ?app_nil_r, <- ?app_assoc; done.
  - rewrite E3. cbn. rewrite T. cbn. by rewrite T0.
  - rewrite E8. cbn. rewrite F. cbn. by rewrite F0.
Qed.

(** *** The backup matcher *)

(** The subscription a client asks for *)
Definition subscription q (rv : relay_view) c (area : Area) (l : Z) : Subscription :=
  set_active (set_host (set_aoi (c_sub c) area l) (hostID q) (VN_getAddress (net q) (rv_id rv))) false.

Lemma subscribe_ok now ms q rv c area l :
  c_state c = JOINED → rv_joined rv = true → sub_id (c_sub c) ≠ NET_ID_UNASSIGNED →
  reachable q (matcher_id c) →
  ∃ v' c' m, VC_subscribe now ms q rv c area l = Ok (with_net q v', c', true)
  ∧ sends q v' (matcher_id c) m
  ∧ request_msg q c m (code SUBSCRIBE) 1 0 (wire (subscription q rv c area l))
  ∧ c_sub c' = subscription q rv c area l ∧ matcher_id c' = matcher_id c
  ∧ closest_id c' = closest_id c ∧ c_state c' = JOINED.
Proof.
  intros Hj Hrv Hid Hr. unfold VC_subscribe. cbv zeta. cbn [c_sub set_time with_timeouts].
  destruct (Z.eqb_spec (sub_id (c_sub c)) NET_ID_UNASSIGNED); [done|]. cbn beta iota. rewrite Hrv.
  match goal with |- context [c_state ?x] => change (c_state x) with (c_state c) end.
  rewrite Hj, bool_decide_eq_true_2 by done. cbn [negb orb].
  match goal with |- context [store_obj _ (c_sub ?x)] => set (c1 := x) end.
  assert (Ec : c_sub c1 = subscription q rv c area l) by done.
  destruct (store_obj_spec (new_msg SUBSCRIBE) (c_sub c1)) as (m2 & -> & I2 & C2 & _ & S2); [apply Message_new_inv|].
  rewrite bind_ok. cbn beta iota. destruct S2 as (F & T & _ & _ & _ & Ts & _).
  destruct (sendMatcher_ok now q c1 m2 0 Hr I2) as (v' & -> & S); [by rewrite Ts|].
  rewrite bind_ok. eexists v', c1, _. split; [reflexivity|].
  split; [exact S|]. split; [|done].
  destruct (filled_head (net q) (to_matcher c1 m2 0)) as (E1 & E3 & E5 & E6 & E7 & E8). split; try done.
  - rewrite E1. change (content (to_matcher c1 m2 0)) with (content m2). by rewrite C2, Ec.
  - rewrite E3. cbn. by rewrite T.
  - rewrite E8. cbn. by rewrite F.
Qed.

(** C28: Fail-over. When a joined, subscribed client hears that its matcher is disconnected,
    it turns to the backup matcher at once, and its next periodic work queues one message
    to the backup's host: a request for the same subscription, with the host's current id
    and relay. *)
Theorem matcher_failover (junk : uninit) now q rv c msg now' ms rv' q' :
  c_state c = JOINED → VAST_MSGTYPE (msgtype msg) = DISCONNECT → from msg = matcher_id c →
  closest_id c ≠ NET_ID_UNASSIGNED → sub_id (c_sub c) ≠ NET_ID_UNASSIGNED →
  1 ≤ timestamp now' q' → rv_joined rv' = true → reachable q' (closest_id c) →
  ∃ c1 msg1, VC_handleMessage junk now rv q c msg = Ok (q, c1, msg1, true)
  ∧ matcher_id c1 = closest_id c ∧ active (c_sub c1) = false
  ∧ ∃ v' c2 m, VC_postHandling now' ms rv' q' c1 = Ok (with_net q' v', c2)
  ∧ sends q' v' (closest_id c) m
  ∧ request_msg q' c1 m (code SUBSCRIBE) 1 0
      (wire (subscription q' rv' c (sub_aoi (c_sub c)) (layer (c_sub c))))
  ∧ matcher_id c2 = closest_id c ∧ c_state c2 = JOINED.
Proof.
  intros Hj Ht Hf Hcl Hsub Hts Hrv Hr. unfold VC_handleMessage. rewrite Hj, bool_decide_eq_false_2 by done.
  cbv zeta. cbn [set_type msgtype from]. rewrite Ht. change (of_code DISCONNECT) with (@None VAST_Message).
  cbv iota. change (DISCONNECT =? DISCONNECT) with true. cbv iota. rewrite bind_ok. cbn beta iota.
  unfold handle_disconnect. rewrite Hf, Z.eqb_refl. set (c1 := handleMatcherDisconnect c).
  eexists c1, _. split; [reflexivity|]. split; [done|]. split; [done|].
  unfold VC_postHandling. change (c_state c1) with (c_state c). rewrite Hj, bool_decide_eq_false_2 by done.
  cbv zeta. change (matcher_id c1) with (closest_id c). change (active (c_sub c1)) with false.
  change (timeout_subscribe c1) with 1. destruct (Z.eqb_spec (closest_id c) NET_ID_UNASSIGNED); [done|].
  cbn [negb]. change (1 =? 0) with false. destruct (Z.leb_spec 1 (timestamp now' q')); [|lia]. cbn [negb andb].
  destruct (subscribe_ok now' ms q' rv' c1 (sub_aoi (c_sub c1)) (layer (c_sub c1)) Hj Hrv Hsub Hr)
    as (v' & c2 & m & -> & S & R & Es & Em & Ecl & Ej). rewrite !bind_ok. cbn beta iota.
  destruct (next_periodic c2 <=? _); eexists v', _, m; (split; [reflexivity|]);
    (split; [exact S|]); (split; [exact R|]); [|by split].
  unfold removeGhosts. cbn [with_timeouts c_sub]. rewrite Es. by split.
Qed.
End flow.

(** *** Silent neighbors *)

Lemma remove_first_filter id l : NoDup (node_id <$> l) →
  default l (remove_first id l) = filter (λ n, node_id n ≠ id) l.
Proof.
  induction l as [|n l IH]; [done|]. rewrite fmap_cons, NoDup_cons. intros [Hn Hd].
  cbn [remove_first]. rewrite filter_cons. destruct (Z.eqb_spec (node_id n) id) as [E|E].
  - rewrite decide_False by tauto. cbn. symmetry. apply filter_every, Forall_forall.
    intros x Hx Ex. apply Hn. rewrite E, <- Ex. by apply list_elem_of_fmap_2.
  - rewrite decide_True, <- IH by done. by destruct (remove_first id l).
Qed.

Lemma removeNeighbor_filter c id : NoDup (node_id <$> c_neighbors c) →
  c_neighbors (fst (removeNeighbor c id)) = filter (λ n, node_id n ≠ id) (c_neighbors c).
Proof.
  intros Hd. rewrite <- remove_first_filter by done. unfold removeNeighbor.
  by destruct (remove_first id (c_neighbors c)).
Qed.

Lemma touch_neighbors c id : c_neighbors (touch c id) = c_neighbors c ∧ c_sub (touch c id) = c_sub c
  ∧ matcher_id (touch c id) = matcher_id c ∧ closest_id (touch c id) = closest_id c.
Proof. unfold touch. by destruct (has id (last_update c)). Qed.

(** [id] has not been updated for [timeout]. *)
Definition silent (now timeout : Z) (lu : list (Z * Z)) (id : Z) : bool :=
  timeout <=? u64 (now - default 0 (find id lu)).

Lemma find_ghosts_spec c now timeout l : Forall (known_in (last_update c)) l →
  find_ghosts c now timeout l
  = (c, filter (λ id, silent now timeout (last_update c) id = true) (node_id <$> l)).
Proof.
  induction 1 as [|n l Hn _ IH]; [done|]. cbn [find_ghosts]. cbv zeta.
  assert (Et : touch c (node_id n) = c) by (unfold touch; by rewrite Hn). rewrite Et, IH.
  rewrite fmap_cons, filter_cons. fold (silent now timeout (last_update c) (node_id n)).
  by destruct (silent _ _ _ _).
Qed.

Lemma list_filter_ext (P Q : Node → Prop) `{∀ n, Decision (P n)} `{∀ n, Decision (Q n)}
    (l : list Node) : (∀ n, n ∈ l → P n ↔ Q n) → filter P l = filter Q l.
Proof.
  induction l as [|n l IH]; intros E; [done|]. rewrite !filter_cons.
  rewrite IH by (intros m Hm; apply E; by right).
  by rewrite (decide_ext (P n) (Q n)) by (apply E; by left).
Qed.

(** What removing the silent neighbors leaves *)
Lemma remove_ghosts_spec gs c : client_inv c → NoDup gs →
  let c' := foldl remove_ghost c gs in
  c_neighbors c' = filter (λ n, node_id n ∉ gs ∨ node_id n = sub_id (c_sub c)) (c_neighbors c)
  ∧ sub_id (c_sub c') = sub_id (c_sub c)
  ∧ (if bool_decide (sub_id (c_sub c) ∈ gs)
     then matcher_id c' = closest_id c ∧ closest_id c' = 0 ∧ active (c_sub c') = false
     else matcher_id c' = matcher_id c ∧ closest_id c' = closest_id c ∧ c_sub c' = c_sub c).
Proof.
  revert c. induction gs as [|g gs IH]; intros c Ic Hd; cbn [foldl]; cbv zeta.
  { split; [|split; [done|by rewrite bool_decide_eq_false_2 by (by intros ?%elem_of_nil)]].
    symmetry. apply filter_every, Forall_forall. intros n _. left. by intros ?%elem_of_nil. }
  apply NoDup_cons in Hd as [Hg Hd]. pose proof (remove_ghost_inv c g Ic) as I1.
  destruct (IH (remove_ghost c g) I1 Hd) as (E1 & E2 & E3). unfold remove_ghost in E1, E2, E3 |- *.
  destruct (Z.eqb_spec g (sub_id (c_sub c))) as [->|Hne].
  - destruct (touch_neighbors c (sub_id (c_sub c))) as (T1 & T2 & T3 & T4).
    set (r := handleMatcherDisconnect (touch c (sub_id (c_sub c)))) in *.
    assert (A : c_neighbors r = c_neighbors c ∧ sub_id (c_sub r) = sub_id (c_sub c)
      ∧ matcher_id r = closest_id c ∧ closest_id r = 0 ∧ active (c_sub r) = false)
      by (unfold r; cbn; by rewrite T1, T2, T4).
    destruct A as (A1 & A2 & A3 & A4 & A5). rewrite A1, A2 in E1. rewrite A2 in E2, E3.
    split; [|split; [done|]].
    + rewrite E1. apply list_filter_iff. intros n. rewrite not_elem_of_cons.
      destruct (decide (node_id n = sub_id (c_sub c))); tauto.
    + rewrite bool_decide_eq_true_2 by by left. rewrite bool_decide_eq_false_2 in E3 by done.
      destruct E3 as (-> & -> & ->). done.
  - destruct (touch_neighbors (fst (removeNeighbor c g)) g) as (T1 & T2 & T3 & T4).
    assert (Er : c_sub (fst (removeNeighbor c g)) = c_sub c ∧ matcher_id (fst (removeNeighbor c g)) = matcher_id c
                 ∧ closest_id (fst (removeNeighbor c g)) = closest_id c)
      by (unfold removeNeighbor; by destruct (remove_first _ _)).
    destruct Er as (R1 & R2 & R3). rewrite T2, R1 in E1, E2, E3. rewrite T1 in E1. rewrite T3, T4, R2, R3 in E3.
    rewrite removeNeighbor_filter in E1 by apply Ic. split; [|split; [done|]].
    + rewrite E1, list_filter_filter. apply list_filter_iff. intros n. rewrite not_elem_of_cons.
      destruct (decide (node_id n = g)) as [->|]; tauto.
    + by rewrite (bool_decide_ext (sub_id (c_sub c) ∈ g :: gs) (sub_id (c_sub c) ∈ gs))
        by (rewrite elem_of_cons; split; [intros [E|]; [by destruct Hne|done]|by right]).
Qed.

(** Silent neighbors. An active client keeps exactly the neighbors that were updated
    within the timeout, and itself; if it is itself silent, it turns to the backup matcher
    and will subscribe again, otherwise its matcher and subscription stay. *)
Theorem ghosts_removed c now ms tps :
  client_inv c → active (c_sub c) = true →
  let timeout := u64 (TIMEOUT_REMOVE_GHOST ms * tps) in
  let me := sub_id (c_sub c) in
  let ghost := silent now timeout (last_update c) in
  let c' := removeGhosts c now ms tps in
  client_inv c'
  ∧ c_neighbors c' = filter (λ n, ghost (node_id n) = false ∨ node_id n = me) (c_neighbors c)
  ∧ if ghost me && bool_decide (me ∈ (node_id <$> c_neighbors c))
    then matcher_id c' = closest_id c ∧ closest_id c' = 0 ∧ active (c_sub c') = false
    else matcher_id c' = matcher_id c ∧ closest_id c' = closest_id c ∧ c_sub c' = c_sub c.
Proof.
  intros Ic Ha timeout me ghost c'. split; [by apply removeGhosts_inv|].
  unfold c', removeGhosts. rewrite Ha. cbn [negb]. cbv zeta. fold timeout.
  rewrite find_ghosts_spec by apply Ic. cbn beta iota. fold ghost.
  destruct (remove_ghosts_spec (filter (λ id, ghost id = true) (node_id <$> c_neighbors c)) c Ic)
    as (E1 & _ & E3); [apply NoDup_filter, Ic|]. fold me in E1, E3. split.
  - rewrite E1. apply list_filter_ext. intros n Hn. rewrite list_elem_of_filter. destruct (ghost (node_id n)).
    + assert (node_id n ∈ (node_id <$> c_neighbors c)) by by apply list_elem_of_fmap_2.
      split; [intros [Hx|]; [by destruct Hx|by right]|intros [|]; [done|by right]].
    + intuition congruence.
  - rewrite (bool_decide_ext _ _ (list_elem_of_filter _ _ _)) in E3.
    destruct (ghost me) eqn:G; cbn [andb].
    + destruct (decide (me ∈ (node_id <$> c_neighbors c))) as [Hin|Hin].
      * rewrite bool_decide_eq_true_2 in E3 by done. by rewrite bool_decide_eq_true_2.
      * rewrite bool_decide_eq_false_2 in E3 by (by intros [_ ?]).
        by rewrite bool_decide_eq_false_2.
    + rewrite bool_decide_eq_false_2 in E3 by (intros [? _]; congruence). exact E3.
Qed.
