(* ===== verification/Geometry.v ===== *)
(** Distances between positions (common/VASTTypes.h), in the arithmetic of the code:
    differences are [float]s, the square root of the sum of squares is computed in [double]
    and rounded to [coord_t]. [pow (dx, 2)] is the product, which is exact for a [float]. *)

From S2P Require Import Prelude Bytes Float Serial.
From Stdlib Require Import Floats.SpecFloat.
Local Open Scope Z_scope.

(** Conversion of a [float] to [double] *)
Definition f64_of_f32 (x : spec_float) : spec_float :=
  match x with
  | S754_finite s m e => binary_normalize 53 1024 (if s then Zneg m else Zpos m) e s
  | _ => x
  end.

Definition f32_sub : spec_float → spec_float → spec_float := SFsub 24 128.
Definition f64_sub : spec_float → spec_float → spec_float := SFsub 53 1024.
Definition f64_add : spec_float → spec_float → spec_float := SFadd 53 1024.
Definition f64_mul : spec_float → spec_float → spec_float := SFmul 53 1024.
Definition f64_sqrt : spec_float → spec_float := SFsqrt 53 1024.

Definition square (x : spec_float) : spec_float := f64_mul (f64_of_f32 x) (f64_of_f32 x).

(** [a.distance (b)] *)
Definition distance (a b : Position) : spec_float :=
  let d f := f32_sub (f32_of_bits (f b)) (f32_of_bits (f a)) in
  f32_of_f64 (f64_sqrt (f64_add (f64_add (square (d pos_x)) (square (d pos_y))) (square (d pos_z)))).

(** [EQUAL_DISTANCE], the [double] nearest to 0.000001 *)
Definition EQUAL_DISTANCE : spec_float := S754_finite false 4722366482869645 (-72).

Definition is_nan (x : spec_float) : bool := match x with S754_nan => true | _ => false end.

(** The pattern of a [float]. Which NaN an operation yields is not specified; the model has
    one. *)
Definition bits_of_f32 (x : spec_float) : Z :=
  let sign (s : bool) := if s then 2 ^ 31 else 0 in
  match x with
  | S754_zero s => sign s
  | S754_infinity s => sign s + 255 * 2 ^ 23
  | S754_nan => 255 * 2 ^ 23 + 2 ^ 22
  | S754_finite s m e =>
      sign s + if Zpos m <? 2 ^ 23 then Zpos m else (e + 150) * 2 ^ 23 + (Zpos m - 2 ^ 23)
  end.

Definition f32_add : spec_float → spec_float → spec_float := SFadd 24 128.

(** [a + b], [a - b] and [a * value] on positions *)
Definition coord_add (a b : Z) : Z := bits_of_f32 (f32_add (f32_of_bits a) (f32_of_bits b)).
Definition coord_sub (a b : Z) : Z := bits_of_f32 (f32_sub (f32_of_bits a) (f32_of_bits b)).
Definition coord_mul (a : Z) (v : spec_float) : Z :=
  bits_of_f32 (f32_of_f64 (f64_mul (f64_of_f32 (f32_of_bits a)) v)).

Definition Position_add (a b : Position) : Position :=
  mkPosition (coord_add (pos_x a) (pos_x b)) (coord_add (pos_y a) (pos_y b)) (coord_add (pos_z a) (pos_z b)).
Definition Position_sub (a b : Position) : Position :=
  mkPosition (coord_sub (pos_x a) (pos_x b)) (coord_sub (pos_y a) (pos_y b)) (coord_sub (pos_z a) (pos_z b)).
Definition Position_mul (a : Position) (v : spec_float) : Position :=
  mkPosition (coord_mul (pos_x a) v) (coord_mul (pos_y a) v) (coord_mul (pos_z a) v).

(** [area.overlaps (pos, buffer)]: a circle, or a rectangle if [height] is not zero *)
Definition Area_overlaps (a : Area) (p : Position) (buffer : Z) : bool :=
  let le x n := SFleb x (f64_of_Z n) in
  let side f := f64_of_f32 (SFabs (f32_sub (f32_of_bits (f (center a))) (f32_of_bits (f p)))) in
  if height a =? 0 then le (f64_of_f32 (distance (center a) p)) (radius a + buffer)
  else le (side pos_x) (radius a / 2 + buffer) && le (side pos_y) (height a / 2 + buffer).

Example bits_roundtrip : map (λ b, bits_of_f32 (f32_of_bits b))
  [0; 1; 0x80000001; 0x3F800000; 0xC0490FDB; 0x7F7FFFFF; 0x7F800000; 0x00800000]
  = [0; 1; 0x80000001; 0x3F800000; 0xC0490FDB; 0x7F7FFFFF; 0x7F800000; 0x00800000].
Proof. vm_compute. reflexivity. Qed.

Example coord_sum : coord_add 0x3F800000 0x40000000 = 0x40400000.
Proof. vm_compute. reflexivity. Qed.

Example distance_345 : distance (mkPosition 0 0 0) (mkPosition 0x40400000 0x40800000 0)
  = f32_of_bits 0x40A00000.
Proof. vm_compute. reflexivity. Qed.

#[global] Arguments distance : simpl never.
#[global] Arguments Area_overlaps : simpl never.
#[global] Arguments coord_add : simpl never.

(** ** The plane of the Voronoi diagram (common/VASTTypes.h): points, segments and lines, whose
    coordinates are [double]s, and what the sweep needs of [double]s besides. *)

Record point2d := mkPoint { px : spec_float; py : spec_float }.

Definition point_distance (this p : point2d) : spec_float :=
  let dx := f64_sub (px p) (px this) in
  let dy := f64_sub (py p) (py this) in
  f64_sqrt (f64_add (f64_mul dx dx) (f64_mul dy dy)).

(** [point2d (pt.x, pt.y)] *)
Definition point_of (p : Position) : point2d :=
  mkPoint (f64_of_f32 (f32_of_bits (pos_x p))) (f64_of_f32 (f32_of_bits (pos_y p))).

Record segment := mkSeg { p1 : point2d; p2 : point2d }.

(** [seg.intersects (p3, radius)] *)
Definition segment_intersects (g : segment) (p3 : point2d) (r : Z) : bool :=
  let '(a, b) := if SFltb (px (p1 g)) (px (p2 g)) then (p1 g, p2 g) else (p2 g, p1 g) in
  let dx := f64_sub (px b) (px a) in
  let dy := f64_sub (py b) (py a) in
  let u := f64_div (f64_add (f64_mul (f64_sub (px p3) (px a)) dx) (f64_mul (f64_sub (py p3) (py a)) dy))
                   (f64_add (f64_mul dx dx) (f64_mul dy dy)) in
  if SFleb (f64_of_Z 0) u && SFleb u (f64_of_Z 1) then
    SFleb (point_distance (mkPoint (f64_add (px a) (f64_mul dx u)) (f64_add (py a) (f64_mul dy u))) p3) (f64_of_Z r)
  else false.

(** The line [a x + b y = c] between two sites, and its end points: indices, -1 for none *)
Record line2d := mkLine {
  la : spec_float; lb : spec_float; lc : spec_float;
  bisecting : Z * Z; vertexIndex : Z * Z; seg : segment }.

(** A [double] as an [int]: truncated. What is out of the range of an [int], NaN included,
    becomes its least value on x86-64. *)
Definition INT_MIN : Z := - 2 ^ 31.
Definition int_of_f64 (x : spec_float) : Z :=
  match x with
  | S754_zero _ => 0
  | S754_finite s m e =>
      let v := (if s then -1 else 1) * (if 0 <=? e then Zpos m * 2 ^ e else Zpos m / 2 ^ (- e)) in
      if (INT_MIN <=? v) && (v <? 2 ^ 31) then v else INT_MIN
  | _ => INT_MIN
  end.

(** [a > b], [a >= b] and [a == b] on [double] *)
Definition SFgtb (a b : spec_float) : bool := SFltb b a.
Definition SFgeb (a b : spec_float) : bool := SFleb b a.
