(* ===== verification/Sweep.v ===== *)
(** Fortune's sweep: [calsfv] of common/VoronoiSFAlgorithm.cpp, which computes a diagram.

    The halfedges and edges the code allocates are arenas, a pointer to one is its index. A
    [Site] is passed by value: its coordinates never change, and [sitenbr] tells two of them
    apart, as their addresses do (a vertex gets its number before its address is used). The chains
    through [PQnext] are lists. Reference counts, which are never read, and freed memory, of
    which there is none, are left out. [qsort] is a parameter: the order of equal elements is
    not specified, nor is that of NaNs. *)

From S2P Require Import Prelude Bytes StdMap Float Serial Geometry.
From Stdlib Require Import Floats.SpecFloat.
Local Open Scope Z_scope.

(** *** The data *)

Record Site := mkSite { scoord : point2d; sitenbr : Z }.

(** [ELpm] and the index of [ep] and [reg]: [le] is 0, [re] is 1. *)
Definition LE : bool := false.
Definition RE : bool := true.

Record Edge := mkEdge {
  ea : spec_float; eb : spec_float; ec : spec_float;
  ep : option Site * option Site; reg : Site * Site; edgenbr : Z }.

Inductive edge_ptr := NoEdge | DELETED | ToEdge (e : nat).

Record Halfedge := mkHE {
  ELleft : option nat; ELright : option nat; ELedge : edge_ptr; ELpm : bool;
  vertex : option Site; ystar : spec_float }.

(** What stays the same during a sweep *)
Record bounds := mkBounds {
  xmin : spec_float; deltax : spec_float; ymin : spec_float; deltay : spec_float; sqrt_nsites : Z;
  pxmin : spec_float; pxmax : spec_float; pymin : spec_float; pymax : spec_float; bottomsite : Site }.

(** What it changes; [nedges] and [nvertices] are the lengths of [edges] and [mVertex]. *)
Record sweep := mkSweep {
  halfedges : list Halfedge; edges : list Edge;
  PQhash : list (list nat); PQcount : Z; PQmin : Z; ELhash : list (option nat);
  w_sites : list (list Z); w_lines : list line2d; w_vertex : list point2d }.

Section setters.
Implicit Types st : sweep.
Definition with_halfedges st h : sweep := mkSweep h (edges st) (PQhash st) (PQcount st) (PQmin st) (ELhash st) (w_sites st) (w_lines st) (w_vertex st).
Definition with_edges st e : sweep := mkSweep (halfedges st) e (PQhash st) (PQcount st) (PQmin st) (ELhash st) (w_sites st) (w_lines st) (w_vertex st).
Definition with_PQ st h c m : sweep := mkSweep (halfedges st) (edges st) h c m (ELhash st) (w_sites st) (w_lines st) (w_vertex st).
Definition with_ELhash st h : sweep := mkSweep (halfedges st) (edges st) (PQhash st) (PQcount st) (PQmin st) h (w_sites st) (w_lines st) (w_vertex st).
Definition with_out st s l v : sweep := mkSweep (halfedges st) (edges st) (PQhash st) (PQcount st) (PQmin st) (ELhash st) s l v.

Definition set_left h l : Halfedge := mkHE l (ELright h) (ELedge h) (ELpm h) (vertex h) (ystar h).
Definition set_right h r : Halfedge := mkHE (ELleft h) r (ELedge h) (ELpm h) (vertex h) (ystar h).
Definition set_edge h e : Halfedge := mkHE (ELleft h) (ELright h) e (ELpm h) (vertex h) (ystar h).
Definition set_event h v y : Halfedge := mkHE (ELleft h) (ELright h) (ELedge h) (ELpm h) v y.
End setters.

(** *** Memory *)

Definition deref {A} (p : option A) : outcome A := match p with Some a => Ok a | None => Fail OutOfBounds end.
Definition upd_at {A} (l : list A) (i : nat) (f : A → A) : outcome (list A) := x ← at_idx l i; Ok (<[i := f x]> l).

(** [a[i]] and its change, for an [int] *)
Definition at_int {A} (l : list A) (i : Z) : outcome A :=
  if i <? 0 then Fail OutOfBounds else at_idx l (Z.to_nat i).
Definition upd_int {A} (l : list A) (i : Z) (f : A → A) : outcome (list A) :=
  if i <? 0 then Fail OutOfBounds else upd_at l (Z.to_nat i) f.

(** A [std::set] of integers: its elements in order *)
Definition set_insert (k : Z) (l : list Z) : list Z := fst <$> set k () ((λ i, (i, ())) <$> l).

Section sweep.
Context (bd : bounds).
Implicit Types (st : sweep) (he : nat) (e : Edge) (s v : Site).

Definition he_at st he : outcome Halfedge := at_idx (halfedges st) he.
Definition upd_he st he (f : Halfedge → Halfedge) : outcome sweep := l ← upd_at (halfedges st) he f; Ok (with_halfedges st l).
Definition edge_at st (p : edge_ptr) : outcome Edge := match p with ToEdge k => at_idx (edges st) k | _ => Fail OutOfBounds end.

(** *** Geometry *)

Definition f64_zero : spec_float := f64_of_Z 0.
Definition f64_one : spec_float := f64_of_Z 1.
Definition f64_two : spec_float := f64_of_Z 2.
Definition f64_half : spec_float := S754_finite false 4503599627370496 (-53).
Definition EPSILON : spec_float := S754_finite false 7737125245533627 (-86).   (* 1.0e-10 *)
Definition f64_1_1 : spec_float := S754_finite false 4953959590107546 (-52).   (* 1.1 *)
Definition sx s : spec_float := px (scoord s).
Definition sy s : spec_float := py (scoord s).

(** The coefficients of [bisect (s1, s2)] *)
Definition bisector_line s1 s2 : spec_float * spec_float * spec_float :=
  let dx := f64_sub (sx s2) (sx s1) in
  let dy := f64_sub (sy s2) (sy s1) in
  let adx := if SFgtb dx f64_zero then dx else SFopp dx in
  let ady := if SFgtb dy f64_zero then dy else SFopp dy in
  let c := f64_add (f64_add (f64_mul (sx s1) dx) (f64_mul (sy s1) dy))
                   (f64_mul (f64_add (f64_mul dx dx) (f64_mul dy dy)) f64_half) in
  if SFgtb adx ady then (f64_one, f64_div dy dx, f64_div c dx) else (f64_div dx dy, f64_one, f64_div c dy).

(** [out_bisector (e)] *)
Definition out_bisector st e : outcome sweep :=
  let a := sitenbr (fst (reg e)) in
  let b := sitenbr (snd (reg e)) in
  ss ← upd_int (w_sites st) a (set_insert (edgenbr e));
  ss ← upd_int ss b (set_insert (edgenbr e));
  let o := mkPoint f64_zero f64_zero in
  Ok (with_out st ss (w_lines st ++ [mkLine (ea e) (eb e) (ec e) (a, b) (-1, -1) (mkSeg o o)]) (w_vertex st)).

(** The new edge is the last. *)
Definition bisect st s1 s2 : outcome (sweep * nat) :=
  let '(a, b, c) := bisector_line s1 s2 in
  let e := mkEdge a b c (None, None) (s1, s2) (Z.of_nat (length (edges st))) in
  st ← out_bisector st e;
  Ok (with_edges st (edges st ++ [e]), length (edges st)).

(** Where the lines of two edges intersect; [None] if they are parallel *)
Definition crossing (e1 e2 : Edge) : option point2d :=
  let d := f64_sub (f64_mul (ea e1) (eb e2)) (f64_mul (eb e1) (ea e2)) in
  if SFltb (SFopp EPSILON) d && SFltb d EPSILON then None else
  Some (mkPoint (f64_div (f64_sub (f64_mul (ec e1) (eb e2)) (f64_mul (ec e2) (eb e1))) d)
                (f64_div (f64_sub (f64_mul (ec e2) (ea e1)) (f64_mul (ec e1) (ea e2))) d)).

Definition above_or_left s t : bool :=
  SFltb (sy s) (sy t) || SFeqb (sy s) (sy t) && SFltb (sx s) (sx t).

(** [intersect (el1, el2)]: the new vertex has no number yet. *)
Definition intersect st (el1 el2 : nat) : outcome (option Site) :=
  h1 ← he_at st el1;
  h2 ← he_at st el2;
  match ELedge h1, ELedge h2 with
  | NoEdge, _ | _, NoEdge => Ok None
  | p1, p2 =>
      e1 ← edge_at st p1;
      e2 ← edge_at st p2;
      if sitenbr (snd (reg e1)) =? sitenbr (snd (reg e2)) then Ok None else
      match crossing e1 e2 with
      | None => Ok None
      | Some p =>
          let '(h, e) := if above_or_left (snd (reg e1)) (snd (reg e2)) then (h1, e1) else (h2, e2) in
          let right_of_site := SFgeb (px p) (sx (snd (reg e))) in
          if Bool.eqb right_of_site (negb (ELpm h)) then Ok None else Ok (Some (mkSite p (-1)))
      end
  end.

(** [above] in the case [e->a == 1.0] *)
Definition above_vertical e (right : bool) (p : point2d) : bool :=
  let top := snd (reg e) in
  let dyp := f64_sub (py p) (sy top) in
  let dxp := f64_sub (px p) (sx top) in
  let '(above, fast) :=
    if negb right && SFltb (eb e) f64_zero || right && SFgeb (eb e) f64_zero then
      let a := SFgeb dyp (f64_mul (eb e) dxp) in (a, a)
    else
      let a := SFgtb (f64_add (px p) (f64_mul (py p) (eb e))) (ec e) in
      let a := if SFltb (eb e) f64_zero then negb a else a in
      (a, negb a) in
  if fast : bool then above else
  let dxs := f64_sub (sx top) (sx (fst (reg e))) in
  let above :=
    if negb (SFeqb dxs f64_zero) then
      SFltb (f64_mul (eb e) (f64_sub (f64_mul dxp dxp) (f64_mul dyp dyp)))
            (f64_mul (f64_mul dxs dyp) (f64_add (f64_add f64_one (f64_div (f64_mul f64_two dxp) dxs)) (f64_mul (eb e) (eb e))))
    else false in
  if SFltb (eb e) f64_zero then negb above else above.

Definition above_flat e (p : point2d) : bool :=
  let top := snd (reg e) in
  let yl := f64_sub (ec e) (f64_mul (ea e) (px p)) in
  let t1 := f64_sub (py p) yl in
  let t2 := f64_sub (px p) (sx top) in
  let t3 := f64_sub yl (sy top) in
  SFgtb (f64_mul t1 t1) (f64_add (f64_mul t2 t2) (f64_mul t3 t3)).

(** [right_of (el, p)] *)
Definition right_of st he (p : point2d) : outcome bool :=
  h ← he_at st he;
  e ← edge_at st (ELedge h);
  let right := SFgtb (px p) (sx (snd (reg e))) in
  if right && negb (ELpm h) then Ok true else
  if negb right && ELpm h then Ok false else
  let above := if SFeqb (ea e) f64_one then above_vertical e right p else above_flat e p in
  Ok (if ELpm h then negb above else above).

Definition dist s v : spec_float :=
  let dx := f64_sub (sx s) (sx v) in
  let dy := f64_sub (sy s) (sy v) in
  f64_sqrt (f64_add (f64_mul dx dx) (f64_mul dy dy)).

(** *** Output *)

Definition out_of (lo hi a b : spec_float) : bool := (SFgtb a hi && SFgtb b hi) || (SFltb a lo && SFltb b lo).

(** One end of the segment of [clip_line], cut at [lo] and [hi]; [f] gives the other
    coordinate. *)
Definition cut (lo hi : spec_float) (f : spec_float → spec_float) (a b : spec_float) : spec_float * spec_float :=
  let '(a, b) := if SFgtb a hi then (hi, f hi) else (a, b) in
  if SFltb a lo then (lo, f lo) else (a, b).

(** [clip_line (e)]: the segment inside the box, [None] if there is none *)
Definition clip_line e : option segment :=
  let vertical := SFeqb (ea e) f64_one in
  let '(s1, s2) := if vertical && SFgeb (eb e) f64_zero then (snd (ep e), fst (ep e)) else ep e in
  let later f lo := match s1 with Some s => if SFgtb (f s) lo then f s else lo | None => lo end in
  let sooner f hi := match s2 with Some s => if SFltb (f s) hi then f s else hi | None => hi end in
  if vertical then
    let y1 := later sy (pymin bd) in
    if SFgtb y1 (pymax bd) then None else
    let y2 := sooner sy (pymax bd) in
    if SFltb y2 (pymin bd) then None else
    let x1 := f64_sub (ec e) (f64_mul (eb e) y1) in
    let x2 := f64_sub (ec e) (f64_mul (eb e) y2) in
    if out_of (pxmin bd) (pxmax bd) x1 x2 then None else
    let g x := f64_div (f64_sub (ec e) x) (eb e) in
    let '(x1, y1) := cut (pxmin bd) (pxmax bd) g x1 y1 in
    let '(x2, y2) := cut (pxmin bd) (pxmax bd) g x2 y2 in
    Some (mkSeg (mkPoint x1 y1) (mkPoint x2 y2))
  else
    let x1 := later sx (pxmin bd) in
    if SFgtb x1 (pxmax bd) then None else
    let y1 := f64_sub (ec e) (f64_mul (ea e) x1) in
    let x2 := sooner sx (pxmax bd) in
    if SFltb x2 (pxmin bd) then None else
    let y2 := f64_sub (ec e) (f64_mul (ea e) x2) in
    if out_of (pymin bd) (pymax bd) y1 y2 then None else
    let g y := f64_div (f64_sub (ec e) y) (ea e) in
    let '(y1, x1) := cut (pymin bd) (pymax bd) g y1 x1 in
    let '(y2, x2) := cut (pymin bd) (pymax bd) g y2 x2 in
    Some (mkSeg (mkPoint x1 y1) (mkPoint x2 y2)).

Definition number_of (p : option Site) : Z := match p with Some s => sitenbr s | None => -1 end.

(** [out_ep (e)] *)
Definition out_ep st (p : edge_ptr) : outcome sweep :=
  e ← edge_at st p;
  ls ← upd_int (w_lines st) (edgenbr e) (λ l,
         mkLine (la l) (lb l) (lc l) (bisecting l) (number_of (fst (ep e)), number_of (snd (ep e)))
                (default (seg l) (clip_line e)));
  Ok (with_out st (w_sites st) ls (w_vertex st)).

Definition set_ep e (lr : bool) s : Edge :=
  mkEdge (ea e) (eb e) (ec e) (if lr then (fst (ep e), Some s) else (Some s, snd (ep e))) (reg e) (edgenbr e).

(** [endpoint (e, lr, s)] *)
Definition endpoint st (p : edge_ptr) (lr : bool) s : outcome sweep :=
  match p with
  | ToEdge k =>
      es ← upd_at (edges st) k (λ e, set_ep e lr s);
      let st := with_edges st es in
      e ← at_idx es k;
      match (if lr then fst (ep e) else snd (ep e)) with
      | None => Ok st
      | Some _ => out_ep st p
      end
  | _ => Fail OutOfBounds
  end.

Definition makevertex st v : sweep * Site :=
  (with_out st (w_sites st) (w_lines st) (w_vertex st ++ [scoord v]), mkSite (scoord v) (Z.of_nat (length (w_vertex st)))).

(** *** The queue of events *)

Definition PQhashsize : Z := 4 * sqrt_nsites bd.

(** [PQbucket (he)] for the [ystar] of [he] *)
Definition bucket_of (y : spec_float) : Z :=
  let b := int_of_f64 (f64_mul (f64_div (f64_sub y (ymin bd)) (deltay bd)) (f64_of_Z PQhashsize)) in
  let b := if b <? 0 then 0 else b in
  if PQhashsize <=? b then PQhashsize - 1 else b.
Definition PQbucket st (y : spec_float) : sweep * Z :=
  let b := bucket_of y in
  (if b <? PQmin st then with_PQ st (PQhash st) (PQcount st) b else st, b).

(** The place of a halfedge in its chain *)
Fixpoint chain_insert st he (y x : spec_float) (l : list nat) : outcome (list nat) :=
  match l with
  | [] => Ok [he]
  | n :: l' =>
      h ← he_at st n;
      nv ← (if SFgtb y (ystar h) then Ok true
            else if SFeqb y (ystar h) then nv ← deref (vertex h); Ok (SFgtb x (sx nv)) else Ok false);
      if nv : bool then l'' ← chain_insert st he y x l'; Ok (n :: l'') else Ok (he :: l)
  end.

Definition PQinsert st he v (offset : spec_float) : outcome sweep :=
  let y := f64_add (sy v) offset in
  st ← upd_he st he (λ h, set_event h (Some v) y);
  let '(st, b) := PQbucket st y in
  c ← at_int (PQhash st) b;
  c ← chain_insert st he y (sx v) c;
  h ← upd_int (PQhash st) b (λ _, c);
  Ok (with_PQ st h (PQcount st + 1) (PQmin st)).

(** The walk through a chain to its element [he], which is taken out *)
Fixpoint chain_delete he (l : list nat) : outcome (list nat) :=
  match l with
  | [] => Fail OutOfBounds
  | n :: l => if (n =? he)%nat then Ok l else l ← chain_delete he l; Ok (n :: l)
  end.

Definition PQdelete st he : outcome sweep :=
  h ← he_at st he;
  match vertex h with
  | None => Ok st
  | Some _ =>
      let '(st, b) := PQbucket st (ystar h) in
      c ← at_int (PQhash st) b;
      c ← chain_delete he c;
      p ← upd_int (PQhash st) b (λ _, c);
      upd_he (with_PQ st p (PQcount st - 1) (PQmin st)) he (λ h, set_event h None (ystar h))
  end.

Definition PQempty st : bool := PQcount st =? 0.

Fixpoint next_bucket (fuel : nat) st : outcome sweep :=
  c ← at_int (PQhash st) (PQmin st);
  match c, fuel with
  | _ :: _, _ => Ok st
  | [], O => Fail Diverges
  | [], S fuel => next_bucket fuel (with_PQ st (PQhash st) (PQcount st) (PQmin st + 1))
  end.

Definition PQ_min st : outcome (sweep * point2d) :=
  st ← next_bucket (Z.to_nat PQhashsize) st;
  c ← at_int (PQhash st) (PQmin st);
  he ← deref (head c);
  h ← he_at st he;
  v ← deref (vertex h);
  Ok (st, mkPoint (sx v) (ystar h)).

Definition PQextractmin st : outcome (sweep * nat) :=
  c ← at_int (PQhash st) (PQmin st);
  match c with
  | [] => Fail OutOfBounds
  | he :: c => h ← upd_int (PQhash st) (PQmin st) (λ _, c); Ok (with_PQ st h (PQcount st - 1) (PQmin st), he)
  end.

(** *** The list of halfedges on the beach line *)

Definition ELleftend : nat := 0.
Definition ELrightend : nat := 1.
Definition ELhashsize : Z := 2 * sqrt_nsites bd.

(** [HEcreate (e, pm)]: the new halfedge is the last; [ELleft] and [ELright] are not
    initialised. *)
Definition HEcreate st (e : edge_ptr) (pm : bool) : sweep * nat :=
  (with_halfedges st (halfedges st ++ [mkHE None None e pm None f64_zero]), length (halfedges st)).

Definition ELinsert st (lb newH : nat) : outcome sweep :=
  l ← he_at st lb;
  st ← upd_he st newH (λ h, set_right (set_left h (Some lb)) (ELright l));
  r ← deref (ELright l);
  st ← upd_he st r (λ h, set_left h (Some newH));
  upd_he st lb (λ h, set_right h (Some newH)).

Definition ELdelete st he : outcome sweep :=
  h ← he_at st he;
  l ← deref (ELleft h);
  st ← upd_he st l (λ x, set_right x (ELright h));
  r ← deref (ELright h);
  st ← upd_he st r (λ x, set_left x (ELleft h));
  upd_he st he (λ x, set_edge x DELETED).

Definition is_deleted (p : edge_ptr) : bool := match p with DELETED => true | _ => false end.

Definition ELgethash st (b : Z) : outcome (sweep * option nat) :=
  if (b <? 0) || (ELhashsize <=? b) then Ok (st, None) else
  p ← at_int (ELhash st) b;
  match p with
  | None => Ok (st, None)
  | Some he =>
      h ← he_at st he;
      if is_deleted (ELedge h) then t ← upd_int (ELhash st) b (λ _, None); Ok (with_ELhash st t, None)
      else Ok (st, Some he)
  end.

(** The search around a bucket *)
Fixpoint ELsearch (fuel : nat) st (bucket i : Z) : outcome (sweep * nat) :=
  match fuel with
  | O => Fail Diverges
  | S fuel =>
      '(st, p) ← ELgethash st (bucket - i);
      match p with
      | Some he => Ok (st, he)
      | None =>
          '(st, p) ← ELgethash st (bucket + i);
          match p with
          | Some he => Ok (st, he)
          | None => ELsearch fuel st bucket (i + 1)
          end
      end
  end.

Definition EL_left st he : outcome nat := h ← he_at st he; deref (ELleft h).
Definition EL_right st he : outcome nat := h ← he_at st he; deref (ELright h).

(** [do he = he->ELright while (...)] and [do he = he->ELleft while (...)] *)
Fixpoint go_right (fuel : nat) st (p : point2d) he : outcome nat :=
  match fuel with
  | O => Fail Diverges
  | S fuel =>
      he ← EL_right st he;
      if (he =? ELrightend)%nat then Ok he else
      b ← right_of st he p;
      if b : bool then go_right fuel st p he else Ok he
  end.
Fixpoint go_left (fuel : nat) st (p : point2d) he : outcome nat :=
  match fuel with
  | O => Fail Diverges
  | S fuel =>
      he ← EL_left st he;
      if (he =? ELleftend)%nat then Ok he else
      b ← right_of st he p;
      if b : bool then Ok he else go_left fuel st p he
  end.

Definition EL_bucket (p : point2d) : Z :=
  let b := int_of_f64 (f64_mul (f64_div (f64_sub (px p) (xmin bd)) (deltax bd)) (f64_of_Z ELhashsize)) in
  let b := if b <? 0 then 0 else b in
  if ELhashsize <=? b then ELhashsize - 1 else b.

(** From a halfedge near it to the one to the left of [p] *)
Definition EL_walk st he (p : point2d) : outcome nat :=
  let fuel := length (halfedges st) in
  onward ← (if (he =? ELleftend)%nat then Ok true
            else if (he =? ELrightend)%nat then Ok false else right_of st he p);
  if onward : bool then he ← go_right fuel st p he; EL_left st he else go_left fuel st p he.

(** [ELleftbnd (p)] *)
Definition ELleftbnd st (p : point2d) : outcome (sweep * nat) :=
  let bucket := EL_bucket p in
  '(st, q) ← ELgethash st bucket;
  '(st, he) ← match q with
              | Some he => Ok (st, he)
              | None => ELsearch (Z.to_nat ELhashsize) st bucket 1
              end;
  he ← EL_walk st he p;
  if (0 <? bucket) && (bucket <? ELhashsize - 1) then
    t ← upd_int (ELhash st) bucket (λ _, Some he); Ok (with_ELhash st t, he)
  else Ok (st, he).

Definition leftreg st he : outcome Site :=
  h ← he_at st he;
  match ELedge h with
  | NoEdge => Ok (bottomsite bd)
  | p => e ← edge_at st p; Ok (if ELpm h then snd (reg e) else fst (reg e))
  end.
Definition rightreg st he : outcome Site :=
  h ← he_at st he;
  match ELedge h with
  | NoEdge => Ok (bottomsite bd)
  | p => e ← edge_at st p; Ok (if ELpm h then fst (reg e) else snd (reg e))
  end.

(** *** The events *)

(** An intersection that was found becomes the event of [he]; an earlier one is
    replaced. *)
Definition new_event st (replace : bool) he (p : option Site) (from : Site) : outcome sweep :=
  match p with
  | None => Ok st
  | Some p =>
      st ← (if replace then PQdelete st he else Ok st);
      PQinsert st he p (dist p from)
  end.

(** The smallest is a site. *)
Definition site_event st (newsite : Site) : outcome sweep :=
  '(st, lbnd) ← ELleftbnd st (scoord newsite);
  rbnd ← EL_right st lbnd;
  bot ← rightreg st lbnd;
  '(st, k) ← bisect st bot newsite;
  let '(st, bisector) := HEcreate st (ToEdge k) LE in
  st ← ELinsert st lbnd bisector;
  p ← intersect st lbnd bisector;
  st ← new_event st true lbnd p newsite;
  let lbnd := bisector in
  let '(st, bisector) := HEcreate st (ToEdge k) RE in
  st ← ELinsert st lbnd bisector;
  p ← intersect st bisector rbnd;
  new_event st false bisector p newsite.

(** The smallest is an intersection. *)
Definition circle_event st : outcome sweep :=
  '(st, lbnd) ← PQextractmin st;
  llbnd ← EL_left st lbnd;
  rbnd ← EL_right st lbnd;
  rrbnd ← EL_right st rbnd;
  bot ← leftreg st lbnd;
  top ← rightreg st rbnd;
  hl ← he_at st lbnd;
  v ← deref (vertex hl);
  let '(st, v) := makevertex st v in
  st ← endpoint st (ELedge hl) (ELpm hl) v;
  hr ← he_at st rbnd;
  st ← endpoint st (ELedge hr) (ELpm hr) v;
  st ← ELdelete st lbnd;
  st ← PQdelete st rbnd;
  st ← ELdelete st rbnd;
  let '(bot, top, pm) := if SFgtb (sy bot) (sy top) then (top, bot, RE) else (bot, top, LE) in
  '(st, k) ← bisect st bot top;
  let '(st, bisector) := HEcreate st (ToEdge k) pm in
  st ← ELinsert st llbnd bisector;
  st ← endpoint st (ToEdge k) (negb pm) v;
  p ← intersect st llbnd bisector;
  st ← new_event st true llbnd p bot;
  p ← intersect st bisector rrbnd;
  new_event st false bisector p bot.

(** Whether the next site comes before the next intersection *)
Definition site_first s (next : option point2d) : bool :=
  match next with
  | None => true
  | Some q => SFltb (sy s) (py q) || SFeqb (sy s) (py q) && SFltb (sx s) (px q)
  end.

Fixpoint sweep_loop (fuel : nat) st (rest : list Site) : outcome sweep :=
  match fuel with
  | O => Fail Diverges
  | S fuel =>
      '(st, next) ← (if PQempty st then Ok (st, None) else '(st, q) ← PQ_min st; Ok (st, Some q));
      match rest with
      | s :: rest' =>
          if site_first s next then st ← site_event st s; sweep_loop fuel st rest'
          else st ← circle_event st; sweep_loop fuel st rest
      | [] => if PQempty st then Ok st else st ← circle_event st; sweep_loop fuel st []
      end
  end.

(** The edges that go to infinity *)
Fixpoint out_rest (fuel : nat) st he : outcome sweep :=
  match fuel with
  | O => Fail Diverges
  | S fuel =>
      if (he =? ELrightend)%nat then Ok st else
      h ← he_at st he;
      st ← out_ep st (ELedge h);
      he ← EL_right st he;
      out_rest fuel st he
  end.

(** The state [Voronoi ()] starts from: [PQinitialize] and [ELinitialize] *)
Definition sweep_start (n : nat) : sweep :=
  mkSweep [mkHE None (Some ELrightend) NoEdge LE None f64_zero; mkHE (Some ELleftend) None NoEdge LE None f64_zero] []
    (repeat [] (Z.to_nat PQhashsize)) 0 0
    (<[Z.to_nat (ELhashsize - 1) := Some ELrightend]> (<[0%nat := Some ELleftend]> (repeat None (Z.to_nat ELhashsize))))
    (repeat [] n) [] [].

(** [Voronoi ()], with the sites after the first: each site is one event, and each event
    after it leaves one halfedge less. *)
Definition Voronoi_sweep (n : nat) (rest : list Site) : outcome sweep :=
  st ← sweep_loop (3 * length rest + 1) (sweep_start n) rest;
  he ← EL_right st ELleftend;
  out_rest (length (halfedges st)) st he.
End sweep.

(** *** A diagram *)

(** [readsites ()]: the sites in the order of [mSites] *)
Definition sites_of (pts : list point2d) : list Site := zip_with mkSite pts (Z.of_nat <$> seq 0 (length pts)).

Definition least (f : point2d → spec_float) (pts : list point2d) (x : spec_float) : spec_float :=
  foldl (λ m p, if SFltb (f p) m then f p else m) x pts.
Definition greatest (f : point2d → spec_float) (pts : list point2d) (x : spec_float) : spec_float :=
  foldl (λ m p, if SFgtb (f p) m then f p else m) x pts.

(** [readsites ()], [geominit ()] and [plotinit ()] *)
Definition bounds_of (pts : list point2d) (x0 y0 y1 : spec_float) (bottom : Site) : bounds :=
  let x_min := least px pts x0 in
  let x_max := greatest px pts x0 in
  let dy := f64_sub y1 y0 in
  let dx := f64_sub x_max x_min in
  let d := f64_mul (if SFgtb dx dy then dx else dy) f64_1_1 in
  mkBounds x_min dx y0 dy (Z.sqrt (Z.of_nat (length pts) + 4))
    (f64_sub x_min (f64_div (f64_sub d dx) f64_two)) (f64_add x_max (f64_div (f64_sub d dx) f64_two))
    (f64_sub y0 (f64_div (f64_sub d dy) f64_two)) (f64_add y1 (f64_div (f64_sub d dy) f64_two)) bottom.

(** [scomp]: the order in which the sweep meets the sites *)
Definition scomp (s t : Site) : comparison :=
  if SFltb (sy s) (sy t) then Lt else if SFgtb (sy s) (sy t) then Gt
  else if SFltb (sx s) (sx t) then Lt else if SFgtb (sx s) (sx t) then Gt else Eq.

(** [calsfv ()] after [clearAll ()]: the edges of each site, the lines and the vertices. Of no
    sites it reads the first. *)
Definition calsfv (qsort : (Site → Site → comparison) → list Site → list Site) (pts : list point2d)
    : outcome (list (list Z) * list line2d * list point2d) :=
  match pts, qsort scomp (sites_of pts) with
  | p0 :: _, bottom :: rest =>
      let last := default bottom (last rest) in
      let bd := bounds_of pts (px p0) (sy bottom) (sy last) bottom in
      st ← Voronoi_sweep bd (length pts) rest;
      Ok (w_sites st, w_lines st, w_vertex st)
  | _, _ => Fail OutOfBounds
  end.
