(* ===== verification/BeachLine.v ===== *)
(** The beach line of the sweep: its halfedges form a doubly linked list, from the left end
    to the right end, whatever is inserted and deleted; deleted ones are marked, and the walks
    along the list end. *)

From S2P Require Import Prelude Bytes StdMap Float Serial Geometry Sweep.
Local Open Scope Z_scope.

(** *** Doubly linked lists *)

(** The links [ls] to the left and [rs] to the right are those of the list. *)
Fixpoint linked (ls rs : list (option nat)) (l : list nat) : Prop :=
  match l with
  | a :: (b :: _) as t => rs !! a = Some (Some b) ∧ ls !! b = Some (Some a) ∧ linked ls rs t
  | _ => True
  end.

Lemma linked_split ls rs l1 a l2 : linked ls rs (l1 ++ a :: l2) ↔ linked ls rs (l1 ++ [a]) ∧ linked ls rs (a :: l2).
Proof.
  induction l1 as [|x l1 IH]; cbn [app].
  - split; [by split|by intros [_ ?]].
  - destruct l1 as [|y l1]; cbn [app] in *.
    + cbn [linked]. destruct l2; tauto.
    + cbn [linked] in *. rewrite IH. tauto.
Qed.

(** Only the links inside the list matter. *)
Lemma linked_left ls rs ls' l a : linked ls rs (a :: l) → (∀ x, x ∈ l → ls' !! x = ls !! x) → linked ls' rs (a :: l).
Proof.
  revert a. induction l as [|b l IH]; intros a; [done|]. intros (R & L & T) E.
  split; [done|]. split; [by rewrite E by left|]. apply IH; [done|]. intros x Hx. apply E. by right.
Qed.

Lemma linked_right ls rs rs' l a : linked ls rs (l ++ [a]) → (∀ x, x ∈ l → rs' !! x = rs !! x) → linked ls rs' (l ++ [a]).
Proof.
  revert a. induction l as [|b l IH]; intros a; [done|]. cbn [app]. intros H E.
  destruct l as [|c l]; cbn [app linked] in *.
  - destruct H as (R & L & _). split; [by rewrite E by left|done].
  - destruct H as (R & L & T). split; [by rewrite E by left|]. split; [done|]. apply IH; [done|]. intros x Hx. apply E. by right.
Qed.

(** The links of two neighbors *)
Lemma linked_pair ls rs l1 a b l2 : linked ls rs (l1 ++ a :: b :: l2) → rs !! a = Some (Some b) ∧ ls !! b = Some (Some a).
Proof. intros [_ (R & L & _)]%linked_split. done. Qed.

Lemma linked_join ls rs l1 a b l2 : linked ls rs (l1 ++ [a]) → rs !! a = Some (Some b) → ls !! b = Some (Some a) →
  linked ls rs (b :: l2) → linked ls rs (l1 ++ a :: b :: l2).
Proof. intros L1 R L L2. apply linked_split. by split. Qed.

Lemma nodup_pair (l1 : list nat) a b l2 : NoDup (l1 ++ a :: b :: l2) →
  a ≠ b ∧ (∀ x, x ∈ l1 → x ≠ a ∧ x ≠ b ∧ (x ∉ l2)) ∧ (a ∉ l2) ∧ (b ∉ l2).
Proof.
  intros (_ & D & N)%NoDup_app. apply NoDup_cons in N as [Ha N]. apply NoDup_cons in N as [Hb _].
  apply not_elem_of_cons in Ha as [Hab Ha]. splits; try done. intros x Hx. pose proof (D x Hx) as Hn.
  apply not_elem_of_cons in Hn as [? Hn]. apply not_elem_of_cons in Hn as [? ?]. by split.
Qed.

(** [c] is inserted between [a] and [b]. *)
Lemma linked_insert ls rs l1 a b c l2 : linked ls rs (l1 ++ a :: b :: l2) → NoDup (l1 ++ a :: b :: l2) →
  c ∉ (l1 ++ a :: b :: l2) → (c < length ls)%nat → (c < length rs)%nat →
  linked (<[b := Some c]> (<[c := Some a]> ls)) (<[a := Some c]> (<[c := Some b]> rs)) (l1 ++ a :: c :: b :: l2).
Proof.
  intros L N Hc Hl Hr. pose proof (linked_pair _ _ _ _ _ _ L) as [Ra Lb]. pose proof (nodup_pair _ _ _ _ N) as (Hab & N1 & Na & Nb).
  rewrite not_elem_of_app, !not_elem_of_cons in Hc. destruct Hc as (Hc1 & Hca & Hcb & Hc2).
  pose proof (lookup_lt_Some _ _ _ Ra) as La. pose proof (lookup_lt_Some _ _ _ Lb) as Lb'.
  apply linked_split in L as [L1 (_ & _ & L2)]. apply linked_join.
  - apply (linked_right _ rs); [|intros x Hx; destruct (N1 x Hx) as (? & _); rewrite !list_lookup_insert_ne; [done|by intros ->|congruence]].
    destruct l1 as [|x l1]; [done|]. cbn [app] in *. apply (linked_left ls); [exact L1|].
    intros y Hy. assert (y ≠ b ∧ y ≠ c).
    { apply elem_of_app in Hy as [Hy|Hy].
      - split; [apply N1; by right|]. intros ->. apply Hc1. by right.
      - apply list_elem_of_singleton in Hy as ->. split; [done|congruence]. }
    destruct H. rewrite !list_lookup_insert_ne; congruence.
  - by rewrite list_lookup_insert_eq by (rewrite length_insert; done).
  - rewrite list_lookup_insert_ne by congruence. by rewrite list_lookup_insert_eq.
  - split; [rewrite list_lookup_insert_ne by congruence; by rewrite list_lookup_insert_eq|].
    split; [by rewrite list_lookup_insert_eq by (rewrite length_insert; done)|].
    destruct l2 as [|y l2] using rev_ind; [done|]. clear IHl2.
    rewrite app_comm_cons in *. apply (linked_right _ rs).
    + rewrite <- app_comm_cons in *. apply (linked_left ls); [exact L2|]. intros x Hx.
      rewrite !list_lookup_insert_ne; [done|by intros ->|by intros ->].
    + intros x Hx. rewrite !list_lookup_insert_ne; [done| |].
      * intros <-. apply elem_of_cons in Hx as [->|Hx]; [done|]. apply Hc2. apply elem_of_app. by left.
      * intros <-. apply elem_of_cons in Hx as [->|Hx]; [done|]. apply Na. apply elem_of_app. by left.
Qed.

(** [c] is deleted between [a] and [b]. *)
Lemma linked_delete ls rs l1 a b c l2 : linked ls rs (l1 ++ a :: c :: b :: l2) → NoDup (l1 ++ a :: c :: b :: l2) →
  linked (<[b := Some a]> ls) (<[a := Some b]> rs) (l1 ++ a :: b :: l2).
Proof.
  intros L N. pose proof (linked_pair _ _ _ _ _ _ L) as [Ra Lc].
  pose proof (nodup_pair _ _ _ _ N) as (Hac & N1 & Na & Nc). apply not_elem_of_cons in Na as [Hab Na].
  assert (Lb : ls !! b = Some (Some c)).
  { change (a :: c :: b :: l2) with ([a] ++ c :: b :: l2) in L. rewrite app_assoc in L. by apply (linked_pair _ _ (l1 ++ [a])) in L as [_ L]. }
  assert (Nb : b ∉ l2). { apply NoDup_app in N as (_ & _ & N). by rewrite !NoDup_cons in N; destruct N as (_ & _ & ? & _). }
  pose proof (lookup_lt_Some _ _ _ Ra) as La. pose proof (lookup_lt_Some _ _ _ Lb) as Lb'.
  apply linked_split in L as [L1 (_ & _ & L2)]. destruct L2 as (_ & _ & L2). apply linked_join.
  - apply (linked_right _ rs); [|intros x Hx; rewrite list_lookup_insert_ne; [done|]; destruct (N1 x Hx); congruence].
    destruct l1 as [|x l1]; [done|]. cbn [app] in *. apply (linked_left ls); [exact L1|]. intros y Hy.
    rewrite list_lookup_insert_ne; [done|]. intros <-. apply elem_of_app in Hy as [Hy|Hy].
    + destruct (N1 b) as (_ & _ & Hn); [by right|]. apply Hn. by left.
    + apply list_elem_of_singleton in Hy. congruence.
  - by apply list_lookup_insert_eq.
  - by apply list_lookup_insert_eq.
  - destruct l2 as [|y l2] using rev_ind; [done|]. clear IHl2. rewrite app_comm_cons in *. apply (linked_right _ rs).
    + rewrite <- app_comm_cons in *. apply (linked_left ls); [exact L2|]. intros x Hx. rewrite list_lookup_insert_ne; [done|]. by intros <-.
    + intros x Hx. rewrite list_lookup_insert_ne; [done|]. intros <-. apply elem_of_cons in Hx as [->|Hx]; [done|].
      apply Na. apply elem_of_app. by left.
Qed.

Lemma linked_grow ls rs x y l : linked ls rs l → linked (ls ++ [x]) (rs ++ [y]) l.
Proof.
  induction l as [|a [|b l] IH]; [done|done|]. intros (R & L & T).
  split; [by apply lookup_app_l_Some|]. split; [by apply lookup_app_l_Some|by apply IH].
Qed.

(** *** Views of the halfedges *)

Lemma upd_he_ok st i h f : halfedges st !! i = Some h →
  upd_he st i f = Ok (with_halfedges st (<[i := f h]> (halfedges st))).
Proof. intros E. unfold upd_he, upd_at. by rewrite (at_idx_ok _ _ _ E). Qed.

Lemma he_at_ok st i h : halfedges st !! i = Some h → he_at st i = Ok h.
Proof. apply at_idx_ok. Qed.

(** A change that a member does not notice, and one it does *)
Lemma view_same {B} (f : Halfedge → B) (hs : list Halfedge) i h h' : hs !! i = Some h → f h' = f h → f <$> <[i := h']> hs = f <$> hs.
Proof. intros E Ef. rewrite list_fmap_insert, Ef. apply list_insert_id. by rewrite list_lookup_fmap, E. Qed.

Lemma view_at {B} (f : Halfedge → B) (hs : list Halfedge) i h : hs !! i = Some h → (f <$> hs) !! i = Some (f h).
Proof. intros E. by rewrite list_lookup_fmap, E. Qed.

Lemma at_view {B} (f : Halfedge → B) (hs : list Halfedge) i b : (f <$> hs) !! i = Some b → ∃ h, hs !! i = Some h ∧ f h = b.
Proof. rewrite list_lookup_fmap. destruct (hs !! i) as [h|]; [|done]. intros [= <-]. by exists h. Qed.

(** *** The invariant *)

Definition line (mid : list nat) : list nat := ELleftend :: mid ++ [ELrightend].

(** [mid] are the halfedges between the ends; [ne] is the number of edges. *)
Record beach (hs : list Halfedge) (ne : nat) (mid : list nat) : Prop := mk_beach {
  b_nodup : NoDup (line mid);
  b_linked : linked (ELleft <$> hs) (ELright <$> hs) (line mid);
  b_ends : (ELedge <$> hs) !! ELleftend = Some NoEdge ∧ (ELedge <$> hs) !! ELrightend = Some NoEdge;
  b_mid : ∀ x, x ∈ mid → ∃ k, (ELedge <$> hs) !! x = Some (ToEdge k) ∧ (k < ne)%nat;
  b_gone : ∀ x, (x < length hs)%nat → x ∈ line mid ∨ (ELedge <$> hs) !! x = Some DELETED;
  b_quiet : (vertex <$> hs) !! ELleftend = Some None ∧ (vertex <$> hs) !! ELrightend = Some None }.

(** The line around a place in it *)
Lemma line_split m1 m2 : ∃ p a b q, ELleftend :: m1 = p ++ [a] ∧ m2 ++ [ELrightend] = b :: q ∧ line (m1 ++ m2) = p ++ a :: b :: q.
Proof.
  destruct (exists_last (l := ELleftend :: m1)) as (p & a & E); [done|].
  destruct (m2 ++ [ELrightend]) as [|b q] eqn:E2; [by destruct m2|]. exists p, a, b, q. splits; try done.
  unfold line. rewrite <- app_assoc, E2, app_comm_cons, E, <- app_assoc. done.
Qed.

Section beach.
Context (st : sweep) (mid : list nat) (B : beach (halfedges st) (length (edges st)) mid).

Lemma in_range x : x ∈ line mid → (x < length (halfedges st))%nat.
Proof.
  intros Hx. unfold line in Hx. rewrite elem_of_cons, elem_of_app, list_elem_of_singleton in Hx.
  assert (∃ p, (ELedge <$> halfedges st) !! x = Some p) as [p Hp].
  { destruct Hx as [->|[Hx | ->]]; [exists NoEdge; apply B| |exists NoEdge; apply B]. destruct (b_mid _ _ _ B x Hx) as (k & E & _). by eexists. }
  apply lookup_lt_Some in Hp. by rewrite length_fmap in Hp.
Qed.

Lemma halfedge_at x : x ∈ line mid → ∃ h, halfedges st !! x = Some h.
Proof. intros Hx. apply lookup_lt_is_Some_2. by apply in_range. Qed.

Lemma neighbors_ok p a b q : line mid = p ++ a :: b :: q → EL_right st a = Ok b ∧ EL_left st b = Ok a.
Proof.
  intros E. pose proof (b_linked _ _ _ B) as L. rewrite E in L. apply linked_pair in L as [R L].
  apply at_view in R as (ha & Ha & Ra). apply at_view in L as (hb & Hb & Lb).
  unfold EL_right, EL_left. by rewrite (he_at_ok _ _ _ Ha), (he_at_ok _ _ _ Hb), !bind_ok, Ra, Lb.
Qed.

Lemma mid_edge x : x ∈ mid → ∃ h k e, halfedges st !! x = Some h ∧ ELedge h = ToEdge k ∧ edges st !! k = Some e.
Proof.
  intros Hx. destruct (b_mid _ _ _ B x Hx) as (k & E & Hk). apply at_view in E as (h & Hh & E).
  destruct (lookup_lt_is_Some_2 (edges st) k Hk) as [e He]. by exists h, k, e.
Qed.

Lemma right_of_ok x p : x ∈ mid → ∃ b, right_of st x p = Ok b.
Proof.
  intros Hx. destruct (mid_edge x Hx) as (h & k & e & Hh & Ek & He). unfold right_of, edge_at.
  rewrite (he_at_ok _ _ _ Hh), bind_ok, Ek, (at_idx_ok _ _ _ He), bind_ok. cbv zeta.
  destruct (_ && _); [by eexists|]. destruct (_ && _); by eexists.
Qed.

(** The ends *)
Lemma ends_differ : (ELleftend ∉ mid) ∧ (ELrightend ∉ mid).
Proof.
  pose proof (b_nodup _ _ _ B) as N. unfold line in N. apply NoDup_cons in N as [N1 N2]. apply NoDup_app in N2 as (_ & N2 & _).
  split; [|intros Hx; apply (N2 _ Hx); by left]. intros Hx. apply N1. apply elem_of_app. by left.
Qed.

(** What has something on both sides is between the ends. *)
Lemma inner x l1 l2 : line mid = l1 ++ x :: l2 → l1 ≠ [] → l2 ≠ [] → x ∈ mid.
Proof.
  intros E H1 H2. destruct l1 as [|y l1]; [done|]. destruct (exists_last H2) as (l2' & z & ->).
  injection E as _ E. rewrite app_comm_cons, app_assoc in E. apply app_inj_tail in E as [-> _].
  apply elem_of_app. right. by left.
Qed.

(** Walking to the right ends, at a halfedge behind. *)
Lemma go_right_ok p fuel l1 a l2 : line mid = l1 ++ a :: l2 → l2 ≠ [] → (length l2 ≤ fuel)%nat →
  ∃ b, go_right fuel st p a = Ok b ∧ b ∈ l2.
Proof.
  revert l1 a l2. induction fuel as [|fuel IH]; intros l1 a l2 E Hne Hf.
  { destruct l2; [done|]. cbn in Hf. lia. }
  destruct l2 as [|b l2]; [done|]. cbn [go_right]. destruct (neighbors_ok _ _ _ _ E) as [-> _]. rewrite bind_ok.
  destruct (Nat.eqb_spec b ELrightend) as [->|Hb]; [exists ELrightend; split; [done|by left]|].
  assert (H2 : l2 ≠ []).
  { intros ->. apply Hb. unfold line in E. rewrite app_comm_cons in E. change [a; b] with ([a] ++ [b]) in E. rewrite app_assoc in E.
    by apply app_inj_tail in E as [_ <-]. }
  change (a :: b :: l2) with ([a] ++ b :: l2) in E. rewrite app_assoc in E.
  destruct (right_of_ok b p) as [[] ->]; [apply (inner _ _ _ E); [by destruct l1|done]| |]; rewrite bind_ok; [|exists b; split; [done|by left]].
  destruct (IH _ _ _ E) as (c & -> & Hc); [done|cbn in Hf; lia|exists c; split; [done|by right]].
Qed.

(** And to the left *)
Lemma go_left_ok p fuel l1 a l2 : line mid = l1 ++ a :: l2 → l1 ≠ [] → (length l1 ≤ fuel)%nat →
  ∃ b, go_left fuel st p a = Ok b ∧ b ∈ l1.
Proof.
  revert l1 a l2. induction fuel as [|fuel IH]; intros l1 a l2 E Hne Hf.
  { destruct l1; [done|]. cbn in Hf. lia. }
  destruct (exists_last Hne) as (l1' & b & ->). rewrite <- app_assoc in E. cbn [app] in E. cbn [go_left].
  destruct (neighbors_ok _ _ _ _ E) as [_ ->]. rewrite bind_ok.
  destruct (Nat.eqb_spec b ELleftend) as [->|Hb]; [exists ELleftend; split; [done|]; apply elem_of_app; right; by left|].
  assert (H1 : l1' ≠ []) by (intros ->; apply Hb; by injection E).
  destruct (right_of_ok b p (inner _ _ _ E H1 ltac:(done))) as [[] ->]; rewrite bind_ok; [exists b; split; [done|]; apply elem_of_app; right; by left|].
  destruct (IH _ _ _ E H1) as (c & -> & Hc); [rewrite length_app in Hf; cbn in Hf; lia|exists c; split; [done|]; apply elem_of_app; by left].
Qed.

(** The walk from any halfedge of the line ends at one that is not the right end. *)
Lemma walk_ok x p : x ∈ line mid → ∃ m1 m2 q a, EL_walk st x p = Ok a ∧ mid = m1 ++ m2 ∧ ELleftend :: m1 = q ++ [a].
Proof.
  intros Hx. apply list_elem_of_split in Hx as (l1 & l2 & E).
  assert (Hlen : (length (line mid) ≤ length (halfedges st))%nat).
  { rewrite <- (length_seq (length (halfedges st)) 0). apply submseteq_length, NoDup_submseteq; [apply B|].
    intros y Hy. apply list_elem_of_In, in_seq. split; [lia|]. by apply in_range. }
  rewrite E, length_app in Hlen. cbn [length] in Hlen. unfold EL_walk. cbv zeta.
  set (o := if (x =? ELleftend)%nat then _ else _).
  assert (Ho : ∃ b, o = Ok b ∧ (b = true → l2 ≠ []) ∧ (b = false → l1 ≠ [])).
  { unfold o. destruct (Nat.eqb_spec x ELleftend) as [->|H0].
    { exists true. splits; [done| |done]. intros _ ->. unfold line in E. rewrite app_comm_cons in E. by apply app_inj_tail in E as [_ E]. }
    assert (H1 : l1 ≠ []) by (intros ->; apply H0; by injection E).
    destruct (Nat.eqb_spec x ELrightend) as [->|H2]; [by exists false|].
    assert (H3 : l2 ≠ []). { intros ->. apply H2. unfold line in E. rewrite app_comm_cons in E. by apply app_inj_tail in E as [_ <-]. }
    destruct (right_of_ok x p (inner _ _ _ E H1 H3)) as [b ->]. by exists b. }
  destruct Ho as (b & -> & Hr & Hl). rewrite bind_ok.
  assert (Place : ∀ a r, line mid = a ++ r → a ≠ [] → r ≠ [] → ∃ m1 m2 q z, mid = m1 ++ m2 ∧ a = ELleftend :: m1 ∧ ELleftend :: m1 = q ++ [z]).
  { intros a r Ea Ha Hn. destruct a as [|y m1]; [done|]. injection Ea as <- Ea. destruct (exists_last Hn) as (m2 & z & ->).
    rewrite app_assoc in Ea. apply app_inj_tail in Ea as [-> _]. destruct (exists_last (l := ELleftend :: m1)) as (q & w & Eq); [done|].
    by exists m1, m2, q, w. }
  destruct b.
  - destruct (go_right_ok p (length (halfedges st)) _ _ _ E (Hr eq_refl)) as (c & -> & Hc); [lia|].
    rewrite bind_ok. apply list_elem_of_split in Hc as (r1 & r2 & ->).
    rewrite app_comm_cons, app_assoc in E. destruct (Place _ _ E) as (m1 & m2 & q & z & Em & Ea & Eq); [by destruct l1|done|].
    exists m1, m2, q, z. splits; [|done|done]. rewrite Ea, Eq, <- app_assoc in E. exact (proj2 (neighbors_ok _ _ _ _ E)).
  - destruct (go_left_ok p (length (halfedges st)) _ _ _ E (Hl eq_refl)) as (c & -> & Hc); [lia|].
    apply list_elem_of_split in Hc as (r1 & r2 & ->). rewrite <- app_assoc in E. cbn [app] in E.
    change (c :: r2 ++ x :: l2) with ([c] ++ (r2 ++ x :: l2)) in E. rewrite app_assoc in E.
    destruct (Place _ _ E) as (m1 & m2 & q & z & Em & Ea & Eq); [by destruct r1|by destruct r2|].
    exists m1, m2, q, z. splits; [|done|done]. rewrite <- Ea in Eq. by apply app_inj_tail in Eq as [_ <-].
Qed.
End beach.

(** *** Insertion and deletion *)

(** What the links do not touch *)
Definition same_but_links (hs hs' : list Halfedge) : Prop :=
  ELedge <$> hs' = ELedge <$> hs ∧ vertex <$> hs' = vertex <$> hs ∧ ystar <$> hs' = ystar <$> hs.

Lemma same_upd (hs : list Halfedge) i h h' : hs !! i = Some h →
  ELedge h' = ELedge h → vertex h' = vertex h → ystar h' = ystar h → same_but_links hs (<[i := h']> hs).
Proof. intros E E1 E2 E3. unfold same_but_links. by rewrite !(view_same _ hs i h). Qed.

Lemma same_trans hs1 hs2 hs3 : same_but_links hs1 hs2 → same_but_links hs2 hs3 → same_but_links hs1 hs3.
Proof. unfold same_but_links. intros (? & ? & ?) (? & ? & ?). splits; congruence. Qed.

Lemma same_length hs hs' : same_but_links hs hs' → length hs' = length hs.
Proof. intros (E & _). apply (f_equal length) in E. by rewrite !length_fmap in E. Qed.

(** The links after [ELinsert] *)
Lemma insert_links st a n b ha hb hn : halfedges st !! a = Some ha → halfedges st !! b = Some hb → halfedges st !! n = Some hn →
  ELright ha = Some b → a ≠ b → a ≠ n → b ≠ n →
  ∃ hs, ELinsert st a n = Ok (with_halfedges st hs) ∧ same_but_links (halfedges st) hs
  ∧ ELleft <$> hs = <[b := Some n]> (<[n := Some a]> (ELleft <$> halfedges st))
  ∧ ELright <$> hs = <[a := Some n]> (<[n := Some b]> (ELright <$> halfedges st)).
Proof.
  intros Ha Hb Hn Er Hab Han Hbn. unfold ELinsert. rewrite (he_at_ok _ _ _ Ha), bind_ok, (upd_he_ok _ _ _ _ Hn), bind_ok, Er.
  cbn [deref]. rewrite bind_ok. set (hn' := set_right _ _). set (hs1 := <[n := hn']> (halfedges st)).
  assert (Hb1 : hs1 !! b = Some hb) by (unfold hs1; by rewrite list_lookup_insert_ne).
  assert (Ha1 : hs1 !! a = Some ha) by (unfold hs1; by rewrite list_lookup_insert_ne).
  rewrite (upd_he_ok (with_halfedges st hs1) _ _ _ Hb1), bind_ok. set (hs2 := <[b := _]> (halfedges (with_halfedges st hs1))).
  assert (Ha2 : hs2 !! a = Some ha) by (unfold hs2; by rewrite list_lookup_insert_ne).
  rewrite (upd_he_ok (with_halfedges (with_halfedges st hs1) hs2) _ _ _ Ha2).
  eexists. split; [reflexivity|]. cbn [halfedges with_halfedges]. split.
  - eapply same_trans; [|by eapply same_upd]. eapply same_trans; [|by eapply same_upd]. by eapply same_upd.
  - rewrite (view_same ELleft hs2 a ha) by done. rewrite (list_fmap_insert ELright hs2). unfold hs2.
    cbn [halfedges with_halfedges]. rewrite (view_same ELright hs1 b hb) by done. rewrite (list_fmap_insert ELleft hs1).
    unfold hs1. rewrite !list_fmap_insert. done.
Qed.

Lemma ELinsert_ok st mid m1 m2 q a k pm : beach (halfedges st) (length (edges st)) mid → mid = m1 ++ m2 →
  ELleftend :: m1 = q ++ [a] → (k < length (edges st))%nat →
  ∃ hs, ELinsert (fst (HEcreate st (ToEdge k) pm)) a (length (halfedges st)) = Ok (with_halfedges st hs)
  ∧ beach hs (length (edges st)) (m1 ++ length (halfedges st) :: m2)
  ∧ vertex <$> hs = (vertex <$> halfedges st) ++ [None] ∧ ystar <$> hs = (ystar <$> halfedges st) ++ [f64_zero].
Proof.
  intros B -> Eq Hk. destruct (line_split m1 m2) as (p & a' & b & r & E1 & E2 & EL).
  assert (a' = a) as -> by (rewrite Eq in E1; by apply app_inj_tail in E1 as [_ ->]).
  set (n := length (halfedges st)). set (st1 := fst (HEcreate st (ToEdge k) pm)).
  set (h0 := mkHE None None (ToEdge k) pm None f64_zero).
  assert (Ea : a ∈ line (m1 ++ m2)) by (rewrite EL; apply elem_of_app; right; by left).
  assert (Eb : b ∈ line (m1 ++ m2)) by (rewrite EL; apply elem_of_app; right; right; by left).
  destruct (halfedge_at st _ B a Ea) as [ha Ha]. destruct (halfedge_at st _ B b Eb) as [hb Hb].
  assert (Fresh : n ∉ line (m1 ++ m2)). { intros Hn. apply (in_range st _ B) in Hn. unfold n in Hn. lia. }
  pose proof (b_nodup _ _ _ B) as N. rewrite EL in N, Fresh.
  pose proof (linked_pair _ _ _ _ _ _ ltac:(rewrite <- EL; apply B)) as [Ra Lb].
  assert (Er : ELright ha = Some b). { apply at_view in Ra as (h & Hh & Er). congruence. }
  destruct (insert_links st1 a n b ha hb h0) as (hs & E & S0 & El & Err).
  - cbn. by apply lookup_app_l_Some.
  - cbn. by apply lookup_app_l_Some.
  - cbn. unfold n. by rewrite lookup_app_r, Nat.sub_diag.
  - done.
  - exact (proj1 (nodup_pair _ _ _ _ N)).
  - intros ->. apply Fresh. apply elem_of_app. right. by left.
  - intros ->. apply Fresh. apply elem_of_app. right. right. by left.
  - exists hs. unfold same_but_links in S0. destruct S0 as (Se & Sv & Sy).
    change (halfedges st1) with (halfedges st ++ [h0]) in El, Err, Se, Sv, Sy.
    rewrite (fmap_app ELleft) in El. rewrite (fmap_app ELright) in Err. rewrite (fmap_app ELedge) in Se.
    rewrite (fmap_app vertex) in Sv. rewrite (fmap_app ystar) in Sy.
    assert (ELn : line (m1 ++ n :: m2) = p ++ a :: n :: b :: r).
    { unfold line. rewrite <- app_assoc. cbn [app]. rewrite E2, app_comm_cons, E1, <- app_assoc. done. }
    split; [exact E|]. split; [|by split]. split.
    + rewrite ELn. assert (P : p ++ a :: n :: b :: r ≡ₚ n :: p ++ a :: b :: r) by solve_Permutation. rewrite P. by apply NoDup_cons.
    + rewrite ELn, El, Err. apply linked_insert; [rewrite <- EL; apply linked_grow, B|exact N|exact Fresh| |];
        rewrite length_app, length_fmap; cbn; unfold n; lia.
    + rewrite Se. destruct (b_ends _ _ _ B). split; by apply lookup_app_l_Some.
    + intros x Hx. rewrite Se. apply elem_of_app in Hx. rewrite elem_of_cons in Hx.
      assert (Hx' : x = n ∨ x ∈ m1 ++ m2) by (rewrite elem_of_app; tauto). destruct Hx' as [->|Hx'].
      * exists k. split; [|done]. unfold n. by rewrite lookup_app_r, length_fmap, Nat.sub_diag by (rewrite length_fmap; done).
      * destruct (b_mid _ _ _ B x Hx') as (k' & Ek & ?). exists k'. split; [by apply lookup_app_l_Some|done].
    + intros x Hx. pose proof (f_equal length Se) as Hl. rewrite length_app, !length_fmap in Hl. cbn in Hl.
      destruct (decide (x = n)) as [->|Hne]; [left; rewrite ELn; apply elem_of_app; right; right; by left|].
      destruct (b_gone _ _ _ B x) as [Hx'|Hx']; [unfold n in Hne; lia| |right; rewrite Se; by apply lookup_app_l_Some].
      left. rewrite EL in Hx'. rewrite ELn. rewrite elem_of_app, !elem_of_cons in *. tauto.
    + rewrite Sv. destruct (b_quiet _ _ _ B). split; by apply lookup_app_l_Some.
Qed.

(** The links after [ELdelete] *)
Lemma delete_links st c a b ha hb hc : halfedges st !! a = Some ha → halfedges st !! b = Some hb → halfedges st !! c = Some hc →
  ELleft hc = Some a → ELright hc = Some b → a ≠ b → a ≠ c → b ≠ c →
  ∃ hs, ELdelete st c = Ok (with_halfedges st hs)
  ∧ ELedge <$> hs = <[c := DELETED]> (ELedge <$> halfedges st) ∧ vertex <$> hs = vertex <$> halfedges st
  ∧ ystar <$> hs = ystar <$> halfedges st
  ∧ ELleft <$> hs = <[b := Some a]> (ELleft <$> halfedges st) ∧ ELright <$> hs = <[a := Some b]> (ELright <$> halfedges st).
Proof.
  intros Ha Hb Hc El Er Hab Hac Hbc. unfold ELdelete. rewrite (he_at_ok _ _ _ Hc), bind_ok, El, Er. cbn [deref].
  rewrite bind_ok, (upd_he_ok _ _ _ _ Ha), !bind_ok. set (hs1 := <[a := _]> (halfedges st)).
  assert (Hb1 : hs1 !! b = Some hb) by (unfold hs1; by rewrite list_lookup_insert_ne).
  assert (Hc1 : hs1 !! c = Some hc) by (unfold hs1; by rewrite list_lookup_insert_ne).
  rewrite (upd_he_ok (with_halfedges st hs1) _ _ _ Hb1), bind_ok. set (hs2 := <[b := _]> (halfedges (with_halfedges st hs1))).
  assert (Hc2 : hs2 !! c = Some hc) by (unfold hs2; by rewrite list_lookup_insert_ne).
  rewrite (upd_he_ok (with_halfedges (with_halfedges st hs1) hs2) _ _ _ Hc2).
  eexists. split; [reflexivity|]. cbn [halfedges with_halfedges] in *.
  assert (S1 : same_but_links (halfedges st) hs1) by by eapply same_upd.
  assert (S2 : same_but_links hs1 hs2) by by eapply same_upd.
  destruct (same_trans _ _ _ S1 S2) as (Se & Sv & Sy). splits.
  - rewrite list_fmap_insert, Se. done.
  - by rewrite (view_same vertex hs2 c hc).
  - by rewrite (view_same ystar hs2 c hc).
  - rewrite (view_same ELleft hs2 c hc) by done. unfold hs2. rewrite list_fmap_insert. unfold hs1. by rewrite (view_same ELleft (halfedges st) a ha).
  - rewrite (view_same ELright hs2 c hc) by done. unfold hs2. rewrite (view_same ELright hs1 b hb) by done. unfold hs1. by rewrite list_fmap_insert.
Qed.

Lemma delete_ok st mid m1 c m2 : beach (halfedges st) (length (edges st)) mid → mid = m1 ++ c :: m2 →
  ∃ hs, ELdelete st c = Ok (with_halfedges st hs) ∧ beach hs (length (edges st)) (m1 ++ m2)
  ∧ vertex <$> hs = vertex <$> halfedges st ∧ ystar <$> hs = ystar <$> halfedges st.
Proof.
  intros B ->. destruct (line_split m1 (c :: m2)) as (p & a & c' & r & E1 & E2 & EL). injection E2 as <- E2.
  destruct (m2 ++ [ELrightend]) as [|b q] eqn:E3; [by destruct m2|]. subst r.
  assert (In : ∀ x, x ∈ [a; c; b] → x ∈ line (m1 ++ c :: m2)). { intros x Hx. rewrite EL, elem_of_app. right. rewrite !elem_of_cons, elem_of_nil in Hx. rewrite !elem_of_cons. tauto. }
  destruct (halfedge_at st _ B a) as [ha Ha]; [apply In; by left|]. destruct (halfedge_at st _ B c) as [hc Hc]; [apply In; right; by left|].
  destruct (halfedge_at st _ B b) as [hb Hb]; [apply In; right; right; by left|].
  pose proof (b_nodup _ _ _ B) as N. pose proof (b_linked _ _ _ B) as L. rewrite EL in N, L.
  destruct (linked_pair _ _ _ _ _ _ L) as [Ra Lc].
  assert (Rc : (ELright <$> halfedges st) !! c = Some (Some b)).
  { change (p ++ a :: c :: b :: q) with (p ++ [a] ++ c :: b :: q) in L. rewrite app_assoc in L. by apply linked_pair in L as [L _]. }
  destruct (nodup_pair _ _ _ _ N) as (Hac & N1 & Na & Nc). apply not_elem_of_cons in Na as [Hab Na]. apply not_elem_of_cons in Nc as [Hcb Nc].
  destruct (delete_links st c a b ha hb hc) as (hs & E & Se & Sv & Sy & Sl & Sr); try done; try congruence.
  { apply at_view in Lc as (h & Hh & ?). congruence. }
  { apply at_view in Rc as (h & Hh & ?). congruence. }
  exists hs. split; [exact E|]. split; [|done].
  assert (ELn : line (m1 ++ m2) = p ++ a :: b :: q).
  { unfold line. rewrite <- app_assoc, E3, app_comm_cons, E1, <- app_assoc. done. }
  assert (Hcn : c ∉ line (m1 ++ m2)).
  { rewrite ELn, elem_of_app, !elem_of_cons. intros [Hx|[?|[?|?]]]; [|congruence|congruence|done]. by destruct (N1 _ Hx) as (_ & ? & _). }
  split.
  - rewrite ELn. assert (P : p ++ a :: c :: b :: q ≡ₚ c :: p ++ a :: b :: q) by solve_Permutation. rewrite P in N. by apply NoDup_cons in N as [_ N].
  - rewrite ELn, Sl, Sr. by apply (linked_delete _ _ _ _ _ c).
  - rewrite Se. assert (c ≠ ELleftend ∧ c ≠ ELrightend) as [? ?].
    { split; intros ->; apply Hcn; unfold line; [by left|right; apply elem_of_app; right; by left]. }
    rewrite !list_lookup_insert_ne by done. apply B.
  - intros x Hx. rewrite Se, list_lookup_insert_ne.
    + apply B. rewrite elem_of_app, elem_of_cons in *. tauto.
    + intros ->. apply Hcn. unfold line. right. apply elem_of_app. by left.
  - intros x Hx. rewrite Se. pose proof (f_equal length Se) as Hl. rewrite length_insert, !length_fmap in Hl.
    destruct (decide (x = c)) as [->|Hne]; [right; apply list_lookup_insert_eq; by rewrite length_fmap, <- Hl|].
    rewrite list_lookup_insert_ne by done. destruct (b_gone _ _ _ B x) as [Hx'|Hx']; [lia|left|by right].
    rewrite EL in Hx'. rewrite ELn. rewrite elem_of_app, !elem_of_cons in *. tauto.
  - rewrite Sv. apply B.
Qed.
