(* ===== verification/SweepParts.v ===== *)
(** The queue of events of the sweep, a hash table of ordered chains, and its output, each with
    its invariant. The operations of the queue find what they look for, and it holds each event
    once; in the output edges, lines and vertices correspond. *)

From S2P Require Import Prelude Bytes StdMap Float Serial Geometry Sweep BeachLine.
Local Open Scope Z_scope.

(** *** Arrays *)

Lemma upd_int_ok {A} (l : list A) i f x : 0 ≤ i → l !! Z.to_nat i = Some x → upd_int l i f = Ok (<[Z.to_nat i := f x]> l).
Proof. intros Hi E. unfold upd_int, upd_at. destruct (Z.ltb_spec i 0); [lia|]. by rewrite (at_idx_ok _ _ _ E), bind_ok. Qed.

Lemma at_int_some {A} (l : list A) i x : 0 ≤ i → l !! Z.to_nat i = Some x → at_int l i = Ok x.
Proof. intros Hi E. unfold at_int. destruct (Z.ltb_spec i 0); [lia|]. by apply at_idx_ok. Qed.

Lemma int_lookup {A} (l : list A) i : 0 ≤ i < Z.of_nat (length l) → ∃ x, l !! Z.to_nat i = Some x.
Proof. intros Hi. apply lookup_lt_is_Some_2. lia. Qed.

(** An element is added to one of the lists. *)
Lemma concat_insert (l : list (list nat)) b c c' d : l !! b = Some c → c' ≡ₚ d ++ c → concat (<[b := c']> l) ≡ₚ d ++ concat l.
Proof.
  intros E P. pose proof (lookup_lt_Some _ _ _ E) as Hb. rewrite <- (take_drop_middle l b c E) at 2.
  rewrite insert_take_drop by done. rewrite !concat_app. cbn [concat]. rewrite P. solve_Permutation.
Qed.

Lemma in_concat_at (l : list (list nat)) x : x ∈ concat l ↔ ∃ b c, l !! b = Some c ∧ x ∈ c.
Proof.
  rewrite list_elem_of_In, in_concat. split.
  - intros (c & Hc%list_elem_of_In & Hx%list_elem_of_In). apply list_elem_of_lookup in Hc as [b Hb]. by exists b, c.
  - intros (b & c & Hb & Hx). exists c. rewrite <- !list_elem_of_In. split; [by eapply list_elem_of_lookup_2|done].
Qed.

(** *** Chains *)

Lemma chain_delete_ok he l : he ∈ l → ∃ l', chain_delete he l = Ok l' ∧ l ≡ₚ he :: l'.
Proof.
  induction l as [|n l IH]; [by intros ?%elem_of_nil|]. cbn [chain_delete]. destruct (Nat.eqb_spec n he) as [->|Hne]; [by exists l|].
  rewrite elem_of_cons. intros [->|Hin]; [done|]. destruct (IH Hin) as (l' & -> & P). rewrite bind_ok. exists (n :: l').
  split; [done|]. rewrite P. constructor.
Qed.

Lemma chain_insert_ok st he y x l : (∀ n, n ∈ l → ∃ h v, halfedges st !! n = Some h ∧ vertex h = Some v) →
  ∃ l', chain_insert st he y x l = Ok l' ∧ l' ≡ₚ he :: l.
Proof.
  induction l as [|n l IH]; intros Hl; cbn [chain_insert]; [by exists [he]|].
  destruct (Hl n) as (h & v & Hh & Hv); [by left|]. rewrite (he_at_ok _ _ _ Hh), bind_ok.
  set (o := if SFgtb y (ystar h) then _ else _). assert (∃ b, o = Ok b) as [b ->].
  { unfold o. destruct (SFgtb _ _); [by eexists|]. destruct (SpecFloat.SFeqb _ _); [|by eexists]. rewrite Hv. cbn [deref]. rewrite bind_ok. by eexists. }
  rewrite bind_ok. destruct b; [|by exists (he :: n :: l)].
  destruct IH as (l' & -> & P); [intros m Hm; apply Hl; by right|]. rewrite bind_ok. exists (n :: l'). split; [done|]. rewrite P. constructor.
Qed.

Section queue.
Context (bd : bounds) (Hsq : 0 < sqrt_nsites bd).

Lemma bucket_range y : 0 ≤ bucket_of bd y < PQhashsize bd.
Proof.
  unfold bucket_of, PQhashsize. cbv zeta. set (i := int_of_f64 (f64_mul _ _)). clearbody i.
  destruct (Z.ltb_spec i 0); [destruct (Z.leb_spec (4 * sqrt_nsites bd) 0)|destruct (Z.leb_spec (4 * sqrt_nsites bd) i)]; lia.
Qed.

(** *** The invariant *)

Record queue_inv (hs : list Halfedge) (pq : list (list nat)) (count mn : Z) : Prop := mk_queue_inv {
  q_len : Z.of_nat (length pq) = PQhashsize bd;
  q_nodup : NoDup (concat pq);
  q_bucket : ∀ b c x, pq !! b = Some c → x ∈ c →
    ∃ h v, hs !! x = Some h ∧ vertex h = Some v ∧ Z.to_nat (bucket_of bd (ystar h)) = b;
  q_count : count = Z.of_nat (length (concat pq));
  q_least : 0 ≤ mn;
  q_min : ∀ b c, pq !! b = Some c → Z.of_nat b < mn → c = [] }.

Definition queue st : Prop := queue_inv (halfedges st) (PQhash st) (PQcount st) (PQmin st).
Definition queued st : list nat := concat (PQhash st).

(** What the queue leaves alone *)
Definition only_queue st st' : Prop :=
  edges st' = edges st ∧ ELhash st' = ELhash st ∧ w_sites st' = w_sites st ∧ w_lines st' = w_lines st ∧ w_vertex st' = w_vertex st.

Lemma queued_event st x : queue st → x ∈ queued st → ∃ h v, halfedges st !! x = Some h ∧ vertex h = Some v.
Proof. intros Q Hx. apply in_concat_at in Hx as (b & c & Hb & Hx). destruct (q_bucket _ _ _ _ Q b c x Hb Hx) as (h & v & ? & ? & _). by exists h, v. Qed.

(** An event is in the chain of its bucket. *)
Lemma queued_in st x h : queue st → x ∈ queued st → halfedges st !! x = Some h →
  ∃ c, PQhash st !! Z.to_nat (bucket_of bd (ystar h)) = Some c ∧ x ∈ c.
Proof.
  intros Q Hx Hh. apply in_concat_at in Hx as (b & c & Hb & Hx). destruct (q_bucket _ _ _ _ Q b c x Hb Hx) as (h' & v & Hh' & _ & Eb).
  assert (h' = h) as -> by congruence. exists c. by rewrite Eb.
Qed.

(** Halfedges may be added, and change otherwise. *)
Lemma queue_views hs hs' pq k m (l1 : list (option Site)) l2 : queue_inv hs pq k m →
  vertex <$> hs' = (vertex <$> hs) ++ l1 → ystar <$> hs' = (ystar <$> hs) ++ l2 → queue_inv hs' pq k m.
Proof.
  intros [L N B C Le M] Ev Ey. split; try done. intros b c x Hb Hx. destruct (B b c x Hb Hx) as (h & v & Hh & Hv & Eb).
  assert (E1 : (vertex <$> hs') !! x = Some (Some v)). { rewrite Ev. apply lookup_app_l_Some. by rewrite (view_at _ _ _ _ Hh), Hv. }
  assert (E2 : (ystar <$> hs') !! x = Some (ystar h)). { rewrite Ey. apply lookup_app_l_Some. by rewrite (view_at _ _ _ _ Hh). }
  apply at_view in E1 as (h1 & H1 & E1). apply at_view in E2 as (h2 & H2 & E2). assert (h2 = h1) as -> by congruence.
  exists h1, v. by rewrite E2.
Qed.

(** The bucket may lower the least one. *)
Lemma bucket_step st y : 0 ≤ PQmin st → let '(st', b) := PQbucket bd st y in
  b = bucket_of bd y ∧ st' = with_PQ st (PQhash st) (PQcount st) (Z.min (PQmin st) b) ∧ 0 ≤ Z.min (PQmin st) b.
Proof.
  intros Hm. unfold PQbucket. cbv zeta. pose proof (bucket_range y). destruct (Z.ltb_spec (bucket_of bd y) (PQmin st)).
  - splits; [done| |lia]. f_equal. lia.
  - splits; [done| |lia]. rewrite Z.min_l by lia. by destruct st.
Qed.

Lemma PQinsert_ok st he v off h : queue st → he ∉ queued st → halfedges st !! he = Some h →
  ∃ st', PQinsert bd st he v off = Ok st' ∧ queue st' ∧ only_queue st st'
  ∧ halfedges st' = <[he := set_event h (Some v) (SpecFloat.SFadd 53 1024 (sy v) off)]> (halfedges st)
  ∧ queued st' ≡ₚ he :: queued st.
Proof.
  intros Q Hn Hh. unfold PQinsert. cbv zeta. set (y := f64_add (sy v) off). rewrite (upd_he_ok _ _ _ _ Hh), bind_ok.
  set (st1 := with_halfedges st _). pose proof (bucket_step st1 y (q_least _ _ _ _ Q)) as B.
  destruct (PQbucket bd st1 y) as [st2 b]. destruct B as (-> & -> & Hm). set (b := bucket_of bd y) in *.
  pose proof (bucket_range y) as Rb. fold b in Rb. destruct (int_lookup (PQhash st) b) as [c Hc]; [rewrite (q_len _ _ _ _ Q); done|].
  cbn [PQhash with_PQ st1 with_halfedges]. rewrite (at_int_some _ _ _ (proj1 Rb) Hc), bind_ok.
  assert (Hch : ∀ n, n ∈ c → n ≠ he).
  { intros n Hx ->. apply Hn. apply in_concat_at. by exists (Z.to_nat b), c. }
  destruct (chain_insert_ok (with_PQ st1 (PQhash st) (PQcount st1) (Z.min (PQmin st1) b)) he y (sx v) c) as (c' & -> & P).
  { intros n Hx. destruct (q_bucket _ _ _ _ Q _ _ _ Hc Hx) as (hn & vn & Hhn & Hv & _). exists hn, vn. split; [|done].
    unfold st1. cbn. rewrite list_lookup_insert_ne; [done|]. intros ->. by apply (Hch n). }
  rewrite bind_ok, (upd_int_ok _ _ _ _ (proj1 Rb) Hc), bind_ok. eexists. split; [reflexivity|].
  pose proof (concat_insert _ _ _ _ [he] Hc P) as Pq. split; [|split; [done|split; [done|exact Pq]]].
  destruct Q as [L N Bk C Le M]. split; cbn [halfedges PQhash PQcount PQmin with_PQ st1 with_halfedges] in *.
  - by rewrite length_insert.
  - rewrite Pq. cbn. by apply NoDup_cons.
  - intros b' x' n Hb Hx. destruct (decide (n = he)) as [->|Hne].
    + exists (set_event h (Some v) y), v. splits; [|done|]. { apply list_lookup_insert_eq. by apply lookup_lt_Some in Hh. }
      cbn. destruct (decide (b' = Z.to_nat b)) as [->|Hb']; [done|]. rewrite list_lookup_insert_ne in Hb by congruence.
      exfalso. apply Hn. apply in_concat_at. by exists b', x'.
    + assert (∃ x'', PQhash st !! b' = Some x'' ∧ n ∈ x'') as (x'' & Hb'' & Hx'').
      { destruct (decide (b' = Z.to_nat b)) as [->|Hb']; [|rewrite list_lookup_insert_ne in Hb by congruence; by exists x'].
        rewrite list_lookup_insert_eq in Hb by (by apply lookup_lt_Some in Hc). injection Hb as <-. exists c. split; [done|].
        rewrite P, elem_of_cons in Hx. by destruct Hx. }
      destruct (Bk _ _ _ Hb'' Hx'') as (hn & vn & Hhn & ? & ?). exists hn, vn. split; [|done]. by rewrite list_lookup_insert_ne.
  - rewrite Pq. cbn. unfold queued. lia.
  - exact Hm.
  - intros b' x' Hb Hlt. rewrite list_lookup_insert_ne in Hb by lia. apply (M b'); [done|lia].
Qed.

(** Chains in which some events are missing *)
Lemma queue_smaller hs hs' pq pq' k m m' : queue_inv hs pq k m → length pq' = length pq → NoDup (concat pq') →
  (∀ b c x, pq' !! b = Some c → x ∈ c → hs' !! x = hs !! x ∧ ∃ c0, pq !! b = Some c0 ∧ x ∈ c0) →
  0 ≤ m' ≤ m → queue_inv hs' pq' (Z.of_nat (length (concat pq'))) m'.
Proof.
  intros [L N B C Le M] El N' S Hm. split; try done; [lia| |lia|].
  - intros b c x Hb Hx. destruct (S b c x Hb Hx) as (E & c0 & Hb0 & Hx0). rewrite E. by apply (B b c0).
  - intros b c Hb Hlt. destruct c as [|x c]; [done|]. destruct (S b _ x Hb) as (_ & c0 & Hb0 & Hx0); [by left|].
    rewrite (M b c0 Hb0) in Hx0 by lia. by apply elem_of_nil in Hx0.
Qed.

Lemma PQdelete_ok st he h : queue st → halfedges st !! he = Some h → (vertex h ≠ None → he ∈ queued st) →
  ∃ st', PQdelete bd st he = Ok st' ∧ queue st' ∧ only_queue st st'
  ∧ halfedges st' = <[he := set_event h None (ystar h)]> (halfedges st)
  ∧ (he ∉ queued st') ∧ ∀ x, x ∈ queued st' ↔ x ∈ queued st ∧ x ≠ he.
Proof.
  intros Q Hh Hq. unfold PQdelete. rewrite (he_at_ok _ _ _ Hh), bind_ok. destruct (vertex h) as [v|] eqn:Ev.
  2: { assert (Hn : he ∉ queued st). { intros Hin. destruct (queued_event st he Q Hin) as (h' & v & ? & ?). congruence. }
    exists st. split; [done|]. split; [done|]. split; [done|]. split; [|split; [done|]].
    - rewrite list_insert_id; [done|]. rewrite Hh. destruct h. cbn in *. by rewrite Ev.
    - intros x. split; [|by intros []]. intros Hx. split; [done|]. by intros ->. }
  pose proof (bucket_step st (ystar h) (q_least _ _ _ _ Q)) as B. destruct (PQbucket bd st (ystar h)) as [st1 b].
  destruct B as (-> & -> & Hm). set (b := bucket_of bd (ystar h)) in *. pose proof (bucket_range (ystar h)) as Rb. fold b in Rb.
  destruct (queued_in st he h Q (Hq ltac:(done)) Hh) as (c & Hc & Hin). fold b in Hc.
  cbn [PQhash with_PQ PQcount PQmin]. rewrite (at_int_some _ _ _ (proj1 Rb) Hc), bind_ok.
  destruct (chain_delete_ok he c Hin) as (c' & -> & P). rewrite bind_ok, (upd_int_ok _ _ _ _ (proj1 Rb) Hc), bind_ok.
  rewrite (upd_he_ok _ _ h); [|done]. eexists. split; [reflexivity|]. set (pq' := <[Z.to_nat b := c']> (PQhash st)).
  assert (Pq : concat (PQhash st) ≡ₚ he :: concat pq').
  { pose proof (concat_insert pq' (Z.to_nat b) c' c [he]) as Hp. unfold pq' in Hp. rewrite list_insert_insert_eq, (list_insert_id (PQhash st) _ c) in Hp by done.
    apply Hp; [|done]. apply list_lookup_insert_eq. by apply lookup_lt_Some in Hc. }
  pose proof (q_nodup _ _ _ _ Q) as N. rewrite Pq in N. apply NoDup_cons in N as [Nh N].
  split; [|split; [done|split; [done|split; [exact Nh|]]]].
  - unfold queue. cbn [halfedges PQhash PQcount PQmin with_PQ with_halfedges].
    replace (PQcount st - 1) with (Z.of_nat (length (concat pq'))) by (rewrite (q_count _ _ _ _ Q), Pq; cbn [length]; lia).
    eapply (queue_smaller (halfedges st)); [exact Q|unfold pq'; by rewrite length_insert|exact N| |lia].
    intros b' c0 x Hb Hx. assert (x ≠ he). { intros ->. apply Nh. apply in_concat_at. by exists b', c0. }
    split; [by rewrite list_lookup_insert_ne|]. destruct (decide (b' = Z.to_nat b)) as [->|Hne].
    + unfold pq' in Hb. rewrite list_lookup_insert_eq in Hb by (by apply lookup_lt_Some in Hc). injection Hb as <-.
      exists c. split; [done|]. rewrite P. by right.
    + unfold pq' in Hb. rewrite list_lookup_insert_ne in Hb by done. by exists c0.
  - intros x. unfold queued. cbn [PQhash with_PQ with_halfedges]. rewrite Pq, elem_of_cons. split; [|by intros [[?|?] ?]].
    intros Hx. split; [by right|]. intros ->. done.
Qed.

(** The first bucket that is not empty *)
Lemma next_bucket_ok fuel st : queue st → queued st ≠ [] → (length (PQhash st) ≤ fuel + Z.to_nat (PQmin st))%nat →
  ∃ m x c, next_bucket fuel st = Ok (with_PQ st (PQhash st) (PQcount st) m)
  ∧ queue (with_PQ st (PQhash st) (PQcount st) m) ∧ PQhash st !! Z.to_nat m = Some (x :: c).
Proof.
  revert st. induction fuel as [|fuel IH]; intros st Q Hne Hf; cbn [next_bucket]; pose proof (q_least _ _ _ _ Q) as Hl.
  - exfalso. apply Hne. unfold queued. destruct (concat (PQhash st)) as [|x l] eqn:E; [done|].
    assert (Hx : x ∈ concat (PQhash st)) by (rewrite E; by left). apply in_concat_at in Hx as (b & c & Hb & Hx).
    rewrite (q_min _ _ _ _ Q b c Hb) in Hx; [by apply elem_of_nil in Hx|]. apply lookup_lt_Some in Hb. lia.
  - destruct (decide (Z.to_nat (PQmin st) < length (PQhash st))%nat) as [Hlt|Hge].
    2: { exfalso. apply Hne. unfold queued. destruct (concat (PQhash st)) as [|x l] eqn:E; [done|].
      assert (Hx : x ∈ concat (PQhash st)) by (rewrite E; by left). apply in_concat_at in Hx as (b & c & Hb & Hx).
      rewrite (q_min _ _ _ _ Q b c Hb) in Hx; [by apply elem_of_nil in Hx|]. apply lookup_lt_Some in Hb. lia. }
    destruct (lookup_lt_is_Some_2 _ _ Hlt) as [c Hc]. rewrite (at_int_some _ _ _ Hl Hc), bind_ok.
    destruct c as [|x c]; [|exists (PQmin st), x, c; by destruct st].
    destruct (IH (with_PQ st (PQhash st) (PQcount st) (PQmin st + 1))) as (m & x & c & E & Q' & Hm); [|done|cbn; lia|].
    { destruct Q as [L N B C Le M]. split; try done; cbn; [lia|]. intros b c Hb Hlt'. destruct (decide (b = Z.to_nat (PQmin st))) as [->|]; [congruence|].
      apply (M b); [done|lia]. }
    by exists m, x, c.
Qed.

Lemma PQ_min_ok st : queue st → PQempty st = false →
  ∃ m q x c, PQ_min bd st = Ok (with_PQ st (PQhash st) (PQcount st) m, q)
  ∧ queue (with_PQ st (PQhash st) (PQcount st) m) ∧ PQhash st !! Z.to_nat m = Some (x :: c).
Proof.
  intros Q He. unfold PQempty in He. apply Z.eqb_neq in He.
  assert (Hne : queued st ≠ []) by (intros E; rewrite (q_count _ _ _ _ Q) in He; unfold queued in E; by rewrite E in He).
  unfold PQ_min. destruct (next_bucket_ok (Z.to_nat (PQhashsize bd)) st Q Hne) as (m & x & c & -> & Q' & Hc).
  { pose proof (q_len _ _ _ _ Q). lia. }
  rewrite bind_ok. cbn [PQhash PQmin with_PQ]. rewrite (at_int_some (PQhash st) m _ (q_least _ _ _ _ Q') Hc), bind_ok. cbn [head deref]. rewrite bind_ok.
  destruct (q_bucket _ _ _ _ Q' _ _ x Hc) as (h & v & Hh & Hv & _); [by left|].
  rewrite (he_at_ok _ _ _ Hh), bind_ok, Hv. cbn [deref]. rewrite bind_ok. by eexists m, _, x, c.
Qed.

Lemma PQextractmin_ok st x c : queue st → PQhash st !! Z.to_nat (PQmin st) = Some (x :: c) →
  ∃ st', PQextractmin st = Ok (st', x) ∧ queue st' ∧ only_queue st st' ∧ halfedges st' = halfedges st
  ∧ x ∈ queued st ∧ (x ∉ queued st') ∧ ∀ y, y ∈ queued st' ↔ y ∈ queued st ∧ y ≠ x.
Proof.
  intros Q Hc. pose proof (q_least _ _ _ _ Q) as Hl. unfold PQextractmin. rewrite (at_int_some _ _ _ Hl Hc), bind_ok, (upd_int_ok _ _ _ _ Hl Hc), bind_ok.
  eexists. split; [reflexivity|]. set (pq' := <[Z.to_nat (PQmin st) := c]> (PQhash st)).
  assert (Pq : concat (PQhash st) ≡ₚ x :: concat pq').
  { pose proof (concat_insert pq' (Z.to_nat (PQmin st)) c (x :: c) [x]) as Hp. unfold pq' in Hp. rewrite list_insert_insert_eq, (list_insert_id (PQhash st) _ (x :: c)) in Hp by done.
    apply Hp; [|done]. apply list_lookup_insert_eq. by apply lookup_lt_Some in Hc. }
  pose proof (q_nodup _ _ _ _ Q) as N. rewrite Pq in N. apply NoDup_cons in N as [Nh N].
  split; [|split; [done|split; [done|split; [|split; [exact Nh|]]]]].
  - unfold queue. cbn [halfedges PQhash PQcount PQmin with_PQ].
    replace (PQcount st - 1) with (Z.of_nat (length (concat pq'))) by (rewrite (q_count _ _ _ _ Q), Pq; cbn [length]; lia).
    eapply (queue_smaller (halfedges st)); [exact Q|unfold pq'; by rewrite length_insert|exact N| |lia].
    intros b' c0 y Hb Hy. split; [done|]. destruct (decide (b' = Z.to_nat (PQmin st))) as [->|Hne].
    + unfold pq' in Hb. rewrite list_lookup_insert_eq in Hb by (by apply lookup_lt_Some in Hc). injection Hb as <-.
      exists (x :: c). split; [done|by right].
    + unfold pq' in Hb. rewrite list_lookup_insert_ne in Hb by done. by exists c0.
  - unfold queued. rewrite Pq. by left.
  - intros y. unfold queued. cbn [PQhash with_PQ]. rewrite Pq, elem_of_cons. split; [|by intros [[?|?] ?]].
    intros Hy. split; [by right|]. intros ->. done.
Qed.
End queue.

(** ** The output of the sweep: edges, lines and vertices correspond, indices are in range, and
    each site has exactly the lines that bisect it and another site. *)

Lemma in_set_insert x k l : x ∈ set_insert k l ↔ x = k ∨ x ∈ l.
Proof.
  unfold set_insert. rewrite <- has_keys, has_set, orb_true_iff, Z.eqb_eq, has_keys, <- list_fmap_compose.
  by rewrite list_fmap_id.
Qed.

(** What the output leaves alone *)
Definition same_shape (st st' : sweep) : Prop :=
  halfedges st' = halfedges st ∧ PQhash st' = PQhash st ∧ PQcount st' = PQcount st ∧ PQmin st' = PQmin st ∧ ELhash st' = ELhash st.

Lemma same_shape_trans st1 st2 st3 : same_shape st1 st2 → same_shape st2 st3 → same_shape st1 st3.
Proof. unfold same_shape. intros (?&?&?&?&?) (?&?&?&?&?). splits; congruence. Qed.

Section out.
Context (bd : bounds) (n : nat).
Implicit Types st : sweep.

Definition site_ok (s : Site) : Prop := 0 ≤ sitenbr s < Z.of_nat n.
Definition sides (l : line2d) (i : Z) : Prop := fst (bisecting l) = i ∨ snd (bisecting l) = i.
Definition number_ok st (i : Z) : Prop := i = -1 ∨ 0 ≤ i < Z.of_nat (length (w_vertex st)).

Record edge_ok st (k : nat) (e : Edge) : Prop := mk_edge_ok {
  e_number : edgenbr e = Z.of_nat k;
  e_sites : site_ok (fst (reg e)) ∧ site_ok (snd (reg e));
  e_ends : number_ok st (number_of (fst (ep e))) ∧ number_ok st (number_of (snd (ep e))) }.

Record out_ok st : Prop := mk_out_ok {
  o_sites : length (w_sites st) = n;
  o_lines : length (w_lines st) = length (edges st);
  o_edge : ∀ k e, edges st !! k = Some e → edge_ok st k e;
  o_bis : ∀ k l e, w_lines st !! k = Some l → edges st !! k = Some e → bisecting l = (sitenbr (fst (reg e)), sitenbr (snd (reg e)));
  o_ends : ∀ k l, w_lines st !! k = Some l → number_ok st (fst (vertexIndex l)) ∧ number_ok st (snd (vertexIndex l));
  o_sets : ∀ i es k, w_sites st !! i = Some es →
    (k ∈ es ↔ ∃ j l, k = Z.of_nat j ∧ w_lines st !! j = Some l ∧ sides l (Z.of_nat i)) }.

(** *** A new edge *)

(** The set of a site gets the edge if it is a side of it. *)
Lemma insert_edge (ss : list (list Z)) i k s : site_ok s → length ss = n →
  ∃ es, ss !! Z.to_nat (sitenbr s) = Some es ∧ upd_int ss (sitenbr s) (set_insert k) = Ok (<[Z.to_nat (sitenbr s) := set_insert k es]> ss)
  ∧ ∀ es' x, <[Z.to_nat (sitenbr s) := set_insert k es]> ss !! i = Some es' →
      ∃ es0, ss !! i = Some es0 ∧ (x ∈ es' ↔ (x = k ∧ sitenbr s = Z.of_nat i) ∨ x ∈ es0).
Proof.
  intros Hs El. destruct (int_lookup ss (sitenbr s)) as [es He]; [unfold site_ok in Hs; lia|].
  exists es. split; [done|]. split; [apply upd_int_ok; [apply Hs|done]|]. intros es' x.
  destruct (decide (i = Z.to_nat (sitenbr s))) as [->|Hne].
  - rewrite list_lookup_insert_eq by (by apply lookup_lt_Some in He). intros [= <-]. exists es. split; [done|].
    rewrite in_set_insert. unfold site_ok in Hs. rewrite Z2Nat.id by lia. tauto.
  - rewrite list_lookup_insert_ne by done. intros E. exists es'. split; [done|].
    split; [tauto|]. intros [[_ E']|?]; [|done]. exfalso. apply Hne. rewrite E'. lia.
Qed.

Lemma bisect_ok st s1 s2 : out_ok st → site_ok s1 → site_ok s2 →
  ∃ st' e l, bisect st s1 s2 = Ok (st', length (edges st)) ∧ out_ok st' ∧ same_shape st st'
  ∧ edges st' = edges st ++ [e] ∧ reg e = (s1, s2) ∧ w_lines st' = w_lines st ++ [l]
  ∧ bisecting l = (sitenbr s1, sitenbr s2) ∧ w_vertex st' = w_vertex st.
Proof.
  intros O H1 H2. unfold bisect. destruct (bisector_line s1 s2) as [[a b] c]. set (e := mkEdge a b c _ _ _).
  unfold out_bisector. cbn [reg e fst snd edgenbr].
  destruct (insert_edge (w_sites st) 0 (Z.of_nat (length (edges st))) s1 H1 (o_sites _ O)) as (es1 & G1 & -> & _). rewrite bind_ok.
  set (ss1 := <[_ := _]> (w_sites st)). assert (L1 : length ss1 = n) by (unfold ss1; rewrite length_insert; apply O).
  destruct (insert_edge ss1 0 (Z.of_nat (length (edges st))) s2 H2 L1) as (es2 & G2 & -> & _). rewrite !bind_ok.
  set (ss2 := <[_ := _]> ss1). set (l := mkLine _ _ _ _ _ _). set (st' := with_edges _ _). exists st', e, l.
  split; [reflexivity|]. split; [|by splits]. split.
  - cbn. unfold ss2. by rewrite length_insert.
  - cbn. rewrite !length_app, (o_lines _ O). done.
  - intros k x Hk. cbn in Hk. apply lookup_snoc_Some in Hk as [[_ Hk]|[-> <-]].
    + destruct (o_edge _ O k x Hk). by split.
    + split; [done|done|]. split; by left.
  - intros k x y Hx Hy. cbn in Hx, Hy. apply lookup_snoc_Some in Hx as [[Hlt Hx]|[-> <-]]; apply lookup_snoc_Some in Hy as [[Hlt' Hy]|[Ek <-]].
    + by apply (o_bis _ O k).
    + rewrite (o_lines _ O) in Hlt. lia.
    + rewrite (o_lines _ O) in Hlt'. lia.
    + done.
  - intros k x Hx. cbn in Hx. apply lookup_snoc_Some in Hx as [[_ Hx]|[_ <-]]; [by apply (o_ends _ O k)|]. split; by left.
  - intros i es k Hi. cbn in Hi.
    destruct (insert_edge ss1 i (Z.of_nat (length (edges st))) s2 H2 L1) as (es2' & G2' & _ & S2). assert (es2' = es2) as -> by congruence.
    destruct (S2 es k Hi) as (es1' & Hi1 & ->).
    destruct (insert_edge (w_sites st) i (Z.of_nat (length (edges st))) s1 H1 (o_sites _ O)) as (es1'' & G1' & _ & S1). assert (es1'' = es1) as -> by congruence.
    destruct (S1 es1' k Hi1) as (es0 & Hi0 & ->). rewrite (o_sets _ O i es0 k Hi0). cbn [w_lines st' with_edges with_out].
    split.
    + intros [[-> E]|[[-> E]|(j & x & -> & Hx & Hs)]].
      * exists (length (edges st)), l. splits; [done|by rewrite lookup_app_r, (o_lines _ O), Nat.sub_diag by (rewrite (o_lines _ O); done)|by right].
      * exists (length (edges st)), l. splits; [done|by rewrite lookup_app_r, (o_lines _ O), Nat.sub_diag by (rewrite (o_lines _ O); done)|by left].
      * exists j, x. splits; [done|by apply lookup_app_l_Some|done].
    + intros (j & x & -> & Hx & Hs). apply lookup_snoc_Some in Hx as [[_ Hx]|[-> <-]]; [right; right; by exists j, x|].
      rewrite (o_lines _ O). destruct Hs as [E|E]; [right; left|left]; done.
Qed.

(** *** Its ends *)

(** The topology that stays: sides and sets *)
Definition same_graph st st' : Prop :=
  reg <$> edges st' = reg <$> edges st ∧ bisecting <$> w_lines st' = bisecting <$> w_lines st ∧ w_sites st' = w_sites st.

Lemma same_graph_trans st1 st2 st3 : same_graph st1 st2 → same_graph st2 st3 → same_graph st1 st3.
Proof. unfold same_graph. intros (?&?&?) (?&?&?). splits; congruence. Qed.

Lemma graph_lengths st st' : same_graph st st' → length (edges st') = length (edges st) ∧ length (w_lines st') = length (w_lines st).
Proof. intros (E1 & E2 & _). apply (f_equal length) in E1, E2. by rewrite !length_fmap in *. Qed.

(** The sets are kept by what keeps the graph. *)
Lemma graph_sets st st' : out_ok st → same_graph st st' → ∀ i es k, w_sites st' !! i = Some es →
  (k ∈ es ↔ ∃ j l, k = Z.of_nat j ∧ w_lines st' !! j = Some l ∧ sides l (Z.of_nat i)).
Proof.
  intros O (_ & E & ->) i es k Hi. rewrite (o_sets _ O i es k Hi).
  assert (V : ∀ j, bisecting <$> w_lines st' !! j = bisecting <$> w_lines st !! j) by (intros j; by rewrite <- !list_lookup_fmap, E).
  split; intros (j & l & -> & Hl & Hs); specialize (V j); rewrite Hl in V; cbn in V.
  - destruct (w_lines st' !! j) as [l'|] eqn:E'; [|done]. injection V as V. exists j, l'. unfold sides in *. by rewrite V.
  - destruct (w_lines st !! j) as [l'|] eqn:E'; [|done]. injection V as V. exists j, l'. unfold sides in *. by rewrite <- V.
Qed.

Lemma out_ep_ok st k e : out_ok st → edges st !! k = Some e →
  ∃ ls, out_ep bd st (ToEdge k) = Ok (with_out st (w_sites st) ls (w_vertex st))
  ∧ out_ok (with_out st (w_sites st) ls (w_vertex st)) ∧ same_graph st (with_out st (w_sites st) ls (w_vertex st)).
Proof.
  intros O He. unfold out_ep, edge_at. rewrite (at_idx_ok _ _ _ He), bind_ok. destruct (o_edge _ O k e He) as [Ek Es [E1 E2]].
  destruct (lookup_lt_is_Some_2 (w_lines st) k) as [l Hl]; [rewrite (o_lines _ O); by apply lookup_lt_Some in He|].
  rewrite Ek, (upd_int_ok _ _ _ l), bind_ok by (try lia; by rewrite Nat2Z.id). rewrite Nat2Z.id.
  set (l' := mkLine _ _ _ _ _ _). eexists. split; [reflexivity|].
  assert (G : same_graph st (with_out st (w_sites st) (<[k := l']> (w_lines st)) (w_vertex st))).
  { split; [done|]. split; [|done]. cbn. rewrite list_fmap_insert. apply list_insert_id. by rewrite list_lookup_fmap, Hl. }
  split; [|exact G]. split.
  - apply O.
  - cbn. rewrite length_insert. apply O.
  - intros j x Hx. destruct (o_edge _ O j x Hx). by split.
  - intros j x y Hx Hy. cbn in Hx, Hy. destruct (decide (j = k)) as [->|Hne].
    + rewrite list_lookup_insert_eq in Hx by (by apply lookup_lt_Some in Hl). injection Hx as <-. exact (o_bis _ O k l y Hl Hy).
    + rewrite list_lookup_insert_ne in Hx by done. by apply (o_bis _ O j).
  - intros j x Hx. cbn in Hx. destruct (decide (j = k)) as [->|Hne].
    + rewrite list_lookup_insert_eq in Hx by (by apply lookup_lt_Some in Hl). injection Hx as <-. by split.
    + rewrite list_lookup_insert_ne in Hx by done. by apply (o_ends _ O j).
  - exact (graph_sets st _ O G).
Qed.

Lemma number_of_ok st s : 0 ≤ sitenbr s < Z.of_nat (length (w_vertex st)) → number_ok st (number_of (Some s)).
Proof. by right. Qed.

Lemma endpoint_ok st k lr s : out_ok st → (k < length (edges st))%nat → 0 ≤ sitenbr s < Z.of_nat (length (w_vertex st)) →
  ∃ st', endpoint bd st (ToEdge k) lr s = Ok st' ∧ out_ok st' ∧ same_shape st st' ∧ same_graph st st' ∧ w_vertex st' = w_vertex st.
Proof.
  intros O Hk Hs. destruct (lookup_lt_is_Some_2 _ _ Hk) as [e He]. unfold endpoint, upd_at.
  rewrite (at_idx_ok _ _ _ He), !bind_ok. cbv zeta. set (es := <[k := set_ep e lr s]> (edges st)). set (st1 := with_edges st es).
  assert (He1 : es !! k = Some (set_ep e lr s)) by (unfold es; by apply list_lookup_insert_eq).
  rewrite (at_idx_ok _ _ _ He1), bind_ok.
  assert (G1 : same_graph st st1).
  { split; [|done]. cbn. unfold es. rewrite list_fmap_insert. apply list_insert_id. by rewrite list_lookup_fmap, He. }
  assert (O1 : out_ok st1).
  { split; [apply O|cbn; unfold es; rewrite length_insert; apply O| | |apply O|exact (graph_sets st _ O G1)].
    - intros j x Hx. cbn in Hx. destruct (decide (j = k)) as [->|Hne].
      + rewrite He1 in Hx. injection Hx as <-. destruct (o_edge _ O k e He) as [A B [C D]]. split; [done|done|].
        destruct lr; split; first [exact C|exact D|exact (number_of_ok st s Hs)].
      + unfold es in Hx. rewrite list_lookup_insert_ne in Hx by done. destruct (o_edge _ O j x Hx). by split.
    - intros j x y Hx Hy. cbn in Hx, Hy. destruct (decide (j = k)) as [->|Hne].
      + rewrite He1 in Hy. injection Hy as <-. exact (o_bis _ O k x e Hx He).
      + unfold es in Hy. rewrite list_lookup_insert_ne in Hy by done. by apply (o_bis _ O j). }
  destruct (if lr then _ else _).
  - destruct (out_ep_ok st1 k _ O1 He1) as (ls & -> & O2 & G2). eexists. split; [reflexivity|]. split; [exact O2|]. split; [done|].
    split; [by eapply same_graph_trans|done].
  - by exists st1.
Qed.

Lemma makevertex_ok st v : out_ok st → let '(st', v') := makevertex st v in
  out_ok st' ∧ same_shape st st' ∧ edges st' = edges st ∧ w_lines st' = w_lines st ∧ w_sites st' = w_sites st
  ∧ length (w_vertex st') = S (length (w_vertex st)) ∧ 0 ≤ sitenbr v' < Z.of_nat (length (w_vertex st')).
Proof.
  intros O. unfold makevertex. cbn [sitenbr w_vertex with_out]. rewrite length_app. cbn [length].
  assert (M : ∀ i, number_ok st i → number_ok (with_out st (w_sites st) (w_lines st) (w_vertex st ++ [scoord v])) i).
  { intros i [->|Hi]; [by left|right]. cbn. rewrite length_app. cbn. lia. }
  splits; try done; try lia. split; try apply O.
  - intros k e He. destruct (o_edge _ O k e He) as [A B [C D]]. split; [done|done|]. auto.
  - intros k l Hl. destruct (o_ends _ O k l Hl). auto.
Qed.
End out.
