(* ===== verification/SweepSafe.v ===== *)
(** The sweep is safe and ends: every event finds the halfedges it needs, and there is one
    event for each site and one for each halfedge that is left. *)

From S2P Require Import Prelude Bytes StdMap Float Serial Geometry Sweep BeachLine SweepParts.
Local Open Scope Z_scope.

Section safe.
Context (bd : bounds) (n : nat) (Hsq : 0 < sqrt_nsites bd).
Implicit Types st : sweep.

(** *** The hash table of the beach line *)

Record hash_ok (hs : list Halfedge) (t : list (option nat)) : Prop := mk_hash_ok {
  h_len : Z.of_nat (length t) = ELhashsize bd;
  h_first : t !! 0%nat = Some (Some ELleftend);
  h_last : t !! Z.to_nat (ELhashsize bd - 1) = Some (Some ELrightend);
  h_in : ∀ b x, t !! b = Some (Some x) → (x < length hs)%nat }.

Lemma hash_set hs t b p : hash_ok hs t → 0 < b < ELhashsize bd - 1 → (∀ x, p = Some x → (x < length hs)%nat) →
  hash_ok hs (<[Z.to_nat b := p]> t).
Proof.
  intros [L F E I] Hb Hp. split; [by rewrite length_insert|rewrite list_lookup_insert_ne; [done|lia]..|].
  intros b' x Hx. destruct (decide (b' = Z.to_nat b)) as [->|Hne]; [|rewrite list_lookup_insert_ne in Hx by done; by apply (I b')].
  rewrite list_lookup_insert_eq in Hx by lia. injection Hx as ->. by apply Hp.
Qed.

Lemma hash_grow hs hs' t : hash_ok hs t → (length hs ≤ length hs')%nat → hash_ok hs' t.
Proof. intros [L F E I] Hl. split; try done. intros b x Hx. specialize (I b x Hx). lia. Qed.

Section place.
Context (mid : list nat).
Definition hashed st : Prop := beach (halfedges st) (length (edges st)) mid ∧ hash_ok (halfedges st) (ELhash st).

Lemma deleted_not_end st x h : hashed st → halfedges st !! x = Some h → is_deleted (ELedge h) = true → x ≠ ELleftend ∧ x ≠ ELrightend.
Proof.
  intros [B _] Hh Hd. pose proof (b_ends _ _ _ B) as [E0 E1]. split; intros ->.
  - apply at_view in E0 as (h' & Hh' & E). assert (h' = h) as -> by congruence. by rewrite E in Hd.
  - apply at_view in E1 as (h' & Hh' & E). assert (h' = h) as -> by congruence. by rewrite E in Hd.
Qed.

Lemma gethash_ok st b : hashed st →
  ∃ t p, ELgethash bd st b = Ok (with_ELhash st t, p) ∧ hashed (with_ELhash st t)
  ∧ (∀ x, p = Some x → x ∈ line mid) ∧ (b = 0 → p = Some ELleftend).
Proof.
  intros [B H]. pose proof (h_len _ _ H) as L. unfold ELgethash. destruct (Z.ltb_spec b 0) as [Hb|Hb]; cbn [orb].
  { exists (ELhash st), None. splits; [by destruct st|done|done|lia]. }
  destruct (Z.leb_spec (ELhashsize bd) b) as [Hb'|Hb'].
  { exists (ELhash st), None. splits; [by destruct st|done|done|unfold ELhashsize in *; lia]. }
  destruct (int_lookup (ELhash st) b) as [p Hp]; [lia|]. rewrite (at_int_some _ _ _ Hb Hp), bind_ok. destruct p as [x|].
  2: { exists (ELhash st), None. splits; [by destruct st|done|done|]. intros ->. change (Z.to_nat 0) with 0%nat in Hp. by rewrite (h_first _ _ H) in Hp. }
  destruct (lookup_lt_is_Some_2 (halfedges st) x) as [h Hh]; [by apply (h_in _ _ H (Z.to_nat b))|].
  rewrite (he_at_ok _ _ _ Hh), bind_ok. destruct (is_deleted (ELedge h)) eqn:Ed.
  - destruct (deleted_not_end st x h (conj B H) Hh Ed) as [N0 N1].
    assert (b ≠ 0). { intros ->. change (Z.to_nat 0) with 0%nat in Hp. rewrite (h_first _ _ H) in Hp. congruence. }
    assert (b ≠ ELhashsize bd - 1). { intros ->. rewrite (h_last _ _ H) in Hp. congruence. }
    rewrite (upd_int_ok _ _ _ _ Hb Hp), bind_ok. eexists _, None. split; [reflexivity|]. split; [|split; [done|done]].
    split; [exact B|]. apply hash_set; [exact H|lia|done].
  - exists (ELhash st), (Some x). splits; [by destruct st|done| |].
    + intros y [= <-]. destruct (b_gone _ _ _ B x) as [?|Hg]; [by apply lookup_lt_Some in Hh|done|].
      apply at_view in Hg as (h' & Hh' & E). assert (h' = h) as -> by congruence. by rewrite E in Ed.
    + intros ->. change (Z.to_nat 0) with 0%nat in Hp. rewrite (h_first _ _ H) in Hp. congruence.
Qed.

(** The search around a bucket ends at the left end at the latest. *)
Lemma search_ok fuel st bucket i : hashed st → 1 ≤ i ≤ bucket → bucket - i < Z.of_nat fuel →
  ∃ t x, ELsearch bd fuel st bucket i = Ok (with_ELhash st t, x) ∧ hashed (with_ELhash st t) ∧ x ∈ line mid.
Proof.
  revert st i. induction fuel as [|fuel IH]; intros st i H Hi Hf; [lia|]. cbn [ELsearch].
  destruct (gethash_ok st (bucket - i) H) as (t & p & -> & H1 & Hp & H0). rewrite bind_ok. cbn beta iota.
  destruct p as [x|]; [exists t, x; auto|].
  destruct (gethash_ok (with_ELhash st t) (bucket + i) H1) as (t2 & p & -> & H2 & Hp2 & _). rewrite bind_ok. cbn beta iota.
  destruct p as [x|]; [exists t2, x; auto|].
  destruct (IH (with_ELhash (with_ELhash st t) t2) (i + 1) H2) as (t3 & x & -> & H3 & Hx);
    [destruct (Z.eq_dec (bucket - i) 0) as [E|]; [by specialize (H0 E)|lia]|lia|]. by exists t3, x.
Qed.

Lemma EL_bucket_range p : 0 ≤ EL_bucket bd p < ELhashsize bd.
Proof.
  unfold EL_bucket, ELhashsize. cbv zeta. set (i := int_of_f64 (f64_mul _ _)). clearbody i.
  destruct (Z.ltb_spec i 0); [destruct (Z.leb_spec (2 * sqrt_nsites bd) 0)|destruct (Z.leb_spec (2 * sqrt_nsites bd) i)]; lia.
Qed.

Lemma leftbnd_ok st p : hashed st →
  ∃ t a m1 m2 q, ELleftbnd bd st p = Ok (with_ELhash st t, a) ∧ hashed (with_ELhash st t)
  ∧ mid = m1 ++ m2 ∧ ELleftend :: m1 = q ++ [a].
Proof.
  intros H. unfold ELleftbnd. cbv zeta. set (b := EL_bucket bd p). pose proof (EL_bucket_range p) as Rb. fold b in Rb.
  destruct (gethash_ok st b H) as (t & r & -> & H1 & Hr & H0). rewrite bind_ok. cbn beta iota.
  assert (S : ∃ t1 x, match r with Some he => Ok (with_ELhash st t, he) | None => ELsearch bd (Z.to_nat (ELhashsize bd)) (with_ELhash st t) b 1 end
                      = Ok (with_ELhash st t1, x) ∧ hashed (with_ELhash st t1) ∧ x ∈ line mid).
  { destruct r as [x|]; [exists t, x; auto|]. assert (b ≠ 0) by (intros E; by specialize (H0 E)).
    destruct (search_ok (Z.to_nat (ELhashsize bd)) (with_ELhash st t) b 1 H1) as (t1 & x & -> & H3 & Hx); [lia|lia|]. by exists t1, x. }
  destruct S as (t1 & x & -> & H2 & Hx). rewrite bind_ok. cbn beta iota.
  destruct (walk_ok (with_ELhash st t1) mid (proj1 H2) x p Hx) as (m1 & m2 & q & a & -> & Em & Eq). rewrite bind_ok.
  destruct (Z.ltb_spec 0 b); cbn [andb]; [|by exists t1, a, m1, m2, q].
  destruct (Z.ltb_spec b (ELhashsize bd - 1)); [|by exists t1, a, m1, m2, q].
  destruct H2 as [B2 K2]. pose proof (h_len _ _ K2) as L2. cbn [ELhash with_ELhash] in L2.
  destruct (int_lookup t1 b) as [y Hy]; [lia|]. cbn [ELhash with_ELhash]. rewrite (upd_int_ok _ _ _ _ (proj1 Rb) Hy), bind_ok.
  eexists _, a, m1, m2, q. split; [reflexivity|]. split; [|done]. split; [exact B2|]. apply hash_set; [exact K2|lia|].
  intros z [= <-]. apply (in_range (with_ELhash st t1) mid B2). unfold line. rewrite Em.
  rewrite <- app_assoc, app_comm_cons, Eq, <- app_assoc. apply elem_of_app. right. by left.
Qed.
End place.

(** *** The invariant *)

(** A halfedge with an event is in the queue. *)
Definition events_in st (l : list nat) : Prop := ∀ x h v, x ∈ l → halfedges st !! x = Some h → vertex h = Some v → x ∈ queued st.

(** The sites of the edges are among those the sweep has met. *)
Definition known (met : list Z) st : Prop := ∀ k e, edges st !! k = Some e → sitenbr (fst (reg e)) ∈ met ∧ sitenbr (snd (reg e)) ∈ met.

(** [mid] are the halfedges between the ends, [el] those whose events are in the queue: all of
    them, but within the steps of an event. *)
Record inv (met : list Z) st (mid el : list nat) : Prop := mk_inv {
  v_beach : beach (halfedges st) (length (edges st)) mid;
  v_hash : hash_ok (halfedges st) (ELhash st);
  v_queue : queue bd st;
  v_out : out_ok n st;
  v_known : known met st;
  v_bottom : site_ok n (bottomsite bd) ∧ sitenbr (bottomsite bd) ∈ met;
  v_events : events_in st el }.

(** An event is about a halfedge and its right neighbor, which is not the right end. *)
Definition waiting st (mid : list nat) : Prop := ∀ x, x ∈ queued st → x ∈ removelast mid.

Lemma removelast_insert {A} (x c : A) m1 m2 : x ∈ removelast (m1 ++ m2) → x ∈ removelast (m1 ++ c :: m2).
Proof.
  destruct m2 as [|z m2] using rev_ind.
  - rewrite app_nil_r, removelast_last. intros Hx. destruct m1 as [|w m1] using rev_ind; [done|].
    rewrite removelast_last in Hx. apply elem_of_app. by left.
  - rewrite app_comm_cons, !app_assoc, !removelast_last, !elem_of_app, elem_of_cons. tauto.
Qed.

Lemma in_removelast {A} (x : A) l : x ∈ removelast l → ∃ l1 y l2, l = l1 ++ x :: y :: l2.
Proof.
  destruct l as [|z l] using rev_ind; [by intros ?%elem_of_nil|]. rewrite removelast_last.
  intros (l1 & l2 & ->)%list_elem_of_split. rewrite <- app_assoc. cbn [app]. destruct l2 as [|y l2]; [by exists l1, z, []|]. by exists l1, y, (l2 ++ [z]).
Qed.

Lemma removelast_at {A} (x y : A) l1 l2 : x ∈ removelast (l1 ++ x :: y :: l2).
Proof.
  destruct (exists_last (l := y :: l2)) as (l & z & ->); [done|]. rewrite app_comm_cons, app_assoc, removelast_last.
  apply elem_of_app. right. by left.
Qed.

(** *** Steps *)

Lemma beach_more hs k k' mid : beach hs k mid → (k ≤ k')%nat → beach hs k' mid.
Proof. intros [N L E M G Q] Hk. split; try done. intros x Hx. destruct (M x Hx) as (j & ? & ?). exists j. split; [done|lia]. Qed.

(** The event of a halfedge changes. *)
Lemma beach_event hs k mid x h v y : beach hs k mid → hs !! x = Some h → x ∈ mid → beach (<[x := set_event h v y]> hs) k mid.
Proof.
  intros [N L E M G Q] Hh Hx. split; try done.
  - by rewrite !(view_same _ hs x h).
  - by rewrite !(view_same _ hs x h).
  - intros z Hz. rewrite (view_same ELedge hs x h) by done. by apply M.
  - intros z Hz. rewrite (view_same ELedge hs x h) by done. apply G. by rewrite length_insert in Hz.
  - rewrite list_fmap_insert. assert (x ≠ ELleftend ∧ x ≠ ELrightend) as [? ?].
    { unfold line in N. apply NoDup_cons in N as [N1 N]. apply NoDup_app in N as (_ & N & _). split; intros ->.
      - apply N1, elem_of_app. by left.
      - apply (N ELrightend); [done|by left]. }
    by rewrite !list_lookup_insert_ne by done.
Qed.

Lemma intersect_ok st mid a b : beach (halfedges st) (length (edges st)) mid → a ∈ line mid → b ∈ line mid →
  ∃ p, intersect st a b = Ok p ∧ (p ≠ None → a ∈ mid ∧ b ∈ mid).
Proof.
  intros B Ha Hb.
  assert (K : ∀ x, x ∈ line mid → ∃ h, halfedges st !! x = Some h ∧
    (ELedge h = NoEdge ∨ x ∈ mid ∧ ∃ k e, ELedge h = ToEdge k ∧ edges st !! k = Some e)).
  { intros x Hx. unfold line in Hx. rewrite elem_of_cons, elem_of_app, list_elem_of_singleton in Hx. destruct (b_ends _ _ _ B) as [E0 E1].
    destruct Hx as [->|[Hx| ->]].
    - apply at_view in E0 as (h & Hh & E). exists h. auto.
    - destruct (mid_edge st mid B x Hx) as (h & k & e & Hh & Ek & He). exists h. split; [done|]. right. split; [done|]. by exists k, e.
    - apply at_view in E1 as (h & Hh & E). exists h. auto. }
  destruct (K a Ha) as (ha & Hha & Ca). destruct (K b Hb) as (hb & Hhb & Cb). unfold intersect.
  rewrite (he_at_ok _ _ _ Hha), bind_ok, (he_at_ok _ _ _ Hhb), bind_ok.
  destruct Ca as [->|(Ma & ka & ea & -> & Hea)]; [by exists None|].
  destruct Cb as [->|(Mb & kb & eb & -> & Heb)]; [by exists None|].
  unfold edge_at. rewrite (at_idx_ok _ _ _ Hea), bind_ok, (at_idx_ok _ _ _ Heb), bind_ok.
  destruct (_ =? _); [by exists None|]. destruct (crossing _ _); [|by exists None].
  destruct (if above_or_left _ _ then _ else _) as [h e]. destruct (Bool.eqb _ _); [by exists None|]. by eexists.
Qed.

(** The invariant of the output is about the output only. *)
Lemma out_same st st' : edges st' = edges st → w_sites st' = w_sites st → w_lines st' = w_lines st → w_vertex st' = w_vertex st →
  out_ok n st → out_ok n st'.
Proof.
  intros U1 U3 U4 U5 [OS OL OE OB OV OK]. split; rewrite ?U1, ?U3, ?U4; try done.
  - intros k e He. destruct (OE k e He) as [? ? [? ?]]. split; [done|done|]. unfold number_ok in *. by rewrite U5.
  - intros k l Hk. destruct (OV k l Hk). unfold number_ok in *. by rewrite U5.
Qed.

(** The event of a halfedge is set or cleared. *)
Lemma event_inv met st st' mid el he h v y : inv met st mid el → he ∈ mid → halfedges st !! he = Some h →
  only_queue st st' → queue bd st' → halfedges st' = <[he := set_event h v y]> (halfedges st) →
  (∀ x, x ∈ queued st ∧ x ≠ he ∨ x = he ∧ v ≠ None → x ∈ queued st') → inv met st' mid el.
Proof.
  intros [B H Q O K Bo E] Hm Hh U Q' Eh Hin. pose proof U as (U1 & U2 & U3 & U4 & U5). split.
  - rewrite Eh, U1. by apply beach_event.
  - rewrite Eh, U2. eapply hash_grow; [exact H|]. by rewrite length_insert.
  - exact Q'.
  - by apply (out_same st).
  - intros k e. rewrite U1. apply K.
  - exact Bo.
  - intros x hx w Hx Hhx Hw. apply Hin. rewrite Eh in Hhx. destruct (decide (x = he)) as [->|Hne].
    + rewrite list_lookup_insert_eq in Hhx by (by apply lookup_lt_Some in Hh). injection Hhx as <-. right. split; [done|].
      cbn in Hw. by rewrite Hw.
    + rewrite list_lookup_insert_ne in Hhx by done. left. split; [|done]. by apply (E x hx w).
Qed.

Lemma PQdelete_inv met st mid el he : inv met st mid el → he ∈ mid → he ∈ el →
  ∃ st', PQdelete bd st he = Ok st' ∧ inv met st' mid el ∧ only_queue st st' ∧ length (halfedges st') = length (halfedges st)
  ∧ (he ∉ queued st') ∧ ∀ x, x ∈ queued st' ↔ x ∈ queued st ∧ x ≠ he.
Proof.
  intros I Hm He. pose proof (v_beach _ _ _ _ I) as B. assert (Hl : he ∈ line mid) by (unfold line; right; apply elem_of_app; by left).
  destruct (halfedge_at st mid B he Hl) as [h Hh].
  destruct (PQdelete_ok bd Hsq st he h (v_queue _ _ _ _ I) Hh) as (st' & -> & Q & U & Eh & Hn & Hx).
  { intros Hv. destruct (vertex h) as [w|] eqn:Ew; [|done]. by apply (v_events _ _ _ _ I he h w). }
  exists st'. splits; try done; [|by rewrite Eh, length_insert].
  eapply event_inv; [done|done|done|done|done|exact Eh|]. intros x [Hq|[_ []]]; [by apply Hx|done].
Qed.

Lemma PQinsert_inv met st mid el he v off : inv met st mid el → he ∈ mid → he ∉ queued st →
  ∃ st', PQinsert bd st he v off = Ok st' ∧ inv met st' mid el ∧ only_queue st st' ∧ length (halfedges st') = length (halfedges st)
  ∧ ∀ x, x ∈ queued st' ↔ x = he ∨ x ∈ queued st.
Proof.
  intros I Hm Hn. pose proof (v_beach _ _ _ _ I) as B. assert (Hl : he ∈ line mid) by (unfold line; right; apply elem_of_app; by left).
  destruct (halfedge_at st mid B he Hl) as [h Hh].
  destruct (PQinsert_ok bd Hsq st he v off h (v_queue _ _ _ _ I) Hn Hh) as (st' & -> & Q & U & Eh & P).
  assert (Hx : ∀ x, x ∈ queued st' ↔ x = he ∨ x ∈ queued st) by (intros x; by rewrite P, elem_of_cons).
  exists st'. splits; try done; [|by rewrite Eh, length_insert].
  eapply event_inv; [done|done|done|done|done|exact Eh|]. intros x [[Hq _]|[-> _]]; apply Hx; auto.
Qed.

(** A found intersection becomes an event. *)
Lemma new_event_ok met st mid el r he p from : inv met st mid el → (p ≠ None → he ∈ mid ∧ he ∈ el) → (r = false → he ∉ queued st) →
  ∃ st', new_event bd st r he p from = Ok st' ∧ inv met st' mid el ∧ only_queue st st'
  ∧ length (halfedges st') = length (halfedges st)
  ∧ ∀ x, x ∈ queued st' → x ∈ queued st ∨ (x = he ∧ p ≠ None).
Proof.
  intros I Hm Hr. unfold new_event. destruct p as [v|]; [|exists st; splits; try done; by left]. destruct (Hm ltac:(done)) as [Hm1 Hm2].
  set (o := if r then _ else _). assert (Ho : ∃ st1, o = Ok st1 ∧ inv met st1 mid el ∧ only_queue st st1
    ∧ length (halfedges st1) = length (halfedges st) ∧ (he ∉ queued st1) ∧ ∀ x, x ∈ queued st1 → x ∈ queued st).
  { unfold o. destruct r; [|exists st; splits; try done; by apply Hr].
    destruct (PQdelete_inv met st mid el he I Hm1 Hm2) as (st1 & -> & I1 & U1 & L1 & Hn1 & S1). exists st1. splits; try done. intros x Hx. by apply S1 in Hx as []. }
  destruct Ho as (st1 & -> & I1 & (?&?&?&?&?) & L1 & Hn1 & S1). rewrite bind_ok.
  destruct (PQinsert_inv met st1 mid el he v (dist v from) I1 Hm1 Hn1) as (st2 & -> & I2 & (?&?&?&?&?) & L2 & S2).
  exists st2. splits; [done|done|unfold only_queue; splits; congruence|congruence|]. intros x Hx. apply S2 in Hx as [->|Hx]; [by right|left; auto].
Qed.
End safe.

(** ** The events of the sweep keep its invariant: a site brings two halfedges and an edge, an
    intersection joins two halfedges into one and brings a vertex and an edge. *)

Section events.
Context (bd : bounds) (n : nat) (Hsq : 0 < sqrt_nsites bd).
Implicit Types st : sweep.

(** *** Neighbors *)

(** What is next to the place of [c] is an end or on the line. *)
Lemma left_inner hs k m1 c m2 q a : beach hs k (m1 ++ c :: m2) → ELleftend :: m1 = q ++ [a] → a ∈ m1 ++ c :: m2 →
  a ∈ removelast (m1 ++ c :: m2).
Proof.
  intros B E Ha. destruct m1 as [|w m1] using rev_ind.
  - apply (app_inj_tail [] q) in E as [_ <-].
    pose proof (b_nodup _ _ _ B) as N. apply NoDup_cons in N as [N _]. exfalso. apply N, elem_of_app. by left.
  - rewrite app_comm_cons in E. apply app_inj_tail in E as [_ <-]. rewrite <- app_assoc. apply removelast_at.
Qed.

Lemma right_inner hs k m1 c m2 b q : beach hs k (m1 ++ c :: m2) → m2 ++ [ELrightend] = b :: q → b ∈ m1 ++ c :: m2 →
  c ∈ removelast (m1 ++ c :: m2).
Proof.
  intros B E Hb. destruct m2 as [|w m2]; [|apply removelast_at]. injection E as <- _.
  pose proof (b_nodup _ _ _ B) as N. apply NoDup_cons in N as [_ N]. apply NoDup_app in N as (_ & N & _).
  exfalso. apply (N ELrightend); [done|by left].
Qed.

Lemma on_line x mid : x ∈ mid → x ∈ line mid.
Proof. intros Hx. right. apply elem_of_app. by left. Qed.

Lemma regs_ok met st mid el x : inv bd n met st mid el → x ∈ line mid →
  (∃ s, leftreg bd st x = Ok s ∧ site_ok n s ∧ sitenbr s ∈ met) ∧ ∃ s, rightreg bd st x = Ok s ∧ site_ok n s ∧ sitenbr s ∈ met.
Proof.
  intros I Hx. pose proof (v_beach _ _ _ _ _ _ I) as B. destruct (v_bottom _ _ _ _ _ _ I) as [Ob Mb].
  destruct (halfedge_at st mid B x Hx) as [h Hh]. unfold leftreg, rightreg. rewrite (he_at_ok _ _ _ Hh), !bind_ok.
  assert (C : ELedge h = NoEdge ∨ ∃ k e, ELedge h = ToEdge k ∧ edges st !! k = Some e).
  { unfold line in Hx. rewrite elem_of_cons, elem_of_app, list_elem_of_singleton in Hx. destruct (b_ends _ _ _ B) as [E0 E1].
    destruct Hx as [->|[Hx| ->]].
    - apply at_view in E0 as (h' & Hh' & E). left. congruence.
    - destruct (mid_edge st mid B x Hx) as (h' & k & e & Hh' & Ek & He). right. exists k, e. split; [congruence|done].
    - apply at_view in E1 as (h' & Hh' & E). left. congruence. }
  destruct C as [->|(k & e & -> & He)]; [split; by exists (bottomsite bd)|].
  unfold edge_at. rewrite (at_idx_ok _ _ _ He), !bind_ok. destruct (e_sites _ _ _ _ (o_edge _ _ (v_out _ _ _ _ _ _ I) k e He)).
  destruct (v_known _ _ _ _ _ _ I k e He). destruct (ELpm h); split; eexists; split; done.
Qed.

(** *** The parts of an event *)

(** What changes the output only *)
Lemma shape_inv met met' st st' mid el : inv bd n met st mid el → same_shape st st' → (length (edges st) ≤ length (edges st'))%nat →
  out_ok n st' → known met' st' → (∀ x, x ∈ met → x ∈ met') → inv bd n met' st' mid el.
Proof.
  intros [B H Q O K [Bo Mo] E] (S1 & S2 & S3 & S4 & S5) Hl O' K' Hmet. split; try done.
  - rewrite S1. by eapply beach_more.
  - by rewrite S1, S5.
  - unfold queue. by rewrite S1, S2, S3, S4.
  - auto.
  - intros x h v. rewrite S1. unfold queued. rewrite S2. apply E.
Qed.

Lemma known_graph met st st' : known met st → reg <$> edges st' = reg <$> edges st → known met st'.
Proof.
  intros K E k e He. assert (V : reg <$> edges st !! k = Some (reg e)) by (by rewrite <- list_lookup_fmap, <- E, list_lookup_fmap, He).
  destruct (edges st !! k) as [e'|] eqn:He'; [|done]. injection V as <-. by apply (K k).
Qed.

(** The graph after a step: the sides of one more edge *)
Definition regs st : list (Site * Site) := reg <$> edges st.

Lemma bisect_inv met met' st mid el s1 s2 : inv bd n met st mid el → site_ok n s1 → site_ok n s2 →
  sitenbr s1 ∈ met' → sitenbr s2 ∈ met' → (∀ x, x ∈ met → x ∈ met') →
  ∃ st', bisect st s1 s2 = Ok (st', length (edges st)) ∧ inv bd n met' st' mid el ∧ same_shape st st'
  ∧ length (edges st') = S (length (edges st)) ∧ regs st' = regs st ++ [(s1, s2)] ∧ w_vertex st' = w_vertex st.
Proof.
  intros I H1 H2 M1 M2 Hmet. destruct (bisect_ok n st s1 s2 (v_out _ _ _ _ _ _ I) H1 H2) as (st' & e & l & -> & O & S & Ee & Er & _ & _ & Ev).
  exists st'. unfold regs. rewrite Ee, fmap_app, length_app. cbn [fmap list_fmap length]. rewrite Er. splits; try done; [|lia].
  apply (shape_inv met met' st st' mid el); try done.
  - rewrite Ee, length_app. lia.
  - intros k x Hx. rewrite Ee in Hx. apply lookup_snoc_Some in Hx as [[_ Hx]|[_ <-]].
    + destruct (v_known _ _ _ _ _ _ I k x Hx). auto.
    + rewrite Er. by split.
Qed.

Lemma endpoint_inv met st mid el k lr s : inv bd n met st mid el → (k < length (edges st))%nat → 0 ≤ sitenbr s < Z.of_nat (length (w_vertex st)) →
  ∃ st', endpoint bd st (ToEdge k) lr s = Ok st' ∧ inv bd n met st' mid el ∧ same_shape st st' ∧ regs st' = regs st
  ∧ length (edges st') = length (edges st) ∧ w_vertex st' = w_vertex st.
Proof.
  intros I Hk Hs. destruct (endpoint_ok bd n st k lr s (v_out _ _ _ _ _ _ I) Hk Hs) as (st' & -> & O & S & G & Ev).
  destruct (graph_lengths _ _ G) as [L _]. pose proof G as (G1 & _). exists st'. splits; try done.
  apply (shape_inv met met st st' mid el); try done; [lia|]. by apply (known_graph met st); [apply I|].
Qed.

Lemma makevertex_inv met st mid el v : inv bd n met st mid el → ∃ st' v', makevertex st v = (st', v')
  ∧ inv bd n met st' mid el ∧ same_shape st st' ∧ edges st' = edges st
  ∧ length (w_vertex st') = S (length (w_vertex st)) ∧ 0 ≤ sitenbr v' < Z.of_nat (length (w_vertex st')).
Proof.
  intros I. pose proof (makevertex_ok n st v (v_out _ _ _ _ _ _ I)) as M. destruct (makevertex st v) as [st' v'].
  destruct M as (O & S & E & _ & _ & L & V). exists st', v'. splits; try done; try lia. apply (shape_inv met met st st' mid el); try done.
  - by rewrite E.
  - apply (known_graph met st); [apply I|]. by rewrite E.
Qed.

(** A halfedge joins the line. *)
Lemma insert_inv met st m1 m2 el q a k pm : inv bd n met st (m1 ++ m2) el → ELleftend :: m1 = q ++ [a] → (k < length (edges st))%nat →
  ∃ hs, ELinsert (fst (HEcreate st (ToEdge k) pm)) a (length (halfedges st)) = Ok (with_halfedges st hs)
  ∧ inv bd n met (with_halfedges st hs) (m1 ++ length (halfedges st) :: m2) (length (halfedges st) :: el)
  ∧ length hs = S (length (halfedges st)) ∧ length (halfedges st) ∉ queued st.
Proof.
  intros [B H Q O K Bo E] Eq Hk. destruct (ELinsert_ok st _ m1 m2 q a k pm B eq_refl Eq Hk) as (hs & -> & B' & Sv & Sy).
  exists hs. split; [done|]. assert (L : length hs = S (length (halfedges st))).
  { apply (f_equal length) in Sv. rewrite length_app, !length_fmap in Sv. cbn in Sv. lia. }
  assert (Hn : length (halfedges st) ∉ queued st).
  { intros Hx. destruct (queued_event bd st _ Q Hx) as (h & v & Hh & _). apply lookup_lt_Some in Hh. lia. }
  split; [|by split]. split; try done.
  - eapply hash_grow; [exact H|]. cbn. lia.
  - by eapply queue_views.
  - by apply (out_same n st).
  - intros x h v Hx Hh Hv. change (queued (with_halfedges st hs)) with (queued st). cbn [halfedges with_halfedges] in Hh.
    assert (V : (vertex <$> hs) !! x = Some (Some v)) by (rewrite list_lookup_fmap, Hh; cbn; by rewrite Hv).
    rewrite Sv in V. apply lookup_snoc_Some in V as [[_ V]|[_ V]]; [|done]. apply at_view in V as (h' & Hh' & Hv').
    apply elem_of_cons in Hx as [->|Hx]; [apply lookup_lt_Some in Hh'; lia|]. by apply (E x h' v).
Qed.

(** A halfedge leaves it. *)
Lemma delete_inv met st m1 c m2 el : inv bd n met st (m1 ++ c :: m2) el →
  ∃ hs, ELdelete st c = Ok (with_halfedges st hs) ∧ inv bd n met (with_halfedges st hs) (m1 ++ m2) el ∧ length hs = length (halfedges st).
Proof.
  intros [B H Q O K Bo E]. destruct (delete_ok st _ m1 c m2 B eq_refl) as (hs & -> & B' & Sv & Sy).
  exists hs. split; [done|]. assert (L : length hs = length (halfedges st)).
  { apply (f_equal length) in Sv. by rewrite !length_fmap in Sv. }
  split; [|done]. split; try done.
  - eapply hash_grow; [exact H|]. cbn. lia.
  - eapply (queue_views _ _ hs _ _ _ [] []); [exact Q|by rewrite app_nil_r|by rewrite app_nil_r].
  - by apply (out_same n st).
  - intros x h v Hx Hh Hv. change (queued (with_halfedges st hs)) with (queued st). cbn [halfedges with_halfedges] in Hh.
    assert (V : (vertex <$> hs) !! x = Some (Some v)) by (rewrite list_lookup_fmap, Hh; cbn; by rewrite Hv).
    rewrite Sv in V. apply at_view in V as (h' & Hh' & Hv'). by apply (E x h' v).
Qed.

(** *** An event near a new halfedge *)

Lemma less_events met st mid el el' : inv bd n met st mid el → (∀ x, x ∈ el' → x ∈ el) → inv bd n met st mid el'.
Proof. intros [B H Q O K Bo E] S. split; try done. intros x h v Hx. apply E. auto. Qed.

Definition ready met st mid : Prop := inv bd n met st mid (line mid) ∧ waiting st mid.

Lemma insert_ready met st m1 m2 q a k pm : inv bd n met st (m1 ++ m2) (line (m1 ++ m2)) → (∀ c, waiting st (m1 ++ c :: m2)) → ELleftend :: m1 = q ++ [a] → (k < length (edges st))%nat →
  ∃ st', ELinsert (fst (HEcreate st (ToEdge k) pm)) a (length (halfedges st)) = Ok st'
  ∧ ready met st' (m1 ++ length (halfedges st) :: m2) ∧ only_queue st st'
  ∧ length (halfedges st') = S (length (halfedges st)) ∧ length (halfedges st) ∉ queued st'.
Proof.
  intros I W Eq Hk. destruct (insert_inv met st m1 m2 _ q a k pm I Eq Hk) as (hs & -> & I' & L & Hn).
  eexists. split; [done|]. split; [|done]. split.
  - eapply less_events; [exact I'|]. intros x. unfold line. repeat first [rewrite elem_of_app|rewrite elem_of_cons]. tauto.
  - exact (W _).
Qed.

Lemma waiting_more met st m1 m2 : ready met st (m1 ++ m2) → ∀ c, waiting st (m1 ++ c :: m2).
Proof. intros [_ W] c x Hx. apply removelast_insert. by apply W. Qed.

Lemma shape_waiting st st' mid : same_shape st st' → waiting st mid → waiting st' mid.
Proof. intros (_ & E & _) W x Hx. unfold queued in Hx. rewrite E in Hx. by apply W. Qed.

(** The neighbors of a place on the line, and their intersections with what is there *)
Lemma left_event met st m1 c m2 q a from : ready met st (m1 ++ c :: m2) → ELleftend :: m1 = q ++ [a] →
  ∃ p st', intersect st a c = Ok p ∧ new_event bd st true a p from = Ok st' ∧ ready met st' (m1 ++ c :: m2)
  ∧ only_queue st st' ∧ length (halfedges st') = length (halfedges st) ∧ (c ∉ queued st → c ∉ queued st').
Proof.
  intros [I W] Eq. pose proof (v_beach _ _ _ _ _ _ I) as B.
  assert (Ha : a ∈ line (m1 ++ c :: m2)). { unfold line. rewrite <- app_assoc, app_comm_cons, Eq. rewrite !elem_of_app, list_elem_of_singleton. tauto. }
  assert (Hc : c ∈ line (m1 ++ c :: m2)). { apply on_line, elem_of_app. right. by left. }
  destruct (intersect_ok st _ a c B Ha Hc) as (p & -> & Hp). exists p.
  destruct (new_event_ok bd n Hsq met st _ _ true a p from I) as (st' & -> & I' & U & L & S); [intros Hv; split; [by apply Hp|done]|done|].
  exists st'. split; [done|]. split; [done|]. split; [|split; [done|split; [done|]]].
  - split; [done|]. intros x Hx. apply S in Hx as [Hx|[-> Hv]]; [by apply W|]. eapply left_inner; [exact B|exact Eq|by apply Hp].
  - intros Hn Hx. apply S in Hx as [Hx|[-> Hv]]; [done|]. pose proof (b_nodup _ _ _ B) as N. unfold line in N.
    rewrite <- app_assoc, app_comm_cons, Eq in N. cbn [app] in N. apply NoDup_app in N as (_ & N & _). apply (N a); [apply elem_of_app; right; by left|by left].
Qed.

Lemma right_event met st m1 c m2 b q from : ready met st (m1 ++ c :: m2) → m2 ++ [ELrightend] = b :: q → c ∉ queued st →
  ∃ p st', intersect st c b = Ok p ∧ new_event bd st false c p from = Ok st' ∧ ready met st' (m1 ++ c :: m2)
  ∧ only_queue st st' ∧ length (halfedges st') = length (halfedges st).
Proof.
  intros [I W] Eq Hn. pose proof (v_beach _ _ _ _ _ _ I) as B.
  assert (Hb : b ∈ line (m1 ++ c :: m2)). { unfold line. rewrite <- app_assoc. cbn [app]. rewrite Eq, elem_of_cons, elem_of_app, !elem_of_cons. tauto. }
  assert (Hc : c ∈ line (m1 ++ c :: m2)). { apply on_line, elem_of_app. right. by left. }
  destruct (intersect_ok st _ c b B Hc Hb) as (p & -> & Hp). exists p.
  destruct (new_event_ok bd n Hsq met st _ _ false c p from I) as (st' & -> & I' & U & L & S); [intros Hv; split; [by apply Hp|done]|done|].
  exists st'. split; [done|]. split; [done|]. split; [|done].
  split; [done|]. intros x Hx. apply S in Hx as [Hx|[-> Hv]]; [by apply W|]. eapply right_inner; [exact B|exact Eq|by apply Hp].
Qed.

(** *** A site *)

Lemma site_event_ok met st mid s : ready met st mid → site_ok n s →
  ∃ st' mid' bot, site_event bd st s = Ok st' ∧ ready (sitenbr s :: met) st' mid'
  ∧ length mid' = S (S (length mid)) ∧ sitenbr bot ∈ met ∧ regs st' = regs st ++ [(bot, s)] ∧ w_vertex st' = w_vertex st.
Proof.
  intros [I W] Hs. unfold site_event.
  destruct (leftbnd_ok bd Hsq mid st (scoord s)) as (t & a & m1 & m2 & q & -> & [B1 H1] & -> & Eq); [split; apply I|].
  rewrite bind_ok. cbn beta iota. set (st1 := with_ELhash st t).
  assert (R1 : ready met st1 (m1 ++ m2)). { split; [|exact W]. destruct I as [? ? ? ? ? ? ?]. split; try done. by apply (out_same n st). }
  assert (Er : regs st1 = regs st) by done. assert (Ev : w_vertex st1 = w_vertex st) by done. clearbody st1.
  destruct (line_split m1 m2) as (p & a' & b & r & E1 & E2 & EL).
  assert (a' = a) as -> by (rewrite Eq in E1; by apply app_inj_tail in E1 as [_ ->]).
  assert (Ha : a ∈ line (m1 ++ m2)) by (rewrite EL, elem_of_app, elem_of_cons; tauto).
  destruct (neighbors_ok st1 _ (v_beach _ _ _ _ _ _ (proj1 R1)) _ _ _ _ EL) as [-> _]. rewrite bind_ok.
  destruct (regs_ok met st1 _ _ a (proj1 R1) Ha) as [_ (bot & -> & Ob & Mb)]. rewrite bind_ok.
  destruct (bisect_inv met (sitenbr s :: met) st1 _ _ bot s (proj1 R1)) as (st2 & -> & I2 & S2 & L2 & G2 & V2); [done|done|by right|by left|by right|].
  rewrite bind_ok. cbn beta iota. set (k := length (edges st1)) in *.
  assert (R2 : ready (sitenbr s :: met) st2 (m1 ++ m2)) by (split; [done|]; by apply (shape_waiting st1); [|apply R1]).
  change (HEcreate st2 (ToEdge k) LE) with (fst (HEcreate st2 (ToEdge k) LE), length (halfedges st2)). cbn beta iota.
  destruct (insert_ready _ st2 m1 m2 q a k LE (proj1 R2)) as (st3 & -> & R3 & U3 & L3 & N3); [by eapply waiting_more|done|lia|]. rewrite bind_ok. set (n1 := length (halfedges st2)) in *.
  destruct (left_event _ st3 m1 n1 m2 q a s R3 Eq) as (p1 & st4 & -> & E4 & R4 & U4 & L4 & N4). rewrite bind_ok, E4, bind_ok.
  change (HEcreate st4 (ToEdge k) RE) with (fst (HEcreate st4 (ToEdge k) RE), length (halfedges st4)). cbn beta iota.
  change (n1 :: m2) with ([n1] ++ m2) in R4. rewrite app_assoc in R4.
  destruct (insert_ready _ st4 (m1 ++ [n1]) m2 (ELleftend :: m1) n1 k RE (proj1 R4)) as (st5 & -> & R5 & U5 & L5 & N5); [by eapply waiting_more|done| |].
  { destruct U3 as (E3 & _), U4 as (-> & _). rewrite E3. lia. }
  rewrite bind_ok. set (n2 := length (halfedges st4)) in *.
  destruct (right_event _ st5 (m1 ++ [n1]) n2 m2 b r s R5 E2 N5) as (p2 & st6 & -> & E6 & R6 & U6 & L6). rewrite bind_ok, E6.
  exists st6, ((m1 ++ [n1]) ++ n2 :: m2), bot. split; [done|]. split; [done|].
  destruct U3 as (U3 & _ & _ & _ & V3), U4 as (U4 & _ & _ & _ & V4), U5 as (U5 & _ & _ & _ & V5), U6 as (U6 & _ & _ & _ & V6).
  splits; [rewrite !length_app; cbn; lia|done| |congruence].
  unfold regs in *. rewrite U6, U5, U4, U3, G2. by rewrite Er.
Qed.
(** *** An intersection *)

(** The waiting halfedges, but for two that go *)
Lemma removelast_two (x z c : nat) y m1 m2 : z ∈ removelast (m1 ++ x :: y :: m2) → z ≠ x → z ≠ y → z ∈ removelast (m1 ++ c :: m2).
Proof.
  intros Hz Hx Hy. rewrite removelast_app in Hz |- * by done. rewrite elem_of_app in Hz |- *. destruct Hz as [Hz|Hz]; [by left|right].
  change (removelast (x :: y :: m2)) with (x :: removelast (y :: m2)) in Hz. apply elem_of_cons in Hz as [?|Hz]; [done|].
  destruct m2 as [|w m2]; [by apply elem_of_nil in Hz|]. change (removelast (y :: w :: m2)) with (y :: removelast (w :: m2)) in Hz.
  apply elem_of_cons in Hz as [?|Hz]; [done|]. by right.
Qed.

Lemma line_perm m1 x m2 : line (m1 ++ x :: m2) ≡ₚ x :: line (m1 ++ m2).
Proof. unfold line. rewrite <- (Permutation_middle m1 m2 x). cbn [app]. apply perm_swap. Qed.

(** The next event is taken out. *)
Lemma extract_ok met st mid x c : ready met st mid → PQhash st !! Z.to_nat (PQmin st) = Some (x :: c) →
  ∃ st' m1 y m2, PQextractmin st = Ok (st', x) ∧ mid = m1 ++ x :: y :: m2
  ∧ inv bd n met st' mid (line (m1 ++ y :: m2)) ∧ only_queue st st'
  ∧ (∃ h v k, halfedges st' !! x = Some h ∧ vertex h = Some v ∧ ELedge h = ToEdge k ∧ (k < length (edges st'))%nat)
  ∧ ∀ z, z ∈ queued st' → z ∈ removelast mid ∧ z ≠ x.
Proof.
  intros [[B H Q O K Bo E] W] Hc. destruct (PQextractmin_ok bd st x c Q Hc) as (st' & -> & Q' & U & Eh & Hx & Hn & Hq).
  destruct (in_removelast _ _ (W x Hx)) as (m1 & y & m2 & ->). exists st', m1, y, m2. split; [done|]. split; [done|].
  pose proof U as (U1 & U2 & U3 & U4 & U5).
  assert (Hxy : x ∉ line (m1 ++ y :: m2)).
  { pose proof (b_nodup _ _ _ B) as N. rewrite line_perm in N. by apply NoDup_cons in N as []. }
  splits; try done.
  - split; try done.
    + by rewrite Eh, U1.
    + by rewrite Eh, U2.
    + by apply (out_same n st).
    + intros k e. rewrite U1. apply K.
    + intros z h v Hz Hh Hv. rewrite Eh in Hh. apply Hq. split; [|by intros ->]. apply (E z h v); [|done|done].
      rewrite line_perm. by right.
  - assert (Hm : x ∈ m1 ++ x :: y :: m2) by (rewrite elem_of_app, elem_of_cons; tauto).
    destruct (queued_event bd st x Q Hx) as (h & v & Hh & Hv). destruct (mid_edge st _ B x Hm) as (h' & k & e & Hh' & Ek & He).
    assert (h' = h) as -> by congruence. exists h, v, k. splits; [by rewrite Eh|done|done|]. rewrite U1. by apply lookup_lt_Some in He.
  - intros z Hz. apply Hq in Hz as [Hz Hne]. split; [by apply W|done].
Qed.
(** Its vertex ends the edges of two neighbors. *)
Lemma close_ok met st mid el x y hx k v : inv bd n met st mid el → halfedges st !! x = Some hx → ELedge hx = ToEdge k →
  (k < length (edges st))%nat → y ∈ mid →
  ∃ st2 v' st3 hy st4, makevertex st v = (st2, v') ∧ endpoint bd st2 (ELedge hx) (ELpm hx) v' = Ok st3
  ∧ he_at st3 y = Ok hy ∧ endpoint bd st3 (ELedge hy) (ELpm hy) v' = Ok st4 ∧ inv bd n met st4 mid el ∧ same_shape st st4
  ∧ regs st4 = regs st ∧ length (w_vertex st4) = S (length (w_vertex st)) ∧ 0 ≤ sitenbr v' < Z.of_nat (length (w_vertex st4)).
Proof.
  intros I Hx -> Hk Hy. destruct (makevertex_inv met st mid el v I) as (st2 & v' & -> & I2 & S2 & E2 & L2 & V2). exists st2, v'.
  destruct (endpoint_inv met st2 mid el k (ELpm hx) v' I2) as (st3 & -> & I3 & S3 & G3 & L3 & V3); [by rewrite E2|done|]. exists st3.
  destruct (mid_edge st3 mid (v_beach _ _ _ _ _ _ I3) y Hy) as (hy & ky & e & Hhy & Eky & He). exists hy. rewrite (he_at_ok _ _ _ Hhy), Eky.
  destruct (endpoint_inv met st3 mid el ky (ELpm hy) v' I3) as (st4 & -> & I4 & S4 & G4 & L4 & V4); [by apply lookup_lt_Some in He|by rewrite V3|].
  assert (Er : regs st2 = regs st) by (unfold regs; by rewrite E2).
  exists st4. assert (w_vertex st4 = w_vertex st2) as -> by congruence. splits; try done; try lia; try congruence.
  eapply same_shape_trans; [exact S2|]. by eapply same_shape_trans.
Qed.

(** The two leave. *)
Lemma two_leave_ok met st m1 x y m2 : inv bd n met st (m1 ++ x :: y :: m2) (line (m1 ++ y :: m2)) →
  (∀ z, z ∈ queued st → z ∈ removelast (m1 ++ x :: y :: m2) ∧ z ≠ x) →
  ∃ st2 st3 st4, ELdelete st x = Ok st2 ∧ PQdelete bd st2 y = Ok st3 ∧ ELdelete st3 y = Ok st4
  ∧ inv bd n met st4 (m1 ++ m2) (line (m1 ++ m2)) ∧ (∀ c, waiting st4 (m1 ++ c :: m2)) ∧ only_queue st st4.
Proof.
  intros I W. destruct (delete_inv met st m1 x (y :: m2) _ I) as (hs2 & -> & I2 & L2). eexists.
  assert (Hy : y ∈ m1 ++ y :: m2) by (rewrite elem_of_app, elem_of_cons; tauto).
  destruct (PQdelete_inv bd n Hsq met _ _ _ y I2 Hy (on_line _ _ Hy)) as (st3 & E3 & I3 & U3 & L3 & N3 & Q3). exists st3.
  destruct (delete_inv met st3 m1 y m2 _ I3) as (hs4 & E4 & I4 & L4). eexists. split; [done|]. split; [exact E3|]. split; [exact E4|].
  split; [|split; [|exact U3]].
  - eapply less_events; [exact I4|]. intros z. rewrite line_perm. by right.
  - intros c z Hz. apply Q3 in Hz as [Hz Hzy]. destruct (W z Hz) as [Hz' Hzx]. by apply (removelast_two x z c y).
Qed.

(** A halfedge of a new edge, which starts at the vertex, takes their place. *)
Lemma rejoin_ok met st m1 m2 q a b r bot top pm v : inv bd n met st (m1 ++ m2) (line (m1 ++ m2)) → (∀ c, waiting st (m1 ++ c :: m2)) →
  ELleftend :: m1 = q ++ [a] → m2 ++ [ELrightend] = b :: r → site_ok n bot → site_ok n top → sitenbr bot ∈ met → sitenbr top ∈ met →
  0 ≤ sitenbr v < Z.of_nat (length (w_vertex st)) →
  ∃ st' c, ('(st, k) ← bisect st bot top;
            let '(st, bisector) := HEcreate st (ToEdge k) pm in
            st ← ELinsert st a bisector;
            st ← endpoint bd st (ToEdge k) (negb pm) v;
            p ← intersect st a bisector;
            st ← new_event bd st true a p bot;
            p ← intersect st bisector b;
            new_event bd st false bisector p bot) = Ok st'
  ∧ ready met st' (m1 ++ c :: m2) ∧ regs st' = regs st ++ [(bot, top)] ∧ w_vertex st' = w_vertex st.
Proof.
  intros I W Eq Er Ob Ot Mb Mt Hv. destruct (bisect_inv met met st _ _ bot top I) as (st2 & -> & I2 & S2 & L2 & G2 & V2); try done.
  rewrite bind_ok. cbn beta iota. set (k := length (edges st)) in *.
  change (HEcreate st2 (ToEdge k) pm) with (fst (HEcreate st2 (ToEdge k) pm), length (halfedges st2)). cbn beta iota.
  destruct (insert_ready met st2 m1 m2 q a k pm I2) as (st3 & -> & [I3 W3] & U3 & L3 & N3); [intros c; by apply (shape_waiting st)|done|lia|].
  rewrite bind_ok. set (c := length (halfedges st2)) in *. destruct U3 as (E3 & _ & _ & _ & V3).
  destruct (endpoint_inv met st3 _ _ k (negb pm) v I3) as (st4 & -> & I4 & S4 & G4 & L4 & V4); [rewrite E3; lia|by rewrite V3, V2|].
  rewrite bind_ok. assert (R4 : ready met st4 (m1 ++ c :: m2)) by (split; [done|by apply (shape_waiting st3)]).
  assert (N4 : c ∉ queued st4) by (destruct S4 as (_ & S4 & _); unfold queued in *; by rewrite S4).
  destruct (left_event met st4 m1 c m2 q a bot R4 Eq) as (p1 & st5 & -> & F5 & R5 & U5 & L5 & N5). rewrite bind_ok, F5, bind_ok.
  destruct (right_event met st5 m1 c m2 b r bot R5 Er (N5 N4)) as (p2 & st6 & -> & F6 & R6 & U6 & L6). rewrite bind_ok, F6.
  destruct U5 as (E5 & _ & _ & _ & V5), U6 as (E6 & _ & _ & _ & V6).
  exists st6, c. splits; [done|done| |congruence]. unfold regs in *. congruence.
Qed.

Lemma circle_event_ok met st mid x c : ready met st mid → PQhash st !! Z.to_nat (PQmin st) = Some (x :: c) →
  ∃ st' mid' e, circle_event bd st = Ok st' ∧ ready met st' mid' ∧ length mid = S (length mid') ∧ regs st' = regs st ++ [e]
  ∧ length (w_vertex st') = S (length (w_vertex st)).
Proof.
  intros R Hc. unfold circle_event. destruct (extract_ok met st mid x c R Hc) as (st1 & m1 & y & m2 & -> & -> & I1 & U1 & (hx & v & k & Hhx & Hv & Ek & Hk) & W1).
  rewrite bind_ok. cbn beta iota. pose proof (v_beach _ _ _ _ _ _ I1) as B1.
  destruct (line_split m1 (x :: y :: m2)) as (p & a & b' & r' & E1 & E2 & EL). injection E2 as <- E2.
  destruct (m2 ++ [ELrightend]) as [|b r] eqn:E3; [by destruct m2|]. subst r'.
  destruct (neighbors_ok st1 _ B1 _ _ _ _ EL) as [_ ->]. rewrite bind_ok.
  change (p ++ a :: x :: y :: b :: r) with (p ++ [a] ++ x :: y :: b :: r) in EL. rewrite app_assoc in EL.
  destruct (neighbors_ok st1 _ B1 _ _ _ _ EL) as [-> _]. rewrite bind_ok.
  change (x :: y :: b :: r) with ([x] ++ y :: b :: r) in EL. rewrite app_assoc in EL.
  destruct (neighbors_ok st1 _ B1 _ _ _ _ EL) as [-> _]. rewrite bind_ok.
  destruct (regs_ok met st1 _ _ x I1) as [(bot & -> & Ob & Mb) _]; [apply on_line; rewrite elem_of_app, elem_of_cons; tauto|]. rewrite bind_ok.
  assert (Hy : y ∈ m1 ++ x :: y :: m2) by (rewrite elem_of_app, !elem_of_cons; tauto).
  destruct (regs_ok met st1 _ _ y I1 (on_line _ _ Hy)) as [_ (top & -> & Ot & Mt)]. rewrite bind_ok.
  rewrite (he_at_ok _ _ _ Hhx), bind_ok, Hv. cbn [deref]. rewrite bind_ok.
  destruct (close_ok met st1 _ _ x y hx k v I1 Hhx Ek Hk Hy) as (st2 & v' & st3 & hy & st4 & -> & -> & Hhy & F4 & I4 & S4 & G4 & L4 & V4).
  rewrite bind_ok, Hhy, bind_ok, F4, bind_ok.
  destruct (two_leave_ok met st4 m1 x y m2 I4) as (st5 & st6 & st7 & -> & F6 & F7 & I7 & W7 & U7).
  { intros z Hz. apply W1. destruct S4 as (_ & S4 & _). unfold queued in *. by rewrite <- S4. }
  rewrite bind_ok, F6, bind_ok, F7, bind_ok.
  set (w := if SFgtb _ _ then _ else _). assert (Hw : ∃ s t pm, w = (s, t, pm) ∧ site_ok n s ∧ site_ok n t ∧ sitenbr s ∈ met ∧ sitenbr t ∈ met).
  { unfold w. destruct (SFgtb _ _); by eexists _, _, _. }
  destruct Hw as (s & t & pm & -> & Os & Ot' & Ms & Mt'). destruct U7 as (E7 & _ & _ & _ & V7), U1 as (F1 & _ & _ & _ & V1).
  destruct (rejoin_ok met st7 m1 m2 p a b r s t pm v' I7 W7 E1 E3) as (st8 & c' & -> & R8 & G8 & V8); try done; [by rewrite V7|].
  exists st8, (m1 ++ c' :: m2), (s, t). splits; [done|done|rewrite !length_app; cbn; lia| |rewrite V8, V7, L4, V1; done].
  unfold regs in *. congruence.
Qed.
End events.
