(* ===== verification/SweepSpec.v ===== *)
(** What a sweep computes: it ends, whatever the coordinates are, with a diagram in which all
    indices are in range, the numbers of sites, edges and vertices are those of a planar graph,
    the sets of edges agree with the lines, and every site can be reached from every other. *)

From S2P Require Import Prelude Bytes StdMap Float Serial Geometry Sweep BeachLine SweepParts SweepSafe.
Local Open Scope Z_scope.

Section loop.
Context (bd : bounds) (n : nat) (Hsq : 0 < sqrt_nsites bd).
Implicit Types st : sweep.

(** Two sites with an edge between them *)
Definition joined st (a b : Z) : Prop := ∃ e, e ∈ regs st ∧ (a = sitenbr (fst e) ∧ b = sitenbr (snd e) ∨ b = sitenbr (fst e) ∧ a = sitenbr (snd e)).

Lemma joined_sym st a b : joined st a b → joined st b a.
Proof. intros (e & He & C). exists e. tauto. Qed.

Lemma joined_more st st' l a b : regs st' = regs st ++ l → joined st a b → joined st' a b.
Proof. intros E (e & He & C). exists e. split; [|done]. rewrite E. apply elem_of_app. by left. Qed.

(** The sites met so far, with the one the sweep starts from *)
Record good (met : list Z) st (mid : list nat) : Prop := mk_good {
  g_ready : ready bd n met st mid;
  g_line : (length mid + length (w_vertex st) + 2 = 2 * length met)%nat;
  g_edges : (length (edges st) + 1 = length met + length (w_vertex st))%nat;
  g_conn : ∀ s, s ∈ met → rtc (joined st) (sitenbr (bottomsite bd)) s }.

Lemma regs_length st st' e : regs st' = regs st ++ [e] → length (edges st') = S (length (edges st)).
Proof. intros E. apply (f_equal length) in E. unfold regs in E. rewrite length_app, !length_fmap in E. cbn in E. lia. Qed.

Lemma conn_more st st' l a b : regs st' = regs st ++ l → rtc (joined st) a b → rtc (joined st') a b.
Proof. intros E H. induction H as [|x y z J _ IH]; [done|]. eapply rtc_l; [by eapply joined_more|done]. Qed.

Lemma site_good met st mid s : good met st mid → site_ok n s →
  ∃ st' mid', site_event bd st s = Ok st' ∧ good (sitenbr s :: met) st' mid' ∧ length mid' = S (S (length mid)).
Proof.
  intros [R L E C] Hs. destruct (site_event_ok bd n Hsq met st mid s R Hs) as (st' & mid' & bot & Ev & R' & L' & Mb & G & V).
  exists st', mid'. split; [done|]. split; [|done]. pose proof (regs_length _ _ _ G). split; [done|rewrite V; cbn [length]; lia|rewrite V; cbn [length]; lia|].
  intros x [->|Hx]%elem_of_cons; [|by eapply conn_more; [|apply C]].
  eapply rtc_r; [eapply conn_more; [exact G|by apply C]|]. exists (bot, s). split; [|by left]. rewrite G. apply elem_of_app. right. by left.
Qed.

Lemma circle_good met st mid x c : good met st mid → PQhash st !! Z.to_nat (PQmin st) = Some (x :: c) →
  ∃ st' mid', circle_event bd st = Ok st' ∧ good met st' mid' ∧ length mid = S (length mid').
Proof.
  intros [R L E C] Hc. destruct (circle_event_ok bd n Hsq met st mid x c R Hc) as (st' & mid' & e & Ev & R' & L' & G & V).
  exists st', mid'. split; [done|]. split; [|done]. pose proof (regs_length _ _ _ G). split; [done|lia|lia|].
  intros s Hs. eapply conn_more; [exact G|by apply C].
Qed.

(** The look at the queue *)
Lemma peek_good met st mid : good met st mid → PQempty st = false →
  ∃ st' q x c, PQ_min bd st = Ok (st', q) ∧ good met st' mid ∧ PQempty st' = false ∧ PQhash st' !! Z.to_nat (PQmin st') = Some (x :: c).
Proof.
  intros [[I W] L E C] He. destruct (PQ_min_ok bd st (v_queue _ _ _ _ _ _ I) He) as (m & q & x & c & -> & Q & Hc).
  eexists _, q, x, c. split; [done|]. split; [|done]. split; [|exact L|exact E|exact C].
  split; [|exact W]. destruct I as [? ? ? ? ? ? ?]. split; try done. by apply (out_same n st).
Qed.

Lemma sweep_loop_ok fuel : ∀ met st mid rest, good met st mid → Forall (site_ok n) rest → (3 * length rest + length mid < fuel)%nat →
  ∃ st' met' mid', sweep_loop bd fuel st rest = Ok st' ∧ good met' st' mid' ∧ met' ≡ₚ (sitenbr <$> rest) ++ met.
Proof.
  induction fuel as [|fuel IH]; intros met st mid rest G Hr Hf; [lia|]. cbn [sweep_loop].
  assert (Site : ∀ st s rest', good met st mid → rest = s :: rest' → ∃ st' met' mid',
    (st ← site_event bd st s; sweep_loop bd fuel st rest') = Ok st' ∧ good met' st' mid' ∧ met' ≡ₚ (sitenbr <$> rest) ++ met).
  { intros st1 s rest' G1 ->. apply Forall_cons in Hr as [Hs Hr]. destruct (site_good met st1 mid s G1 Hs) as (st2 & mid2 & -> & G2 & L2).
    rewrite bind_ok. destruct (IH _ st2 mid2 rest' G2 Hr) as (st' & met' & mid' & -> & G' & P); [cbn [length] in Hf; lia|].
    exists st', met', mid'. split; [done|]. split; [done|]. rewrite P, fmap_cons, <- Permutation_middle. done. }
  assert (Circle : ∀ st x c, good met st mid → PQhash st !! Z.to_nat (PQmin st) = Some (x :: c) → ∃ st' met' mid',
    (st ← circle_event bd st; sweep_loop bd fuel st rest) = Ok st' ∧ good met' st' mid' ∧ met' ≡ₚ (sitenbr <$> rest) ++ met).
  { intros st1 x c G1 Hc. destruct (circle_good met st1 mid x c G1 Hc) as (st2 & mid2 & -> & G2 & L2).
    rewrite bind_ok. apply (IH met st2 mid2 rest G2 Hr). lia. }
  destruct (PQempty st) eqn:He.
  - rewrite bind_ok. cbn beta iota. destruct rest as [|s rest']; [rewrite He; by exists st, met, mid|]. cbn [site_first]. by apply Site.
  - destruct (peek_good met st mid G He) as (st1 & q & x & c & -> & G1 & He1 & Hc). rewrite !bind_ok. cbn beta iota.
    destruct rest as [|s rest']; [rewrite He1; by apply (Circle st1 x c)|]. destruct (site_first s (Some q)); [by apply Site|by apply (Circle st1 x c)].
Qed.

(** The edges that go to infinity are put out. *)
Lemma out_rest_ok fuel mid : ∀ st l1 x l2, beach (halfedges st) (length (edges st)) mid → out_ok n st →
  line mid = l1 ++ x :: l2 → l1 ≠ [] → (length l2 < fuel)%nat →
  ∃ st', out_rest bd fuel st x = Ok st' ∧ out_ok n st' ∧ same_graph st st' ∧ w_vertex st' = w_vertex st.
Proof.
  induction fuel as [|fuel IH]; intros st l1 x l2 B O E H1 Hf; [lia|]. cbn [out_rest].
  destruct (Nat.eqb_spec x ELrightend) as [->|Hx]; [by exists st|].
  assert (H2 : l2 ≠ []).
  { intros ->. apply Hx. unfold line in E. rewrite app_comm_cons in E. by apply app_inj_tail in E as [_ <-]. }
  destruct (mid_edge st mid B x) as (h & k & e & Hh & Ek & He); [by eapply inner|].
  rewrite (he_at_ok _ _ _ Hh), bind_ok, Ek. destruct (out_ep_ok bd n st k e O He) as (ls & -> & O1 & G1). rewrite bind_ok.
  set (st1 := with_out st _ _ _) in *. destruct l2 as [|y l2]; [done|].
  destruct (neighbors_ok st1 mid B l1 x y l2 E) as [-> _]. rewrite bind_ok.
  destruct (IH st1 (l1 ++ [x]) y l2 B O1) as (st' & -> & O' & G' & V'); [by rewrite <- app_assoc|by destruct l1|cbn in Hf; lia|].
  exists st'. splits; try done. by eapply same_graph_trans.
Qed.
End loop.

(** *** The sweep of a list of sites *)

Section start.
Context (bd : bounds) (n : nat) (Hsq : 0 < sqrt_nsites bd) (Hbot : site_ok n (bottomsite bd)).

Lemma start_hash : hash_ok bd (halfedges (sweep_start bd n)) (ELhash (sweep_start bd n)).
Proof.
  unfold sweep_start. cbn [halfedges ELhash]. assert (L : ELhashsize bd = 2 * sqrt_nsites bd) by done.
  split.
  - rewrite !length_insert, repeat_length. lia.
  - rewrite list_lookup_insert_ne by lia. apply list_lookup_insert_eq. rewrite repeat_length. lia.
  - apply list_lookup_insert_eq. rewrite length_insert, repeat_length. lia.
  - intros b x Hx. apply list_lookup_insert_Some in Hx as [(_ & [= <-] & _)|(_ & Hx)]; [unfold ELrightend; cbn; lia|].
    apply list_lookup_insert_Some in Hx as [(_ & [= <-] & _)|(_ & Hx)]; [unfold ELleftend; cbn; lia|].
    apply list_elem_of_lookup_2, list_elem_of_In, repeat_spec in Hx. done.
Qed.

Lemma start_queue : queue bd (sweep_start bd n) ∧ queued (sweep_start bd n) = [].
Proof.
  assert (E : queued (sweep_start bd n) = []).
  { unfold queued, sweep_start. cbn [PQhash]. induction (Z.to_nat (PQhashsize bd)); [done|by cbn]. }
  split; [|exact E]. unfold queued in E. split.
  - cbn [PQhash sweep_start]. rewrite repeat_length. unfold PQhashsize. lia.
  - rewrite E. constructor.
  - intros b c x Hb Hx. assert (Hq : x ∈ concat (PQhash (sweep_start bd n))) by (apply in_concat_at; by exists b, c).
    rewrite E in Hq. by apply elem_of_nil in Hq.
  - rewrite E. done.
  - done.
  - intros b c _ Hlt. cbn in Hlt. lia.
Qed.

Lemma start_beach : beach (halfedges (sweep_start bd n)) 0 [].
Proof.
  split; try done.
  - repeat constructor; [by intros ?%list_elem_of_singleton|by intros ?%elem_of_nil].
  - by intros x ?%elem_of_nil.
  - intros [|[|x]] Hx; [left; by left|left; right; by left|cbn in Hx; lia].
Qed.

Lemma start_out : out_ok n (sweep_start bd n).
Proof.
  split; try done.
  - cbn. apply repeat_length.
  - intros i es k Hi. apply list_elem_of_lookup_2, list_elem_of_In, repeat_spec in Hi. subst es.
    split; [by intros ?%elem_of_nil|]. by intros (j & l & _ & Hl & _).
Qed.

Lemma start_good : good bd n [sitenbr (bottomsite bd)] (sweep_start bd n) [].
Proof.
  destruct start_queue as [Q E]. split; try done.
  - split; [|intros x Hx; rewrite E in Hx; by apply elem_of_nil in Hx]. split.
    + exact start_beach.
    + exact start_hash.
    + exact Q.
    + exact start_out.
    + intros k e He. done.
    + split; [done|by left].
    + intros x h v Hx Hh Hv. unfold line in Hx. cbn [app] in Hx. rewrite !elem_of_cons, elem_of_nil in Hx.
      destruct Hx as [->|[->|[]]]; injection Hh as <-; done.
  - intros s ->%list_elem_of_singleton. done.
Qed.

(** The sites that an edge joins, in the output *)
Definition beside (ls : list line2d) (a b : Z) : Prop := ∃ l, l ∈ ls ∧ (bisecting l = (a, b) ∨ bisecting l = (b, a)).

Lemma joined_beside st st' a b : out_ok n st → same_graph st st' → joined st a b → beside (w_lines st') a b.
Proof.
  intros O (_ & G & _) (e & He & C). apply list_elem_of_fmap in He as (x & -> & Hx). apply list_elem_of_lookup in Hx as [k Hk].
  destruct (lookup_lt_is_Some_2 (w_lines st) k) as [l Hl]; [rewrite (o_lines _ _ O); by apply lookup_lt_Some in Hk|].
  pose proof (o_bis _ _ O k l x Hl Hk) as Eb.
  assert (V : bisecting <$> w_lines st' !! k = Some (bisecting l)) by (by rewrite <- list_lookup_fmap, G, list_lookup_fmap, Hl).
  destruct (w_lines st' !! k) as [l'|] eqn:Hl'; [|done]. injection V as V. exists l'. split; [by apply list_elem_of_lookup_2 in Hl'|].
  rewrite V, Eb. destruct C as [[-> ->]|[-> ->]]; auto.
Qed.

Lemma Voronoi_sweep_ok rest : Forall (site_ok n) rest →
  ∃ st, Voronoi_sweep bd n rest = Ok st ∧ out_ok n st
  ∧ (length (w_lines st) + 1 = S (length rest) + length (w_vertex st))%nat ∧ (length (w_vertex st) ≤ 2 * length rest)%nat
  ∧ ∀ s, s ∈ sitenbr <$> rest → rtc (beside (w_lines st)) (sitenbr (bottomsite bd)) s.
Proof.
  intros Hr. unfold Voronoi_sweep.
  destruct (sweep_loop_ok bd n Hsq (3 * length rest + 1) _ _ _ rest start_good Hr) as (st & met & mid & -> & [[I W] L E C] & P); [cbn [length]; lia|].
  rewrite bind_ok. pose proof (v_beach _ _ _ _ _ _ I) as B. destruct (line_split [] mid) as (p & a & b & q & E1 & E2 & EL).
  apply (app_inj_tail [] p) in E1 as [<- <-]. cbn [app] in EL.
  destruct (neighbors_ok st mid B [] ELleftend b q EL) as [-> _]. rewrite bind_ok.
  destruct (out_rest_ok bd n (length (halfedges st)) mid st [ELleftend] b q B (v_out _ _ _ _ _ _ I) EL) as (st' & -> & O' & G' & V'); [done| |].
  { assert (Hlen : (length (line mid) ≤ length (halfedges st))%nat).
    { rewrite <- (length_seq (length (halfedges st)) 0). apply submseteq_length, NoDup_submseteq; [apply B|].
      intros y Hy. apply list_elem_of_In, in_seq. split; [lia|]. by apply (in_range st mid B). }
    rewrite EL in Hlen. cbn [length] in Hlen. lia. }
  assert (Lm : length met = S (length rest)) by (rewrite P, length_app, length_fmap; cbn; lia).
  exists st'. split; [done|]. split; [done|]. pose proof (o_lines _ _ (v_out _ _ _ _ _ _ I)) as Ll. destruct (graph_lengths _ _ G') as [_ Ll'].
  rewrite V', Ll', Ll. splits; [lia|lia|]. intros s Hs. assert (Hm : s ∈ met) by (rewrite P, elem_of_app; by left).
  specialize (C s Hm). eapply rtc_congruence with (f := λ x : Z, x); [|exact C]. intros x y J. eapply joined_beside; [apply I|exact G'|exact J].
Qed.
End start.

(** *** A diagram *)

Lemma site_numbers pts : sitenbr <$> sites_of pts = Z.of_nat <$> seq 0 (length pts).
Proof. unfold sites_of. apply fmap_zip_with_r; [done|]. by rewrite length_fmap, length_seq. Qed.

Section diagram.
Context (qsort : (Site → Site → comparison) → list Site → list Site) (Hq : ∀ c l, qsort c l ≡ₚ l).

#[local] Instance beside_sym ls : Symmetric (beside ls).
Proof. intros a b (l & Hl & C). exists l. tauto. Qed.

Lemma lines_sites n st k l : out_ok n st → w_lines st !! k = Some l →
  (0 ≤ fst (bisecting l) < Z.of_nat n) ∧ (0 ≤ snd (bisecting l) < Z.of_nat n).
Proof.
  intros O Hk. destruct (lookup_lt_is_Some_2 (edges st) k) as [e He]; [rewrite <- (o_lines _ _ O); by apply lookup_lt_Some in Hk|].
  rewrite (o_bis _ _ O k l e Hk He). apply (o_edge _ _ O k e He).
Qed.

Lemma calsfv_ok pts : pts ≠ [] →
  ∃ st, calsfv qsort pts = Ok (w_sites st, w_lines st, w_vertex st) ∧ out_ok (length pts) st
  ∧ (length (w_lines st) + 1 = length pts + length (w_vertex st))%nat ∧ (length (w_vertex st) + 2 ≤ 2 * length pts)%nat
  ∧ ∀ i j, 0 ≤ i < Z.of_nat (length pts) → 0 ≤ j < Z.of_nat (length pts) → rtc (beside (w_lines st)) i j.
Proof.
  intros Hne. unfold calsfv. pose proof (Hq scomp (sites_of pts)) as P. remember (qsort scomp (sites_of pts)) as ss eqn:Es.
  assert (PN : sitenbr <$> ss ≡ₚ Z.of_nat <$> seq 0 (length pts)) by (by rewrite P, site_numbers).
  assert (Hok : Forall (site_ok (length pts)) ss).
  { apply Forall_forall. intros s Hs. assert (Hn : sitenbr s ∈ sitenbr <$> ss) by (apply list_elem_of_fmap; by exists s).
    rewrite PN in Hn. apply list_elem_of_fmap in Hn as (k & E & Hk). apply list_elem_of_In, in_seq in Hk. unfold site_ok. lia. }
  assert (Hlen : length ss = length pts) by (apply Permutation_length in PN; by rewrite !length_fmap, length_seq in PN).
  destruct ss as [|bottom rest]; [by destruct pts|]. cbn [length] in Hlen.
  assert (∃ p0, head pts = Some p0) as [p0 Hp]; [destruct pts as [|p0 ps]; [done|by exists p0]|].
  set (bd := bounds_of pts (px p0) (sy bottom) (sy (default bottom (last rest))) bottom).
  replace (match pts with [] => _ | _ :: _ => _ end) with (st ← Voronoi_sweep bd (length pts) rest; Ok (w_sites st, w_lines st, w_vertex st));
    [|unfold bd; destruct pts as [|p ps]; [done|injection Hp as ->; by rewrite <- Es]].
  assert (Hsq : 0 < sqrt_nsites bd). { unfold bd, bounds_of. cbv zeta. cbn [sqrt_nsites]. apply Z.sqrt_pos. lia. }
  apply Forall_cons in Hok as [Hb Hr].
  destruct (Voronoi_sweep_ok bd (length pts) Hsq Hb rest Hr) as (st & -> & O & L & V & C). rewrite bind_ok. exists st.
  split; [done|]. split; [done|]. split; [lia|]. split; [lia|].
  assert (C' : ∀ i, 0 ≤ i < Z.of_nat (length pts) → rtc (beside (w_lines st)) (sitenbr bottom) i).
  { intros i Hi. assert (Hin : i ∈ sitenbr <$> (bottom :: rest)).
    { rewrite PN. apply list_elem_of_fmap. exists (Z.to_nat i). split; [lia|]. apply list_elem_of_In, in_seq. lia. }
    rewrite fmap_cons in Hin. apply elem_of_cons in Hin as [->|Hin]; [done|by apply C]. }
  intros i j Hi Hj. transitivity (sitenbr bottom); [|by apply C']. symmetry. by apply C'.
Qed.

(** C6: A sweep ends with a whole diagram, for every list of points, whatever their coordinates
    are - equal, on a line, infinite or not a number - if only [qsort] permutes. There is a set
    of edges for each point, and as many lines as points and vertices together, less one; of
    [n] points there are at most [2 n - 2] vertices. The sides of each line are two points, its
    ends are vertices or open, and a line is in the set of a point exactly if that is one of
    its sides. *)
Theorem sweep_whole pts : pts ≠ [] →
  ∃ es ls vs, calsfv qsort pts = Ok (es, ls, vs) ∧ length es = length pts
  ∧ (length ls + 1 = length pts + length vs)%nat ∧ (length vs + 2 ≤ 2 * length pts)%nat
  ∧ (∀ l, l ∈ ls → (0 ≤ fst (bisecting l) < Z.of_nat (length pts)) ∧ (0 ≤ snd (bisecting l) < Z.of_nat (length pts))
      ∧ Forall (λ i, i = -1 ∨ 0 ≤ i < Z.of_nat (length vs)) [fst (vertexIndex l); snd (vertexIndex l)])
  ∧ ∀ i e k, es !! i = Some e → (k ∈ e ↔ ∃ j l, k = Z.of_nat j ∧ ls !! j = Some l ∧ sides l (Z.of_nat i)).
Proof.
  intros Hne. destruct (calsfv_ok pts Hne) as (st & E & O & L & V & _). exists (w_sites st), (w_lines st), (w_vertex st).
  split; [done|]. split; [apply O|]. split; [done|]. split; [done|]. split; [|apply O].
  intros l Hl. apply list_elem_of_lookup in Hl as [k Hk]. destruct (o_ends _ _ O k l Hk) as [V1 V2].
  destruct (lines_sites _ st k l O Hk) as [S1 S2]. split; [done|]. split; [done|]. constructor; [exact V1|by apply Forall_singleton].
Qed.
End diagram.
