(* ===== verification/Relay.v ===== *)
(** The relay of a node: VAST/VASTRelay.cpp and common/VASTRelay.h. It finds the relays of
    the overlay, joins the closest one, accepts clients if it is a relay itself, and forwards
    messages from subscriptions to the hosts of its clients.

    Pointers: [_curr_relay] and [_contact_relay] point to [_self] or into [_relays]
    ([relay_ptr]); [_dist2relay] holds pointers into [_relays], represented by their keys
    (the id of an element is its key). Reading through a pointer to an erased element fails.
    A [multimap] ordered by distance requires a strict weak order: inserting a NaN is
    undefined ([BadOrder]). The estimate of [vivaldi ()] is overwritten at once by the code,
    so that it is left out; so are logging and [_ping_all_count], which is never used.
    [rand ()] is the list of values it returns during a call of [randomSet]. *)

From S2P Require Import Prelude Bytes StdMap Float Serial Geometry Subscription Message VastBuffer.
From S2P Require Import NetManager NetInterface VastNet MessageQueue Handlers.
From Stdlib Require Import Floats.SpecFloat.
Local Open Scope Z_scope.

Inductive relay_ptr := RSelf | RRelay (id : Z).

#[export] Instance relay_ptr_eq_dec : EqDecision relay_ptr.
Proof. solve_decision. Defined.

Record VASTRelay := mkRelay {
  r_self : Node;
  curr_relay : option relay_ptr;
  contact_relay : option relay_ptr;
  temp_coord : Position;
  r_error : Z;                                 (* the bits of a float *)
  as_relay : bool;
  r_state : NodeState;
  timeout_ping : Z;
  timeout_query : Z;
  r_timeout_join : Z;
  request_times : Z;
  relays : list (Z * Node);
  dist2relay : list (spec_float * Z);
  clients : list (Z * Node);
  sub2client : list (Z * Z);
  relay_limit : Z;
  client_limit : Z;
  pending_pings : list (Z * Z);                (* _pending *)
  r_queue : list (Z * Message);                (* _queue: multimap *)
  queue_time : list (Z * Z) }.

Definition RELAY_DEFAULT_ERROR : Z := 0x3F800000.
Definition RELAY_TOLERANCE : Z := 0x3F000000.
Definition MAX_CONCURRENT_PING : Z := 5.
Definition MAX_RELAY_QUERIES : Z := 5.

(** common/timeouts.h, [ms] being [g_MS_PER_TIMESTEP] *)
Definition KEEPALIVE_RELAY (ms : Z) : Z := Z.quot (500 * ms) 1000.
Definition TIMEOUT_RELAY_QUERY (ms : Z) : Z := Z.quot (500 * ms) 1000.
Definition TIMEOUT_RELAY_JOIN (ms : Z) : Z := Z.quot (500 * ms) 1000.

Definition with_center (n : Node) (p : Position) : Node :=
  mkNode (node_id n) (node_time n) (mkArea p (radius (node_aoi n)) (height (node_aoi n))) (node_addr n).

(** The constructor; [random] is the randomised coordinate. *)
Definition VASTRelay_new (as_relay : bool) (client_limit relay_limit : Z)
    (phys_coord : option Position) (random : Position) : VASTRelay :=
  mkRelay (match phys_coord with Some p => with_center Node_init p | None => Node_init end)
    None None (default random phys_coord) RELAY_DEFAULT_ERROR as_relay ABSENT 0 0 0 0
    [] [] [] [] relay_limit client_limit [] [] [].

(** *** Writing members *)

Definition set_self r n := mkRelay n (curr_relay r) (contact_relay r) (temp_coord r) (r_error r)
  (as_relay r) (r_state r) (timeout_ping r) (timeout_query r) (r_timeout_join r) (request_times r)
  (relays r) (dist2relay r) (clients r) (sub2client r) (relay_limit r) (client_limit r)
  (pending_pings r) (r_queue r) (queue_time r).
Definition set_ptrs r cu co := mkRelay (r_self r) cu co (temp_coord r) (r_error r)
  (as_relay r) (r_state r) (timeout_ping r) (timeout_query r) (r_timeout_join r) (request_times r)
  (relays r) (dist2relay r) (clients r) (sub2client r) (relay_limit r) (client_limit r)
  (pending_pings r) (r_queue r) (queue_time r).
Definition set_estimate r t e := mkRelay (r_self r) (curr_relay r) (contact_relay r) t e
  (as_relay r) (r_state r) (timeout_ping r) (timeout_query r) (r_timeout_join r) (request_times r)
  (relays r) (dist2relay r) (clients r) (sub2client r) (relay_limit r) (client_limit r)
  (pending_pings r) (r_queue r) (queue_time r).
Definition set_state r s := mkRelay (r_self r) (curr_relay r) (contact_relay r) (temp_coord r) (r_error r)
  (as_relay r) s (timeout_ping r) (timeout_query r) (r_timeout_join r) (request_times r)
  (relays r) (dist2relay r) (clients r) (sub2client r) (relay_limit r) (client_limit r)
  (pending_pings r) (r_queue r) (queue_time r).
Definition set_timeouts r p q j := mkRelay (r_self r) (curr_relay r) (contact_relay r) (temp_coord r)
  (r_error r) (as_relay r) (r_state r) p q j (request_times r)
  (relays r) (dist2relay r) (clients r) (sub2client r) (relay_limit r) (client_limit r)
  (pending_pings r) (r_queue r) (queue_time r).
Definition set_requests r n := mkRelay (r_self r) (curr_relay r) (contact_relay r) (temp_coord r)
  (r_error r) (as_relay r) (r_state r) (timeout_ping r) (timeout_query r) (r_timeout_join r) n
  (relays r) (dist2relay r) (clients r) (sub2client r) (relay_limit r) (client_limit r)
  (pending_pings r) (r_queue r) (queue_time r).
Definition set_relays r l d := mkRelay (r_self r) (curr_relay r) (contact_relay r) (temp_coord r)
  (r_error r) (as_relay r) (r_state r) (timeout_ping r) (timeout_query r) (r_timeout_join r)
  (request_times r) l d (clients r) (sub2client r) (relay_limit r) (client_limit r)
  (pending_pings r) (r_queue r) (queue_time r).
Definition set_clients r c s := mkRelay (r_self r) (curr_relay r) (contact_relay r) (temp_coord r)
  (r_error r) (as_relay r) (r_state r) (timeout_ping r) (timeout_query r) (r_timeout_join r)
  (request_times r) (relays r) (dist2relay r) c s (relay_limit r) (client_limit r)
  (pending_pings r) (r_queue r) (queue_time r).
Definition set_pending r p := mkRelay (r_self r) (curr_relay r) (contact_relay r) (temp_coord r)
  (r_error r) (as_relay r) (r_state r) (timeout_ping r) (timeout_query r) (r_timeout_join r)
  (request_times r) (relays r) (dist2relay r) (clients r) (sub2client r) (relay_limit r)
  (client_limit r) p (r_queue r) (queue_time r).
Definition set_queue r q t := mkRelay (r_self r) (curr_relay r) (contact_relay r) (temp_coord r)
  (r_error r) (as_relay r) (r_state r) (timeout_ping r) (timeout_query r) (r_timeout_join r)
  (request_times r) (relays r) (dist2relay r) (clients r) (sub2client r) (relay_limit r)
  (client_limit r) (pending_pings r) q t.

(** *** Relays by distance *)

(** [_dist2relay.insert (value_type (dist, pointer))]: behind the entries that are not
    farther *)
Fixpoint dist_insert (k : spec_float) (id : Z) (m : list (spec_float * Z)) : list (spec_float * Z) :=
  match m with
  | [] => [(k, id)]
  | (k', id') :: m => if SFltb k k' then (k, id) :: (k', id') :: m
                      else (k', id') :: dist_insert k id m
  end.

(** Erasing the first entry of a relay; [None] if it has none *)
Fixpoint dist_erase (id : Z) (m : list (spec_float * Z)) : option (list (spec_float * Z)) :=
  match m with
  | [] => None
  | (k, id') :: m => if id' =? id then Some m
                     else match dist_erase id m with Some m => Some ((k, id') :: m) | None => None end
  end.

Definition deref (r : VASTRelay) (p : relay_ptr) : outcome Node :=
  match p with
  | RSelf => Ok (r_self r)
  | RRelay id => match find id (relays r) with Some n => Ok n | None => Fail OutOfBounds end
  end.

(** Whether [getPhysicalCoordinate ()] is not [NULL] *)
Definition has_coordinate (r : VASTRelay) : bool :=
  Position_eqb (center (node_aoi (r_self r))) (temp_coord r).

Definition R_isJoined (r : VASTRelay) : bool :=
  has_coordinate r && negb (bool_decide (curr_relay r = None)) && bool_decide (r_state r = JOINED).

Definition getRelayID (r : VASTRelay) : outcome Z :=
  match curr_relay r with
  | None => Ok NET_ID_UNASSIGNED
  | Some p => n ← deref r p; Ok (node_id n)
  end.

(** [closestRelay (pos)]: the loop over [_dist2relay], with the closest so far *)
Fixpoint closest_loop (r : VASTRelay) (pos : Position) (l : list (spec_float * Z))
    (best : relay_ptr * Node) (min_dist : spec_float) : outcome (relay_ptr * Node) :=
  match l with
  | [] => Ok best
  | (_, id) :: l =>
      n ← deref r (RRelay id);
      let dist := distance (center (node_aoi n)) pos in
      if SFltb dist min_dist
         || (SFltb (f64_sub (f64_of_f32 dist) (f64_of_f32 min_dist)) EQUAL_DISTANCE
             && (node_id n <? node_id (snd best)))
      then closest_loop r pos l (RRelay id, n) dist
      else closest_loop r pos l best min_dist
  end.

Definition closestRelay (r : VASTRelay) (pos : Position) : outcome (relay_ptr * Node) :=
  closest_loop r pos (dist2relay r) (RSelf, r_self r) (distance (center (node_aoi (r_self r))) pos).

(** [nextRelay ()]: the state and the contact relay, [None] for [NULL] *)
Definition after_contact (r : VASTRelay) (id : Z) : list (spec_float * Z) :=
  match list_find (λ p, snd p = id) (dist2relay r) with
  | Some (i, _) => drop (S i) (dist2relay r)
  | None => []
  end.

Definition nextRelay (r : VASTRelay) : outcome (VASTRelay * option Node) :=
  match contact_relay r with
  | None =>
      if (length (relays r) =? 0)%nat then Ok (r, None) else
      '(_, id) ← at_idx (dist2relay r) 0;
      n ← deref r (RRelay id);
      Ok (set_ptrs r (curr_relay r) (Some (RRelay id)), Some n)
  | Some p =>
      c ← deref r p;
      '(_, id) ← match after_contact r (node_id c) with
                 | x :: _ => Ok x
                 | [] => at_idx (dist2relay r) 0
                 end;
      n ← deref r (RRelay id);
      Ok (set_ptrs r (curr_relay r) (Some (RRelay id)), Some n)
  end.

Definition ptr_id (r : VASTRelay) (p : option relay_ptr) : outcome (option Z) :=
  match p with None => Ok None | Some p => n ← deref r p; Ok (Some (node_id n)) end.

(** [removeRelay (id)] *)
Definition removeRelay (r : VASTRelay) (id : Z) : outcome VASTRelay :=
  if negb (has id (relays r)) then Ok r else
  cu ← ptr_id r (curr_relay r);
  let r := if bool_decide (cu = Some id)
           then set_state (set_timeouts (set_ptrs r None None) (timeout_ping r) 0 (r_timeout_join r)) QUERYING
           else r in
  co ← ptr_id r (contact_relay r);
  let r := if bool_decide (co = Some id) then set_ptrs r (curr_relay r) None else r in
  let r := match dist_erase id (dist2relay r) with
           | Some d => set_relays r (erase id (relays r)) d
           | None => r
           end in
  let r := set_pending r (erase id (pending_pings r)) in
  Ok (if (length (relays r) =? 0)%nat
      then set_timeouts r 0 (timeout_query r) (r_timeout_join r) else r).

Fixpoint removeRelays (r : VASTRelay) (ids : list Z) : outcome VASTRelay :=
  match ids with
  | [] => Ok r
  | id :: ids => r ← removeRelay r id; removeRelays r ids
  end.

(** [cleanupRelays ()] *)
Definition cleanupRelays (r : VASTRelay) : outcome VASTRelay :=
  if relay_limit r =? 0 then Ok r else
  match curr_relay r with
  | None => Ok r
  | Some p =>
      if bool_decide (r_state r = JOINED) && (relay_limit r <? Z.of_nat (length (dist2relay r))) then
        c ← deref r p;
        let num := Z.to_nat (Z.of_nat (length (dist2relay r)) - relay_limit r) in
        let others := filter (λ id, id ≠ node_id c) (snd <$> reverse (dist2relay r)) in
        if (length others <? num)%nat then Fail OutOfBounds
        else removeRelays r (take num others)
      else Ok r
  end.

(** *** Choosing at random *)

(** The loop of [randomSet]: [rs] is what [rand ()] returns. *)
Fixpoint random_loop (rs : list nat) (selected size : nat) (set : list bool) : outcome (list bool) :=
  if (size <=? selected)%nat then Ok set else
  match rs with
  | [] => Fail Diverges
  | x :: rs =>
      let index := (x mod length set)%nat in
      if default true (set !! index) then random_loop rs selected size set
      else random_loop rs (S selected) size (<[index := true]> set)
  end.

(** [randomSet (size, total, random_set)], for [size <= total] *)
Definition randomSet (rs : list nat) (size total : nat) : outcome (list bool) :=
  random_loop rs 0 size (replicate total false).

(** The elements chosen *)
Definition chosen {A} (set : list bool) (l : list A) : list A :=
  omap (λ p : bool * A, if fst p then Some (snd p) else None) (zip set l).

(** *** Clients *)

Definition keep_clients (id : Z) (m : list (Z * Z)) : list (Z * Z) := filter (λ p, snd p ≠ id) m.

(** [removeClient (id)] *)
Definition removeClient (r : VASTRelay) (id : Z) : VASTRelay :=
  set_clients r (erase id (clients r)) (keep_clients id (sub2client r)).

(** What the client reads of the relay; pointers are valid ([relay_inv]). *)
Definition view_relay (r : VASTRelay) : relay_view :=
  mkRelayView (R_isJoined r)
    (match getRelayID r with Ok id => id | Fail _ => NET_ID_UNASSIGNED end)
    (Z.of_nat (length (clients r))).

(** *** Operations that send *)

(** Local variables that the code leaves uninitialised when a message is too short *)
Record relay_uninit := mkRelayUninit {
  ru_time : Z; ru_error : Z; ru_size : Z; ru_bool : Z; ru_id : Z }.

Section relay.
Context {N : Type} `{NetManager N} (junk : relay_uninit) (rand : nat → list nat).
Implicit Types (q : mqueue N) (r : VASTRelay).

(** [isRelay ()] *)
Definition isRelay q r : bool := as_relay r && is_public (net q).

Definition relay_send (now : Z) q (msg : Message) := handler_sendMessage now q MSG_GROUP_VAST_RELAY msg.

(** [sendRelay (msg)] *)
Definition sendRelay (now : Z) q r (msg : Message) : outcome (mqueue N * VASTRelay * Message * Z) :=
  let num := Z.of_nat (length (targets msg)) in
  if 0 <? num then
    '(q, msg, failed, _) ← relay_send now q msg;
    r ← removeRelays r failed;
    Ok (q, r, msg, num - Z.of_nat (length failed))
  else Ok (q, r, msg, num).

(** [addRelay (relay)] *)
Definition addRelay (now : Z) q r (relay : Node) : outcome (mqueue N * VASTRelay) :=
  let id := node_id relay in
  if id =? NET_ID_UNASSIGNED then Ok (q, r) else
  let dist := distance (center (node_aoi relay)) (center (node_aoi (r_self r))) in
  let d := if has id (relays r) then default (dist2relay r) (dist_erase id (dist2relay r))
           else dist2relay r in
  let stored := mkNode id (timestamp now q) (node_aoi relay) (node_addr relay) in
  if is_nan dist then Fail BadOrder else
  Ok (notifyMapping q id (node_addr relay),
      set_relays r (set id stored (relays r)) (dist_insert dist id d)).

(** The loop of [ping] over the relays that were chosen *)
Fixpoint ping_targets r (now : Z) (l : list (Z * Node)) (msg : Message) : VASTRelay * Message :=
  match l with
  | [] => (r, msg)
  | (target, _) :: l =>
      if negb (node_id (r_self r) =? target) && negb (has target (pending_pings r))
      then ping_targets (set_pending r (set target now (pending_pings r))) now l (addTarget msg target)
      else ping_targets r now l msg
  end.

(** [ping (curr_relay_only)] *)
Definition ping (now : Z) q r (curr_relay_only : bool) : outcome (mqueue N * VASTRelay * bool) :=
  let t := timestamp now q in
  '(msg, _) ← store_int 8 (set_priority (new_msg PING) 1) t;
  '(r, msg) ←
    (if negb curr_relay_only then
       let total := length (relays r) in
       set ← randomSet (rand total) (Nat.min total (Z.to_nat MAX_CONCURRENT_PING)) total;
       Ok (ping_targets r t (chosen set (relays r)) msg)
     else Ok (r, msg));
  msg ← match curr_relay r with
        | Some p => if negb (isRelay q r) then n ← deref r p; Ok (addTarget msg (node_id n)) else Ok msg
        | None => Ok msg
        end;
  if (length (targets msg) =? 0)%nat then Ok (q, r, false) else
  '(q, r, _, num) ← sendRelay now q r msg;
  if num =? 0 then Ok (q, r, false)
  else Ok (q, if negb curr_relay_only then set_requests r (request_times r + 1) else r, true).

(** [pong (target, querytime, first)] *)
Definition pong (now : Z) q r (target querytime : Z) (first : bool) : outcome (mqueue N * VASTRelay) :=
  '(msg, _) ← store_int 8 (set_priority (new_msg PONG) 1) querytime;
  '(msg, _) ← store_obj msg (temp_coord r);
  '(msg, _) ← store_int 4 msg (r_error r);
  let msg := addTarget msg target in
  '(msg, r) ←
    (if first : bool then '(msg, _) ← store_int 8 msg (timestamp now q); Ok (msg, r)
     else Ok (set_type msg (code PONG_2), set_pending r (erase target (pending_pings r))));
  '(q, r, _, _) ← sendRelay now q r msg;
  Ok (q, r).

Fixpoint store_nodes (msg : Message) (l : list (Z * Node)) : outcome Message :=
  match l with
  | [] => Ok msg
  | (_, n) :: l => '(msg, _) ← store_obj msg n; store_nodes msg l
  end.

(** [sendRelayList (target, limit)] *)
Definition sendRelayList (now : Z) q r (target limit : Z) : outcome (mqueue N * Z) :=
  let total := length (relays r) in
  let n := u8 (Z.of_nat total) in
  if n =? 0 then Ok (q, 0) else
  let n := if negb (limit =? 0) && (limit <? n) then u8 limit else n in
  '(msg, _) ← store_int 1 (set_priority (new_msg RELAY) 1) n;
  set ← randomSet (rand total) (Z.to_nat n) total;
  msg ← store_nodes msg (chosen set (relays r));
  '(q, _, _, _) ← relay_send now q (addTarget msg target);
  Ok (q, n).

(** [notifyPhysicalCoordinate ()] *)
Definition notifyPhysicalCoordinate (now : Z) q r : outcome (mqueue N * VASTRelay * bool) :=
  if (length (relays r) =? 0)%nat then Ok (q, r, false) else
  '(msg, _) ← store_int 1 (set_priority (new_msg RELAY) 1) 1;
  '(msg, _) ← store_obj msg (r_self r);
  let l := if relay_limit r =? 0 then relays r else take (Z.to_nat (relay_limit r)) (relays r) in
  let msg := foldl addTarget msg (filter (λ id, id ≠ node_id (r_self r)) (fst <$> l)) in
  '(q, r, _, _) ← sendRelay now q r msg;
  Ok (q, r, true).

(** [setJoined (relay_id)] *)
Definition setJoined q r (relay_id : Z) : mqueue N * VASTRelay * bool :=
  if relay_id =? NET_ID_UNASSIGNED then
    (setDefaultHost q (node_id (r_self r)), set_state (set_ptrs r (Some RSelf) None) JOINED, true)
  else match find relay_id (relays r) with
       | None => (q, r, false)
       | Some n => (setDefaultHost q (node_id n),
                    set_state (set_ptrs r (Some (RRelay relay_id)) None) JOINED, true)
       end.

(** [joinRelay ()], with the default [relay] *)
Definition joinRelay (now ms : Z) q r : outcome (mqueue N * VASTRelay * bool) :=
  if (length (relays r) =? 0)%nat then Ok (q, r, false) else
  let as_relay := isRelay q r in
  '(r, relay) ← nextRelay r;
  match relay with
  | None => Fail OutOfBounds
  | Some relay =>
      '(msg, _) ← store_obj (set_priority (new_msg RELAY_JOIN) 1) (r_self r);
      '(msg, _) ← store msg (le_bytes 1 (if as_relay then 1 else 0)) false;
      '(q, r, _, num) ← sendRelay now q r (addTarget msg (node_id relay));
      let timeout :=
        if 0 <? num then
          if negb (R_isJoined r)
          then u64 (timestamp now q + Z.quot (TIMEOUT_RELAY_JOIN ms) 10 * per_second q)
          else u64 (timestamp now q + TIMEOUT_RELAY_JOIN ms * per_second q)
        else 0 in
      Ok (q, set_timeouts r (timeout_ping r) (timeout_query r) timeout, true)
  end.

(** [addClient (from_host, client)] *)
Definition addClient q r (client : Node) : mqueue N * VASTRelay :=
  (notifyMapping q (node_id client) (node_addr client),
   set_clients r (set (node_id client) client (clients r)) (sub2client r)).

(** One queued message of [forwardMessage] *)
Definition forward_one (now : Z) q (host : Z) (msg : Message) : outcome (mqueue N) :=
  if host =? NET_ID_UNASSIGNED then Ok q else
  '(q, _, _, _) ← relay_send now q (set_group (with_targets msg [host]) MSG_GROUP_VAST_CLIENT);
  Ok q.

Fixpoint forward_all (now : Z) q (host : Z) (l : list (Z * Message)) : outcome (mqueue N) :=
  match l with
  | [] => Ok q
  | (_, msg) :: l => q ← forward_one now q host msg; forward_all now q host l
  end.

(** [forwardMessage (sub_id, host_id)]; the number of messages processed is not used. *)
Definition forwardMessage (now : Z) q r (sub host : Z) : outcome (mqueue N * VASTRelay) :=
  let mine := filter (λ p, fst p = sub) (r_queue r) in
  q ← forward_all now q host mine;
  Ok (q, set_queue r (filter (λ p, fst p ≠ sub) (r_queue r))
           (match mine with [] => queue_time r | _ => erase sub (queue_time r) end)).

Fixpoint forwardMessages (now : Z) q r (subs : list Z) : outcome (mqueue N * VASTRelay) :=
  match subs with
  | [] => Ok (q, r)
  | s :: subs => '(q, r) ← forwardMessage now q r s NET_ID_UNASSIGNED; forwardMessages now q r subs
  end.

(** *** Handling messages *)

Definition handle_ping (now : Z) q r (msg : Message) : outcome (mqueue N * VASTRelay * Message) :=
  '(msg, senttime, _) ← extract_int 8 msg (ru_time junk) false;
  '(q, r) ← pong now q r (from msg) senttime true;
  '(q, _) ← sendRelayList now q r (from msg) MAX_CONCURRENT_PING;
  Ok (q, r, msg).

(** [a < b] on [float]s *)
Definition float_lt (a b : Z) : bool := SFltb (f32_of_bits a) (f32_of_bits b).

(** What a [PONG] does with the coordinates: the estimate is overwritten. *)
Definition update_coordinate r (fr : Z) (xj : Position) : VASTRelay :=
  let r := set_estimate r (center (node_aoi (r_self r))) 0 in
  let r := match find fr (relays r) with
           | Some n => set_relays r (set fr (with_center n xj) (relays r)) (dist2relay r)
           | None => r
           end in
  if float_lt (r_error r) RELAY_TOLERANCE || (MAX_RELAY_QUERIES <? request_times r) then
    let r := if 0 <? request_times r then set_requests r 0 else r in
    set_self r (with_center (r_self r) (temp_coord r))
  else set_timeouts r 0 (timeout_query r) (r_timeout_join r).

(** [PONG] and [PONG_2] *)
Definition handle_pong (now : Z) q r (msg : Message) : outcome (mqueue N * VASTRelay * Message) :=
  '(msg, querytime, _) ← extract_int 8 msg (ru_time junk) false;
  '(msg, xj, _) ← extract_obj msg Position_clear false;
  '(msg, _, _) ← extract_int 4 msg (ru_error junk) false;
  if u64 (timestamp now q - querytime) =? 0 then
    r ← removeRelay r (from msg); Ok (q, r, msg)
  else
    let r := update_coordinate r (from msg) xj in
    if msgtype msg =? code PONG then
      '(msg, senttime, _) ← extract_int 8 msg (ru_time junk) false;
      '(q, r) ← pong now q r (from msg) senttime false;
      Ok (q, r, msg)
    else Ok (q, r, msg).

Fixpoint relay_loop (n : nat) (now : Z) q r (msg : Message) (relay : Node)
    : outcome (mqueue N * VASTRelay * Message) :=
  match n with
  | O => Ok (q, r, msg)
  | S n =>
      '(msg, relay, _) ← extract_obj msg relay false;
      '(q, r) ← addRelay now q r relay;
      relay_loop n now q r msg relay
  end.

(** [RELAY] *)
Definition handle_relay (now : Z) q r (msg : Message) : outcome (mqueue N * VASTRelay * Message) :=
  '(msg, n, _) ← extract_int 1 msg (ru_size junk) false;
  relay_loop (Z.to_nat n) now q r msg Node_init.

(** The loop of [RELAY_QUERY] *)
Fixpoint query_loop (fuel : nat) (now : Z) q r (msg : Message) (joiner : Node) (relay : Addr)
    : outcome (mqueue N * VASTRelay * Message) :=
  match fuel with
  | O => Fail Diverges
  | S fuel =>
      '(_, closest) ← closestRelay r (center (node_aoi joiner));
      if node_id closest =? node_id (r_self r) then
        '(m, _) ← store_obj (set_priority (new_msg RELAY_QUERY_R) 1) joiner;
        '(m, _) ← store_obj m closest;
        let m := addTarget m (host_id relay) in
        '(q, r, _, _) ← sendRelay now (notifyMapping q (host_id relay) relay) r m;
        Ok (q, r, msg)
      else
        '(q, r, msg, num) ← sendRelay now q r (with_targets msg [node_id closest]);
        if 0 <? num then Ok (q, r, msg) else query_loop fuel now q r msg joiner relay
  end.

(** [RELAY_QUERY]: every turn that goes on removes a relay. *)
Definition handle_relay_query (now : Z) q r (msg : Message) : outcome (mqueue N * VASTRelay * Message) :=
  '(msg, joiner, _) ← extract_obj msg Node_init false;
  '(msg, relay, _) ← extract_obj msg Addr_null false;
  query_loop (S (length (relays r))) now q r msg joiner relay.

(** [RELAY_QUERY_R] *)
Definition handle_relay_query_r (now ms : Z) q r (msg : Message)
    : outcome (mqueue N * VASTRelay * Message) :=
  '(msg, requester, _) ← extract_obj msg Node_init false;
  '(msg, relay, _) ← extract_obj msg Node_init false;
  if node_id requester =? node_id (r_self r) then
    '(q, r) ← addRelay now q r relay;
    '(q, r) ← (if isRelay q r then addRelay now q r (r_self r) else Ok (q, r));
    '(q, r, _) ← joinRelay now ms q r;
    Ok (q, r, msg)
  else if negb (R_isJoined r) then Ok (q, r, msg)
  else
    '(q, r, msg, _) ← sendRelay now q r (with_targets (reset msg) [node_id requester]);
    Ok (q, r, msg).

(** [RELAY_JOIN] *)
Definition handle_relay_join (now : Z) q r (msg : Message) : outcome (mqueue N * VASTRelay * Message) :=
  '(msg, joiner, _) ← extract_obj msg Node_init false;
  '(msg, is_relay, _) ← extract_int 1 msg (ru_bool junk) false;
  let join_reply :=
    (node_id joiner =? node_id (r_self r))
    || (as_relay r && (is_relay =? 0)
        && ((client_limit r =? 0) || (Z.of_nat (length (clients r)) <? client_limit r))) in
  let '(q, r) := if join_reply then addClient q r joiner else (q, r) in
  '(m, _) ← store (set_priority (new_msg RELAY_JOIN_R) 1) (le_bytes 1 (if join_reply then 1 else 0)) false;
  '(q, _, _, _) ← relay_send now q (addTarget m (node_id joiner));
  '(q, _) ← sendRelayList now q r (node_id joiner) MAX_CONCURRENT_PING;
  Ok (q, r, msg).

(** [RELAY_JOIN_R] *)
Definition handle_relay_join_r (now ms : Z) q r (msg : Message)
    : outcome (mqueue N * VASTRelay * Message) :=
  if bool_decide (r_state r = JOINED) then Ok (q, r, msg) else
  '(msg, success, _) ← extract_int 1 msg (ru_bool junk) false;
  if negb (isRelay q r) && (success =? 0) then
    '(q, r, _) ← joinRelay now ms q r; Ok (q, r, msg)
  else if isRelay q r then
    '(q, r, _) ← notifyPhysicalCoordinate now q r;
    let '(q, r, _) := setJoined q r NET_ID_UNASSIGNED in Ok (q, r, msg)
  else let '(q, r, _) := setJoined q r (from msg) in Ok (q, r, msg).

(** [SUBSCRIBE_NOTIFY] *)
Definition handle_subscribe_notify (now : Z) q r (msg : Message)
    : outcome (mqueue N * VASTRelay * Message) :=
  '(msg, sub, _) ← extract_int 8 msg (ru_id junk) false;
  '(msg, host, _) ← extract_int 8 msg (ru_id junk) false;
  let r := set_clients r (clients r) (set sub host (sub2client r)) in
  '(q, r) ← forwardMessage now q r sub host;
  Ok (q, r, msg).

(** The targets of a message to forward: the hosts of those that are known, the others *)
Definition known_host q r (target : Z) : option Z :=
  match find target (sub2client r) with
  | Some host => Some host
  | None => if target =? hostID q then Some target else None
  end.

Definition unknown_clients q r (ts : list Z) : list Z := filter (λ t, known_host q r t = None) ts.

(** The unknown clients' messages are kept for a while. *)
Fixpoint keep_unknown (until : Z) r (msg : Message) (ts : list Z) : outcome (VASTRelay * Message) :=
  match ts with
  | [] => Ok (r, msg)
  | t :: ts =>
      let msg := with_targets msg [t] in
      m ← Message_copy msg;
      keep_unknown until (set_queue r (minsert t m (r_queue r)) (set t until (queue_time r))) msg ts
  end.

(** All other messages are forwarded to clients. *)
Definition handle_forward (now ms app : Z) q r (msg : Message)
    : outcome (mqueue N * VASTRelay * Message * bool) :=
  let msg := if msgtype msg =? code MESSAGE then set_type msg (app_type app MESSAGE) else msg in
  let hosts := omap (known_host q r) (targets msg) in
  let unknown := unknown_clients q r (targets msg) in
  let msg := set_group msg MSG_GROUP_VAST_CLIENT in
  '(r, msg) ← keep_unknown (u64 (timestamp now q + KEEPALIVE_RELAY ms * per_second q)) r msg unknown;
  match hosts with
  | [] => Ok (q, r, msg, false)
  | _ => '(q, msg, _, _) ← relay_send now q (with_targets msg hosts); Ok (q, r, msg, true)
  end.

(** [handleMessage (in_msg)] *)
Definition R_handleMessage (now ms : Z) q r (msg : Message)
    : outcome (mqueue N * VASTRelay * Message * bool) :=
  let app := APP_MSGTYPE (msgtype msg) in
  let msg := set_type msg (VAST_MSGTYPE (msgtype msg)) in
  let handled (x : outcome (mqueue N * VASTRelay * Message)) :=
    '(q, r, msg) ← x; Ok (q, r, msg, true) in
  match of_code (msgtype msg) with
  | Some PING => handled (handle_ping now q r msg)
  | Some PONG | Some PONG_2 => handled (handle_pong now q r msg)
  | Some RELAY => handled (handle_relay now q r msg)
  | Some RELAY_QUERY => handled (handle_relay_query now q r msg)
  | Some RELAY_QUERY_R => handled (handle_relay_query_r now ms q r msg)
  | Some RELAY_JOIN => handled (handle_relay_join now q r msg)
  | Some RELAY_JOIN_R => handled (handle_relay_join_r now ms q r msg)
  | Some SUBSCRIBE_NOTIFY => handled (handle_subscribe_notify now q r msg)
  | Some _ => handle_forward now ms app q r msg
  | None =>
      if msgtype msg =? DISCONNECT then
        r ← (if has (from msg) (relays r) then removeRelay r (from msg)
             else Ok (removeClient r (from msg)));
        Ok (q, r, msg, true)
      else handle_forward now ms app q r msg
  end.

(** *** Periodic work *)

(** The network's entry points as relays; [relay] lives through the loop. *)
Fixpoint add_entries (now : Z) q r (relay : Node) (es : list IPaddr) : outcome (mqueue N * VASTRelay) :=
  match es with
  | [] => Ok (q, r)
  | e :: es =>
      let id := resolveHostID e in
      let relay := mkNode id (node_time relay) (node_aoi relay)
                     (mkAddr id (lastAccessed (node_addr relay)) e) in
      '(q, r) ← addRelay now q r relay;
      add_entries now q r relay es
  end.

(** The part of [postHandling] at [_timeout_ping] *)
Definition keepalive (now ms : Z) q r : outcome (mqueue N * VASTRelay) :=
  let t := timestamp now q in
  let r := set_timeouts r (u64 (t + KEEPALIVE_RELAY ms * per_second q)) (timeout_query r)
             (r_timeout_join r) in
  '(q, r) ← (if (length (relays r) =? 0)%nat
             then add_entries now q r Node_init (entries (net q)) else Ok (q, r));
  if (0 <? length (relays r))%nat then
    '(q, r, _) ← ping now q r (R_isJoined r);
    forwardMessages now q r (fst <$> filter (λ p, snd p < t) (queue_time r))
  else Ok (q, r).

(** The query for the closest relay *)
Definition query_relay (now ms : Z) q r : outcome (mqueue N * VASTRelay) :=
  let t := timestamp now q in
  let interval := u64 (TIMEOUT_RELAY_QUERY ms * per_second q) in
  let r := set_timeouts r (timeout_ping r)
             (u64 (t + if negb (R_isJoined r) then interval / 10 else interval)) (r_timeout_join r) in
  '(r, relay) ← nextRelay r;
  match relay with
  | None => Ok (q, set_timeouts r 0 (timeout_query r) (r_timeout_join r))
  | Some relay =>
      '(msg, _) ← store_obj (set_priority (new_msg RELAY_QUERY) 1) (r_self r);
      '(msg, _) ← store_obj msg (node_addr relay);
      '(q, r, _, num) ← sendRelay now q r (addTarget msg (node_id relay));
      Ok (q, if num =? 0 then set_timeouts r (timeout_ping r) 0 (r_timeout_join r) else r)
  end.

(** [postHandling ()] *)
Definition R_postHandling (now ms : Z) q r : outcome (mqueue N * VASTRelay) :=
  let t := timestamp now q in
  '(q, r) ← (if timeout_ping r <=? t then keepalive now ms q r else Ok (q, r));
  '(q, r) ←
    match r_state r with
    | ABSENT =>
        if (length (relays r) =? 0)%nat then
          let r := set_self r (with_center (r_self r) (temp_coord r)) in
          let '(q, r, _) := setJoined q r NET_ID_UNASSIGNED in Ok (q, r)
        else if has_coordinate r then Ok (q, set_state r QUERYING) else Ok (q, r)
    | QUERYING =>
        if negb (bool_decide (curr_relay r = None)) then Ok (q, set_state r JOINING)
        else if timeout_query r <=? t then query_relay now ms q r else Ok (q, r)
    | JOINING =>
        if r_timeout_join r <=? t then '(q, r, _) ← joinRelay now ms q r; Ok (q, r) else Ok (q, r)
    | _ => Ok (q, r)
    end;
  r ← cleanupRelays r;
  Ok (q, r).

(** [initHandler ()] *)
Definition R_initHandler q r : mqueue N * VASTRelay :=
  let self := mkNode (hostID q) (node_time (r_self r)) (node_aoi (r_self r)) (getAddress (manager (net q))) in
  (notifyMapping q (node_id self) (node_addr self), set_self r self).
End relay.
