(* ===== verification/RelaySafe.v ===== *)
(** The relay keeps its containers and pointers consistent: no operation reads through a
    dangling pointer, runs off a container or loops for ever, whatever [rand ()] returns
    (as long as it reaches every index). The only fault left is a relay at a position that
    is not a number, which has no place in the map ordered by distance. *)

From S2P Require Import Prelude Bytes StdMap Float Serial Geometry Subscription Message VastBuffer.
From S2P Require Import NetManager NetInterface VastNet VastSend MessageQueue Routing QueueSafe.
From S2P Require Import Readable Handlers Relay.
From Stdlib Require Import Floats.SpecFloat.
Local Open Scope Z_scope.

(** *** The invariant *)

Definition ptr_ok (l : list (Z * Node)) (p : option relay_ptr) : Prop :=
  match p with Some (RRelay id) => has id l = true | _ => True end.

(** The clients other than the node itself *)
Definition other_clients (r : VASTRelay) : list Z :=
  filter (λ id, id ≠ node_id (r_self r)) (fst <$> clients r).

(** [_curr_relay] may point to [_self], [_contact_relay] never does. *)
Record relay_inv (r : VASTRelay) : Prop := mk_relay_inv {
  ri_relays : ordered (relays r);
  ri_ids : Forall (λ p, node_id (snd p) = fst p) (relays r);
  ri_dist : (snd <$> dist2relay r) ≡ₚ (fst <$> relays r);
  ri_curr : ptr_ok (relays r) (curr_relay r);
  ri_contact : ptr_ok (relays r) (contact_relay r) ∧ contact_relay r ≠ Some RSelf;
  ri_limit : 0 ≤ relay_limit r;
  ri_clients : ordered (clients r);
  ri_bound : client_limit r ≠ 0 → Z.of_nat (length (other_clients r)) ≤ client_limit r;
  ri_queue : Forall (λ p, Message_inv (snd p)) (r_queue r) }.

(** Operations that leave the relays and the pointers alone *)
Lemma relay_inv_same r r' : relay_inv r → relays r' = relays r → dist2relay r' = dist2relay r →
  curr_relay r' = curr_relay r → contact_relay r' = contact_relay r →
  relay_limit r' = relay_limit r → r_queue r' = r_queue r →
  clients r' = clients r → client_limit r' = client_limit r →
  node_id (r_self r') = node_id (r_self r) → relay_inv r'.
Proof.
  intros [] E1 E2 E3 E4 E5 E6 E7 E8 E9. unfold other_clients in *.
  split; unfold other_clients; by rewrite ?E1, ?E2, ?E3, ?E4, ?E5, ?E6, ?E7, ?E8, ?E9.
Qed.

Lemma new_relay_inv b cl rl p rnd : 0 ≤ rl → 0 ≤ cl → relay_inv (VASTRelay_new b cl rl p rnd).
Proof. split; cbn; try done; constructor. Qed.

(** *** The map ordered by distance *)

Lemma dist_insert_keys k id m : snd <$> dist_insert k id m ≡ₚ id :: (snd <$> m).
Proof.
  induction m as [|[k' i] m IH]; cbn [dist_insert]; [done|]. destruct (SFltb k k'); [done|].
  rewrite !fmap_cons, IH. cbn [snd]. constructor.
Qed.

Lemma dist_erase_some id m : id ∈ (snd <$> m) →
  ∃ d, dist_erase id m = Some d ∧ snd <$> m ≡ₚ id :: (snd <$> d).
Proof.
  induction m as [|[k i] m IH]; [by intros ?%elem_of_nil|]. rewrite fmap_cons, elem_of_cons.
  cbn [dist_erase snd]. destruct (Z.eqb_spec i id) as [->|Hne]; [eauto|].
  intros [?|Hin]; [done|]. destruct (IH Hin) as (d & -> & E). eexists. split; [reflexivity|].
  rewrite fmap_cons, E. cbn [snd]. constructor.
Qed.

(** *** Removing and adding relays *)

Lemma relay_node r id : relay_inv r → has id (relays r) = true →
  ∃ n, deref r (RRelay id) = Ok n ∧ node_id n = id.
Proof.
  intros I Hh. destruct (has_find _ _ Hh) as [n E]. exists n. unfold deref. rewrite E. split; [done|].
  by apply find_In, (proj1 (Forall_forall _ _) (ri_ids _ I)) in E.
Qed.

Lemma deref_ok r p : ptr_ok (relays r) (Some p) → ∃ n, deref r p = Ok n.
Proof.
  destruct p as [|id]; [by exists (r_self r)|]. intros Hh.
  destruct (has_find _ _ Hh) as [n E]. exists n. unfold deref. by rewrite E.
Qed.

Lemma ptr_id_ok r p : ptr_ok (relays r) p → relay_inv r →
  ∃ o, ptr_id r p = Ok o ∧ ∀ id, p = Some (RRelay id) → o = Some id.
Proof.
  intros Hp I. destruct p as [[|id]|]; cbn [ptr_id].
  - cbn [deref]. rewrite bind_ok. by eexists.
  - destruct (relay_node r id I Hp) as (n & -> & E). rewrite bind_ok, E. eexists. split; [done|]. congruence.
  - by exists None.
Qed.

Lemma in_dist r id : relay_inv r → has id (relays r) = true ↔ id ∈ (snd <$> dist2relay r).
Proof. intros I. by rewrite has_keys, (ri_dist _ I). Qed.

(** Pointers survive the removal of another relay. *)
Lemma ptr_erase l p id : ptr_ok l p → p ≠ Some (RRelay id) → ptr_ok (erase id l) p.
Proof. destruct p as [[|i]|]; cbn; [done| |done]. intros ? Hne. rewrite has_erase by congruence. done. Qed.

Lemma removeRelay_ok r id : relay_inv r → ∃ r', removeRelay r id = Ok r' ∧ relay_inv r'
  ∧ relays r' = erase id (relays r).
Proof.
  intros I. unfold removeRelay. destruct (has id (relays r)) eqn:Eh; cbn [negb].
  2: { exists r. split; [done|]. split; [done|]. rewrite erase_absent; [done|].
       unfold has in Eh. by destruct (find id (relays r)). }
  destruct (ptr_id_ok r (curr_relay r) (ri_curr _ I) I) as (cu & -> & Hcu). rewrite bind_ok. cbv zeta.
  set (r1 := if bool_decide _ then _ else r).
  assert (I1 : relay_inv r1 ∧ relays r1 = relays r ∧ dist2relay r1 = dist2relay r
    ∧ curr_relay r1 ≠ Some (RRelay id)).
  { unfold r1. case_bool_decide as Ec; [|splits; [done..|naive_solver]]. destruct I. by splits. }
  destruct I1 as (I1 & ER & ED & Hc). clearbody r1.
  destruct (ptr_id_ok r1 (contact_relay r1) (proj1 (ri_contact _ I1)) I1) as (co & -> & Hco). rewrite bind_ok.
  set (r2 := if bool_decide _ then _ else r1).
  assert (I2 : relay_inv r2 ∧ relays r2 = relays r ∧ dist2relay r2 = dist2relay r
    ∧ curr_relay r2 ≠ Some (RRelay id) ∧ contact_relay r2 ≠ Some (RRelay id)).
  { unfold r2. case_bool_decide as Ec; [destruct I1; by splits|splits; [done..|naive_solver]]. }
  destruct I2 as ([O F D Cu [Co Cn] L CO CB Q] & ER2 & ED2 & Hc2 & Hco2). clearbody r2.
  destruct (dist_erase_some id (dist2relay r2)) as (d & -> & Ed).
  { rewrite D, <- has_keys. by rewrite ER2. }
  eexists. split; [reflexivity|]. rewrite <- ER2. set (r3 := set_pending _ _).
  assert (I3 : relay_inv r3).
  { split; cbn.
    - by apply ordered_erase.
    - by apply Forall_erase.
    - rewrite Ed, (keys_erase id) in D by by rewrite ER2. by apply Permutation.Permutation_cons_inv in D.
    - by apply ptr_erase.
    - split; [by apply ptr_erase|done].
    - done.
    - done.
    - done.
    - done. }
  destruct (_ =? 0)%nat; [|done]. split; [by apply (relay_inv_same r3)|done].
Qed.

(** Relays were only removed. *)
Definition fewer (l' l : list (Z * Node)) : Prop :=
  (length l' ≤ length l)%nat ∧ ∀ id, has id l' = true → has id l = true.

Lemma fewer_step l1 l2 l3 : fewer l2 l1 → fewer l3 l2 → fewer l3 l1.
Proof. intros [L1 H1] [L2 H2]. split; [lia|auto]. Qed.

Lemma erase_fewer i l : fewer (erase i l) l.
Proof.
  split; [apply length_erase_le|]. intros id. destruct (Z.eq_dec id i) as [->|Hne]; [|by rewrite has_erase].
  destruct (has i l) eqn:E; [done|]. rewrite erase_absent; [congruence|].
  unfold has in E. by destruct (find i l).
Qed.

Lemma removeRelays_ok r ids : relay_inv r → ∃ r', removeRelays r ids = Ok r' ∧ relay_inv r'
  ∧ fewer (relays r') (relays r)
  ∧ ∀ id, id ∈ ids → has id (relays r) = true → (length (relays r') < length (relays r))%nat.
Proof.
  revert r. induction ids as [|i ids IH]; intros r I; cbn [removeRelays].
  { exists r. splits; [done|done|by split|]. by intros ? ?%elem_of_nil. }
  destruct (removeRelay_ok r i I) as (r1 & -> & I1 & E1). rewrite bind_ok.
  destruct (IH r1 I1) as (r' & -> & I' & L & S). rewrite E1 in L, S.
  pose proof (erase_fewer i (relays r)) as Le. exists r'. splits; [done|done|by eapply fewer_step|].
  destruct L as [L _], Le as [Le _].
  intros id [->|Hin]%elem_of_cons Hh.
  - destruct (has_find _ _ Hh) as [n En]. rewrite (length_erase _ _ _ En). lia.
  - destruct (Z.eq_dec id i) as [->|Hne].
    + destruct (has_find _ _ Hh) as [n En]. rewrite (length_erase _ _ _ En). lia.
    + specialize (S id Hin). rewrite has_erase in S by done. specialize (S Hh). lia.
Qed.

Lemma ptr_set l p id n : ptr_ok l p → ptr_ok (set id n l) p.
Proof. destruct p as [[|i]|]; cbn; [done| |done]. rewrite has_set. intros ->. by rewrite orb_true_r. Qed.

(** A known relay is stored again. *)
Lemma restore_inv r id n : relay_inv r → has id (relays r) = true → node_id n = id →
  relay_inv (set_relays r (set id n (relays r)) (dist2relay r)).
Proof.
  intros [O F D Cu [Co Cn] L CO CB Q] Hh Hn. split; cbn; try done.
  - by apply ordered_set.
  - by apply Forall_set.
  - by rewrite keys_set_old.
  - by apply ptr_set.
  - split; [by apply ptr_set|done].
Qed.

(** *** Choosing at random *)

(** What is asked of [rand ()]: while [randomSet] runs, every index comes up. *)
Definition rich (rand : nat → list nat) : Prop :=
  ∀ total i, (i < total)%nat → ∃ x, x ∈ rand total ∧ (x mod total = i)%nat.

(** The number of elements chosen *)
Fixpoint count_true (l : list bool) : nat :=
  match l with [] => 0%nat | true :: l => S (count_true l) | false :: l => count_true l end.

Lemma count_true_le l : (count_true l ≤ length l)%nat.
Proof. induction l as [|[] l IH]; cbn; lia. Qed.

Lemma count_true_insert l i : l !! i = Some false → count_true (<[i:=true]> l) = S (count_true l).
Proof.
  revert i. induction l as [|b l IH]; intros [|i]; cbn; [done|done|by intros [= ->]|].
  intros E. rewrite IH by done. by destruct b.
Qed.

Lemma count_true_all l : (∀ i, (i < length l)%nat → l !! i = Some true) → count_true l = length l.
Proof.
  induction l as [|b l IH]; intros Ha; [done|].
  pose proof (Ha 0%nat) as H0. cbn in H0. injection H0 as ->; [|lia].
  cbn. f_equal. apply IH. intros i Hi. apply (Ha (S i)). cbn. lia.
Qed.

Lemma count_true_none n : count_true (replicate n false) = 0%nat.
Proof. by induction n. Qed.

(** The loop ends, with [size] elements, if what [rand ()] returns covers what is left. *)
Lemma random_loop_ok rs selected size l : (size ≤ length l)%nat → count_true l = selected →
  (∀ i, (i < length l)%nat → l !! i = Some true ∨ ∃ x, x ∈ rs ∧ (x mod length l = i)%nat) →
  (selected ≤ size)%nat →
  ∃ l', random_loop rs selected size l = Ok l' ∧ length l' = length l ∧ count_true l' = size.
Proof.
  revert selected l. induction rs as [|x rs IH]; intros selected l Hs Hc Hr Hle; cbn [random_loop];
    destruct (Nat.leb_spec size selected) as [Hd|Hd]; try (exists l; splits; [done|done|lia]).
  - rewrite count_true_all in Hc; [lia|]. intros i Hi.
    destruct (Hr i Hi) as [?|(y & ?%elem_of_nil & _)]; done.
  - assert (Hm : (x mod length l < length l)%nat) by (apply Nat.mod_upper_bound; lia).
    destruct (lookup_lt_is_Some_2 l _ Hm) as [b Eb]. cbv zeta. rewrite Eb. cbn [default].
    destruct b; cbn [default].
    + apply IH; try done. intros i Hi. destruct (Hr i Hi) as [?|(y & [->|Hy]%elem_of_cons & <-)]; eauto.
    + destruct (IH (S selected) (<[(x mod length l)%nat:=true]> l)) as (l' & E & L & C).
      * by rewrite length_insert.
      * by rewrite count_true_insert, Hc.
      * rewrite length_insert. intros i Hi. destruct (decide (x mod length l = i)%nat) as [<-|Hne].
        { left. by rewrite list_lookup_insert_eq. }
        rewrite list_lookup_insert_ne by done. destruct (Hr i Hi) as [?|(y & [->|Hy]%elem_of_cons & <-)]; eauto; done.
      * lia.
      * exists l'. by rewrite length_insert in L.
Qed.

Lemma randomSet_ok rand size total : rich rand → (size ≤ total)%nat →
  ∃ l, randomSet (rand total) size total = Ok l ∧ length l = total ∧ count_true l = size.
Proof.
  intros Hr Hs. destruct (random_loop_ok (rand total) 0 size (replicate total false)) as (l & E & L & C).
  - by rewrite length_replicate.
  - apply count_true_none.
  - rewrite length_replicate. intros i Hi. right. by apply Hr.
  - lia.
  - exists l. by rewrite length_replicate in L.
Qed.

Lemma chosen_length {A} l (k : list A) : length l = length k → length (chosen l k) = count_true l.
Proof.
  revert k. induction l as [|b l IH]; intros [|x k]; cbn; try done. intros [= E].
  unfold chosen in *. cbn. destruct b; cbn; by rewrite IH.
Qed.

(** *** Searching *)

Lemma closest_loop_ok r pos l best d : relay_inv r → incl (snd <$> l) (snd <$> dist2relay r) →
  (fst best = RSelf ∧ snd best = r_self r ∨ has (node_id (snd best)) (relays r) = true) →
  ∃ p n, closest_loop r pos l best d = Ok (p, n)
  ∧ (n = r_self r ∨ has (node_id n) (relays r) = true).
Proof.
  intros I. revert best d. induction l as [|[k id] l IH]; intros [p n] d Hl Hb; cbn [closest_loop].
  { exists p, n. split; [done|]. by destruct Hb as [[_ ?]|?]; [left|right]. }
  assert (Hid : has id (relays r) = true).
  { apply in_dist; [done|]. apply list_elem_of_In, Hl. by left. }
  assert (Hl' : incl (snd <$> l) (snd <$> dist2relay r)) by (intros x Hx; apply Hl; by right).
  destruct (relay_node r id I Hid) as (n' & -> & En). rewrite bind_ok. cbv zeta.
  destruct (_ || _); apply IH; try done. right. by rewrite <- En in Hid.
Qed.

Lemma closestRelay_ok r pos : relay_inv r → ∃ p n, closestRelay r pos = Ok (p, n)
  ∧ (n = r_self r ∨ has (node_id n) (relays r) = true).
Proof. intros I. apply closest_loop_ok; [done|by intros x|by left]. Qed.

Lemma nextRelay_ok r : relay_inv r → ∃ r' o, nextRelay r = Ok (r', o) ∧ relay_inv r'
  ∧ relays r' = relays r ∧ (relays r ≠ [] → o ≠ None).
Proof.
  intros I. pose proof (Permutation.Permutation_length (ri_dist _ I)) as L. rewrite !length_fmap in L.
  assert (Next : ∀ x : spec_float * Z, x ∈ dist2relay r → ∃ n, deref r (RRelay (snd x)) = Ok n
    ∧ relay_inv (set_ptrs r (curr_relay r) (Some (RRelay (snd x))))).
  { intros x Hx. assert (Hh : has (snd x) (relays r) = true) by by apply in_dist, list_elem_of_fmap_2.
    destruct (relay_node r _ I Hh) as (n & E & _). exists n. split; [done|]. by destruct I. }
  unfold nextRelay. destruct (contact_relay r) as [p|] eqn:Ec.
  - destruct (ri_contact _ I) as [Hp Hs]. rewrite Ec in Hp, Hs. destruct p as [|cid]; [done|].
    destruct (relay_node r cid I Hp) as (c & -> & _). rewrite bind_ok.
    assert (Hx : ∃ x, match after_contact r (node_id c) with x :: _ => Ok x | [] => at_idx (dist2relay r) 0 end = Ok x
      ∧ x ∈ dist2relay r).
    { destruct (after_contact r (node_id c)) as [|x l] eqn:Ea.
      - destruct (dist2relay r) as [|x d]; [|exists x; split; [done|by left]].
        destruct (relays r); [done|done].
      - exists x. split; [done|]. unfold after_contact in Ea. destruct (list_find _ _) as [[i y]|]; [|done].
        assert (Hin : x ∈ drop (S i) (dist2relay r)) by (rewrite Ea; by left).
        by apply subseteq_drop in Hin. }
    destruct Hx as ([k id] & -> & Hin). rewrite bind_ok. cbn beta iota.
    destruct (Next _ Hin) as (n & E & I'). cbn [snd] in E, I'. rewrite E, bind_ok. eexists _, _. by split.
  - destruct (relays r) as [|y l] eqn:Er; cbn [length]; [by exists r, None|].
    cbn [Nat.eqb]. destruct (dist2relay r) as [|[k id] d] eqn:Ed; [done|].
    rewrite (at_idx_ok ((k, id) :: d) 0 (k, id)), bind_ok by done. cbn beta iota.
    destruct (Next (k, id)) as (n & E & I'); [by left|]. cbn [snd] in E, I'. rewrite E, bind_ok. eexists _, _. by split.
Qed.

(** *** Dropping the farthest relays *)

Lemma filter_one_less (x : Z) l : NoDup l → (length l ≤ S (length (filter (λ y, y ≠ x) l)))%nat.
Proof.
  induction 1 as [|y l Hy _ IH]; [cbn; lia|]. rewrite filter_cons. destruct (decide (y ≠ x)) as [|Hx]; cbn [length]; [lia|].
  assert (y = x) as -> by (by destruct (Z.eq_dec y x)).
  rewrite filter_every; [lia|]. apply Forall_forall. intros z Hz ->. done.
Qed.

Lemma cleanupRelays_ok r : relay_inv r → ∃ r', cleanupRelays r = Ok r' ∧ relay_inv r'.
Proof.
  intros I. unfold cleanupRelays. destruct (Z.eqb_spec (relay_limit r) 0) as [E|E]; [by exists r|].
  pose proof (ri_limit _ I). destruct (curr_relay r) as [p|] eqn:Ec; [|by exists r].
  destruct (bool_decide _ && (relay_limit r <? _)) eqn:Et; [|by exists r].
  apply andb_true_iff in Et as [_ Et%Z.ltb_lt].
  pose proof (ri_curr _ I) as Hp. rewrite Ec in Hp. destruct (deref_ok r p Hp) as [c ->]. rewrite bind_ok. cbv zeta.
  set (others := filter _ _). set (num := Z.to_nat _).
  assert (Hn : (num ≤ length others)%nat).
  { unfold num, others. pose proof (filter_one_less (node_id c) (snd <$> reverse (dist2relay r))) as F.
    rewrite length_fmap, length_reverse in F. assert (N : NoDup (snd <$> reverse (dist2relay r))).
    { rewrite (fmap_Permutation snd _ _ (reverse_Permutation (dist2relay r))), (ri_dist _ I).
      by apply ordered_nodup, (ri_relays _ I). }
    specialize (F N). lia. }
  destruct (Nat.ltb_spec (length others) num); [lia|].
  destruct (removeRelays_ok r (take num others) I) as (r' & -> & I' & _). by exists r'.
Qed.
