(* ===== verification/RelayHandle.v ===== *)
(** The relay is a safe handler: every message it receives and its periodic work end in a
    consistent state, or with [BadOrder]. *)

From S2P Require Import Prelude Bytes StdMap Float Serial Geometry Subscription Message VastBuffer.
From S2P Require Import NetManager NetInterface VastNet VastSend MessageQueue Routing QueueSafe.
From S2P Require Import Readable Handlers Relay RelaySafe.
From Stdlib Require Import Floats.SpecFloat.
Local Open Scope Z_scope.

(** The fault that is left *)
Definition bad_order (f : fault) : Prop := f = BadOrder.

Section relay.
Context {N : Type} `{NetManagerLaws N} (junk : relay_uninit) (rand : nat → list nat).
Hypothesis Hrich : rich rand.
Implicit Types (q : mqueue N) (r : VASTRelay).

Definition good q r : Prop := net_inv (net q) ∧ relay_inv r.

Lemma new_msg_inv c p : Message_inv (set_priority (new_msg c) p).
Proof. apply Message_new_inv. Qed.
Hint Resolve new_msg_inv : core.

(** *** Sending *)

Lemma relay_send_ok now q msg : net_inv (net q) → Message_inv msg →
  ∃ q' msg' failed k, relay_send now q msg = Ok (q', msg', failed, k)
  ∧ net_inv (net q') ∧ Message_inv msg' ∧ incl failed (targets msg).
Proof.
  intros I Hm. destruct (QueueSafe.handler_send_safe now q MSG_GROUP_VAST_RELAY msg I Hm)
    as (q' & m' & f & k & E & Q & (M & _) & F).
  exists q', m', f, k. splits; [exact E|apply Q|done|done].
Qed.

Lemma sendRelay_ok now q r msg : good q r → Message_inv msg →
  ∃ q' r' msg' k, sendRelay now q r msg = Ok (q', r', msg', k) ∧ good q' r' ∧ Message_inv msg'
  ∧ fewer (relays r') (relays r)
  ∧ ∀ id, targets msg = [id] → has id (relays r) = true → k ≤ 0 →
      (length (relays r') < length (relays r))%nat.
Proof.
  intros [In Ir] Hm. unfold sendRelay. cbv zeta. destruct (Z.ltb_spec 0 (Z.of_nat (length (targets msg)))) as [Hl|Hl].
  - destruct (relay_send_ok now q msg In Hm) as (q' & m' & failed & k & -> & I' & M' & F). rewrite bind_ok. cbn beta iota.
    destruct (removeRelays_ok r failed Ir) as (r' & -> & Ir' & L & S). rewrite bind_ok.
    eexists q', r', m', _. split; [reflexivity|]. splits; [done|done|done|].
    intros id Et Hh Hk. rewrite Et in Hk. cbn [length] in Hk. destruct failed as [|x failed]; [cbn in Hk; lia|].
    apply (S id); [|done]. assert (Hx : List.In x (targets msg)) by (apply F; by left).
    rewrite Et in Hx. destruct Hx as [->|[]]. by left.
  - exists q, r, msg, (Z.of_nat (length (targets msg))). splits; [done|done|done|by split|].
    intros id Et. rewrite Et in Hl. cbn in Hl. lia.
Qed.

Lemma addRelay_safe now q r n : good q r → outcome_sat bad_order (uncurry good) (addRelay now q r n).
Proof.
  intros [In Ir]. unfold addRelay. cbv zeta. destruct (_ =? _); [done|].
  destruct (is_nan _); [done|]. cbn [outcome_sat uncurry]. split; [by apply notify_inv|].
  set (id := node_id n). set (dist := distance _ _). clearbody dist.
  pose proof Ir as [O F D Cu [Co Cn] L CO CB Q]. split; cbn.
  - by apply ordered_set.
  - by apply Forall_set.
  - rewrite dist_insert_keys. destruct (has id (relays r)) eqn:Eh.
    + rewrite (keys_set_old id) by done. rewrite (keys_erase id) by done.
      destruct (dist_erase_some id (dist2relay r)) as (d & -> & Ed); [by apply in_dist|]. cbn [default].
      constructor. rewrite Ed, (keys_erase id) in D by done. by apply Permutation.Permutation_cons_inv in D.
    + rewrite keys_set_new by done. by constructor.
  - by apply ptr_set.
  - split; [by apply ptr_set|done].
  - done.
  - done.
  - done.
  - done.
Qed.

(** *** Coordinates *)

Lemma ping_targets_inv r t l msg : relay_inv r → Message_inv msg →
  relay_inv (fst (ping_targets r t l msg)) ∧ Message_inv (snd (ping_targets r t l msg)).
Proof.
  revert r msg. induction l as [|[id n] l IH]; intros r msg I M; cbn [ping_targets]; [done|].
  destruct (_ && _); apply IH; try done; [by apply (relay_inv_same r)|by apply addTarget_inv].
Qed.

Lemma ping_ok now q r b : good q r → ∃ q' r' ok, ping rand now q r b = Ok (q', r', ok) ∧ good q' r'.
Proof.
  intros [In Ir]. unfold ping. cbv zeta. step_store W.
  match goal with |- context [mbind _ (if negb b then ?x else ?y)] =>
    assert (Hx : ∃ r1 m1, (if negb b then x else y) = Ok (r1, m1) ∧ relay_inv r1 ∧ Message_inv m1) end.
  { destruct (negb b); [|by eauto].
    destruct (randomSet_ok rand (Nat.min (length (relays r)) (Z.to_nat MAX_CONCURRENT_PING)) (length (relays r)) Hrich)
      as (l & -> & _); [lia|]. rewrite bind_ok.
    match goal with |- context [ping_targets ?a ?t ?c ?m] =>
      pose proof (ping_targets_inv a t c m Ir W) as P; destruct (ping_targets a t c m) as [r1 m1] end.
    by exists r1, m1. }
  destruct Hx as (r1 & m1 & -> & I1 & M1). rewrite bind_ok. cbn beta iota.
  match goal with |- context [mbind _ (match curr_relay r1 with Some _ => _ | None => _ end)] =>
    assert (Hx : ∃ m2, match curr_relay r1 with Some p => if negb (isRelay q r1) then n ← deref r1 p; Ok (addTarget m1 (node_id n)) else Ok m1 | None => Ok m1 end = Ok m2 ∧ Message_inv m2) end.
  { destruct (curr_relay r1) as [p|] eqn:Ec; [|by eauto]. destruct (negb _); [|by eauto].
    pose proof (ri_curr _ I1) as Hp. rewrite Ec in Hp. destruct (deref_ok r1 p Hp) as [n ->].
    rewrite bind_ok. eexists. split; [reflexivity|by apply addTarget_inv]. }
  destruct Hx as (m2 & -> & M2). rewrite bind_ok.
  destruct (_ =? 0)%nat; [by eexists _, _, _|].
  destruct (sendRelay_ok now q r1 m2) as (q' & r' & m' & k & -> & [G1 G2] & _); [done|done|].
  rewrite bind_ok. cbn beta iota. destruct (k =? 0); [by eexists _, _, _|].
  eexists _, _, _. split; [reflexivity|]. split; [done|]. destruct (negb b); [by apply (relay_inv_same r')|done].
Qed.

Lemma pong_ok now q r t qt first : good q r → ∃ q' r', pong now q r t qt first = Ok (q', r') ∧ good q' r'.
Proof.
  intros [In Ir]. unfold pong. step_store W. step_store W1. step_store W2. cbv zeta.
  match goal with |- context [mbind _ (if first then ?x else ?y)] =>
    assert (Hx : ∃ r1 m1, (if first then x else y) = Ok (m1, r1) ∧ relay_inv r1 ∧ Message_inv m1) end.
  { destruct first.
    - step_store W3; [by apply addTarget_inv|]. by eauto.
    - eexists _, _. split; [reflexivity|]. split; [by apply (relay_inv_same r)|by apply addTarget_inv]. }
  destruct Hx as (r1 & m1 & -> & I1 & M1). rewrite bind_ok. cbn beta iota.
  destruct (sendRelay_ok now q r1 m1) as (q' & r' & m' & k & -> & G & _); [done|done|].
  rewrite bind_ok. by exists q', r'.
Qed.

Lemma store_nodes_ok msg l : Message_inv msg → ∃ msg', store_nodes msg l = Ok msg' ∧ Message_inv msg'.
Proof.
  revert msg. induction l as [|[id n] l IH]; intros msg M; cbn [store_nodes]; [by eauto|].
  step_store W. by apply IH.
Qed.

Lemma sendRelayList_ok now q r t limit : good q r → 0 ≤ limit →
  ∃ q' k, sendRelayList rand now q r t limit = Ok (q', k) ∧ net_inv (net q').
Proof.
  intros [In Ir] Hl. unfold sendRelayList. cbv zeta. set (n := u8 _). destruct (Z.eqb_spec n 0) as [|Hn]; [by eauto|].
  set (k := if negb _ && _ then _ else _).
  assert (Hk : (Z.to_nat k ≤ length (relays r))%nat).
  { assert (Hn' : 0 ≤ n ≤ Z.of_nat (length (relays r))) by (unfold n, wrap; split; [apply Z.mod_pos_bound; lia|apply Z.mod_le; lia]).
    unfold k. destruct (_ && _) eqn:E; [|lia]. apply andb_true_iff in E as [_ E%Z.ltb_lt].
    assert (u8 limit ≤ limit) by (apply Z.mod_le; lia). lia. }
  step_store W. destruct (randomSet_ok rand (Z.to_nat k) (length (relays r)) Hrich Hk) as (l & -> & _).
  rewrite bind_ok. match goal with |- context [store_nodes ?m ?l] => destruct (store_nodes_ok m l W) as (m1 & -> & M1) end.
  rewrite bind_ok. destruct (relay_send_ok now q (addTarget m1 t) In) as (q' & m' & f & j & -> & I' & _); [by apply addTarget_inv|].
  rewrite bind_ok. by eauto.
Qed.

Lemma notifyPhysical_ok now q r : good q r →
  ∃ q' r' ok, notifyPhysicalCoordinate now q r = Ok (q', r', ok) ∧ good q' r'.
Proof.
  intros G. unfold notifyPhysicalCoordinate. destruct (_ =? 0)%nat; [by eauto 10|].
  step_store W. step_store W1. cbv zeta.
  match goal with |- context [foldl addTarget ?m ?l] => pose proof (addTargets_inv m l W1) as M end.
  match goal with |- context [sendRelay now q r ?m] => destruct (sendRelay_ok now q r m G M) as (q' & r' & m' & k & -> & G' & _) end.
  rewrite bind_ok. by eauto 10.
Qed.

Lemma setJoined_good q r id : good q r → good (fst (fst (setJoined q r id))) (snd (fst (setJoined q r id))).
Proof.
  intros [In Ir]. unfold setJoined. destruct (_ =? _).
  - split; [by destruct In|]. by destruct Ir.
  - destruct (find id (relays r)) as [n|] eqn:E; [|done]. split; [by destruct In|].
    destruct Ir. split; cbn; try done. unfold has. by rewrite E.
Qed.

(** *** Joining *)

Lemma joinRelay_ok now ms q r : good q r →
  ∃ q' r' ok, joinRelay now ms q r = Ok (q', r', ok) ∧ good q' r'.
Proof.
  intros [In Ir]. unfold joinRelay. destruct (Nat.eqb_spec (length (relays r)) 0) as [|Hne]; [by eexists _, _, _|]. cbv zeta.
  destruct (nextRelay_ok r Ir) as (r1 & o & -> & I1 & _ & Ho). rewrite bind_ok. cbn beta iota.
  destruct o as [n|]; [|by destruct Ho; [intros E; by rewrite E in Hne|]].
  step_store W. step_store W1.
  match goal with |- context [sendRelay now q r1 ?m] =>
    destruct (sendRelay_ok now q r1 m) as (q' & r' & m' & k & -> & [G1 G2] & _) end; [done|by apply addTarget_inv|].
  rewrite bind_ok. cbn beta iota. eexists _, _, _. split; [reflexivity|]. split; [done|by apply (relay_inv_same r')].
Qed.

(** A client is accepted while there is room, or if it is this node. *)
Lemma addClient_good q r n : good q r →
  node_id n = node_id (r_self r) ∨ client_limit r = 0 ∨ Z.of_nat (length (clients r)) < client_limit r →
  good (fst (addClient q r n)) (snd (addClient q r n)).
Proof.
  intros [In [O F D Cu Co L CO CB Q]] Hn. split; [by apply notify_inv|]. split; try done; cbn; [by apply ordered_set|].
  intros Hl. specialize (CB Hl). unfold other_clients in *. cbn.
  destruct (has (node_id n) (clients r)) eqn:Eh; [by rewrite keys_set_old|].
  rewrite (filter_Permutation _ _ _ (keys_set_new (node_id n) n (clients r) Eh)), filter_cons.
  destruct (decide _) as [Hne|]; [|done]. destruct Hn as [?|[?|Hn]]; [done|done|]. cbn [length].
  pose proof (length_filter (λ id, id ≠ node_id (r_self r)) (fst <$> clients r)) as Lf. rewrite length_fmap in Lf. lia.
Qed.

Lemma removeClient_inv r id : relay_inv r → relay_inv (removeClient r id).
Proof.
  intros [O F D Cu Co L CO CB Q]. split; try done; cbn; [by apply ordered_erase|]. intros Hl. specialize (CB Hl).
  unfold other_clients in *. cbn. destruct (has id (clients r)) eqn:Eh.
  - rewrite (filter_Permutation _ _ _ (keys_erase id (clients r) Eh)), filter_cons in CB.
    destruct (decide _); cbn [length] in CB; lia.
  - rewrite erase_absent; [done|]. unfold has in Eh. by destruct (find id (clients r)).
Qed.

(** *** Forwarding *)

Lemma forward_all_ok now q h l : net_inv (net q) → Forall (λ p, Message_inv (snd p)) l →
  ∃ q', forward_all now q h l = Ok q' ∧ net_inv (net q').
Proof.
  intros In F. revert q In. induction F as [|[s m] l M F IH]; intros q In; cbn [forward_all]; [by eauto|].
  unfold forward_one. destruct (_ =? _); [rewrite bind_ok; by apply IH|].
  destruct (relay_send_ok now q (set_group (with_targets m [h]) MSG_GROUP_VAST_CLIENT) In) as (q' & m' & f & k & -> & I' & _); [done|].
  rewrite !bind_ok. by apply IH.
Qed.

Lemma forwardMessage_ok now q r s h : good q r →
  ∃ q' r', forwardMessage now q r s h = Ok (q', r') ∧ good q' r'.
Proof.
  intros [In Ir]. unfold forwardMessage. cbv zeta.
  assert (Ff : ∀ (P : Z * Message → Prop) `{∀ x, Decision (P x)}, Forall (λ p, Message_inv (snd p)) (filter P (r_queue r))).
  { intros P ?. apply Forall_forall. intros x [_ Hx]%list_elem_of_filter. by apply (proj1 (Forall_forall _ _) (ri_queue _ Ir)). }
  destruct (forward_all_ok now q h (filter (λ p, fst p = s) (r_queue r)) In (Ff _ _)) as (q' & -> & I').
  rewrite bind_ok. eexists _, _. split; [reflexivity|]. split; [done|]. pose proof (Ff (λ p, fst p ≠ s) _). by destruct Ir.
Qed.

Lemma forwardMessages_ok now q r subs : good q r →
  ∃ q' r', forwardMessages now q r subs = Ok (q', r') ∧ good q' r'.
Proof.
  revert q r. induction subs as [|s subs IH]; intros q r G; cbn [forwardMessages]; [by eauto|].
  destruct (forwardMessage_ok now q r s NET_ID_UNASSIGNED G) as (q1 & r1 & -> & G1). rewrite bind_ok. by apply IH.
Qed.

Lemma keep_unknown_ok u r m ts : relay_inv r → Message_inv m →
  ∃ r' m', keep_unknown u r m ts = Ok (r', m') ∧ relay_inv r' ∧ Message_inv m'.
Proof.
  revert r m. induction ts as [|t ts IH]; intros r m I M; cbn [keep_unknown]; [by eauto|]. cbv zeta.
  destruct (Message_copy_ok (with_targets m [t]) M) as (m1 & -> & (_ & _ & _ & _ & C) & _). rewrite bind_ok.
  apply IH; [|done]. destruct I. split; cbn; try done. rewrite minsert_Permutation. by constructor.
Qed.

(** *** Handling messages *)

Definition handled_well (x : mqueue N * VASTRelay * Message) : Prop :=
  good (fst (fst x)) (snd (fst x)) ∧ Message_inv (snd x).

Lemma handle_ping_ok now q r msg : good q r → Message_inv msg →
  outcome_sat bad_order handled_well (handle_ping junk rand now q r msg).
Proof.
  intros G M. unfold handle_ping. step_read R.
  match goal with |- context [pong now q r ?t ?s true] => destruct (pong_ok now q r t s true G) as (q1 & r1 & -> & G1) end.
  rewrite bind_ok. cbn beta iota.
  destruct (sendRelayList_ok now q1 r1 (from x) MAX_CONCURRENT_PING G1) as (q2 & k & -> & I2); [done|].
  rewrite bind_ok. split; [split; [done|apply G1]|done].
Qed.

Lemma update_coordinate_inv r fr xj : relay_inv r → relay_inv (update_coordinate r fr xj).
Proof.
  intros I. unfold update_coordinate. cbv zeta.
  set (r1 := set_estimate r _ _). assert (I1 : relay_inv r1) by by apply (relay_inv_same r).
  set (r2 := match find fr (relays r1) with Some _ => _ | None => r1 end). assert (I2 : relay_inv r2).
  { unfold r2. destruct (find fr (relays r1)) as [n|] eqn:E; [|done]. apply restore_inv; [done| |].
    - unfold has. by rewrite E.
    - apply find_In, (proj1 (Forall_forall _ _) (ri_ids _ I1)) in E. exact E. }
  clearbody r2. destruct (_ || _); [|by apply (relay_inv_same r2)].
  destruct (0 <? request_times r2); by apply (relay_inv_same r2).
Qed.

Lemma handle_pong_ok now q r msg : good q r → Message_inv msg →
  outcome_sat bad_order handled_well (handle_pong junk now q r msg).
Proof.
  intros [In Ir] M. unfold handle_pong. step_read R. step_read R1. step_read R2. destruct (_ =? 0).
  { match goal with |- context [removeRelay r ?i] => destruct (removeRelay_ok r i Ir) as (r1 & -> & I1 & _) end.
    rewrite bind_ok. by split. }
  cbv zeta. match goal with |- context [update_coordinate r ?a ?b] =>
    pose proof (update_coordinate_inv r a b Ir) as I1; set (r1 := update_coordinate r a b) in * end. clearbody r1.
  destruct (_ =? code PONG); [|by split]. step_read R3.
  match goal with |- context [pong now q r1 ?t ?s false] => destruct (pong_ok now q r1 t s false) as (q1 & r2 & -> & G1); [done|] end.
  rewrite bind_ok. by split.
Qed.

Lemma relay_loop_ok n now q r msg x : good q r → Message_inv msg →
  outcome_sat bad_order handled_well (relay_loop n now q r msg x).
Proof.
  revert q r msg x. induction n as [|n IH]; intros q r msg x G M; cbn [relay_loop]; [by split|].
  step_read R. eapply sat_bind; [by apply addRelay_safe|]. intros [q1 r1] G1. by apply IH.
Qed.

Lemma handle_relay_ok now q r msg : good q r → Message_inv msg →
  outcome_sat bad_order handled_well (handle_relay junk now q r msg).
Proof. intros G M. unfold handle_relay. step_read R. by apply relay_loop_ok. Qed.

(** What becomes of a query of [joiner] that [a] relays: among the relays that are left,
    this node is the closest and answers, or the closest one is reached. *)
Inductive query_done (now : Z) (joiner : Node) (a : Addr) q r msg
    : mqueue N → VASTRelay → Message → Prop :=
  | query_answered q1 p n m q' r' m' k :
      closestRelay r (center (node_aoi joiner)) = Ok (p, n) → node_id n = node_id (r_self r) →
      msgtype m = code RELAY_QUERY_R → targets m = [host_id a] → content m = wire joiner ++ wire n →
      q1 = notifyMapping q (host_id a) a →
      sendRelay now q1 r m = Ok (q', r', m', k) →
      query_done now joiner a q r msg q' r' msg
  | query_passed p n q' r' m' k :
      closestRelay r (center (node_aoi joiner)) = Ok (p, n) → node_id n ≠ node_id (r_self r) →
      sendRelay now q r (with_targets msg [node_id n]) = Ok (q', r', m', k) → 0 < k →
      query_done now joiner a q r msg q' r' m'.

(** The loop ends, since every further turn removes a relay. *)
Lemma query_loop_ok fuel now q r msg joiner a : good q r → Message_inv msg →
  (length (relays r) < fuel)%nat →
  ∃ q1 r1 m1 q' r' msg', query_loop fuel now q r msg joiner a = Ok (q', r', msg')
  ∧ good q' r' ∧ Message_inv msg' ∧ fewer (relays r1) (relays r)
  ∧ query_done now joiner a q1 r1 m1 q' r' msg'.
Proof.
  revert q r msg. induction fuel as [|fuel IH]; intros q r msg G M Hf; [lia|]. cbn [query_loop].
  destruct (closestRelay_ok r (center (node_aoi joiner)) (proj2 G)) as (p & n & Ec & Hn).
  rewrite Ec, bind_ok. cbn beta iota. destruct (Z.eqb_spec (node_id n) (node_id (r_self r))) as [E|E].
  - destruct (store_obj_spec (set_priority (new_msg RELAY_QUERY_R) 1) joiner) as (m1 & -> & I1 & C1 & _ & S1); [done|].
    rewrite bind_ok. cbn beta iota. destruct (store_obj_spec m1 n I1) as (m2 & -> & I2 & C2 & _ & S2).
    rewrite bind_ok. cbn beta iota zeta. set (q1 := notifyMapping q _ _).
    destruct (sendRelay_ok now q1 r (addTarget m2 (host_id a))) as (q' & r' & m' & k & Es & G' & _);
      [split; [by apply notify_inv, G|apply G]|by apply addTarget_inv|].
    rewrite Es, bind_ok. eexists q, r, msg, q', r', msg. split; [reflexivity|]. splits; [done|done|by split|].
    destruct (same_head_trans _ _ _ S2 S1) as (_ & T & _ & _ & _ & Ts & _).
    assert (Et : addTarget m2 (host_id a) = with_targets m2 [host_id a])
      by (unfold addTarget, with_targets; by rewrite Ts).
    rewrite Et in Es. eapply (query_answered now joiner a q r msg q1 p n (with_targets m2 [host_id a]));
      [done|done|exact T|done| |done|exact Es].
    change (content (with_targets m2 [host_id a])) with (content m2). by rewrite C2, C1.
  - destruct Hn as [->|Hh]; [done|].
    destruct (sendRelay_ok now q r (with_targets msg [node_id n]) G) as (q' & r' & m' & k & Es & G' & M' & L & S); [done|].
    rewrite Es, bind_ok. cbn beta iota. destruct (Z.ltb_spec 0 k).
    { eexists q, r, msg, q', r', m'. split; [reflexivity|]. splits; [done|done|by split|]. by eapply query_passed. }
    destruct (IH q' r' m' G' M') as (q2 & r2 & m2 & q3 & r3 & m3 & Eq & G3 & M3 & F & Q).
    { specialize (S (node_id n) eq_refl Hh). lia. }
    exists q2, r2, m2, q3, r3, m3. splits; try done. by eapply fewer_step.
Qed.

Lemma handle_query_ok now q r msg : good q r → Message_inv msg →
  ∃ q' r' msg', handle_relay_query now q r msg = Ok (q', r', msg') ∧ good q' r' ∧ Message_inv msg'.
Proof.
  intros G M. unfold handle_relay_query. step_read R. step_read R1.
  match goal with |- context [query_loop ?f now q r ?m ?j ?a] =>
    destruct (query_loop_ok f now q r m j a) as (? & ? & ? & q' & r' & m' & E & G' & M' & _) end; [done|done|lia|].
  by exists q', r', m'.
Qed.

Lemma handle_query_r_ok now ms q r msg : good q r → Message_inv msg →
  outcome_sat bad_order handled_well (handle_relay_query_r now ms q r msg).
Proof.
  intros G M. unfold handle_relay_query_r. step_read R. step_read R1. destruct (_ =? _).
  - eapply sat_bind; [by apply addRelay_safe|]. intros [q1 r1] G1.
    eapply sat_bind; [|intros [q2 r2] G2].
    { destruct (isRelay q1 r1); [by apply addRelay_safe|]. exact G1. }
    cbn in G2. destruct (joinRelay_ok now ms q2 r2 G2) as (q3 & r3 & ok & -> & G3). rewrite bind_ok. by split.
  - destruct (negb _); [by split|].
    match goal with |- context [sendRelay now q r ?m] =>
      destruct (sendRelay_ok now q r m G) as (q' & r' & m' & k & -> & G' & M' & _) end;
      [destruct R1; split; [done|cbn; lia]|].
    rewrite bind_ok. by split.
Qed.

Lemma handle_join_ok now q r msg : good q r → Message_inv msg →
  outcome_sat bad_order handled_well (handle_relay_join junk rand now q r msg).
Proof.
  intros G M. unfold handle_relay_join. step_read R. step_read R1. cbv zeta. set (yes := (_ || _)).
  set (p1 := if yes then _ else _). assert (G1 : good (fst p1) (snd p1)).
  { unfold p1. destruct yes eqn:Ey; [|done]. apply addClient_good; [done|]. unfold yes in Ey.
    apply orb_true_iff in Ey as [?%Z.eqb_eq|[_ [?%Z.eqb_eq|?%Z.ltb_lt]%orb_true_iff]%andb_true_iff]; auto. }
  clearbody p1. destruct p1 as [q1 r1]. step_store W.
  match goal with |- context [relay_send now q1 ?m] =>
    destruct (relay_send_ok now q1 m (proj1 G1)) as (q' & m' & f & j & -> & I' & _) end; [by apply addTarget_inv|].
  rewrite bind_ok. cbn beta iota. cbn [fst snd] in G1.
  match goal with |- context [sendRelayList rand now q' r1 ?t ?l] =>
    destruct (sendRelayList_ok now q' r1 t l) as (q2 & k & -> & I2) end; [by destruct G1|done|].
  rewrite bind_ok. by destruct G1.
Qed.

Lemma handle_join_r_ok now ms q r msg : good q r → Message_inv msg →
  outcome_sat bad_order handled_well (handle_relay_join_r junk now ms q r msg).
Proof.
  intros G M. unfold handle_relay_join_r. case_bool_decide; [by split|]. step_read R.
  destruct (_ && _).
  { destruct (joinRelay_ok now ms q r G) as (q' & r' & ok & -> & G'). rewrite bind_ok. by split. }
  destruct (isRelay q r).
  - destruct (notifyPhysical_ok now q r G) as (q' & r' & ok & -> & G'). rewrite bind_ok. cbn beta iota.
    pose proof (setJoined_good q' r' NET_ID_UNASSIGNED G') as G2. destruct (setJoined q' r' _) as [[q2 r2] b]. by split.
  - match goal with |- context [setJoined q r ?i] => pose proof (setJoined_good q r i G) as G2; destruct (setJoined q r i) as [[q2 r2] b] end.
    by split.
Qed.

Lemma handle_notify_ok now q r msg : good q r → Message_inv msg →
  outcome_sat bad_order handled_well (handle_subscribe_notify junk now q r msg).
Proof.
  intros [In Ir] M. unfold handle_subscribe_notify. step_read R. step_read R1. cbv zeta.
  match goal with |- context [forwardMessage now q ?r1 ?s ?h] =>
    destruct (forwardMessage_ok now q r1 s h) as (q' & r' & -> & G') end; [split; [done|by apply (relay_inv_same r)]|].
  rewrite bind_ok. by split.
Qed.

Lemma handle_forward_ok now ms app q r msg : good q r → Message_inv msg →
  outcome_sat bad_order (λ x, handled_well (fst x)) (handle_forward now ms app q r msg).
Proof.
  intros [In Ir] M. unfold handle_forward. cbv zeta.
  set (m1 := if _ =? _ then _ else msg). assert (M1 : Message_inv m1) by (unfold m1; by destruct (_ =? _)).
  clearbody m1.
  match goal with |- context [keep_unknown ?u r ?m ?ts] =>
    destruct (keep_unknown_ok u r m ts Ir) as (r' & m2 & -> & I2 & M2); [done|] end.
  rewrite bind_ok. cbn beta iota. destruct (omap _ _) as [|h hs]; [by split|].
  destruct (relay_send_ok now q (with_targets m2 (h :: hs)) In) as (q' & m' & f & k & -> & I' & M' & _); [done|].
  rewrite bind_ok. by split.
Qed.

Lemma R_handle_safe now ms q r msg : good q r → Message_inv msg →
  outcome_sat bad_order (λ x, handled_well (fst x)) (R_handleMessage junk rand now ms q r msg).
Proof.
  intros G M. unfold R_handleMessage. cbv zeta. set (m := set_type msg _).
  assert (Mm : Message_inv m) by done. clearbody m.
  assert (Hd : ∀ x, outcome_sat bad_order handled_well x →
    outcome_sat bad_order (λ x, handled_well (fst x)) ('(q, r, msg) ← x; Ok (q, r, msg, true))).
  { intros x Hx. eapply sat_bind; [exact Hx|]. by intros [[q1 r1] m1] H1. }
  destruct (of_code (msgtype m)) as [[]|]; try by apply handle_forward_ok.
  10: { destruct (_ =? DISCONNECT); [|by apply handle_forward_ok]. destruct G as [In Ir].
    destruct (has _ _); [|rewrite bind_ok; split; [split; [done|by apply removeClient_inv]|done]].
    destruct (removeRelay_ok r (from m) Ir) as (r' & -> & I' & _). rewrite bind_ok. by split. }
  all: apply Hd; first [by apply handle_ping_ok | by apply handle_pong_ok | by apply handle_relay_ok
    | by apply handle_query_r_ok | by apply handle_join_ok | by apply handle_join_r_ok
    | by apply handle_notify_ok | idtac].
  destruct (handle_query_ok now q r m G Mm) as (q' & r' & m' & -> & H'). exact H'.
Qed.

(** *** Periodic work *)

Lemma add_entries_safe now q r n es : good q r →
  outcome_sat bad_order (uncurry good) (add_entries now q r n es).
Proof.
  revert q r n. induction es as [|e es IH]; intros q r n G; cbn [add_entries]; [done|]. cbv zeta.
  eapply sat_bind; [by apply addRelay_safe|]. intros [q1 r1] G1. by apply IH.
Qed.

Lemma keepalive_safe now ms q r : good q r →
  outcome_sat bad_order (uncurry good) (keepalive rand now ms q r).
Proof.
  intros [In Ir]. unfold keepalive. cbv zeta. set (r0 := set_timeouts r _ _ _).
  assert (I0 : relay_inv r0) by by apply (relay_inv_same r). clearbody r0.
  eapply sat_bind; [|intros [q1 r1] G1].
  { destruct (_ =? 0)%nat; [by apply add_entries_safe|]. by split. }
  cbn in G1. destruct (0 <? _)%nat; [|done].
  destruct (ping_ok now q1 r1 (R_isJoined r1) G1) as (q2 & r2 & ok & -> & G2). rewrite bind_ok. cbn beta iota.
  match goal with |- context [forwardMessages now q2 r2 ?l] =>
    destruct (forwardMessages_ok now q2 r2 l G2) as (q3 & r3 & -> & G3) end. exact G3.
Qed.

Lemma query_relay_ok now ms q r : good q r → ∃ q' r', query_relay now ms q r = Ok (q', r') ∧ good q' r'.
Proof.
  intros [In Ir]. unfold query_relay. cbv zeta. set (r0 := set_timeouts r _ _ _).
  assert (I0 : relay_inv r0) by by apply (relay_inv_same r). clearbody r0.
  destruct (nextRelay_ok r0 I0) as (r1 & o & -> & I1 & _). rewrite bind_ok. cbn beta iota. destruct o as [n|].
  - step_store W. step_store W1.
    match goal with |- context [sendRelay now q r1 ?m] =>
      destruct (sendRelay_ok now q r1 m) as (q' & r' & m' & k & -> & [G1 G2] & _) end; [done|by apply addTarget_inv|].
    rewrite bind_ok. eexists _, _. split; [reflexivity|]. split; [done|]. destruct (k =? 0); [by apply (relay_inv_same r')|done].
  - eexists _, _. split; [reflexivity|]. split; [done|]. by apply (relay_inv_same r1).
Qed.

Lemma R_post_safe now ms q r : good q r →
  outcome_sat bad_order (uncurry good) (R_postHandling rand now ms q r).
Proof.
  intros G. unfold R_postHandling. cbv zeta. eapply sat_bind; [|intros [q1 r1] G1].
  { destruct (_ <=? _); [by apply keepalive_safe|exact G]. }
  cbn in G1. eapply (sat_bind _ (uncurry good)); [|intros [q2 r2] G2].
  { destruct (r_state r1).
    - destruct (_ =? 0)%nat.
      + match goal with |- context [setJoined q1 ?x ?i] =>
          pose proof (setJoined_good q1 x i) as G2; destruct (setJoined q1 x i) as [[q2 r2] b] end.
        cbn in G2 |- *. apply G2. split; [apply G1|]. destruct G1 as [_ I1]. by apply (relay_inv_same r1).
      + destruct (has_coordinate r1); [|exact G1]. destruct G1 as [I1 I2]. split; [done|]. by apply (relay_inv_same r1).
    - destruct (negb _); [destruct G1 as [I1 I2]; split; [done|by apply (relay_inv_same r1)]|].
      destruct (_ <=? _); [|exact G1]. destruct (query_relay_ok now ms q1 r1 G1) as (q' & r' & -> & G'). exact G'.
    - destruct (_ <=? _); [|exact G1]. destruct (joinRelay_ok now ms q1 r1 G1) as (q' & r' & ok & -> & G'). exact G'.
    - exact G1.
    - exact G1.
    - exact G1. }
  cbn in G2. destruct (cleanupRelays_ok r2 (proj2 G2)) as (r3 & -> & I3). rewrite bind_ok. by destruct G2.
Qed.

(** A relay is registered before it has clients. *)
Lemma R_init_good q r : good q r → clients r = [] →
  good (fst (R_initHandler q r)) (snd (R_initHandler q r)).
Proof.
  intros [In [O F D Cu Co L CO CB Q]] Ec. split; [by apply notify_inv|]. split; try done. cbn. intros Hl. specialize (CB Hl).
  unfold other_clients in *. cbn. by rewrite Ec in *.
Qed.
End relay.
