(* ===== verification/RelaySpec.v ===== *)
(** What the relay achieves: queries end, forwarded messages wait for their target to be
    known and are delivered then, joining completes, and the limit of clients holds. *)

From S2P Require Import Prelude Bytes StdMap Float Serial Geometry Subscription Message VastBuffer.
From S2P Require Import NetManager NetInterface VastNet VastSend MessageQueue Routing QueueSafe.
From S2P Require Import Readable Handlers Client ClientSafe ClientFlow Relay RelaySafe RelayHandle.
From Stdlib Require Import Floats.SpecFloat.
Local Open Scope Z_scope.

(** *** Not a number *)

Lemma f32_sub_nan x : f32_sub x S754_nan = S754_nan.
Proof. by destruct x. Qed.

(** A position whose x coordinate is not a number has no distance. *)
Lemma distance_nan a b : is_nan (f32_of_bits (pos_x a)) = true → is_nan (distance a b) = true.
Proof.
  intros Ha. unfold distance. cbv zeta. destruct (f32_of_bits (pos_x a)); try done.
  rewrite f32_sub_nan. reflexivity.
Qed.

(** *** Keeping messages *)

Lemma minsert_filter_ne {V} t (v : V) l : Forall (λ p, fst p ≠ t) l →
  filter (λ p, fst p = t) (minsert t v l) = [(t, v)]
  ∧ filter (λ p, fst p ≠ t) (minsert t v l) = l.
Proof.
  induction 1 as [|[k w] l Hk Hl IH]; cbn [minsert].
  - rewrite !filter_cons, !filter_nil. by rewrite decide_True, decide_False by (cbn; tauto).
  - cbn [fst] in Hk. assert (Hn : filter (λ p : Z * V, fst p = t) l = []) by by apply filter_none.
    assert (Ha : filter (λ p : Z * V, fst p ≠ t) l = l) by by apply filter_every.
    destruct IH as [IH1 IH2].
    destruct (t <? k); rewrite !filter_cons; cbn [fst]; repeat case_decide; try tauto; split; congruence.
Qed.

Section spec.
Context {N : Type} `{NetManagerLaws N} (junk : relay_uninit) (rand : nat → list nat).
Implicit Types (q : mqueue N) (r : VASTRelay).

(** *** Queries *)

(** C26: Queries end. Whatever a RELAY_QUERY contains, the relay reads the joiner and the
    address of the first relay, and comes to an end: among the relays it can reach, it
    passes the query to the one closest to the joiner, after removing closer ones that
    could not be reached, or answers the first relay with itself if it is the closest. *)
Theorem relay_query_ends now q r msg : good q r → Message_inv msg →
  ∃ m1 joiner k1 m2 asker k2,
    extract_obj msg Node_init false = Ok (m1, joiner, k1)
    ∧ extract_obj m1 Addr_null false = Ok (m2, asker, k2)
    ∧ ∃ q1 r1 m3 q' r' msg', handle_relay_query now q r msg = Ok (q', r', msg')
      ∧ good q' r' ∧ fewer (relays r1) (relays r)
      ∧ query_done now joiner asker q1 r1 m3 q' r' msg'.
Proof.
  intros G M. unfold handle_relay_query.
  destruct (extract_obj_safe msg Node_init M) as (m1 & joiner & k1 & -> & (R1 & _) & _); [vm_compute; lia|].
  rewrite bind_ok. cbn beta iota. exists m1, joiner, k1.
  destruct (extract_obj_safe m1 Addr_null R1) as (m2 & asker & k2 & -> & (R2 & _) & _); [vm_compute; lia|].
  rewrite bind_ok. cbn beta iota. exists m2, asker, k2. split; [done|]. split; [done|].
  destruct (query_loop_ok (S (length (relays r))) now q r m2 joiner asker) as
    (q1 & r1 & m3 & q' & r' & msg' & E & G' & _ & F & Q); [done|done|lia|].
  by exists q1, r1, m3, q', r', msg'.
Qed.

(** *** Bounds *)

(** C35: The limit of clients. Whatever messages a relay with a limit handles, it never has
    more clients than that, not counting itself. *)
Theorem clients_bounded now ms q r msg q' r' msg' ok :
  rich rand → good q r → Message_inv msg →
  R_handleMessage junk rand now ms q r msg = Ok (q', r', msg', ok) →
  client_limit r' ≠ 0 → Z.of_nat (length (other_clients r')) ≤ client_limit r'.
Proof.
  intros Hr G M E. pose proof (R_handle_safe junk rand Hr now ms q r msg G M) as S.
  rewrite E in S. destruct S as [[_ I] _]. apply I.
Qed.

(** *** Errors *)

(** A relay at a position that is not a number. A RELAY message with one such node makes
    the receiver insert a NaN into the map ordered by distance, which is undefined. *)
Theorem relay_nan_fails now ms app q r msg n tl :
  Message_inv msg → msgtype msg = app_type app RELAY → valid n → node_id n ≠ NET_ID_UNASSIGNED →
  is_nan (f32_of_bits (pos_x (center (node_aoi n)))) = true →
  drop (mcurr msg) (content msg) = le_bytes 1 1 ++ wire n ++ tl →
  R_handleMessage junk rand now ms q r msg = Fail BadOrder.
Proof.
  intros M Ht V Hid Hn Hd. unfold R_handleMessage. rewrite Ht. cbv zeta. rewrite VAST_MSGTYPE_app.
  cbn [set_type msgtype]. rewrite of_code_code. cbv iota. set (m := set_type msg _).
  unfold handle_relay. destruct (extract_int_spec 1 m (ru_size junk) 1 (wire n ++ tl)) as (m1 & -> & I1 & D1 & _);
    [done|lia|lia|exact Hd|].
  rewrite bind_ok. cbn beta iota. change (Z.to_nat 1) with 1%nat. cbn [relay_loop].
  destruct (extract_obj_spec m1 n Node_init tl I1 V) as (m2 & -> & _); [done|vm_compute; lia|exact D1|].
  rewrite bind_ok. cbn beta iota. unfold addRelay. cbv zeta.
  change (node_id (merge Node_init n)) with (node_id n).
  destruct (Z.eqb_spec (node_id n) NET_ID_UNASSIGNED); [done|].
  change (node_aoi (merge Node_init n)) with (node_aoi n). by rewrite distance_nan.
Qed.

(** *** Forwarding *)

(** A message as it leaves for the host of a client *)
Definition forwarded q (host : Z) (m : Message) : Message :=
  filled (net q) (set_group (with_targets m [host]) MSG_GROUP_VAST_CLIENT).

Lemma forward_one_ok now q host m : reachable q host → host ≠ NET_ID_UNASSIGNED → Message_inv m →
  ∃ v', forward_one now q host m = Ok (with_net q v') ∧ sends q v' host (forwarded q host m).
Proof.
  intros Hr Hh M. unfold forward_one. destruct (Z.eqb_spec host NET_ID_UNASSIGNED); [done|].
  unfold relay_send, handler_sendMessage. cbn [set_group with_targets targets].
  change (msggroup (set_group (with_targets m [host]) MSG_GROUP_VAST_CLIENT) =? 0) with false. cbv iota.
  destruct (MQ_send_one now q (set_group (with_targets m [host]) MSG_GROUP_VAST_CLIENT) host Hr) as (v' & -> & S);
    [done|done|]. rewrite bind_ok. by exists v'.
Qed.

(** A message to one unknown target is kept. *)
Lemma unknown_kept now ms app q r msg t : Message_inv msg → targets msg = [t] → known_host q r t = None →
  ∃ m r1 msg1, handle_forward now ms app q r msg = Ok (q, r1, msg1, false)
  ∧ copy_of m (set_group (if msgtype msg =? code MESSAGE then set_type msg (app_type app MESSAGE) else msg)
                MSG_GROUP_VAST_CLIENT)
  ∧ r1 = set_queue r (minsert t m (r_queue r))
           (set t (u64 (timestamp now q + KEEPALIVE_RELAY ms * per_second q)) (queue_time r)).
Proof.
  intros M Et Hk. unfold handle_forward. cbv zeta.
  set (m0 := if _ =? _ then _ else msg).
  assert (A : Message_inv m0 ∧ targets m0 = [t]) by (unfold m0; destruct (_ =? _); by split).
  destruct A as [M0 T0]. clearbody m0. rewrite T0. unfold unknown_clients.
  rewrite filter_cons, decide_True, filter_nil by done. cbn [keep_unknown]. cbv zeta.
  assert (Ew : with_targets (set_group m0 MSG_GROUP_VAST_CLIENT) [t] = set_group m0 MSG_GROUP_VAST_CLIENT)
    by (unfold with_targets, set_group; cbn; by rewrite T0).
  rewrite Ew. destruct (Message_copy_ok (set_group m0 MSG_GROUP_VAST_CLIENT) M0) as (m & -> & C & _).
  rewrite !bind_ok. cbn beta iota.
  assert (Eo : omap (known_host q r) [t] = []) by (cbn; by rewrite Hk).
  rewrite Eo. by exists m, (set_queue r (minsert t m (r_queue r))
    (set t (u64 (timestamp now q + KEEPALIVE_RELAY ms * per_second q)) (queue_time r))),
    (set_group m0 MSG_GROUP_VAST_CLIENT).
Qed.

(** C27: Forwarding to a subscription that is not known yet. The relay keeps a copy of the
    message; when the matcher tells which host the subscription belongs to, the message
    goes to that host, with its content, type and sender, and nothing of it stays behind. *)
Theorem unknown_target_delivered now ms app q r msg t :
  Message_inv msg → targets msg = [t] → known_host q r t = None →
  Forall (λ p, fst p ≠ t) (r_queue r) →
  ∃ r1 msg1, handle_forward now ms app q r msg = Ok (q, r1, msg1, false)
  ∧ ∀ now' q' note host tl, reachable q' host → host ≠ NET_ID_UNASSIGNED → Message_inv note →
      fits 64 t → fits 64 host → drop (mcurr note) (content note) = le_bytes 8 t ++ le_bytes 8 host ++ tl →
      ∃ v' m r2 note', handle_subscribe_notify junk now' q' r1 note = Ok (with_net q' v', r2, note')
      ∧ sends q' v' host m
      ∧ content m = content msg
      ∧ msgtype m = (if msgtype msg =? code MESSAGE then app_type app MESSAGE else msgtype msg)
      ∧ msggroup m = MSG_GROUP_VAST_CLIENT ∧ priority m = priority msg ∧ targets m = [host]
      ∧ from m = (if from msg =? 0 then hostID q' else from msg)
      ∧ r_queue r2 = r_queue r ∧ find t (sub2client r2) = Some host.
Proof.
  intros M Et Hk Hf. destruct (unknown_kept now ms app q r msg t M Et Hk) as (m & r1 & msg1 & E & C & ->).
  eexists _, msg1. split; [exact E|]. intros now' q' note host tl Hr Hh Mn Ft Fh Hd.
  destruct (minsert_filter_ne t m (r_queue r) Hf) as [F1 F2].
  unfold handle_subscribe_notify.
  destruct (extract_int_spec 8 note (ru_id junk) t (le_bytes 8 host ++ tl) Mn ltac:(lia) Ft Hd) as (n1 & -> & I1 & D1 & _).
  rewrite bind_ok. cbn beta iota.
  destruct (extract_int_spec 8 n1 (ru_id junk) host tl I1 ltac:(lia) Fh D1) as (n2 & -> & I2 & _).
  rewrite bind_ok. cbn beta iota zeta. unfold forwardMessage. cbv zeta. cbn [r_queue set_clients set_queue].
  rewrite F1, F2. cbn [forward_all]. destruct C as ((Hfr & Hty & Hgr & Hpr & Hre & Hta & Hal) & Hs & Hfree & Hc & Mm).
  destruct (forward_one_ok now' q' host m Hr Hh Mm) as (v' & -> & S). rewrite !bind_ok. cbn beta iota.
  eexists v', _, _, n2. split; [reflexivity|]. split; [exact S|].
  destruct (filled_head (net q') (set_group (with_targets m [host]) MSG_GROUP_VAST_CLIENT)) as (E1 & E3 & E5 & E6 & E7 & E8).
  unfold forwarded. splits.
  - rewrite E1. change (content m = content msg). rewrite Hc. by destruct (msgtype msg =? code MESSAGE).
  - rewrite E3. change (msgtype (set_group _ _)) with (msgtype m). rewrite Hty. by destruct (msgtype msg =? code MESSAGE).
  - by rewrite E5.
  - rewrite E6. change (priority (set_group _ _)) with (priority m). rewrite Hpr. by destruct (msgtype msg =? code MESSAGE).
  - by rewrite E7.
  - rewrite E8. change (from (set_group _ _)) with (from m). rewrite Hfr. by destruct (msgtype msg =? code MESSAGE).
  - done.
  - cbn. by rewrite find_set_eq.
Qed.

(** *** Joining *)

(** Joining completes. A node that has a coordinate and is not a relay itself has joined
    once a relay it knows accepts it: messages to unknown hosts go through that relay. *)
Theorem join_completes now ms app q r msg id n yes tl :
  r_state r ≠ JOINED → isRelay q r = false → has_coordinate r = true →
  Message_inv msg → msgtype msg = app_type app RELAY_JOIN_R → from msg = id → id ≠ NET_ID_UNASSIGNED →
  find id (relays r) = Some n → fits 8 yes → yes ≠ 0 →
  drop (mcurr msg) (content msg) = le_bytes 1 yes ++ tl →
  ∃ q' r' msg', R_handleMessage junk rand now ms q r msg = Ok (q', r', msg', true)
  ∧ R_isJoined r' = true ∧ getRelayID r' = Ok (node_id n)
  ∧ default_host q' = node_id n ∧ net q' = net q ∧ relays r' = relays r.
Proof.
  intros Hs Hr Hc M Ht Hf Hid Hn Fy Hy Hd. unfold R_handleMessage. rewrite Ht. cbv zeta. rewrite VAST_MSGTYPE_app.
  cbn [set_type msgtype]. rewrite of_code_code. cbv iota. set (m := set_type msg _).
  unfold handle_relay_join_r. rewrite bool_decide_eq_false_2 by done.
  destruct (extract_int_spec 1 m (ru_bool junk) yes tl) as (m1 & -> & I1 & _ & _ & _ & (Fr & _));
    [done|lia|exact Fy|exact Hd|].
  rewrite bind_ok. cbn beta iota. rewrite Hr. cbn [negb andb]. destruct (Z.eqb_spec yes 0); [done|].
  assert (Ef : from m1 = id) by (rewrite Fr; exact Hf). rewrite Ef.
  unfold setJoined. destruct (Z.eqb_spec id NET_ID_UNASSIGNED); [done|]. rewrite Hn, bind_ok.
  eexists _, _, m1. split; [reflexivity|]. splits; try done.
  - unfold R_isJoined. change (has_coordinate _) with (has_coordinate r). by rewrite Hc.
  - unfold getRelayID. cbn. by rewrite Hn.
Qed.
End spec.
