(* ===== verification/Node.v ===== *)
(** A node of the overlay: the message queue with a relay and clients as its handlers
    (VAST/VASTVerse.cpp creates and registers them). Clients hold a pointer to the relay
    of their node; they read it when they handle a message. *)

From S2P Require Import Prelude Bytes StdMap Float Serial Subscription Message NetManager.
From S2P Require Import UdpHandler NetUdp VastBuffer NetInterface VastNet VastSend VastReceive.
From S2P Require Import VastLink VastExamples MessageQueue Routing QueueSafe Readable Handlers.
From S2P Require Import Client ClientSafe ClientSpec ClientFlow Geometry Relay RelaySafe.
From S2P Require Import RelayHandle RelaySpec.
From Stdlib Require Import Floats.SpecFloat.
Local Open Scope Z_scope.

Inductive node_handler := HClient (c : VASTClient) | HRelay (r : VASTRelay).

(** What [_relay->isJoined ()] and the like return to a client. *)
Definition relay_of (hs : list (Z * node_handler)) : relay_view :=
  match find MSG_GROUP_VAST_RELAY hs with
  | Some (HRelay r) => view_relay r
  | _ => mkRelayView false NET_ID_UNASSIGNED 0
  end.

Section node.
Context {N : Type} `{NetManagerLaws N}.
Context (junkc : uninit) (junkr : relay_uninit) (rand : nat → list nat).

#[export] Instance node_handlers : MessageHandler N node_handler := {
  initHandler q h :=
    match h with
    | HClient c => let '(q, c) := VC_initHandler q c in (q, HClient c)
    | HRelay r => let '(q, r) := R_initHandler q r in (q, HRelay r)
    end;
  handleMessage now ms hs q h msg :=
    match h with
    | HClient c =>
        '(q, c, msg, ok) ← VC_handleMessage junkc now (relay_of hs) q c msg; Ok (q, HClient c, msg, ok)
    | HRelay r => '(q, r, msg, ok) ← R_handleMessage junkr rand now ms q r msg; Ok (q, HRelay r, msg, ok)
    end;
  postHandling now ms hs q h :=
    match h with
    | HClient c => '(q, c) ← VC_postHandling now ms (relay_of hs) q c; Ok (q, HClient c)
    | HRelay r => '(q, r) ← R_postHandling rand now ms q r; Ok (q, HRelay r)
    end }.

Definition handler_inv (h : node_handler) : Prop :=
  match h with HClient c => client_inv c | HRelay r => relay_inv r end.

Definition handler_fresh (h : node_handler) : Prop :=
  match h with HClient c => client_inv c | HRelay r => relay_inv r ∧ clients r = [] end.

Hypothesis Hrich : rich rand.

#[export] Program Instance node_safe_handlers : SafeHandler N node_handler := {
  h_inv := handler_inv; h_fault := bad_order; h_fresh := handler_fresh }.
Next Obligation.
  intros q [c|r] I F.
  - split; [exact I|]. by apply (client_inv_same c).
  - destruct F as [F Fc]. exact (R_init_good q r (conj I F) Fc).
Qed.
Next Obligation.
  intros now ms hs q [c|r] msg I Hs Hh M; cbn in *.
  - destruct (VC_handle_safe junkc now (relay_of hs) q c msg I Hh M) as (q' & c' & m' & ok & -> & H').
    rewrite bind_ok. exact H'.
  - eapply sat_bind; [by apply (R_handle_safe junkr rand Hrich now ms q r msg)|].
    by intros [[[q' r'] m'] ok] [[? ?] ?].
Qed.
Next Obligation.
  intros now ms hs q [c|r] I Hs Hh; cbn in *.
  - destruct (VC_post_safe now ms (relay_of hs) q c I Hh) as (q' & c' & -> & H').
    rewrite bind_ok. exact H'.
  - eapply sat_bind; [by apply (R_post_safe rand Hrich now ms q r)|]. by intros [q' r'] [? ?].
Qed.

End node.

(** ** Concrete nodes on which the theorems about the queue, the client and the relay apply. *)

(** *** Messages and queues *)

(** A message with the bytes [bs], unread *)
Definition bytes_msg (f ty : Z) (bs : list byte) (ts : list Z) : Message :=
  mkMsg f (length bs) ty MSG_GROUP_VAST_RELAY 1 1 bs ts 0 0 true.

Lemma bytes_msg_inv f ty bs ts : Message_inv (bytes_msg f ty bs ts).
Proof. split; cbn; lia. Qed.

Lemma bytes_msg_content f ty bs ts : content (bytes_msg f ty bs ts) = bs.
Proof. apply firstn_all. Qed.

(** [hostA], which knows that 5 is at [hostB] and 6 here; [hostB] is the default *)
Definition queueA : mqueue udp_link :=
  mkQ hostA [(5, idB); (6, idA); (idA, idA); (idB, idB)] idB (Message_new 0 0) 0.

Lemma hostA_net : net_inv (net queueA).
Proof.
  split; [exact hostA_ready|apply new_bufs_ok|reflexivity|apply Forall_nil_2].
Qed.

(** Nothing is queued yet. *)
Lemma queueA_empty r h : outq (net queueA) r h = [].
Proof. by destruct r. Qed.

Lemma reach_B t : host_of queueA t = idB → has t (id2host queueA) = true → reachable queueA t.
Proof.
  intros Eh Ht. split; [reflexivity|discriminate|apply new_bufs_ok|exact Ht| |].
  - rewrite Eh. discriminate.
  - rewrite Eh. reflexivity.
Qed.

(** *** The queue *)

Lemma message_routed_witness :
  ∃ v' msg', MQ_sendMessage 5 queueA msg_hi = Ok (with_net queueA v', msg', [], 2)
  ∧ outq v' true idB = framed REGULAR (filled hostA (with_targets msg_hi [5])).
Proof.
  destruct (message_routed 5 queueA msg_hi) as (v' & msg' & E & _ & _ & _ & Q & _);
    [reflexivity|discriminate|apply new_bufs_ok|exact msg_hi_inv| |].
  - apply Forall_cons_2; [split; [reflexivity|left; reflexivity]|].
    apply Forall_cons_2; [split; [reflexivity|left; reflexivity]|apply Forall_nil_2].
  - exists v', msg'. split; [exact E|]. rewrite (Q true idB). reflexivity.
Defined.

Definition unknown_ex : list Z := [21; 22; 23; 24; 25; 26; 27; 28; 29; 30; 31].

Lemma unknown_targets_discard_witness :
  ∃ q', MQ_sendMessage 5 queueA (with_targets msg_hi (unknown_ex ++ [5]))
        = Ok (q', with_targets msg_hi (unknown_ex ++ [5]), [], 0)
  ∧ net q' = net queueA.
Proof.
  destruct (unknown_targets_discard 5 queueA (with_targets msg_hi (unknown_ex ++ [5])) unknown_ex [5])
    as (q' & E & En & _);
    [exact msg_hi_inv|reflexivity|reflexivity| |reflexivity|split; [discriminate|reflexivity]|].
  - repeat (apply Forall_cons_2; [reflexivity|]). apply Forall_nil_2.
  - exists q'. split; [exact E|exact En].
Defined.

(** *** Clients *)

Definition node_ex (id x : Z) : Node :=
  mkNode id 4 (mkArea (mkPosition x 0 0) 10 0) (mkAddr idB 1 ipB).

Ltac fits_all := splits; try done; (split; [discriminate|reflexivity]).

Lemma node_ex_valid id x : fits 64 id → fits 32 x → Node_valid (node_ex id x).
Proof.
  intros Hi Hx. unfold Node_valid, Area_valid, Position_valid, Addr_valid, IPaddr_valid. fits_all.
Qed.

(** A joined client with two neighbors; it is neighbor 40 itself. *)
Definition client_ex (m : Z) : VASTClient :=
  with_matchers (with_sub (with_known (with_state (VASTClient_new 0) JOINED)
      [node_ex 40 0; node_ex 41 0; node_ex 42 0] [(40, 100); (41, 100); (42, 3)])
    (set_active (set_sub_id (Sub_init 0) 40) true)) m idB.

Lemma client_ex_inv m : client_inv (client_ex m).
Proof.
  split; cbn.
  - repeat (apply NoDup_cons; split; [rewrite ?not_elem_of_cons; repeat split; try discriminate; by intros ?%elem_of_nil|]).
    apply NoDup_nil_2.
  - repeat (apply Forall_cons_2; [reflexivity|]). apply Forall_nil_2.
  - repeat constructor.
  - apply Forall_nil_2.
Qed.

Definition uninit_ex : uninit := mkUninit 0 [] 0 0.

Definition updates_ex : list neighbor_update :=
  [Inserted (node_ex 43 0); Deleted 41; Unchanged 40; Updated 42 (mkArea (mkPosition 0 0 0) 5 0) 4].
Definition neighbor_bytes : list byte := concat (update_wire <$> updates_ex) ++ le_bytes 1 4.

Lemma updates_ex_valid : Forall update_valid updates_ex.
Proof.
  repeat apply Forall_cons_2; [..|apply Forall_nil_2].
  - split; [split; [discriminate|reflexivity]|]. apply node_ex_valid; split; [discriminate|reflexivity|discriminate|reflexivity].
  - by split; [split; [discriminate|reflexivity]|].
  - by split; [split; [discriminate|reflexivity]|].
  - split; [split; [discriminate|reflexivity]|]. unfold Area_valid, Position_valid. fits_all.
Qed.

Lemma neighbors_refined_witness :
  ∃ q' c' msg', handle_neighbor uninit_ex 9 queueA (client_ex idB) (bytes_msg idB 0 neighbor_bytes [40])
    = Ok (q', c', msg')
  ∧ view (c_neighbors c') !! 43 = Some (node_ex 43 0) ∧ view (c_neighbors c') !! 41 = None.
Proof.
  destruct (neighbors_refined uninit_ex 9 queueA (client_ex idB) (bytes_msg idB 0 neighbor_bytes [40]) updates_ex)
    as (q' & c' & m' & E & _ & V & _);
    [exact hostA_net|apply client_ex_inv|apply bytes_msg_inv|reflexivity|exact updates_ex_valid|reflexivity
    |apply bytes_msg_content|].
  exists q', c', m'. split; [exact E|]. rewrite V. split; vm_compute; reflexivity.
Defined.

Lemma publish_queues_witness :
  ∃ v' m, VC_publish 5 queueA (client_ex idB) (mkArea (mkPosition 0 0 0) 5 0) 1 (with_targets msg_hi [])
    = Ok (with_net queueA v', client_ex idB, true)
  ∧ outq v' (rel m) idB = framed REGULAR m
  ∧ content m = content msg_hi ++ le_bytes 8 5 ++ wire (mkArea (mkPosition 0 0 0) 5 0) ++ le_bytes 2 1.
Proof.
  destruct (publish_queues 5 queueA (client_ex idB) (mkArea (mkPosition 0 0 0) 5 0) 1 (with_targets msg_hi []))
    as (v' & m & E & (_ & _ & _ & _ & Q) & R); [reflexivity|apply reach_B; reflexivity|exact msg_hi_inv|reflexivity|].
  exists v', m. split; [exact E|]. split; [|apply (rq_content _ _ _ _ _ _ _ R)].
  rewrite (Q (rel m) idB). change (host_of queueA (matcher_id (client_ex idB))) with idB. rewrite Z.eqb_refl, andb_true_r.
  rewrite Bool.eqb_reflx, queueA_empty. reflexivity.
Defined.

(** The matcher [hostA] is disconnected, [hostB] takes over. *)
Lemma matcher_failover_witness :
  ∃ c1 msg1, VC_handleMessage uninit_ex 5 (mkRelayView true idB 0) queueA (client_ex idA)
      (bytes_msg idA DISCONNECT [] []) = Ok (queueA, c1, msg1, true)
  ∧ ∃ v' c2 m, VC_postHandling 6 10 (mkRelayView true idB 0) queueA c1 = Ok (with_net queueA v', c2)
    ∧ msgtype m = code SUBSCRIBE ∧ outq v' (rel m) idB = framed REGULAR m ∧ matcher_id c2 = idB.
Proof.
  destruct (matcher_failover uninit_ex 5 queueA (mkRelayView true idB 0) (client_ex idA)
    (bytes_msg idA DISCONNECT [] []) 6 10 (mkRelayView true idB 0) queueA)
    as (c1 & m1 & E & _ & _ & v' & c2 & m & E2 & (_ & _ & _ & _ & Q) & R & M & _);
    [reflexivity|reflexivity|reflexivity|discriminate|discriminate|discriminate|reflexivity
    |apply reach_B; reflexivity|].
  exists c1, m1. split; [exact E|]. exists v', c2, m. split; [exact E2|].
  split; [apply (rq_type _ _ _ _ _ _ _ R)|]. split; [|exact M].
  rewrite (Q (rel m) idB), Bool.eqb_reflx, queueA_empty.
  change (host_of queueA (closest_id (client_ex idA))) with idB. reflexivity.
Defined.

(** Neighbor 42 has been silent since 3. *)
Lemma ghosts_removed_witness :
  c_neighbors (removeGhosts (client_ex idA) 101 10 1) = [node_ex 40 0; node_ex 41 0]
  ∧ matcher_id (removeGhosts (client_ex idA) 101 10 1) = idA.
Proof.
  destruct (ghosts_removed (client_ex idA) 101 10 1) as (_ & E & M); [apply client_ex_inv|reflexivity|].
  split; [rewrite E; vm_compute; reflexivity|]. apply M.
Defined.

(** *** Relays *)

Definition relay_uninit_ex : relay_uninit := mkRelayUninit 0 0 0 0 0.

(** All indices, one after the other *)
Definition rand_ex (total : nat) : list nat := seq 0 total.

Lemma rand_ex_rich : rich rand_ex.
Proof.
  intros total i Hi. exists i. split; [|by apply Nat.mod_small].
  unfold rand_ex. apply elem_of_seq. lia.
Qed.

(** A relay with room for one client, and a node that wants to join a relay; both know
    relay 50. *)
Definition relay_ex (as_relay : bool) (s : NodeState) : VASTRelay :=
  set_relays (set_state (VASTRelay_new as_relay 1 0 (Some (mkPosition 0 0 0)) (mkPosition 0 0 0)) s)
    [(50, node_ex 50 0)] [(f32_of_bits 0, 50)].

Lemma relay_ex_inv b s : relay_inv (relay_ex b s).
Proof.
  split; cbn; try done; [repeat constructor| |constructor].
  apply Forall_cons_2; [reflexivity|apply Forall_nil_2].
Qed.

Lemma good_ex b s : good queueA (relay_ex b s).
Proof. split; [exact hostA_net|apply relay_ex_inv]. Qed.

Lemma relay_query_ends_witness :
  ∃ q' r' msg', handle_relay_query 5 queueA (relay_ex true JOINED)
    (bytes_msg idB 0 (wire (node_ex 60 0) ++ wire (mkAddr idB 1 ipB)) [idA]) = Ok (q', r', msg').
Proof.
  destruct (relay_query_ends 5 queueA (relay_ex true JOINED)
    (bytes_msg idB 0 (wire (node_ex 60 0) ++ wire (mkAddr idB 1 ipB)) [idA]))
    as (m1 & j & k1 & m2 & a & k2 & _ & _ & q1 & r1 & m3 & q' & r' & m' & E & _);
    [apply good_ex|apply bytes_msg_inv|].
  exists q', r', m'. exact E.
Defined.

(** A node asks to join. *)
Definition join_ex (id : Z) : Message :=
  bytes_msg idB (code RELAY_JOIN) (wire (node_ex id 0) ++ le_bytes 1 0) [idA].
Definition joined_by (id : Z) := R_handleMessage relay_uninit_ex rand_ex 5 10 queueA (relay_ex true JOINED) (join_ex id).

Lemma clients_bounded_witness :
  match joined_by 60 with
  | Ok (_, r', _, _) => Z.of_nat (length (other_clients r')) ≤ client_limit r'
  | Fail _ => False
  end.
Proof.
  destruct (joined_by 60) as [[[[q' r'] m'] ok]|f] eqn:E.
  - apply (clients_bounded relay_uninit_ex rand_ex 5 10 queueA (relay_ex true JOINED) (join_ex 60) q' r' m' ok);
      [exact rand_ex_rich|apply good_ex|apply bytes_msg_inv|exact E|].
    intros E0. assert (Ec : match joined_by 60 with Ok (_, r', _, _) => client_limit r' | _ => 0 end = 1)
      by (vm_compute; reflexivity). rewrite E in Ec. rewrite Ec in E0. discriminate.
  - vm_compute in E. discriminate.
Defined.

(** The node 50 at a position that is not a number *)
Lemma relay_nan_fails_witness :
  R_handleMessage relay_uninit_ex rand_ex 5 10 queueA (relay_ex true JOINED)
    (bytes_msg idB (app_type 0 RELAY) (le_bytes 1 1 ++ wire (node_ex 50 0x7FC00000) ++ []) [idA])
  = Fail BadOrder.
Proof.
  apply (relay_nan_fails relay_uninit_ex rand_ex 5 10 0 queueA (relay_ex true JOINED) _ (node_ex 50 0x7FC00000) []);
    [apply bytes_msg_inv|reflexivity| |discriminate|reflexivity|apply bytes_msg_content].
  apply node_ex_valid; split; [discriminate|reflexivity|discriminate|reflexivity].
Defined.

(** Subscription 7 turns out to be at [hostB]. *)
Lemma unknown_target_delivered_witness :
  ∃ r1 msg1, handle_forward 5 10 3 queueA (relay_ex true JOINED) (bytes_msg idA (code NEIGHBOR) [Byte.x41] [7])
    = Ok (queueA, r1, msg1, false)
  ∧ ∃ v' m r2 note', handle_subscribe_notify relay_uninit_ex 6 queueA r1
      (bytes_msg idB 0 (le_bytes 8 7 ++ le_bytes 8 idB ++ []) [idA]) = Ok (with_net queueA v', r2, note')
    ∧ outq v' (rel m) idB = framed REGULAR m ∧ content m = [Byte.x41] ∧ targets m = [idB].
Proof.
  destruct (unknown_target_delivered relay_uninit_ex 5 10 3 queueA (relay_ex true JOINED)
    (bytes_msg idA (code NEIGHBOR) [Byte.x41] [7]) 7) as (r1 & m1 & E & D);
    [apply bytes_msg_inv|reflexivity|reflexivity|apply Forall_nil_2|].
  exists r1, m1. split; [exact E|].
  destruct (D 6 queueA (bytes_msg idB 0 (le_bytes 8 7 ++ le_bytes 8 idB ++ []) [idA]) idB [])
    as (v' & m & r2 & n' & E2 & (_ & _ & _ & _ & Q) & C & _ & _ & _ & T & _);
    [apply reach_B; reflexivity|discriminate|apply bytes_msg_inv|split; [discriminate|reflexivity]
    |split; [discriminate|reflexivity]|apply bytes_msg_content|].
  exists v', m, r2, n'. split; [exact E2|]. split; [|split; [exact C|exact T]].
  rewrite (Q (rel m) idB), Bool.eqb_reflx, queueA_empty. reflexivity.
Defined.

Lemma join_completes_witness :
  ∃ q' r' msg', R_handleMessage relay_uninit_ex rand_ex 5 10 queueA (relay_ex false JOINING)
    (bytes_msg 50 (app_type 0 RELAY_JOIN_R) (le_bytes 1 1 ++ []) [idA]) = Ok (q', r', msg', true)
  ∧ R_isJoined r' = true ∧ default_host q' = 50.
Proof.
  destruct (join_completes relay_uninit_ex rand_ex 5 10 0 queueA (relay_ex false JOINING)
    (bytes_msg 50 (app_type 0 RELAY_JOIN_R) (le_bytes 1 1 ++ []) [idA]) 50 (node_ex 50 0) 1 [])
    as (q' & r' & m' & E & J & _ & D & _);
    [discriminate|reflexivity|reflexivity|apply bytes_msg_inv|reflexivity|reflexivity|discriminate
    |reflexivity|split; [discriminate|reflexivity]|discriminate|apply bytes_msg_content|].
  exists q', r', m'. split; [exact E|]. split; [exact J|exact D].
Defined.

(** *** A whole node *)

(** A relay message that has arrived and waits *)
Definition waiting : Message := bytes_msg idB (code RELAY) (le_bytes 1 1 ++ wire (node_ex 51 0)) [idA].
Definition netA : VASTnet udp_link :=
  with_inq hostA (set_full (inq hostA) [(1, mkFull idB 4 waiting)] (in_recvmsg (inq hostA))).
Definition handlersA : list (Z * node_handler) :=
  [(MSG_GROUP_VAST_CLIENT, HClient (client_ex idB)); (MSG_GROUP_VAST_RELAY, HRelay (relay_ex true JOINED))].
Definition nodeA : MessageQueue udp_link node_handler := mkMQ (with_net queueA netA) handlersA.

Lemma netA_inv : net_inv netA.
Proof.
  split; [exact hostA_ready|apply new_bufs_ok|reflexivity|].
  apply Forall_cons_2; [apply bytes_msg_inv|apply Forall_nil_2].
Qed.

#[local] Instance handlers_ex : MessageHandler udp_link node_handler :=
  node_handlers uninit_ex relay_uninit_ex rand_ex.
#[local] Instance safe_ex : SafeHandler udp_link node_handler :=
  node_safe_handlers uninit_ex relay_uninit_ex rand_ex rand_ex_rich.

Lemma nodeA_inv : node_inv nodeA.
Proof.
  split; [exact netA_inv|]. apply Forall_cons_2; [apply client_ex_inv|].
  apply Forall_cons_2; [apply relay_ex_inv|apply Forall_nil_2].
Qed.


(** The relay is called with the message for its group; of three targets, one is not for this host. *)
Definition observedA : MessageQueue udp_link (logged node_handler) :=
  mkMQ (with_net queueA netA) ((λ p, (fst p, mkLog (snd p) [])) <$> handlersA).
Definition for_relay : Message := with_targets (set_group waiting MSG_GROUP_VAST_RELAY) [5; idA; 77].

Lemma handlers_isolated_witness :
  processMessages 3 5 10 nodeA = ('(s, k) ← processMessages 3 5 10 observedA; Ok (erased s, k))
  ∧ ∃ s' k h', process_message 5 10 observedA for_relay idB = Ok (s', k)
    ∧ find MSG_GROUP_VAST_RELAY (handlers s') = Some h'
    ∧ call_msg <$> calls h' = [with_targets for_relay [idA; 77]].
Proof.
  destruct (handlers_isolated 3 5 10 observedA) as (E & _ & A).
  - apply Forall_cons_2; [apply Forall_nil_2|]. apply Forall_cons_2; [apply Forall_nil_2|apply Forall_nil_2].
  - split; [exact E|]. destruct (process_message 5 10 observedA for_relay idB) as [[s' k]|] eqn:Ep; [|vm_compute in Ep; discriminate Ep].
    destruct (A for_relay idB s' k (mkLog (HRelay (relay_ex true JOINED)) [])) as (h' & Eh & Ec);
      [vm_compute; discriminate|vm_compute; discriminate|reflexivity|vm_compute; discriminate|exact Ep|].
    exists s', k, h'. split; [reflexivity|]. split; [exact Eh|]. rewrite Ec. reflexivity.
Defined.
