(* ===== verification/Built.v ===== *)
(** Messages that are built item by item and sent to one target: what leaves. *)

From S2P Require Import Prelude Bytes StdMap Float Serial Subscription Message VastBuffer NetManager.
From S2P Require Import NetInterface VastNet VastSend MessageQueue Routing QueueSafe.
From S2P Require Import Readable Handlers Client ClientSafe ClientFlow.
Local Open Scope Z_scope.

(** A message as it leaves *)
Record built (ty group : Z) (ts : list Z) (bs : list byte) (m : Message) : Prop := mk_built {
  bl_inv : Message_inv m;
  bl_type : msgtype m = ty;
  bl_group : msggroup m = group;
  bl_targets : targets m = ts;
  bl_content : content m = bs }.

Lemma store_built ty group ts bs m x : built ty group ts bs m → malloc m = true →
  ∃ m', store m x false = Ok (m', true) ∧ built ty group ts (bs ++ x) m' ∧ malloc m' = true.
Proof.
  intros [I T G Ts C] Ha. destruct (store_spec m x false I Ha) as (m' & E & I' & C' & _ & (_ & T' & G' & _ & _ & Ts' & A')).
  exists m'. split; [exact E|]. split; [|congruence]. split; try congruence. by rewrite C', C.
Qed.

Lemma store_obj_built {A} `{SerializableLaws A} ty group ts bs m (x : A) : built ty group ts bs m → malloc m = true →
  ∃ m', store_obj m x = Ok (m', true) ∧ built ty group ts (bs ++ wire x) m' ∧ malloc m' = true.
Proof.
  intros [I T G Ts C] Ha. destruct (store_obj_spec m x I) as (m' & E & I' & C' & _ & (_ & T' & G' & _ & _ & Ts' & A')).
  exists m'. split; [exact E|]. split; [|congruence]. split; congruence.
Qed.

Lemma new_built t p : built (code t) 0 [] [] (set_priority (new_msg t) p).
Proof. split; try done. Qed.

Lemma new_msg_built t : built (code t) 0 [] [] (new_msg t).
Proof. by split. Qed.

Lemma group_built ty g g' ts bs m : built ty g ts bs m → built ty g' ts bs (set_group m g').
Proof. intros []. by split. Qed.

Lemma targets_built ty g ts ts' bs m : built ty g ts bs m → built ty g ts' bs (with_targets m ts').
Proof. intros []. by split. Qed.

Lemma addTarget_built ty g bs m t : built ty g [] bs m → built ty g [t] bs (addTarget m t).
Proof. intros [I T G Ts C]. unfold addTarget. rewrite Ts. by split. Qed.

Section built.
Context {N : Type} `{NetManagerLaws N}.
Implicit Types (q : mqueue N).

Lemma filled_built ty group ts bs v m : built ty group ts bs m → built ty group ts bs (filled v m).
Proof. intros []. unfold filled. destruct (from m =? 0); by split. Qed.

(** One target; a message without a group gets that of the handler. *)
Lemma handler_sends now q own t ty gr bs m : reachable q t → built ty gr [t] bs m →
  ∃ v' m', handler_sendMessage now q own m = Ok (with_net q v', m', [], 1) ∧ sends q v' t m'
  ∧ built ty (if gr =? 0 then own else gr) [t] bs m'.
Proof.
  intros Hr B. unfold handler_sendMessage. rewrite (bl_targets _ _ _ _ _ B), (bl_group _ _ _ _ _ B).
  set (m1 := if gr =? 0 then _ else m).
  assert (B1 : built ty (if gr =? 0 then own else gr) [t] bs m1).
  { unfold m1. destruct (gr =? 0); [by eapply group_built|done]. }
  destruct (MQ_send_one now q m1 t Hr) as (v' & E & S); [apply B1..|].
  exists v', (filled (net q) m1). split; [exact E|]. split; [done|by apply filled_built].
Qed.
End built.
