(* ===== verification/Gateway.v ===== *)
(** The gateway's part of VAST/VASTMatcher.cpp: which matcher is the origin of which world.
    Hosts announce themselves as candidates; a client that joins a world without an origin
    has a candidate promoted, and is told the origin when that one is alive.

    A gateway is a matcher whose host is the gateway's; the members below are used on it
    only (VAST/VASTMatcher.h says so). [MatcherInfo ()] made by [operator[]] is zeroed: its
    state is none of the enumeration ([None]). Writing to the log file is left out. *)

From S2P Require Import Prelude Bytes StdMap Float Serial Subscription Message VastBuffer NetManager.
From S2P Require Import NetInterface VastNet MessageQueue Handlers.
Local Open Scope Z_scope.

Inductive MatcherState := CANDIDATE | PROMOTING | ACTIVE | ORIGIN.

#[export] Instance MatcherState_eq_dec : EqDecision MatcherState.
Proof. solve_decision. Defined.

Record MatcherInfo := mkInfo {
  mi_state : option MatcherState; mi_world : Z; mi_addr : Addr; mi_time : Z }.

Definition MatcherInfo_init : MatcherInfo := mkInfo None 0 Addr_null 0.

Definition VAST_DEFAULT_WORLD_ID : Z := 1.

Record gateway_state := mkGW {
  world_counter : Z;
  origins : list (Z * Z);
  matchers : list (Z * MatcherInfo);
  requests : list (Z * list Z) }.

Definition gateway_new : gateway_state := mkGW (VAST_DEFAULT_WORLD_ID + 1) [] [] [].

Definition set_counter g c := mkGW c (origins g) (matchers g) (requests g).
Definition set_origins g o := mkGW (world_counter g) o (matchers g) (requests g).
Definition set_matchers g m := mkGW (world_counter g) (origins g) m (requests g).
Definition set_waiting g r := mkGW (world_counter g) (origins g) (matchers g) r.

Definition info_state (i : MatcherInfo) s := mkInfo (Some s) (mi_world i) (mi_addr i) (mi_time i).
Definition state_is (s : MatcherState) (i : MatcherInfo) : bool := bool_decide (mi_state i = Some s).

(** [_TIMEOUT_MATCHER_KEEPALIVE_] *)
Definition TIMEOUT_MATCHER_KEEPALIVE (ms : Z) : Z := Z.quot (1000 * ms) 1000.

(** [isOriginMatcher (id)] *)
Definition isOriginMatcher (g : gateway_state) (id : Z) : bool :=
  match find id (matchers g) with
  | Some i => match find (mi_world i) (origins g) with Some o => o =? id | None => false end
  | None => false
  end.

(** [storeRequestingClient (world_id, client_id)] *)
Definition storeRequestingClient (g : gateway_state) (world client : Z) : gateway_state :=
  let l := default [] (find world (requests g)) in
  set_waiting g (set world (if memb client l then l else l ++ [client]) (requests g)).

(** [findCandidate (new_origin)] *)
Fixpoint first_with (p : MatcherInfo → bool) (l : list (Z * MatcherInfo)) : option (Z * MatcherInfo) :=
  match l with
  | [] => None
  | (k, i) :: l => if p i then Some (k, i) else first_with p l
  end.

Definition findCandidate (g : gateway_state) : option (gateway_state * Addr) :=
  match first_with (state_is CANDIDATE) (matchers g) with
  | None => None
  | Some (k, i) => Some (set_matchers g (set k (info_state i PROMOTING) (matchers g)), mi_addr i)
  end.

(** The search for a world that has no origin *)
Fixpoint free_world (fuel : nat) (counter : Z) (o : list (Z * Z)) : outcome Z :=
  if negb (has counter o) then Ok counter else
  match fuel with
  | O => Fail Diverges
  | S fuel =>
      let c := u16 (counter + 1) in
      free_world fuel (if c =? 0 then VAST_DEFAULT_WORLD_ID + 1 else c) o
  end.

(** Local variables that the code leaves uninitialised when a message is too short *)
Record gw_uninit := mkGwUninit { gu_bool : Z; gu_world : Z; gu_id : Z; gu_time : Z }.

Section gateway.
Context {N : Type} `{NetManager N} (junk : gw_uninit).
Implicit Types (q : mqueue N) (g : gateway_state).

Definition matcher_send (now : Z) q (msg : Message) := handler_sendMessage now q MSG_GROUP_VAST_MATCHER msg.

(** [initMatcher (world_id, origin_id, target)] *)
Definition initMatcher (now : Z) q (world origin target : Z) : outcome (mqueue N * bool) :=
  '(msg, _) ← store_int 2 (set_priority (new_msg MATCHER_INIT) 1) world;
  '(msg, _) ← store_int 8 msg origin;
  '(q, _, _, num) ← matcher_send now q (addTarget msg target);
  Ok (q, 0 <? num).

(** The reply of a gateway to clients: the address of the origin matcher *)
Definition notify_clients (now : Z) q (a : Addr) (cs : list Z) : outcome (mqueue N) :=
  '(msg, _) ← store_obj (set_group (set_priority (new_msg NOTIFY_MATCHER) 1) MSG_GROUP_VAST_CLIENT) a;
  '(q, _, _, _) ← matcher_send now q (with_targets msg cs);
  Ok q.

(** [originDisconnected (matcher_id)] *)
Definition originDisconnected (now : Z) q g (id : Z) : outcome (mqueue N * gateway_state) :=
  match find id (matchers g) with
  | None => Ok (q, g)
  | Some i =>
      let w := mi_world i in
      let ms := erase id (matchers g) in
      match first_with (λ i, (mi_world i =? w) && state_is ACTIVE i) ms with
      | Some (k, b) =>
          '(q, _) ← initMatcher now q w (host_id (mi_addr b)) (host_id (mi_addr b));
          Ok (q, mkGW (world_counter g) (set w k (origins g)) (set k (info_state b ORIGIN) ms) (requests g))
      | None => Ok (q, mkGW (world_counter g) (erase w (origins g)) ms (requests g))
      end
  end.

(** *** The messages *)

(** [MATCHER_CANDIDATE] *)
Definition handle_candidate (now : Z) q g (msg : Message) : outcome (gateway_state * Message) :=
  '(msg, a, _) ← extract_obj msg Addr_null false;
  Ok (if has (host_id a) (matchers g) then g
      else set_matchers g (set (host_id a) (mkInfo (Some CANDIDATE) 0 a (timestamp now q)) (matchers g)), msg).

(** The loop of [JOIN]: candidates are promoted until one can be reached. *)
Fixpoint promote (fuel : nat) (now : Z) q g (world : Z) : outcome (mqueue N * gateway_state * bool) :=
  match findCandidate g with
  | None => Ok (q, g, false)
  | Some (g, a) =>
      match fuel with
      | O => Fail Diverges
      | S fuel =>
          '(q, ok) ← initMatcher now (notifyMapping q (host_id a) a) world (host_id a) (host_id a);
          if ok : bool then Ok (q, set_origins g (set world (host_id a) (origins g)), true)
          else promote fuel now q g world
      end
  end.

Definition WORLDS : nat := Z.to_nat (2 ^ 16).

(** The world a client asks for; 0 is a new one. *)
Definition join_world g (world : Z) : outcome (gateway_state * Z) :=
  if world =? 0 then
    w ← free_world WORLDS (world_counter g) (origins g);
    Ok (set_counter g (u16 (w + 1)), w)
  else Ok (g, world).

(** A client is told the origin of a world that has one, or waits for it. *)
Definition join_origin (now : Z) q g (world client : Z) : outcome (mqueue N * gateway_state) :=
  match find world (origins g) with
  | None =>
      '(q, g, ok) ← promote (length (matchers g)) now q g world;
      Ok (q, if ok : bool then storeRequestingClient g world client else g)
  | Some id =>
      match find id (matchers g) with
      | None => Ok (q, if id =? 0 then set_origins g (erase world (origins g)) else g)
      | Some i =>
          if state_is PROMOTING i then Ok (q, storeRequestingClient g world client)
          else q ← notify_clients now q (mi_addr i) [client]; Ok (q, g)
      end
  end.

(** [JOIN] *)
Definition handle_join (now : Z) q g (msg : Message) : outcome (mqueue N * gateway_state * Message) :=
  '(msg, world, _) ← extract_int 2 msg (gu_world junk) false;
  '(g, world) ← join_world g world;
  '(q, g) ← join_origin now q g world (from msg);
  Ok (q, g, msg).

(** *** [MATCHER_ALIVE] *)

(** The world of the sender; [None] if it cannot be found. *)
Definition alive_world g (world origin : Z) : option Z :=
  if world =? 0 then
    match find origin (matchers g) with
    | Some i => if mi_world i =? 0 then None else Some (mi_world i)
    | None => None
    end
  else Some world.

(** The reply to a matcher that does not know its world; [_matchers[origin_id]] inserts. *)
Definition world_info (now : Z) q g (world origin target : Z) : outcome (mqueue N * gateway_state) :=
  let i := default MatcherInfo_init (find origin (matchers g)) in
  '(msg, _) ← store_int 2 (set_priority (new_msg MATCHER_WORLD_INFO) 1) world;
  '(msg, _) ← store_obj msg (mi_addr i);
  '(q, _, _, _) ← matcher_send now q (addTarget msg target);
  Ok (q, set_matchers g (set origin i (matchers g))).

(** A live origin: waiting clients are told, the origin of the world is recorded. *)
Definition origin_alive (now : Z) q g (world id : Z) (a : Addr) : outcome (mqueue N * gateway_state) :=
  q ← match find world (requests g) with Some cs => notify_clients now q a cs | None => Ok q end;
  Ok (q, mkGW (world_counter g) (set world id (origins g)) (matchers g) (erase world (requests g))).

(** What becomes of a matcher's record. *)
Definition alive_known (now : Z) q g (world id origin fr : Z) (i : MatcherInfo)
    : outcome (mqueue N * gateway_state) :=
  let put i := set_matchers g (set id i (matchers g)) in
  if id =? origin then
    if state_is PROMOTING i || state_is ORIGIN i then
      origin_alive now q (put (info_state i ORIGIN)) world id (mi_addr i)
    else match find world (origins g) with
         | None => origin_alive now q (put (info_state i ORIGIN)) world id (mi_addr i)
         | Some o => '(q, _) ← initMatcher now q world o fr; Ok (q, put i)
         end
  else Ok (q, put (if state_is CANDIDATE i || state_is PROMOTING i then info_state i ACTIVE else i)).

(** The record is refreshed, or made for a matcher that is not known. *)
Definition alive_record (now : Z) q g (world id origin fr : Z) (a : Addr)
    : outcome (mqueue N * gateway_state) :=
  let fresh s := mkInfo s world a (timestamp now q) in
  let refresh i := mkInfo (mi_state i) world (if Addr_eqb (mi_addr i) a then mi_addr i else a) (timestamp now q) in
  match find id (matchers g) with
  | Some i => alive_known now q g world id origin fr (refresh i)
  | None =>
      match find world (origins g) with
      | Some o => '(q, _) ← initMatcher now q world o fr; Ok (q, g)
      | None => alive_known now q g world id origin fr (fresh (Some ACTIVE))
      end
  end.

(** The fields that are read *)
Definition alive_fields (msg : Message) : outcome (Message * (Z * Z * Addr * Z)) :=
  '(msg, reply, _) ← extract_int 1 msg (gu_bool junk) false;
  '(msg, world, _) ← extract_int 2 msg (gu_world junk) false;
  '(msg, a, _) ← extract_obj msg Addr_null false;
  '(msg, origin, _) ← extract_int 8 msg (gu_id junk) false;
  '(msg, _, _) ← extract_int 8 msg (gu_id junk) false;
  '(msg, _, _) ← extract_int 8 msg (gu_id junk) false;
  Ok (msg, (reply, world, a, origin)).

Definition handle_alive (now : Z) q g (msg : Message) : outcome (mqueue N * gateway_state * Message) :=
  '(msg, (reply, world, a, origin)) ← alive_fields msg;
  match alive_world g world origin with
  | None => Ok (q, g, msg)
  | Some world =>
      '(q, g) ← (if negb (reply =? 0) then world_info now q g world origin (from msg) else Ok (q, g));
      '(q, g) ← alive_record now q g world (host_id a) origin (from msg) a;
      Ok (q, g, msg)
  end.

(** [SYNC_CLOCK] *)
Definition handle_sync_request (now : Z) q (msg : Message) : outcome (mqueue N * Message) :=
  '(msg, sender_time, _) ← extract_int 8 msg (gu_time junk) false;
  '(m, _) ← store_int 8 (new_msg SYNC_CLOCK) sender_time;
  '(m, _) ← store_int 8 m (timestamp now q);
  '(q, _, _, _) ← matcher_send now q (addTarget (set_group m MSG_GROUP_VAST_CLIENT) (from msg));
  Ok (q, msg).

(** The part of [DISCONNECT] that is the gateway's *)
Definition gateway_disconnect (now : Z) q g (id : Z) : outcome (mqueue N * gateway_state) :=
  if isOriginMatcher g id then originDisconnected now q g id else Ok (q, g).

(** *** Expiry *)

(** [removeExpiredMatchers ()]; the product is exact in [double] below 2^52. *)
Definition expired (now ms : Z) q (i : MatcherInfo) : bool :=
  state_is ACTIVE i
  && (u64 (mi_time i + Z.quot (3 * TIMEOUT_MATCHER_KEEPALIVE ms * per_second q) 2) <? timestamp now q).

Definition remove_matcher (now : Z) q g (id : Z) : outcome (mqueue N * gateway_state) :=
  if isOriginMatcher g id then originDisconnected now q g id
  else Ok (q, set_matchers g (erase id (matchers g))).

Fixpoint remove_matchers (now : Z) q g (ids : list Z) : outcome (mqueue N * gateway_state) :=
  match ids with
  | [] => Ok (q, g)
  | id :: ids => '(q, g) ← remove_matcher now q g id; remove_matchers now q g ids
  end.

Definition removeExpiredMatchers (now ms : Z) q g : outcome (mqueue N * gateway_state) :=
  remove_matchers now q g (fst <$> filter (λ p, expired now ms q (snd p) = true) (matchers g)).
End gateway.
