(* ===== verification/GatewaySafe.v ===== *)
(** The gateway keeps its containers ordered, never fails, and its loops end: a candidate is
    used up by each turn of the loop that promotes one, and the search for a free world
    ends if there is one. *)

From S2P Require Import Prelude Bytes StdMap Float Serial Subscription Message VastBuffer NetManager.
From S2P Require Import NetInterface VastNet VastSend MessageQueue Routing QueueSafe.
From S2P Require Import Readable Handlers RelayHandle Gateway.
Local Open Scope Z_scope.

Record gateway_inv (g : gateway_state) : Prop := mk_gateway_inv {
  gi_origins : ordered (origins g);
  gi_matchers : ordered (matchers g);
  gi_requests : ordered (requests g);
  gi_waiting : Forall (λ p, NoDup (snd p)) (requests g) }.

Lemma new_gateway_inv : gateway_inv gateway_new.
Proof. split; constructor. Qed.

Lemma matchers_inv g ms : gateway_inv g → ordered ms → gateway_inv (set_matchers g ms).
Proof. by intros []. Qed.

Lemma origins_inv g o : gateway_inv g → ordered o → gateway_inv (set_origins g o).
Proof. by intros []. Qed.

Lemma storeRequestingClient_inv g w c : gateway_inv g → gateway_inv (storeRequestingClient g w c).
Proof.
  intros [O M R W]. unfold storeRequestingClient. cbv zeta. split; cbn; try done; [by apply ordered_set|].
  assert (D : NoDup (default [] (find w (requests g)))).
  { destruct (find w (requests g)) as [l|] eqn:E; [|constructor].
    apply find_In in E. by apply (proj1 (Forall_forall _ _) W) in E. }
  apply Forall_set; [|done]. cbn. destruct (memb c _) eqn:Hc; [done|].
  apply NoDup_app. split; [done|]. split; [|apply NoDup_singleton]. apply memb_false in Hc. by intros x Hx ->%list_elem_of_singleton.
Qed.

(** *** The search for a world *)

(** Steps of the counter from [c] until it is [w]: 0 and 1 are skipped when it wraps. *)
Definition world_steps (w c : Z) : Z := if c <=? w then w - c else 2 ^ 16 - c + (w - 2).

Lemma free_world_finds w fuel c o : VAST_DEFAULT_WORLD_ID < w → fits 16 w → fits 16 c → has w o = false →
  world_steps w c ≤ Z.of_nat fuel →
  ∃ w', free_world fuel c o = Ok w' ∧ has w' o = false ∧ fits 16 w' ∧ (c ≠ 0 → w' ≠ 0).
Proof.
  unfold VAST_DEFAULT_WORLD_ID, fits, world_steps. change (2 ^ 16) with 65536.
  intros Hw [H0 H1] Hc Hf. revert c Hc. induction fuel as [|fuel IH]; intros c Hc Hs; cbn [free_world];
    destruct (has c o) eqn:Ec; cbn [negb]; try (exists c; splits; (done || lia)).
  - assert (c = w) by (destruct (Z.leb_spec c w); lia). congruence.
  - cbv zeta. assert (Hne : c ≠ w) by congruence. assert (Ew : u16 (c + 1) = if c =? 65535 then 0 else c + 1).
    { destruct (Z.eqb_spec c 65535) as [->|]; [done|]. apply wrap_id. unfold fits. change (2 ^ 16) with 65536. lia. }
    rewrite Ew. unfold VAST_DEFAULT_WORLD_ID.
    destruct (Z.eqb_spec c 65535) as [->|Hc'].
    + change (if 0 =? 0 then 1 + 1 else 0) with 2. destruct (IH 2) as (w' & -> & F & B & Z0); [lia|destruct (Z.leb_spec 65535 w), (Z.leb_spec 2 w); lia|].
      exists w'. splits; (done || lia).
    + destruct (Z.eqb_spec (c + 1) 0); [lia|].
      destruct (IH (c + 1)) as (w' & -> & F & B & Z0); [lia|destruct (Z.leb_spec c w), (Z.leb_spec (c + 1) w); lia|].
      exists w'. splits; (done || lia).
Qed.

Lemma world_steps_fuel w c : VAST_DEFAULT_WORLD_ID < w → fits 16 w → fits 16 c → world_steps w c ≤ Z.of_nat WORLDS.
Proof.
  unfold WORLDS, world_steps, VAST_DEFAULT_WORLD_ID, fits. rewrite Z2Nat.id by (change (2 ^ 16) with 65536; lia).
  change (2 ^ 16) with 65536. intros. destruct (Z.leb_spec c w); lia.
Qed.

(** Some world has no origin. *)
Definition world_free (g : gateway_state) : Prop :=
  fits 16 (world_counter g) ∧ ∃ w, VAST_DEFAULT_WORLD_ID < w ∧ fits 16 w ∧ has w (origins g) = false.

Lemma join_world_ok g w : world_free g →
  ∃ g' w', join_world g w = Ok (g', w') ∧ origins g' = origins g ∧ matchers g' = matchers g
  ∧ requests g' = requests g ∧ fits 16 (world_counter g')
  ∧ (w ≠ 0 → g' = g ∧ w' = w) ∧ (w = 0 → has w' (origins g) = false ∧ fits 16 w')
  ∧ (world_counter g ≠ 0 → w' ≠ 0).
Proof.
  intros [Fc (x & Hx & Fx & Hf)]. unfold join_world. destruct (Z.eqb_spec w 0) as [->|Hw].
  2: { exists g, w. splits; done. }
  destruct (free_world_finds x WORLDS (world_counter g) (origins g) Hx Fx Fc Hf) as (w' & -> & F & B & Z0);
    [by apply world_steps_fuel|]. rewrite bind_ok.
  eexists _, w'. split; [reflexivity|]. splits; try done. apply wrap_fits; lia.
Qed.

(** *** Candidates *)

(** How many matchers may still be promoted *)
Definition candidates (l : list (Z * MatcherInfo)) : nat :=
  length (filter (λ p, state_is CANDIDATE (snd p) = true) l).

Lemma candidates_le l : (candidates l ≤ length l)%nat.
Proof. apply length_filter. Qed.

Lemma first_with_some p l k i : first_with p l = Some (k, i) → (k, i) ∈ l ∧ p i = true.
Proof.
  induction l as [|[k' i'] l IH]; cbn [first_with]; [done|]. destruct (p i') eqn:Ep.
  - intros [= -> ->]. by split; [left|].
  - intros E. destruct (IH E). by split; [right|].
Qed.

Lemma first_with_none p l : first_with p l = None → Forall (λ x, p (snd x) = false) l.
Proof.
  induction l as [|[k i] l IH]; cbn [first_with]; [by constructor|]. destruct (p i) eqn:Ep; [done|].
  intros E. constructor; [done|]. by apply IH.
Qed.

Lemma candidates_set k i i' l : ordered l → find k l = Some i → state_is CANDIDATE i = true →
  state_is CANDIDATE i' = false → (S (candidates (set k i' l)) = candidates l)%nat.
Proof.
  intros Ho Hk Hc Hn. unfold candidates. induction Ho as [|[k' j] l Ho IH Hl]; cbn [find set] in *; [done|].
  destruct (Z.eqb_spec k k') as [->|Hne].
  - injection Hk as ->. by rewrite !filter_cons, decide_False, decide_True by (cbn; congruence).
  - destruct (Z.ltb_spec k k'); [by rewrite (find_key_lt (k', j)) in Hk by (done || cbn; lia)|].
    rewrite !filter_cons. destruct (decide _); cbn [length]; rewrite <- IH; done.
Qed.

Lemma findCandidate_some g g' a : gateway_inv g → findCandidate g = Some (g', a) →
  ∃ k i, find k (matchers g) = Some i ∧ state_is CANDIDATE i = true ∧ a = mi_addr i
  ∧ first_with (state_is CANDIDATE) (matchers g) = Some (k, i)
  ∧ g' = set_matchers g (set k (info_state i PROMOTING) (matchers g)) ∧ gateway_inv g'
  ∧ (S (candidates (matchers g')) = candidates (matchers g))%nat.
Proof.
  intros I. unfold findCandidate. destruct (first_with _ _) as [[k i]|] eqn:E; [|done]. intros [= <- <-].
  pose proof E as E'. apply first_with_some in E as [Hin Hs]. apply In_find in Hin; [|apply I].
  exists k, i. splits; try done; [apply matchers_inv; [done|]; apply ordered_set, I|].
  cbn. by apply (candidates_set k i); [apply I| | |].
Qed.

(** *** Sending *)

Section gateway.
Context {N : Type} `{NetManagerLaws N} (junk : gw_uninit).
Implicit Types (q : mqueue N) (g : gateway_state).

Definition gw_good q g : Prop := net_inv (net q) ∧ gateway_inv g.

Hint Resolve addTarget_inv : core.

Lemma matcher_send_ok now q msg : net_inv (net q) → Message_inv msg →
  ∃ q' msg' failed k, matcher_send now q msg = Ok (q', msg', failed, k) ∧ q_sent q q'.
Proof.
  intros I Hm. destruct (QueueSafe.handler_send_safe now q MSG_GROUP_VAST_MATCHER msg I Hm)
    as (q' & m' & f & k & E & Q & _). by exists q', m', f, k.
Qed.

Lemma initMatcher_ok now q w o t : net_inv (net q) →
  ∃ q' ok, initMatcher now q w o t = Ok (q', ok) ∧ q_sent q q'.
Proof.
  intros I. unfold initMatcher. step_store W. step_store W1.
  destruct (matcher_send_ok now q (addTarget x1 t) I) as (q' & m' & f & k & -> & Q); [by apply addTarget_inv|].
  rewrite bind_ok. by eexists q', _.
Qed.

Lemma notify_clients_ok now q a cs : net_inv (net q) → ∃ q', notify_clients now q a cs = Ok q' ∧ q_sent q q'.
Proof.
  intros I. unfold notify_clients. step_store W.
  destruct (matcher_send_ok now q (with_targets x cs) I) as (q' & m' & f & k & -> & Q); [done|].
  rewrite bind_ok. by exists q'.
Qed.

(** *** The operations *)

Lemma originDisconnected_ok now q g id : gw_good q g →
  ∃ q' g', originDisconnected now q g id = Ok (q', g') ∧ gw_good q' g'.
Proof.
  intros [In I]. unfold originDisconnected. destruct (find id (matchers g)) as [i|]; [|by exists q, g].
  cbv zeta. destruct I. destruct (first_with _ _) as [[k b]|].
  - destruct (initMatcher_ok now q (mi_world i) (host_id (mi_addr b)) (host_id (mi_addr b)) In) as (q' & ok & -> & Q).
    rewrite bind_ok. eexists q', _. split; [reflexivity|]. split; [apply Q|]. split; cbn; auto with vast.
  - eexists q, _. split; [reflexivity|]. split; [done|]. split; cbn; auto with vast.
Qed.

Lemma promote_ok fuel now q g w : gw_good q g → (candidates (matchers g) ≤ fuel)%nat →
  ∃ q' g' ok, promote fuel now q g w = Ok (q', g', ok) ∧ gw_good q' g'.
Proof.
  revert q g. induction fuel as [|fuel IH]; intros q g [In I] Hf; cbn [promote];
    destruct (findCandidate g) as [[g1 a]|] eqn:Ef; try (by exists q, g, false);
    destruct (findCandidate_some g g1 a I Ef) as (k & i & _ & _ & _ & _ & E & I1 & Hc); [lia|].
  destruct (initMatcher_ok now (notifyMapping q (host_id a) a) w (host_id a) (host_id a)) as (q1 & ok & -> & Q);
    [by apply notify_inv|].
  rewrite bind_ok. destruct ok.
  - eexists q1, _, true. split; [reflexivity|]. split; [apply Q|]. apply origins_inv; [done|]. apply ordered_set, I1.
  - apply IH; [split; [apply Q|done]|lia].
Qed.

Lemma handle_candidate_ok now q g msg : gw_good q g → Message_inv msg →
  ∃ g' msg', handle_candidate now q g msg = Ok (g', msg') ∧ gateway_inv g' ∧ Message_inv msg'.
Proof.
  intros [In I] M. unfold handle_candidate. step_read R. eexists _, _. split; [reflexivity|]. split; [|done].
  destruct (has _ _); [done|]. apply matchers_inv; [done|]. apply ordered_set, I.
Qed.

Lemma join_origin_ok now q g w c : gw_good q g →
  ∃ q' g', join_origin now q g w c = Ok (q', g') ∧ gw_good q' g'.
Proof.
  intros [In I]. unfold join_origin. destruct (find w (origins g)) as [id|].
  - destruct (find id (matchers g)) as [i|].
    + destruct (state_is PROMOTING i).
      * eexists q, _. split; [reflexivity|]. split; [done|by apply storeRequestingClient_inv].
      * destruct (notify_clients_ok now q (mi_addr i) [c] In) as (q' & -> & Q). rewrite bind_ok.
        exists q', g. split; [done|]. split; [apply Q|done].
    + eexists q, _. split; [reflexivity|]. split; [done|]. destruct (_ =? 0); [|done].
      apply origins_inv; [done|]. apply ordered_erase, I.
  - destruct (promote_ok (length (matchers g)) now q g w) as (q' & g' & ok & -> & G); [done|apply candidates_le|].
    rewrite bind_ok. cbn beta iota. eexists q', _. split; [reflexivity|]. split; [apply G|].
    destruct ok; [apply storeRequestingClient_inv|]; apply G.
Qed.

Lemma gw_join_ok now q g msg : gw_good q g → world_free g → Message_inv msg →
  ∃ q' g' msg', handle_join junk now q g msg = Ok (q', g', msg') ∧ gw_good q' g' ∧ Message_inv msg'.
Proof.
  intros [In I] F M. unfold handle_join. step_read R.
  match goal with |- context [join_world g ?w] =>
    destruct (join_world_ok g w F) as (g1 & w' & -> & E1 & E2 & E3 & _) end.
  rewrite bind_ok. cbn beta iota.
  match goal with |- context [join_origin now q g1 w' ?c] =>
    destruct (join_origin_ok now q g1 w' c) as (q' & g' & -> & G) end.
  { split; [done|]. destruct I. split; congruence. }
  rewrite bind_ok. cbn beta iota. eexists q', g', _. by split.
Qed.

Lemma alive_fields_ok msg : Message_inv msg →
  ∃ msg' f, alive_fields junk msg = Ok (msg', f) ∧ Message_inv msg'.
Proof.
  intros M. unfold alive_fields. step_read R1. step_read R2. step_read R3. step_read R4. step_read R5. step_read R6.
  eexists _, _. by split.
Qed.

Lemma world_info_ok now q g w o t : gw_good q g →
  ∃ q' g', world_info now q g w o t = Ok (q', g') ∧ gw_good q' g'
  ∧ g' = set_matchers g (set o (default MatcherInfo_init (find o (matchers g))) (matchers g)).
Proof.
  intros [In I]. unfold world_info. cbv zeta. step_store W. step_store W1.
  destruct (matcher_send_ok now q (addTarget x1 t) In) as (q' & m' & f & k & -> & Q); [by apply addTarget_inv|].
  rewrite bind_ok. cbn beta iota. eexists q', _. split; [reflexivity|]. split; [|done]. split; [apply Q|].
  apply matchers_inv; [done|]. apply ordered_set, I.
Qed.

Lemma origin_alive_ok now q g w id a : gw_good q g →
  ∃ q', origin_alive now q g w id a
    = Ok (q', mkGW (world_counter g) (set w id (origins g)) (matchers g) (erase w (requests g)))
  ∧ net_inv (net q').
Proof.
  intros [In I]. unfold origin_alive. destruct (find w (requests g)) as [cs|].
  - destruct (notify_clients_ok now q a cs In) as (q' & -> & Q). rewrite bind_ok. exists q'. split; [done|apply Q].
  - rewrite bind_ok. by exists q.
Qed.

Lemma alive_known_ok now q g w id o fr i : gw_good q g →
  ∃ q' g', alive_known now q g w id o fr i = Ok (q', g') ∧ gw_good q' g'.
Proof.
  intros [In I]. unfold alive_known. cbv zeta.
  assert (P : ∀ j, gateway_inv (set_matchers g (set id j (matchers g)))).
  { intros j. apply matchers_inv; [done|]. apply ordered_set, I. }
  assert (A : ∀ j a, ∃ q' g', origin_alive now q (set_matchers g (set id j (matchers g))) w id a = Ok (q', g')
                              ∧ gw_good q' g').
  { intros j a. destruct (origin_alive_ok now q (set_matchers g (set id j (matchers g))) w id a) as (q' & E & In');
      [by split|]. eexists q', _. split; [exact E|]. split; [done|]. destruct I. split; cbn; auto with vast.
    by apply Forall_erase. }
  destruct (id =? o); [|by eexists q, _].
  destruct (_ || _); [apply A|]. destruct (find w (origins g)) as [o'|]; [|apply A].
  destruct (initMatcher_ok now q w o' fr In) as (q' & ok & -> & Q). rewrite bind_ok. eexists q', _.
  split; [reflexivity|]. split; [apply Q|apply P].
Qed.

Lemma alive_record_ok now q g w id o fr a : gw_good q g →
  ∃ q' g', alive_record now q g w id o fr a = Ok (q', g') ∧ gw_good q' g'.
Proof.
  intros G. unfold alive_record. cbv zeta. destruct (find id (matchers g)) as [i|]; [by apply alive_known_ok|].
  destruct (find w (origins g)) as [o'|]; [|by apply alive_known_ok].
  destruct (initMatcher_ok now q w o' fr) as (q' & ok & -> & Q); [apply G|]. rewrite bind_ok. eexists q', g.
  split; [reflexivity|]. split; [apply Q|apply G].
Qed.

Lemma handle_alive_ok now q g msg : gw_good q g → Message_inv msg →
  ∃ q' g' msg', handle_alive junk now q g msg = Ok (q', g', msg') ∧ gw_good q' g' ∧ Message_inv msg'.
Proof.
  intros G M. unfold handle_alive. destruct (alive_fields_ok msg M) as (m1 & [[[reply w] a] o] & -> & M1).
  rewrite bind_ok. cbn beta iota. destruct (alive_world g w o) as [w'|]; [|by exists q, g, m1].
  assert (Hx : ∃ q1 g1, (if negb (reply =? 0) then world_info now q g w' o (from m1) else Ok (q, g)) = Ok (q1, g1)
                        ∧ gw_good q1 g1).
  { destruct (negb _); [|by exists q, g]. destruct (world_info_ok now q g w' o (from m1) G) as (q1 & g1 & E & G1 & _).
    by exists q1, g1. }
  destruct Hx as (q1 & g1 & -> & G1). rewrite bind_ok. cbn beta iota.
  destruct (alive_record_ok now q1 g1 w' (host_id a) o (from m1) a G1) as (q2 & g2 & -> & G2).
  rewrite bind_ok. cbn beta iota. by exists q2, g2, m1.
Qed.

Lemma sync_request_ok now q msg : net_inv (net q) → Message_inv msg →
  ∃ q' msg', handle_sync_request junk now q msg = Ok (q', msg') ∧ net_inv (net q') ∧ Message_inv msg'.
Proof.
  intros In M. unfold handle_sync_request. step_read R. step_store W. step_store W1.
  match goal with |- context [matcher_send now q ?m] =>
    destruct (matcher_send_ok now q m In) as (q' & m' & f & k & -> & Q); [by apply addTarget_inv|] end.
  rewrite bind_ok. eexists q', _. split; [reflexivity|]. split; [apply Q|done].
Qed.

Lemma remove_matcher_ok now q g id : gw_good q g →
  ∃ q' g', remove_matcher now q g id = Ok (q', g') ∧ gw_good q' g'.
Proof.
  intros [In I]. unfold remove_matcher. destruct (isOriginMatcher g id); [by apply originDisconnected_ok|].
  eexists q, _. split; [reflexivity|]. split; [done|]. apply matchers_inv; [done|]. apply ordered_erase, I.
Qed.

Lemma remove_matchers_ok now q g ids : gw_good q g →
  ∃ q' g', remove_matchers now q g ids = Ok (q', g') ∧ gw_good q' g'.
Proof.
  revert q g. induction ids as [|id ids IH]; intros q g G; cbn [remove_matchers]; [by exists q, g|].
  destruct (remove_matcher_ok now q g id G) as (q1 & g1 & -> & G1). rewrite bind_ok. cbn beta iota. by apply IH.
Qed.

Lemma gateway_disconnect_ok now q g id : gw_good q g →
  ∃ q' g', gateway_disconnect now q g id = Ok (q', g') ∧ gw_good q' g'.
Proof.
  intros G. unfold gateway_disconnect. destruct (isOriginMatcher g id); [by apply originDisconnected_ok|by exists q, g].
Qed.
End gateway.
