(* ===== verification/GatewayProtocol.v ===== *)
(** The gateway as a state machine: what holds after any sequence of candidacies, joins,
    keep-alives, disconnections and expiries. No world has two origins that are alive, and
    clients that wait do so for a matcher that is being promoted. *)

From S2P Require Import Prelude Bytes StdMap Float Serial Subscription Message VastBuffer NetManager.
From S2P Require Import NetInterface VastNet VastSend MessageQueue Routing QueueSafe.
From S2P Require Import Readable Handlers RelayHandle Gateway GatewaySafe.
Local Open Scope Z_scope.

(** *** What is known of the states of matchers *)

Definition in_state (g : gateway_state) (s : MatcherState) (id : Z) (i : MatcherInfo) : Prop :=
  find id (matchers g) = Some i ∧ mi_state i = Some s.

Record protocol_inv (g : gateway_state) : Prop := mk_protocol_inv {
  pi_inv : gateway_inv g;
  (* an origin that is alive is the one of its world *)
  pi_origin : ∀ id i, in_state g ORIGIN id i → find (mi_world i) (origins g) = Some id;
  (* the origin of a world is alive, or is being promoted *)
  pi_known : ∀ w id, find w (origins g) = Some id →
    ∃ i, in_state g PROMOTING id i ∨ in_state g ORIGIN id i ∧ mi_world i = w;
  pi_inj : ∀ w w' id, find w (origins g) = Some id → find w' (origins g) = Some id → w = w';
  (* a candidate has not told a world, nor has a matcher that is being promoted *)
  pi_fresh : ∀ id i, in_state g CANDIDATE id i ∨ in_state g PROMOTING id i → mi_world i = 0;
  (* records are found under the host of their address *)
  pi_addr : ∀ id i, find id (matchers g) = Some i → mi_state i ≠ None → host_id (mi_addr i) = id;
  (* there is no world 0 *)
  pi_zero : find 0 (origins g) = None;
  (* clients wait for a matcher that is being promoted *)
  pi_waiting : ∀ w cs, find w (requests g) = Some cs →
    ∃ id i, find w (origins g) = Some id ∧ in_state g PROMOTING id i }.

Lemma new_protocol_inv : protocol_inv gateway_new.
Proof. split; try done; [apply new_gateway_inv|by intros ? ? [? _]|by intros ? ? [[? _]|[? _]]]. Qed.

(** The matcher is the origin of no world. *)
Definition unlisted (g : gateway_state) (id : Z) : Prop := ∀ w, find w (origins g) ≠ Some id.

(** What the matcher [id] tells of its world [w] and its origin [o] is what it was told: the origin
    of a world, or the matcher that is to become it, reports itself as origin and that world; a
    matcher that was promoted to help in a world of another reports that other as origin; a
    candidate does not take itself for the origin of a world that has one. *)
Definition honest (g : gateway_state) (w id o : Z) : Prop :=
  (∀ i, in_state g PROMOTING id i ∨ in_state g ORIGIN id i →
    o = id ∧ find w (origins g) = Some id ∨ o ≠ id ∧ unlisted g id)
  ∧ (∀ i, in_state g CANDIDATE id i → o ≠ id ∨ find w (origins g) = None).

Lemma state_is_true s i : state_is s i = true ↔ mi_state i = Some s.
Proof. apply bool_decide_eq_true. Qed.

Lemma state_is_false s i : state_is s i = false ↔ mi_state i ≠ Some s.
Proof. apply bool_decide_eq_false. Qed.

Lemma isOriginMatcher_spec g id : isOriginMatcher g id = true ↔
  ∃ i, find id (matchers g) = Some i ∧ find (mi_world i) (origins g) = Some id.
Proof.
  unfold isOriginMatcher. destruct (find id (matchers g)) as [i|]; [|by split; [|intros (? & ? & _)]].
  destruct (find (mi_world i) (origins g)) as [o|] eqn:E.
  2: { split; [done|]. intros (j & [= <-] & E'). congruence. }
  rewrite Z.eqb_eq. split; [intros ->; by exists i|]. intros (j & [= <-] & E'). congruence.
Qed.

(** *** Changes of one record *)

(** Neither an origin nor on the way to become one *)
Definition plain (i : MatcherInfo) : Prop := mi_state i ≠ Some PROMOTING ∧ mi_state i ≠ Some ORIGIN.
Definition plain_at (g : gateway_state) (id : Z) : Prop := ∀ i, find id (matchers g) = Some i → plain i.

Lemma plain_not_origin g id : protocol_inv g → plain_at g id → unlisted g id.
Proof.
  intros I Hp w E. destruct (pi_known _ I w id E) as (i & [[Ei Es]|[[Ei Es] _]]); destruct (Hp i Ei); done.
Qed.

Lemma waiting_not_plain g w cs id i : in_state g PROMOTING id i → plain_at g id → find w (requests g) = Some cs → False.
Proof. intros [E S] Hp _. by destruct (Hp i E). Qed.

(** Lookups after one record is set, for a matcher in some state. *)
Lemma in_state_set g o r c id j s k i :
  in_state (mkGW c o (set id j (matchers g)) r) s k i →
  (k = id ∧ i = j ∧ mi_state j = Some s) ∨ (k ≠ id ∧ in_state g s k i).
Proof.
  intros [E S]. cbn in E. rewrite find_set in E. destruct (Z.eqb_spec k id) as [->|Hne].
  - injection E as ->. by left.
  - by right.
Qed.

Lemma in_state_kept g o r c id j s k i : k ≠ id → in_state g s k i →
  in_state (mkGW c o (set id j (matchers g)) r) s k i.
Proof. intros Hne [E S]. split; [|done]. cbn. by rewrite find_set_ne. Qed.

Lemma set_record_inv g id j : protocol_inv g → unlisted g id → plain j →
  (mi_state j = Some CANDIDATE → mi_world j = 0) → (mi_state j ≠ None → host_id (mi_addr j) = id) →
  protocol_inv (set_matchers g (set id j (matchers g))).
Proof.
  intros [I O K J P A Z W] Hi [Hp Ho] Hc Ha.
  assert (Hid : ∀ w k, find w (origins g) = Some k → k ≠ id) by (intros w k E ->; by destruct (Hi w)).
  split; cbn; try done.
  - apply matchers_inv; [done|]. apply ordered_set, I.
  - intros k i [(_ & _ & E)|[_ S]]%in_state_set; [done|by apply O].
  - intros w k E. destruct (K w k E) as (i & [S|[S Ew]]); exists i; [left|right; split; [|done]];
      (apply in_state_kept; [by eapply Hid|done]).
  - intros k i [[(_ & -> & E)|[_ S]]%in_state_set|[(_ & _ & E)|[_ S]]%in_state_set]; [by apply Hc| |done|];
      apply (P k); tauto.
  - intros k i E. rewrite find_set in E. destruct (Z.eqb_spec k id) as [->|]; [by injection E as <-|by apply A].
  - intros w cs E. destruct (W w cs E) as (k & i & Ek & S). exists k, i. split; [done|].
    apply in_state_kept; [by eapply Hid|done].
Qed.

Lemma erase_find g id k i : gateway_inv g → find k (erase id (matchers g)) = Some i →
  k ≠ id ∧ find k (matchers g) = Some i.
Proof.
  intros I E. destruct (Z.eq_dec k id) as [->|Hne]; [by rewrite find_erase_eq in E by apply I|].
  by rewrite find_erase_ne in E.
Qed.

Lemma in_state_erased g o r c id s k i : gateway_inv g →
  in_state (mkGW c o (erase id (matchers g)) r) s k i ↔ k ≠ id ∧ in_state g s k i.
Proof.
  intros I. unfold in_state. cbn. split.
  - intros [[Hne E]%erase_find S]; [|done]. done.
  - intros (Hne & E & S). by rewrite find_erase_ne.
Qed.

Lemma erase_record_inv g id : protocol_inv g → unlisted g id →
  protocol_inv (set_matchers g (erase id (matchers g))).
Proof.
  intros [I O K J P A Z W] Hi.
  assert (Hid : ∀ w k, find w (origins g) = Some k → k ≠ id) by (intros w k E ->; by destruct (Hi w)).
  unfold set_matchers. split; cbn; try done.
  - by apply matchers_inv; [|apply ordered_erase, I].
  - intros k i [_ S]%in_state_erased; [by apply O|done].
  - intros w k E. destruct (K w k E) as (i & [S|[S Ew]]); exists i; [left|right; split; [|done]];
      (apply in_state_erased; [done|]; split; [by eapply Hid|done]).
  - intros k i S. apply (P k). rewrite !in_state_erased in S by done. tauto.
  - intros k i [_ E]%erase_find; [by apply A|done].
  - intros w cs E. destruct (W w cs E) as (k & i & Ek & S). exists k, i. split; [done|].
    apply in_state_erased; [done|]. split; [by eapply Hid|done].
Qed.

(** A matcher is alive as the origin of world [w]; nobody waits for the world any more. *)
Lemma origin_set_inv g w id i : protocol_inv g → w ≠ 0 → mi_state i = Some ORIGIN → mi_world i = w →
  host_id (mi_addr i) = id →
  find w (origins g) = Some id ∨ find w (origins g) = None ∧ unlisted g id →
  protocol_inv (mkGW (world_counter g) (set w id (origins g)) (set id i (matchers g)) (erase w (requests g))).
Proof.
  intros I Hw Hs Hi Ha Hold.
  assert (Other : ∀ w', find w' (origins g) = Some id → w' = w).
  { intros w' E. destruct Hold as [Ho|[_ Hp]]; [by apply (pi_inj _ I w' w id)|].
    by destruct (Hp w'). }
  assert (This : ∀ k, find w (origins g) = Some k → k = id).
  { intros k E. destruct Hold as [Ho|[Ho _]]; congruence. }
  destruct I as [[Oo Om Or Ow] O K J P A Z W]. split; cbn.
  - split; cbn; auto with vast. by apply Forall_erase.
  - intros k j [(-> & -> & _)|[Hne S]]%in_state_set; [by rewrite Hi, find_set_eq|].
    rewrite find_set_ne; [by apply O|]. intros E. apply O in S. rewrite E in S. by apply This in S.
  - intros w' k E. rewrite find_set in E. destruct (Z.eqb_spec w' w) as [->|Hne].
    + injection E as <-. exists i. right. split; [|done]. split; [|done]. cbn. by rewrite find_set_eq.
    + assert (k ≠ id) by (intros ->; by apply Other in E).
      destruct (K w' k E) as (j & [S|[S Ew]]); exists j; [left|right; split; [|done]]; by apply in_state_kept.
  - intros w1 w2 k. rewrite !find_set. destruct (Z.eqb_spec w1 w) as [->|], (Z.eqb_spec w2 w) as [->|]; [done| | |by apply J].
    + intros [= <-] E. by apply Other in E.
    + intros E [= <-]. by apply Other in E.
  - intros k j [[(_ & _ & E)|[_ S]]%in_state_set|[(_ & _ & E)|[_ S]]%in_state_set]; [congruence| |congruence|];
      apply (P k); tauto.
  - intros k j E. rewrite find_set in E. destruct (Z.eqb_spec k id) as [->|]; [by injection E as <-|by apply A].
  - by rewrite find_set_ne.
  - intros w' cs E. destruct (Z.eq_dec w' w) as [->|Hne]; [by rewrite find_erase_eq in E|].
    rewrite find_erase_ne in E by done. destruct (W w' cs E) as (k & j & Ek & S).
    exists k, j. rewrite find_set_ne by done. split; [done|]. apply in_state_kept; [|done].
    intros ->. by apply Other in Ek.
Qed.

(** The origin of a world is gone, and the world has none. *)
Lemma origin_lost_inv g id i : protocol_inv g → find id (matchers g) = Some i →
  find (mi_world i) (origins g) = Some id →
  protocol_inv (mkGW (world_counter g) (erase (mi_world i) (origins g)) (erase id (matchers g)) (requests g))
  ∧ find (mi_world i) (erase (mi_world i) (origins g)) = None.
Proof.
  intros I Ei Eo. set (w := mi_world i) in *. split; [|apply find_erase_eq, I].
  assert (Hw : w ≠ 0) by (intros E; rewrite E, (pi_zero _ I) in Eo; done).
  assert (Hi : mi_state i ≠ Some PROMOTING) by (intros S; destruct Hw; apply (pi_fresh _ I id); by right).
  pose proof I as [[Oo Om Or Ow] O K J P A Z W].
  assert (Sub : ∀ w' k, find w' (erase w (origins g)) = Some k → w' ≠ w ∧ find w' (origins g) = Some k ∧ k ≠ id).
  { intros w' k E. destruct (Z.eq_dec w' w) as [->|Hne]; [by rewrite find_erase_eq in E|].
    rewrite find_erase_ne in E by done. splits; [done|done|]. intros ->. by destruct Hne; apply (J w' w id). }
  split; cbn.
  - split; cbn; auto with vast.
  - intros k j [Hne S]%in_state_erased; [|apply I]. pose proof (O k j S) as Ej. rewrite find_erase_ne; [done|].
    intros E. rewrite E in Ej. congruence.
  - intros w' k (Hne & E & Hk)%Sub. destruct (K w' k E) as (j & [S|[S Ew]]); exists j; [left|right; split; [|done]];
      (apply in_state_erased; [apply I|done]).
  - intros w1 w2 k (_ & E1 & _)%Sub (_ & E2 & _)%Sub. by apply (J w1 w2 k).
  - intros k j S. apply (P k). rewrite !in_state_erased in S by apply I. tauto.
  - intros k j [_ E]%erase_find; [by apply A|apply I].
  - by rewrite find_erase_ne.
  - intros w' cs E. destruct (W w' cs E) as (k & j & Ek & S). exists k, j.
    assert (k ≠ id) by (intros ->; destruct S; congruence). rewrite find_erase_ne by (intros ->; congruence).
    split; [done|]. by apply in_state_erased; [apply I|].
Qed.

(** A candidate is promoted, for no world yet. *)
Lemma promoting_inv g k i : protocol_inv g → find k (matchers g) = Some i → mi_state i = Some CANDIDATE →
  protocol_inv (set_matchers g (set k (info_state i PROMOTING) (matchers g))).
Proof.
  intros [I O K J P A Z W] Ei Es.
  assert (Hid : ∀ s k' j, in_state g s k' j → s = PROMOTING ∨ s = ORIGIN → k' ≠ k).
  { intros s k' j [E S] Hs ->. destruct Hs as [->| ->]; congruence. }
  split; cbn; try done.
  - apply matchers_inv; [done|]. apply ordered_set, I.
  - intros k' j [(_ & _ & E)|[_ S]]%in_state_set; [done|by apply O].
  - intros w k' E. destruct (K w k' E) as (j & [S|[S Ew]]); exists j; [left|right; split; [|done]];
      (apply in_state_kept; [eapply Hid; [exact S|tauto]|done]).
  - intros k' j [[(_ & _ & E)|[_ S]]%in_state_set|[(_ & -> & E)|[_ S]]%in_state_set];
      [done| |apply (P k i); by left|]; apply (P k'); tauto.
  - intros k' j E. rewrite find_set in E. destruct (Z.eqb_spec k' k) as [->|]; [|by apply A].
    injection E as <-. intros _. cbn. by apply A; [|rewrite Es].
  - intros w cs E. destruct (W w cs E) as (k' & j & Ek & S). exists k', j. split; [done|].
    apply in_state_kept; [|done]. eapply Hid; [exact S|tauto].
Qed.

(** It becomes the origin of a world that has none. *)
Lemma assigned_inv g w id i : protocol_inv g → w ≠ 0 → find w (origins g) = None →
  in_state g PROMOTING id i → (∀ w', find w' (origins g) ≠ Some id) →
  protocol_inv (set_origins g (set w id (origins g))).
Proof.
  intros [I O K J P A Z W] Hw Ho S Hn. split; cbn; try done.
  - apply origins_inv; [done|]. apply ordered_set, I.
  - intros k j Sj. rewrite find_set. destruct (Z.eqb_spec (mi_world j) w) as [Ew|]; [|by apply O].
    pose proof (O k j Sj) as E. rewrite Ew in E. congruence.
  - intros w' k E. rewrite find_set in E. destruct (Z.eqb_spec w' w) as [->|]; [|by apply K].
    injection E as <-. exists i. by left.
  - intros w1 w2 k. rewrite !find_set. destruct (Z.eqb_spec w1 w) as [->|], (Z.eqb_spec w2 w) as [->|]; [done| | |by apply J].
    + intros [= <-] E. by destruct (Hn w2).
    + intros E [= <-]. by destruct (Hn w1).
  - by rewrite find_set_ne.
  - intros w' cs E. destruct (W w' cs E) as (k & j & Ek & Sk). exists k, j. split; [|done].
    rewrite find_set_ne; [done|]. intros ->. congruence.
Qed.

(** Clients wait for a matcher that is being promoted. *)
Lemma store_request_inv g w c : protocol_inv g →
  (∃ id i, find w (origins g) = Some id ∧ in_state g PROMOTING id i) →
  protocol_inv (storeRequestingClient g w c).
Proof.
  intros [I O K J P A Z W] Hw. pose proof (storeRequestingClient_inv g w c I) as I'.
  unfold storeRequestingClient in *. cbv zeta in *. split; try done. cbn. intros w' cs E.
  destruct (Z.eq_dec w' w) as [->|Hne]; [done|]. rewrite find_set_ne in E by done. by apply (W w' cs).
Qed.

(** *** The operations *)

Section protocol.
Context {N : Type} `{NetManagerLaws N} (junk : gw_uninit).
Implicit Types (q : mqueue N) (g : gateway_state).

Lemma promote_inv fuel now q g w q' g' ok : protocol_inv g → w ≠ 0 → find w (origins g) = None →
  promote fuel now q g w = Ok (q', g', ok) →
  protocol_inv g' ∧ (ok = true → ∃ id i, find w (origins g') = Some id ∧ in_state g' PROMOTING id i).
Proof.
  intros I Hw Ho. revert q g I Ho. induction fuel as [|fuel IH]; intros q g I Ho; cbn [promote];
    destruct (findCandidate g) as [[g1 a]|] eqn:Ef; try (by intros [= <- <- <-]); try done.
  destruct (findCandidate_some g g1 a (pi_inv _ I) Ef) as (k & i & Ei & Es & -> & _ & -> & _).
  apply state_is_true in Es. intros E. apply bind_inv in E as ([q1 b] & _ & E).
  pose proof (promoting_inv g k i I Ei Es) as I1. set (g1 := set_matchers g _) in *.
  destruct b; [|by apply (IH q1 g1)]. injection E as <- <- <-.
  assert (Ea : host_id (mi_addr i) = k) by (apply (pi_addr _ I); [done|by rewrite Es]). rewrite Ea.
  assert (S : in_state g1 PROMOTING k (info_state i PROMOTING)) by (split; [cbn; by rewrite find_set_eq|done]).
  split; [|intros _; exists k, (info_state i PROMOTING); split; [cbn; by rewrite find_set_eq|exact S]].
  apply (assigned_inv g1 w k (info_state i PROMOTING)); try done. 
  apply (plain_not_origin g k I). intros j E. rewrite Ei in E. injection E as <-. unfold plain. by rewrite Es.
Qed.

Lemma join_origin_inv now q g w c q' g' : protocol_inv g → w ≠ 0 →
  join_origin now q g w c = Ok (q', g') → protocol_inv g'.
Proof.
  intros I Hw. unfold join_origin. destruct (find w (origins g)) as [id|] eqn:Ew.
  - destruct (pi_known _ I w id Ew) as (i & Hi).
    assert (Ei : find id (matchers g) = Some i) by (by destruct Hi as [[? _]|[[? _] _]]). rewrite Ei.
    destruct (state_is PROMOTING i) eqn:Es.
    + intros [= _ <-]. apply store_request_inv; [done|]. apply state_is_true in Es. by exists id, i.
    + intros E. by apply bind_inv in E as (q1 & _ & [= _ <-]).
  - intros E. apply bind_inv in E as ([[q1 g1] ok] & E & [= _ <-]).
    destruct (promote_inv _ _ _ _ _ _ _ _ I Hw Ew E) as [I1 Hp]. destruct ok; [|done].
    apply store_request_inv; [done|by apply Hp].
Qed.

Lemma originDisconnected_inv now q g id q' g' : protocol_inv g → isOriginMatcher g id = true →
  originDisconnected now q g id = Ok (q', g') → protocol_inv g'.
Proof.
  intros I (i & Ei & Eo)%isOriginMatcher_spec. unfold originDisconnected. rewrite Ei. cbv zeta.
  destruct (origin_lost_inv g id i I Ei Eo) as [I1 Hn]. destruct (first_with _ _) as [[k b]|] eqn:Ef.
  2: { by intros [= _ <-]. }
  intros E. apply bind_inv in E as ([q1 ok] & _ & [= _ <-]). apply first_with_some in Ef as [Hin Hb].
  apply andb_true_iff in Hb as [Hb%Z.eqb_eq Hs%state_is_true].
  assert (Ek : find k (erase id (matchers g)) = Some b) by (apply In_find; [apply ordered_erase, I|done]).
  assert (Hw : mi_world i ≠ 0) by (intros E; rewrite E, (pi_zero _ I) in Eo; done).
  set (g1 := mkGW _ _ _ _) in I1.
  assert (Hr : find (mi_world i) (requests g) = None).
  { destruct (find (mi_world i) (requests g)) as [cs|] eqn:Er; [|done].
    destruct (pi_waiting _ I1 _ _ Er) as (k' & j & E & _). cbn in E. congruence. }
  pose proof (origin_set_inv g1 (mi_world i) k (info_state b ORIGIN) I1 Hw eq_refl Hb) as I2. cbn in I2.
  rewrite (erase_absent _ (requests g) Hr) in I2.
  assert (Es : set (mi_world i) k (erase (mi_world i) (origins g)) = set (mi_world i) k (origins g)).
  { apply ordered_ext; [apply ordered_set, ordered_erase, I|apply ordered_set, I|]. intros x. rewrite !find_set.
    destruct (Z.eqb_spec x (mi_world i)); [done|]. by rewrite find_erase_ne. }
  rewrite Es in I2. apply I2.
  - apply (pi_addr _ I1); [exact Ek|by rewrite Hs].
  - right. split; [done|]. apply (plain_not_origin g1 k I1). intros j Ej. cbn in Ej. rewrite Ek in Ej. injection Ej as <-. unfold plain. by rewrite Hs.
Qed.

Lemma remove_matcher_inv now q g id q' g' : protocol_inv g →
  (∀ i, find id (matchers g) = Some i → mi_state i ≠ Some PROMOTING) →
  remove_matcher now q g id = Ok (q', g') → protocol_inv g'.
Proof.
  intros I Hp. unfold remove_matcher. destruct (isOriginMatcher g id) eqn:Eo; [by apply originDisconnected_inv|].
  intros [= _ <-]. apply erase_record_inv; [done|]. apply (plain_not_origin g id I). intros i E. split; [by apply Hp|]. intros S.
  pose proof (pi_origin _ I id i (conj E S)). assert (isOriginMatcher g id = true); [|congruence].
  apply isOriginMatcher_spec. by exists i.
Qed.

Lemma origin_alive_eq now q g w id a q' g' : origin_alive now q g w id a = Ok (q', g') →
  g' = mkGW (world_counter g) (set w id (origins g)) (matchers g) (erase w (requests g)).
Proof. unfold origin_alive. intros E. by apply bind_inv in E as (q1 & _ & [= _ <-]). Qed.

(** What [alive_known] is called with in a run: the record of an origin to be, of another matcher,
    or of one that was promoted to help in a world. *)
Definition reporting g w id o (i : MatcherInfo) : Prop :=
  (o = id ∧ find w (origins g) = Some id ∧ ¬ plain i)
  ∨ unlisted g id ∧ (plain i ∧ (mi_state i = Some CANDIDATE → o ≠ id ∨ find w (origins g) = None)
                     ∨ mi_state i = Some PROMOTING ∧ o ≠ id).

Lemma alive_known_inv now q g w id o fr i q' g' : protocol_inv g → w ≠ 0 →
  mi_world i = w → host_id (mi_addr i) = id → reporting g w id o i →
  alive_known now q g w id o fr i = Ok (q', g') → protocol_inv g'.
Proof.
  intros I Hw Ew Ha Hs. unfold alive_known. cbv zeta.
  assert (Put : ∀ j, unlisted g id → plain j → mi_state j ≠ Some CANDIDATE → mi_addr j = mi_addr i →
    protocol_inv (set_matchers g (set id j (matchers g)))).
  { intros j Hp Hj Hc Ej. apply set_record_inv; try done. by rewrite Ej. }
  assert (Org : (find w (origins g) = Some id ∨ find w (origins g) = None ∧ unlisted g id) →
    origin_alive now q (set_matchers g (set id (info_state i ORIGIN) (matchers g))) w id (mi_addr i) = Ok (q', g') →
    protocol_inv g').
  { intros Ho ->%origin_alive_eq. by apply (origin_set_inv g w id (info_state i ORIGIN)). }
  destruct Hs as [(-> & Ho & Hn)|(Hp & Hi)].
  - rewrite Z.eqb_refl. destruct (_ || _) eqn:Es; [by apply Org; left|].
    apply orb_false_iff in Es as [Es1%state_is_false Es2%state_is_false]. by destruct Hn.
  - destruct (Z.eqb_spec id o) as [<-|Hne].
    + destruct Hi as [[[Hi1 Hi2] Hc]|[_ []]]; [|done].
      rewrite (proj2 (state_is_false _ _) Hi1), (proj2 (state_is_false _ _) Hi2). cbn [orb].
      destruct (find w (origins g)) as [o'|] eqn:Eo; [|by apply Org; right].
      intros E. apply bind_inv in E as ([q1 b] & _ & [= _ <-]). apply Put; try done.
      intros Hs. by destruct (Hc Hs).
    + intros [= _ <-]. destruct (_ || _) eqn:Es; [by apply Put|].
      apply orb_false_iff in Es as [Es1%state_is_false Es2%state_is_false]. destruct Hi as [[Hi _]|[Hi _]]; [by apply Put|done].
Qed.

Lemma world_info_inv now q g w o t q' g' : protocol_inv g → world_info now q g w o t = Ok (q', g') →
  protocol_inv g' ∧ origins g' = origins g
  ∧ ∀ k, find k (matchers g') = find k (matchers g) ∨ find k (matchers g) = None ∧ find k (matchers g') = Some MatcherInfo_init.
Proof.
  intros I. unfold world_info. cbv zeta. intros E.
  apply bind_inv in E as ([m1 ?] & _ & E). apply bind_inv in E as ([m2 ?] & _ & E).
  apply bind_inv in E as ([[[q1 ?] ?] ?] & _ & [= _ <-]). cbn [matchers origins set_matchers].
  destruct (find o (matchers g)) as [i|] eqn:Ei; cbn [default].
  - assert (Es : set o i (matchers g) = matchers g).
    { apply ordered_ext; [apply ordered_set, I|apply I|]. intros k. rewrite find_set. by destruct (Z.eqb_spec k o) as [->|]. }
    unfold from_option, id. rewrite Es. destruct g. splits; [done|done|by left].
  - splits; [|done|].
    + apply set_record_inv; try done. apply (plain_not_origin g o I). intros i E. congruence.
    + intros k. rewrite find_set. destruct (Z.eqb_spec k o) as [->|]; [by right|by left].
Qed.

Lemma alive_record_inv now q g w o fr a q' g' : protocol_inv g → w ≠ 0 → honest g w (host_id a) o →
  alive_record now q g w (host_id a) o fr a = Ok (q', g') → protocol_inv g'.
Proof.
  intros I Hw (Hh & Hc). unfold alive_record. cbv zeta.
  destruct (find (host_id a) (matchers g)) as [i|] eqn:Ei.
  - apply alive_known_inv; try done.
    { cbn. destruct (Addr_eqb (mi_addr i) a) eqn:Ea; [|done]. by apply andb_true_iff in Ea as [Ea%Z.eqb_eq _]. }
    assert (Plain : plain i → unlisted g (host_id a)).
    { intros Hp. apply (plain_not_origin g _ I). intros j Ej. rewrite Ei in Ej. by injection Ej as <-. }
    unfold plain in Plain. destruct (mi_state i) as [[]|] eqn:Es.
    + right. split; [by apply Plain|]. left. split; [by split|]. intros _. by apply (Hc i).
    + destruct (Hh i) as [[-> ?]|[Hne Hu]]; [by left| |].
      * left. splits; try done. by intros [].
      * right. split; [done|]. by right.
    + right. split; [by apply Plain|]. left. by split; [split|].
    + destruct (Hh i) as [[-> ?]|[Hne Hu]]; [by right| |].
      * left. splits; try done. by intros [].
      * destruct (Hu (mi_world i)). by apply (pi_origin _ I).
    + right. split; [by apply Plain|]. left. by split; [split|].
  - destruct (find w (origins g)) as [o'|].
    + intros E. by apply bind_inv in E as ([q1 ok] & _ & [= _ <-]).
    + apply alive_known_inv; try done. right. split; [|by left; split; [split|]].
      apply (plain_not_origin g _ I). intros j Ej. congruence.
Qed.

(** The world of a report is not 0. *)
Lemma alive_world_nonzero g world o w : alive_world g world o = Some w → w ≠ 0.
Proof.
  unfold alive_world. destruct (Z.eqb_spec world 0) as [->|Hw]; [|by intros [= <-]].
  destruct (find o (matchers g)) as [i|]; [|done]. destruct (Z.eqb_spec (mi_world i) 0); [done|by intros [= <-]].
Qed.

(** Nor is that of a client, while the counter is not. *)
Lemma free_world_nonzero fuel c o w : c ≠ 0 → free_world fuel c o = Ok w → w ≠ 0.
Proof.
  revert c. induction fuel as [|fuel IH]; intros c Hc; cbn [free_world]; destruct (negb _); try by intros [= <-].
  apply IH. by destruct (Z.eqb_spec (u16 (c + 1)) 0).
Qed.

(** *** Runs *)

(** What happens at the gateway. A peer of the overlay that is overloaded has it look for a
    candidate ([VSO_INSERT]), which is promoted without becoming the origin of a world, and
    comes to be active when it first reports. No client asks for a new world when the counter
    of worlds has wrapped round to 0: it would be given world 0. *)
Inductive gateway_step : gateway_state → gateway_state → Prop :=
  | step_candidate now q g msg g' msg' :
      handle_candidate now q g msg = Ok (g', msg') → gateway_step g g'
  | step_insert g g' a : findCandidate g = Some (g', a) → gateway_step g g'
  | step_join now q g msg q' g' msg' : world_counter g ≠ 0 →
      handle_join junk now q g msg = Ok (q', g', msg') → gateway_step g g'
  | step_alive now q g msg q' g' msg' :
      (∀ m reply world a o w, alive_fields junk msg = Ok (m, (reply, world, a, o)) →
        alive_world g world o = Some w → honest g w (host_id a) o) →
      handle_alive junk now q g msg = Ok (q', g', msg') → gateway_step g g'
  | step_disconnect now q g id q' g' :
      gateway_disconnect now q g id = Ok (q', g') → gateway_step g g'
  | step_expire now ms q g q' g' :
      removeExpiredMatchers now ms q g = Ok (q', g') → gateway_step g g'.

Lemma remove_matchers_inv now q g ids q' g' : protocol_inv g →
  Forall (λ id, ∀ i, find id (matchers g) = Some i → mi_state i ≠ Some PROMOTING) ids →
  remove_matchers now q g ids = Ok (q', g') → protocol_inv g'.
Proof.
  intros I. revert q g I. induction ids as [|id ids IH]; intros q g I Hf; cbn [remove_matchers]; [by intros [= _ <-]|].
  apply Forall_cons in Hf as [Hid Hf]. intros E. apply bind_inv in E as ([q1 g1] & E & Er).
  pose proof (remove_matcher_inv _ _ _ _ _ _ I Hid E) as I1. apply (IH q1 g1 I1); [|done].
  eapply Forall_impl; [exact Hf|]. cbn. intros k Hk i Ei Es. revert E. unfold remove_matcher.
  destruct (isOriginMatcher g id) eqn:Eo; [|intros [= _ <-]; apply erase_find in Ei as [_ Ei]; [by apply (Hk i)|apply I]].
  unfold originDisconnected. apply isOriginMatcher_spec in Eo as (i0 & Ei0 & _). rewrite Ei0. cbv zeta.
  destruct (first_with _ _) as [[k' b]|].
  - intros E. apply bind_inv in E as ([q2 ok] & _ & [= _ <-]). cbn in Ei. rewrite find_set in Ei.
    destruct (Z.eqb_spec k k') as [->|]; [injection Ei as <-; done|].
    apply erase_find in Ei as [_ Ei]; [by apply (Hk i)|apply I].
  - intros [= _ <-]. apply erase_find in Ei as [_ Ei]; [by apply (Hk i)|apply I].
Qed.

Lemma step_inv g g' : gateway_step g g' → protocol_inv g → protocol_inv g'.
Proof.
  intros S I. destruct S as [now q g msg g' msg' E|g g' a E|now q g msg q' g' msg' Hc E|now q g msg q' g' msg' Hh E
    |now q g id q' g' E|now ms q g q' g' E].
  - unfold handle_candidate in E. apply bind_inv in E as ([[m a] ?] & _ & [= <- _]).
    destruct (has (host_id a) (matchers g)) eqn:Eh; [done|]. apply set_record_inv; try done.
    apply (plain_not_origin g _ I). intros i Ei. unfold has in Eh. by rewrite Ei in Eh.
  - destruct (findCandidate_some g g' a (pi_inv _ I) E) as (k & i & Ei & Es & -> & _ & -> & _). apply state_is_true in Es. by apply (promoting_inv g k i).
  - unfold handle_join in E. apply bind_inv in E as ([[m w] ?] & _ & E).
    apply bind_inv in E as ([g1 w'] & Ej & E). apply bind_inv in E as ([q1 g2] & E & [= _ <- _]). unfold join_world in Ej.
    destruct (Z.eqb_spec w 0) as [->|Hw]; [|injection Ej as <- <-; by eapply join_origin_inv].
    apply bind_inv in Ej as (w1 & Ew & [= <- <-]). apply free_world_nonzero in Ew; [|done].
    eapply join_origin_inv; [|exact Ew|exact E]. destruct I as [[] O K J P A Z W]. by split.
  - unfold handle_alive in E. apply bind_inv in E as ([m [[[reply w0] a] o]] & Ef & E).
    destruct (alive_world g w0 o) as [w|] eqn:Ew; [|by injection E as _ <-].
    specialize (Hh _ _ _ _ _ _ Ef Ew). apply alive_world_nonzero in Ew. apply bind_inv in E as ([q1 g1] & E1 & E).
    apply bind_inv in E as ([q2 g2] & E & [= _ <- _]). destruct (negb (reply =? 0)); [|injection E1 as _ <-; by eapply alive_record_inv].
    destruct (world_info_inv _ _ _ _ _ _ _ _ I E1) as (I1 & Eo & Ek). eapply alive_record_inv; [exact I1|exact Ew| |exact E].
    assert (Back : ∀ s i, in_state g1 s (host_id a) i → in_state g s (host_id a) i).
    { intros s i [Ei Es]. destruct (Ek (host_id a)) as [Ek'|[_ Ek']]; [by rewrite Ek' in Ei|].
      rewrite Ek' in Ei. by injection Ei as <-. }
    destruct Hh as (Hh & Hc). unfold honest, unlisted. rewrite Eo. split; [|intros i Hi; apply (Hc i); by apply Back].
    intros i Hi. apply (Hh i). destruct Hi as [Hi|Hi]; [left|right]; by apply Back.
  - unfold gateway_disconnect in E. destruct (isOriginMatcher g id) eqn:Eo; [|by injection E as _ <-].
    by eapply originDisconnected_inv.
  - unfold removeExpiredMatchers in E. eapply remove_matchers_inv; [exact I| |exact E].
    apply Forall_forall. intros id Hin i Ei Es. apply list_elem_of_fmap in Hin as ([k j] & -> & Hin).
    apply list_elem_of_filter in Hin as [Hx Hin]. apply andb_true_iff in Hx as [Hx%state_is_true _].
    apply In_find in Hin; [|apply I]. cbn in *. congruence.
Qed.

Lemma reached_inv g : rtc gateway_step gateway_new g → protocol_inv g.
Proof.
  intros R. assert (G : ∀ g1 g2, rtc gateway_step g1 g2 → protocol_inv g1 → protocol_inv g2).
  { induction 1 as [|g1 g2 g3 S _ IH]; [done|]. intros I. by eapply IH, step_inv. }
  by eapply G; [exact R|apply new_protocol_inv].
Qed.

End protocol.
