(* ===== verification/GatewaySpec.v ===== *)
(** What the gateway achieves: a client that joins a world gets its origin matcher, also
    when one has to be promoted first; an origin that is lost is replaced by a matcher of
    the same world. *)

From S2P Require Import Prelude Bytes StdMap Float Serial Subscription Message VastBuffer NetManager.
From S2P Require Import NetInterface VastNet VastSend MessageQueue Routing QueueSafe.
From S2P Require Import Readable Handlers Client ClientSafe ClientSpec ClientFlow RelayHandle Built Gateway GatewaySafe GatewayProtocol.
Local Open Scope Z_scope.

Section spec.
Context {N : Type} `{NetManagerLaws N} (junk : gw_uninit).
Implicit Types (q : mqueue N) (g : gateway_state).

Lemma initMatcher_sends now q w o t : reachable q t →
  ∃ v' m, initMatcher now q w o t = Ok (with_net q v', true) ∧ sends q v' t m
  ∧ built (code MATCHER_INIT) MSG_GROUP_VAST_MATCHER [t] (le_bytes 2 w ++ le_bytes 8 o) m.
Proof.
  intros Hr. unfold initMatcher, store_int, matcher_send.
  destruct (store_built _ _ _ _ _ (le_bytes 2 w) (new_built MATCHER_INIT 1) eq_refl) as (m1 & -> & B1 & A1). rewrite bind_ok. cbn beta iota.
  destruct (store_built _ _ _ _ _ (le_bytes 8 o) B1 A1) as (m2 & -> & B2 & A2). rewrite bind_ok. cbn beta iota.
  destruct (handler_sends now q MSG_GROUP_VAST_MATCHER t _ _ _ _ Hr (addTarget_built _ _ _ _ t B2)) as (v' & m & -> & S & B).
  rewrite bind_ok. by exists v', m.
Qed.

Lemma notify_client_sends now q a c : reachable q c →
  ∃ v' m, notify_clients now q a [c] = Ok (with_net q v') ∧ sends q v' c m
  ∧ built (code NOTIFY_MATCHER) MSG_GROUP_VAST_CLIENT [c] (wire a) m.
Proof.
  intros Hr. unfold notify_clients, matcher_send.
  destruct (store_obj_built _ _ _ _ _ a (group_built _ _ MSG_GROUP_VAST_CLIENT _ _ _ (new_built NOTIFY_MATCHER 1)) eq_refl)
    as (m1 & -> & B1 & _). rewrite bind_ok. cbn beta iota.
  destruct (handler_sends now q MSG_GROUP_VAST_MATCHER c _ _ _ _ Hr (targets_built _ _ _ [c] _ _ B1)) as (v' & m & -> & S & B).
  rewrite bind_ok. by exists v', m.
Qed.

(** *** A world is created *)

(** The first candidate is reachable: it is promoted at once. *)
Lemma promote_first fuel now q g w k i :
  first_with (state_is CANDIDATE) (matchers g) = Some (k, i) → host_id (mi_addr i) = k → (0 < fuel)%nat →
  reachable (notifyMapping q k (mi_addr i)) k →
  ∃ v' m, promote fuel now q g w = Ok (with_net (notifyMapping q k (mi_addr i)) v',
      set_origins (set_matchers g (set k (info_state i PROMOTING) (matchers g))) (set w k (origins g)), true)
  ∧ sends (notifyMapping q k (mi_addr i)) v' k m
  ∧ built (code MATCHER_INIT) MSG_GROUP_VAST_MATCHER [k] (le_bytes 2 w ++ le_bytes 8 k) m.
Proof.
  intros Ef Ek Hf Hr. destruct fuel as [|fuel]; [lia|]. cbn [promote]. unfold findCandidate. rewrite Ef, Ek.
  destruct (initMatcher_sends now (notifyMapping q k (mi_addr i)) w k k Hr) as (v' & m & -> & S & B).
  rewrite bind_ok. by exists v', m.
Qed.

(** A keep-alive message of a matcher that is its own origin *)
Definition alive_bytes (w : Z) (a : Addr) (s r : Z) : list byte :=
  le_bytes 1 0 ++ le_bytes 2 w ++ wire a ++ le_bytes 8 (host_id a) ++ le_bytes 8 s ++ le_bytes 8 r.

Lemma alive_fields_spec msg w a s r tl : Message_inv msg → fits 16 w → Addr_valid a → fits 64 s → fits 64 r →
  drop (mcurr msg) (content msg) = alive_bytes w a s r ++ tl →
  ∃ msg', alive_fields junk msg = Ok (msg', (0, w, a, host_id a)) ∧ from msg' = from msg.
Proof.
  intros M Fw Va Fs Fr Hd. unfold alive_bytes in Hd. rewrite <- !app_assoc in Hd. unfold alive_fields.
  destruct (extract_int_spec 1 msg (gu_bool junk) 0 _ M ltac:(lia) ltac:(lia) Hd) as (m1 & -> & I1 & D1 & _ & _ & F1 & _).
  rewrite bind_ok. cbn beta iota.
  destruct (extract_int_spec 2 m1 (gu_world junk) w _ I1 ltac:(lia) Fw D1) as (m2 & -> & I2 & D2 & _ & _ & F2 & _).
  rewrite bind_ok. cbn beta iota.
  destruct (extract_obj_spec m2 a Addr_null (le_bytes 8 (host_id a) ++ le_bytes 8 s ++ le_bytes 8 r ++ tl) I2)
    as (m3 & -> & I3 & C3 & P3 & F3 & _); [exact Va|done|cbn; unfold Addr_sizeOf; lia|exact D2|].
  rewrite bind_ok. cbn beta iota. cbn [merge Addr_laws].
  assert (D3 : drop (mcurr m3) (content m3) = le_bytes 8 (host_id a) ++ le_bytes 8 s ++ le_bytes 8 r ++ tl).
  { rewrite C3, P3, <- drop_drop, D2. apply drop_app_len. symmetry. apply wire_length. }
  destruct (extract_int_spec 8 m3 (gu_id junk) (host_id a) _ I3 ltac:(lia) (proj1 Va) D3) as (m4 & -> & I4 & D4 & _ & _ & F4 & _).
  rewrite bind_ok. cbn beta iota.
  destruct (extract_int_spec 8 m4 (gu_id junk) s _ I4 ltac:(lia) Fs D4) as (m5 & -> & I5 & D5 & _ & _ & F5 & _).
  rewrite bind_ok. cbn beta iota.
  destruct (extract_int_spec 8 m5 (gu_id junk) r tl I5 ltac:(lia) Fr D5) as (m6 & -> & _ & _ & _ & _ & F6 & _).
  rewrite bind_ok. exists m6. split; [done|]. congruence.
Qed.

(** The keep-alive message of the matcher that is being promoted *)
Lemma promoted_alive now q g k i w c a s r tl alive :
  in_state g PROMOTING k i → find w (origins g) = Some k → find w (requests g) = Some [c] → w ≠ 0 → fits 16 w →
  host_id a = k → Addr_valid a → fits 64 s → fits 64 r → Message_inv alive →
  drop (mcurr alive) (content alive) = alive_bytes w a s r ++ tl → reachable q c → ordered (requests g) →
  let a' := if Addr_eqb (mi_addr i) a then mi_addr i else a in
  ∃ v' m g' alive', handle_alive junk now q g alive = Ok (with_net q v', g', alive')
  ∧ sends q v' c m ∧ built (code NOTIFY_MATCHER) MSG_GROUP_VAST_CLIENT [c] (wire a') m
  ∧ in_state g' ORIGIN k (mkInfo (Some ORIGIN) w a' (timestamp now q))
  ∧ find w (origins g') = Some k ∧ find w (requests g') = None.
Proof.
  intros [Ei Es] Eo Er Hw Fw Ea Va Fs Fr M Hd Hr Ho. cbv zeta. unfold handle_alive.
  destruct (alive_fields_spec alive w a s r tl M Fw Va Fs Fr Hd) as (m1 & -> & _). rewrite bind_ok. cbn beta iota.
  unfold alive_world. destruct (Z.eqb_spec w 0); [done|]. change (negb (0 =? 0)) with false. cbv iota. rewrite bind_ok. cbn beta iota.
  unfold alive_record. cbv zeta. rewrite Ea, Ei. unfold alive_known. cbv zeta. rewrite Z.eqb_refl. unfold state_is. cbn [mi_state].
  rewrite Es, bool_decide_eq_true_2 by done. cbn [orb]. unfold origin_alive. cbn [requests set_matchers]. rewrite Er.
  destruct (notify_client_sends now q (mi_addr (mkInfo (mi_state i) w (if Addr_eqb (mi_addr i) a then mi_addr i else a) (timestamp now q))) c Hr)
    as (v' & m & En & S & B).
  cbn [mi_addr] in En, B |- *. rewrite En, !bind_ok. cbn beta iota. eexists v', m, _, m1. split; [reflexivity|].
  splits; [done|done|split; [cbn; by rewrite find_set_eq|done]|cbn; by rewrite find_set_eq|cbn; by rewrite find_erase_eq].
Qed.

(** The client that is told its matcher *)
Lemma client_told (qc : mqueue N) cl note a : Message_inv note → mcurr note = 0%nat → content note = wire a → Addr_valid a →
  c_state cl = JOINING →
  ∃ qc' cl' note', handle_notify_matcher qc cl note = Ok (qc', cl', note')
  ∧ matcher_id cl' = host_id a ∧ c_state cl' = JOINED.
Proof.
  intros M Hc Hb Va Hs. unfold handle_notify_matcher.
  destruct (extract_obj_spec note a Addr_null [] M) as (m1 & -> & _);
    [exact Va|done|cbn; unfold Addr_sizeOf; lia|by rewrite Hc, Hb, app_nil_r|].
  rewrite bind_ok. cbn beta iota. cbn [merge Addr_laws].
  destruct (Z.eqb_spec (host_id a) (matcher_id cl)) as [E|E]; cbn [negb].
  - rewrite Hs, bool_decide_eq_true_2 by done. by eexists _, _, m1.
  - rewrite bool_decide_eq_true_2 by done. by eexists _, _, m1.
Qed.

(** C11: A world is created. A client asks the gateway to join a world that has no origin:
    the first candidate that can be reached is sent its promotion and the client waits.
    When the promoted matcher reports that it is alive, the client is sent its address;
    handling that message, the client has joined and this is its matcher. *)
Theorem world_created now q g msg w c k i tl :
  gateway_inv g → Message_inv msg → from msg = c → fits 16 w → w ≠ 0 →
  drop (mcurr msg) (content msg) = le_bytes 2 w ++ tl →
  find w (origins g) = None → find w (requests g) = None →
  first_with (state_is CANDIDATE) (matchers g) = Some (k, i) → host_id (mi_addr i) = k → Addr_valid (mi_addr i) →
  reachable (notifyMapping q k (mi_addr i)) k →
  ∃ v1 m1 g1 msg1, handle_join junk now q g msg = Ok (with_net (notifyMapping q k (mi_addr i)) v1, g1, msg1)
  ∧ sends (notifyMapping q k (mi_addr i)) v1 k m1
  ∧ built (code MATCHER_INIT) MSG_GROUP_VAST_MATCHER [k] (le_bytes 2 w ++ le_bytes 8 k) m1
  ∧ find w (origins g1) = Some k ∧ find w (requests g1) = Some [c]
  ∧ ∀ now2 q2 alive a s r tl2, Message_inv alive → host_id a = k → Addr_valid a → fits 64 s → fits 64 r →
      drop (mcurr alive) (content alive) = alive_bytes w a s r ++ tl2 → reachable q2 c →
      ∃ v2 m2 g2 alive2, handle_alive junk now2 q2 g1 alive = Ok (with_net q2 v2, g2, alive2)
      ∧ sends q2 v2 c m2 ∧ msgtype m2 = code NOTIFY_MATCHER ∧ msggroup m2 = MSG_GROUP_VAST_CLIENT
      ∧ (∃ j, in_state g2 ORIGIN k j ∧ mi_world j = w)
      ∧ find w (origins g2) = Some k ∧ find w (requests g2) = None
      ∧ ∀ (qc : mqueue N) cl note, Message_inv note → mcurr note = 0%nat → content note = content m2 → c_state cl = JOINING →
          ∃ qc' cl' note', handle_notify_matcher qc cl note = Ok (qc', cl', note')
          ∧ matcher_id cl' = k ∧ c_state cl' = JOINED.
Proof.
  intros I M Ef Fw Hw Hd Ho Hq Hc Ek Va Hr. unfold handle_join.
  destruct (extract_int_spec 2 msg (gu_world junk) w tl M ltac:(lia) Fw Hd) as (m0 & -> & _ & _ & _ & _ & F0 & _).
  rewrite bind_ok. cbn beta iota. unfold join_world. destruct (Z.eqb_spec w 0); [done|]. rewrite bind_ok. cbn beta iota.
  unfold join_origin. rewrite Ho. pose proof Hc as Hin. apply first_with_some in Hin as [Hin Hs].
  assert (Hl : (0 < length (matchers g))%nat) by (destruct (matchers g); [by apply elem_of_nil in Hin|cbn; lia]).
  destruct (promote_first _ now q g w k i Hc Ek Hl Hr) as (v1 & m1 & -> & S & B). rewrite !bind_ok. cbn beta iota.
  eexists v1, m1, _, m0. split; [reflexivity|]. split; [done|]. split; [done|].
  unfold storeRequestingClient. cbv zeta. cbn [requests set_origins set_matchers origins set_waiting]. rewrite Hq. cbn [default memb existsb app].
  rewrite F0, Ef, !find_set_eq. split; [done|]. split; [done|].
  intros now2 q2 alive a s r tl2 Ma Ea Vaa Fs Fr Hd2 Hr2.
  destruct (promoted_alive now2 q2 (set_waiting (set_origins (set_matchers g (set k (info_state i PROMOTING) (matchers g))) (set w k (origins g)))
      (set w [c] (requests g))) k (info_state i PROMOTING) w c a s r tl2 alive)
    as (v2 & m2 & g2 & alive2 & E & S2 & [B2 T2 G2 Ts2 C2] & I2 & O2 & R2); try done.
  { split; [cbn; by rewrite find_set_eq|done]. }
  { cbn. by rewrite find_set_eq. }
  { cbn. by rewrite find_set_eq. }
  { cbn. apply ordered_set, I. }
  exists v2, m2, g2, alive2. splits; [exact E|exact S2|exact T2|exact G2|by eexists|exact O2|exact R2|]. intros qc cl note Mn Hn Cn Hcl. rewrite C2 in Cn. cbn [mi_addr info_state] in Cn.
  destruct (client_told qc cl note _ Mn Hn Cn) as (qc' & cl' & n' & E' & Em & Es); [by destruct (Addr_eqb _ _)|done|].
  exists qc', cl', n'. splits; [done| |done]. rewrite Em. by destruct (Addr_eqb _ _).
Qed.

(** *** An origin is lost *)

(** Succession. When the origin of a world disconnects, the first active matcher of
    that world becomes its origin and is sent a promotion; without one, the world has no
    origin, so that the next client that joins has a candidate promoted. *)
Theorem origin_replaced now q g id i :
  ordered (matchers g) → ordered (origins g) → find id (matchers g) = Some i → find (mi_world i) (origins g) = Some id →
  let w := mi_world i in
  let successor := first_with (λ j, (mi_world j =? w) && state_is ACTIVE j) (erase id (matchers g)) in
  match successor with
  | Some (k, b) => host_id (mi_addr b) = k → reachable q k →
      ∃ v' m g', gateway_disconnect now q g id = Ok (with_net q v', g')
      ∧ sends q v' k m
      ∧ built (code MATCHER_INIT) MSG_GROUP_VAST_MATCHER [k] (le_bytes 2 w ++ le_bytes 8 k) m
      ∧ find w (origins g') = Some k ∧ in_state g' ORIGIN k (info_state b ORIGIN)
      ∧ find id (matchers g') = None ∧ requests g' = requests g
      ∧ ∀ w', w' ≠ w → find w' (origins g') = find w' (origins g)
  | None =>
      ∃ g', gateway_disconnect now q g id = Ok (q, g') ∧ find w (origins g') = None
      ∧ find id (matchers g') = None ∧ requests g' = requests g
      ∧ ∀ w', w' ≠ w → find w' (origins g') = find w' (origins g)
  end.
Proof.
  intros Om Oo Ei Eo. cbv zeta. unfold gateway_disconnect.
  assert (Ho : isOriginMatcher g id = true) by (apply isOriginMatcher_spec; by exists i). rewrite Ho.
  unfold originDisconnected. rewrite Ei. cbv zeta. destruct (first_with _ _) as [[k b]|] eqn:Ef.
  - intros Ek Hr. rewrite Ek. destruct (initMatcher_sends now q (mi_world i) k k Hr) as (v' & m & -> & S & B).
    rewrite bind_ok. eexists v', m, _. split; [reflexivity|].
    assert (Hne : k ≠ id).
    { apply first_with_some in Ef as [Hin _]. intros ->. apply In_find in Hin; [|by apply ordered_erase].
      by rewrite find_erase_eq in Hin. }
    splits; try done; cbn; [by rewrite find_set_eq|split; [cbn; by rewrite find_set_eq|done]| |].
    + by rewrite find_set_ne, find_erase_eq.
    + intros w' Hw. by rewrite find_set_ne.
  - eexists. split; [reflexivity|]. cbn. splits; [by apply find_erase_eq|by apply find_erase_eq|done|].
    intros w' Hw. by rewrite find_erase_ne.
Qed.

(** *** A promoted matcher is lost *)

(** The matcher [k] was promoted to be the origin of world [w], and has not reported yet. *)
Definition promotion_pending g (w k : Z) : Prop :=
  find w (origins g) = Some k ∧ find 0 (origins g) = None ∧ ∃ i, in_state g PROMOTING k i ∧ mi_world i = 0.

Lemma pending_not_origin g w k : promotion_pending g w k → isOriginMatcher g k = false.
Proof.
  intros (_ & Hz & i & [Ei _] & Ew). unfold isOriginMatcher. by rewrite Ei, Ew, Hz.
Qed.

Lemma pending_removed now q g w k id q' g' : ordered (matchers g) → promotion_pending g w k → id ≠ k →
  remove_matcher now q g id = Ok (q', g') → promotion_pending g' w k.
Proof.
  intros Om (Ho & Hz & i & [Ei Es] & Ew) Hne. unfold remove_matcher. destruct (isOriginMatcher g id) eqn:Eo.
  2: { intros [= _ <-]. split; [done|]. split; [done|]. exists i. split; [|done]. split; [|done]. cbn. by rewrite find_erase_ne. }
  apply isOriginMatcher_spec in Eo as (j & Ej & Eo).
  assert (Hw : mi_world j ≠ w ∧ mi_world j ≠ 0) by (split; intros E; rewrite E in Eo; congruence). destruct Hw as [Hw H0'].
  unfold originDisconnected. rewrite Ej. cbv zeta. destruct (first_with _ _) as [[k' b]|] eqn:Ef.
  - intros E. apply bind_inv in E as ([q1 ok] & _ & [= _ <-]). split; [cbn; by rewrite find_set_ne|]. split; [cbn; by rewrite find_set_ne|].
    exists i. split; [|done]. split; [|done]. cbn. apply first_with_some in Ef as [Hin Hb].
    apply In_find in Hin; [|by apply ordered_erase]. apply andb_true_iff in Hb as [_ Hb%state_is_true].
    assert (k' ≠ k) by (intros ->; rewrite find_erase_ne in Hin by done; congruence).
    by rewrite find_set_ne, find_erase_ne.
  - intros [= _ <-]. split; [cbn; by rewrite find_erase_ne|]. split; [cbn; by rewrite find_erase_ne|].
    exists i. split; [|done]. split; [|done]. cbn. by rewrite find_erase_ne.
Qed.

Lemma remove_matcher_ordered now q g id q' g' : ordered (matchers g) →
  remove_matcher now q g id = Ok (q', g') → ordered (matchers g').
Proof.
  intros Om. unfold remove_matcher. destruct (isOriginMatcher g id); [|intros [= _ <-]; by apply ordered_erase].
  unfold originDisconnected. destruct (find id (matchers g)) as [j|]; [|by intros [= _ <-]]. cbv zeta.
  destruct (first_with _ _) as [[k' b]|].
  - intros E. apply bind_inv in E as ([q1 ok] & _ & [= _ <-]). cbn. by apply ordered_set, ordered_erase.
  - intros [= _ <-]. by apply ordered_erase.
Qed.

Lemma pending_expires now q g w k ids q' g' : ordered (matchers g) → promotion_pending g w k → k ∉ ids →
  remove_matchers now q g ids = Ok (q', g') → promotion_pending g' w k.
Proof.
  revert q g. induction ids as [|id ids IH]; intros q g Om P Hk; cbn [remove_matchers]; [by intros [= _ <-]|].
  rewrite not_elem_of_cons in Hk. destruct Hk as [Hne Hk]. intros E. apply bind_inv in E as ([q1 g1] & E & Er).
  apply (IH q1 g1); [by eapply remove_matcher_ordered|by eapply pending_removed|done|done].
Qed.

(** A promoted matcher that is lost before it reports. Its disconnection changes
    nothing, it does not expire, and whoever asks for the world is only added to the clients
    that wait: nothing is sent, and the same holds afterwards, so that the world cannot be
    joined any more. *)
Theorem lost_promotion_blocks g w k :
  gateway_inv g → promotion_pending g w k → w ≠ 0 → fits 16 w →
  (∀ now q, gateway_disconnect now q g k = Ok (q, g))
  ∧ (∀ now ms q q' g', removeExpiredMatchers now ms q g = Ok (q', g') → promotion_pending g' w k)
  ∧ ∀ now q msg tl, Message_inv msg → drop (mcurr msg) (content msg) = le_bytes 2 w ++ tl →
      ∃ msg', handle_join junk now q g msg = Ok (q, storeRequestingClient g w (from msg), msg')
      ∧ promotion_pending (storeRequestingClient g w (from msg)) w k.
Proof.
  intros I P Hw Fw. split; [|split].
  - intros now q. unfold gateway_disconnect. by rewrite (pending_not_origin g w k P).
  - intros now ms q q' g'. unfold removeExpiredMatchers. apply pending_expires; [apply I|done|].
    intros Hin. apply list_elem_of_fmap in Hin as ([k' j] & -> & Hin). apply list_elem_of_filter in Hin as [Hx Hin].
    apply andb_true_iff in Hx as [Hx%state_is_true _]. apply In_find in Hin; [|apply I].
    destruct P as (_ & _ & i & [Ei Es] & _). cbn in *. congruence.
  - intros now q msg tl M Hd. unfold handle_join.
    destruct (extract_int_spec 2 msg (gu_world junk) w tl M ltac:(lia) Fw Hd) as (m0 & -> & _ & _ & _ & _ & F0 & _).
    rewrite bind_ok. cbn beta iota. unfold join_world. destruct (Z.eqb_spec w 0); [done|]. rewrite bind_ok. cbn beta iota.
    unfold join_origin. destruct P as (Ho & Hz & i & [Ei Es] & Ew). rewrite Ho, Ei. unfold state_is.
    rewrite Es, bool_decide_eq_true_2, bind_ok by done. rewrite F0. exists m0. split; [done|].
    split; [done|]. split; [done|]. by exists i.
Qed.

(** *** Clocks *)

(** The exchange of clocks. The gateway answers a SYNC_CLOCK message with the time in it
    and its own; when the answer is handled, the client's clock is the gateway's, plus
    half the time that has passed since the request. *)
Theorem clocks_exchanged junkc now q msg c sent tl :
  Message_inv msg → from msg = c → drop (mcurr msg) (content msg) = le_bytes 8 sent ++ tl → fits 64 sent →
  reachable q c →
  ∃ v' m msg', handle_sync_request junk now q msg = Ok (with_net q v', msg') ∧ sends q v' c m
  ∧ msgtype m = code SYNC_CLOCK ∧ msggroup m = MSG_GROUP_VAST_CLIENT
  ∧ ∀ nowc (qc : mqueue N) cl note, Message_inv note → mcurr note = 0%nat → content note = content m →
      sent ≤ timestamp nowc qc →
      let latency := (timestamp nowc qc - sent) / 2 in
      timestamp now q + latency < 2 ^ 64 → Z.abs (timestamp now q + latency - timestamp nowc qc) < 2 ^ 31 →
      ∃ qc' note', handle_sync_clock junkc nowc qc cl note = Ok (qc', cl, note')
      ∧ timestamp nowc qc' = timestamp now q + latency.
Proof.
  intros M Ef Hd Fs Hr. unfold handle_sync_request, matcher_send, store_int.
  destruct (extract_int_spec 8 msg (gu_time junk) sent tl M ltac:(lia) Fs Hd) as (m0 & -> & _ & _ & _ & _ & F0 & _).
  rewrite bind_ok. cbn beta iota.
  destruct (store_built _ _ _ _ _ (le_bytes 8 sent) (new_msg_built SYNC_CLOCK) eq_refl) as (m1 & -> & B1 & A1). rewrite bind_ok. cbn beta iota.
  destruct (store_built _ _ _ _ _ (le_bytes 8 (timestamp now q)) B1 A1) as (m2 & -> & B2 & _). rewrite bind_ok. cbn beta iota.
  rewrite F0, Ef.
  destruct (handler_sends now q MSG_GROUP_VAST_MATCHER c _ _ _ _ Hr
    (addTarget_built _ _ _ _ c (group_built _ _ MSG_GROUP_VAST_CLIENT _ _ _ B2))) as (v' & m & -> & S & [_ T G _ C]).
  rewrite bind_ok. exists v', m, m0. split; [done|]. split; [done|]. split; [exact T|]. split; [exact G|].
  intros nowc qc cl note Mn Hn Cn Hle Hb Hi.
  destruct (clock_set junkc nowc qc cl note sent (timestamp now q) [] Mn) as (qc' & n' & E & Et); try done.
  - rewrite Hn, Cn, C, app_nil_r. done.
  - apply wrap_fits. lia.
  - by exists qc', n'.
Qed.
End spec.
