(* ===== verification/GatewayExamples.v ===== *)
(** A concrete gateway, on which the theorems about it apply: [hostA], with [hostB] as a
    candidate or as the origin of world 7. *)

From S2P Require Import Prelude Bytes StdMap Float Serial Subscription Message VastBuffer NetManager.
From S2P Require Import UdpHandler NetUdp NetInterface VastNet VastSend VastReceive VastLink VastExamples.
From S2P Require Import MessageQueue Routing QueueSafe Readable Handlers Client ClientSafe ClientSpec.
From S2P Require Import ClientFlow Node Built Gateway GatewaySafe GatewayProtocol GatewaySpec.
Local Open Scope Z_scope.

Definition gw_uninit_ex : gw_uninit := mkGwUninit 0 0 0 0.
Definition addr_B : Addr := mkAddr idB 1 ipB.

(** [hostB] has announced itself. *)
Definition gateway_ex : gateway_state := mkGW 2 [] [(idB, mkInfo (Some CANDIDATE) 0 addr_B 0)] [].

Lemma gateway_ex_inv : gateway_inv gateway_ex.
Proof. split; cbn; repeat constructor. Qed.

Lemma reach_candidate : reachable (notifyMapping queueA idB addr_B) idB.
Proof.
  split; [reflexivity|discriminate|apply new_bufs_ok|reflexivity|discriminate|reflexivity].
Qed.

Lemma addr_B_valid : Addr_valid addr_B.
Proof. unfold Addr_valid, IPaddr_valid. fits_all. Qed.

(** Client 5 (at [hostB], too) asks for world 7. *)
Definition join_msg (w : Z) : Message := bytes_msg 5 (code JOIN) (le_bytes 2 w ++ []) [idA].
Definition alive_msg : Message := bytes_msg idB (code MATCHER_ALIVE) (alive_bytes 7 addr_B 10 20 ++ []) [idA].

Lemma world_created_witness :
  ∃ v1 g1 msg1, handle_join gw_uninit_ex 5 queueA gateway_ex (join_msg 7)
      = Ok (with_net (notifyMapping queueA idB addr_B) v1, g1, msg1)
  ∧ ∃ v2 m2 g2 alive2, handle_alive gw_uninit_ex 9 queueA g1 alive_msg = Ok (with_net queueA v2, g2, alive2)
    ∧ find 7 (origins g2) = Some idB ∧ find 7 (requests g2) = None
    ∧ ∃ qc' cl' note', handle_notify_matcher queueA (with_state (VASTClient_new 0) JOINING)
          (bytes_msg idA (code NOTIFY_MATCHER) (content m2) [5]) = Ok (qc', cl', note')
      ∧ matcher_id cl' = idB ∧ c_state cl' = JOINED.
Proof.
  destruct (world_created gw_uninit_ex 5 queueA gateway_ex (join_msg 7) 7 5 idB (mkInfo (Some CANDIDATE) 0 addr_B 0) [])
    as (v1 & m1 & g1 & msg1 & E & _ & _ & O & R & A);
    [exact gateway_ex_inv|apply bytes_msg_inv|reflexivity|split; [discriminate|reflexivity]|discriminate
    |apply bytes_msg_content|reflexivity|reflexivity|reflexivity|reflexivity|exact addr_B_valid|exact reach_candidate|].
  exists v1, g1, msg1. split; [exact E|].
  destruct (A 9 queueA alive_msg addr_B 10 20 []) as (v2 & m2 & g2 & a2 & E2 & _ & _ & _ & _ & O2 & R2 & C);
    [apply bytes_msg_inv|reflexivity|exact addr_B_valid|split; [discriminate|reflexivity]|split; [discriminate|reflexivity]
    |apply bytes_msg_content|apply reach_B; reflexivity|].
  exists v2, m2, g2, a2. split; [exact E2|]. split; [exact O2|]. split; [exact R2|].
  apply C; [apply bytes_msg_inv|reflexivity|apply bytes_msg_content|reflexivity].
Defined.

(** World 7 has an origin at [hostA]'s matcher 4 and [hostB] as another matcher. *)
Definition gateway_two : gateway_state :=
  mkGW 2 [(7, 4)] [(4, mkInfo (Some ORIGIN) 7 (mkAddr 4 1 ipA) 0); (idB, mkInfo (Some ACTIVE) 7 addr_B 0)] [].

Lemma origin_replaced_witness :
  ∃ v' g', gateway_disconnect 5 queueA gateway_two 4 = Ok (with_net queueA v', g')
  ∧ find 7 (origins g') = Some idB ∧ find 4 (matchers g') = None.
Proof.
  destruct (origin_replaced 5 queueA gateway_two 4 (mkInfo (Some ORIGIN) 7 (mkAddr 4 1 ipA) 0))
    as (v' & m & g' & E & _ & _ & O & _ & M & _);
    [repeat constructor|repeat constructor|reflexivity|reflexivity|reflexivity|apply reach_B; reflexivity|].
  exists v', g'. split; [exact E|]. split; [exact O|exact M].
Defined.

(** [hostB] has been promoted and is lost. *)
Definition gateway_lost : gateway_state :=
  mkGW 2 [(7, idB)] [(idB, mkInfo (Some PROMOTING) 0 addr_B 0)] [(7, [5])].

Lemma lost_promotion_blocks_witness :
  gateway_disconnect 5 queueA gateway_lost idB = Ok (queueA, gateway_lost)
  ∧ ∃ msg', handle_join gw_uninit_ex 6 queueA gateway_lost (join_msg 7)
      = Ok (queueA, storeRequestingClient gateway_lost 7 5, msg').
Proof.
  destruct (lost_promotion_blocks (N := udp_link) gw_uninit_ex gateway_lost 7 idB) as (D & _ & J).
  - split; cbn; repeat constructor. by intros ?%elem_of_nil.
  - split; [reflexivity|]. split; [reflexivity|]. exists (mkInfo (Some PROMOTING) 0 addr_B 0).
    split; [split; reflexivity|reflexivity].
  - discriminate.
  - split; [discriminate|reflexivity].
  - split; [apply D|]. destruct (J 6 queueA (join_msg 7) []) as (msg' & E & _);
      [apply bytes_msg_inv|apply bytes_msg_content|]. exists msg'. exact E.
Defined.

(** Asked at 3, answered at 1002 on the gateway's clock, received at 7 *)
Lemma clocks_exchanged_witness :
  ∃ v' m msg', handle_sync_request gw_uninit_ex 1002 queueA (bytes_msg 5 (code SYNC_CLOCK) (le_bytes 8 3 ++ []) [idA])
    = Ok (with_net queueA v', msg')
  ∧ ∃ qc' note', handle_sync_clock uninit_ex 7 queueA (client_ex idB) (bytes_msg idA (code SYNC_CLOCK) (content m) [5])
      = Ok (qc', client_ex idB, note') ∧ timestamp 7 qc' = 1004.
Proof.
  destruct (clocks_exchanged gw_uninit_ex uninit_ex 1002 queueA (bytes_msg 5 (code SYNC_CLOCK) (le_bytes 8 3 ++ []) [idA]) 5 3 [])
    as (v' & m & msg' & E & _ & _ & _ & C);
    [apply bytes_msg_inv|reflexivity|apply bytes_msg_content|split; [discriminate|reflexivity]|apply reach_B; reflexivity|].
  exists v', m, msg'. split; [exact E|].
  apply (C 7 queueA (client_ex idB)); [apply bytes_msg_inv|reflexivity|apply bytes_msg_content|discriminate|reflexivity|reflexivity].
Defined.

(** [hostB] announces itself, is promoted for world 7 and reports; another matcher announces itself,
    is promoted for a peer that is overloaded, and reports that [hostB] is its origin. *)
Definition candidate_msg : Message := bytes_msg idB (code MATCHER_CANDIDATE) (wire addr_B) [idA].
Definition addr_C : Addr := mkAddr 77 1 ipB.
Definition candidate_C : Message := bytes_msg 77 (code MATCHER_CANDIDATE) (wire addr_C) [idA].
Definition alive_C : Message := bytes_msg 77 (code MATCHER_ALIVE)
  (le_bytes 1 0 ++ le_bytes 2 7 ++ wire addr_C ++ le_bytes 8 idB ++ le_bytes 8 10 ++ le_bytes 8 20) [idA].

Definition left_by {A B} (o : outcome (A * gateway_state * B)) : gateway_state :=
  match o with Ok (_, g, _) => g | Fail _ => gateway_new end.
Definition succeeds {A} (o : outcome A) : bool := match o with Ok _ => true | Fail _ => false end.

Lemma left_by_ok {A B} (o : outcome (A * gateway_state * B)) : succeeds o = true → ∃ q m, o = Ok (q, left_by o, m).
Proof. destruct o as [[[q g] m]|]; [|done]. by exists q, m. Qed.

Definition announces g (msg : Message) : gateway_state :=
  match handle_candidate 5 queueA g msg with Ok (g, _) => g | Fail _ => g end.
Definition announced : gateway_state := announces gateway_new candidate_msg.
Definition promoted : gateway_state := left_by (handle_join gw_uninit_ex 5 queueA announced (join_msg 7)).
Definition reported : gateway_state := left_by (handle_alive gw_uninit_ex 9 queueA promoted alive_msg).
Definition second : gateway_state := announces reported candidate_C.
Definition helping : gateway_state := match findCandidate second with Some (g, _) => g | None => second end.
Definition helped : gateway_state := left_by (handle_alive gw_uninit_ex 9 queueA helping alive_C).

Lemma announces_step g msg : succeeds (handle_candidate 5 queueA g msg) = true →
  gateway_step (N := udp_link) gw_uninit_ex g (announces g msg).
Proof.
  intros S. destruct (handle_candidate 5 queueA g msg) as [[g' m]|] eqn:E; [|done].
  apply (step_candidate gw_uninit_ex 5 queueA g msg _ m). unfold announces. by rewrite E.
Qed.

Lemma reports_step g msg f o : (match alive_fields gw_uninit_ex msg with Ok (_, x) => Some x | Fail _ => None end) = Some (0, 7, f, o) →
  honest g 7 (host_id f) o → succeeds (handle_alive gw_uninit_ex 9 queueA g msg) = true →
  gateway_step gw_uninit_ex g (left_by (handle_alive gw_uninit_ex 9 queueA g msg)).
Proof.
  intros F Hh S. destruct (left_by_ok _ S) as (q & m & E). eapply (step_alive _ _ _ _ msg); [|exact E].
  intros m' reply world a o' w Ef Ew. rewrite Ef in F. injection F as -> -> -> ->. by injection Ew as <-.
Qed.

Lemma helped_reached : rtc (gateway_step (N := udp_link) gw_uninit_ex) gateway_new helped.
Proof.
  apply (rtc_l _ gateway_new announced); [apply announces_step; by vm_compute|].
  apply (rtc_l _ announced promoted).
  { destruct (left_by_ok (handle_join gw_uninit_ex 5 queueA announced (join_msg 7))) as (q & m & E); [by vm_compute|].
    apply (step_join gw_uninit_ex 5 queueA announced (join_msg 7) q _ m); [by vm_compute|exact E]. }
  apply (rtc_l _ promoted reported).
  { apply (reports_step promoted alive_msg addr_B idB); [by vm_compute| |by vm_compute]. split.
    - intros _ _. left. by vm_compute.
    - intros i [E S]. vm_compute in E. injection E as <-. discriminate S. }
  apply (rtc_l _ reported second); [apply announces_step; by vm_compute|].
  apply (rtc_l _ second helping); [apply (step_insert _ second helping addr_C); by vm_compute|].
  apply (rtc_l _ helping helped); [|apply rtc_refl].
  apply (reports_step helping alive_C addr_C idB); [by vm_compute| |by vm_compute]. split.
  - intros _ _. right. split; [by vm_compute|]. intros w. assert (Eo : origins helping = [(7, idB)]) by by vm_compute.
    rewrite Eo. cbn [find]. by destruct (w =? 7).
  - intros _ _. left. by vm_compute.
Qed.

