(* ===== verification/VonInterfaces.v ===== *)
(** What a peer of the overlay is built on: a diagram, and the network of its host. Each is a
    class of operations and, with its laws, one of what the peer relies on.

    The interface [Voronoi] (common/Voronoi.h) is a diagram of sites with ids, as the peers use
    it. Queries fail where an implementation reads outside its containers; they leave the
    sites alone. [get_en] is used with [level] 1 only. *)

From S2P Require Import Prelude Bytes StdMap Float Serial Message NetManager VastBuffer.
From S2P Require Import NetInterface VastNet VastSend MessageQueue Routing QueueSafe.
From S2P Require Import Handlers.
Local Open Scope Z_scope.

Class Voronoi (V : Type) := {
  vor_empty : V;
  vor_insert : V → Z → Position → V;
  vor_remove : V → Z → V;
  vor_update : V → Z → Position → V;
  vor_get : V → Z → outcome Position;
  vor_contains : V → Z → Position → outcome bool;
  vor_is_boundary : V → Z → Position → Z → outcome bool;
  vor_is_enclosing : V → Z → Z → outcome bool;      (* the neighbor, then the center *)
  vor_get_en : V → Z → outcome (list Z);
  vor_overlaps : V → Z → Position → Z → bool → outcome bool;
  vor_closest_to : V → Position → Z;
}.

(** The sites of a diagram, and the laws the peers rely on: sites are inserted once, moved
    and removed by id, and a diagram that has a site answers every query; what it answers
    are ids of sites. *)
Class VoronoiLaws (V : Type) `{Voronoi V} := {
  vor_inv : V → Prop;
  sites : V → list (Z * Position);
  sites_nodup v : vor_inv v → NoDup (fst <$> sites v);
  inv_empty : vor_inv vor_empty;
  inv_insert v id p : vor_inv v → vor_inv (vor_insert v id p);
  inv_remove v id : vor_inv v → vor_inv (vor_remove v id);
  inv_update v id p : vor_inv v → vor_inv (vor_update v id p);
  sites_empty : sites vor_empty = [];
  sites_insert v id p :
    sites (vor_insert v id p) = if memb id (fst <$> sites v) then sites v else sites v ++ [(id, p)];
  sites_remove v id : vor_inv v → sites (vor_remove v id) = filter (λ s, fst s ≠ id) (sites v);
  sites_update v id p : vor_inv v →
    sites (vor_update v id p) = (λ s, if fst s =? id then (id, p) else s) <$> sites v;
  get_ok v id p : vor_inv v → (id, p) ∈ sites v → vor_get v id = Ok p;
  contains_ok v id p : vor_inv v → sites v ≠ [] → ∃ b, vor_contains v id p = Ok b;
  boundary_ok v id p r : vor_inv v → sites v ≠ [] → ∃ b, vor_is_boundary v id p r = Ok b;
  enclosing_ok v id c : vor_inv v → sites v ≠ [] → ∃ b, vor_is_enclosing v id c = Ok b;
  enclosing_site v id c : vor_inv v → vor_is_enclosing v id c = Ok true → id ∈ (fst <$> sites v);
  enclosing_empty id c : vor_is_enclosing vor_empty id c = Ok false;
  get_en_ok v id : vor_inv v → sites v ≠ [] →
    ∃ l, vor_get_en v id = Ok l ∧ Forall (λ i, i ∈ (fst <$> sites v)) l;
  overlaps_ok v id p r b : vor_inv v → sites v ≠ [] → ∃ k, vor_overlaps v id p r b = Ok k;
  closest_ok v p : vor_inv v → sites v ≠ [] → vor_closest_to v p ∈ (fst <$> sites v);
}.

(** ** The interface [VONNetwork] (VAST/VONNetwork.h), by which a peer of the overlay uses the
    network of its host, and its implementation by a matcher (VAST/VASTMatcher.cpp), which
    sends through its message queue. [receiveVONMessage] of a matcher returns [NULL]:
    messages are handed to the peer directly. *)

Class VONNetwork (S : Type) := {
  (* now, the message, [is_reliable]: the message, whose header may change, the failed
     targets and the value returned *)
  sendVONMessage : Z → S → Message → bool → outcome (S * Message * list Z * Z);
  notifyAddressMapping : S → Z → Addr → S;
  getHostAddress : S → Addr;
  getTimestamp : Z → S → Z;
  getTimestampPerSecond : S → Z }.

(** What a peer relies on: sending does not fail, and changes the header of the message
    only. *)
Class VONNetworkLaws (S : Type) `{VONNetwork S} := {
  net_good : S → Prop;
  send_good now s m r : net_good s → Message_inv m →
    ∃ s' m' failed k, sendVONMessage now s m r = Ok (s', m', failed, k) ∧ net_good s'
    ∧ same_content m m' ∧ incl failed (targets m);
  mapping_good s id a : net_good s → net_good (notifyAddressMapping s id a) }.

Definition set_reliable (m : Message) (r : bool) : Message :=
  mkMsg (from m) (msize m) (msgtype m) (msggroup m) (priority m) (if r then 1 else 0) (mdata m)
        (targets m) (mfree m) (mcurr m) (malloc m).

Section matcher.
Context {N : Type} `{NetManagerLaws N}.

#[export] Instance matcher_network : VONNetwork (mqueue N) := {
  sendVONMessage now q m r := handler_sendMessage now q MSG_GROUP_VAST_MATCHER (set_reliable m r);
  notifyAddressMapping := notifyMapping;
  getHostAddress q := getAddress (manager (net q));
  getTimestamp := timestamp;
  getTimestampPerSecond := per_second }.

#[export] Program Instance matcher_network_laws : VONNetworkLaws (mqueue N) := {
  net_good q := net_inv (net q) }.
Next Obligation.
  intros now q m r I Hm.
  destruct (handler_send_safe now q MSG_GROUP_VAST_MATCHER (set_reliable m r) I Hm)
    as (q' & m' & f & k & E & (S & _) & C & F).
  exists q', m', f, k. splits; try done; apply S.
Qed.
Next Obligation. intros q id a I. by apply notify_inv. Qed.
End matcher.
