(* ===== verification/VoronoiSF.v ===== *)
(** The Voronoi diagram of a peer: common/VoronoiSF.cpp, the queries of
    common/VoronoiSFAlgorithm.cpp and the plane geometry of common/VASTTypes.h. Coordinates
    are [double]s here.

    [calsfv] (Sweep.v) computes a diagram; a diagram without sites cannot be computed. *)

From S2P Require Import Prelude Bytes StdMap Float Serial Geometry Sweep VonInterfaces.
From Stdlib Require Import Floats.SpecFloat.
Local Open Scope Z_scope.

(** *** A diagram: the sites with the indices of their edges *)

Record sfVoronoi := mkDiagram {
  mSites : list (point2d * list Z); mLines : list line2d; mVertex : list point2d }.

Definition no_diagram : sfVoronoi := mkDiagram [] [] [].

(** [mSites[index].mEdgeIndexSet] *)
Definition edges_of (d : sfVoronoi) (index : Z) : outcome (list Z) :=
  '(_, es) ← at_int (mSites d) index; Ok es.

Fixpoint neighbors_by (d : sfVoronoi) (index : Z) (es : list Z) (nset : list Z) : outcome (list Z) :=
  match es with
  | [] => Ok nset
  | j :: es =>
      l ← at_int (mLines d) j;
      let '(a, b) := bisecting l in
      neighbors_by d index es (set_insert (if a =? index then b else a) nset)
  end.

(** [getNeighborSet (index, nset)] *)
Definition getNeighborSet (d : sfVoronoi) (index : Z) (nset : list Z) : outcome (list Z) :=
  if (index <? 0) || (Z.of_nat (length (mSites d)) <=? index) then Ok nset else
  es ← edges_of d index;
  neighbors_by d index es [].

(** The [double] nearest to 0.001 *)
Definition MARGIN : spec_float := S754_finite false 4611686018427388 (-62).

Definition eval_line (l : line2d) (p : point2d) : spec_float := f64_add (f64_mul (la l) (px p)) (f64_mul (lb l) (py p)).

Fixpoint same_sides (d : sfVoronoi) (site p : point2d) (es : list Z) : outcome bool :=
  match es with
  | [] => Ok true
  | j :: es =>
      l ← at_int (mLines d) j;
      let b1 := SFltb (lc l) (eval_line l site) in
      let b2 := if SFltb (SFabs (f64_sub (eval_line l p) (lc l))) MARGIN then b1
                else SFltb (lc l) (eval_line l p) in
      if Bool.eqb b1 b2 then same_sides d site p es else Ok false
  end.

Definition isPointInsideSiteRegion (d : sfVoronoi) (index : Z) (p : point2d) : outcome bool :=
  '(site, es) ← at_int (mSites d) index;
  same_sides d site p es.

Fixpoint all_inside (d : sfVoronoi) (c : point2d) (r : Z) (es : list Z) : outcome bool :=
  match es with
  | [] => Ok true
  | j :: es =>
      l ← at_int (mLines d) j;
      let '(i1, i2) := vertexIndex l in
      if (i1 =? -1) || (i2 =? -1) then Ok false else
      v1 ← at_int (mVertex d) i1;
      if SFleb (f64_of_Z r) (point_distance c v1) then Ok false else
      v2 ← at_int (mVertex d) i2;
      if SFleb (f64_of_Z r) (point_distance c v2) then Ok false else
      all_inside d c r es
  end.

(** [enclosed (index, center, radius)] *)
Definition enclosed (d : sfVoronoi) (index : Z) (c : point2d) (r : Z) : outcome bool :=
  es ← edges_of d index;
  all_inside d c r es.

(** A vertex is in the circle; -1 is none. *)
Definition vertex_in (d : sfVoronoi) (c : point2d) (r : Z) (i : Z) : outcome bool :=
  if i =? -1 then Ok false else
  v ← at_int (mVertex d) i;
  Ok (SFleb (point_distance v c) (f64_of_Z r)).

Fixpoint any_edge (d : sfVoronoi) (c : point2d) (r : Z) (es : list Z) : outcome bool :=
  match es with
  | [] => Ok false
  | j :: es =>
      l ← at_int (mLines d) j;
      b1 ← vertex_in d c r (fst (vertexIndex l));
      if b1 : bool then Ok true else
      b2 ← vertex_in d c r (snd (vertexIndex l));
      if b2 : bool then Ok true else
      if segment_intersects (seg l) c r then Ok true else any_edge d c r es
  end.

(** [collides (index, center, radius)] *)
Definition collides (d : sfVoronoi) (index : Z) (c : point2d) (r : Z) : outcome bool :=
  b ← isPointInsideSiteRegion d index c;
  if b : bool then Ok true else
  es ← edges_of d index;
  any_edge d c r es.

(** *** The sites of a peer *)

Record VoronoiSF := mkSF { invalidated : bool; diagram : sfVoronoi; vsites : list (Z * Position) }.

Definition VSF_new : VoronoiSF := mkSF false no_diagram [].

Fixpoint idx_from (i : Z) (h : Z) (l : list (Z * Position)) : Z :=
  match l with
  | [] => -1
  | (id, _) :: l => if id =? h then i else idx_from (i + 1) h l
  end.
Definition get_idx (v : VoronoiSF) (h : Z) : Z := idx_from 0 h (vsites v).

Definition VSF_insert (v : VoronoiSF) (id : Z) (p : Position) : VoronoiSF :=
  if get_idx v id =? -1 then mkSF true (diagram v) (vsites v ++ [(id, p)]) else v.

Definition VSF_remove (v : VoronoiSF) (id : Z) : VoronoiSF :=
  let idx := get_idx v id in
  if idx =? -1 then v else mkSF true (diagram v) (delete (Z.to_nat idx) (vsites v)).

Definition VSF_update (v : VoronoiSF) (id : Z) (p : Position) : VoronoiSF :=
  let idx := get_idx v id in
  if idx =? -1 then v else
  mkSF true (diagram v) (alter (λ s, (fst s, p)) (Z.to_nat idx) (vsites v)).

Definition VSF_get (v : VoronoiSF) (id : Z) : outcome Position :=
  '(_, p) ← at_int (vsites v) (get_idx v id); Ok p.

(** [EQUAL_DISTANCE] settles which of two sites is closer by their ids. *)
Fixpoint closest_loop (p : Position) (l : list (Z * Position)) (closest : Z) (mn : spec_float) : Z :=
  match l with
  | [] => closest
  | (id, q) :: l =>
      let d := f64_of_f32 (distance p q) in
      if SFltb d mn || (SFltb (f64_sub d mn) EQUAL_DISTANCE && (id <? closest))
      then closest_loop p l id d else closest_loop p l closest mn
  end.

Definition VSF_closest_to (v : VoronoiSF) (p : Position) : Z :=
  match vsites v with
  | [] => 0
  | (id, q) :: _ => closest_loop p (vsites v) id (f64_of_f32 (distance p q))
  end.

Section queries.
Context (qsort : (Site → Site → comparison) → list Site → list Site).
Implicit Types v : VoronoiSF.

Definition compute (l : list (Z * Position)) : outcome sfVoronoi :=
  let pts := (λ s, point_of (snd s)) <$> l in
  '(es, ls, vs) ← calsfv qsort pts;
  Ok (mkDiagram (zip pts es) ls vs).

Definition recompute v : outcome VoronoiSF :=
  if negb (invalidated v) then Ok v else
  d ← compute (vsites v);
  Ok (mkSF false d (vsites v)).

Definition VSF_contains v (id : Z) (p : Position) : outcome (VoronoiSF * bool) :=
  let idx := get_idx v id in
  if idx =? -1 then Ok (v, false) else
  v ← recompute v;
  b ← isPointInsideSiteRegion (diagram v) idx (point_of p);
  Ok (v, b).

Definition VSF_is_boundary v (id : Z) (p : Position) (r : Z) : outcome (VoronoiSF * bool) :=
  let idx := get_idx v id in
  if idx =? -1 then Ok (v, false) else
  v ← recompute v;
  b ← enclosed (diagram v) idx (point_of p) r;
  Ok (v, negb b).

(** The ids of the sites with the indices [l] *)
Fixpoint ids_at v (l : list Z) : outcome (list Z) :=
  match l with
  | [] => Ok []
  | i :: l => '(id, _) ← at_int (vsites v) i; r ← ids_at v l; Ok (id :: r)
  end.

(** The loop stops at the site it looks for. *)
Fixpoint site_among v (id : Z) (l : list Z) : outcome bool :=
  match l with
  | [] => Ok false
  | i :: l => '(h, _) ← at_int (vsites v) i; if h =? id then Ok true else site_among v id l
  end.

(** [(id_t)(-1)] is the first site. *)
Definition VSF_is_enclosing v (id center : Z) : outcome (VoronoiSF * bool) :=
  v ← recompute v;
  l ← getNeighborSet (diagram v) (if center =? u64 (-1) then 0 else get_idx v center) [];
  b ← site_among v id l;
  Ok (v, b).

(** [get_en (id, 1)] *)
Definition VSF_get_en v (id : Z) : outcome (VoronoiSF * list Z) :=
  v ← recompute v;
  l ← getNeighborSet (diagram v) (get_idx v id) [];
  r ← ids_at v l;
  Ok (v, r).

Definition VSF_overlaps v (id : Z) (p : Position) (r : Z) (accurate : bool) : outcome (VoronoiSF * bool) :=
  let idx := get_idx v id in
  if idx =? -1 then Ok (v, false) else
  if accurate then
    v ← recompute v;
    b ← collides (diagram v) idx (point_of p) (r + 5);
    Ok (v, b)
  else
    '(_, q) ← at_int (vsites v) idx;
    Ok (v, SFleb (f64_of_f32 (distance q p)) (f64_of_Z r)).

(** The interface; that a query computes the diagram anew cannot be observed
    ([recompute_same]). *)
#[export] Instance SF_voronoi : Voronoi VoronoiSF := {
  vor_empty := VSF_new;
  vor_insert := VSF_insert;
  vor_remove := VSF_remove;
  vor_update := VSF_update;
  vor_get := VSF_get;
  vor_contains v id p := snd <$> VSF_contains v id p;
  vor_is_boundary v id p r := snd <$> VSF_is_boundary v id p r;
  vor_is_enclosing v id c := snd <$> VSF_is_enclosing v id c;
  vor_get_en v id := snd <$> VSF_get_en v id;
  vor_overlaps v id p r b := snd <$> VSF_overlaps v id p r b;
  vor_closest_to := VSF_closest_to }.
End queries.
