(* ===== verification/VoronoiSFSafe.v ===== *)
(** [VoronoiSF] keeps its sites distinct and its diagram that of its sites; it answers the
    queries of the interface [Voronoi] whenever it has a site, and that a query computes
    the diagram anew cannot be observed. *)

From S2P Require Import Prelude Bytes StdMap Float Serial Geometry Sweep SweepParts SweepSpec.
From S2P Require Import VonInterfaces VoronoiSF.
Local Open Scope Z_scope.

Lemma at_int_ok {A} (l : list A) i : 0 ≤ i < Z.of_nat (length l) → ∃ x, at_int l i = Ok x ∧ x ∈ l.
Proof.
  intros Hi. unfold at_int. destruct (Z.ltb_spec i 0); [lia|].
  destruct (lookup_lt_is_Some_2 l (Z.to_nat i)) as [x Hx]; [lia|].
  exists x. split; [by apply at_idx_ok|]. by eapply list_elem_of_lookup_2.
Qed.

Lemma at_int_nat {A} (l : list A) i x : l !! i = Some x → at_int l (Z.of_nat i) = Ok x.
Proof. intros Hx. unfold at_int. destruct (Z.ltb_spec (Z.of_nat i) 0); [lia|]. rewrite Nat2Z.id. by apply at_idx_ok. Qed.

(** *** Indices *)

Lemma idx_from_spec i h l :
  (idx_from i h l = -1 ∧ h ∉ (fst <$> l)) ∨
  (∃ n q, idx_from i h l = i + Z.of_nat n ∧ l !! n = Some (h, q) ∧ h ∉ (fst <$> take n l)).
Proof.
  revert i. induction l as [|[id q] l IH]; intros i; cbn [idx_from].
  { left. split; [done|apply not_elem_of_nil]. }
  destruct (Z.eqb_spec id h) as [->|Hne].
  { right. exists 0%nat, q. rewrite Z.add_0_r. splits; try done. apply not_elem_of_nil. }
  destruct (IH (i + 1)) as [[-> Hn]|(n & q' & -> & L & Hn)]; [left|right].
  - split; [done|]. rewrite fmap_cons. apply not_elem_of_cons. by split; [apply not_eq_sym|].
  - exists (S n), q'. splits; [lia|done|]. rewrite firstn_cons, fmap_cons. apply not_elem_of_cons. by split; [apply not_eq_sym|].
Qed.

Lemma get_idx_spec v h :
  (get_idx v h = -1 ∧ h ∉ (fst <$> vsites v)) ∨
  (∃ n q, get_idx v h = Z.of_nat n ∧ vsites v !! n = Some (h, q) ∧ h ∉ (fst <$> take n (vsites v))).
Proof. apply (idx_from_spec 0). Qed.

(** The only site with id [h] in a list of distinct sites *)
Lemma site_split (l : list (Z * Position)) n h q : NoDup (fst <$> l) → l !! n = Some (h, q) →
  ∃ a b, l = a ++ ((h, q) :: b) ∧ length a = n ∧ (h ∉ (fst <$> a)) ∧ (h ∉ (fst <$> b)).
Proof.
  intros D Hl. exists (take n l), (drop (S n) l). splits.
  - symmetry. by apply take_drop_middle.
  - rewrite length_take. apply lookup_lt_Some in Hl. lia.
  - rewrite <- (take_drop_middle l n (h, q) Hl), fmap_app, fmap_cons in D.
    apply NoDup_app in D as (_ & D & _). intros Hin. apply (D h Hin). left.
  - rewrite <- (take_drop_middle l n (h, q) Hl), fmap_app, fmap_cons in D.
    apply NoDup_app in D as (_ & _ & D). by apply NoDup_cons in D as [? _].
Qed.

(** *** The diagram of the sites *)

Section diagram.
Context (qsort : (Site → Site → comparison) → list Site → list Site) (Hq : ∀ c l, qsort c l ≡ₚ l).
Implicit Types v : VoronoiSF.

(** The indices of a diagram with [n] sites are in range. *)
Record diagram_ok (n : nat) (d : sfVoronoi) : Prop := mk_diagram_ok {
  dg_length : length (mSites d) = n;
  dg_edges : Forall (λ s, Forall (λ j, 0 ≤ j < Z.of_nat (length (mLines d))) (snd s)) (mSites d);
  dg_bis : Forall (λ l, (0 ≤ fst (bisecting l) < Z.of_nat n) ∧ (0 ≤ snd (bisecting l) < Z.of_nat n)) (mLines d);
  dg_vtx : Forall (λ l, (fst (vertexIndex l) = -1 ∨ 0 ≤ fst (vertexIndex l) < Z.of_nat (length (mVertex d)))
                      ∧ (snd (vertexIndex l) = -1 ∨ 0 ≤ snd (vertexIndex l) < Z.of_nat (length (mVertex d)))) (mLines d) }.

Lemma compute_ok l : l ≠ [] → ∃ d, compute qsort l = Ok d ∧ diagram_ok (length l) d.
Proof.
  intros Hne. unfold compute. set (pts := (λ s, point_of (snd s)) <$> l).
  assert (Hp : length pts = length l) by apply length_fmap.
  destruct (calsfv_ok qsort Hq pts) as (st & -> & O & _); [by destruct l|]. rewrite bind_ok. cbn beta iota. eexists. split; [done|].
  rewrite <- Hp. assert (L : length (zip pts (w_sites st)) = length pts) by (rewrite length_zip_with, (o_sites _ _ O); lia).
  split; cbn [mSites mLines mVertex]; [done| | |].
  - apply Forall_forall. intros [p es] Hin%elem_of_zip_r. apply list_elem_of_lookup in Hin as [i Hi].
    apply Forall_forall. intros k Hk. apply (o_sets _ _ O i es k Hi) in Hk as (j & x & -> & Hx & _). apply lookup_lt_Some in Hx. lia.
  - apply Forall_forall. intros x Hx. apply list_elem_of_lookup in Hx as [k Hk].
    apply (lines_sites _ st k x O Hk).
  - apply Forall_forall. intros x Hx. apply list_elem_of_lookup in Hx as [k Hk]. apply (o_ends _ _ O k x Hk).
Qed.

Section queries.
Context (n : nat) (d : sfVoronoi) (D : diagram_ok n d).

Definition edge_list (es : list Z) : Prop := Forall (λ j, 0 ≤ j < Z.of_nat (length (mLines d))) es.

Lemma site_at i : 0 ≤ i < Z.of_nat n → ∃ s es, at_int (mSites d) i = Ok (s, es) ∧ edge_list es.
Proof.
  intros Hi. destruct (at_int_ok (mSites d) i) as ([s es] & E & Hin); [by rewrite (dg_length _ _ D)|].
  exists s, es. split; [done|]. by apply (proj1 (Forall_forall _ _) (dg_edges _ _ D)) in Hin.
Qed.

Lemma line_at j : 0 ≤ j < Z.of_nat (length (mLines d)) → ∃ l, at_int (mLines d) j = Ok l ∧ l ∈ mLines d.
Proof. apply at_int_ok. Qed.

Lemma set_insert_in k x l : x ∈ set_insert k l → x = k ∨ x ∈ l.
Proof.
  unfold set_insert. rewrite !list_elem_of_fmap. intros ([y u] & -> & Hin). cbn.
  assert (F : Forall (λ p, fst p = k ∨ fst p ∈ l) (set k () ((λ i, (i, ())) <$> l))).
  { apply Forall_set; [by left|]. apply Forall_fmap, Forall_forall. intros z Hz. by right. }
  by apply (proj1 (Forall_forall _ _) F) in Hin.
Qed.

Lemma neighbors_by_ok index es nset : edge_list es →
  Forall (λ i, 0 ≤ i < Z.of_nat n) nset →
  ∃ l, neighbors_by d index es nset = Ok l ∧ Forall (λ i, 0 ≤ i < Z.of_nat n) l.
Proof.
  intros He. revert nset. induction He as [|j es Hj He IH]; intros nset Hn; cbn [neighbors_by]; [eauto|].
  destruct (line_at j Hj) as (l & -> & Hl). rewrite bind_ok. destruct (bisecting l) as [a b] eqn:Eb.
  apply IH. apply Forall_forall. intros x [->|Hx]%set_insert_in; [|by apply (proj1 (Forall_forall _ _) Hn)].
  apply (proj1 (Forall_forall _ _) (dg_bis _ _ D)) in Hl. rewrite Eb in Hl. cbn in Hl. destruct (a =? index); apply Hl.
Qed.

Lemma getNeighborSet_ok i : ∃ l, getNeighborSet d i [] = Ok l ∧ Forall (λ i, 0 ≤ i < Z.of_nat n) l.
Proof.
  unfold getNeighborSet. rewrite (dg_length _ _ D). destruct (Z.ltb_spec i 0); cbn [orb]; [eauto|].
  destruct (Z.leb_spec (Z.of_nat n) i); cbn [orb]; [eauto|].
  unfold edges_of. destruct (site_at i) as (s & es & -> & He); [lia|]. rewrite !bind_ok. by apply neighbors_by_ok.
Qed.

Lemma inside_ok i p : 0 ≤ i < Z.of_nat n → ∃ b, isPointInsideSiteRegion d i p = Ok b.
Proof.
  intros Hi. unfold isPointInsideSiteRegion. destruct (site_at i Hi) as (s & es & -> & He). rewrite bind_ok.
  induction He as [|j es Hj He IH]; cbn [same_sides]; [eauto|].
  destruct (line_at j Hj) as (l & -> & _). rewrite bind_ok. cbv zeta. destruct (Bool.eqb _ _); eauto.
Qed.

Lemma vertex_at l i : l ∈ mLines d → i = fst (vertexIndex l) ∨ i = snd (vertexIndex l) → i ≠ -1 →
  ∃ p, at_int (mVertex d) i = Ok p.
Proof.
  intros Hl Hi Hne. apply (proj1 (Forall_forall _ _) (dg_vtx _ _ D)) in Hl as [H1 H2].
  assert (0 ≤ i < Z.of_nat (length (mVertex d))) as R by (destruct Hi as [-> | ->]; lia).
  destruct (at_int_ok _ _ R) as (p & ? & _). by exists p.
Qed.

Lemma enclosed_ok i c r : 0 ≤ i < Z.of_nat n → ∃ b, enclosed d i c r = Ok b.
Proof.
  intros Hi. unfold enclosed, edges_of. destruct (site_at i Hi) as (s & es & -> & He). rewrite !bind_ok.
  induction He as [|j es Hj He IH]; cbn [all_inside]; [eauto|].
  destruct (line_at j Hj) as (l & -> & Hl). rewrite bind_ok. pose proof (vertex_at l) as Hv.
  destruct (vertexIndex l) as [i1 i2]. cbn [fst snd] in Hv.
  destruct (Z.eqb_spec i1 (-1)); [eauto|]. destruct (Z.eqb_spec i2 (-1)); [eauto|]. cbn [orb].
  destruct (Hv i1 Hl) as (q1 & ->); [auto|done|]. rewrite bind_ok. case_match; [eauto|].
  destruct (Hv i2 Hl) as (q2 & ->); [auto|done|]. rewrite bind_ok. case_match; eauto.
Qed.

Lemma vertex_in_ok l c r i : l ∈ mLines d → i = fst (vertexIndex l) ∨ i = snd (vertexIndex l) →
  ∃ b, vertex_in d c r i = Ok b.
Proof.
  intros Hl Hi. unfold vertex_in. destruct (Z.eqb_spec i (-1)); [eauto|].
  destruct (vertex_at l i Hl Hi) as (p & ->); [done|]. rewrite bind_ok. eauto.
Qed.

Lemma collides_ok i c r : 0 ≤ i < Z.of_nat n → ∃ b, collides d i c r = Ok b.
Proof.
  intros Hi. unfold collides. destruct (inside_ok i c Hi) as ([] & ->); rewrite bind_ok; [eauto|].
  unfold edges_of. destruct (site_at i Hi) as (s & es & -> & He). rewrite !bind_ok.
  induction He as [|j es Hj He IH]; cbn [any_edge]; [eauto|].
  destruct (line_at j Hj) as (l & -> & Hl). rewrite bind_ok.
  destruct (vertex_in_ok l c r _ Hl (or_introl eq_refl)) as ([] & ->); rewrite bind_ok; [eauto|].
  destruct (vertex_in_ok l c r _ Hl (or_intror eq_refl)) as ([] & ->); rewrite bind_ok; [eauto|].
  destruct (segment_intersects _ _ _); eauto.
Qed.
End queries.

(** *** The sites and the cache *)

Record sf_inv v : Prop := mk_sf_inv {
  sf_nodup : NoDup (fst <$> vsites v);
  sf_cache : invalidated v = false → vsites v ≠ [] → compute qsort (vsites v) = Ok (diagram v) }.

(** That a query computes the diagram anew is not observable: afterwards the sites are the
    same and the diagram is the one a query would have seen. *)
Lemma recompute_same v : sf_inv v → vsites v ≠ [] →
  ∃ v', recompute qsort v = Ok v' ∧ sf_inv v' ∧ vsites v' = vsites v ∧ invalidated v' = false
  ∧ compute qsort (vsites v) = Ok (diagram v') ∧ diagram_ok (length (vsites v)) (diagram v').
Proof.
  intros [D C] Hne. destruct (compute_ok (vsites v) Hne) as (d & Ed & Dd). unfold recompute. destruct (invalidated v) eqn:Ei; cbn [negb].
  - rewrite Ed, bind_ok. eexists. splits; [reflexivity|by split|done|done|done|done].
  - exists v. specialize (C eq_refl Hne). assert (diagram v = d) as E by congruence. splits; try done; by rewrite E.
Qed.

Lemma SF_insert_sites v id p :
  vsites (VSF_insert v id p) = if memb id (fst <$> vsites v) then vsites v else vsites v ++ [(id, p)].
Proof.
  unfold VSF_insert. destruct (get_idx_spec v id) as [[-> Hn]|(n & q & -> & L & _)].
  - by rewrite (proj2 (memb_false _ _) Hn).
  - destruct (Z.eqb_spec (Z.of_nat n) (-1)); [lia|].
    rewrite (proj2 (memb_true _ _)); [done|]. apply list_elem_of_fmap. exists (id, q). split; [done|].
    by eapply list_elem_of_lookup_2.
Qed.

Lemma others_kept id (l : list (Z * Position)) : id ∉ (fst <$> l) → filter (λ s, fst s ≠ id) l = l.
Proof.
  intros Hn. apply filter_every, Forall_forall. intros s Hs E. apply Hn. apply list_elem_of_fmap. by exists s.
Qed.

Lemma others_same id p (l : list (Z * Position)) : id ∉ (fst <$> l) →
  (λ s, if fst s =? id then (id, p) else s) <$> l = l.
Proof.
  induction l as [|[k q] l IH]; [done|]. rewrite fmap_cons, not_elem_of_cons. cbn [fst]. intros [Hne Hl].
  rewrite fmap_cons, IH by done. cbn [fst]. by destruct (Z.eqb_spec k id).
Qed.

Lemma SF_remove_sites v id : sf_inv v → vsites (VSF_remove v id) = filter (λ s, fst s ≠ id) (vsites v).
Proof.
  intros [D _]. unfold VSF_remove. cbv zeta. destruct (get_idx_spec v id) as [[-> Hn]|(n & q & -> & L & _)].
  - by rewrite others_kept.
  - destruct (Z.eqb_spec (Z.of_nat n) (-1)); [lia|]. cbn [vsites]. rewrite Nat2Z.id.
    destruct (site_split _ _ _ _ D L) as (a & b & E & <- & Ha & Hb). rewrite E.
    rewrite delete_middle, filter_app, filter_cons, decide_False by (cbn; auto).
    by rewrite !others_kept.
Qed.

Lemma SF_update_sites v id p : sf_inv v →
  vsites (VSF_update v id p) = (λ s, if fst s =? id then (id, p) else s) <$> vsites v.
Proof.
  intros [D _]. unfold VSF_update. cbv zeta. destruct (get_idx_spec v id) as [[-> Hn]|(n & q & -> & L & _)].
  - by rewrite others_same.
  - destruct (Z.eqb_spec (Z.of_nat n) (-1)); [lia|]. cbn [vsites]. rewrite Nat2Z.id.
    destruct (site_split _ _ _ _ D L) as (a & b & E & <- & Ha & Hb). rewrite E.
    rewrite alter_app_r_alt, Nat.sub_diag by done. cbn [alter list_alter fst].
    rewrite fmap_app, fmap_cons, !others_same by done. cbn [fst]. by rewrite Z.eqb_refl.
Qed.

Lemma update_ids id p (l : list (Z * Position)) :
  fst <$> ((λ s, if fst s =? id then (id, p) else s) <$> l) = fst <$> l.
Proof.
  rewrite <- list_fmap_compose. apply list_fmap_ext. intros _ [k q] _. cbn. by destruct (Z.eqb_spec k id).
Qed.

Lemma SF_insert_inv v id p : sf_inv v → sf_inv (VSF_insert v id p).
Proof.
  intros I. split; [rewrite SF_insert_sites|].
  - destruct (memb id _) eqn:E; [apply I|]. rewrite fmap_app. apply NoDup_app. splits; [apply I| |apply NoDup_singleton].
    apply memb_false in E. intros x Hx ->%list_elem_of_singleton. done.
  - unfold VSF_insert. destruct (get_idx v id =? -1); [done|apply I].
Qed.

Lemma SF_remove_inv v id : sf_inv v → sf_inv (VSF_remove v id).
Proof.
  intros I. split; [rewrite SF_remove_sites by done|].
  - eapply sublist_NoDup; [apply I|]. apply fmap_sublist, sublist_filter.
  - unfold VSF_remove. cbv zeta. destruct (get_idx v id =? -1); [apply I|done].
Qed.

Lemma SF_update_inv v id p : sf_inv v → sf_inv (VSF_update v id p).
Proof.
  intros I. split; [rewrite SF_update_sites by done|].
  - rewrite update_ids. apply I.
  - unfold VSF_update. cbv zeta. destruct (get_idx v id =? -1); [apply I|done].
Qed.

(** *** The interface *)

Lemma index_range v id : ∀ n q, vsites v !! n = Some (id, q) → 0 ≤ Z.of_nat n < Z.of_nat (length (vsites v)).
Proof. intros n q L. apply lookup_lt_Some in L. lia. Qed.

(** A query about a site: false for no site, else it looks at the diagram. *)
Ltac site_query v id Hi Hr :=
  destruct (get_idx_spec v id) as [[-> _]|(n & q & -> & L & _)]; [by exists false|];
  destruct (Z.eqb_spec (Z.of_nat n) (-1)); [lia|];
  destruct (recompute_same v Hi) as (v' & Hr & _ & _ & _ & _ & DD); [by intros E; rewrite E in L|];
  rewrite Hr, bind_ok.

Lemma SF_contains_ok v id p : sf_inv v → ∃ b, snd <$> VSF_contains qsort v id p = Ok b.
Proof.
  intros I. unfold VSF_contains. cbv zeta. site_query v id I Hr.
  destruct (inside_ok _ _ DD (Z.of_nat n) (point_of p)) as (b & ->);
    [by eapply index_range|]. by exists b.
Qed.

Lemma SF_boundary_ok v id p r : sf_inv v → ∃ b, snd <$> VSF_is_boundary qsort v id p r = Ok b.
Proof.
  intros I. unfold VSF_is_boundary. cbv zeta. site_query v id I Hr.
  destruct (enclosed_ok _ _ DD (Z.of_nat n) (point_of p) r) as (b & ->);
    [by eapply index_range|]. by exists (negb b).
Qed.

Lemma SF_overlaps_ok v id p r acc : sf_inv v → ∃ b, snd <$> VSF_overlaps qsort v id p r acc = Ok b.
Proof.
  intros I. unfold VSF_overlaps. cbv zeta. destruct acc.
  - site_query v id I Hr.
    destruct (collides_ok _ _ DD (Z.of_nat n) (point_of p) (r + 5)) as (b & ->);
      [by eapply index_range|]. by exists b.
  - destruct (get_idx_spec v id) as [[-> _]|(n & q & -> & L & _)]; [by exists false|].
    destruct (Z.eqb_spec (Z.of_nat n) (-1)); [lia|]. rewrite (at_int_nat _ _ _ L). by eexists.
Qed.

(** The neighbors of a site are sites. *)
Lemma ids_at_ok v l : Forall (λ i, 0 ≤ i < Z.of_nat (length (vsites v))) l →
  ∃ r, ids_at v l = Ok r ∧ Forall (λ i, i ∈ (fst <$> vsites v)) r.
Proof.
  induction 1 as [|i l Hi Hl (r & E & F)]; cbn [ids_at]; [by exists []|].
  destruct (at_int_ok _ _ Hi) as ([id q] & -> & Hin). rewrite bind_ok, E, bind_ok. eexists. split; [done|].
  constructor; [|done]. apply list_elem_of_fmap. by exists (id, q).
Qed.

Lemma site_among_ok v id l : Forall (λ i, 0 ≤ i < Z.of_nat (length (vsites v))) l → ∃ b, site_among v id l = Ok b.
Proof.
  induction 1 as [|i l Hi Hl IH]; cbn [site_among]; [by exists false|].
  destruct (at_int_ok _ _ Hi) as ([h q] & -> & Hin). rewrite bind_ok. destruct (h =? id); eauto.
Qed.

Lemma SF_get_en_ok v id : sf_inv v → vsites v ≠ [] →
  ∃ l, snd <$> VSF_get_en qsort v id = Ok l ∧ Forall (λ i, i ∈ (fst <$> vsites v)) l.
Proof.
  intros I Hne. unfold VSF_get_en. destruct (recompute_same v I Hne) as (v' & -> & _ & ES & _ & _ & DD).
  rewrite bind_ok. destruct (getNeighborSet_ok _ _ DD (get_idx v' id)) as (l & -> & F).
  rewrite bind_ok. destruct (ids_at_ok v' l) as (r & -> & Fr); [by rewrite ES|]. rewrite ES in Fr. by exists r.
Qed.

Lemma SF_enclosing_ok v id c : sf_inv v → vsites v ≠ [] → ∃ b, snd <$> VSF_is_enclosing qsort v id c = Ok b.
Proof.
  intros I Hne. unfold VSF_is_enclosing. destruct (recompute_same v I Hne) as (v' & -> & _ & ES & _ & _ & DD).
  rewrite bind_ok.
  destruct (getNeighborSet_ok _ _ DD (if c =? u64 (-1) then 0 else get_idx v' c)) as (l & -> & F).
  rewrite bind_ok. destruct (site_among_ok v' id l) as (b & ->); [by rewrite ES|]. by exists b.
Qed.

Lemma site_among_site v id l : site_among v id l = Ok true → id ∈ (fst <$> vsites v).
Proof.
  induction l as [|i l IH]; cbn [site_among]; [done|]. intros E. run_inv E. destruct r as [h q].
  destruct (Z.eqb_spec h id) as [->|]; [|by apply IH].
  unfold at_int in E0. destruct (_ <? _); [done|]. unfold at_idx in E0. destruct (_ !! _) as [x|] eqn:L; [|done].
  injection E0 as ->. apply list_elem_of_fmap. exists (id, q). split; [done|]. by eapply list_elem_of_lookup_2.
Qed.

Lemma SF_enclosing_site v id c : snd <$> VSF_is_enclosing qsort v id c = Ok true → id ∈ (fst <$> vsites v).
Proof.
  unfold VSF_is_enclosing. destruct (recompute qsort v) as [v'|] eqn:Er; [|done]. rewrite bind_ok.
  assert (Es : vsites v' = vsites v).
  { unfold recompute in Er. destruct (negb _); [by injection Er as ->|]. apply bind_inv in Er as (d & _ & Er). by injection Er as <-. }
  destruct (getNeighborSet _ _ _) as [l|]; [|done]. rewrite bind_ok. destruct (site_among v' id l) as [b|] eqn:E; [|done].
  intros [= ->]. rewrite <- Es. by eapply site_among_site.
Qed.

Lemma SF_enclosing_empty id c : snd <$> VSF_is_enclosing qsort VSF_new id c = Ok false.
Proof.
  unfold VSF_is_enclosing, getNeighborSet. cbn. by destruct (c =? _).
Qed.

Lemma closest_loop_in p l c mn : closest_loop p l c mn = c ∨ closest_loop p l c mn ∈ (fst <$> l).
Proof.
  revert c mn. induction l as [|[id q] l IH]; intros c mn; cbn [closest_loop]; [by left|]. cbv zeta.
  rewrite fmap_cons, elem_of_cons. cbn [fst]. case_match.
  - destruct (IH id (f64_of_f32 (distance p q))) as [-> |]; auto.
  - destruct (IH c mn) as [-> |]; auto.
Qed.

Lemma SF_closest_in v p : vsites v ≠ [] → VSF_closest_to v p ∈ (fst <$> vsites v).
Proof.
  intros Hne. unfold VSF_closest_to. destruct (vsites v) as [|[id q] l] eqn:E; [done|].
  destruct (closest_loop_in p ((id, q) :: l) id (f64_of_f32 (distance p q))) as [-> |]; [by left|done].
Qed.

Lemma SF_get_ok v id p : sf_inv v → (id, p) ∈ vsites v → VSF_get v id = Ok p.
Proof.
  intros [D _] Hin. unfold VSF_get. destruct (get_idx_spec v id) as [[_ Hn]|(n & q & -> & L & _)].
  - destruct Hn. apply list_elem_of_fmap. by exists (id, p).
  - rewrite (at_int_nat _ _ _ L), bind_ok. cbn beta iota. f_equal.
    apply list_elem_of_lookup in Hin as (m & Hm).
    assert (m = n) as -> by (apply (NoDup_lookup _ m n id D); rewrite list_lookup_fmap, ?Hm, ?L; done).
    congruence.
Qed.

#[export] Program Instance SF_laws : @VoronoiLaws VoronoiSF (SF_voronoi qsort) := {
  vor_inv := sf_inv; sites := vsites }.
Next Obligation. intros v I. apply I. Qed.
Next Obligation. split; [constructor|done]. Qed.
Next Obligation. intros v id p. apply SF_insert_inv. Qed.
Next Obligation. intros v id. apply SF_remove_inv. Qed.
Next Obligation. intros v id p. apply SF_update_inv. Qed.
Next Obligation. done. Qed.
Next Obligation. intros v id p. apply SF_insert_sites. Qed.
Next Obligation. intros v id. apply SF_remove_sites. Qed.
Next Obligation. intros v id p. apply SF_update_sites. Qed.
Next Obligation. intros v id p. apply SF_get_ok. Qed.
Next Obligation. intros v id p I _. by apply SF_contains_ok. Qed.
Next Obligation. intros v id p r I _. by apply SF_boundary_ok. Qed.
Next Obligation. intros v id c. apply SF_enclosing_ok. Qed.
Next Obligation. intros v id c _. apply SF_enclosing_site. Qed.
Next Obligation. apply SF_enclosing_empty. Qed.
Next Obligation. intros v id. apply SF_get_en_ok. Qed.
Next Obligation. intros v id p r b I _. by apply SF_overlaps_ok. Qed.
Next Obligation. intros v p _. apply SF_closest_in. Qed.
End diagram.

(** ** The graph of a diagram: who is a neighbor of whom. It is symmetric and connected, so that
    the peers of an overlay, each knowing its neighbors only, are one overlay. *)

(** The other side of a line *)
Definition opposite (index : Z) (l : line2d) : Z := if fst (bisecting l) =? index then snd (bisecting l) else fst (bisecting l).

Lemma in_neighbors_by d index es : ∀ nset, edge_list d es →
  ∃ ns, neighbors_by d index es nset = Ok ns
  ∧ ∀ x, x ∈ ns ↔ x ∈ nset ∨ ∃ k l, k ∈ es ∧ at_int (mLines d) k = Ok l ∧ x = opposite index l.
Proof.
  induction es as [|k es IH]; intros nset He; cbn [neighbors_by].
  - exists nset. split; [done|]. intros x. split; [by left|]. intros [?|(k & l & Hk & _)]; [done|]. by apply elem_of_nil in Hk.
  - apply Forall_cons in He as [Hk He]. destruct (line_at d k Hk) as (l & El & _). rewrite El, bind_ok.
    destruct (bisecting l) as [a b] eqn:Eb. destruct (IH (set_insert (if a =? index then b else a) nset) He) as (ns & -> & Hns).
    exists ns. split; [done|]. assert (Eo : opposite index l = if a =? index then b else a) by (unfold opposite; by rewrite Eb).
    intros x. rewrite Hns, in_set_insert, <- Eo. split.
    + intros [[->|?]|(k' & l' & ? & ? & ?)]; [right; exists k, l; splits; [by left|done|done]|by left|].
      right. exists k', l'. splits; [by right|done|done].
    + intros [?|(k' & l' & Hk' & El' & ->)]; [by left; right|]. apply elem_of_cons in Hk' as [->|Hk']; [|right; by exists k', l'].
      left; left. congruence.
Qed.

Section graph.
Context (qsort : (Site → Site → comparison) → list Site → list Site) (Hq : ∀ c l, qsort c l ≡ₚ l).
Implicit Types v : VoronoiSF.

(** The neighbors in a diagram are the sites beside a site. *)
Lemma compute_graph l : l ≠ [] → ∃ d, compute qsort l = Ok d
  ∧ (∀ i, 0 ≤ i < Z.of_nat (length l) → ∃ ns, getNeighborSet d i [] = Ok ns ∧ ∀ j, j ∈ ns ↔ beside (mLines d) i j)
  ∧ ∀ i j, 0 ≤ i < Z.of_nat (length l) → 0 ≤ j < Z.of_nat (length l) → rtc (beside (mLines d)) i j.
Proof.
  intros Hne. destruct (compute_ok qsort Hq l Hne) as (d & Ed & D). exists d. split; [done|]. revert Ed. unfold compute.
  set (pts := (λ s, point_of (snd s)) <$> l). assert (Hp : length pts = length l) by apply length_fmap.
  destruct (calsfv_ok qsort Hq pts) as (st & -> & O & _ & _ & C); [by destruct l|]. rewrite bind_ok. cbn beta iota. intros [= <-].
  cbn [mLines]. rewrite <- Hp. split; [|exact C]. intros i Hi.
  destruct (site_at _ _ D i) as (s & es & Es & He); [by rewrite <- Hp|].
  destruct (in_neighbors_by _ i es [] He) as (ns & En & Hns). exists ns. split.
  { unfold getNeighborSet. rewrite (dg_length _ _ D), <- Hp. destruct (Z.ltb_spec i 0); [lia|]. destruct (Z.leb_spec (Z.of_nat (length pts)) i); [lia|].
    cbn [orb]. unfold edges_of. rewrite Es, !bind_ok. exact En. }
  assert (Hes : w_sites st !! Z.to_nat i = Some es).
  { unfold at_int in Es. destruct (i <? 0); [done|]. unfold at_idx in Es. cbn [mSites] in Es. destruct (zip _ _ !! _) as [x|] eqn:Ez; [|done].
    injection Es as ->. by apply lookup_zip_with_Some in Ez as (? & ? & [= _ ->] & _ & ?). }
  intros j. rewrite Hns. cbn [mLines]. split.
  - intros [?%elem_of_nil|(k & x & Hk & Ex & ->)]; [done|]. apply (o_sets _ _ O _ _ k Hes) in Hk as (m & y & -> & Hy & Hs).
    rewrite (at_int_nat _ _ _ Hy) in Ex. injection Ex as <-. exists y. split; [by eapply list_elem_of_lookup_2|].
    rewrite Z2Nat.id in Hs by lia. unfold opposite, sides in *. destruct (bisecting y) as [a b]. cbn [fst snd] in *.
    destruct (Z.eqb_spec a i) as [->|]; [by left|]. right. destruct Hs as [?| ->]; done.
  - intros (x & Hx & Cx). right. apply list_elem_of_lookup in Hx as [m Hm]. exists (Z.of_nat m), x.
    split; [|split; [by apply at_int_nat|]].
    + apply (o_sets _ _ O _ _ _ Hes). exists m, x. splits; [done|done|]. rewrite Z2Nat.id by lia. unfold sides. destruct Cx as [->| ->]; auto.
    + unfold opposite. destruct Cx as [->| ->]; cbn [fst snd]; [by rewrite Z.eqb_refl|]. by destruct (Z.eqb_spec j i).
Qed.
(** *** Peers *)

Definition ids v : list Z := fst <$> vsites v.

(** [b] is an enclosing neighbor of [a]. *)
Definition next_to v (a b : Z) : Prop := ∃ l, snd <$> VSF_get_en qsort v a = Ok l ∧ b ∈ l.

Lemma index_of v i id q : sf_inv qsort v → vsites v !! i = Some (id, q) → get_idx v id = Z.of_nat i.
Proof.
  intros [N _] Hi. destruct (get_idx_spec v id) as [[_ Hn]|(j & q' & -> & Hj & _)].
  - destruct Hn. apply list_elem_of_fmap. exists (id, q). split; [done|]. by eapply list_elem_of_lookup_2.
  - f_equal. apply (NoDup_lookup _ j i id N); rewrite list_lookup_fmap; [by rewrite Hj|by rewrite Hi].
Qed.

Lemma in_ids_at v l : Forall (λ i, 0 ≤ i < Z.of_nat (length (vsites v))) l →
  ∃ r, ids_at v l = Ok r ∧ ∀ b, b ∈ r ↔ ∃ i p, i ∈ l ∧ vsites v !! Z.to_nat i = Some (b, p).
Proof.
  induction 1 as [|i l Hi Hl (r & E & F)]; cbn [ids_at].
  { exists []. split; [done|]. intros b. split; [by intros ?%elem_of_nil|]. intros (i & p & Hi & _). by apply elem_of_nil in Hi. }
  destruct (int_lookup (vsites v) i Hi) as [[id q] Hs]. rewrite (at_int_some _ _ _ (proj1 Hi) Hs), bind_ok, E, bind_ok.
  eexists. split; [done|]. intros b. rewrite elem_of_cons, F. split.
  - intros [->|(j & p & Hj & Ej)]; [exists i, q; split; [by left|done]|exists j, p; split; [by right|done]].
  - intros (j & p & Hj & Ej). apply elem_of_cons in Hj as [->|Hj]; [left; congruence|right; by exists j, p].
Qed.

(** The enclosing neighbors of a peer are the peers beside it. *)
Lemma next_to_spec v : sf_inv qsort v → vsites v ≠ [] → ∃ ls,
  (∀ i id q, vsites v !! i = Some (id, q) →
    ∀ b, next_to v id b ↔ ∃ j p, vsites v !! j = Some (b, p) ∧ beside ls (Z.of_nat i) (Z.of_nat j))
  ∧ (∀ i j, beside ls i j → 0 ≤ j < Z.of_nat (length (vsites v)))
  ∧ ∀ i j, 0 ≤ i < Z.of_nat (length (vsites v)) → 0 ≤ j < Z.of_nat (length (vsites v)) → rtc (beside ls) i j.
Proof.
  intros I Hne. destruct (compute_graph (vsites v) Hne) as (d & Ed & N & C). destruct (recompute_same qsort Hq v I Hne) as (v' & Er & I' & Es & _ & Ed' & D).
  assert (diagram v' = d) as Edd by congruence. rewrite Edd in D. exists (mLines d).
  assert (R : ∀ i j, beside (mLines d) i j → 0 ≤ j < Z.of_nat (length (vsites v))).
  { intros i j (l & Hl & Cl). apply (proj1 (Forall_forall _ _) (dg_bis _ _ D)) in Hl. destruct Cl as [Cl|Cl]; rewrite Cl in Hl; apply Hl. }
  split; [|by split]. intros i id q Hi b.
  destruct (N (Z.of_nat i)) as (ns & En & Hns); [apply lookup_lt_Some in Hi; lia|].
  assert (Hi' : vsites v' !! i = Some (id, q)) by by rewrite Es.
  destruct (in_ids_at v' ns) as (r & Ei & Hr); [apply Forall_forall; intros j Hj; rewrite Es; by eapply R, Hns|].
  assert (Eg : snd <$> VSF_get_en qsort v id = Ok r).
  { unfold VSF_get_en. rewrite Er, bind_ok, Edd, (index_of v' i id q I' Hi'), En, bind_ok, Ei. done. }
  unfold next_to. rewrite Eg. split.
  - intros (l & [= <-] & Hb). apply Hr in Hb as (j & p & Hj & Ej). apply Hns in Hj. pose proof (R _ _ Hj). rewrite Es in Ej.
    exists (Z.to_nat j), p. by rewrite Z2Nat.id by lia.
  - intros (j & p & Ej & Hj). exists r. split; [done|]. apply Hr. exists (Z.of_nat j), p. rewrite Nat2Z.id, Es. split; [by apply Hns|done].
Qed.

(** C5: The enclosing neighbors hold an overlay together. In the diagram of the peers that a
    peer knows, wherever they are, being an enclosing neighbor goes both ways, and every peer
    can be reached from every other through enclosing neighbors. *)
Theorem one_overlay v : sf_inv qsort v → vsites v ≠ [] →
  (∀ a b, a ∈ ids v → next_to v a b → b ∈ ids v ∧ next_to v b a) ∧ ∀ a b, a ∈ ids v → b ∈ ids v → rtc (next_to v) a b.
Proof.
  intros I Hne. destruct (next_to_spec v I Hne) as (ls & S & R & C).
  assert (At : ∀ a, a ∈ ids v → ∃ i q, vsites v !! i = Some (a, q)).
  { intros a Ha. apply list_elem_of_fmap in Ha as ([a' q] & -> & Hin). apply list_elem_of_lookup in Hin as [i Hi]. by exists i, q. }
  split.
  - intros a b Ha Hab. destruct (At a Ha) as (i & q & Hi). destruct (proj1 (S i a q Hi b) Hab) as (j & p & Hj & Hij). split.
    + apply list_elem_of_fmap. exists (b, p). split; [done|]. by eapply list_elem_of_lookup_2.
    + apply (proj2 (S j b p Hj a)). exists i, q. split; [done|]. by apply beside_sym.
  - intros a b Ha Hb. destruct (At a Ha) as (i & q & Hi). destruct (At b Hb) as (j & p & Hj).
    assert (P : rtc (beside ls) (Z.of_nat i) (Z.of_nat j)) by (apply C; [apply lookup_lt_Some in Hi; lia|apply lookup_lt_Some in Hj; lia]).
    remember (Z.of_nat i) as x eqn:Ex. revert i a q Hi Ex Ha. remember (Z.of_nat j) as y eqn:Ey.
    induction P as [x|x z y Hxz P IH]; intros i a q Hi -> Ha.
    + assert (i = j) as -> by lia. assert (a = b) as -> by congruence. done.
    + pose proof (R _ _ Hxz) as Rz. destruct (int_lookup (vsites v) z Rz) as [[c r] Hc].
      apply rtc_l with c; [apply (proj2 (S i a q Hi c)); exists (Z.to_nat z), r; by rewrite Z2Nat.id by lia|].
      apply (IH Ey (Z.to_nat z) c r Hc); [lia|]. apply list_elem_of_fmap. exists (c, r). split; [done|]. by eapply list_elem_of_lookup_2.
Qed.
End graph.
