(* ===== verification/VonPeer.v ===== *)
(** A peer of the Voronoi-based overlay: VAST/VONPeer.cpp and VAST/VONPeer.h. A peer knows
    the nodes around it, keeps them in a Voronoi diagram, tells them where it moves, and
    tells moving nodes of others they come near to.

    [_neighbors] points to values of [_id2node]; it is the list of their keys here, and
    reading a pointer fails when the node is gone. A node's id is its key, but for the nodes
    [operator[]] makes, to which no pointer is taken. [_neighbor_states] maps to pointers,
    which [operator[]] makes [NULL] ([None]). The loops of [tick] that receive messages see
    none ([VonNetwork]). Pointers to the diagram's result list are not kept across calls
    that change it. *)

From S2P Require Import Prelude Bytes StdMap Float Serial Geometry Subscription Message.
From S2P Require Import Handlers VastNet MessageQueue VonInterfaces.
From Stdlib Require Import Floats.SpecFloat.
Local Open Scope Z_scope.

Inductive VON_Message :=
  | VON_DISCONNECT | VON_QUERY | VON_HELLO | VON_HELLO_R | VON_EN
  | VON_MOVE | VON_MOVE_F | VON_MOVE_B | VON_MOVE_FB | VON_BYE | VON_NODE.

Definition VON_Messages : list VON_Message :=
  [VON_DISCONNECT; VON_QUERY; VON_HELLO; VON_HELLO_R; VON_EN;
   VON_MOVE; VON_MOVE_F; VON_MOVE_B; VON_MOVE_FB; VON_BYE; VON_NODE].

Definition von_code (t : VON_Message) : Z :=
  match t with
  | VON_DISCONNECT => 0 | VON_QUERY => 1 | VON_HELLO => 2 | VON_HELLO_R => 3 | VON_EN => 4
  | VON_MOVE => 5 | VON_MOVE_F => 6 | VON_MOVE_B => 7 | VON_MOVE_FB => 8 | VON_BYE => 9
  | VON_NODE => 10
  end.

Definition of_von_code (z : Z) : option VON_Message :=
  if z <? 0 then None else VON_Messages !! Z.to_nat z.

Lemma of_von_code_code t : of_von_code (von_code t) = Some t.
Proof. by destruct t. Qed.

Definition AOI_DETECTION_BUFFER : Z := 32.

(** [MAX_DROP_SECONDS], [200 * SEC_PER_STEP] in [int]s *)
Definition MAX_DROP_SECONDS (ms : Z) : Z := Z.quot (200 * ms) 1000.

(** [(length_t)(_aoi_buffer * NONOVERLAP_MULTIPLIER)] *)
Definition nonoverlap_buffer (b : Z) : Z := u16 (5 * b / 4).

Definition NEIGHBOR_OVERLAPPED : Z := 1.
Definition NEIGHBOR_ENCLOSED : Z := 2.

Record VONPeer (V : Type) := mkPeer {
  self : Node;
  vstate : NodeState;
  pneighbors : list Z;
  voronoi : V;
  id2node : list (Z * Node);
  known : list (Z * option (list (Z * Z)));       (* _neighbor_states *)
  new_neighbors : list (Z * Node);
  potential : list (Z * Node);                    (* _potential_neighbors *)
  req_nodes : list (Z * bool);
  update_status : list (Z * NeighborUpdateStatus);
  aoi_buffer : Z;
  strict_aoi : bool;
  ratio : Z * Z;                                  (* _NEIGHBOR_Message: normal, total *)
  time_drop : list (Z * Z) }.
Arguments mkPeer {V}. Arguments self {V}. Arguments vstate {V}. Arguments pneighbors {V}.
Arguments voronoi {V}. Arguments id2node {V}. Arguments known {V}. Arguments new_neighbors {V}.
Arguments potential {V}. Arguments req_nodes {V}. Arguments update_status {V}.
Arguments aoi_buffer {V}. Arguments strict_aoi {V}. Arguments ratio {V}. Arguments time_drop {V}.

Section setters.
Context {V : Type}.
Implicit Types p : VONPeer V.

Definition with_self p n : VONPeer V := mkPeer n (vstate p) (pneighbors p) (voronoi p) (id2node p) (known p)
  (new_neighbors p) (potential p) (req_nodes p) (update_status p) (aoi_buffer p) (strict_aoi p) (ratio p) (time_drop p).
Definition with_state p st : VONPeer V := mkPeer (self p) st (pneighbors p) (voronoi p) (id2node p) (known p)
  (new_neighbors p) (potential p) (req_nodes p) (update_status p) (aoi_buffer p) (strict_aoi p) (ratio p) (time_drop p).
Definition with_vor p (v : V) : VONPeer V := mkPeer (self p) (vstate p) (pneighbors p) v (id2node p) (known p)
  (new_neighbors p) (potential p) (req_nodes p) (update_status p) (aoi_buffer p) (strict_aoi p) (ratio p) (time_drop p).
(** The nodes, the pointers to them and what is kept per node *)
Definition with_nodes p nb (v : V) ns k st td : VONPeer V := mkPeer (self p) (vstate p) nb v ns k
  (new_neighbors p) (potential p) (req_nodes p) st (aoi_buffer p) (strict_aoi p) (ratio p) td.
Definition with_id2node p ns : VONPeer V := mkPeer (self p) (vstate p) (pneighbors p) (voronoi p) ns (known p)
  (new_neighbors p) (potential p) (req_nodes p) (update_status p) (aoi_buffer p) (strict_aoi p) (ratio p) (time_drop p).
Definition with_known p k : VONPeer V := mkPeer (self p) (vstate p) (pneighbors p) (voronoi p) (id2node p) k
  (new_neighbors p) (potential p) (req_nodes p) (update_status p) (aoi_buffer p) (strict_aoi p) (ratio p) (time_drop p).
Definition with_new p l r : VONPeer V := mkPeer (self p) (vstate p) (pneighbors p) (voronoi p) (id2node p) (known p)
  l (potential p) (req_nodes p) (update_status p) (aoi_buffer p) (strict_aoi p) r (time_drop p).
Definition with_potential p l : VONPeer V := mkPeer (self p) (vstate p) (pneighbors p) (voronoi p) (id2node p) (known p)
  (new_neighbors p) l (req_nodes p) (update_status p) (aoi_buffer p) (strict_aoi p) (ratio p) (time_drop p).
Definition with_req p l : VONPeer V := mkPeer (self p) (vstate p) (pneighbors p) (voronoi p) (id2node p) (known p)
  (new_neighbors p) (potential p) l (update_status p) (aoi_buffer p) (strict_aoi p) (ratio p) (time_drop p).
Definition with_drop p td : VONPeer V := mkPeer (self p) (vstate p) (pneighbors p) (voronoi p) (id2node p) (known p)
  (new_neighbors p) (potential p) (req_nodes p) (update_status p) (aoi_buffer p) (strict_aoi p) (ratio p) td.
End setters.

Definition node_accessed (n : Node) (t : Z) : Node :=
  mkNode (node_id n) (node_time n) (node_aoi n)
         (mkAddr (host_id (node_addr n)) t (publicIP (node_addr n))).
Definition with_aoi (n : Node) (a : Area) : Node := mkNode (node_id n) (node_time n) a (node_addr n).
Definition with_time (n : Node) (t : Z) : Node := mkNode (node_id n) t (node_aoi n) (node_addr n).
Definition with_center (a : Area) (c : Position) : Area := mkArea c (radius a) (height a).

(** [a || b] where [b] may fail *)
Definition or_else (a : outcome bool) (b : outcome bool) : outcome bool :=
  x ← a; if x : bool then Ok true else b.

(** Local variables that the code leaves uninitialised when a message is too short *)
Record von_uninit := mkVonUninit { vu_n : Z; vu_id : Z; vu_x : Z; vu_y : Z }.

Definition f32_one : spec_float := f32_of_bits 0x3F800000.

(** [pos.x++] *)
Definition step_x (p : Position) : Position :=
  mkPosition (bits_of_f32 (f32_add (f32_of_bits (pos_x p)) f32_one)) (pos_y p) (pos_z p).

(** Some node of [l] other than [me] is at [p]. *)
Definition clash (me : Z) (l : list (Z * Node)) (p : Position) : bool :=
  existsb (λ x, negb (fst x =? me) && Position_eqb (center (node_aoi (snd x))) p) l.

(** [isOverlapped]: after a step to the right the search goes on at the second node. If
    the fuel, the number of nodes plus one, is used up, two of the positions tried are
    equal. *)
Fixpoint overlap_loop (fuel : nat) (me : Z) (all l : list (Z * Node)) (p : Position) : outcome Position :=
  if clash me l p then
    match fuel with
    | O => Fail Diverges
    | S fuel => overlap_loop fuel me all (tail all) (step_x p)
    end
  else Ok p.

Section peer.
Context {S V : Type} `{VONNetwork S} `{Voronoi V} (junk : von_uninit).
Implicit Types (s : S) (p : VONPeer V) (n : Node).

Definition self_id p : Z := node_id (self p).
Definition isSelf p (id : Z) : bool := self_id p =? id.
Definition isNeighbor p (id : Z) : bool := has id (id2node p).

(** [*_neighbors[i]] *)
Definition pointee p (k : Z) : outcome Node :=
  match find k (id2node p) with Some n => Ok n | None => Fail OutOfBounds end.

(** [_id2node[k]] *)
Definition node_at p (k : Z) : VONPeer V * Node :=
  match find k (id2node p) with
  | Some n => (p, n)
  | None => (with_id2node p (set k Node_init (id2node p)), Node_init)
  end.

(** The constructor *)
Definition VP_new s (id buffer : Z) (strict : bool) : VONPeer V :=
  mkPeer (mkNode id 0 Area_clear (getHostAddress s)) ABSENT [] vor_empty [] [] [] [] [] [] buffer strict (0, 0) [].

Definition VP_isJoined p : VONPeer V * bool :=
  let p := if bool_decide (vstate p = JOINING) && (1 <? Z.of_nat (length (pneighbors p)))
           then with_state p JOINED else p in
  (p, bool_decide (vstate p = JOINED)).

(** A message of this peer *)
Definition von_msg p (t : VON_Message) (prio : Z) : Message :=
  set_priority (Message_new (von_code t) (self_id p)) prio.

Definition isAOINeighbor p (id : Z) n (buffer : Z) : outcome bool :=
  vor_overlaps (voronoi p) id (center (node_aoi n)) (u16 (radius (node_aoi n) + buffer)) (negb (strict_aoi p)).

Definition isRelevantNeighbor p (n1 n2 : Node) (buffer : Z) : outcome bool :=
  or_else (vor_is_enclosing (voronoi p) (node_id n1) (node_id n2))
    (or_else (isAOINeighbor p (node_id n1) n2 buffer) (isAOINeighbor p (node_id n2) n1 buffer)).

Definition isTimelyNeighbor p (id : Z) : bool := true.

Definition isOverlapped p (pos : Position) : outcome Position :=
  overlap_loop (Datatypes.S (length (id2node p))) (self_id p) (id2node p) (id2node p) pos.

(** *** The nodes *)

(** [insertNode (node)]: the node passed is changed. *)
Definition insertNode (now : Z) s p n : S * VONPeer V * Node * bool :=
  if isNeighbor p (node_id n) then (s, p, n, false) else
  let k := node_id n in
  let s := notifyAddressMapping s k (node_addr n) in
  let n := node_accessed n (getTimestamp now s) in
  (s, with_nodes p (pneighbors p ++ [k]) (vor_insert (voronoi p) k (center (node_aoi n)))
        (set k n (id2node p)) (set k (Some []) (known p)) (set k INSERTED (update_status p))
        (set k 0 (time_drop p)), n, true).

Definition remove_first (k : Z) (l : list Z) : list Z :=
  match list_find (λ x, x = k) l with Some (i, _) => delete i l | None => l end.

Definition deleteNode p (id : Z) : VONPeer V * bool :=
  if negb (isNeighbor p id) then (p, false) else
  (with_nodes p (remove_first id (pneighbors p)) (vor_remove (voronoi p) id)
     (erase id (id2node p)) (erase id (known p)) (set id DELETED (update_status p))
     (erase id (time_drop p)), true).

(** [updateNode (node)] *)
Definition updateNode (now : Z) s p n : VONPeer V * Node * bool :=
  match find (node_id n) (id2node p) with
  | None => (p, n, false)
  | Some old =>
      if node_time n <? node_time old then (p, n, false) else
      let st := match find (node_id n) (update_status p) with
                | Some INSERTED => update_status p
                | _ => set (node_id n) UPDATED (update_status p) end in
      (with_nodes p (pneighbors p) (vor_update (voronoi p) (node_id n) (center (node_aoi n)))
         (set (node_id n) (Node_update old n) (id2node p)) (known p) st (time_drop p),
       node_accessed n (getTimestamp now s), true)
  end.

Definition deleteNodes p (ids : list Z) : VONPeer V := foldl (λ p id, fst (deleteNode p id)) p ids.

(** *** Sending *)

Fixpoint store_ids (msg : Message) (ids : list Z) : outcome Message :=
  match ids with
  | [] => Ok msg
  | i :: ids => '(msg, _) ← store_int 8 msg i; store_ids msg ids
  end.

Fixpoint store_nodes p (msg : Message) (ids : list Z) : outcome (VONPeer V * Message) :=
  match ids with
  | [] => Ok (p, msg)
  | i :: ids =>
      let '(p, n) := node_at p i in
      '(msg, _) ← store_obj msg n;
      store_nodes p msg ids
  end.

Definition listsize (l : list Z) : Z := u8 (Z.of_nat (length l)).
Definition listed (l : list Z) : list Z := take (Z.to_nat (listsize l)) l.

Definition sendNodes (now : Z) s p (target : Z) (l : list Z) (r : bool) : outcome (S * VONPeer V) :=
  if listsize l =? 0 then Ok (s, p) else
  '(msg, _) ← store_int 1 (von_msg p VON_NODE 0) (listsize l);
  '(p, msg) ← store_nodes p msg (listed l);
  '(s, _, _, _) ← sendVONMessage now s (addTarget msg target) r;
  Ok (s, p).

Definition sendHello (now : Z) s p (target : Z) (l : list Z) : outcome S :=
  if listsize l =? 0 then Ok s else
  '(msg, _) ← store_obj (von_msg p VON_HELLO 0) (self p);
  '(msg, _) ← store_int 1 msg (listsize l);
  msg ← store_ids msg (listed l);
  '(s, _, _, _) ← sendVONMessage now s (addTarget msg target) true;
  Ok s.

Definition sendEN (now : Z) s p (target : Z) : outcome S :=
  l ← vor_get_en (voronoi p) target;
  '(msg, _) ← store_int 1 (von_msg p VON_EN 0) (listsize l);
  msg ← store_ids msg (listed l);
  '(s, _, _, _) ← sendVONMessage now s (addTarget msg target) true;
  Ok s.

Fixpoint send_ens (now : Z) s p (skip : Z) (l : list Z) : outcome S :=
  match l with
  | [] => Ok s
  | t :: l => s ← (if t =? skip then Ok s else sendEN now s p t); send_ens now s p skip l
  end.

Definition checkConsistency (now : Z) s p (skip : Z) : outcome S :=
  l ← vor_get_en (voronoi p) (self_id p);
  send_ens now s p skip l.

(** *** Joining, leaving and moving *)

Definition VP_join (now : Z) s p (aoi : Area) (gateway : Node) : outcome (S * VONPeer V) :=
  let '(p, joined) := VP_isJoined p in
  if joined then Ok (s, p) else
  let '(s, p, me, _) := insertNode now s (with_self p (with_aoi (self p) aoi)) (with_aoi (self p) aoi) in
  let p := with_self p me in
  if self_id p =? node_id gateway then Ok (s, with_state p JOINED) else
  let s := notifyAddressMapping s (node_id gateway) (node_addr gateway) in
  '(msg, _) ← store_obj (von_msg p VON_QUERY 0) (self p);
  '(s, _, _, _) ← sendVONMessage now s (addTarget msg (node_id gateway)) true;
  Ok (s, with_state p JOINING).

(** The targets of [VON_BYE]; duplicates are left out by [addTarget]. *)
Fixpoint bye_neighbors p (msg : Message) (l : list Z) : outcome Message :=
  match l with
  | [] => Ok msg
  | k :: l =>
      n ← pointee p k;
      bye_neighbors p (if isSelf p (node_id n) then msg else addTarget msg (node_id n)) l
  end.

Definition VP_leave (now : Z) s p (notify : bool) : outcome (S * VONPeer V) :=
  s ← (if notify then
         msg ← bye_neighbors p (von_msg p VON_BYE 0) (pneighbors p);
         let msg := foldl addTarget msg ((λ x, node_id (snd x)) <$> potential p) in
         match targets msg with
         | [] => Ok s
         | _ => '(s, _, _, _) ← sendVONMessage now s msg true; Ok s
         end
       else Ok s);
  Ok (s, with_state (with_nodes p [] (voronoi p) [] [] (update_status p) (time_drop p)) ABSENT).

(** The other nodes: those whose region is not inside the area, and the rest *)
Fixpoint move_targets p (l : list (Z * Node)) (ts bs : list Z) : outcome (list Z * list Z) :=
  match l with
  | [] => Ok (ts, bs)
  | (k, _) :: l =>
      if isSelf p k then move_targets p l ts bs else
      b ← vor_is_boundary (voronoi p) k (center (node_aoi (self p))) (radius (node_aoi (self p)));
      if b : bool then move_targets p l ts (bs ++ [k]) else move_targets p l (ts ++ [k]) bs
  end.

(** What a move says: all of the node, or where and when *)
Definition move_content p (reshaped : bool) : outcome Message :=
  let msg := von_msg p VON_MOVE 1 in
  if reshaped then '(msg, _) ← store_obj msg (self p); Ok msg
  else
    let c := center (node_aoi (self p)) in
    '(msg, _) ← store msg (le_bytes 4 (pos_x c) ++ le_bytes 4 (pos_y c)) false;
    '(msg, _) ← store_int 8 msg (node_time (self p));
    Ok msg.

(** Nodes that cannot be reached are removed. *)
Definition send_move (now : Z) s p (msg : Message) : outcome (S * VONPeer V * Message) :=
  match targets msg with
  | [] => Ok (s, p, msg)
  | _ => '(s, msg, failed, _) ← sendVONMessage now s msg true; Ok (s, deleteNodes p failed, msg)
  end.

Definition VP_move (now : Z) s p (aoi : Area) (sendtime : Z) : outcome (S * VONPeer V * Area) :=
  let reshaped := negb (Area_eqb (with_center (node_aoi (self p)) (center aoi)) aoi) in
  let p := with_self p (with_aoi (self p) aoi) in
  c ← isOverlapped p (center aoi);
  let me := with_aoi (self p) (with_center aoi c) in
  let me := with_time me (if negb (sendtime =? 0) then sendtime else getTimestamp now s) in
  let '(p, me, _) := updateNode now s (with_self p me) me in
  let p := with_self p me in
  msg ← move_content p reshaped;
  '(ts, bs) ← move_targets p (id2node p) [] [];
  let msg := set_type (with_targets msg ts) (von_code (if reshaped then VON_MOVE_F else VON_MOVE)) in
  '(s, p, msg) ← send_move now s p msg;
  let msg := set_type (with_targets msg bs) (von_code (if reshaped then VON_MOVE_FB else VON_MOVE_B)) in
  '(s, p, _) ← send_move now s p msg;
  Ok (s, p, node_aoi (self p)).

(** [getNeighbor (id)] *)
Fixpoint neighbor_in p (id : Z) (l : list Z) : outcome (option Node) :=
  match l with
  | [] => Ok None
  | k :: l => n ← pointee p k; if id =? node_id n then Ok (Some n) else neighbor_in p id l
  end.
Definition getNeighbor p (id : Z) : outcome (option Node) := neighbor_in p id (pneighbors p).

(** *** The messages *)

(** [VON_QUERY] *)
Fixpoint relevant_to p (joiner : Node) (l : list Z) : outcome (list Z) :=
  match l with
  | [] => Ok []
  | k :: l =>
      n ← pointee p k;
      b ← (if negb (node_id n =? node_id joiner) then isRelevantNeighbor p n joiner (aoi_buffer p) else Ok false);
      r ← relevant_to p joiner l;
      Ok (if b && isTimelyNeighbor p (node_id n) then node_id n :: r else r)
  end.

Definition handle_query (now : Z) s p (msg : Message) : outcome (S * VONPeer V * Message) :=
  '(msg, joiner, _) ← extract_obj msg Node_init false;
  let pos := center (node_aoi joiner) in
  let closest := vor_closest_to (voronoi p) pos in
  mine ← vor_contains (voronoi p) (self_id p) pos;
  if negb mine && negb (isSelf p closest) && negb (closest =? from msg) then
    '(s, msg, _, _) ← sendVONMessage now s (addTarget (with_targets msg []) closest) true;
    Ok (s, p, msg)
  else
    let '(s, p, joiner, _) := insertNode now s p joiner in
    l ← relevant_to p joiner (pneighbors p);
    '(s, p) ← sendNodes now s p (node_id joiner) l true;
    Ok (s, p, msg).

(** The ids of a list; one that cannot be read is the one before. *)
Fixpoint extract_ids (n : nat) (msg : Message) (id : Z) : outcome (Message * list Z) :=
  match n with
  | O => Ok (msg, [])
  | Datatypes.S n =>
      '(msg, id, _) ← extract_int 8 msg id false;
      '(msg, l) ← extract_ids n msg id;
      Ok (msg, id :: l)
  end.

(** [list->insert]: an id that is there is kept. *)
Definition known_list (ids : list Z) : list (Z * Z) :=
  foldl (λ m i, if has i m then m else set i NEIGHBOR_OVERLAPPED m) [] ids.

(** The enclosing neighbors the sender should know and does not *)
Fixpoint missing_ens p (fr : Z) (l : list (Z * Z)) (ens : list Z) : outcome (VONPeer V * list Z) :=
  match ens with
  | [] => Ok (p, [])
  | id :: ens =>
      if negb (id =? fr) && negb (has id l) then
        let '(p, n) := node_at p id in
        let '(p, m) := node_at p fr in
        b ← isRelevantNeighbor p n m (aoi_buffer p);
        '(p, r) ← missing_ens p fr l ens;
        Ok (p, if b : bool then id :: r else r)
      else missing_ens p fr l ens
  end.

(** [VON_EN] *)
Definition handle_en (now : Z) s p (msg : Message) : outcome (S * VONPeer V * Message) :=
  '(msg, n, _) ← extract_int 1 msg (vu_n junk) false;
  ens ← vor_get_en (voronoi p) (self_id p);
  '(msg, ids) ← extract_ids (Z.to_nat n) msg (vu_id junk);
  let l := known_list ids in
  let p := with_known p (set (from msg) (Some l) (known p)) in
  '(p, missing) ← missing_ens p (from msg) l ens;
  match missing with
  | [] => Ok (s, p, msg)
  | _ => '(s, p) ← sendNodes now s p (from msg) missing false; Ok (s, p, msg)
  end.

(** [VON_HELLO], which goes on as [VON_EN] *)
Definition handle_hello (now : Z) s p (msg : Message) : outcome (S * VONPeer V * Message) :=
  '(msg, node, _) ← extract_obj msg Node_init false;
  let '(s, p) :=
    if isNeighbor p (from msg) then (s, fst (fst (updateNode now s p node)))
    else let '(s, p, _, _) := insertNode now s p node in (s, p) in
  '(reply, _) ← store_obj (von_msg p VON_HELLO_R 0) (center (node_aoi (self p)));
  '(s, _, _, _) ← sendVONMessage now s (addTarget reply (from msg)) true;
  s ← checkConsistency now s p (from msg);
  handle_en now s p msg.

(** [VON_HELLO_R] *)
Definition handle_hello_r (now : Z) s p (msg : Message) : outcome (S * VONPeer V * Message) :=
  match find (from msg) (potential p) with
  | None => Ok (s, p, msg)
  | Some n =>
      '(msg, c, _) ← extract_obj msg (center (node_aoi n)) false;
      let '(s, p, _, _) := insertNode now s p (with_aoi n (with_center (node_aoi n) c)) in
      Ok (s, with_potential p (erase (from msg) (potential p)), msg)
  end.

(** The node as a move message has it *)
Definition moved_node (msg : Message) (full : bool) (n : Node) : outcome (Message * Node) :=
  if full then '(msg, n, _) ← extract_obj msg Node_init false; Ok (msg, n)
  else
    '(msg, bs, _) ← extract msg 8 false;
    let '(x, y) := match bs with
                   | Some bs => (le_val (take 4 bs), le_val (drop 4 bs))
                   | None => (vu_x junk, vu_y junk) end in
    let c := mkPosition x y (pos_z (center (node_aoi n))) in
    '(msg, t, _) ← extract_int 8 msg (node_time n) false;
    Ok (msg, with_time (with_aoi n (with_center (node_aoi n) c)) t).

(** [VON_MOVE] and its variants *)
Definition handle_move (now : Z) s p (msg : Message) (full boundary : bool)
    : outcome (S * VONPeer V * Message) :=
  match find (from msg) (id2node p) with
  | None => Ok (s, p, msg)
  | Some n =>
      '(msg, n) ← moved_node msg full n;
      let '(p, _, ok) := updateNode now s p n in
      Ok (s, if ok && boundary then with_req p (set (from msg) true (req_nodes p)) else p, msg)
  end.

(** [VON_NODE] *)
Definition note_node p n : VONPeer V :=
  let '(normal, total) := ratio p in
  match find (node_id n) (new_neighbors p) with
  | Some o => if node_time o <=? node_time n
              then with_new p (set (node_id n) n (new_neighbors p)) (u64 (normal + 1), u64 (total + 1))
              else with_new p (new_neighbors p) (normal, u64 (total + 1))
  | None => with_new p (set (node_id n) n (new_neighbors p)) (u64 (normal + 1), u64 (total + 1))
  end.

Fixpoint note_nodes (k : nat) p (msg : Message) n : outcome (VONPeer V * Message) :=
  match k with
  | O => Ok (p, msg)
  | Datatypes.S k =>
      '(msg, n, _) ← extract_obj msg n false;
      note_nodes k (note_node p n) msg n
  end.

Definition handle_node s p (msg : Message) : outcome (S * VONPeer V * Message) :=
  '(msg, n, _) ← extract_int 1 msg (vu_n junk) false;
  '(p, msg) ← note_nodes (Z.to_nat n) p msg Node_init;
  Ok (s, p, msg).

(** [VON_BYE], [VON_DISCONNECT] *)
Definition handle_bye (now : Z) s p (msg : Message) : outcome (S * VONPeer V * Message) :=
  if memb (from msg) (pneighbors p) then
    s ← checkConsistency now s p (from msg);
    Ok (s, fst (deleteNode p (from msg)), msg)
  else Ok (s, p, msg).

(** [handleMessage (in_msg)] *)
Definition VP_handleMessage (now : Z) s p (msg : Message) : outcome (S * VONPeer V * Message * bool) :=
  if bool_decide (vstate p = ABSENT) then Ok (s, p, msg, false) else
  match of_von_code (msgtype msg) with
  | None => Ok (s, p, msg, false)
  | Some t =>
      r ← match t with
          | VON_QUERY => handle_query now s p msg
          | VON_HELLO => handle_hello now s p msg
          | VON_EN => handle_en now s p msg
          | VON_HELLO_R => handle_hello_r now s p msg
          | VON_MOVE => handle_move now s p msg false false
          | VON_MOVE_B => handle_move now s p msg false true
          | VON_MOVE_F => handle_move now s p msg true false
          | VON_MOVE_FB => handle_move now s p msg true true
          | VON_NODE => handle_node s p msg
          | VON_BYE | VON_DISCONNECT => handle_bye now s p msg
          end;
      let '(s, p, msg) := r in Ok (s, p, msg, true)
  end.

(** *** The tasks of a cycle *)

Definition sendKeepAlive (now : Z) s p : outcome (S * VONPeer V) :=
  let '(p, joined) := VP_isJoined p in
  if joined && negb (isTimelyNeighbor p (self_id p)) then
    '(s, p, _) ← VP_move now s p (node_aoi (self p)) 0; Ok (s, p)
  else Ok (s, p).

(** The nodes told of: known ones are updated, others enter the diagram. *)
Fixpoint sort_new (now : Z) s p (l : list (Z * Node)) : VONPeer V * list Z :=
  match l with
  | [] => (p, [])
  | (_, n) :: l =>
      if isNeighbor p (node_id n) then sort_new now s (fst (fst (updateNode now s p n))) l
      else
        let '(p, r) := sort_new now s (with_vor p (vor_insert (voronoi p) (node_id n) (center (node_aoi n)))) l in
        (p, node_id n :: r)
  end.

(** [_new_neighbors[target]] is there. *)
Fixpoint greet (now : Z) s p (l : list Z) : outcome (S * VONPeer V) :=
  match l with
  | [] => Ok (s, p)
  | t :: l =>
      let n := default Node_init (find t (new_neighbors p)) in
      b ← isRelevantNeighbor p n (self p) (aoi_buffer p);
      if b : bool then
        let p := with_potential p (set t n (potential p)) in
        let s := notifyAddressMapping s (node_id n) (node_addr n) in
        ens ← vor_get_en (voronoi p) t;
        s ← sendHello now s p t ens;
        greet now s p l
      else greet now s p l
  end.

Definition contactNewNeighbors (now : Z) s p : outcome (S * VONPeer V) :=
  let '(p, l) := sort_new now s p (new_neighbors p) in
  '(s, p) ← greet now s p l;
  let p := with_vor p (foldl vor_remove (voronoi p) l) in
  Ok (s, with_new p [] (ratio p)).

(** What a moving node [fr] sees of the neighbors, and those it is to be told of *)
Definition seen (k : Z) (m : option (list (Z * Z))) : outcome Z :=
  match m with Some m => Ok (default 0 (find k m)) | None => Fail OutOfBounds end.

Definition to_notify (known_state state : Z) : bool :=
  negb (Z.testbit known_state 0)
  && (Z.testbit state 0 || (negb (Z.testbit known_state 1) && Z.testbit state 1)).

Definition neighbor_state p (fr : Z) n (id : Z) : outcome Z :=
  o ← isAOINeighbor p id n (aoi_buffer p);
  e ← vor_is_enclosing (voronoi p) id fr;
  Ok (Z.lor (if o : bool then NEIGHBOR_OVERLAPPED else 0) (if e : bool then NEIGHBOR_ENCLOSED else 0)).

Fixpoint discover p (fr : Z) n (l : list Z) : outcome (list Z * list (Z * Z)) :=
  match l with
  | [] => Ok ([], [])
  | k :: l =>
      m ← pointee p k;
      let id := node_id m in
      if isSelf p id || (id =? fr) then discover p fr n l else
      st ← neighbor_state p fr n id;
      if st =? 0 then discover p fr n l else
      ks ← seen id (default None (find fr (known p)));
      '(notify, states) ← discover p fr n l;
      Ok (if to_notify ks st then id :: notify else notify, set id st states)
  end.

(** The neighbors that are checked: all of them, as neither of the macros that narrow the
    check is defined. Only those that asked are told. *)
Fixpoint discover_all (now : Z) s p (l : list Z) : outcome (S * VONPeer V) :=
  match l with
  | [] => Ok (s, p)
  | k :: l =>
      n ← pointee p k;
      let fr := node_id n in
      if isSelf p fr then discover_all now s p l else
      '(notify, states) ← discover p fr n (pneighbors p);
      let p := with_known p (set fr (Some states) (known p)) in
      '(s, p) ← (if has fr (req_nodes p) then sendNodes now s p fr notify false else Ok (s, p));
      discover_all now s p l
  end.

Definition checkNeighborDiscovery (now : Z) s p : outcome (S * VONPeer V) :=
  '(s, p) ← discover_all now s p (pneighbors p);
  Ok (s, with_req p []).

(** Nodes that are irrelevant for too long: the peer, with their times, and their ids *)
Fixpoint overdue p (now grace : Z) (l : list (Z * Node)) : outcome (VONPeer V * list Z) :=
  match l with
  | [] => Ok (p, [])
  | (id, n) :: l =>
      keep ← (if isSelf p id then Ok true
              else b ← isRelevantNeighbor p (self p) n (nonoverlap_buffer (aoi_buffer p));
                   Ok (b && isTimelyNeighbor p id));
      if keep : bool then overdue (with_drop p (set id grace (time_drop p))) now grace l else
      let t := default 0 (find id (time_drop p)) in
      if t <=? now then
        '(p, r) ← overdue (with_drop p (erase id (time_drop p))) now grace l;
        Ok (p, id :: r)
      else overdue (with_drop p (set id t (time_drop p))) now grace l
  end.

Definition removeNonOverlapped (now ms : Z) s p : outcome (S * VONPeer V) :=
  let t := getTimestamp now s in
  '(p, l) ← overdue p t (u64 (t + MAX_DROP_SECONDS ms * getTimestampPerSecond s)) (id2node p);
  match l with
  | [] => Ok (s, p)
  | _ =>
      '(s, _, _, _) ← sendVONMessage now s (with_targets (von_msg p VON_BYE 0) l) true;
      Ok (s, deleteNodes p l)
  end.

(** [tick ()] *)
Definition VP_tick (now ms : Z) s p : outcome (S * VONPeer V) :=
  '(s, p) ← sendKeepAlive now s p;
  '(s, p) ← contactNewNeighbors now s p;
  '(s, p) ← checkNeighborDiscovery now s p;
  removeNonOverlapped now ms s p.
End peer.
