(* ===== verification/VonSafe.v ===== *)
(** A peer of the overlay never follows a stale pointer and never asks an empty diagram:
    what its containers satisfy, and that all operations keep it. A peer whose own node
    is removed by a farewell in its own name is excluded. *)

From S2P Require Import Prelude Bytes StdMap Float Serial Geometry Subscription Message VastNet VastSend.
From S2P Require Import MessageQueue QueueSafe Readable Handlers VonInterfaces VonPeer.
Local Open Scope Z_scope.

#[export] Hint Resolve addTarget_inv : core.

(** Whether lists of nodes may name the peer they are sent to: if not, its own site also stays in
    its diagram once it has left, where it is asked for by a peer that owns objects. *)
Class Naming : Type := naming : Prop.
#[export] Instance not_named : Naming := False.

Section safe.
Context {named : Naming}.
Context {S V : Type} `{VONNetworkLaws S} `{VoronoiLaws V} (junk : von_uninit).
Implicit Types (s : S) (p : VONPeer V) (n : Node).

(** Pointers lead to nodes with the id they stand for, about whose knowledge something is
    recorded. *)
Definition points p (k : Z) : Prop :=
  ∃ n m, find k (id2node p) = Some n ∧ node_id n = k ∧ find k (known p) = Some (Some m).

Record core p : Prop := mk_core {
  co_nodes : ordered (id2node p);
  co_known : ordered (known p);
  co_distinct : NoDup (pneighbors p);
  co_points : Forall (points p) (pneighbors p);
  co_vor : vor_inv (voronoi p);
  co_new : Forall (λ x, fst x = node_id (snd x) ∧ (naming ∨ fst x ≠ self_id p)) (new_neighbors p) }.

(** The peer knows itself. *)
Definition alive p : Prop := has (self_id p) (id2node p) = true ∧ self_id p ∈ (fst <$> sites (voronoi p)).

Definition live p : Prop := core p ∧ alive p.

(** A peer that has not joined yet, or has left: its site stays in the diagram. *)
Definition away p : Prop :=
  id2node p = [] ∧ (naming ∨ voronoi p = vor_empty ∧ new_neighbors p = [] ∨ self_id p ∈ (fst <$> sites (voronoi p))).

Definition peer_inv p : Prop := core p ∧ if bool_decide (vstate p = ABSENT) then away p else alive p.

(** A step of a live peer *)
Definition step p p' : Prop := live p' ∧ self p' = self p ∧ vstate p' = vstate p.

Lemma step_refl p : live p → step p p.
Proof. by split. Qed.

Lemma step_trans p1 p2 p3 : step p1 p2 → step p2 p3 → step p1 p3.
Proof. intros (_ & E1 & F1) (L & E2 & F2). split; [done|]. split; congruence. Qed.

Lemma live_inv p : live p → vstate p ≠ ABSENT → peer_inv p.
Proof. intros [C A] Hs. split; [done|]. by rewrite bool_decide_eq_false_2. Qed.

Lemma inv_live p : peer_inv p → vstate p ≠ ABSENT → live p.
Proof. intros [C A] Hs. rewrite bool_decide_eq_false_2 in A by done. by split. Qed.

Lemma step_peer_inv p p' : step p p' → vstate p ≠ ABSENT → peer_inv p'.
Proof. intros (L & _ & E) Hs. apply live_inv; [done|congruence]. Qed.

Lemma alive_sites p : alive p → sites (voronoi p) ≠ [].
Proof. intros [_ A] E. rewrite E in A. by apply elem_of_nil in A. Qed.

Lemma points_nodes p ns k (n : Z) : points p k → has n (id2node p) = false → points (with_id2node p (set n ns (id2node p))) k.
Proof.
  intros (x & m & E & I & K) Hn. exists x, m. cbn. splits; try done. rewrite find_set_ne; [done|].
  intros ->. unfold has in Hn. by rewrite E in Hn.
Qed.

(** [operator[]] *)
Lemma node_at_step p k : live p → step p (fst (node_at p k)) ∧ pneighbors (fst (node_at p k)) = pneighbors p
  ∧ voronoi (fst (node_at p k)) = voronoi p.
Proof.
  intros [C A]. unfold node_at. destruct (find k (id2node p)) as [n|] eqn:E; [by split; [apply step_refl|]|].
  cbn [fst]. split; [|done]. split; [|done]. split.
  - destruct C as [O K D P X W]. split; cbn; try done; [by apply ordered_set|].
    eapply Forall_impl; [exact P|]. intros x Hx. apply points_nodes; [done|]. unfold has. by rewrite E.
  - destruct A as [A1 A2]. split; [|done]. unfold self_id in *. cbn. rewrite has_set, A1. apply orb_true_r.
Qed.

Lemma with_known_step p k l : live p → step p (with_known p (set k (Some l) (known p))).
Proof.
  intros [[O K D P X W] A]. split; [|done]. split; [|done]. split; cbn; try done; [by apply ordered_set|].
  eapply Forall_impl; [exact P|]. intros x (n & m & E & I & F). unfold points. cbn. rewrite find_set.
  destruct (x =? k); eauto 10.
Qed.

(** Members that the invariant does not speak of *)
Lemma same_live p p' : live p → self p' = self p → vstate p' = vstate p → pneighbors p' = pneighbors p →
  voronoi p' = voronoi p → id2node p' = id2node p → known p' = known p → new_neighbors p' = new_neighbors p →
  step p p'.
Proof.
  intros [[O K D P X W] [A1 A2]] E1 E2 E3 E4 E5 E6 E7. split; [split|done].
  - split; try congruence; [|unfold self_id in *; by rewrite E1, E7].
    rewrite E3. eapply Forall_impl; [exact P|]. unfold points. by rewrite E5, E6.
  - unfold alive, self_id in *. by rewrite E1, E4, E5.
Qed.

Lemma insertNode_core now s p n : core p → net_good s →
  let '(s', p', n', ok) := insertNode now s p n in
  core p' ∧ net_good s' ∧ self p' = self p ∧ vstate p' = vstate p ∧ (alive p → alive p')
  ∧ (ok = true → n' = node_accessed n (getTimestamp now s')
      ∧ has (node_id n) (id2node p') = true ∧ node_id n ∈ (fst <$> sites (voronoi p'))
      ∧ pneighbors p' = pneighbors p ++ [node_id n])
  ∧ ok = negb (isNeighbor p (node_id n)) ∧ node_id n' = node_id n.
Proof.
  intros [O K D P X W] G. unfold insertNode. destruct (isNeighbor p (node_id n)) eqn:E; [by splits|].
  cbv zeta. unfold isNeighbor in E. assert (Hin : node_id n ∉ pneighbors p).
  { intros Hin. apply (proj1 (Forall_forall _ _) P) in Hin as (x & m & Ex & _). unfold has in E. by rewrite Ex in E. }
  splits; try done.
  - split; cbn; auto with vast; try (by apply ordered_set); [..|by apply inv_insert].
    + apply NoDup_app. splits; [done| |apply NoDup_singleton]. by intros x Hx ->%list_elem_of_singleton.
    + apply Forall_app. split; [|apply Forall_singleton].
      * apply Forall_forall. intros k Hk. destruct (proj1 (Forall_forall _ _) P _ Hk) as (x & m & Ex & I & F).
        assert (k ≠ node_id n) by (intros ->; done). exists x, m. cbn. by rewrite !find_set_ne.
      * eexists _, _. cbn. by rewrite !find_set_eq.
  - by apply mapping_good.
  - intros [A1 A2]. split; cbn.
    + unfold self_id in *. cbn. rewrite has_set, A1. apply orb_true_r.
    + rewrite sites_insert. destruct (memb _ _); [done|]. rewrite fmap_app. apply elem_of_app. by left.
  - intros _. splits; [done| | |done].
    + cbn. by rewrite has_set, Z.eqb_refl.
    + cbn. rewrite sites_insert. destruct (memb _ _) eqn:Em; [by apply memb_true|].
      rewrite fmap_app. apply elem_of_app. right. left.
Qed.

Lemma remove_first_spec k l : NoDup l → remove_first k l = filter (λ x, x ≠ k) l.
Proof.
  unfold remove_first. intros D. destruct (list_find (λ x, x = k) l) as [[i x]|] eqn:E.
  - apply list_find_Some in E as (L & -> & Hb).
    pose proof (take_drop_middle l i k L) as El. rewrite <- El in D |- *.
    assert (Hi : length (take i l) = i) by (rewrite length_take; apply lookup_lt_Some in L; lia).
    rewrite <- Hi at 1. rewrite delete_middle, filter_app, filter_cons, decide_False by auto.
    apply NoDup_app in D as (_ & D1 & D2). apply NoDup_cons in D2 as [D2 _].
    rewrite !filter_every; [done|apply Forall_forall; intros x Hx ->; contradiction|].
    apply Forall_forall. intros x Hx ->. by apply (D1 k Hx); left.
  - apply list_find_None in E. by rewrite filter_every.
Qed.

Lemma deleteNode_core p id : core p → core (fst (deleteNode p id)).
Proof.
  intros [O K D P X W]. unfold deleteNode. destruct (isNeighbor p id); cbn [negb fst]; [|done].
  rewrite remove_first_spec by done. split; cbn; auto using ordered_erase, NoDup_filter, inv_remove.
  apply Forall_forall. intros k [Hne Hk]%list_elem_of_filter.
  destruct (proj1 (Forall_forall _ _) P _ Hk) as (x & m & Ex & I & F). exists x, m. cbn. by rewrite !find_erase_ne.
Qed.

Lemma deleteNode_step p id : live p → id ≠ self_id p → step p (fst (deleteNode p id)).
Proof.
  intros [C [A1 A2]] Hne. split; [split; [by apply deleteNode_core|]|].
  - unfold deleteNode. destruct (isNeighbor p id); cbn [negb fst]; [|done]. split; cbn; unfold self_id in *; cbn.
    + rewrite has_erase; [done|]. by apply not_eq_sym.
    + rewrite sites_remove by apply C. apply list_elem_of_fmap in A2 as (x & E & Hx). apply list_elem_of_fmap.
      exists x. split; [done|]. apply list_elem_of_filter. split; [congruence|done].
  - unfold deleteNode. by destruct (isNeighbor p id).
Qed.

Lemma deleteNodes_step p ids : live p → self_id p ∉ ids → step p (deleteNodes p ids).
Proof.
  unfold deleteNodes. revert p. induction ids as [|id ids IH]; intros p L Hn; cbn [foldl]; [by apply step_refl|].
  apply not_elem_of_cons in Hn as [Hn1 Hn2]. assert (St := deleteNode_step p id L (not_eq_sym Hn1)).
  eapply step_trans; [exact St|]. destruct St as (L1 & E & _). apply IH; [done|]. unfold self_id in *. by rewrite E.
Qed.

Lemma update_sites_ids v id q : vor_inv v → fst <$> sites (vor_update v id q) = fst <$> sites v.
Proof.
  intros I. rewrite sites_update by done. rewrite <- list_fmap_compose. apply list_fmap_ext. intros _ [k r] _. cbn.
  by destruct (Z.eqb_spec k id).
Qed.

Lemma updateNode_core now s p n : core p →
  let '(p', n', ok) := updateNode now s p n in
  core p' ∧ self p' = self p ∧ vstate p' = vstate p ∧ (alive p → alive p')
  ∧ pneighbors p' = pneighbors p ∧ node_id n' = node_id n ∧ node_aoi n' = node_aoi n
  ∧ fst <$> sites (voronoi p') = fst <$> sites (voronoi p)
  ∧ (∀ k, has k (id2node p') = has k (id2node p))
  ∧ node_time n' = node_time n ∧ fst <$> id2node p' = fst <$> id2node p.
Proof.
  intros [O K D P X W]. unfold updateNode. destruct (find (node_id n) (id2node p)) as [old|] eqn:E; [|by splits].
  destruct (_ <? _); [by splits|]. cbv zeta.
  assert (Hh : ∀ k, has k (set (node_id n) (Node_update old n) (id2node p)) = has k (id2node p)).
  { intros k. rewrite has_set. destruct (Z.eqb_spec k (node_id n)) as [->|]; [|done]. unfold has. by rewrite E. }
  splits; try done; cbn.
  - split; cbn; auto using ordered_set, inv_update. eapply Forall_impl; [exact P|].
    intros k (x & m & Ex & I & F). unfold points. cbn. rewrite find_set.
    destruct (Z.eqb_spec k (node_id n)) as [->|]; eauto 10.
  - intros [A1 A2]. split; cbn; [by rewrite Hh|]. by rewrite update_sites_ids.
  - by apply update_sites_ids.
  - apply keys_set_old; [done|]. unfold has. by rewrite E.
Qed.

Lemma updateNode_new now s p n : new_neighbors (fst (fst (updateNode now s p n))) = new_neighbors p.
Proof. unfold updateNode. destruct (find _ _) as [o|]; [|done]. by destruct (_ <? _). Qed.

Lemma updateNode_step now s p n : live p → step p (fst (fst (updateNode now s p n))).
Proof.
  intros [C A]. pose proof (updateNode_core now s p n C) as H'. destruct (updateNode now s p n) as [[p' n'] ok].
  destruct H' as (C' & E & F & A' & _). split; [split; auto|done].
Qed.

(** *** Questions to the diagram *)

(** The diagram may be asked. *)
Definition asks p : Prop := vor_inv (voronoi p) ∧ sites (voronoi p) ≠ [].

Lemma live_asks p : live p → asks p.
Proof. intros [C A]. split; [apply C|by apply alive_sites]. Qed.

Lemma aoi_ok p id n b : asks p → ∃ x, isAOINeighbor p id n b = Ok x.
Proof. intros [I E]. by apply overlaps_ok. Qed.

Lemma or_else_ok (a b : outcome bool) : (∃ x, a = Ok x) → (∃ y, b = Ok y) → ∃ z, or_else a b = Ok z.
Proof. intros [x ->] [y ->]. unfold or_else. rewrite bind_ok. destruct x; eauto. Qed.

Lemma relevant_ok p n1 n2 b : asks p → ∃ x, isRelevantNeighbor p n1 n2 b = Ok x.
Proof.
  intros L. unfold isRelevantNeighbor. apply or_else_ok; [|apply or_else_ok; by apply aoi_ok].
  apply enclosing_ok; apply L.
Qed.

Lemma ens_ok p id : asks p → ∃ l, vor_get_en (voronoi p) id = Ok l.
Proof. intros [I E]. destruct (get_en_ok (voronoi p) id I E) as (l & El & _). eauto. Qed.

Lemma pointee_ok p k : core p → k ∈ pneighbors p → ∃ n, pointee p k = Ok n ∧ node_id n = k.
Proof.
  intros C Hk. destruct (proj1 (Forall_forall _ _) (co_points _ C) _ Hk) as (n & m & E & I & _).
  exists n. unfold pointee. by rewrite E.
Qed.

(** *** Sending *)

Lemma von_msg_inv p t k : Message_inv (von_msg p t k).
Proof. split; [apply Message_new_inv|done]. Qed.
Hint Resolve von_msg_inv : core.

(** A message is sent; only the state of the network matters afterwards. *)
Ltac step_send G C :=
  match goal with |- context [sendVONMessage ?now ?s ?m ?r] =>
    let Gm := fresh "G" in let F := fresh "F" in
    destruct (send_good now s m r) as (? & ? & ? & ? & -> & Gm & C & F); [done|try done; auto|
    rewrite bind_ok; cbn beta iota; clear G; rename Gm into G] end.

Lemma store_ids_ok msg ids : Message_inv msg → ∃ m', store_ids msg ids = Ok m' ∧ Message_inv m'.
Proof.
  revert msg. induction ids as [|i ids IH]; intros msg M; cbn [store_ids]; [eauto|].
  step_store W. by apply IH.
Qed.

Lemma store_known_ok p msg ids : live p → Message_inv msg →
  ∃ p' m', store_nodes p msg ids = Ok (p', m') ∧ step p p' ∧ Message_inv m'
  ∧ pneighbors p' = pneighbors p ∧ voronoi p' = voronoi p.
Proof.
  revert p msg. induction ids as [|i ids IH]; intros p msg L M; cbn [store_nodes].
  { exists p, msg. splits; [done|by apply step_refl|done|done|done]. }
  destruct (node_at_step p i L) as (St & En & Ev). destruct (node_at p i) as [p1 n]. cbn [fst] in *.
  step_store W. destruct (IH p1 x) as (p' & m' & -> & S1 & M1 & E1 & E2); [apply St|done|].
  exists p', m'. splits; try done; [by eapply step_trans|congruence|congruence].
Qed.

Lemma sendNodes_ok now s p t l r : live p → net_good s →
  ∃ s' p', sendNodes now s p t l r = Ok (s', p') ∧ net_good s' ∧ step p p'
  ∧ pneighbors p' = pneighbors p ∧ voronoi p' = voronoi p.
Proof.
  intros L G. unfold sendNodes. destruct (listsize l =? 0).
  { exists s, p. splits; [done|done|by apply step_refl|done|done]. }
  step_store W. destruct (store_known_ok p x (listed l) L W) as (p' & m' & -> & S1 & M1 & E1 & E2).
  rewrite bind_ok. cbn beta iota. step_send G C. by eexists _, p'.
Qed.

Lemma sendHello_ok now s p t l : net_good s → ∃ s', sendHello now s p t l = Ok s' ∧ net_good s'.
Proof.
  intros G. unfold sendHello. destruct (listsize l =? 0); [eauto|]. step_store W. step_store W1.
  destruct (store_ids_ok x1 (listed l) W1) as (m & -> & M). rewrite bind_ok. step_send G C. eauto.
Qed.

Lemma sendEN_ok now s p t : live p → net_good s → ∃ s', sendEN now s p t = Ok s' ∧ net_good s'.
Proof.
  intros L G. unfold sendEN. destruct (ens_ok p t (live_asks p L)) as (l & ->). rewrite bind_ok. step_store W.
  destruct (store_ids_ok x (listed l) W) as (m & -> & M). rewrite bind_ok. step_send G C. eauto.
Qed.

Lemma checkConsistency_ok now s p k : live p → net_good s →
  ∃ s', checkConsistency now s p k = Ok s' ∧ net_good s'.
Proof.
  intros L. unfold checkConsistency. destruct (ens_ok p (self_id p) (live_asks p L)) as (l & ->). rewrite bind_ok.
  revert s. induction l as [|t l IH]; intros s G; cbn [send_ens]; [eauto|].
  destruct (t =? k); [by apply IH|]. destruct (sendEN_ok now s p t L G) as (s' & -> & G'). rewrite bind_ok. by apply IH.
Qed.

(** *** The messages *)

Definition handled (r : outcome (S * VONPeer V * Message)) p : Prop :=
  ∃ s' p' m', r = Ok (s', p', m') ∧ net_good s' ∧ step p p' ∧ Message_inv m'.

Lemma handled_step r p1 p2 : step p1 p2 → handled r p2 → handled r p1.
Proof. intros St (s' & p' & m' & E & G & S2 & M). exists s', p', m'. splits; try done. by eapply step_trans. Qed.

Lemma insertNode_live now s p n : live p → net_good s →
  let '(s', p', n', ok) := insertNode now s p n in step p p' ∧ net_good s'.
Proof.
  intros [C A] G. pose proof (insertNode_core now s p n C G) as Hc.
  destruct (insertNode now s p n) as [[[s' p'] n'] ok]. destruct Hc as (C' & G' & E & F & A' & _).
  split; [|done]. split; [|done]. split; auto.
Qed.

Lemma relevant_to_ok p j l : live p → incl l (pneighbors p) → ∃ r, relevant_to p j l = Ok r.
Proof.
  intros L. induction l as [|k l IH]; intros Hl; cbn [relevant_to]; [eauto|].
  destruct (pointee_ok p k) as (n & -> & E); [apply L|apply list_elem_of_In, Hl; by left|].
  rewrite bind_ok. destruct IH as (r & Er); [intros x Hx; apply Hl; by right|].
  destruct (negb _).
  - destruct (relevant_ok p n j (aoi_buffer p) (live_asks p L)) as (b & ->). rewrite bind_ok, Er. eauto.
  - rewrite bind_ok, Er. eauto.
Qed.

Lemma query_ok now s p msg : live p → net_good s → Message_inv msg → handled (handle_query now s p msg) p.
Proof.
  intros L G M. unfold handle_query. step_read R. cbv zeta.
  match goal with |- context [vor_contains ?v ?i ?q] =>
    destruct (contains_ok v i q) as (b & ->); [apply L|by apply alive_sites, L|] end.
  rewrite bind_ok. destruct (_ && _).
  - step_send G C. eexists _, p, _. splits; [reflexivity|done|by apply step_refl|apply C].
  - match goal with |- context [insertNode now s p ?j] =>
      pose proof (insertNode_live now s p j L G) as St; destruct (insertNode now s p j) as [[[s1 p1] j1] ok] end.
    destruct St as [St G1]. destruct (relevant_to_ok p1 j1 (pneighbors p1)) as (r & ->); [apply St|apply incl_refl|].
    rewrite bind_ok. destruct (sendNodes_ok now s1 p1 (node_id j1) r true) as (s2 & p2 & -> & G2 & S2 & _); [apply St|done|].
    rewrite bind_ok. eexists s2, p2, _. splits; try done. by eapply step_trans.
Qed.

Lemma extract_ids_ok (n : nat) msg id : Message_inv msg → ∃ m' l, extract_ids n msg id = Ok (m', l) ∧ Message_inv m'.
Proof.
  revert msg id. induction n as [|n IH]; intros msg id M; cbn [extract_ids]; [eauto|]. step_read R.
  match goal with |- context [extract_ids n ?m ?i] => destruct (IH m i R) as (m2 & l & -> & M2) end.
  rewrite bind_ok. eauto.
Qed.

Lemma missing_ens_ok p fr l ens : live p → ∃ p' r, missing_ens p fr l ens = Ok (p', r) ∧ step p p'.
Proof.
  revert p. induction ens as [|id ens IH]; intros p L; cbn [missing_ens]; [by exists p, []|].
  destruct (_ && _); [|by apply IH].
  destruct (node_at_step p id L) as (S1 & _). destruct (node_at p id) as [p1 n]. cbn [fst] in *.
  destruct (node_at_step p1 fr (proj1 S1)) as (S2 & _). destruct (node_at p1 fr) as [p2 m]. cbn [fst] in *.
  destruct (relevant_ok p2 n m (aoi_buffer p2) (live_asks _ (proj1 S2))) as (b & ->). rewrite bind_ok.
  destruct (IH p2 (proj1 S2)) as (p3 & r & -> & S3). rewrite bind_ok. eexists p3, _. split; [reflexivity|].
  eapply step_trans; [exact S1|]. by eapply step_trans.
Qed.

Lemma en_ok now s p msg : live p → net_good s → Message_inv msg → handled (handle_en junk now s p msg) p.
Proof.
  intros L G M. unfold handle_en. step_read R. destruct (ens_ok p (self_id p) (live_asks p L)) as (ens & ->). rewrite bind_ok.
  match goal with |- context [extract_ids ?n ?m ?i] => destruct (extract_ids_ok n m i R) as (m1 & ids & -> & M1) end.
  rewrite bind_ok. cbv beta iota zeta. pose proof (with_known_step p (from m1) (known_list ids) L) as S1.
  match goal with |- context [missing_ens ?q ?f ?l ?e] =>
    destruct (missing_ens_ok q f l e (proj1 S1)) as (p2 & r & -> & S2) end.
  rewrite bind_ok. cbn beta iota. apply (handled_step _ p p2); [exact (step_trans _ _ _ S1 S2)|]. destruct r as [|k r].
  - eexists s, p2, m1. splits; [done|done|by apply step_refl, S2|done].
  - destruct (sendNodes_ok now s p2 (from m1) (k :: r) false (proj1 S2) G) as (s3 & p3 & -> & G3 & S3 & _).
    rewrite bind_ok. by exists s3, p3, m1.
Qed.

Lemma hello_ok now s p msg : live p → net_good s → Message_inv msg → handled (handle_hello junk now s p msg) p.
Proof.
  intros L G M. unfold handle_hello. step_read R.
  match goal with |- context [updateNode now s p ?n] => set (node := n) end.
  assert (Hx : ∃ s1 p1, (if isNeighbor p (from x) then (s, fst (fst (updateNode now s p node)))
      else let '(s, p, _, _) := insertNode now s p node in (s, p)) = (s1, p1) ∧ step p p1 ∧ net_good s1).
  { destruct (isNeighbor p (from x)); [eexists _, _; split; [reflexivity|]; split; [by apply updateNode_step|done]|].
    pose proof (insertNode_live now s p node L G) as St. destruct (insertNode now s p node) as [[[s1 p1] n1] ok].
    by exists s1, p1. }
  destruct Hx as (s1 & p1 & -> & S1 & G1). apply (handled_step _ p p1 S1). destruct S1 as [L1 _].
  step_store W. step_send G1 C.
  match goal with |- context [checkConsistency now ?s2 p1 ?k] =>
    destruct (checkConsistency_ok now s2 p1 k L1 G1) as (s3 & -> & G3) end.
  rewrite bind_ok. by apply en_ok.
Qed.

Lemma hello_r_ok now s p msg : live p → net_good s → Message_inv msg → handled (handle_hello_r now s p msg) p.
Proof.
  intros L G M. unfold handle_hello_r. destruct (find (from msg) (potential p)) as [n|].
  2: { exists s, p, msg. splits; [done|done|by apply step_refl|done]. }
  step_read R.
  match goal with |- context [insertNode now s p ?n] =>
    pose proof (insertNode_live now s p n L G) as St; destruct (insertNode now s p n) as [[[s1 p1] n1] ok] end.
  destruct St as [S1 G1]. eexists s1, _, _. splits; [reflexivity|done| |done].
  eapply step_trans; [exact S1|]. by apply same_live; [apply S1|..].
Qed.

Lemma moved_node_ok msg full n : Message_inv msg →
  ∃ m' n', moved_node junk msg full n = Ok (m', n') ∧ Message_inv m' ∧ from m' = from msg.
Proof.
  intros M. unfold moved_node. destruct full.
  - destruct (extract_obj_safe msg Node_init M) as (m1 & y & k & -> & (M1 & F & _) & _); [vm_compute; lia|].
    rewrite bind_ok. eexists m1, y. splits; [done|done|apply F].
  - destruct (extract_safe msg 8 false M) as (m1 & o & k & -> & (M1 & F1 & _) & _); [lia|].
    rewrite bind_ok. cbn beta iota. destruct (match o with Some _ => _ | None => _ end) as [a b]. cbv zeta.
    destruct (extract_int_safe 8 m1 (node_time n) false M1) as (m2 & t & -> & (M2 & F2 & _) & _); [lia|].
    rewrite bind_ok. eexists m2, _. splits; [reflexivity|done|]. destruct F1 as [F1 _], F2 as [F2 _]. congruence.
Qed.

Lemma move_ok now s p msg full b : live p → net_good s → Message_inv msg →
  handled (handle_move junk now s p msg full b) p.
Proof.
  intros L G M. unfold handle_move. destruct (find (from msg) (id2node p)) as [n|].
  2: { exists s, p, msg. splits; [done|done|by apply step_refl|done]. }
  destruct (moved_node_ok msg full n M) as (m1 & n1 & -> & M1 & _). rewrite bind_ok. cbn beta iota.
  pose proof (updateNode_step now s p n1 L) as S1. destruct (updateNode now s p n1) as [[p1 n2] ok]. cbn [fst] in S1.
  eexists s, _, m1. splits; [reflexivity|done| |done]. destruct (ok && b); [|done].
  eapply step_trans; [exact S1|]. by apply same_live; [apply S1|..].
Qed.

(** The nodes that the loop of [VON_NODE] reads *)
Fixpoint nodes_read (k : nat) (msg : Message) n : list Node :=
  match k with
  | O => []
  | Datatypes.S k => match extract_obj msg n false with
                     | Ok (msg, n, _) => n :: nodes_read k msg n
                     | Fail _ => []
                     end
  end.

Definition nodes_told (msg : Message) : list Node :=
  match extract_int 1 msg (vu_n junk) false with
  | Ok (msg, n, _) => nodes_read (Z.to_nat n) msg Node_init
  | Fail _ => []
  end.

(** A message that is not a farewell or a disconnection in the name of [id] *)
Definition not_own_farewell (id : Z) (msg : Message) : Prop :=
  of_von_code (msgtype msg) = Some VON_BYE ∨ of_von_code (msgtype msg) = Some VON_DISCONNECT → from msg ≠ id.

(** A list of nodes that does not name [id] *)
Definition not_named_in (id : Z) (msg : Message) : Prop :=
  of_von_code (msgtype msg) = Some VON_NODE → Forall (λ n, node_id n ≠ id) (nodes_told msg).

Definition decent (id : Z) (msg : Message) : Prop := not_own_farewell id msg ∧ not_named_in id msg.

Lemma with_new_step p l r : live p → Forall (λ x, fst x = node_id (snd x) ∧ (naming ∨ fst x ≠ self_id p)) l → step p (with_new p l r).
Proof. intros [[O K D P X W] A] Hl. split; [|done]. split; [by split|done]. Qed.

Lemma note_node_step p n : live p → naming ∨ node_id n ≠ self_id p → step p (note_node p n).
Proof.
  intros L Hn. assert (W := co_new _ (proj1 L)).
  assert (Hs : Forall (λ x, fst x = node_id (snd x) ∧ (naming ∨ fst x ≠ self_id p)) (set (node_id n) n (new_neighbors p))).
  { by apply Forall_set. }
  unfold note_node. destruct (ratio p). destruct (find _ _) as [o|]; [destruct (_ <=? _)|]; by apply with_new_step.
Qed.

Lemma note_nodes_ok k p msg n : live p → Message_inv msg → Forall (λ n, naming ∨ node_id n ≠ self_id p) (nodes_read k msg n) →
  ∃ p' m', note_nodes k p msg n = Ok (p', m') ∧ step p p' ∧ Message_inv m'.
Proof.
  revert p msg n. induction k as [|k IH]; intros p msg n L M; cbn [note_nodes nodes_read]; intros F.
  { exists p, msg. split; [done|]. split; [by apply step_refl|done]. }
  assert (Hpos : (0 < sizeOf n)%nat) by (cbn; unfold Node_sizeOf; lia).
  destruct (extract_obj_safe msg n M Hpos) as (m1 & y & j & E & (M1 & _) & _). rewrite E in *. rewrite bind_ok. cbn beta iota.
  apply Forall_cons in F as [Hy F]. pose proof (note_node_step p y L Hy) as S1.
  destruct (IH (note_node p y) m1 y (proj1 S1) M1) as (p' & m' & -> & S2 & M2).
  { eapply Forall_impl; [exact F|]. intros x. unfold self_id. by rewrite (proj1 (proj2 S1)). }
  exists p', m'. split; [done|]. split; [by eapply step_trans|done].
Qed.

Lemma node_ok s p msg : live p → net_good s → Message_inv msg → Forall (λ n, naming ∨ node_id n ≠ self_id p) (nodes_told msg) →
  handled (handle_node junk s p msg) p.
Proof.
  intros L G M. unfold handle_node, nodes_told.
  destruct (extract_int_safe 1 msg (vu_n junk) false M) as (m1 & n & -> & (R & _) & _); [lia|]. rewrite bind_ok. cbn beta iota.
  intros F. destruct (note_nodes_ok (Z.to_nat n) p m1 Node_init L R F) as (p1 & m2 & -> & S1 & M1).
  rewrite bind_ok. by exists s, p1, m2.
Qed.

Lemma bye_ok now s p msg : live p → net_good s → Message_inv msg → from msg ≠ self_id p →
  handled (handle_bye now s p msg) p.
Proof.
  intros L G M Hf. unfold handle_bye. destruct (memb _ _).
  - destruct (checkConsistency_ok now s p (from msg) L G) as (s1 & -> & G1). rewrite bind_ok.
    eexists s1, _, msg. splits; [reflexivity|done|by apply deleteNode_step|done].
  - exists s, p, msg. splits; [done|done|by apply step_refl|done].
Qed.

Lemma VP_handle_ok now s p msg : peer_inv p → net_good s → Message_inv msg → not_own_farewell (self_id p) msg →
  naming ∨ not_named_in (self_id p) msg →
  ∃ s' p' m' ok, VP_handleMessage junk now s p msg = Ok (s', p', m', ok)
  ∧ net_good s' ∧ peer_inv p' ∧ self p' = self p ∧ vstate p' = vstate p ∧ Message_inv m'.
Proof.
  intros I G M Hf Ht. unfold VP_handleMessage. destruct (bool_decide (vstate p = ABSENT)) eqn:Ea.
  { by exists s, p, msg, false. }
  apply bool_decide_eq_false in Ea. pose proof (inv_live p I Ea) as L.
  destruct (of_von_code (msgtype msg)) as [t|] eqn:Et; [|by exists s, p, msg, false].
  match goal with |- context [?m ≫= _] => assert (Hh : handled m p) end.
  { destruct t; first [by apply query_ok|by apply hello_ok|by apply hello_r_ok|by apply en_ok|by apply move_ok
      |by apply bye_ok; [..|apply Hf; rewrite Et; auto]|apply node_ok; [done..|]].
    destruct Ht as [Hn|Ht]; [apply Forall_true; by left|eapply Forall_impl; [exact (Ht Et)|]]. by right. }
  destruct Hh as (s' & p' & m' & -> & G' & St & M'). rewrite bind_ok. cbn beta iota.
  exists s', p', m', true. splits; try done; [by eapply step_peer_inv|apply St|apply St].
Qed.

(** *** The tasks of a cycle *)

Lemma isJoined_inv p : peer_inv p → peer_inv (fst (VP_isJoined p)) ∧ self (fst (VP_isJoined p)) = self p.
Proof.
  intros I. unfold VP_isJoined. cbn [fst]. destruct (bool_decide_reflect (vstate p = JOINING)) as [E|]; [|done].
  destruct (_ <? _); [|done]. split; [|done]. destruct I as [[O K D P X W] A]. split; [by split|].
  rewrite bool_decide_eq_false_2 in A by (by rewrite E). done.
Qed.

(** No keep-alive is ever sent. *)
Lemma keep_alive_silent now s p : sendKeepAlive now s p = Ok (s, fst (VP_isJoined p)).
Proof. unfold sendKeepAlive. destruct (VP_isJoined p) as [p1 []]; done. Qed.

(** Nodes enter the diagram if they are not known. *)
Lemma sort_new_core now s p l : core p →
  let '(p', r) := sort_new now s p l in
  core p' ∧ self p' = self p ∧ vstate p' = vstate p ∧ new_neighbors p' = new_neighbors p
  ∧ (∀ k, has k (id2node p') = has k (id2node p))
  ∧ Forall (λ k, has k (id2node p) = false ∧ k ∈ ((λ x, node_id (snd x)) <$> l)) r
  ∧ (∀ x, x ∈ (fst <$> sites (voronoi p)) → x ∈ (fst <$> sites (voronoi p')))
  ∧ (r ≠ [] → sites (voronoi p') ≠ []).
Proof.
  revert p. induction l as [|[k n] l IH]; intros p C; cbn [sort_new]; [by splits|].
  assert (Hw : ∀ (P : Z → Prop) r, Forall (λ x, P x ∧ x ∈ ((λ x, node_id (snd x)) <$> l)) r →
    Forall (λ x, P x ∧ x ∈ ((λ x, node_id (snd x)) <$> (k, n) :: l)) r).
  { intros P r F. eapply Forall_impl; [exact F|]. intros x [Hx Hl]. split; [done|]. rewrite fmap_cons. by right. }
  destruct (isNeighbor p (node_id n)) eqn:E.
  - pose proof (updateNode_core now s p n C) as Hu. pose proof (updateNode_new now s p n) as En.
    destruct (updateNode now s p n) as [[p1 n1] ok]. cbn [fst] in *.
    destruct Hu as (C1 & E1 & E2 & A1 & _ & _ & _ & Es & Hh & _). specialize (IH p1 C1).
    destruct (sort_new now s p1 l) as [p2 r]. destruct IH as (C2 & F1 & F2 & F3 & Hh2 & F & Hs & N).
    splits; [done|congruence|congruence|congruence|intros x; rewrite Hh2; apply Hh| | |done].
    + apply Hw. eapply Forall_impl; [exact F|]. intros x. cbn beta. by rewrite Hh.
    + intros x Hx. apply Hs. by rewrite Es.
  - set (p1 := with_vor p _). assert (C1 : core p1) by (destruct C; split; cbn; auto using inv_insert).
    assert (Hs1 : ∀ x, x ∈ (fst <$> sites (voronoi p)) ∨ x = node_id n → x ∈ (fst <$> sites (voronoi p1))).
    { intros x Hx. cbn. rewrite sites_insert. destruct (memb _ _) eqn:Em.
      - apply memb_true in Em. by destruct Hx as [| ->].
      - rewrite fmap_app. apply elem_of_app. destruct Hx as [| ->]; [by left|right; left]. }
    specialize (IH p1 C1). destruct (sort_new now s p1 l) as [p2 r]. destruct IH as (C2 & F1 & F2 & F3 & Hh2 & F & Hs & N).
    splits; try done.
    + constructor; [|by apply Hw]. split; [done|]. rewrite fmap_cons. by left.
    + intros x Hx. apply Hs, Hs1. by left.
    + intros _ E'. assert (Hin : node_id n ∈ (fst <$> sites (voronoi p2))) by (apply Hs, Hs1; by right).
      rewrite E' in Hin. by apply elem_of_nil in Hin.
Qed.

Lemma greet_ok now s p l : asks p ∨ l = [] → net_good s →
  ∃ s' q, greet now s p l = Ok (s', with_potential p q) ∧ net_good s'.
Proof.
  revert s p. induction l as [|t l IH]; intros s p Ha G; cbn [greet].
  { exists s, (potential p). by destruct p. }
  destruct Ha as [Ha|]; [|done]. cbv zeta.
  match goal with |- context [isRelevantNeighbor p ?n ?m ?b] => destruct (relevant_ok p n m b Ha) as (x & ->) end.
  rewrite bind_ok. destruct x; [|apply IH; auto].
  change (voronoi (with_potential p _)) with (voronoi p). destruct (ens_ok p t Ha) as (ens & ->). rewrite bind_ok.
  match goal with |- context [sendHello now ?s1 ?p1 t ens] =>
    destruct (sendHello_ok now s1 p1 t ens (mapping_good _ _ _ G)) as (s2 & -> & G2) end.
  rewrite bind_ok.
  match goal with |- context [greet now s2 ?p1 l] => destruct (IH s2 p1) as (s3 & q & -> & G3); [by left|done|] end.
  by exists s3, q.
Qed.

Lemma removes_sites v l : vor_inv v → vor_inv (foldl vor_remove v l)
  ∧ ∀ x, x ∉ l → x ∈ (fst <$> sites v) → x ∈ (fst <$> sites (foldl vor_remove v l)).
Proof.
  revert v. induction l as [|k l IH]; intros v I; cbn [foldl]; [done|].
  destruct (IH (vor_remove v k)) as [I' Hs]; [by apply inv_remove|]. split; [done|].
  intros x [Hne Hl]%not_elem_of_cons Hx. apply Hs; [done|]. rewrite sites_remove by done.
  apply list_elem_of_fmap in Hx as (y & -> & Hy). apply list_elem_of_fmap. exists y. split; [done|].
  by apply list_elem_of_filter.
Qed.

Lemma contact_ok now s p : peer_inv p → net_good s →
  ∃ s' p', contactNewNeighbors now s p = Ok (s', p') ∧ net_good s' ∧ peer_inv p' ∧ self p' = self p ∧ vstate p' = vstate p.
Proof.
  intros [C A] G. unfold contactNewNeighbors. pose proof (sort_new_core now s p (new_neighbors p) C) as Hs.
  destruct (sort_new now s p (new_neighbors p)) as [p1 l] eqn:El.
  destruct Hs as (C1 & E1 & E2 & E3 & Hh & F & Hx & Hn).
  destruct (greet_ok now s p1 l) as (s2 & q & -> & G2); [|done|].
  { destruct l as [|k l]; [by right|left]. split; [apply C1|by apply Hn]. }
  rewrite bind_ok. cbv beta iota zeta. eexists s2, _. split; [reflexivity|]. split; [done|]. split; [|done].
  destruct (removes_sites (voronoi p1) l (co_vor _ C1)) as [Iv Hr].
  assert (Hl : self_id p ∈ l → naming ∧ has (self_id p) (id2node p) = false).
  { intros Hin. apply (proj1 (Forall_forall _ _) F) in Hin as [Hf Hin]. split; [|done].
    apply list_elem_of_fmap in Hin as (x & Ex & Hin).
    apply (proj1 (Forall_forall _ _) (co_new _ C)) in Hin as [Hk [|Hne]]; [done|congruence]. }
  split; [destruct C1; split; cbn; try done; constructor|]. cbn. rewrite E2. destruct (bool_decide (vstate p = ABSENT)).
  - destruct A as [A1 A2]. split; cbn.
    + destruct (id2node p1) as [|[k n] m]; [done|]. specialize (Hh k). rewrite A1 in Hh. unfold has in Hh. cbn in Hh.
      by rewrite Z.eqb_refl in Hh.
    + destruct A2 as [Hm|[[Av An]|As]]; [by left|right; left|].
      * rewrite An in El. cbn in El. injection El as <- <-. by split.
      * destruct (decide (self_id p ∈ l)) as [Hin|Hin]; [left; by apply Hl|right; right].
        unfold self_id in *. cbn. rewrite E1. by apply Hr, Hx.
  - destruct A as [B1 B2]. unfold alive, self_id in *. cbn. rewrite E1. split; [by rewrite Hh|].
    apply Hr, Hx; [|done]. intros Hin. apply Hl in Hin as [_ Hf]. congruence.
Qed.

Lemma neighbor_state_ok p fr n id : asks p → ∃ z, neighbor_state p fr n id = Ok z.
Proof.
  intros Ha. unfold neighbor_state. destruct (aoi_ok p id n (aoi_buffer p) Ha) as (o & ->). rewrite bind_ok.
  destruct (enclosing_ok (voronoi p) id fr) as (e & ->); [apply Ha..|]. rewrite bind_ok. eauto.
Qed.

Lemma discover_ok p fr n l m : live p → incl l (pneighbors p) → find fr (known p) = Some (Some m) →
  ∃ r, discover p fr n l = Ok r.
Proof.
  intros L. induction l as [|k l IH]; intros Hl Hm; cbn [discover]; [eauto|].
  destruct (pointee_ok p k) as (x & -> & E); [apply L|apply list_elem_of_In, Hl; by left|]. rewrite bind_ok. cbv zeta.
  destruct IH as ([nt st] & IH); [intros y Hy; apply Hl; by right|done|].
  destruct (_ || _); [by exists (nt, st)|].
  destruct (neighbor_state_ok p fr n (node_id x) (live_asks p L)) as (z & ->). rewrite bind_ok.
  destruct (z =? 0); [by exists (nt, st)|]. rewrite Hm. cbn [default from_option id seen]. rewrite bind_ok, IH, bind_ok. eauto.
Qed.

Lemma discover_all_ok now s p l : live p → net_good s → incl l (pneighbors p) →
  ∃ s' p', discover_all now s p l = Ok (s', p') ∧ net_good s' ∧ step p p'.
Proof.
  revert s p. induction l as [|k l IH]; intros s p L G Hl; cbn [discover_all].
  { exists s, p. split; [done|]. split; [done|by apply step_refl]. }
  assert (Hk : k ∈ pneighbors p) by (apply list_elem_of_In, Hl; by left).
  assert (Hr : incl l (pneighbors p)) by (intros y Hy; apply Hl; by right).
  destruct (pointee_ok p k) as (n & -> & E); [apply L|done|]. rewrite bind_ok. cbv zeta.
  destruct (isSelf p (node_id n)); [by apply IH|]. rewrite E.
  destruct (proj1 (Forall_forall _ _) (co_points _ (proj1 L)) _ Hk) as (_ & m & _ & _ & Hm).
  destruct (discover_ok p k n (pneighbors p) m L) as ([nt st] & ->); [apply incl_refl|done|].
  rewrite bind_ok. cbv beta iota zeta. pose proof (with_known_step p k st L) as S1.
  set (p1 := with_known p _) in *.
  assert (Hx : ∃ s2 p2, (if has k (req_nodes p1) then sendNodes now s p1 k nt false else Ok (s, p1)) = Ok (s2, p2)
    ∧ net_good s2 ∧ step p1 p2 ∧ pneighbors p2 = pneighbors p1).
  { destruct (has k (req_nodes p1)).
    - destruct (sendNodes_ok now s p1 k nt false (proj1 S1) G) as (s2 & p2 & E2 & G2 & S2 & N2 & _). by exists s2, p2.
    - exists s, p1. splits; [done|done|by apply step_refl, S1|done]. }
  destruct Hx as (s2 & p2 & -> & G2 & S2 & N2). rewrite bind_ok. cbn beta iota.
  destruct (IH s2 p2) as (s3 & p3 & -> & G3 & S3); [apply S2|done|by rewrite N2|].
  exists s3, p3. split; [done|]. split; [done|]. exact (step_trans _ _ _ S1 (step_trans _ _ _ S2 S3)).
Qed.

Lemma with_drop_step p td : live p → step p (with_drop p td).
Proof. intros L. by apply same_live. Qed.

Lemma overdue_ok p now grace l : live p →
  ∃ p' r, overdue p now grace l = Ok (p', r) ∧ step p p' ∧ self_id p ∉ r.
Proof.
  revert p. induction l as [|[id n] l IH]; intros p L; cbn [overdue].
  { exists p, []. split; [done|]. split; [by apply step_refl|apply not_elem_of_nil]. }
  assert (Hk : ∃ b, (if isSelf p id then Ok true
     else b ← isRelevantNeighbor p (self p) n (nonoverlap_buffer (aoi_buffer p)); Ok (b && isTimelyNeighbor p id)) = Ok b
     ∧ (b = false → id ≠ self_id p)).
  { unfold isSelf. destruct (Z.eqb_spec (self_id p) id); [by exists true|].
    destruct (relevant_ok p (self p) n (nonoverlap_buffer (aoi_buffer p)) (live_asks p L)) as (b & ->).
    rewrite bind_ok. eexists. split; [reflexivity|auto]. }
  destruct Hk as (b & -> & Hb). rewrite bind_ok.
  assert (Hw : ∀ td, ∃ p' r, overdue (with_drop p td) now grace l = Ok (p', r) ∧ step p p' ∧ self_id p ∉ r).
  { intros td. destruct (IH (with_drop p td)) as (p' & r & E & S1 & Hn); [by apply with_drop_step|].
    exists p', r. split; [done|]. split; [|done]. exact (step_trans _ _ _ (with_drop_step p td L) S1). }
  destruct b; [apply Hw|]. cbv zeta. destruct (_ <=? now); [|apply Hw].
  destruct (Hw (erase id (time_drop p))) as (p' & r & -> & S1 & Hn). rewrite bind_ok. cbn beta iota.
  exists p', (id :: r). split; [done|]. split; [done|]. apply not_elem_of_cons. split; [by apply not_eq_sym, Hb|done].
Qed.

Lemma remove_ok now ms s p : live p → net_good s →
  ∃ s' p', removeNonOverlapped now ms s p = Ok (s', p') ∧ net_good s' ∧ step p p'.
Proof.
  intros L G. unfold removeNonOverlapped. cbv zeta.
  match goal with |- context [overdue p ?t ?g ?l] => destruct (overdue_ok p t g l L) as (p1 & r & -> & S1 & Hn) end.
  rewrite bind_ok. cbn beta iota. destruct r as [|k r]; [by exists s, p1|].
  step_send G C. eexists _, _. split; [reflexivity|]. split; [done|].
  apply (step_trans _ _ _ S1). apply deleteNodes_step; [apply S1|].
  unfold self_id. by rewrite (proj1 (proj2 S1)).
Qed.

(** A peer that left knows no nodes. *)
Lemma absent_neighbors p : core p → id2node p = [] → pneighbors p = [].
Proof.
  intros C E. destruct (pneighbors p) as [|k l] eqn:Ek; [done|].
  destruct (proj1 (Forall_forall _ _) (co_points _ C) k) as (n & m & F & _); [rewrite Ek; left|]. by rewrite E in F.
Qed.

(** A cycle of a peer never fails. *)
Lemma VP_tick_ok now ms s p : peer_inv p → net_good s →
  ∃ s' p', VP_tick now ms s p = Ok (s', p') ∧ net_good s' ∧ peer_inv p' ∧ self_id p' = self_id p.
Proof.
  intros I G. unfold VP_tick. rewrite keep_alive_silent, bind_ok. cbn beta iota.
  destruct (isJoined_inv p I) as [I1 E1]. destruct (contact_ok now s _ I1 G) as (s2 & p2 & -> & G2 & I2 & E2 & _).
  rewrite bind_ok. cbn beta iota. unfold checkNeighborDiscovery.
  destruct (bool_decide_reflect (vstate p2 = ABSENT)) as [Ea|Ea].
  - destruct I2 as [C2 A2]. rewrite bool_decide_eq_true_2 in A2 by done. pose proof A2 as [An _]. rewrite (absent_neighbors p2 C2 An).
    cbn [discover_all]. rewrite !bind_ok. cbn beta iota. unfold removeNonOverlapped. cbv zeta. cbn [id2node with_req].
    rewrite An. cbn [overdue]. rewrite bind_ok. cbn beta iota. exists s2, (with_req p2 []). splits; [done|done| |].
    + split; [destruct C2; by split|]. cbn. by rewrite bool_decide_eq_true_2.
    + unfold self_id. cbn. by rewrite E2, E1.
  - pose proof (inv_live p2 I2 Ea) as L2.
    destruct (discover_all_ok now s2 p2 (pneighbors p2) L2 G2) as (s3 & p3 & -> & G3 & S3); [apply incl_refl|].
    rewrite bind_ok. cbn beta iota. rewrite bind_ok. cbn beta iota.
    assert (L3 : live (with_req p3 [])) by (apply (same_live p3); [apply S3|done..]).
    destruct (remove_ok now ms s3 (with_req p3 []) L3 G3) as (s4 & p4 & -> & G4 & S4).
    exists s4, p4. splits; [done|done| |].
    + apply (step_peer_inv _ _ S4). cbn. by rewrite (proj2 (proj2 S3)).
    + unfold self_id. rewrite (proj1 (proj2 S4)). cbn. by rewrite (proj1 (proj2 S3)), E2, E1.
Qed.

(** *** Joining, leaving and moving *)

Lemma new_peer_inv s id b st : peer_inv (VP_new s id b st).
Proof.
  split; [split; cbn; try constructor; apply inv_empty|]. cbn. split; [done|by right; left].
Qed.

Lemma with_self_core p n : core p → node_id n = self_id p → core (with_self p n).
Proof. intros [O K D P X W] E. split; try done. unfold self_id. cbn. by rewrite E. Qed.

Lemma VP_join_ok now s p aoi gw : peer_inv p → net_good s →
  ∃ s' p', VP_join now s p aoi gw = Ok (s', p') ∧ net_good s' ∧ peer_inv p' ∧ self_id p' = self_id p.
Proof.
  intros I G. unfold VP_join. destruct (isJoined_inv p I) as [I1 E1]. destruct (VP_isJoined p) as [p1 [|]]; cbn [fst] in *.
  { exists s, p1. splits; try done. unfold self_id. by rewrite E1. }
  set (p2 := with_self p1 _). assert (C2 : core p2) by (destruct I1 as [[] _]; by split).
  pose proof (insertNode_core now s p2 (with_aoi (self p1) aoi) C2 G) as Hc.
  destruct (insertNode now s p2 (with_aoi (self p1) aoi)) as [[[s3 p3] me] ok]. destruct Hc as (C3 & G3 & E3 & F3 & A3 & N3 & Hok & Em).
  assert (Ei : node_id me = self_id p) by (rewrite Em; unfold self_id; cbn; by rewrite E1).
  assert (Hs : self_id (with_self p3 me) = self_id p3) by (unfold self_id in *; cbn; rewrite Ei, E3; cbn; by rewrite E1).
  assert (Hme : alive (with_self p3 me)).
  { assert (A : alive p3); [|destruct A as [B1 B2]; split; by rewrite Hs].
    destruct ok.
    - destruct (N3 eq_refl) as (_ & B1 & B2 & _). split; [|]; unfold self_id; by rewrite E3.
    - apply A3. destruct I1 as [C1 Hb]. destruct (bool_decide_reflect (vstate p1 = ABSENT)) as [Ea|Ea]; [|done].
      unfold isNeighbor, p2 in Hok. cbn in Hok. by rewrite (proj1 Hb) in Hok. }
  assert (L3 : live (with_self p3 me)) by (split; [by apply with_self_core|done]).
  cbv zeta. destruct (self_id _ =? node_id gw).
  - eexists s3, _. splits; [reflexivity|done| |done]. apply live_inv; [|done]. destruct L3 as [[] A]. by split.
  - step_store W. pose proof (mapping_good s3 (node_id gw) (node_addr gw) G3) as G4. step_send G4 C.
    eexists _, _. splits; [reflexivity|done| |done]. apply live_inv; [|done]. destruct L3 as [[] A]. by split.
Qed.

Lemma bye_neighbors_ok p msg l : core p → incl l (pneighbors p) → Message_inv msg →
  ∃ m, bye_neighbors p msg l = Ok m ∧ Message_inv m.
Proof.
  intros C. revert msg. induction l as [|k l IH]; intros msg Hl M; cbn [bye_neighbors]; [eauto|].
  destruct (pointee_ok p k C) as (n & -> & _); [apply list_elem_of_In, Hl; by left|]. rewrite bind_ok.
  apply IH; [intros y Hy; apply Hl; by right|]. destruct (isSelf _ _); [done|by apply addTarget_inv].
Qed.

Lemma VP_leave_ok now s p b : peer_inv p → net_good s →
  ∃ s' p', VP_leave now s p b = Ok (s', p') ∧ net_good s' ∧ peer_inv p' ∧ self_id p' = self_id p ∧ vstate p' = ABSENT.
Proof.
  intros [C A] G. unfold VP_leave.
  match goal with |- context [?m ≫= _] => assert (Hs : ∃ s', m = Ok s' ∧ net_good s') end.
  { destruct b; [|eauto].
    destruct (bye_neighbors_ok p (von_msg p VON_BYE 0) (pneighbors p) C) as (m & -> & M); [apply incl_refl|done|].
    rewrite bind_ok. cbv zeta. destruct (targets _); [eauto|]. step_send G Cm. { by apply addTargets_inv. } by eexists. }
  destruct Hs as (s' & -> & G'). rewrite bind_ok. eexists s', _. splits; [reflexivity|done| |done|done].
  split; [destruct C; split; cbn; try constructor; done|]. cbn. split; [done|].
  destruct (bool_decide (vstate p = ABSENT)); [apply A|right; right; apply A].
Qed.

(** A peer that moves to a position another node has steps aside, perhaps for ever. *)
Definition diverges (f : fault) : Prop := f = Diverges.

Lemma overlap_sat fuel me all l q : outcome_sat diverges (λ _, True) (overlap_loop fuel me all l q).
Proof.
  revert l q. induction fuel as [|fuel IH]; intros l q; cbn [overlap_loop]; destruct (clash me l q); done.
Qed.

Lemma move_targets_ok p l ts bs : asks p → self_id p ∉ ts → self_id p ∉ bs →
  ∃ ts' bs', move_targets p l ts bs = Ok (ts', bs') ∧ (self_id p ∉ ts') ∧ (self_id p ∉ bs').
Proof.
  intros Ha. revert ts bs. induction l as [|[k n] l IH]; intros ts bs Ht Hb; cbn [move_targets]; [by exists ts, bs|].
  unfold isSelf. destruct (Z.eqb_spec (self_id p) k) as [|Hne]; [by apply IH|].
  match goal with |- context [vor_is_boundary ?v k ?c ?r] => destruct (boundary_ok v k c r (proj1 Ha) (proj2 Ha)) as ([] & ->) end;
    rewrite bind_ok; apply IH; try done; apply not_elem_of_app; (split; [done|by intros E%list_elem_of_singleton]).
Qed.

Lemma move_content_ok p b : ∃ m, move_content p b = Ok m ∧ Message_inv m.
Proof.
  unfold move_content. cbv zeta. destruct b; [step_store W; eauto|]. step_store W. step_store W1. eauto.
Qed.

Lemma send_move_ok now s p msg : live p → net_good s → Message_inv msg → self_id p ∉ targets msg →
  ∃ s' p' m', send_move now s p msg = Ok (s', p', m') ∧ net_good s' ∧ step p p' ∧ Message_inv m'.
Proof.
  intros L G M Hn. unfold send_move. destruct (targets msg) as [|t ts] eqn:Et.
  { exists s, p, msg. splits; [done|done|by apply step_refl|done]. }
  destruct (send_good now s msg true G M) as (s' & m' & failed & k & -> & G' & C & F). rewrite bind_ok.
  eexists s', _, m'. splits; [reflexivity|done| |apply C]. apply deleteNodes_step; [done|].
  intros Hin. apply Hn. rewrite <- Et. apply list_elem_of_In, F. by apply list_elem_of_In.
Qed.

Lemma with_self_live p n : live p → node_id n = self_id p → live (with_self p n).
Proof. intros [C [A1 A2]] E. split; [by apply with_self_core|]. split; unfold self_id; cbn; by rewrite E. Qed.

Lemma VP_move_ok now s p aoi t : peer_inv p → net_good s →
  outcome_sat diverges (λ '(s', p', _), net_good s' ∧ peer_inv p' ∧ self_id p' = self_id p ∧ vstate p' = vstate p)
    (VP_move now s p aoi t).
Proof.
  intros I G. unfold VP_move. cbv zeta. eapply (sat_bind _ (λ _, True)); [apply overlap_sat|]. intros c _.
  match goal with |- context [updateNode now s ?q ?n] => set (p1 := q); set (n1 := n) end.
  assert (E1 : node_id n1 = self_id p) by done.
  assert (I1 : peer_inv p1).
  { destruct I as [C A]. split; [by apply with_self_core; [apply with_self_core|]|]. exact A. }
  destruct (bool_decide_reflect (vstate p = ABSENT)) as [Ea|Ea].
  - assert (En : id2node p1 = []) by (destruct I1 as [_ A]; rewrite bool_decide_eq_true_2 in A by done; apply A).
    unfold updateNode. rewrite En. cbn [find]. cbv beta iota.
    destruct (move_content_ok (with_self p1 n1) (negb (Area_eqb (with_center (node_aoi (self p)) (center aoi)) aoi))) as (m & -> & M).
    rewrite bind_ok. cbn [id2node with_self]. rewrite En. cbn [move_targets]. rewrite bind_ok. cbn [outcome_sat mbind outcome_bind send_move targets with_targets set_type].
    split; [done|]. destruct I1 as [[] A]. repeat split; done.
  - pose proof (updateNode_core now s p1 n1 (proj1 I1)) as Hu.
    destruct (updateNode now s p1 n1) as [[p2 n2] ok]. destruct Hu as (C2 & E2 & F2 & A2 & _ & Ei & _).
    pose proof (inv_live p1 I1 Ea) as L1.
    assert (L2 : live (with_self p2 n2)).
    { apply with_self_live; [by split; [|apply A2, L1]|]. unfold self_id. by rewrite Ei, E2. }
    assert (Es : self_id (with_self p2 n2) = self_id p) by (unfold self_id; cbn; by rewrite Ei).
    set (p3 := with_self p2 n2) in *.
    destruct (move_content_ok p3 (negb (Area_eqb (with_center (node_aoi (self p)) (center aoi)) aoi))) as (m & -> & M).
    rewrite bind_ok.
    destruct (move_targets_ok p3 (id2node p3) [] [] (live_asks _ L2)) as (ts & bs & -> & Ht & Hb); [apply not_elem_of_nil..|].
    rewrite bind_ok. cbn beta iota.
    match goal with |- context [send_move now s p3 ?m0] =>
      destruct (send_move_ok now s p3 m0 L2 G M Ht) as (s4 & p4 & m4 & -> & G4 & S4 & M4) end.
    rewrite bind_ok. cbn beta iota.
    match goal with |- context [send_move now s4 p4 ?m0] =>
      destruct (send_move_ok now s4 p4 m0 (proj1 S4) G4 M4) as (s5 & p5 & m5 & -> & G5 & S5 & M5) end.
    { unfold self_id in *. by rewrite (proj1 (proj2 S4)). }
    rewrite bind_ok. cbn beta iota.
    assert (Ev : vstate p5 = vstate p) by (by rewrite (proj2 (proj2 S5)), (proj2 (proj2 S4))).
    cbn [outcome_sat]. splits; [done|apply live_inv; [apply S5|congruence]| |done].
    unfold self_id in *. by rewrite (proj1 (proj2 S5)), (proj1 (proj2 S4)).
Qed.
End safe.
