(* ===== verification/VonSpec.v ===== *)
(** What the peers of the overlay do for each other: how a join spreads, that moves reach
    every known node and are followed by it, whom a moving node is told of, and when nodes
    are dropped. The messages a peer sends are observed on a network that records them. *)

From S2P Require Import Prelude Bytes StdMap Float Serial Subscription Message VastNet VastSend.
From S2P Require Import VastReceive MessageQueue QueueSafe Readable Handlers Geometry Built.
From S2P Require Import VonInterfaces VonPeer VonSafe.
From Stdlib Require Import Floats.SpecFloat.
Local Open Scope Z_scope.

(** *** A network that records what is sent *)

Record trace := mkTrace { tr_sent : list (Message * bool); tr_map : list (Z * Addr); tr_addr : Addr; tr_rate : Z }.

Definition record_sent (s : trace) (m : Message) (r : bool) : trace :=
  mkTrace (tr_sent s ++ [(m, r)]) (tr_map s) (tr_addr s) (tr_rate s).

#[export] Instance trace_network : VONNetwork trace := {
  sendVONMessage now s m r := Ok (record_sent s m r, m, [], Z.of_nat (length (targets m)));
  notifyAddressMapping s id a := mkTrace (tr_sent s) (set id a (tr_map s)) (tr_addr s) (tr_rate s);
  getHostAddress := tr_addr;
  getTimestamp now _ := now;
  getTimestampPerSecond := tr_rate }.

#[export] Program Instance trace_laws : VONNetworkLaws trace := { net_good _ := True }.
Next Obligation.
  intros now s m r _ M. eexists _, m, [], _. split; [reflexivity|]. split; [done|].
  split; [unfold same_content; splits; done|apply incl_nil_l].
Qed.
Next Obligation. done. Qed.

(** What a peer sends in a step *)
Definition sends_also (s s' : trace) (l : list (Message * bool)) : Prop := tr_sent s' = tr_sent s ++ l.

Lemma record_also s m r : sends_also s (record_sent s m r) [(m, r)].
Proof. done. Qed.

Lemma von_msg_built {V} (p : VONPeer V) t k : built (von_code t) 0 [] [] (von_msg p t k).
Proof. by split. Qed.

(** Storing keeps the sender. *)
Lemma store_from m x m' b : Message_inv m → store m x false = Ok (m', b) → from m' = from m.
Proof. intros I E. destruct (store_safe m x I) as (? & ? & E' & _ & (F & _)). rewrite E in E'. by injection E' as -> ->. Qed.

Lemma store_obj_from {A} `{SerializableLaws A} m (x : A) m' b : Message_inv m → store_obj m x = Ok (m', b) →
  from m' = from m.
Proof. intros I E. destruct (store_obj_safe m x I) as (? & ? & E' & _ & (F & _)). rewrite E in E'. by injection E' as -> ->. Qed.

Lemma type_built ty ty' g ts bs m : built ty g ts bs m → built ty' g ts bs (set_type m ty').
Proof. intros []. by split. Qed.

(** *** Moves *)

(** What a move message carries *)
Definition move_bytes (n : Node) (full : bool) : list byte :=
  if full then wire n
  else le_bytes 4 (pos_x (center (node_aoi n))) ++ le_bytes 4 (pos_y (center (node_aoi n))) ++ le_bytes 8 (node_time n).

Definition move_type (full boundary : bool) : VON_Message :=
  match full, boundary with
  | false, false => VON_MOVE | false, true => VON_MOVE_B
  | true, false => VON_MOVE_F | true, true => VON_MOVE_FB
  end.

Section moves.
Context {V : Type} `{VoronoiLaws V}.
Implicit Types (s : trace) (p : VONPeer V).

Lemma move_content_built p full :
  ∃ m, move_content p full = Ok m ∧ built (von_code VON_MOVE) 0 [] (move_bytes (self p) full) m ∧ from m = self_id p.
Proof.
  unfold move_content, move_bytes. cbv zeta. pose proof (von_msg_built p VON_MOVE 1) as B. destruct full.
  - destruct (store_obj_built _ _ _ _ _ (self p) B eq_refl) as (m & E & B1 & _). rewrite E, bind_ok.
    exists m. splits; [done|done|]. by rewrite (store_obj_from _ _ _ _ (bl_inv _ _ _ _ _ B) E).
  - match goal with |- context [store ?m ?x false] =>
      destruct (store_built _ _ _ _ _ x B eq_refl) as (m1 & E1 & B1 & A1) end.
    rewrite E1, bind_ok. cbn beta iota. unfold store_int.
    destruct (store_built _ _ _ _ _ (le_bytes 8 (node_time (self p))) B1 A1) as (m2 & E2 & B2 & _).
    rewrite E2, bind_ok. exists m2. rewrite <- app_assoc in B2. splits; [done|done|].
    rewrite (store_from _ _ _ _ (bl_inv _ _ _ _ _ B1) E2). by rewrite (store_from _ _ _ _ (bl_inv _ _ _ _ _ B) E1).
Qed.

(** The other nodes, split by the diagram *)
Definition others p : list Z := filter (λ k, k ≠ self_id p) (fst <$> id2node p).

Lemma move_targets_split p l ts bs r : move_targets p l ts bs = Ok r →
  fst r ++ snd r ≡ₚ ts ++ bs ++ filter (λ k, k ≠ self_id p) (fst <$> l)
  ∧ Forall (λ k, k ∈ bs ∨ vor_is_boundary (voronoi p) k (center (node_aoi (self p))) (radius (node_aoi (self p))) = Ok true) (snd r)
  ∧ Forall (λ k, k ∈ ts ∨ vor_is_boundary (voronoi p) k (center (node_aoi (self p))) (radius (node_aoi (self p))) = Ok false) (fst r).
Proof.
  revert ts bs. induction l as [|[k n] l IH]; intros ts bs; cbn [move_targets].
  { intros [= <-]. cbn. rewrite app_nil_r. splits; [done|apply Forall_forall; auto..]. }
  rewrite fmap_cons, filter_cons. cbn [fst]. unfold isSelf. destruct (Z.eqb_spec (self_id p) k) as [<-|Hne].
  { rewrite decide_False by auto. apply IH. }
  rewrite decide_True by auto. intros E. run_inv E.
  assert (Hw : ∀ (P : Z → Prop) a q, Forall (λ x, x ∈ a ++ [k] ∨ P x) q → P k → Forall (λ x, x ∈ a ∨ P x) q).
  { intros P a q F Pk. eapply Forall_impl; [exact F|]. intros x [Hx|]; [|auto].
    apply elem_of_app in Hx as [|Hx]; [auto|]. apply list_elem_of_singleton in Hx as ->. auto. }
  destruct r0; destruct (IH _ _ E) as (Hp & Hb & Ht); splits; try done.
  - rewrite Hp. solve_Permutation.
  - by apply Hw.
  - rewrite Hp. solve_Permutation.
  - by apply Hw.
Qed.

Lemma send_move_trace now s p msg :
  send_move now s p msg = Ok (match targets msg with [] => s | _ => record_sent s msg true end, p, msg).
Proof. unfold send_move. by destruct (targets msg). Qed.

(** One message to all of [ts], or none *)
Definition announced (full boundary : bool) p (ts : list Z) (ms : list (Message * bool)) : Prop :=
  match ts with
  | [] => ms = []
  | _ => ∃ m, ms = [(m, true)] ∧ built (von_code (move_type full boundary)) 0 ts (move_bytes (self p) full) m
         ∧ from m = self_id p
  end.

Lemma announce full b p s ts m0 ty us : built ty 0 us (move_bytes (self p) full) m0 → from m0 = self_id p →
  let m := set_type (with_targets m0 ts) (von_code (move_type full b)) in
  ∃ ms, tr_sent (match targets m with [] => s | _ => record_sent s m true end) = tr_sent s ++ ms
  ∧ announced full b p ts ms ∧ built (von_code (move_type full b)) 0 ts (move_bytes (self p) full) m.
Proof.
  intros B F m. assert (Bm : built (von_code (move_type full b)) 0 ts (move_bytes (self p) full) m).
  { eapply type_built, targets_built, B. }
  unfold announced. change (targets m) with ts. destruct ts as [|k ts].
  - exists []. split; [by rewrite app_nil_r|done].
  - eexists. split; [reflexivity|]. split; [by exists m|done].
Qed.

Lemma overlap_free fuel me all l q r : overlap_loop fuel me all l q = Ok r →
  (l = all ∨ l = tail all) → clash me all r = false ∨ clash me (tail all) r = false.
Proof.
  revert l q. induction fuel as [|fuel IH]; intros l q; cbn [overlap_loop]; destruct (clash me l q) eqn:E; try done.
  - intros [= <-] [-> | ->]; auto.
  - intros Hr _. by eapply IH; [|right].
  - intros [= <-] [-> | ->]; auto.
Qed.

(** C24: A peer that moves tells each of the other nodes it knows, exactly once: those whose
    regions reach beyond its area by a message that asks them to look for new neighbors,
    the others by a plain one. The messages carry the whole node if the shape of the area
    changed, and else where and when; what they carry is what the peer records of
    itself, which is at a position no other node has, but perhaps the first. *)
Theorem move_announced now s p aoi t s' p' a : core p → VP_move now s p aoi t = Ok (s', p', a) →
  let full := negb (Area_eqb (with_center (node_aoi (self p)) (center aoi)) aoi) in
  ∃ ts bs ms1 ms2, ts ++ bs ≡ₚ others p ∧ tr_sent s' = tr_sent s ++ ms1 ++ ms2
  ∧ announced full false p' ts ms1 ∧ announced full true p' bs ms2
  ∧ a = node_aoi (self p') ∧ radius a = radius aoi ∧ height a = height aoi
  ∧ node_id (self p') = self_id p ∧ node_time (self p') = (if t =? 0 then now else t)
  ∧ (clash (self_id p) (id2node p) (center a) = false ∨ clash (self_id p) (tail (id2node p)) (center a) = false).
Proof.
  intros C. unfold VP_move. cbv zeta. intros E. run_inv E. apply overlap_free in E0; [|by left]. revert E.
  set (full := negb (Area_eqb (with_center (node_aoi (self p)) (center aoi)) aoi)).
  match goal with |- context [updateNode now s ?q ?n] => set (p1 := q); set (n1 := n) end.
  assert (C1 : core p1) by (destruct C; by split).
  pose proof (updateNode_core now s p1 n1 C1) as Hu. destruct (updateNode now s p1 n1) as [[p2 n2] ok].
  destruct Hu as (C2 & E2 & _ & _ & _ & Ei & Ea & _ & _ & Et & Ek).
  destruct (move_content_built (with_self p2 n2) full) as (m & -> & B & F). rewrite bind_ok. intros E. run_inv E.
  destruct r0 as [ts bs]. apply move_targets_split in E1 as (Hp & _). cbn [app fst snd] in Hp.
  rewrite send_move_trace, bind_ok in E. cbv beta iota zeta in E.
  rewrite send_move_trace, bind_ok in E. cbv beta iota in E. apply ok3_inv in E as (<- & <- & <-).
  replace (if full then VON_MOVE_F else VON_MOVE) with (move_type full false) by by destruct full.
  replace (if full then VON_MOVE_FB else VON_MOVE_B) with (move_type full true) by by destruct full.
  destruct (announce full false (with_self p2 n2) s ts m _ _ B F) as (ms1 & S1 & A1 & B1).
  match goal with |- context [match targets ?m1 with [] => s | _ => _ end] =>
    destruct (announce full true (with_self p2 n2) (match targets m1 with [] => s | _ => record_sent s m1 true end) bs _ _ _ B1 F)
      as (ms2 & S2 & A2 & _) end.
  exists ts, bs, ms1, ms2. splits; try done.
  - rewrite Hp. unfold others, self_id. cbn. by rewrite Ei, Ek.
  - etransitivity; [exact S2|]. by rewrite S1, app_assoc.
  - cbn. by rewrite Ea.
  - cbn. by rewrite Ea.
  - cbn. rewrite Et. unfold n1. cbn. by destruct (t =? 0).
  - cbn. rewrite Ea. exact E0.
Qed.
End moves.

(** *** A move is followed *)

(** What a neighbor takes over from a move of [n], where it had [old] *)
Definition moved (full : bool) (old n : Node) : Node :=
  if full then n else
  let c := center (node_aoi n) in
  with_time (with_aoi old (with_center (node_aoi old)
    (mkPosition (pos_x c) (pos_y c) (pos_z (center (node_aoi old)))))) (node_time n).

Section follow.
Context {S V : Type} `{VONNetwork S} `{VoronoiLaws V} (junk : von_uninit).
Implicit Types (s : S) (p : VONPeer V).

Lemma moved_node_read msg full n old : Message_inv msg → mcurr msg = 0%nat → Node_valid n →
  content msg = move_bytes n full →
  ∃ m', moved_node junk msg full old = Ok (m', moved full old n) ∧ from m' = from msg.
Proof.
  intros M Z (Vi & Vt & Va & Vd) C. unfold moved_node, move_bytes in *. destruct full.
  - destruct (extract_obj_spec msg n Node_init []) as (m' & -> & _ & _ & _ & F & _); [done|done|done|cbn; lia|by rewrite Z, app_nil_r|].
    rewrite bind_ok. by exists m'.
  - destruct Va as ((Vx & Vy & Vz) & _). set (c := center (node_aoi n)) in *.
    pose proof (extract_spec msg 8 M ltac:(lia)) as Hs.
    assert (Hl : msize msg = 16%nat) by (rewrite <- (length_content msg), C, !length_app, !length_le_bytes by done; done).
    rewrite Z, Hl in Hs. cbn [Nat.leb Nat.add] in Hs. destruct Hs as (m1 & -> & M1 & C1 & Z1 & P1 & F1 & _).
    rewrite bind_ok. cbv beta iota. rewrite drop_0, C, app_assoc, take_app_len by by rewrite length_app, !length_le_bytes.
    rewrite take_app_len, drop_app_len by by rewrite length_le_bytes.
    rewrite !le_val_bytes, !Z.mod_small by assumption. cbv zeta.
    destruct (extract_int_spec 8 m1 (node_time old) (node_time n) []) as (m2 & -> & _ & _ & _ & _ & F2 & _); [done|lia|done| |].
    { rewrite P1, C1, C, app_assoc, drop_app_len, app_nil_r by by rewrite length_app, !length_le_bytes. done. }
    rewrite bind_ok. exists m2. split; [done|]. by rewrite F2.
Qed.

Lemma move_code full b : of_von_code (von_code (move_type full b)) = Some (move_type full b).
Proof. apply of_von_code_code. Qed.

(** A peer that receives a move of a node it knows, not older than what it knows of it,
    takes it over, in its diagram too, and remembers that the node asked for a check of
    its neighbors if it did; nothing else of the nodes it knows changes. An older move
    changes nothing. *)
Theorem move_followed now s p msg full b n old : core p → vstate p ≠ ABSENT →
  Message_inv msg → mcurr msg = 0%nat → Node_valid n → content msg = move_bytes n full →
  from msg = node_id n → msgtype msg = von_code (move_type full b) →
  find (node_id n) (id2node p) = Some old → node_id old = node_id n →
  ∃ p' m', VP_handleMessage junk now s p msg = Ok (s, p', m', true)
  ∧ if node_time n <? node_time old then p' = p else
    (∀ k, find k (id2node p') = if k =? node_id n then Some (moved full old n) else find k (id2node p))
    ∧ pneighbors p' = pneighbors p ∧ self p' = self p
    ∧ req_nodes p' = (if b then set (node_id n) true (req_nodes p) else req_nodes p)
    ∧ sites (voronoi p') = (λ x, if fst x =? node_id n then (node_id n, center (node_aoi (moved full old n))) else x)
                             <$> sites (voronoi p).
Proof.
  intros Cp Ha M Z V1 C F T Hk Ei. unfold VP_handleMessage. rewrite bool_decide_eq_false_2 by done.
  rewrite T, move_code.
  destruct (moved_node_read msg full n old M Z V1 C) as (m' & Er & F').
  assert (Em : node_id (moved full old n) = node_id n ∧ node_time (moved full old n) = node_time n) by by destruct full.
  assert (Hh : ∃ p', handle_move junk now s p msg full b = Ok (s, p', m') ∧
    if node_time n <? node_time old then p' = p else
    (∀ k, find k (id2node p') = if k =? node_id n then Some (moved full old n) else find k (id2node p))
    ∧ pneighbors p' = pneighbors p ∧ self p' = self p
    ∧ req_nodes p' = (if b then set (node_id n) true (req_nodes p) else req_nodes p)
    ∧ sites (voronoi p') = (λ x, if fst x =? node_id n then (node_id n, center (node_aoi (moved full old n))) else x)
                             <$> sites (voronoi p)).
  { assert (Eu : Node_update old (moved full old n) = moved full old n).
    { unfold Node_update. destruct full; [by destruct n|done]. }
    unfold handle_move. rewrite F, Hk, Er, bind_ok. cbv beta iota. unfold updateNode. destruct Em as [-> ->]. rewrite Hk, Eu.
    destruct (node_time n <? node_time old); [by exists p|]. cbv beta iota zeta. rewrite F', F. eexists. split; [reflexivity|].
    destruct b; cbn; (splits; [intros k; apply find_set|done|done|done|apply sites_update, Cp]). }
  destruct Hh as (p' & Eh & Hp). exists p', m'. split; [|exact Hp].
  destruct full, b; cbn [move_type]; by rewrite Eh, bind_ok.
Qed.
End follow.

(** *** Discovery *)

Section discovery.
Context {V : Type} `{VoronoiLaws V}.
Implicit Types (s : trace) (p : VONPeer V).

(** What a check records of the neighbors [l], as [fr] sees them *)
Definition recorded p (fr : Z) (n : Node) (l : list Z) (st : list (Z * Z)) : Prop :=
  ∀ k, k ∈ l → k ≠ self_id p → k ≠ fr →
    ∃ z, neighbor_state p fr n k = Ok z ∧ find k st = if z =? 0 then None else Some z.

Lemma discover_records p fr n l nt st : core p → NoDup l → incl l (pneighbors p) →
  discover p fr n l = Ok (nt, st) →
  recorded p fr n l st ∧ (∀ k, k ∉ l → find k st = None) ∧ Forall (λ k, k ∈ l ∧ k ≠ self_id p ∧ k ≠ fr) nt.
Proof.
  intros C. revert nt st. induction l as [|k l IH]; intros nt st D Hl; cbn [discover].
  { intros [= <- <-]. splits; [intros k Hk; by apply elem_of_nil in Hk|done|constructor]. }
  apply NoDup_cons in D as [Dk D]. assert (Hl' : incl l (pneighbors p)) by (intros x Hx; apply Hl; by right).
  destruct (pointee_ok p k C) as (x & -> & Ex); [apply list_elem_of_In, Hl; by left|]. rewrite bind_ok. cbv zeta. rewrite Ex.
  assert (Hm : ∀ nt' st', discover p fr n l = Ok (nt', st') →
    recorded p fr n l st' ∧ (∀ i, i ∉ l → find i st' = None) ∧ Forall (λ i, i ∈ k :: l ∧ i ≠ self_id p ∧ i ≠ fr) nt').
  { intros nt' st' E. destruct (IH nt' st' D Hl' E) as (R & N & F). splits; try done.
    eapply Forall_impl; [exact F|]. intros i (Hi & ? & ?). splits; [by right|done|done]. }
  destruct (isSelf p k || (k =? fr)) eqn:Es.
  { intros E. destruct (Hm _ _ E) as (R & N & F). splits; try done.
    - intros i [-> |Hi]%elem_of_cons Hs Hf; [|by apply R]. exfalso. unfold isSelf in Es.
      apply orb_true_iff in Es as [Es|Es]; apply Z.eqb_eq in Es; congruence.
    - intros i [_ Hi]%not_elem_of_cons. by apply N. }
  apply orb_false_iff in Es as [Es1 Es2]. apply Z.eqb_neq in Es1, Es2.
  intros E. run_inv E. destruct (Z.eqb_spec r 0) as [Hz|Hz].
  - destruct (Hm _ _ E) as (R & N & F). splits; try done.
    + intros i [-> |Hi]%elem_of_cons Hs Hf; [|by apply R]. exists r. split; [done|]. rewrite Hz. by apply N.
    + intros i [_ Hi]%not_elem_of_cons. by apply N.
  - run_inv E. run_inv E. destruct r1 as [nt1 st1]. injection E as <- <-. destruct (Hm _ _ E2) as (R & N & F). splits.
    + intros i [-> |Hi]%elem_of_cons Hs Hf.
      * exists r. split; [done|]. rewrite find_set_eq. by destruct (Z.eqb_spec r 0).
      * destruct (R i Hi Hs Hf) as (z & Ez & Fz). exists z. split; [done|]. rewrite find_set_ne; [done|]. congruence.
    + intros i [Hi Hn]%not_elem_of_cons. rewrite find_set_ne by done. by apply N.
    + destruct (to_notify r0 r); [|done]. constructor; [|done]. splits; [by left|congruence|done].
Qed.

(** Peers that differ in what they recorded of the others and who asked *)
Definition alike p q : Prop :=
  self q = self p ∧ pneighbors q = pneighbors p ∧ voronoi q = voronoi p ∧ id2node q = id2node p
  ∧ aoi_buffer q = aoi_buffer p ∧ strict_aoi q = strict_aoi p.

Lemma alike_state p q fr n k : alike p q → neighbor_state q fr n k = neighbor_state p fr n k.
Proof. intros (E1 & E2 & E3 & E4 & E5 & E6). unfold neighbor_state, isAOINeighbor. by rewrite E3, E5, E6. Qed.

Lemma never_twice z : to_notify z z = false.
Proof. unfold to_notify. by destruct (Z.testbit z 0), (Z.testbit z 1). Qed.

Lemma discover_again p q fr n l st : core p → alike p q → incl l (pneighbors p) →
  recorded p fr n l st → find fr (known q) = Some (Some st) → ∃ st', discover q fr n l = Ok ([], st').
Proof.
  intros C A. revert st. induction l as [|k l IH]; intros st Hl R Hq; cbn [discover]; [eauto|].
  assert (Hl' : incl l (pneighbors p)) by (intros x Hx; apply Hl; by right).
  destruct (IH st Hl') as (st' & Ed); [intros i Hi; apply R; by right|done|].
  destruct (pointee_ok p k C) as (x & Ep & Ex); [apply list_elem_of_In, Hl; by left|].
  assert (Eq : pointee q k = Ok x) by (unfold pointee in *; destruct A as (_ & _ & _ & -> & _); exact Ep).
  rewrite Eq, bind_ok. cbv zeta. rewrite Ex.
  assert (Es : isSelf q k = isSelf p k) by (unfold isSelf, self_id; by destruct A as [-> _]).
  rewrite Es. destruct (isSelf p k || (k =? fr)) eqn:Ek; [eauto|]. apply orb_false_iff in Ek as [Ek1 Ek2].
  apply Z.eqb_neq in Ek1, Ek2. destruct (R k) as (z & Ez & Fz); [by left|congruence|done|].
  rewrite (alike_state p q) by done. rewrite Ez, bind_ok. destruct (z =? 0) eqn:E0; [eauto|].
  rewrite Hq. change (default None (Some (Some st))) with (Some st). cbn [seen]. rewrite bind_ok, Ed, bind_ok. rewrite Fz.
  change (default 0 (Some z)) with z. rewrite never_twice. eauto.
Qed.

(** A check, seen as what is recorded *)
Lemma sendNodes_nothing now s p t r : sendNodes now s p t [] r = Ok (s, p).
Proof. done. Qed.

Lemma store_nodes_alike p m ids p' m' : store_nodes p m ids = Ok (p', m') → (∀ i, i ∈ ids → has i (id2node p) = true) → p' = p.
Proof.
  revert p m. induction ids as [|i ids IH]; intros p m; cbn [store_nodes]; [by intros [= <- <-]|].
  intros E Hh. unfold node_at in E. destruct (has_find i (id2node p)) as (n & En); [apply Hh; by left|]. rewrite En in E.
  run_inv E. destruct r as [m1 b]. eapply IH; [exact E|]. intros j Hj. apply Hh. by right.
Qed.

Lemma sendNodes_same now s p t l r s' p' : sendNodes now s p t l r = Ok (s', p') →
  (∀ i, i ∈ l → has i (id2node p) = true) → p' = p.
Proof.
  unfold sendNodes. destruct (listsize l =? 0); [by intros [= <- <-]|]. intros E Hh. run_inv E. destruct r0 as [m b].
  run_inv E. destruct r0 as [p1 m1]. run_inv E. destruct r0 as [[[s1 m2] f] k]. injection E as <- <-.
  eapply store_nodes_alike; [exact E1|]. intros i Hi. apply Hh. unfold listed in Hi.
  apply elem_of_take in Hi as (j & Hj & _). by eapply list_elem_of_lookup_2.
Qed.

(** What a check leaves for the neighbors [l]: the peer is as before, and what each sees is
    recorded; the messages sent are to those who asked. *)
Lemma discover_all_run now s p l s' p' : core p → NoDup l → incl l (pneighbors p) →
  discover_all now s p l = Ok (s', p') →
  alike p p' ∧ (∀ k, k ∉ l → find k (known p') = find k (known p))
  ∧ ∀ k, k ∈ l → k ≠ self_id p → ∃ n st, find k (id2node p) = Some n ∧ find k (known p') = Some (Some st)
      ∧ recorded p k n (pneighbors p) st.
Proof.
  revert s p. induction l as [|k l IH]; intros s p C D Hl; cbn [discover_all].
  { intros [= <- <-]. splits; try done. intros k Hk. by apply elem_of_nil in Hk. }
  apply NoDup_cons in D as [Dk D]. assert (Hl' : incl l (pneighbors p)) by (intros x Hx; apply Hl; by right).
  destruct (proj1 (Forall_forall _ _) (co_points _ C) k) as (n & m & En & Ei & Em); [apply list_elem_of_In, Hl; by left|].
  unfold pointee at 1. rewrite En, bind_ok. cbv zeta. rewrite Ei. destruct (isSelf p k) eqn:Es.
  { intros E. destruct (IH _ _ C D Hl' E) as (A & N & R). splits; [done| |].
    - intros i [_ Hi]%not_elem_of_cons. by apply N.
    - intros i [-> |Hi]%elem_of_cons Hs; [|by apply R]. unfold isSelf in Es. apply Z.eqb_eq in Es. congruence. }
  intros E. run_inv E. destruct r as [nt st].
  destruct (discover_records p k n (pneighbors p) nt st C (co_distinct _ C)) as (R1 & N1 & F1); [apply incl_refl|done|].
  cbv beta iota zeta in E. set (p1 := with_known p _) in *. run_inv E. destruct r as [s2 p2].
  assert (p2 = p1) as ->.
  { destruct (has k (req_nodes p1)); [|by injection E1]. eapply sendNodes_same; [exact E1|].
    intros i Hi. apply (proj1 (Forall_forall _ _) F1) in Hi as (Hi & _).
    destruct (proj1 (Forall_forall _ _) (co_points _ C) i Hi) as (x & y & Ex & _). unfold has. cbn. by rewrite Ex. }
  assert (C1 : core p1).
  { destruct C as [O K D0 P X]. split; cbn; try done; [by apply ordered_set|].
    eapply Forall_impl; [exact P|]. intros x (a & b & ? & ? & F). unfold points. cbn. rewrite find_set. destruct (x =? k); eauto 10. }
  destruct (IH _ p1 C1 D Hl' E) as (A & N & R). splits.
  - destruct A as (? & ? & ? & ? & ? & ?). by splits.
  - intros i [Hne Hi]%not_elem_of_cons. rewrite N by done. cbn. by rewrite find_set_ne.
  - intros i [-> |Hi]%elem_of_cons Hs.
    + exists n, st. splits; [done| |done]. rewrite N by done. cbn. by rewrite find_set_eq.
    + destruct (R i Hi Hs) as (n' & st' & En' & Ef & Hr). exists n', st'. splits; [done|done|].
      intros x Hx Hsx Hfx. destruct (Hr x Hx Hsx Hfx) as (z & Ez & Fz). exists z. split; [|done].
      by rewrite <- (alike_state p p1).
Qed.

Lemma check_again now s p q l s' q' : core p → alike p q → incl l (pneighbors p) →
  (∀ k, k ∈ l → k ≠ self_id p → ∃ n st, find k (id2node p) = Some n ∧ find k (known q) = Some (Some st)
      ∧ recorded p k n (pneighbors p) st) → NoDup l →
  discover_all now s q l = Ok (s', q') → s' = s.
Proof.
  intros C A. revert s q A. induction l as [|k l IH]; intros s q A Hl R D; cbn [discover_all]; [by intros [= <- _]|].
  assert (Hl' : incl l (pneighbors p)) by (intros x Hx; apply Hl; by right). apply NoDup_cons in D as [Dk D].
  destruct (proj1 (Forall_forall _ _) (co_points _ C) k) as (n & m & En & Ei & Em); [apply list_elem_of_In, Hl; by left|].
  pose proof A as (A1 & A2 & A3 & A4 & A5 & A6). unfold pointee at 1. rewrite A4, En, bind_ok. cbv zeta. rewrite Ei.
  assert (Hs : isSelf q k = (self_id p =? k)) by (unfold isSelf, self_id; by rewrite A1). rewrite Hs.
  destruct (Z.eqb_spec (self_id p) k) as [|Hne].
  { apply IH; [done|done| |done]. intros i Hi. apply R. by right. }
  destruct (R k) as (n' & st & En' & Ek & Hr); [by left|congruence|]. rewrite En in En'. injection En' as <-.
  destruct (discover_again p q k n (pneighbors p) st C A) as (st' & Ed); [apply incl_refl|done|done|].
  rewrite A2, Ed, bind_ok. cbv beta iota zeta.
  replace (if has k _ then _ else _) with (Ok (s, with_known q (set k (Some st') (known q)))) by by destruct (has _ _).
  rewrite bind_ok. cbv beta iota. apply IH; [by splits|done| |done].
  intros i Hi Hsi. destruct (R i) as (n2 & st2 & ? & E2 & ?); [by right|done|]. exists n2, st2. splits; try done.
  cbn. rewrite find_set_ne; [done|]. intros ->. done.
Qed.

(** A node is told of a neighbor when a check first finds that it is one, and a further
    check without anyone having moved tells nobody anything, whoever asks. That includes
    the nodes that had not asked before the first check: what they would have been told
    then, they are never told. *)
Theorem told_once now now' s p s1 p1 req s2 p2 : live p →
  checkNeighborDiscovery now s p = Ok (s1, p1) →
  checkNeighborDiscovery now' s1 (with_req p1 req) = Ok (s2, p2) → s2 = s1.
Proof.
  intros [C _] E1 E2. unfold checkNeighborDiscovery in *. run_inv E1. destruct r as [s1' q1]. injection E1 as -> <-.
  run_inv E2. destruct r as [s2' q2]. injection E2 as -> _.
  destruct (discover_all_run now s p _ _ _ C (co_distinct _ C) (incl_refl _) E) as (A & _ & R).
  eapply (check_again now' s1 p); [exact C| | | | |exact E0].
  - destruct A as (? & ? & ? & ? & ? & ?). by splits.
  - cbn. destruct A as (_ & -> & _). apply incl_refl.
  - cbn. destruct A as (_ & -> & _). exact R.
  - cbn. destruct A as (_ & -> & _). apply C.
Qed.
End discovery.

(** *** Nodes that are dropped *)

Section dropping.
Context {V : Type} `{VoronoiLaws V}.
Implicit Types (s : trace) (p : VONPeer V).

(** Neither encloses the other, and neither is in the extended area of the other *)
Definition irrelevant p n : Prop :=
  isRelevantNeighbor p (self p) n (nonoverlap_buffer (aoi_buffer p)) = Ok false.

Lemma overdue_spec p now grace l p' r : NoDup (fst <$> l) → overdue p now grace l = Ok (p', r) →
  p' = with_drop p (time_drop p')
  ∧ ∀ k, k ∈ r ↔ ∃ n, (k, n) ∈ l ∧ k ≠ self_id p ∧ irrelevant p n ∧ default 0 (find k (time_drop p)) ≤ now.
Proof.
  revert p p' r. induction l as [|[id n] l IH]; intros p p' r D; cbn [overdue].
  { intros [= <- <-]. split; [by destruct p|]. intros k. split; [by intros ?%elem_of_nil|intros (n & Hn & _); by apply elem_of_nil in Hn]. }
  rewrite fmap_cons in D. apply NoDup_cons in D as [Dn D]. intros E. run_inv E.
  assert (Hr : r0 = true ↔ id = self_id p ∨ ¬ irrelevant p n).
  { unfold isSelf, irrelevant in *. destruct (Z.eqb_spec (self_id p) id) as [|Hne].
    - injection E0 as <-. split; auto.
    - run_inv E0. injection E0 as <-. change (isTimelyNeighbor p id) with true. rewrite andb_true_r, E1.
      split; [intros ->; by right|]. intros [|Hn]; [congruence|]. destruct r1; [done|]. by destruct Hn. }
  assert (Hstep : ∀ td r', overdue (with_drop p td) now grace l = Ok (p', r') →
    (∀ k, k ≠ id → find k td = find k (time_drop p)) →
    p' = with_drop p (time_drop p') ∧ ∀ k, k ∈ r' ↔ ∃ n, (k, n) ∈ l ∧ k ≠ self_id p ∧ irrelevant p n ∧ default 0 (find k (time_drop p)) ≤ now).
  { intros td r' Er Htd. destruct (IH _ _ _ D Er) as [Ep Hk]. split; [by rewrite Ep|]. intros k. rewrite Hk.
    split; intros (n' & Hn & Hs & Hi & Hd); exists n'; (splits; [done|done|done|]); cbn in *;
      (rewrite Htd in * || rewrite <- Htd); try done; intros ->; apply Dn; apply list_elem_of_fmap; by exists (id, n'). }
  destruct r0.
  { destruct (Hstep _ _ E) as [Ep Hk]; [intros k Hne; by rewrite find_set_ne|]. split; [done|]. intros k. rewrite Hk.
    split; [intros (n' & Hn & ?); exists n'; split; [by right|done]|]. intros (n' & [[= -> ->] | Hn]%elem_of_cons & Hs & Hi & Hd); [|eauto].
    destruct (proj1 Hr eq_refl); contradiction. }
  assert (Hi : id ≠ self_id p ∧ irrelevant p n).
  { destruct (Z.eqb_spec id (self_id p)) as [He|Hne]; [discriminate (proj2 Hr (or_introl He))|]. split; [done|].
    unfold isSelf in E0. destruct (Z.eqb_spec (self_id p) id); [congruence|]. run_inv E0. unfold irrelevant.
    rewrite E1. injection E0 as E0. change (isTimelyNeighbor p id) with true in E0. by rewrite andb_true_r in E0; subst. }
  cbv zeta in E. destruct (Z.leb_spec (default 0 (find id (time_drop p))) now) as [Hle|Hgt].
  - run_inv E. destruct r0 as [p1 r1]. injection E as -> <-.
    destruct (Hstep _ _ E1) as [Ep Hk]; [intros k Hne; by rewrite find_erase_ne|]. split; [done|]. intros k.
    rewrite elem_of_cons, Hk. split.
    + intros [-> |(n' & Hn & ?)]; [exists n; split; [by left|]; by destruct Hi|]. exists n'. split; [by right|done].
    + intros (n' & [[= -> ->] | Hn]%elem_of_cons & ?); [by left|right; by exists n'].
  - destruct (Hstep _ _ E) as [Ep Hk]; [intros k Hne; by rewrite find_set_ne|]. split; [done|]. intros k. rewrite Hk.
    split; [intros (n' & Hn & ?); exists n'; split; [by right|done]|]. intros (n' & [[= -> ->] | Hn]%elem_of_cons & Hs & Hi' & Hd); [lia|eauto].
Qed.

Lemma deleteNode_has p id k : core p → has k (id2node (fst (deleteNode p id))) = negb (k =? id) && has k (id2node p).
Proof.
  intros C. unfold deleteNode, isNeighbor. destruct (has id (id2node p)) eqn:E; cbn [negb fst].
  - cbn. destruct (Z.eqb_spec k id) as [->|Hne]; [|by rewrite has_erase].
    unfold has. by rewrite find_erase_eq by apply C.
  - destruct (Z.eqb_spec k id) as [->|]; [by rewrite E|done].
Qed.

Lemma deleteNodes_has p ids k : core p → has k (id2node (deleteNodes p ids)) = negb (memb k ids) && has k (id2node p).
Proof.
  unfold deleteNodes. revert p. induction ids as [|i ids IH]; intros p C; cbn [foldl]; [done|].
  rewrite IH by by apply deleteNode_core. rewrite deleteNode_has by done. unfold memb. cbn [existsb].
  by destruct (k =? i), (existsb _ ids).
Qed.

(** At the end of a cycle a peer drops exactly those nodes, other than itself, that are
    irrelevant to it and whose grace period is over, and tells them in one message; the
    nodes that are relevant it keeps. *)
Theorem drops_overdue now ms s p s' p' : live p → removeNonOverlapped now ms s p = Ok (s', p') →
  (∀ k n, find k (id2node p) = Some n →
    (has k (id2node p') = false ↔ k ≠ self_id p ∧ irrelevant p n ∧ default 0 (find k (time_drop p)) ≤ now))
  ∧ (tr_sent s' = tr_sent s ∧ id2node p' = id2node p ∨
     ∃ l m, tr_sent s' = tr_sent s ++ [(m, true)] ∧ built (von_code VON_BYE) 0 l [] m
       ∧ ∀ k, k ∈ l ↔ has k (id2node p) = true ∧ has k (id2node p') = false).
Proof.
  intros L. unfold removeNonOverlapped. cbv zeta. intros E. run_inv E. destruct r as [p1 l].
  destruct (overdue_spec _ _ _ _ _ _ (ordered_nodup _ (co_nodes _ (proj1 L))) E0) as [Ep Hl].
  assert (Hin : ∀ k n, find k (id2node p) = Some n →
    k ∈ l ↔ k ≠ self_id p ∧ irrelevant p n ∧ default 0 (find k (time_drop p)) ≤ now).
  { intros k n Hk. rewrite Hl. split; [|intros ?; exists n; split; [by apply find_In|done]].
    intros (n' & Hn & ?). apply In_find in Hn; [|apply L]. by assert (n' = n) as -> by congruence. }
  assert (Hh : ∀ q, has q (id2node p1) = has q (id2node p)) by (intros q; by rewrite Ep).
  destruct l as [|k0 l].
  { injection E as <- <-. split; [|left; by rewrite Ep]. intros k n Hk. rewrite Hh, <- (Hin k n Hk).
    unfold has. rewrite Hk. split; [done|by intros ?%elem_of_nil]. }
  run_inv E. destruct r as [[[s1 m1] f1] k1]. injection E1 as <- <- <- <-. apply ok2_inv in E as [<- <-]. set (l0 := k0 :: l) in *.
  assert (C1 : core p1) by (rewrite Ep; by destruct (with_drop_step p (time_drop p1) L) as ((? & ?) & _)).
  split.
  - intros k n Hk. rewrite (deleteNodes_has p1 l0 k C1), Hh, <- (Hin k n Hk). unfold has. rewrite Hk, andb_true_r.
    by rewrite negb_false_iff, memb_true.
  - right. exists l0. eexists. split; [reflexivity|]. split; [eapply targets_built, von_msg_built|].
    intros k. rewrite (deleteNodes_has p1 l0 k C1), Hh. destruct (has k (id2node p)) eqn:Ek.
    + rewrite andb_true_r, negb_false_iff, memb_true. by intuition.
    + split; [|by intros []]. intros (n & Hn & _)%Hl. apply In_find in Hn; [|apply L]. unfold has in Ek. by rewrite Hn in Ek.
Qed.
End dropping.

(** ** Runs of a peer: whatever it is told to do and whatever arrives, it keeps its invariant;
    the search for a free position ends unless the coordinates are so large that a step
    to the right is none. *)

(** *** What happens to a peer *)

Inductive von_event :=
  | EJoin (aoi : Area) (gateway : Node)
  | ELeave (notify : bool)
  | EMove (aoi : Area) (sendtime : Z)
  | EMessage (msg : Message)
  | ETick.

Section run.
Context {S V : Type} `{VONNetworkLaws S} `{VoronoiLaws V} (junk : von_uninit).
Implicit Types (s : S) (p : VONPeer V).

Definition peer_event (now ms : Z) s p (e : von_event) : outcome (S * VONPeer V) :=
  match e with
  | EJoin aoi gw => VP_join now s p aoi gw
  | ELeave b => VP_leave now s p b
  | EMove aoi t => '(s, p, _) ← VP_move now s p aoi t; Ok (s, p)
  | EMessage msg => '(s, p, _, _) ← VP_handleMessage junk now s p msg; Ok (s, p)
  | ETick => VP_tick now ms s p
  end.

(** Each event with its time *)
Fixpoint peer_run (ms : Z) s p (l : list (Z * von_event)) : outcome (S * VONPeer V) :=
  match l with
  | [] => Ok (s, p)
  | (now, e) :: l => '(s, p) ← peer_event now ms s p e; peer_run ms s p l
  end.

(** Lists may name the peer here. *)
#[local] Instance lists_may_name : Naming := True.

(** Messages are well-formed, and none is a farewell or a disconnection in the peer's own name;
    all others may come from the peer itself, and tell it of itself. *)
Definition event_ok (id : Z) (e : von_event) : Prop :=
  match e with EMessage m => Message_inv m ∧ not_own_farewell id m | _ => True end.

Lemma peer_event_safe now ms s p e : peer_inv p → net_good s → event_ok (self_id p) e →
  outcome_sat diverges (λ '(s', p'), net_good s' ∧ peer_inv p' ∧ self_id p' = self_id p) (peer_event now ms s p e).
Proof.
  intros I G He. destruct e; cbn [peer_event].
  - destruct (VP_join_ok now s p aoi gateway I G) as (s' & p' & -> & ?). done.
  - destruct (VP_leave_ok now s p notify I G) as (s' & p' & -> & ? & ? & ? & _). done.
  - eapply sat_bind; [by apply VP_move_ok|]. by intros [[s' p'] a] (? & ? & ? & _).
  - destruct He as [M Hf]. destruct (VP_handle_ok junk now s p msg I G M Hf ltac:(by left)) as (s' & p' & m' & ok & -> & ? & ? & E & _).
    rewrite bind_ok. cbn. unfold self_id. by rewrite E.
  - destruct (VP_tick_ok now ms s p I G) as (s' & p' & -> & ?). done.
Qed.

End run.

(** *** The search for a free position *)

Lemma sf_eqb_true x y : SFeqb x y = true → x = y ∨ (∃ a b, x = S754_zero a ∧ y = S754_zero b).
Proof.
  unfold SFeqb. destruct x as [a|a| |a m e], y as [b|b| |b n f]; cbn; try done; try (by destruct a); try (by destruct b);
    try (by right; eauto); [by destruct a, b; auto|].
  destruct a, b; try done; destruct (Z.compare_spec e f); try done; destruct (Pos.compare_cont Eq m n) eqn:E; try done;
    subst; apply Pos.compare_eq in E; subst; by left.
Qed.

Lemma coord_eqb_join x y z : coord_eqb x y = true → coord_eqb x z = true → coord_eqb y z = true.
Proof.
  unfold coord_eqb. intros H1 H2.
  destruct (sf_eqb_true _ _ H1) as [E1|(a & b & E1 & E1')], (sf_eqb_true _ _ H2) as [E2|(c & d & E2 & E2')].
  - by rewrite <- E1.
  - rewrite <- E1, E2, E2'. by destruct c, d.
  - by rewrite E1', <- E2, E1.
  - by rewrite E1', E2'.
Qed.

Lemma position_eqb_join a b c : Position_eqb a b = true → Position_eqb a c = true → Position_eqb b c = true.
Proof.
  unfold Position_eqb. rewrite !andb_true_iff. intros [[X1 Y1] Z1] [[X2 Y2] Z2].
  splits; by eapply coord_eqb_join.
Qed.

(** The positions tried *)
Definition tried (p : Position) (i : nat) : Position := Nat.iter i step_x p.

(** Nodes that are at none of the first [i] positions *)
Definition untried (p : Position) (i : nat) (x : Z * Node) : bool :=
  forallb (λ j, negb (Position_eqb (center (node_aoi (snd x))) (tried p j))) (seq 0 i).

Lemma untried_S p i x : untried p (S i) x =
  untried p i x && negb (Position_eqb (center (node_aoi (snd x))) (tried p i)).
Proof. unfold untried. rewrite seq_S, forallb_app. cbn. by rewrite andb_true_r. Qed.

Lemma filter_shrinks {A} (f g : A → bool) (l : list A) x : x ∈ l → f x = true → (∀ y, g y = true → f y = true) → g x = false →
  (length (List.filter g l) < length (List.filter f l))%nat.
Proof.
  intros Hx Hf Hg Hn. assert (Hle : ∀ k, (length (List.filter g k) ≤ length (List.filter f k))%nat).
  { induction k as [|y k IH]; cbn; [done|]. destruct (g y) eqn:Ey; [rewrite (Hg y Ey); cbn; lia|destruct (f y); cbn; lia]. }
  induction Hx as [x l|x y l Hx IH]; cbn [List.filter].
  - rewrite Hf, Hn. cbn. specialize (Hle l). lia.
  - specialize (IH Hf Hn). destruct (g y) eqn:Ey; [rewrite (Hg y Ey); cbn; lia|destruct (f y); cbn; lia].
Qed.

Lemma overlap_ends_from me all p fuel i l :
  (∀ j k, (j < k ≤ length all)%nat → Position_eqb (tried p j) (tried p k) = false) →
  incl l all → (length (List.filter (untried p i) all) ≤ fuel)%nat →
  (i + length (List.filter (untried p i) all) ≤ length all)%nat →
  ∃ j, overlap_loop fuel me all l (tried p i) = Ok (tried p j) ∧ (i ≤ j)%nat.
Proof.
  intros Hd. revert i l. induction fuel as [|fuel IH]; intros i l Hl Hf Hi; cbn [overlap_loop];
    destruct (clash me l (tried p i)) eqn:E; try (by exists i).
  all: assert (Hx : ∃ x, x ∈ all ∧ untried p i x = true ∧ Position_eqb (center (node_aoi (snd x))) (tried p i) = true).
  1, 3: (unfold clash in E; apply existsb_exists in E as (x & Hx & Ex); apply andb_true_iff in Ex as [_ Ex]; exists x;
    splits; [apply list_elem_of_In; by apply Hl| |done]; unfold untried; apply forallb_forall; intros j [_ Hj]%in_seq;
    apply negb_true_iff; destruct (Position_eqb _ (tried p j)) eqn:Ej; [|done]; rewrite <- (Hd j i) by (split; [lia|]; clear -Hi; lia); symmetry;
    by eapply position_eqb_join).
  - destruct Hx as (x & Hin & Hu & _). assert (x ∈ List.filter (untried p i) all) as Hxin.
    { apply list_elem_of_In, filter_In. split; [by apply list_elem_of_In|done]. }
    destruct (List.filter (untried p i) all); [by apply elem_of_nil in Hxin|cbn in Hf; lia].
  - destruct Hx as (x & Hin & Hu & He). change (step_x (tried p i)) with (tried p (S i)).
    assert (Hs : (length (List.filter (untried p (S i)) all) < length (List.filter (untried p i) all))%nat).
    { apply (filter_shrinks _ _ _ x Hin Hu); [|by rewrite untried_S, He, andb_false_r].
      intros y. rewrite untried_S. by intros [? _]%andb_true_iff. }
    destruct (IH (S i) (tail all)) as (j & -> & Hj); [|lia|lia|exists j; split; [done|lia]].
    intros y Hy. destruct all; [done|by right].
Qed.

(** A peer that is placed where another node is finds a free position to its right if no
    two of the positions it tries are equal, which is so unless steps of 1 are lost in
    the coordinates: it needs no more steps than there are nodes. *)
Theorem overlap_ends {V : Type} (p : VONPeer V) (pos : Position) :
  (∀ j k, (j < k ≤ length (id2node p))%nat → Position_eqb (tried pos j) (tried pos k) = false) →
  ∃ j, isOverlapped p pos = Ok (tried pos j).
Proof.
  intros Hd. unfold isOverlapped.
  destruct (overlap_ends_from (self_id p) (id2node p) pos (S (length (id2node p))) 0 (id2node p) Hd)
    as (j & E & _); [apply incl_refl|..|by exists j].
  - etransitivity; [apply List.filter_length_le|lia].
  - apply List.filter_length_le.
Qed.
