(* ===== verification/VonExamples.v ===== *)
(** Concrete diagrams and overlays: a sort for the sweep, peers on a recording
    network, a join from the first message to the last, and the inputs at which the
    properties of the peers are used. *)

From S2P Require Import Prelude Bytes StdMap Float Serial Geometry Subscription Message VastNet VastSend.
From S2P Require Import VastReceive MessageQueue QueueSafe Readable Handlers Built VonInterfaces Sweep SweepSpec VoronoiSF VoronoiSFSafe.
From S2P Require Import VonPeer VonSafe VonSpec.
From Stdlib Require Import Floats.SpecFloat.
Local Open Scope Z_scope.

(** *** A sort for the sweep *)

Fixpoint sort_in {A} (c : A → A → comparison) (x : A) (l : list A) : list A :=
  match l with
  | [] => [x]
  | y :: l' => match c x y with Gt => y :: sort_in c x l' | _ => x :: l end
  end.
Definition isort {A} (c : A → A → comparison) (l : list A) : list A := foldr (sort_in c) [] l.

Lemma sort_in_perm {A} (c : A → A → comparison) x l : sort_in c x l ≡ₚ x :: l.
Proof. induction l as [|y l IH]; cbn; [done|]. destruct (c x y); [done|done|]. rewrite IH. constructor. Qed.

Lemma isort_perm {A} (c : A → A → comparison) (l : list A) : isort c l ≡ₚ l.
Proof. induction l as [|x l IH]; cbn; [done|]. by rewrite sort_in_perm, IH. Qed.

Definition bis_voronoi : Voronoi VoronoiSF := SF_voronoi isort.
#[export] Existing Instance bis_voronoi.
Definition bis_laws : VoronoiLaws VoronoiSF := SF_laws isort isort_perm.
#[export] Existing Instance bis_laws.

(** *** Diagrams *)

Definition at_point (x y : Z) : point2d := mkPoint (f64_of_Z x) (f64_of_Z y).

(** A triangle with the center of its circle, and points of which two are one and one is nowhere *)
Definition triangle : list point2d := [at_point 0 0; at_point 10 0; at_point 4 8].
Definition odd_points : list point2d := [at_point 3 3; at_point 3 3; mkPoint S754_nan (f64_of_Z 1); at_point 5 3].

Definition counts (r : outcome (list (list Z) * list line2d * list point2d)) : option (nat * nat * nat) :=
  match r with Ok (es, ls, vs) => Some (length es, length ls, length vs) | Fail _ => None end.

Example triangle_counts : counts (calsfv isort triangle) = Some (3, 3, 1)%nat.
Proof. by vm_compute. Qed.

Lemma sweep_whole_witness : ∃ es ls vs, calsfv isort odd_points = Ok (es, ls, vs) ∧ (length ls + 1 = 4 + length vs)%nat.
Proof.
  destruct (sweep_whole isort isort_perm odd_points) as (es & ls & vs & E & _ & L & _); [done|].
  exists es, ls, vs. split; [exact E|exact L].
Defined.

Definition three_peers : VoronoiSF :=
  VSF_insert (VSF_insert (VSF_insert VSF_new 1 (mkPosition 0 0 0)) 2 (mkPosition 0x41200000 0 0)) 3 (mkPosition 0x40800000 0x41000000 0).

Lemma one_overlay_witness : next_to isort three_peers 1 2 ∧ next_to isort three_peers 2 1 ∧ rtc (next_to isort three_peers) 3 1.
Proof.
  assert (I : sf_inv isort three_peers) by (apply SF_insert_inv, SF_insert_inv, SF_insert_inv; split; [constructor|done]).
  destruct (one_overlay isort isort_perm three_peers I ltac:(done)) as [S C].
  assert (N : next_to isort three_peers 1 2).
  { assert (E : match snd <$> VSF_get_en isort three_peers 1 with Ok l => memb 2 l | Fail _ => false end = true) by by vm_compute.
    unfold next_to. destruct (snd <$> VSF_get_en isort three_peers 1) as [l|]; [|done]. exists l. split; [done|]. by apply memb_true. }
  split; [exact N|]. split; [apply S; [by left|exact N]|]. apply C; [right; right; by left|by left].
Defined.

(** *** Peers on a plane *)

Definition coord (z : Z) : Z := bits_of_f32 (f32_of_f64 (f64_of_Z z)).
Definition place (x y r : Z) : Area := mkArea (mkPosition (coord x) (coord y) 0) r 0.
Definition peer_addr (id : Z) : Addr := Addr_make id (IPaddr_make id 1037).
Definition junk0 : von_uninit := mkVonUninit 0 0 0 0.

Definition host0 (id : Z) : trace := mkTrace [] [] (peer_addr id) 10.

Definition peer : Type := VONPeer VoronoiSF.
Definition new_peer (id : Z) : peer := VP_new (host0 id) id AOI_DETECTION_BUFFER true.

(** An overlay: its peers with their networks; every message that was sent arrives. *)
Definition overlay : Type := list (Z * (trace * peer)).

Definition arrive (m : Message) : Message := reset m.

Fixpoint outbox (o : overlay) : list (Z * Message) :=
  match o with
  | [] => []
  | (_, (s, _)) :: o => flat_map (λ x, (λ t, (t, arrive (fst x))) <$> targets (fst x)) (tr_sent s) ++ outbox o
  end.

Definition emptied (o : overlay) : overlay :=
  (λ x, (fst x, (mkTrace [] (tr_map (fst (snd x))) (tr_addr (fst (snd x))) (tr_rate (fst (snd x))), snd (snd x)))) <$> o.

Fixpoint deliver (now : Z) (l : list (Z * Message)) (o : overlay) : outcome overlay :=
  match l with
  | [] => Ok o
  | (t, m) :: l =>
      match find t o with
      | None => deliver now l o
      | Some (s, p) => '(s, p, _, _) ← VP_handleMessage junk0 now s p m; deliver now l (set t (s, p) o)
      end
  end.

Fixpoint tick_all (now : Z) (o : overlay) : outcome overlay :=
  match o with
  | [] => Ok []
  | (t, (s, p)) :: o => '(s, p) ← VP_tick now 100 s p; o ← tick_all now o; Ok ((t, (s, p)) :: o)
  end.

Fixpoint rounds (n : nat) (now : Z) (o : overlay) : outcome overlay :=
  match n with
  | O => Ok o
  | S n => o ← deliver now (outbox o) (emptied o); o ← tick_all now o; rounds n (now + 1) o
  end.

(** The first peer joins by itself, the others one after the other through it. *)
Definition joined_by (id x y : Z) (gw : Node) : outcome (trace * peer) := VP_join 1 (host0 id) (new_peer id) (place x y 10) gw.

Definition gateway_node : Node := mkNode 1 0 (place 0 0 10) (peer_addr 1).

Definition summary (o : outcome overlay) : option (list (Z * NodeState * list Z)) :=
  match o with Ok o => Some ((λ x, (fst x, vstate (snd (snd x)), pneighbors (snd (snd x)))) <$> o) | Fail _ => None end.

Definition join_two : outcome overlay :=
  a ← joined_by 1 0 0 gateway_node;
  b ← joined_by 2 20 0 gateway_node;
  rounds 4 2 [(1, a); (2, b)].

(** Three peers, one after the other *)
Definition join_three : outcome overlay :=
  o ← join_two;
  c ← joined_by 3 10 15 gateway_node;
  rounds 8 10 (o ++ [(3, c)] : overlay).

Definition move_second (o : overlay) : outcome overlay :=
  match find 2 o with
  | Some (s, p) => '(s, p, _) ← VP_move 30 s p (place 0 12 10) 0; rounds 2 31 (set 2 (s, p) o)
  | None => Ok o
  end.

(** Where each peer of an overlay thinks that [id] is *)
Definition position_known (id : Z) (o : outcome overlay) : option (list (option Position)) :=
  match o with
  | Ok o => Some ((λ x, (λ n, center (node_aoi n)) <$> find id (id2node (snd (snd x)))) <$> o)
  | Fail _ => None
  end.

(** A join completes: a peer that knows only the first peer of an overlay asks it, is told
    of the peers around its position, greets them, is greeted, and is known to them; after
    a third peer has joined through the first, all three know each other, and when one of
    them moves the other two know its new position. *)
Theorem three_peers_join :
  summary join_three = Some [(1, JOINED, [1; 2; 3]); (2, JOINED, [2; 1; 3]); (3, JOINED, [3; 1; 2])]
  ∧ position_known 2 (join_three ≫= move_second)
    = Some (replicate 3 (Some (center (place 0 12 10)))).
Proof. split; vm_compute; reflexivity. Qed.

(** *** A peer with two neighbors *)

Definition insert_at (p : peer) (n : Node) : peer := let '(_, p, _, _) := insertNode 1 (host0 1) p n in p.

Definition nodeA : Node := mkNode 1 1 (place 0 0 10) (peer_addr 1).
Definition nodeB : Node := mkNode 2 1 (place 20 0 10) (peer_addr 2).
Definition nodeC : Node := mkNode 3 1 (place 500 400 10) (peer_addr 3).

Definition peerA : peer :=
  with_state (insert_at (insert_at (insert_at (with_self (new_peer 1) nodeA) nodeA) nodeB) nodeC) JOINED.

Lemma insert_at_core p n : core p → core (insert_at p n).
Proof.
  intros C. unfold insert_at. pose proof (insertNode_core 1 (host0 1) p n C I) as Hc.
  destruct (insertNode 1 (host0 1) p n) as [[[s' p'] n'] ok]. apply Hc.
Qed.

Lemma peerA_core : core peerA.
Proof.
  assert (C : core (insert_at (insert_at (insert_at (with_self (new_peer 1) nodeA) nodeA) nodeB) nodeC)).
  { do 3 apply insert_at_core. assert (C := proj1 (new_peer_inv (host0 1) 1 AOI_DETECTION_BUFFER true) : core (new_peer 1)).
    destruct C. by split. }
  destruct C. by split.
Qed.

Lemma peerA_live : live peerA.
Proof. split; [apply peerA_core|]. split; [by vm_compute|]. apply memb_true. by vm_compute. Qed.

Definition node_list : Message :=
  match store_int 1 (Message_new (von_code VON_NODE) 2) 200 with Ok (m, _) => reset m | Fail _ => Message_new 0 0 end.

(** A list from peer 1 that names peer 1 *)
Definition own_list : Message :=
  match '(m, _) ← store_int 1 (Message_new (von_code VON_NODE) 1) 1; store_obj m nodeA with
  | Ok (m, _) => reset m
  | Fail _ => Message_new 0 0
  end.

Definition events : list (Z * von_event) :=
  [(1, EJoin (place 0 0 10) gateway_node); (2, EMessage node_list); (2, EMessage own_list); (3, ETick);
   (4, EMove (place 1 0 10) 0); (4, EMessage own_list); (5, ELeave true); (6, ETick)].


(** The run above is not cut short. *)
Example events_return : is_ok (peer_run junk0 100 (host0 1) (new_peer 1) events) = true.
Proof. by vm_compute. Qed.

(** A farewell in the name of the peer that gets it: the peer removes its own node, and asks an
    empty diagram when the next list of enclosing neighbors comes. *)
Definition own_farewell : Message := Message_new (von_code VON_BYE) 1.
Definition list2 : Message := Message_new (von_code VON_EN) 2.

Example own_farewell_fails :
  is_ok (peer_run junk0 100 (host0 1) (new_peer 1) [(1, EJoin (place 0 0 10) gateway_node); (2, EMessage list2)]) = true
  ∧ is_ok (peer_run junk0 100 (host0 1) (new_peer 1) [(1, EJoin (place 0 0 10) gateway_node); (2, EMessage own_farewell)]) = true
  ∧ peer_run junk0 100 (host0 1) (new_peer 1)
      [(1, EJoin (place 0 0 10) gateway_node); (2, EMessage own_farewell); (3, EMessage list2)] = Fail OutOfBounds.
Proof. split; [by vm_compute|]. split; by vm_compute. Qed.

Lemma move_announced_witness :
  match VP_move 2 (host0 1) peerA (place 5 0 10) 0 with
  | Ok (s', p', a) => ∃ ts bs ms1 ms2, ts ++ bs ≡ₚ others peerA ∧ tr_sent s' = [] ++ ms1 ++ ms2
      ∧ announced false false p' ts ms1 ∧ announced false true p' bs ms2
  | Fail _ => False
  end.
Proof.
  destruct (VP_move 2 (host0 1) peerA (place 5 0 10) 0) as [[[s' p'] a]|f] eqn:E.
  - destruct (move_announced 2 (host0 1) peerA (place 5 0 10) 0 s' p' a peerA_core E)
      as (ts & bs & ms1 & ms2 & P & T & A1 & A2 & _). exists ts, bs, ms1, ms2. by splits.
  - vm_compute in E. discriminate E.
Defined.

Definition nodeB_moved : Node := mkNode 2 7 (place 25 1 10) (peer_addr 2).

Definition move_message : Message :=
  match store (Message_new (von_code VON_MOVE_B) 2) (move_bytes nodeB_moved false) false with
  | Ok (m, _) => reset m | Fail _ => Message_new 0 0
  end.

Lemma move_followed_witness :
  ∃ p' m', VP_handleMessage junk0 9 (host0 1) peerA move_message = Ok (host0 1, p', m', true)
  ∧ find 2 (id2node p') = Some (moved false (node_accessed nodeB 1) nodeB_moved).
Proof.
  destruct (move_followed junk0 9 (host0 1) peerA move_message false true nodeB_moved (node_accessed nodeB 1) peerA_core)
    as (p' & m' & E & Hp).
  - discriminate.
  - vm_compute. lia.
  - reflexivity.
  - vm_compute. intuition discriminate.
  - vm_compute. reflexivity.
  - reflexivity.
  - reflexivity.
  - vm_compute. reflexivity.
  - reflexivity.
  - exists p', m'. split; [exact E|]. destruct Hp as (F & _). exact (F 2).
Defined.

Lemma told_once_witness :
  match checkNeighborDiscovery 2 (host0 1) (with_req peerA [(2, true)]) with
  | Ok (s1, p1) =>
      match checkNeighborDiscovery 3 s1 (with_req p1 [(2, true); (3, true)]) with
      | Ok (s2, _) => length (tr_sent s1) = 1%nat ∧ s2 = s1
      | Fail _ => False
      end
  | Fail _ => False
  end.
Proof.
  assert (L : live (with_req peerA [(2, true)])) by (destruct peerA_live as [[] A]; by split).
  destruct (checkNeighborDiscovery 2 (host0 1) (with_req peerA [(2, true)])) as [[s1 p1]|f] eqn:E1; [|vm_compute in E1; discriminate E1].
  destruct (checkNeighborDiscovery 3 s1 (with_req p1 [(2, true); (3, true)])) as [[s2 p2]|f] eqn:E2.
  - split; [vm_compute in E1; injection E1 as <- _; reflexivity|].
    exact (told_once 2 3 (host0 1) (with_req peerA [(2, true)]) s1 p1 [(2, true); (3, true)] s2 p2 L E1 E2).
  - vm_compute in E1. injection E1 as <- <-. vm_compute in E2. discriminate E2.
Defined.

Lemma drops_overdue_witness :
  match removeNonOverlapped 50 100 (host0 1) peerA with
  | Ok (s', p') => has 2 (id2node p') = false ↔ 2 ≠ self_id peerA ∧ irrelevant peerA (node_accessed nodeB 1)
                                                ∧ default 0 (find 2 (time_drop peerA)) ≤ 50
  | Fail _ => False
  end.
Proof.
  destruct (removeNonOverlapped 50 100 (host0 1) peerA) as [[s' p']|f] eqn:E; [|vm_compute in E; discriminate E].
  destruct (drops_overdue 50 100 (host0 1) peerA s' p' peerA_live E) as [F _]. apply (F 2). vm_compute. reflexivity.
Defined.

Lemma overlap_ends_witness : ∃ j, isOverlapped peerA (center (node_aoi nodeB)) = Ok (tried (center (node_aoi nodeB)) j).
Proof.
  apply (overlap_ends peerA (center (node_aoi nodeB))). intros j k [Hj Hk].
  change (length (id2node peerA)) with 3%nat in Hk.
  assert (E : forallb (λ k, forallb (λ j, negb (Position_eqb (tried (center (node_aoi nodeB)) j) (tried (center (node_aoi nodeB)) k)))
    (seq 0 k)) (seq 0 4) = true) by (vm_compute; reflexivity).
  rewrite forallb_forall in E. specialize (E k). rewrite forallb_forall in E.
  apply negb_true_iff, E; apply in_seq; lia.
Defined.

(** *** What the peers do not do well *)

(** A node far to the right: a step of 1 is lost, and the search never ends. *)
Definition far : Z := 20000000.
Definition crowded : peer := insert_at (insert_at peerA (mkNode 4 1 (place far 0 10) (peer_addr 4)))
  (mkNode 5 1 (place (far + 2) 0 10) (peer_addr 5)).

Theorem overlap_for_ever : step_x (center (place far 0 10)) = center (place far 0 10)
  ∧ VP_move 2 (host0 1) crowded (place far 0 10) 0 = Fail Diverges.
Proof. split; vm_compute; reflexivity. Qed.

(** The list of enclosing neighbors of a peer that is not known yet makes an entry for it,
    with id 0; its greeting then updates the entry, and it never becomes a neighbor. *)
Definition en_message (id : Z) : Message :=
  match store_int 1 (Message_new (von_code VON_EN) id) 0 with Ok (m, _) => reset m | Fail _ => Message_new 0 0 end.
Definition hello_message (n : Node) : Message :=
  match store_obj (Message_new (von_code VON_HELLO) (node_id n)) n with Ok (m, _) => reset m | Fail _ => Message_new 0 0 end.

Definition greeted (l : list Message) : outcome peer :=
  snd <$> peer_run junk0 100 (host0 1) peerA ((λ m, (9, EMessage m)) <$> l).

Definition nodeD : Node := mkNode 6 1 (place 10 10 10) (peer_addr 6).

Theorem early_list_shadows :
  (pneighbors <$> greeted [hello_message nodeD]) = Ok [1; 2; 3; 6]
  ∧ (pneighbors <$> greeted [en_message 6; hello_message nodeD]) = Ok [1; 2; 3].
Proof. split; vm_compute; reflexivity. Qed.

(** Sites whose distances differ by less than [EQUAL_DISTANCE] from one to the next: the
    site with the smallest id wins, though it is further away than [EQUAL_DISTANCE]. *)
Definition near (k : Z) : Position := mkPosition (bits_of_f32 (f32_of_f64 (f64_div (f64_of_Z k) (f64_of_Z 10000000)))) 0 0.
Definition chain : VoronoiSF := foldl (λ v k, VSF_insert v (20 - k) (near k)) VSF_new [1; 9; 18].

Theorem closest_drifts :
  VSF_closest_to chain (near 0) = 2
  ∧ SFltb EQUAL_DISTANCE (f64_sub (f64_of_f32 (distance (near 0) (near 18))) (f64_of_f32 (distance (near 0) (near 1)))) = true.
Proof. split; vm_compute; reflexivity. Qed.
