(* ===== verification/VonLinks.v ===== *)
(** What the tasks of a peer leave of its nodes: the tasks of a cycle and a move add no
    site, and a node is removed only together with its site. Pointers to nodes that are
    used only for sites of the diagram stay valid. *)

From S2P Require Import Prelude Bytes StdMap Float Serial Geometry Subscription Message VastNet VastSend.
From S2P Require Import MessageQueue QueueSafe Readable Handlers VonInterfaces VonPeer VonSafe VonSpec.
Local Open Scope Z_scope.

Section links.
Context {S V : Type} `{VONNetworkLaws S} `{VoronoiLaws V}.
Implicit Types (s : S) (p : VONPeer V) (n : Node).

Definition site_ids p : list Z := fst <$> sites (voronoi p).

(** A peer that has not joined: it has left, or knows nobody else yet. *)
Definition idle p : Prop := snd (VP_isJoined p) = false.

Lemma idle_iff p : idle p ↔ vstate p ≠ JOINED ∧ (vstate p = JOINING → (length (pneighbors p) ≤ 1)%nat).
Proof.
  unfold idle, VP_isJoined. cbn [snd]. destruct (bool_decide_reflect (vstate p = JOINING)) as [E|E]; cbn [andb].
  - destruct (Z.ltb_spec 1 (Z.of_nat (length (pneighbors p)))); rewrite bool_decide_eq_false; cbn.
    + split; [done|]. intros [_ Hl]. specialize (Hl E). lia.
    + split; [intros Hn; split; [done|lia]|by intros []].
  - rewrite bool_decide_eq_false. by split; [split|intros []].
Qed.

Lemma idle_fewer p p' : vstate p' = vstate p → (length (pneighbors p') ≤ length (pneighbors p))%nat → idle p → idle p'.
Proof. rewrite !idle_iff. intros -> Hl [Hn Hj]. split; [done|]. intros E. specialize (Hj E). lia. Qed.

Lemma idle_same p : idle p → VP_isJoined p = (p, false).
Proof.
  unfold idle, VP_isJoined. cbn [snd]. destruct (_ && _); [by rewrite bool_decide_eq_true_2|]. by intros ->.
Qed.

Definition thins p p' : Prop :=
  (idle p → idle p') ∧
  ∀ k, k ∈ site_ids p' → k ∈ site_ids p ∧ (has k (id2node p) = true → has k (id2node p') = true).

Lemma thins_refl p : thins p p.
Proof. split; [done|by intros k Hk]. Qed.

Lemma thins_trans p1 p2 p3 : thins p1 p2 → thins p2 p3 → thins p1 p3.
Proof.
  intros [I1 T1] [I2 T2]. split; [by auto|]. intros k Hk. destruct (T2 k Hk) as [H2' N2], (T1 k (proj1 (T2 k Hk))) as [H1' N1]. auto.
Qed.

Lemma thins_same p p' : vstate p' = vstate p → (length (pneighbors p') ≤ length (pneighbors p))%nat →
  site_ids p' = site_ids p → (∀ k, has k (id2node p) = true → has k (id2node p') = true) → thins p p'.
Proof. intros Ev El E Hn. split; [by apply idle_fewer|]. intros k Hk. rewrite E in Hk. auto. Qed.

(** The same nodes and the same diagram *)
Definition kept p p' : Prop :=
  voronoi p' = voronoi p ∧ vstate p' = vstate p ∧ pneighbors p' = pneighbors p
  ∧ ∀ k, has k (id2node p) = true → has k (id2node p') = true.

Lemma links_kept_refl p : kept p p.
Proof. unfold kept. by splits. Qed.

Lemma links_kept_trans p1 p2 p3 : kept p1 p2 → kept p2 p3 → kept p1 p3.
Proof. intros (E1 & F1 & L1 & N1) (E2 & F2 & L2 & N2). unfold kept. splits; [congruence|congruence|congruence|auto]. Qed.

Lemma kept_thins p p' : kept p p' → thins p p'.
Proof. intros (E & F & L & N). apply thins_same; [done|by rewrite L|unfold site_ids; by rewrite E|done]. Qed.

Lemma thins_delete p id : core p → thins p (fst (deleteNode p id)).
Proof.
  intros C. split.
  { unfold deleteNode. destruct (negb _); [done|]. apply idle_fewer; [done|]. cbn [fst pneighbors with_nodes].
    rewrite remove_first_spec by apply C. apply length_filter. }
  intros k Hk. rewrite deleteNode_has by done. unfold deleteNode in Hk.
  destruct (isNeighbor p id) eqn:E; cbn [negb fst] in Hk.
  - unfold site_ids in Hk. cbn in Hk. rewrite sites_remove in Hk by apply C.
    apply list_elem_of_fmap in Hk as (x & -> & [Hne Hx]%list_elem_of_filter).
    split; [apply list_elem_of_fmap; eauto|]. intros ->. by destruct (Z.eqb_spec (fst x) id).
  - split; [done|]. intros Hh. rewrite Hh, andb_true_r. apply negb_true_iff, Z.eqb_neq. intros ->.
    unfold isNeighbor in E. congruence.
Qed.

Lemma thins_deletes p ids : core p → thins p (deleteNodes p ids).
Proof.
  unfold deleteNodes. revert p. induction ids as [|i ids IH]; intros p C; cbn [foldl]; [apply thins_refl|].
  eapply thins_trans; [by apply thins_delete|]. by apply IH, deleteNode_core.
Qed.

Lemma thins_update now s p n : core p → thins p (fst (fst (updateNode now s p n))).
Proof.
  intros C. pose proof (updateNode_core now s p n C) as Hu. destruct (updateNode now s p n) as [[p' n'] ok].
  destruct Hu as (_ & _ & Ev & _ & El & _ & _ & Es & Hh & _). apply thins_same; [exact Ev|by cbn [fst]; rewrite El|done|]. intros k. by rewrite Hh.
Qed.

(** *** The tasks of a cycle *)

Lemma sort_new_sites now s p l : core p →
  let '(p', r) := sort_new now s p l in pneighbors p' = pneighbors p ∧ ∀ k, k ∈ site_ids p' → k ∈ site_ids p ∨ k ∈ r.
Proof.
  revert p. induction l as [|[k n] l IH]; intros p C; cbn [sort_new]; [by split; [|left]|].
  destruct (isNeighbor p (node_id n)).
  - pose proof (updateNode_core now s p n C) as Hu. destruct (updateNode now s p n) as [[p1 n1] ok]. cbn [fst] in *.
    destruct Hu as (C1 & _ & _ & _ & El & _ & _ & Es & _). specialize (IH p1 C1).
    destruct (sort_new now s p1 l) as [p2 r]. destruct IH as [El2 IH]. split; [congruence|]. intros x Hx. destruct (IH x Hx) as [Hi|]; [left; unfold site_ids in *; by rewrite <- Es|by right].
  - set (p1 := with_vor p _). assert (C1 : core p1) by (destruct C; split; cbn; auto using inv_insert).
    specialize (IH p1 C1). destruct (sort_new now s p1 l) as [p2 r]. destruct IH as [El2 IH]. split; [exact El2|]. intros x Hx.
    destruct (IH x Hx) as [Hi|]; [|by right; right]. unfold site_ids in Hi. cbn in Hi. rewrite sites_insert in Hi.
    destruct (memb _ _); [by left|]. rewrite fmap_app in Hi. apply elem_of_app in Hi as [|Hi]; [by left|right].
    cbn in Hi. apply list_elem_of_singleton in Hi as ->. left.
Qed.

Lemma removes_sites_only (v : V) l k : vor_inv v → k ∈ (fst <$> sites (foldl vor_remove v l)) →
  k ∈ (fst <$> sites v) ∧ k ∉ l.
Proof.
  revert v. induction l as [|i l IH]; intros v I Hk; cbn [foldl] in Hk; [split; [done|apply not_elem_of_nil]|].
  apply IH in Hk as [Hk Hl]; [|by apply inv_remove]. rewrite sites_remove in Hk by done.
  apply list_elem_of_fmap in Hk as (x & -> & [Hne Hx]%list_elem_of_filter).
  split; [apply list_elem_of_fmap; eauto|]. by apply not_elem_of_cons.
Qed.

Lemma greet_keeps now s p l s' p' : greet now s p l = Ok (s', p') → kept p p'.
Proof.
  revert s p. induction l as [|t l IH]; intros s p; cbn [greet]; [intros [= <- <-]; apply links_kept_refl|]. cbv zeta.
  intros E. run_inv E. destruct r; [|by eapply IH]. run_inv E. run_inv E. by apply IH in E.
Qed.

Lemma thins_contact now s p s' p' : core p → contactNewNeighbors now s p = Ok (s', p') → thins p p'.
Proof.
  intros C. unfold contactNewNeighbors. pose proof (sort_new_core now s p (new_neighbors p) C) as Hc.
  pose proof (sort_new_sites now s p (new_neighbors p) C) as Hs.
  destruct (sort_new now s p (new_neighbors p)) as [p1 r]. destruct Hc as (C1 & _ & Ev1 & _ & Hh & _). destruct Hs as [El1 Hs].
  intros E. run_inv E. destruct r0 as [s1 p2]. apply greet_keeps in E0 as (Ev & Es & El & En). cbv beta iota zeta in E.
  apply ok2_inv in E as [_ <-]. split; [apply idle_fewer; cbn; [congruence|by rewrite El, El1]|].
  intros k Hk. unfold site_ids in Hk. cbn in Hk. rewrite Ev in Hk.
  apply removes_sites_only in Hk as [Hk Hl]; [|apply C1]. split; [by destruct (Hs k Hk)|].
  cbn. intros Hn. apply En. by rewrite Hh.
Qed.

Lemma node_at_keeps p i : kept p (fst (node_at p i)).
Proof.
  unfold node_at. destruct (find i (id2node p)); [apply links_kept_refl|]. unfold kept. splits; [done..|].
  intros k Hk. cbn. rewrite has_set, Hk. apply orb_true_r.
Qed.

Lemma store_nodes_keeps p m ids p' m' : store_nodes p m ids = Ok (p', m') → kept p p'.
Proof.
  revert p m. induction ids as [|i ids IH]; intros p m; cbn [store_nodes]; [intros [= <- <-]; apply links_kept_refl|].
  pose proof (node_at_keeps p i) as Hn. destruct (node_at p i) as [p1 n]. intros E. run_inv E. destruct r as [m1 b].
  apply IH in E. by eapply links_kept_trans.
Qed.

Lemma sendNodes_keeps now s p t l r s' p' : sendNodes now s p t l r = Ok (s', p') → kept p p'.
Proof.
  unfold sendNodes. destruct (listsize l =? 0); [intros [= <- <-]; apply links_kept_refl|]. intros E. run_inv E. destruct r0 as [m b].
  run_inv E. destruct r0 as [p1 m1]. run_inv E. destruct r0 as [[[s1 m2] f] k]. apply ok2_inv in E as [_ <-].
  by eapply store_nodes_keeps.
Qed.

Lemma discover_all_keeps now s p l s' p' : discover_all now s p l = Ok (s', p') → kept p p'.
Proof.
  revert s p. induction l as [|t l IH]; intros s p; cbn [discover_all]; [intros [= <- <-]; apply links_kept_refl|]. cbv zeta.
  intros E. run_inv E. destruct (isSelf p (node_id r)); [by eapply IH|]. run_inv E. destruct r0 as [nt st].
  cbv beta iota zeta in E. run_inv E. destruct r0 as [s1 p1]. apply IH in E.
  destruct (has _ _); [apply sendNodes_keeps in E2|apply ok2_inv in E2 as [_ <-]]; [by eapply links_kept_trans|done].
Qed.

Lemma overdue_keeps p now g l p' r : overdue p now g l = Ok (p', r) → ∃ td, p' = with_drop p td.
Proof.
  revert p r. induction l as [|[id n] l IH]; intros p r; cbn [overdue].
  { intros [= <- <-]. exists (time_drop p). by destruct p. }
  assert (Hw : ∀ td r, overdue (with_drop p td) now g l = Ok (p', r) → ∃ td', p' = with_drop p td').
  { intros td r1 E. apply IH in E as [td' ->]. by exists td'. }
  intros E. run_inv E. destruct r0; [by eapply Hw|]. cbv zeta in E. destruct (_ <=? now); [|by eapply Hw].
  run_inv E. destruct r0 as [p1 r1]. apply ok2_inv in E as [<- _]. by eapply Hw.
Qed.

Lemma thins_dropped now ms s p s' p' : core p → removeNonOverlapped now ms s p = Ok (s', p') → thins p p'.
Proof.
  intros C. unfold removeNonOverlapped. cbv zeta. intros E. run_inv E. destruct r as [p1 r].
  apply overdue_keeps in E0 as [td ->]. set (p1 := with_drop p td) in *.
  assert (C1 : core p1) by (destruct C; by split).
  assert (T1 : thins p p1) by by apply thins_same.
  destruct r as [|k r]; [by apply ok2_inv in E as [_ <-]|]. run_inv E. destruct r0 as [[[s1 m] f] n].
  apply ok2_inv in E as [_ <-]. eapply thins_trans; [exact T1|]. by apply thins_deletes.
Qed.

Lemma thins_joined p : thins p (fst (VP_isJoined p)).
Proof.
  split; [intros E0; pose proof (idle_same p E0) as E1; by rewrite E1|]. unfold VP_isJoined. cbn [fst]. by destruct (_ && _).
Qed.

Lemma thins_tick now ms s p s' p' : peer_inv p → net_good s → VP_tick now ms s p = Ok (s', p') → thins p p'.
Proof.
  intros I G. unfold VP_tick. rewrite keep_alive_silent, bind_ok. cbn beta iota. destruct (isJoined_inv p I) as [I1 _].
  pose proof (thins_joined p) as T0.
  destruct (contact_ok now s _ I1 G) as (s2 & p2 & E2 & G2 & I2 & _). pose proof (thins_contact _ _ _ _ _ (proj1 I1) E2) as T1.
  rewrite E2, bind_ok. cbn beta iota. clear E2. intros E. run_inv E. destruct r as [s3 p3]. unfold checkNeighborDiscovery in E0.
  run_inv E0. destruct r as [s4 p4]. apply ok2_inv in E0 as [<- <-].
  assert (C4 : core p4 ∧ thins p2 p4).
  { split; [|by eapply kept_thins, discover_all_keeps].
    destruct (bool_decide_reflect (vstate p2 = ABSENT)) as [Ea|Ea].
    - destruct I2 as [C2 A2]. rewrite bool_decide_eq_true_2 in A2 by done.
      rewrite (absent_neighbors p2 C2 (proj1 A2)) in E1. by apply ok2_inv in E1 as [_ <-].
    - destruct (discover_all_ok now s2 p2 (pneighbors p2) (inv_live p2 I2 Ea) G2) as (s5 & p5 & E5 & _ & S5); [apply incl_refl|].
      rewrite E5 in E1. apply ok2_inv in E1 as [_ <-]. apply S5. }
  destruct C4 as [C4 T4]. eapply thins_trans; [exact T0|]. eapply thins_trans; [exact T1|]. eapply thins_trans; [exact T4|].
  assert (C5 : core (with_req p4 [])) by (destruct C4; by split).
  eapply thins_trans; [|exact (thins_dropped now ms s4 _ _ _ C5 E)]. by apply thins_same.
Qed.

(** *** A move *)

Lemma send_move_thins now s p msg s' p' m' : core p → send_move now s p msg = Ok (s', p', m') →
  thins p p' ∧ core p'.
Proof.
  intros C. unfold send_move. destruct (targets msg) as [|t ts]; [by intros [= <- <- <-]|]. intros E. run_inv E.
  destruct r as [[[s1 m1] f] k]. apply ok3_inv in E as (_ & <- & _). split; [by apply thins_deletes|].
  clear E0. unfold deleteNodes. revert p C. induction f as [|i f IH]; intros p C; cbn [foldl]; [done|]. by apply IH, deleteNode_core.
Qed.

Lemma thins_move now s p aoi t s' p' a : peer_inv p → VP_move now s p aoi t = Ok (s', p', a) → thins p p'.
Proof.
  intros I. unfold VP_move. cbv zeta. intros E. run_inv E.
  match type of E with context [updateNode now s ?q ?n] => set (p1 := q) in *; set (n1 := n) in * end.
  assert (C1 : core p1) by (apply with_self_core; [apply with_self_core; [apply I|done]|done]).
  pose proof (thins_update now s p1 n1 C1) as T1. pose proof (updateNode_core now s p1 n1 C1) as Hu.
  destruct (updateNode now s p1 n1) as [[p2 n2] ok]. cbn [fst] in T1. destruct Hu as (C2 & E2 & _ & _ & _ & Ei & _).
  assert (C3 : core (with_self p2 n2)) by (apply with_self_core; [done|unfold self_id; by rewrite Ei, E2]).
  run_inv E. run_inv E. destruct r1 as [ts bs]. cbv beta iota zeta in E. run_inv E. destruct r1 as [[s4 p4] m4].
  apply send_move_thins in E4 as [T4 C4]; [|done]. cbv beta iota zeta in E. run_inv E. destruct r1 as [[s5 p5] m5].
  apply send_move_thins in E4 as [T5 C5]; [|done]. apply ok3_inv in E as (_ & <- & _).
  eapply thins_trans; [|exact T5]. eapply thins_trans; [|exact T4].
  eapply (thins_trans p p1); [by apply thins_same|]. eapply thins_trans; [exact T1|]. by apply thins_same.
Qed.
End links.
