(* ===== verification/VSOTypes.v ===== *)
(** What a peer that owns objects (VAST/VSOPeer.h) is made of: the kinds of its messages, its
    timeouts, the record of a shared object, the notice of a transfer of ownership, and the
    interface by which the peer asks its host for decisions (VAST/VSOPolicy.h).

    The policy is implemented by the object that implements [VONNetwork], so that both act
    on one state. It may call back: [removeObject] is passed the pool of objects, and
    [ownershipTransferred], whose implementation holds pointers to the nodes of the peer, is
    passed those nodes. The pointer to the application's object ([obj]) is never read. *)

From S2P Require Import Prelude Bytes StdMap Float Serial Geometry Subscription Message Readable VonInterfaces.
From Stdlib Require Import Floats.SpecFloat.
Local Open Scope Z_scope.

Inductive VSO_Message :=
  | VSO_DISCONNECT | VSO_CANDIDATE | VSO_PROMOTE | VSO_INSERT | VSO_MOVE | VSO_JOINED
  | VSO_TRANSFER | VSO_TRANSFER_ACK | VSO_REQUEST.

Definition VSO_Messages : list VSO_Message :=
  [VSO_CANDIDATE; VSO_PROMOTE; VSO_INSERT; VSO_MOVE; VSO_JOINED; VSO_TRANSFER; VSO_TRANSFER_ACK; VSO_REQUEST].

Definition vso_code (t : VSO_Message) : Z :=
  match t with
  | VSO_DISCONNECT => 0 | VSO_CANDIDATE => 11 | VSO_PROMOTE => 12 | VSO_INSERT => 13 | VSO_MOVE => 14
  | VSO_JOINED => 15 | VSO_TRANSFER => 16 | VSO_TRANSFER_ACK => 17 | VSO_REQUEST => 18
  end.

Definition of_vso_code (z : Z) : option VSO_Message :=
  if z =? 0 then Some VSO_DISCONNECT
  else if z <? 11 then None else VSO_Messages !! Z.to_nat (z - 11).

Lemma of_vso_code_code t : of_vso_code (vso_code t) = Some t.
Proof. by destruct t. Qed.

(** Seconds, as the macros of common/timeouts.h compute them from the length of a step *)
Definition VSO_TIMEOUT_OVERLOAD_REQUEST (ms : Z) : Z := Z.quot (300 * ms) 1000.
Definition VSO_TIMEOUT_TRANSFER (ms : Z) : Z := Z.quot (30 * ms) 1000.
Definition VSO_TIMEOUT_AUTO_REMOVE (ms : Z) : Z := Z.quot (200 * ms) 1000.

(** [0.1f], as a [double] *)
Definition VSO_MOVEMENT_FRACTION : spec_float := f64_of_f32 (f32_of_bits 0x3DCCCCCD).
Definition VSO_INSERTION_TRIGGER : Z := 5.
Definition VSO_AOI_BUFFER_OVERLAP : Z := 10.
Definition VSO_PEER_AOI_BUFFER : Z := 5.

Record VSOSharedObject := mkObj {
  so_aoi : Area; so_owner : bool; so_transit : Z; so_update : Z; so_closest : Z }.

Definition owned_by (o : VSOSharedObject) (b : bool) (transit update : Z) : VSOSharedObject :=
  mkObj (so_aoi o) b transit update (so_closest o).

(** *** The message of a transfer *)

Record VSOOwnerTransfer := mkTransfer { obj_id : Z; new_owner : Z; old_owner : Z }.

Definition VSOOwnerTransfer_init : VSOOwnerTransfer := mkTransfer 0 0 0.

Definition Transfer_sizeOf (_ : VSOOwnerTransfer) : nat := 8 * 3.

Definition Transfer_serialize (t : VSOOwnerTransfer) (c : cursor) : outcome cursor :=
  c ← put (le_bytes 8 (obj_id t)) c;
  c ← put (le_bytes 8 (new_owner t)) c;
  put (le_bytes 8 (old_owner t)) c.

Definition Transfer_deserialize (this : VSOOwnerTransfer) (p : ptr) (size : nat)
    : outcome (VSOOwnerTransfer * nat) :=
  guarded this p size (Transfer_sizeOf this) (λ p,
    '(a, p) ← fetch 8 p;
    '(n, p) ← fetch 8 p;
    '(o, p) ← fetch 8 p;
    Ok (mkTransfer a n o)).

Definition Transfer_valid (t : VSOOwnerTransfer) : Prop :=
  fits 64 (obj_id t) ∧ fits 64 (new_owner t) ∧ fits 64 (old_owner t).

#[export] Instance Transfer_serializable : Serializable VSOOwnerTransfer :=
  { sizeOf := Transfer_sizeOf; serialize := Transfer_serialize; deserialize := Transfer_deserialize }.

#[export] Hint Unfold Transfer_sizeOf : vast.

#[export] Program Instance Transfer_laws : SerializableLaws VSOOwnerTransfer := {|
  valid := Transfer_valid;
  wire t := le_bytes 8 (obj_id t) ++ le_bytes 8 (new_owner t) ++ le_bytes 8 (old_owner t);
  merge _ t := t |}.
Next Obligation. intros. len. Qed.
Next Obligation. intros. simpl. unfold Transfer_serialize. put_steps. Qed.
Next Obligation.
  intros [a n o] old rest k (? & ? & ?) Hn. cbn in Hn |- *.
  apply guarded_ok; [done|]. rewrite <- !app_assoc. do 3 fetch_step. done.
Qed.

#[export] Instance Transfer_onto : SerializableOnto VSOOwnerTransfer.
Proof.
  intros old bs Hl. destruct (le_split 8 16 bs Hl) as (a & r1 & -> & F1 & L1).
  destruct (le_split 8 8 r1 L1) as (n & r2 & -> & F2 & L2).
  destruct (le_split 8 0 r2 L2) as (o & r3 & -> & F3 & L3). apply nil_length_inv in L3 as ->.
  exists (mkTransfer a n o). split; [by split|]. split; [|done]. cbn. by rewrite app_nil_r.
Qed.

(** *** The interface to the host *)

Definition pool : Type := list (Z * VSOSharedObject).

Class VSOPolicy (S : Type) := {
  policy_findCandidate : S → Z → option (S * Addr);
  getGatewayID : S → Z;
  copyObject : Z → S → Z → list Z → bool → outcome (S * Z);
  removeObject : S → pool → Z → S * pool * bool;
  ownershipTransferred : Z → S → list (Z * Node) → Z → list Z → outcome (S * bool);
  objectClaimed : Z → S → Z → outcome (S * bool);
  peerJoined : Z → Z → S → Z → outcome (S * bool) }.      (* now, the length of a step *)
