(* ===== verification/VSOPeer.v ===== *)
(** A peer of the overlay that owns objects: VAST/VSOPeer.cpp and VAST/VSOPeer.h. It extends
    the VON peer ([vp]): it keeps a pool of shared objects, hands those that leave its region
    over to the closest peer, claims those that enter it, and moves towards its load. *)

From S2P Require Import Prelude Bytes StdMap Float Serial Geometry Subscription Message.
From S2P Require Import Handlers VastNet MessageQueue VonInterfaces VonPeer VSOTypes.
From Stdlib Require Import Floats.SpecFloat.
Local Open Scope Z_scope.

Record VSOPeer (V : Type) := mkVSO {
  vp : VONPeer V;
  vso_state : NodeState;
  newpos : Node;
  is_static : bool;
  origin : Node;
  promote_requests : list (Z * Node);
  objects : pool;
  transfer_timeout : list (Z * Z);
  reclaim_timeout : list (Z * Z);
  transfer : list (Z * VSOOwnerTransfer);
  obj_requested : list (Z * Z);
  overload_count : Z;
  overload_timeout : Z;
  underload_timeout : Z;
  next_periodic : Z }.
Arguments mkVSO {V}. Arguments vp {V}. Arguments vso_state {V}. Arguments newpos {V}. Arguments is_static {V}.
Arguments origin {V}. Arguments promote_requests {V}. Arguments objects {V}. Arguments transfer_timeout {V}.
Arguments reclaim_timeout {V}. Arguments transfer {V}. Arguments obj_requested {V}. Arguments overload_count {V}.
Arguments overload_timeout {V}. Arguments underload_timeout {V}. Arguments next_periodic {V}.

Section setters.
Context {V : Type}.
Implicit Types p : VSOPeer V.

Definition set_vp p (v : VONPeer V) : VSOPeer V := mkVSO v (vso_state p) (newpos p) (is_static p) (origin p)
  (promote_requests p) (objects p) (transfer_timeout p) (reclaim_timeout p) (transfer p) (obj_requested p)
  (overload_count p) (overload_timeout p) (underload_timeout p) (next_periodic p).
Definition set_vso p st : VSOPeer V := mkVSO (vp p) st (newpos p) (is_static p) (origin p)
  (promote_requests p) (objects p) (transfer_timeout p) (reclaim_timeout p) (transfer p) (obj_requested p)
  (overload_count p) (overload_timeout p) (underload_timeout p) (next_periodic p).
Definition set_newpos p n : VSOPeer V := mkVSO (vp p) (vso_state p) n (is_static p) (origin p)
  (promote_requests p) (objects p) (transfer_timeout p) (reclaim_timeout p) (transfer p) (obj_requested p)
  (overload_count p) (overload_timeout p) (underload_timeout p) (next_periodic p).
Definition set_origin p b o : VSOPeer V := mkVSO (vp p) (vso_state p) (newpos p) b o
  (promote_requests p) (objects p) (transfer_timeout p) (reclaim_timeout p) (transfer p) (obj_requested p)
  (overload_count p) (overload_timeout p) (underload_timeout p) (next_periodic p).
Definition set_promote p l : VSOPeer V := mkVSO (vp p) (vso_state p) (newpos p) (is_static p) (origin p)
  l (objects p) (transfer_timeout p) (reclaim_timeout p) (transfer p) (obj_requested p)
  (overload_count p) (overload_timeout p) (underload_timeout p) (next_periodic p).
Definition set_objects p l : VSOPeer V := mkVSO (vp p) (vso_state p) (newpos p) (is_static p) (origin p)
  (promote_requests p) l (transfer_timeout p) (reclaim_timeout p) (transfer p) (obj_requested p)
  (overload_count p) (overload_timeout p) (underload_timeout p) (next_periodic p).
(** The deadlines for handing over and for claiming *)
Definition set_timers p t r : VSOPeer V := mkVSO (vp p) (vso_state p) (newpos p) (is_static p) (origin p)
  (promote_requests p) (objects p) t r (transfer p) (obj_requested p)
  (overload_count p) (overload_timeout p) (underload_timeout p) (next_periodic p).
(** Transfers and requests that wait for the object *)
Definition set_pending p t r : VSOPeer V := mkVSO (vp p) (vso_state p) (newpos p) (is_static p) (origin p)
  (promote_requests p) (objects p) (transfer_timeout p) (reclaim_timeout p) t r
  (overload_count p) (overload_timeout p) (underload_timeout p) (next_periodic p).
Definition set_load p c o u : VSOPeer V := mkVSO (vp p) (vso_state p) (newpos p) (is_static p) (origin p)
  (promote_requests p) (objects p) (transfer_timeout p) (reclaim_timeout p) (transfer p) (obj_requested p)
  c o u (next_periodic p).
Definition set_periodic p t : VSOPeer V := mkVSO (vp p) (vso_state p) (newpos p) (is_static p) (origin p)
  (promote_requests p) (objects p) (transfer_timeout p) (reclaim_timeout p) (transfer p) (obj_requested p)
  (overload_count p) (overload_timeout p) (underload_timeout p) t.
End setters.

Definition f32_of_Z (z : Z) : spec_float := binary_normalize 24 128 z 0 false.
Definition f32_div : spec_float → spec_float → spec_float := SFdiv 24 128.

(** A [double] as a [length_t]: truncated to an [int], of which 16 bits are kept; what is
    out of the range of an [int] becomes its least value. *)
Definition length_of_f64 (x : spec_float) : Z :=
  match x with
  | S754_finite s m e =>
      let v := (if s then -1 else 1) * (if 0 <=? e then Zpos m * 2 ^ e else Zpos m / 2 ^ (- e)) in
      if (- 2 ^ 31 <=? v) && (v <? 2 ^ 31) then u16 v else 0
  | _ => 0
  end.

(** Local variables that the code leaves uninitialised when a message is too short *)
Record vso_uninit := mkVsoUninit { ju_level : Z; ju_n : Z; ju_id : Z }.

Section vso.
Context {S V : Type} `{VONNetwork S} `{VSOPolicy S} `{Voronoi V} (vjunk : von_uninit) (junk : vso_uninit).
Implicit Types (s : S) (p : VSOPeer V) (v : VONPeer V).

Definition my_id p : Z := self_id (vp p).

(** [VSOPeer (id, net, policy, aoi_buffer)] *)
Definition VSO_new s (id buffer : Z) : VSOPeer V :=
  let v := VP_new s id buffer true in
  mkVSO v JOINING (self v) false Node_init [] [] [] [] [] [] 0 0 0 0.

Definition isJoined p : VSOPeer V * bool := let '(v, b) := VP_isJoined (vp p) in (set_vp p v, b).

Definition isJoining p : bool := bool_decide (vstate (vp p) = JOINING).

(** [join (aoi, origin, is_static)] *)
Definition VSO_join (now : Z) s p (aoi : Area) (o : Node) (static : bool) : outcome (S * VSOPeer V) :=
  let p := set_newpos p (with_aoi (newpos p) aoi) in
  '(s, v) ← VP_join now s (vp p) aoi o;
  Ok (s, set_origin (set_vp p v) static o).

(** *** Shared objects *)

Definition vso_msg (t : VSO_Message) : Message := set_priority (Message_new (vso_code t) 0) 1.

(** [acceptTransfer (transfer)], for an object of the pool *)
Definition acceptTransfer (now : Z) s p (t : VSOOwnerTransfer) : outcome (S * VSOPeer V) :=
  let o := default (mkObj Area_clear false 0 0 0) (find (obj_id t) (objects p)) in
  let p := set_objects p (set (obj_id t) (owned_by o true (so_transit o) (getTimestamp now s)) (objects p)) in
  s ← (if negb (old_owner t =? 0) then
         '(msg, _) ← store_int 8 (vso_msg VSO_TRANSFER_ACK) (obj_id t);
         '(s, _, _, _) ← sendVONMessage now s (addTarget msg (old_owner t)) true; Ok s
       else Ok s);
  Ok (s, set_timers p (transfer_timeout p) (erase (obj_id t) (reclaim_timeout p))).

(** [claimOwnership (obj_id, so)] *)
Definition claimOwnership (now : Z) s p (id : Z) (o : VSOSharedObject)
    : outcome (S * VSOPeer V * VSOSharedObject) :=
  let o := owned_by o true 0 (getTimestamp now s) in
  let p := set_timers p (transfer_timeout p) (erase id (reclaim_timeout p)) in
  '(s, _) ← objectClaimed now s id;
  Ok (s, p, o).

(** [insertSharedObject (obj_id, aoi, is_owner, obj)] *)
Definition insertSharedObject (now : Z) s p (id : Z) (aoi : Area) (owner : bool)
    : outcome (S * VSOPeer V * bool) :=
  if has id (objects p) then Ok (s, p, false) else
  let p := set_objects p (set id (mkObj aoi owner 0 (getTimestamp now s) 0) (objects p)) in
  '(s, p) ← match find id (transfer p) with
            | Some t =>
                '(s, p) ← acceptTransfer now s p t;
                Ok (s, set_pending p (erase id (transfer p)) (obj_requested p))
            | None => Ok (s, p)
            end;
  Ok (s, set_pending p (transfer p) (erase id (obj_requested p)), true).

(** [updateSharedObject (obj_id, aoi, is_owner)]; [None] is a null pointer. *)
Definition updateSharedObject (now : Z) s p (id : Z) (aoi : Area) (owner : option bool) : VSOPeer V * bool :=
  match find id (objects p) with
  | None => (p, false)
  | Some o =>
      let o := mkObj aoi (default (so_owner o) owner) (so_transit o) (getTimestamp now s) (so_closest o) in
      (set_objects p (set id o (objects p)), true)
  end.

(** [deleteSharedObject (obj_id)], on the pool *)
Definition deleteSharedObject (l : pool) (id : Z) : pool * bool :=
  if has id l then (erase id l, true) else (l, false).

Definition getSharedObject p (id : Z) : option VSOSharedObject := find id (objects p).

Definition getOwnedObjectSize p : Z := Z.of_nat (length (filter (λ x, so_owner (snd x) = true) (objects p))).

Definition isOwner p (id : Z) : bool :=
  match find id (objects p) with Some o => so_owner o | None => false end.

(** [requestObjects (target, obj_list)]: the number is cut to 8 bits, the ids are not. *)
Definition requestObjects (now : Z) s p (target : Z) (l : list Z) : outcome (S * VSOPeer V) :=
  let l := filter (λ i, has i (obj_requested p) = false) l in
  match l with
  | [] => Ok (s, p)
  | _ =>
      '(msg, _) ← store_int 1 (vso_msg VSO_REQUEST) (listsize l);
      msg ← store_ids msg l;
      let p := set_pending p (transfer p) (foldl (λ m i, set i target m) (obj_requested p) l) in
      '(s, _, _, _) ← sendVONMessage now s (addTarget msg target) true;
      Ok (s, p)
  end.

(** *** Positions *)

(** [getLoadCenter (center)] *)
Definition sum_centers (l : pool) : Z * Position :=
  foldl (λ a x, if so_owner (snd x) then
                  let c := center (so_aoi (snd x)) in
                  (fst a + 1, mkPosition (coord_add (pos_x (snd a)) (pos_x c)) (coord_add (pos_y (snd a)) (pos_y c)) 0)
                else a) (0, Position_clear) l.

Definition coord_div (a n : Z) : Z := bits_of_f32 (f32_div (f32_of_bits a) (f32_of_Z n)).

Definition getLoadCenter p : option Position :=
  let '(n, c) := sum_centers (objects p) in
  if n =? 0 then None else Some (mkPosition (coord_div (pos_x c) n) (coord_div (pos_y c) n) 0).

(** [isLegalPosition (pos, include_self)] *)
Fixpoint legal_among v (pos : Position) (with_self : bool) (l : list Z) : outcome bool :=
  match l with
  | [] => Ok true
  | k :: l =>
      n ← pointee v k;
      if negb with_self && (node_id n =? self_id v) then legal_among v pos with_self l
      else if SFltb (distance pos (center (node_aoi n))) (f32_of_Z 5) then Ok false
      else legal_among v pos with_self l
  end.

Definition isLegalPosition p (pos : Position) (with_self : bool) : outcome bool :=
  legal_among (vp p) pos with_self (pneighbors (vp p)).

(** [getClosestEnclosing (pos)]: among all neighbors but the first *)
Fixpoint closest_from v (pos : Position) (closest : Z) (shortest : spec_float) (l : list Z) : outcome Z :=
  match l with
  | [] => Ok closest
  | k :: l =>
      n ← pointee v k;
      let d := f64_of_f32 (distance pos (center (node_aoi n))) in
      if SFltb d shortest then closest_from v pos (node_id n) d l else closest_from v pos closest shortest l
  end.

Definition getClosestEnclosing p (pos : Position) : outcome Z :=
  match pneighbors (vp p) with
  | [] | [_] => Ok 0
  | [_; k] => n ← pointee (vp p) k; Ok (node_id n)
  | _ :: k :: l =>
      n ← pointee (vp p) k;
      closest_from (vp p) pos (node_id n) (f64_of_f32 (distance pos (center (node_aoi n)))) l
  end.

(** [getOverlappedNeighbors (aoi, list, closest)] *)
Fixpoint overlapped v (aoi : Area) (closest : Z) (l : list Z) : outcome (list Z) :=
  match l with
  | [] => Ok []
  | k :: l =>
      n ← pointee v k;
      let id := node_id n in
      if id =? self_id v then overlapped v aoi closest l else
      b ← (if negb (closest =? 0) && (id =? closest) then Ok true
           else vor_overlaps (voronoi v) id (center aoi) (u16 (radius aoi + VSO_AOI_BUFFER_OVERLAP)) true);
      r ← overlapped v aoi closest l;
      Ok (if b : bool then id :: r else r)
  end.

Definition getOverlappedNeighbors p (aoi : Area) (closest : Z) : outcome (list Z) :=
  overlapped (vp p) aoi closest (pneighbors (vp p)).

(** [adjustPeerRadius ()] *)
Definition reach (c : Position) (o : VSOSharedObject) : spec_float :=
  let a := so_aoi o in
  let far := if height a =? 0 then radius a else if height a <? radius a then radius a else height a in
  f64_of_f32 (f32_add (distance c (center a)) (f32_of_Z far)).

Definition longest_reach (c : Position) (l : pool) : spec_float :=
  foldl (λ m x, let o := snd x in
                if so_owner o || negb (so_transit o =? 0) then
                  let d := reach c o in if SFltb m d then d else m
                else m) (S754_zero false) l.

Definition with_radius (a : Area) (r : Z) : Area := mkArea (center a) r (height a).

Definition adjustPeerRadius p : VSOPeer V :=
  let a := node_aoi (newpos p) in
  let r := length_of_f64 (f64_add (longest_reach (center a) (objects p)) (f64_of_Z VSO_PEER_AOI_BUFFER)) in
  set_newpos p (with_aoi (newpos p) (with_radius a r)).

(** [movePeerPosition ()] *)
Definition movePeerPosition (now : Z) s p : outcome (S * VSOPeer V) :=
  if Position_eqb (center (node_aoi (newpos p))) (center (node_aoi (self (vp p)))) then Ok (s, p) else
  let p := adjustPeerRadius p in
  '(s, v, _) ← VP_move now s (vp p) (node_aoi (newpos p)) 0;
  let me := with_aoi (self v) (with_center (node_aoi (self v)) (center (node_aoi (newpos p)))) in
  Ok (s, set_newpos (set_vp p (with_self v me)) me).

(** *** The tasks of a cycle *)

(** [checkUpdateToNeighbors ()]: the closest neighbor of each object is recorded, and the
    neighbors told of owned objects are collected. *)
Fixpoint neighbors_of_objects p (l : pool) (ups : list (Z * list Z)) : outcome (pool * list (Z * list Z) * Z) :=
  match l with
  | [] => Ok ([], ups, 0)
  | (id, o) :: l =>
      c ← getClosestEnclosing p (center (so_aoi o));
      let o := mkObj (so_aoi o) (so_owner o) (so_transit o) (so_update o) c in
      ns ← (if so_owner o then getOverlappedNeighbors p (so_aoi o) c else Ok []);
      let ups := foldl (λ m k, set k (default [] (find k m) ++ [id]) m) ups ns in
      '(l, ups, n) ← neighbors_of_objects p l ups;
      Ok ((id, o) :: l, ups, match ns with [] => n | _ => n + 1 end)
  end.

Fixpoint copy_all (now : Z) s (ups : list (Z * list Z)) : outcome S :=
  match ups with
  | [] => Ok s
  | (k, ids) :: ups => '(s, _) ← copyObject now s k ids true; copy_all now s ups
  end.

Definition checkUpdateToNeighbors (now : Z) s p : outcome (S * VSOPeer V * Z) :=
  '(l, ups, n) ← neighbors_of_objects p (objects p) [];
  s ← copy_all now s ups;
  Ok (s, set_objects p l, n).

(** [refreshObjects ()] *)
Definition stale (now timeout : Z) (o : VSOSharedObject) : bool :=
  negb (so_owner o) && (timeout <=? u64 (now - so_update o)).

Fixpoint remove_objects s (l : pool) (ids : list Z) : S * pool :=
  match ids with
  | [] => (s, l)
  | id :: ids => let '(s, l, _) := removeObject s l id in remove_objects s l ids
  end.

Definition refreshObjects (now ms : Z) s p : S * VSOPeer V :=
  let timeout := u64 (VSO_TIMEOUT_AUTO_REMOVE ms * getTimestampPerSecond s) in
  let '(s, l) := remove_objects s (objects p)
    (fst <$> filter (λ x, stale (getTimestamp now s) timeout (snd x) = true) (objects p)) in
  (s, set_objects p l).

(** [checkOwnershipTransfer ()]: what happens to one object. An owned object outside the
    region is handed over to the closest peer after a while; an object in the region is
    claimed after a while; so is one whose transfer is not acknowledged. *)
Definition deadline (ms k : Z) s (t : Z) : Z := u64 (t + u64 (VSO_TIMEOUT_TRANSFER ms * getTimestampPerSecond s * k)).

Definition leave_region (t ms : Z) s p (id : Z) (o : VSOSharedObject)
    : VSOPeer V * VSOSharedObject * option VSOOwnerTransfer :=
  match find id (transfer_timeout p) with
  | None => (set_timers p (set id (deadline ms 1 s t) (transfer_timeout p)) (reclaim_timeout p), o, None)
  | Some d =>
      let c := vor_closest_to (voronoi (vp p)) (center (so_aoi o)) in
      if (d <=? t) && negb (c =? my_id p) then
        (set_timers p (erase id (transfer_timeout p)) (reclaim_timeout p),
         owned_by o false (deadline ms 3 s t) (so_update o), Some (mkTransfer id c (my_id p)))
      else (p, o, None)
  end.

Definition enter_region (now t ms : Z) s p (id : Z) (o : VSOSharedObject) : outcome (S * VSOPeer V * VSOSharedObject) :=
  let d := default (deadline ms 5 s t) (find id (reclaim_timeout p)) in
  let p := set_timers p (transfer_timeout p) (set id d (reclaim_timeout p)) in
  if d <=? t then claimOwnership now s p id o else Ok (s, p, o).

Definition check_object (now ms : Z) s p (id : Z) (o : VSOSharedObject)
    : outcome (S * VSOPeer V * VSOSharedObject * option VSOOwnerTransfer) :=
  let t := getTimestamp now s in
  inside ← vor_contains (voronoi (vp p)) (my_id p) (center (so_aoi o));
  '(s, p, o, tr) ←
    (if negb inside then
       if so_owner o then let '(p, o, tr) := leave_region t ms s p id o in Ok (s, p, o, tr)
       else Ok (s, set_timers p (transfer_timeout p) (erase id (reclaim_timeout p)), o, None)
     else
       if so_owner o then Ok (s, set_timers p (erase id (transfer_timeout p)) (reclaim_timeout p), o, None)
       else '(s, p, o) ← enter_region now t ms s p id o; Ok (s, p, o, None));
  '(s, p, o) ← (if negb (so_transit o =? 0) && (so_transit o <=? t) then claimOwnership now s p id o
                else Ok (s, p, o));
  Ok (s, p, o, tr).

(** The transfers, by their target *)
Fixpoint check_objects (now ms : Z) s p (l : pool) (trs : list (Z * list VSOOwnerTransfer))
    : outcome (S * VSOPeer V * pool * list (Z * list VSOOwnerTransfer)) :=
  match l with
  | [] => Ok (s, p, [], trs)
  | (id, o) :: l =>
      '(s, p, o, tr) ← check_object now ms s p id o;
      let trs := match tr with
                 | Some t => set (new_owner t) (default [] (find (new_owner t) trs) ++ [t]) trs
                 | None => trs end in
      '(s, p, l, trs) ← check_objects now ms s p l trs;
      Ok (s, p, (id, o) :: l, trs)
  end.

Fixpoint store_transfers (msg : Message) (l : list VSOOwnerTransfer) : outcome Message :=
  match l with
  | [] => Ok msg
  | t :: l => '(msg, _) ← store_obj msg t; store_transfers msg l
  end.

Fixpoint send_transfers (now : Z) s p (msg : Message) (trs : list (Z * list VSOOwnerTransfer)) : outcome (S * Z) :=
  match trs with
  | [] => Ok (s, 0)
  | (target, l) :: trs =>
      let n := u8 (Z.of_nat (length l)) in
      let l := take (Z.to_nat n) l in
      '(msg, _) ← store_int 1 (set_priority (clear msg (vso_code VSO_TRANSFER) 0 3) 1) n;
      msg ← store_transfers msg l;
      '(s, _) ← copyObject now s target (obj_id <$> l) false;
      '(s, _) ← ownershipTransferred now s (id2node (vp p)) target (obj_id <$> l);
      ens ← vor_get_en (voronoi (vp p)) (my_id p);
      '(s, msg, _, _) ← sendVONMessage now s (addTarget (with_targets msg ens) target) true;
      '(s, k) ← send_transfers now s p msg trs;
      Ok (s, n + k)
  end.

Definition checkOwnershipTransfer (now ms : Z) s p : outcome (S * VSOPeer V * Z) :=
  let '(p, joined) := isJoined p in
  if negb joined then Ok (s, p, 0) else
  '(s, p, l, trs) ← check_objects now ms s p (objects p) [];
  let p := set_objects p l in
  '(s, k) ← send_transfers now s p (Message_new (vso_code VSO_TRANSFER) 0) trs;
  Ok (s, p, k).

(** [tick ()] *)
Definition announce_joined (now ms : Z) s p : outcome (S * VSOPeer V) :=
  if bool_decide (vso_state p = JOINING) then
    let '(p, joined) := isJoined p in
    if joined : bool then
      '(s, _) ← peerJoined now ms s (node_id (origin p));
      '(s, _, _, _) ← sendVONMessage now s (addTarget (vso_msg VSO_JOINED) (getGatewayID s)) true;
      Ok (s, set_vso p JOINED)
    else Ok (s, p)
  else Ok (s, p).

Definition towards_load p : VSOPeer V :=
  if is_static p then p else
  match getLoadCenter p with
  | Some c =>
      let n := newpos p in
      let q := center (node_aoi n) in
      set_newpos p (with_aoi n (with_center (node_aoi n)
        (Position_add q (Position_mul (Position_sub c q) VSO_MOVEMENT_FRACTION))))
  | None => p
  end.

Definition VSO_periodic (now ms : Z) s p : S * VSOPeer V :=
  let t := getTimestamp now s in
  if next_periodic p <=? t then
    refreshObjects now ms s (towards_load (set_periodic p (u64 (t + getTimestampPerSecond s))))
  else (s, p).

Definition VSO_tick (now ms : Z) s p : outcome (S * VSOPeer V) :=
  '(s, v) ← VP_tick now ms s (vp p);
  '(s, p) ← announce_joined now ms s (set_vp p v);
  let '(s, p) := VSO_periodic now ms s p in
  '(s, p) ← movePeerPosition now s p;
  '(s, p, _) ← checkOwnershipTransfer now ms s p;
  '(s, p, _) ← checkUpdateToNeighbors now s p;
  Ok (s, p).

(** *** The load *)

Definition notify_neighbors (now : Z) s p (level : Z) : outcome S :=
  '(msg, _) ← store_int 4 (set_priority (Message_new (vso_code VSO_MOVE) (my_id p)) 1) level;
  ens ← vor_get_en (voronoi (vp p)) (my_id p);
  match ens with
  | [] => Ok s
  | _ => '(s, _, _, _) ← sendVONMessage now s (with_targets msg ens) true; Ok s
  end.

Definition request_insertion (now : Z) s p (level : Z) : outcome S :=
  match getLoadCenter p with
  | Some c =>
      '(msg, _) ← store_int 4 (vso_msg VSO_INSERT) level;
      '(msg, _) ← store_obj msg c;
      '(msg, _) ← store_obj msg (origin p);
      '(s, _, _, _) ← sendVONMessage now s (addTarget msg (getGatewayID s)) true;
      Ok s
  | None => Ok s
  end.

Definition overloaded (now : Z) s p (level : Z) : outcome (S * VSOPeer V) :=
  let c := (if overload_count p <? 0 then 0 else overload_count p) + 1 in
  if c <? VSO_INSERTION_TRIGGER then
    s ← notify_neighbors now s p level; Ok (s, set_load p c 0 (underload_timeout p))
  else
    s ← request_insertion now s p level; Ok (s, set_load p 0 0 (underload_timeout p)).

Definition underloaded (now : Z) s p : outcome (S * VSOPeer V) :=
  let c := (if 0 <? overload_count p then 0 else overload_count p) - 1 in
  if - VSO_INSERTION_TRIGGER <? c then Ok (s, set_load p c (overload_timeout p) 0)
  else if negb (getGatewayID s =? my_id p) then
    '(s, v) ← VP_leave now s (vp p) true;
    Ok (s, set_load (set_vp p v) 0 (overload_timeout p) 0)
  else Ok (s, set_load p c (overload_timeout p) 0).

Definition notifyLoading (now ms : Z) s p (level : Z) : outcome (S * VSOPeer V) :=
  let t := getTimestamp now s in
  let d := u64 (t + u64 (VSO_TIMEOUT_OVERLOAD_REQUEST ms * getTimestampPerSecond s)) in
  if SFeqb (f32_of_bits level) (S754_zero false) then Ok (s, set_load p (overload_count p) 0 0) else
  let p := if SFltb (f32_of_bits level) (S754_zero false)
           then set_load p (overload_count p) 0 (if underload_timeout p =? 0 then d else underload_timeout p)
           else set_load p (overload_count p) (if overload_timeout p =? 0 then d else overload_timeout p) 0 in
  if negb (overload_timeout p =? 0) && (overload_timeout p <=? t) then overloaded now s p level
  else if negb (underload_timeout p =? 0) && (underload_timeout p <=? t) then underloaded now s p
  else if (overload_timeout p =? 0) && (underload_timeout p =? 0) then Ok (s, set_load p 0 0 0)
  else Ok (s, p).

(** *** The messages *)

(** [VSO_INSERT]: candidates are promoted until one can be reached. *)
Definition requester (now : Z) s (id : Z) (pos : Position) : Node :=
  mkNode id (getTimestamp now s) (mkArea pos 0 0) Addr_null.

Fixpoint promote_one (fuel : nat) (now : Z) s p (fr level : Z) (pos : Position) (o : Node)
    : outcome (S * VSOPeer V) :=
  match policy_findCandidate s level with
  | None => Ok (s, p)
  | Some (s, a) =>
      match fuel with
      | O => Fail Diverges
      | Datatypes.S fuel =>
          '(msg, _) ← store_obj (vso_msg VSO_PROMOTE) pos;
          '(msg, _) ← store_obj msg o;
          let s := notifyAddressMapping s (host_id a) a in
          '(s, _, _, k) ← sendVONMessage now s (addTarget msg (host_id a)) true;
          if 0 <? u64 k then
            Ok (s, set_promote p (set (host_id a) (requester now s fr pos) (promote_requests p)))
          else promote_one fuel now s p fr level pos o
      end
  end.

Definition handle_insert (fuel : nat) (now : Z) s p (msg : Message) : outcome (S * VSOPeer V * Message) :=
  if negb (my_id p =? getGatewayID s) then Ok (s, p, msg) else
  '(msg, level, _) ← extract_int 4 msg (ju_level junk) false;
  '(msg, pos, _) ← extract_obj msg Position_clear false;
  '(msg, o, _) ← extract_obj msg Node_init false;
  '(s, p) ← promote_one fuel now s p (from msg) level pos o;
  Ok (s, p, msg).

(** [VSO_PROMOTE] *)
Definition handle_promote (now : Z) s p (msg : Message) : outcome (S * VSOPeer V * Message) :=
  if negb (bool_decide (vstate (vp p) = ABSENT)) then Ok (s, p, msg) else
  '(msg, pos, _) ← extract_obj msg Position_clear false;
  '(msg, o, _) ← extract_obj msg Node_init false;
  '(s, p) ← VSO_join now s p (mkArea pos 5 0) o false;
  Ok (s, p, msg).

(** [VSO_MOVE] *)
Definition handle_come_closer s p (msg : Message) : outcome (S * VSOPeer V * Message) :=
  b ← vor_is_enclosing (voronoi (vp p)) (from msg) (u64 (-1));
  if negb b then Ok (s, p, msg) else
  '(msg, _, _) ← extract msg 4 false;
  q ← vor_get (voronoi (vp p)) (from msg);
  let c := center (node_aoi (newpos p)) in
  let c' := Position_add c (Position_mul (Position_sub q c) VSO_MOVEMENT_FRACTION) in
  ok ← isLegalPosition p c' false;
  Ok (s, if ok : bool then set_newpos p (with_aoi (newpos p) (with_center (node_aoi (newpos p)) c')) else p, msg).

(** [VSO_TRANSFER], [processTransfer (in_msg)]: transfers of unknown objects are kept, and
    the objects requested. *)
Fixpoint accept_all (n : nat) (now : Z) s p (msg : Message) : outcome (S * VSOPeer V * Message * list Z) :=
  match n with
  | O => Ok (s, p, msg, [])
  | Datatypes.S n =>
      '(msg, t, _) ← extract_obj msg VSOOwnerTransfer_init false;
      let to_me := my_id p =? new_owner t in
      if has (obj_id t) (objects p) then
        '(s, p) ← (if to_me then acceptTransfer now s p t else Ok (s, p));
        accept_all n now s p msg
      else if to_me then
        '(s, p, msg, r) ← accept_all n now s (set_pending p (set (obj_id t) t (transfer p)) (obj_requested p)) msg;
        Ok (s, p, msg, obj_id t :: r)
      else accept_all n now s p msg
  end.

Definition processTransfer (now : Z) s p (msg : Message) : outcome (S * VSOPeer V * Message) :=
  let '(p, joined) := isJoined p in
  if negb joined then Ok (s, p, msg) else
  '(msg, n, _) ← extract_int 1 msg (ju_n junk) false;
  '(s, p, msg, r) ← accept_all (Z.to_nat n) now s p msg;
  match r with
  | [] => Ok (s, p, msg)
  | _ => '(s, p) ← requestObjects now s p (from msg) r; Ok (s, p, msg)
  end.

(** [VSO_TRANSFER_ACK] *)
Definition handle_ack s p (msg : Message) : outcome (S * VSOPeer V * Message) :=
  '(msg, id, _) ← extract_int 8 msg (ju_id junk) false;
  Ok (s, match find id (objects p) with
         | Some o => set_objects p (set id (owned_by o (so_owner o) 0 (so_update o)) (objects p))
         | None => p
         end, msg).

(** [VSO_REQUEST] *)
Definition handle_request (now : Z) s p (msg : Message) : outcome (S * VSOPeer V * Message) :=
  '(msg, n, _) ← extract_int 1 msg (ju_n junk) false;
  '(msg, ids) ← extract_ids (Z.to_nat n) msg (ju_id junk);
  '(s, _) ← copyObject now s (from msg) ids false;
  Ok (s, p, msg).

Definition von_handle (now : Z) s p (msg : Message) : outcome (S * VSOPeer V * Message * bool) :=
  '(s, v, msg, ok) ← VP_handleMessage vjunk now s (vp p) msg;
  Ok (s, set_vp p v, msg, ok).

(** [VSO_DISCONNECT]: the objects the departing peer is closest to are claimed at once if they
    are in the region. *)
Definition reclaim_from (fr : Z) (l : pool) (r : list (Z * Z)) : list (Z * Z) :=
  foldl (λ r x, if so_closest (snd x) =? fr then set (fst x) 0 r else r) r l.

Definition handle_departure (now : Z) s p (msg : Message) : outcome (S * VSOPeer V * Message) :=
  let p := set_timers p (transfer_timeout p) (reclaim_from (from msg) (objects p) (reclaim_timeout p)) in
  '(s, p, msg, _) ← von_handle now s p (set_type msg (von_code VON_DISCONNECT));
  Ok (s, p, msg).

(** [handleMessage (in_msg)] *)
Definition VSO_handleMessage (fuel : nat) (now : Z) s p (msg : Message)
    : outcome (S * VSOPeer V * Message * bool) :=
  let done (r : outcome (S * VSOPeer V * Message)) := '(s, p, msg) ← r; Ok (s, p, msg, true) in
  match of_vso_code (msgtype msg) with
  | None | Some VSO_CANDIDATE => von_handle now s p msg
  | Some VSO_INSERT => done (handle_insert fuel now s p msg)
  | Some VSO_PROMOTE => done (handle_promote now s p msg)
  | Some VSO_MOVE => done (handle_come_closer s p msg)
  | Some VSO_JOINED =>
      Ok (s, if my_id p =? getGatewayID s then set_promote p (erase (from msg) (promote_requests p)) else p, msg, true)
  | Some VSO_TRANSFER => done (processTransfer now s p msg)
  | Some VSO_TRANSFER_ACK => done (handle_ack s p msg)
  | Some VSO_REQUEST => done (handle_request now s p msg)
  | Some VSO_DISCONNECT => done (handle_departure now s p msg)
  end.
End vso.
