(* ===== verification/VSOSafe.v ===== *)
(** A peer that owns objects never fails: what its host promises ([VSOPolicyLaws]), what its
    containers satisfy ([vso_inv]), and that all operations keep it. The pointers to nodes
    that the policy holds must lead to nodes when the peer hands objects over
    ([linked]); the peer itself removes nodes only with their sites ([thins]). *)

From S2P Require Import Prelude Bytes StdMap Float Serial Geometry Subscription Message VastNet VastSend.
From S2P Require Import MessageQueue QueueSafe Readable Handlers VonInterfaces VonPeer VonSafe VonLinks VSOTypes VSOPeer.
Local Open Scope Z_scope.

(** What sending and the policy leave of the host's state: the number of candidates, and
    the ids of the nodes that the policy has pointers to. *)
Class VSOPolicyLaws (S : Type) `{VONNetworkLaws S} `{!VSOPolicy S} := {
  candidates : S → nat;
  holds : S → list Z;
  send_keeps now s m r s' m' f k : sendVONMessage now s m r = Ok (s', m', f, k) →
    candidates s' = candidates s ∧ holds s' = holds s;
  mapping_keeps s id a : candidates (notifyAddressMapping s id a) = candidates s
    ∧ holds (notifyAddressMapping s id a) = holds s;
  candidate_good s l s' a : net_good s → policy_findCandidate s l = Some (s', a) →
    net_good s' ∧ (candidates s' < candidates s)%nat ∧ holds s' = holds s;
  copy_good now s t l b : net_good s →
    ∃ s' n, copyObject now s t l b = Ok (s', n) ∧ net_good s' ∧ holds s' = holds s;
  remove_good s l id : net_good s →
    let '(s', l', b) := removeObject s l id in net_good s' ∧ holds s' = holds s ∧ (l' = l ∨ l' = erase id l);
  transferred_good now s ns t l : net_good s → (t ∈ holds s → has t ns = true) →
    ∃ s' b, ownershipTransferred now s ns t l = Ok (s', b) ∧ net_good s' ∧ holds s' = holds s;
  claimed_good now s id : net_good s →
    ∃ s' b, objectClaimed now s id = Ok (s', b) ∧ net_good s' ∧ holds s' = holds s;
  joined_good now ms s o : net_good s →
    ∃ s' b, peerJoined now ms s o = Ok (s', b) ∧ net_good s' ∧ holds s' = holds s }.

(** The host's state while the policy holds the pointers [h]: a network, too *)
Section held.
Context {S : Type} `{VSOPolicyLaws S} (h : list Z).

#[program] Definition held_network : VONNetworkLaws S := {|
  net_good s := net_good s ∧ holds s = h |}.
Next Obligation.
  intros now s m r [G Eh] M. destruct (send_good now s m r G M) as (s' & m' & f & k & E & G' & C & F).
  exists s', m', f, k. splits; try done. destruct (send_keeps _ _ _ _ _ _ _ _ E). congruence.
Qed.
Next Obligation.
  intros s id a [G Eh]. split; [by apply mapping_good|]. destruct (mapping_keeps s id a). congruence.
Qed.
End held.

Section safe.
Context {S V : Type} `{VSOPolicyLaws S} `{VoronoiLaws V} (vjunk : von_uninit) (junk : vso_uninit).
Implicit Types (s : S) (p : VSOPeer V) (o : VSOSharedObject).

Record vso_inv p : Prop := mk_vso_inv {
  vi_peer : peer_inv (vp p);
  vi_objects : ordered (objects p);
  vi_leave : ordered (transfer_timeout p);
  vi_reclaim : ordered (reclaim_timeout p);
  vi_pending : ordered (transfer p);
  vi_keyed : Forall (λ x, obj_id (snd x) = fst x) (transfer p) }.

Hint Resolve Forall_set Forall_erase : vast.

Definition led s p : Prop :=
  ∀ k, k ∈ holds s → k ∈ site_ids (vp p) → has k (id2node (vp p)) = true.

(** A peer that has not joined hands nothing over. *)
Definition linked s p : Prop := idle (vp p) ∨ led s p.

Lemma VSO_new_inv s id b : vso_inv (VSO_new s id b).
Proof. split; cbn; try constructor; apply new_peer_inv. Qed.

Lemma set_vp_inv p v : vso_inv p → peer_inv v → vso_inv (set_vp p v).
Proof. intros []; by split. Qed.

Lemma isJoined_vso p : vso_inv p → vso_inv (fst (isJoined p)) ∧ site_ids (vp (fst (isJoined p))) = site_ids (vp p)
  ∧ id2node (vp (fst (isJoined p))) = id2node (vp p) ∧ my_id (fst (isJoined p)) = my_id p.
Proof.
  intros I. unfold isJoined. destruct (isJoined_inv (vp p) (vi_peer _ I)) as [I' E].
  assert (Ev : site_ids (fst (VP_isJoined (vp p))) = site_ids (vp p) ∧ id2node (fst (VP_isJoined (vp p))) = id2node (vp p)).
  { unfold VP_isJoined. cbn [fst]. by destruct (_ && _). }
  destruct (VP_isJoined (vp p)) as [v b]. cbn [fst] in *. splits; [by apply set_vp_inv|apply Ev|apply Ev|].
  unfold my_id, self_id. cbn. by rewrite E.
Qed.

Lemma isJoined_vp p : vp (fst (isJoined p)) = fst (VP_isJoined (vp p)).
Proof. unfold isJoined. by destruct (VP_isJoined (vp p)). Qed.

(** A joined peer is alive. *)
Lemma joined_live p : vso_inv p → snd (isJoined p) = true → live (vp (fst (isJoined p))).
Proof.
  intros I E. destruct (isJoined_vso p I) as [I' _]. apply inv_live; [apply I'|].
  unfold isJoined in *. destruct (VP_isJoined (vp p)) as [v b] eqn:Ev. cbn [fst snd] in *. cbn. subst b.
  unfold VP_isJoined in Ev. injection Ev as <- Eb. apply bool_decide_eq_true in Eb. by rewrite Eb.
Qed.

(** *** Shared objects *)

Lemma vso_msg_inv t : Message_inv (vso_msg t).
Proof. split; [apply Message_new_inv|done]. Qed.
Hint Resolve vso_msg_inv : core.

(** An operation on objects and timers: the VON peer stays the same. *)
Definition tended (r : outcome (S * VSOPeer V)) s p : Prop :=
  ∃ s' p', r = Ok (s', p') ∧ net_good s' ∧ holds s' = holds s ∧ vso_inv p' ∧ vp p' = vp p.

(** Sending, and what it keeps *)
Lemma send_held now s m r : net_good s → Message_inv m →
  ∃ s' m' f k, sendVONMessage now s m r = Ok (s', m', f, k) ∧ net_good s' ∧ holds s' = holds s
  ∧ same_content m m'.
Proof.
  intros G M. destruct (send_good now s m r G M) as (s' & m' & f & k & E & G' & C & F).
  exists s', m', f, k. splits; try done. by destruct (send_keeps _ _ _ _ _ _ _ _ E).
Qed.

Ltac step_held G C Eh :=
  match goal with |- context [sendVONMessage ?now ?s ?m ?r] =>
    let Gm := fresh "G" in
    destruct (send_held now s m r) as (? & ? & ? & ? & -> & Gm & Eh & C); [done|try done; auto|
    rewrite bind_ok; cbn beta iota; clear G; rename Gm into G] end.

Lemma accept_ok now s p t : vso_inv p → net_good s → tended (acceptTransfer now s p t) s p.
Proof.
  intros I G. unfold acceptTransfer. cbv zeta.
  assert (Hs : ∃ s', (if negb (old_owner t =? 0) then
         '(msg, _) ← store_int 8 (vso_msg VSO_TRANSFER_ACK) (obj_id t);
         '(s, _, _, _) ← sendVONMessage now s (addTarget msg (old_owner t)) true; Ok s
       else Ok s) = Ok s' ∧ net_good s' ∧ holds s' = holds s).
  { destruct (negb _); [|eauto]. step_store W. step_held G C Eh. eauto. }
  destruct Hs as (s' & -> & G' & Eh). rewrite bind_ok. eexists s', _. splits; [reflexivity|done|done| |done].
  destruct I. split; cbn; auto with vast.
Qed.

Lemma claim_ok now s p id o : vso_inv p → net_good s →
  ∃ s' p', claimOwnership now s p id o = Ok (s', p', owned_by o true 0 (getTimestamp now s))
  ∧ net_good s' ∧ holds s' = holds s ∧ vso_inv p' ∧ vp p' = vp p ∧ objects p' = objects p.
Proof.
  intros I G. unfold claimOwnership. destruct (claimed_good now s id G) as (s' & b & -> & G' & Eh).
  rewrite bind_ok. cbn beta iota zeta. eexists s', _. splits; [reflexivity|done|done| |done|done].
  destruct I. split; cbn; auto with vast.
Qed.

Lemma insert_ok now s p id aoi b : vso_inv p → net_good s →
  ∃ s' p' ok, insertSharedObject now s p id aoi b = Ok (s', p', ok) ∧ net_good s' ∧ holds s' = holds s
  ∧ vso_inv p' ∧ vp p' = vp p.
Proof.
  intros I G. unfold insertSharedObject. destruct (has id (objects p)); [by exists s, p, false|]. cbv zeta.
  set (p1 := set_objects p _). assert (I1 : vso_inv p1) by (destruct I; split; cbn; auto with vast).
  change (transfer p1) with (transfer p). destruct (find id (transfer p)) as [t|].
  - destruct (accept_ok now s p1 t I1 G) as (s2 & p2 & -> & G2 & Eh & I2 & E2). rewrite !bind_ok. cbn beta iota.
    eexists s2, _, true. splits; [reflexivity|done|done| |exact E2].
    destruct I2. split; cbn; auto with vast.
  - rewrite bind_ok. cbn beta iota. eexists s, _, true. splits; [reflexivity|done|done| |done].
    destruct I1. split; cbn; auto with vast.
Qed.

Lemma update_ok now s p id aoi b : vso_inv p → vso_inv (fst (updateSharedObject now s p id aoi b))
  ∧ vp (fst (updateSharedObject now s p id aoi b)) = vp p.
Proof.
  intros I. unfold updateSharedObject. destruct (find id (objects p)) as [o|]; [|done]. cbn [fst].
  split; [|done]. destruct I. split; cbn; auto with vast.
Qed.

Lemma request_ok now s p t l : vso_inv p → net_good s → tended (requestObjects now s p t l) s p.
Proof.
  intros I G. unfold requestObjects. cbv zeta. destruct (filter _ l) as [|i r] eqn:E; [by exists s, p|].
  step_store W. match goal with |- context [store_ids ?m ?l] => destruct (store_ids_ok m l W) as (w & -> & Mw) end.
  rewrite bind_ok. step_held G C Eh. eexists _, _. splits; [reflexivity|done|done| |done]. destruct I. by split.
Qed.

(** *** Positions *)

Lemma peer_cases (v : VONPeer V) : peer_inv v → (vstate v = ABSENT ∧ pneighbors v = []) ∨ live v.
Proof.
  intros I. destruct (bool_decide_reflect (vstate v = ABSENT)) as [E|E]; [left|right; by apply inv_live].
  split; [done|]. destruct I as [C A]. rewrite bool_decide_eq_true_2 in A by done. by apply absent_neighbors, A.
Qed.

Lemma neighbor_asks (v : VONPeer V) : peer_inv v → pneighbors v = [] ∨ asks v.
Proof. intros I. destruct (peer_cases v I) as [[_ E]|L]; [by left|right; by apply live_asks]. Qed.

Lemma closest_from_ok (v : VONPeer V) pos c d l : core v → incl l (pneighbors v) →
  ∃ k, closest_from v pos c d l = Ok k ∧ (k = c ∨ k ∈ l).
Proof.
  intros C. revert c d. induction l as [|k l IH]; intros c d Hl; cbn [closest_from]; [eauto|].
  destruct (pointee_ok v k C) as (n & -> & En); [apply list_elem_of_In, Hl; by left|]. rewrite bind_ok. cbv zeta.
  assert (Hl' : incl l (pneighbors v)) by (intros y Hy; apply Hl; by right).
  destruct (SpecFloat.SFltb _ _).
  - destruct (IH (node_id n) (f64_of_f32 (distance pos (center (node_aoi n)))) Hl') as (k' & E & [-> |Hk]).
    + exists (node_id n). split; [done|right]. rewrite En. left.
    + exists k'. split; [done|right; by right].
  - destruct (IH c d Hl') as (k' & E & [-> |Hk]); [by exists c; split; [|left]|exists k'; split; [done|right; by right]].
Qed.

(** What is closest is a neighbor, and not the peer itself. *)
Lemma getClosest_ok p pos : vso_inv p →
  ∃ k, getClosestEnclosing p pos = Ok k ∧ (k = 0 ∨ k ∈ tail (pneighbors (vp p))).
Proof.
  intros I. assert (C := proj1 (vi_peer _ I)). unfold getClosestEnclosing.
  destruct (pneighbors (vp p)) as [|k0 [|k l]] eqn:E; [eauto..|]. cbn [tail].
  destruct (pointee_ok (vp p) k C) as (n & -> & En); [rewrite E; right; left|].
  destruct l as [|k2 l]; rewrite bind_ok; [exists (node_id n); split; [done|right; rewrite En; left]|].
  destruct (closest_from_ok (vp p) pos (node_id n) (f64_of_f32 (distance pos (center (node_aoi n)))) (k2 :: l) C)
    as (x & -> & Hx).
  { rewrite E. intros y Hy. right. by right. }
  exists x. split; [done|right]. destruct Hx as [-> |Hx]; [rewrite En; left|by right].
Qed.

Lemma overlapped_ok (v : VONPeer V) aoi c l : core v → l = [] ∨ asks v → incl l (pneighbors v) →
  ∃ r, overlapped v aoi c l = Ok r.
Proof.
  intros C Ha. induction l as [|k l IH]; intros Hl; cbn [overlapped]; [eauto|]. destruct Ha as [|[Iv Hs]]; [done|].
  destruct (pointee_ok v k C) as (n & -> & _); [apply list_elem_of_In, Hl; by left|]. rewrite bind_ok. cbv zeta.
  destruct IH as (r & IH); [by right|intros y Hy; apply Hl; by right|]. destruct (node_id n =? _); [eauto|].
  destruct (negb _ && _); [rewrite bind_ok, IH; eauto|].
  match goal with |- context [vor_overlaps ?v ?i ?c ?r ?b] => destruct (overlaps_ok v i c r b Iv Hs) as (x & ->) end.
  rewrite bind_ok, IH. eauto.
Qed.

Lemma legal_ok (v : VONPeer V) pos b l : core v → incl l (pneighbors v) → ∃ k, legal_among v pos b l = Ok k.
Proof.
  intros C. induction l as [|k l IH]; intros Hl; cbn [legal_among]; [eauto|].
  destruct (pointee_ok v k C) as (n & -> & _); [apply list_elem_of_In, Hl; by left|]. rewrite bind_ok.
  destruct IH as (r & IH); [intros y Hy; apply Hl; by right|]. destruct (_ && _); [eauto|].
  destruct (SpecFloat.SFltb _ _); eauto.
Qed.

(** *** The tasks of a cycle *)

Lemma neighbors_of_ok p l ups : vso_inv p →
  ∃ l' ups' n, neighbors_of_objects p l ups = Ok (l', ups', n) ∧ fst <$> l' = fst <$> l.
Proof.
  intros I. assert (C := proj1 (vi_peer _ I)). revert ups. induction l as [|[id o] l IH]; intros ups; cbn [neighbors_of_objects]; [eauto|].
  destruct (getClosest_ok p (center (so_aoi o)) I) as (c & -> & _). rewrite bind_ok. cbv zeta. cbn [so_owner so_aoi].
  assert (Hn : ∃ ns, (if so_owner o then getOverlappedNeighbors p (so_aoi o) c else Ok []) = Ok ns).
  { destruct (so_owner o); [|eauto]. apply overlapped_ok; [done|apply neighbor_asks, I|apply incl_refl]. }
  destruct Hn as (ns & ->). rewrite bind_ok. match goal with |- context [neighbors_of_objects p l ?u] => destruct (IH u) as (l' & u' & n & -> & E) end.
  rewrite bind_ok. cbn beta iota. eexists _, _, _. split; [reflexivity|]. cbn. by rewrite E.
Qed.

Lemma copy_all_ok now s ups : net_good s → ∃ s', copy_all now s ups = Ok s' ∧ net_good s' ∧ holds s' = holds s.
Proof.
  revert s. induction ups as [|[k ids] ups IH]; intros s G; cbn [copy_all]; [eauto|].
  destruct (copy_good now s k ids true G) as (s1 & n & -> & G1 & E1). rewrite bind_ok. cbn beta iota.
  destruct (IH s1 G1) as (s2 & -> & G2 & E2). exists s2. splits; [done|done|congruence].
Qed.

Lemma check_updates_ok now s p : vso_inv p → net_good s →
  ∃ s' p' n, checkUpdateToNeighbors now s p = Ok (s', p', n) ∧ net_good s' ∧ holds s' = holds s ∧ vso_inv p' ∧ vp p' = vp p.
Proof.
  intros I G. unfold checkUpdateToNeighbors. destruct (neighbors_of_ok p (objects p) [] I) as (l & u & n & -> & El).
  rewrite bind_ok. cbn beta iota. destruct (copy_all_ok now s u G) as (s' & -> & G' & Eh). rewrite bind_ok.
  eexists s', _, n. splits; [reflexivity|done|done| |done]. destruct I as [Ip Io]. split; cbn; try done.
  by apply (ordered_keys (objects p)).
Qed.

Lemma remove_objects_ok s l ids : net_good s → ordered l →
  net_good (fst (remove_objects s l ids)) ∧ holds (fst (remove_objects s l ids)) = holds s
  ∧ ordered (snd (remove_objects s l ids)).
Proof.
  revert s l. induction ids as [|i ids IH]; intros s l G O; cbn [remove_objects]; [done|].
  pose proof (remove_good s l i G) as Hr. destruct (removeObject s l i) as [[s1 l1] b].
  destruct Hr as (G1 & E1 & Hl). assert (O1 : ordered l1) by (destruct Hl as [-> | ->]; auto with vast).
  destruct (IH s1 l1 G1 O1) as (G2 & E2 & O2). splits; [done|congruence|done].
Qed.

Lemma periodic_ok now ms s p : vso_inv p → net_good s →
  let '(s', p') := VSO_periodic now ms s p in
  net_good s' ∧ holds s' = holds s ∧ vso_inv p' ∧ vp p' = vp p.
Proof.
  intros I G. unfold VSO_periodic. cbv zeta. destruct (_ <=? _); [|done].
  set (p1 := towards_load _). assert (I1 : vso_inv p1 ∧ vp p1 = vp p).
  { unfold p1, towards_load. destruct (is_static _); [|destruct (getLoadCenter _)]; (split; [|done]); destruct I; by split. }
  destruct I1 as [I1 E1]. unfold refreshObjects. cbv zeta.
  match goal with |- context [remove_objects ?s ?l ?i] => destruct (remove_objects_ok s l i G (vi_objects _ I1)) as (G2 & E2 & O2);
    destruct (remove_objects s l i) as [s2 l2] end.
  cbn [fst snd] in *. splits; [done|done| |done]. destruct I1. by split.
Qed.

Lemma announce_ok now ms s p : vso_inv p → net_good s →
  ∃ s' p', announce_joined now ms s p = Ok (s', p') ∧ net_good s' ∧ holds s' = holds s ∧ vso_inv p'
  ∧ thins (vp p) (vp p') ∧ my_id p' = my_id p.
Proof.
  intros I G. unfold announce_joined. pose proof (thins_joined (vp p)) as T.
  destruct (bool_decide _); [|by exists s, p; splits; try done; apply thins_refl].
  destruct (isJoined_vso p I) as (I1 & _ & _ & E3). rewrite <- isJoined_vp in T.
  destruct (isJoined p) as [p1 [|]]; cbn [fst] in *; [|by exists s, p1].
  destruct (joined_good now ms s (node_id (origin p1)) G) as (s1 & b & -> & G1 & Eh). rewrite bind_ok. cbn beta iota.
  step_held G1 C Eh1. eexists _, _. splits; [reflexivity|done|congruence| |exact T|done].
  destruct I1. by split.
Qed.

Lemma set_timers_inv p t r : vso_inv p → ordered t → ordered r → vso_inv (set_timers p t r).
Proof. intros []; by split. Qed.

Lemma leave_ok t ms s p id o : vso_inv p → sites (voronoi (vp p)) ≠ [] →
  let '(p', o', tr) := leave_region t ms s p id o in
  vso_inv p' ∧ vp p' = vp p ∧ (∀ x, tr = Some x → new_owner x ∈ site_ids (vp p)).
Proof.
  intros I Hs. unfold leave_region. destruct (find id (transfer_timeout p)) as [d|]; cbv zeta.
  - destruct (_ && _); [|by splits]. splits; [|done|].
    + apply set_timers_inv; [done|apply ordered_erase, I|apply I].
    + intros x [= <-]. cbn. apply closest_ok; [apply (vi_peer _ I)|done].
  - splits; [|done|done]. apply set_timers_inv; [done|apply ordered_set, I|apply I].
Qed.

Lemma enter_ok now t ms s p id o : vso_inv p → net_good s →
  ∃ s' p' o', enter_region now t ms s p id o = Ok (s', p', o') ∧ net_good s' ∧ holds s' = holds s
  ∧ vso_inv p' ∧ vp p' = vp p ∧ objects p' = objects p.
Proof.
  intros I G. unfold enter_region. cbv zeta. set (p1 := set_timers p _ _).
  assert (I1 : vso_inv p1) by (apply set_timers_inv; [done|apply I|apply ordered_set, I]).
  destruct (_ <=? _); [|by exists s, p1, o]. destruct (claim_ok now s p1 id o I1 G) as (s' & p' & -> & G' & Eh & I' & Ev & Eo).
  by exists s', p', (owned_by o true 0 (getTimestamp now s)).
Qed.

Lemma check_object_ok now ms s p id o : vso_inv p → live (vp p) → net_good s →
  ∃ s' p' o' tr, check_object now ms s p id o = Ok (s', p', o', tr) ∧ net_good s' ∧ holds s' = holds s
  ∧ vso_inv p' ∧ vp p' = vp p ∧ (∀ x, tr = Some x → new_owner x ∈ site_ids (vp p)).
Proof.
  intros I L G. unfold check_object. cbv zeta. pose proof (live_asks _ L) as [Iv Hs].
  destruct (contains_ok (voronoi (vp p)) (my_id p) (center (so_aoi o)) Iv Hs) as (b & ->). rewrite bind_ok.
  match goal with |- context [?m ≫= _] => assert (Hm : ∃ s1 p1 o1 tr, m = Ok (s1, p1, o1, tr)
    ∧ net_good s1 ∧ holds s1 = holds s ∧ vso_inv p1 ∧ vp p1 = vp p ∧ (∀ x, tr = Some x → new_owner x ∈ site_ids (vp p))) end.
  { destruct b; cbn [negb]; destruct (so_owner o).
    - eexists s, _, o, None. splits; [reflexivity|done|done| |done|done].
      apply set_timers_inv; [done|apply ordered_erase, I|apply I].
    - destruct (enter_ok now (getTimestamp now s) ms s p id o I G) as (s1 & p1 & o1 & -> & G1 & Eh & I1 & Ev & _).
      rewrite bind_ok. by exists s1, p1, o1, None.
    - pose proof (leave_ok (getTimestamp now s) ms s p id o I Hs) as Hl.
      destruct (leave_region _ _ _ _ _ _) as [[p1 o1] tr]. destruct Hl as (I1 & E1 & Ht). by exists s, p1, o1, tr.
    - eexists s, _, o, None. splits; [reflexivity|done|done| |done|done].
      apply set_timers_inv; [done|apply I|apply ordered_erase, I]. }
  destruct Hm as (s1 & p1 & o1 & tr & -> & G1 & Eh1 & I1 & Ev1 & Ht). rewrite bind_ok. cbn beta iota.
  destruct (_ && _).
  - destruct (claim_ok now s1 p1 id o1 I1 G1) as (s2 & p2 & -> & G2 & Eh2 & I2 & Ev2 & _). rewrite bind_ok. cbn beta iota.
    eexists s2, p2, _, tr. splits; [reflexivity|done|congruence|done|congruence|done].
  - rewrite bind_ok. cbn beta iota. by exists s1, p1, o1, tr.
Qed.

Lemma check_objects_ok now ms s p l trs : vso_inv p → live (vp p) → net_good s →
  Forall (λ x, fst x ∈ site_ids (vp p)) trs →
  ∃ s' p' l' trs', check_objects now ms s p l trs = Ok (s', p', l', trs') ∧ net_good s' ∧ holds s' = holds s
  ∧ vso_inv p' ∧ vp p' = vp p ∧ fst <$> l' = fst <$> l ∧ Forall (λ x, fst x ∈ site_ids (vp p)) trs'.
Proof.
  revert s p trs. induction l as [|[id o] l IH]; intros s p trs I L G F; cbn [check_objects].
  { by exists s, p, [], trs. }
  destruct (check_object_ok now ms s p id o I L G) as (s1 & p1 & o1 & tr & -> & G1 & Eh1 & I1 & Ev1 & Ht).
  rewrite bind_ok. cbv beta iota zeta.
  match goal with |- context [check_objects now ms s1 p1 l ?t] => destruct (IH s1 p1 t) as (s2 & p2 & l2 & t2 & -> & G2 & Eh2 & I2 & Ev2 & El & F2);
    [done|by rewrite Ev1|done| |] end.
  { rewrite Ev1. destruct tr as [x|]; [|done]. apply Forall_set; [by apply Ht|done]. }
  rewrite bind_ok. cbn beta iota. eexists s2, p2, _, t2. splits; [reflexivity|done|congruence|done|congruence| |].
  - cbn. by rewrite El.
  - by rewrite Ev1 in F2.
Qed.

Lemma store_transfers_ok msg l : Message_inv msg → ∃ m', store_transfers msg l = Ok m' ∧ Message_inv m'.
Proof.
  revert msg. induction l as [|x l IH]; intros msg M; cbn [store_transfers]; [eauto|].
  step_store W. by apply IH.
Qed.

Lemma send_transfers_ok now s p msg trs : live (vp p) → net_good s → Message_inv msg → led s p →
  Forall (λ x, fst x ∈ site_ids (vp p)) trs →
  ∃ s' k, send_transfers now s p msg trs = Ok (s', k) ∧ net_good s' ∧ holds s' = holds s.
Proof.
  intros L. revert s msg. induction trs as [|[t l] trs IH]; intros s msg G M K F; cbn [send_transfers]; [eauto|].
  apply Forall_cons in F as [Ft F]. cbv zeta. step_store W; [by apply clear_inv|].
  match goal with |- context [store_transfers ?m ?l] => destruct (store_transfers_ok m l W) as (w & -> & Mw) end.
  rewrite bind_ok. match goal with |- context [copyObject now s t ?l false] => destruct (copy_good now s t l false G) as (s1 & n & -> & G1 & E1) end.
  rewrite bind_ok. cbn beta iota.
  match goal with |- context [ownershipTransferred now s1 ?ns t ?l] =>
    destruct (transferred_good now s1 ns t l G1) as (s2 & b & -> & G2 & E2); [rewrite E1; intros Hin; by apply K|] end.
  rewrite bind_ok. cbn beta iota. destruct (ens_ok (vp p) (my_id p) (live_asks _ L)) as (ens & ->). rewrite bind_ok.
  step_held G2 C E3. match goal with |- context [send_transfers now ?s3 p ?m trs] => destruct (IH s3 m) as (s4 & k & -> & G4 & E4);
    [done|apply C| |done|] end.
  { intros i Hi. apply K. congruence. }
  rewrite bind_ok. eexists s4, _. splits; [reflexivity|done|congruence].
Qed.

Lemma ownership_ok now ms s p : vso_inv p → net_good s → linked s p →
  ∃ s' p' k, checkOwnershipTransfer now ms s p = Ok (s', p', k) ∧ net_good s' ∧ holds s' = holds s ∧ vso_inv p'
  ∧ thins (vp p) (vp p') ∧ my_id p' = my_id p.
Proof.
  intros I G K. unfold checkOwnershipTransfer. destruct (isJoined_vso p I) as (I1 & E1 & E2 & E3).
  pose proof (joined_live p I) as L. pose proof (thins_joined (vp p)) as T. rewrite <- isJoined_vp in T.
  assert (Kj : snd (isJoined p) = true → led s p).
  { destruct K as [K|K]; [|done]. unfold idle in K. unfold isJoined. by destruct (VP_isJoined (vp p)) as [v b]; cbn in *; subst b. }
  destruct (isJoined p) as [p1 [|]]; cbn [fst snd negb] in *; [|by exists s, p1, 0].
  specialize (L eq_refl). specialize (Kj eq_refl). destruct (check_objects_ok now ms s p1 (objects p1) [] I1 L G) as (s2 & p2 & l2 & t2 & -> & G2 & Eh2 & I2 & Ev2 & El & F2); [done|].
  rewrite bind_ok. cbv beta iota zeta. set (p3 := set_objects p2 l2).
  assert (Ev3 : vp p3 = vp p1) by done. rewrite <- Ev3 in L, F2.
  destruct (send_transfers_ok now s2 p3 (Message_new (vso_code VSO_TRANSFER) 0) t2) as (s3 & k & -> & G3 & Eh3);
    [exact L|exact G2|split; [apply Message_new_inv|done]| |exact F2|].
  { intros i Hi Hsi. rewrite Ev3, E2. apply Kj; [congruence|]. rewrite <- E1. by rewrite Ev3 in Hsi. }
  rewrite bind_ok. cbn beta iota. exists s3, p3, k. splits; [done|done|congruence| |by rewrite Ev3|].
  - destruct I2. split; cbn; try done. apply (ordered_keys (objects p1)); [done|apply I1].
  - unfold my_id in *. by rewrite Ev3.
Qed.

Lemma linked_thins s s' p p' : holds s' = holds s → thins (vp p) (vp p') → linked s p → linked s' p'.
Proof.
  intros E [Ti T] [K|K]; [left; auto|right]. intros k Hk Hs. rewrite E in Hk. destruct (T k Hs) as [Hs' Hn]. auto.
Qed.

Lemma linked_same s s' p p' : holds s' = holds s → vp p' = vp p → linked s p → linked s' p'.
Proof. intros E Ev. apply linked_thins; [done|]. rewrite Ev. apply thins_refl. Qed.

Lemma set_newpos_inv p n : vso_inv p → vso_inv (set_newpos p n).
Proof. intros []; by split. Qed.

Lemma peer_self (v : VONPeer V) n : peer_inv v → node_id n = self_id v → peer_inv (with_self v n).
Proof.
  intros [C A] E. split; [by apply with_self_core|]. unfold away, alive, self_id in *. cbn. by rewrite E.
Qed.

Lemma move_position_ok now s p : vso_inv p → net_good s → linked s p →
  outcome_sat diverges (λ '(s', p'), net_good s' ∧ holds s' = holds s ∧ vso_inv p' ∧ linked s' p' ∧ my_id p' = my_id p)
    (movePeerPosition now s p).
Proof.
  intros I G K. unfold movePeerPosition. destruct (Position_eqb _ _); [by cbn|]. cbv zeta.
  set (p1 := adjustPeerRadius p). assert (I1 : vso_inv p1) by by apply set_newpos_inv.
  change (vp p1) with (vp p). destruct (VP_move now s (vp p) (node_aoi (newpos p1)) 0) as [[[s2 v] a]|f] eqn:E.
  - pose proof (VP_move_ok (H0 := held_network (holds s)) now s (vp p) (node_aoi (newpos p1)) 0 (vi_peer _ I)) as Hm.
    rewrite E in Hm. destruct Hm as ((G2 & Eh) & I2 & Ei & _); [by split|]. rewrite bind_ok. cbn [outcome_sat].
    pose proof (thins_move _ _ _ _ _ _ _ _ (vi_peer _ I) E) as T.
    splits; [done|done| | |exact Ei].
    + apply set_newpos_inv, set_vp_inv; [done|]. by apply peer_self.
    + eapply linked_thins; [exact Eh| |exact K]. eapply thins_trans; [exact T|]. by apply thins_same.
  - pose proof (VP_move_ok now s (vp p) (node_aoi (newpos p1)) 0 (vi_peer _ I) G) as Hm. by rewrite E in Hm.
Qed.

(** A cycle never fails; the only way not to return is the search for a free position. *)
Lemma VSO_tick_ok now ms s p : vso_inv p → net_good s → linked s p →
  outcome_sat diverges (λ '(s', p'), net_good s' ∧ holds s' = holds s ∧ vso_inv p' ∧ linked s' p' ∧ my_id p' = my_id p)
    (VSO_tick now ms s p).
Proof.
  intros I G K. unfold VSO_tick.
  destruct (VP_tick_ok (H0 := held_network (holds s)) now ms s (vp p) (vi_peer _ I)) as (s1 & v1 & E1 & [G1 Eh1] & I1 & Ei1); [by split|].
  pose proof (thins_tick now ms s (vp p) s1 v1 (vi_peer _ I) G E1) as T1. rewrite E1, bind_ok. cbn beta iota.
  pose proof (set_vp_inv p v1 I I1) as J1. assert (K1 : linked s1 (set_vp p v1)) by by eapply linked_thins.
  destruct (announce_ok now ms s1 (set_vp p v1) J1 G1) as (s2 & p2 & -> & G2 & Eh2 & J2 & T2 & Ei2).
  rewrite bind_ok. cbn beta iota. assert (K2 : linked s2 p2) by by eapply linked_thins.
  pose proof (periodic_ok now ms s2 p2 J2 G2) as Hp. destruct (VSO_periodic now ms s2 p2) as [s3 p3].
  destruct Hp as (G3 & Eh3 & J3 & Ev3). assert (K3 : linked s3 p3) by by by apply (linked_same s2 s3 p2 p3).
  eapply sat_bind; [by apply move_position_ok|]. intros [s4 p4] (G4 & Eh4 & J4 & K4 & Ei4).
  destruct (ownership_ok now ms s4 p4 J4 G4 K4) as (s5 & p5 & k5 & -> & G5 & Eh5 & J5 & T5 & Ei5).
  rewrite bind_ok. cbn beta iota. assert (K5 : linked s5 p5) by by eapply linked_thins.
  destruct (check_updates_ok now s5 p5 J5 G5) as (s6 & p6 & k6 & -> & G6 & Eh6 & J6 & Ev6).
  rewrite bind_ok. cbn [outcome_sat]. splits; [done|congruence|done| |].
  - by apply (linked_same s5 s6 p5 p6).
  - unfold my_id in *. rewrite Ev6, Ei5, Ei4, Ev3, Ei2. exact Ei1.
Qed.

(** *** The messages *)

Definition vso_handled (r : outcome (S * VSOPeer V * Message)) s p : Prop :=
  ∃ s' p' m', r = Ok (s', p', m') ∧ net_good s' ∧ holds s' = holds s ∧ vso_inv p' ∧ my_id p' = my_id p ∧ Message_inv m'.

Lemma von_handle_ok now s p msg : vso_inv p → net_good s → Message_inv msg → decent vjunk (my_id p) msg →
  ∃ s' p' m' ok, von_handle vjunk now s p msg = Ok (s', p', m', ok)
  ∧ net_good s' ∧ holds s' = holds s ∧ vso_inv p' ∧ my_id p' = my_id p ∧ Message_inv m'.
Proof.
  intros I G M D. unfold von_handle.
  destruct (VP_handle_ok (H0 := held_network (holds s)) vjunk now s (vp p) msg (vi_peer _ I)) as (s' & v & m' & ok & -> & [G' Eh] & I' & Es & _ & M');
    [by split|done|apply D|right; apply D|].
  rewrite bind_ok. cbn beta iota. exists s', (set_vp p v), m', ok. splits; [done|done|done|by apply set_vp_inv| |done].
  unfold my_id, self_id. cbn. by rewrite Es.
Qed.

(** The loop of the gateway ends: each turn that goes on uses up a candidate. *)
Lemma promote_one_ok fuel now s p fr level pos (og : Node) : vso_inv p → net_good s → (candidates s ≤ fuel)%nat →
  ∃ s' p', promote_one fuel now s p fr level pos og = Ok (s', p') ∧ net_good s' ∧ holds s' = holds s ∧ vso_inv p'
  ∧ vp p' = vp p.
Proof.
  intros I. revert s. induction fuel as [|fuel IH]; intros s G Hf; cbn [promote_one];
    (destruct (policy_findCandidate s level) as [[s1 a]|] eqn:Ec; [|by exists s, p]);
    destruct (candidate_good s level s1 a G Ec) as (G1 & Hc & Eh1); [lia|].
  step_store W. step_store W1. cbv zeta.
  pose proof (mapping_good s1 (host_id a) a G1) as G2. destruct (mapping_keeps s1 (host_id a) a) as [Ec2 Eh2].
  set (s2 := notifyAddressMapping s1 (host_id a) a) in *.
  match goal with |- context [sendVONMessage now s2 ?m true] =>
    destruct (send_good now s2 m true G2) as (s3 & m3 & f3 & k3 & E3 & G3 & _); [by apply addTarget_inv|] end.
  destruct (send_keeps _ _ _ _ _ _ _ _ E3) as [Ec3 Eh3]. rewrite E3, bind_ok. cbn beta iota.
  destruct (_ <? _).
  - eexists s3, _. splits; [reflexivity|done|congruence| |done]. destruct I. by split.
  - destruct (IH s3 G3) as (s4 & p4 & -> & G4 & E4 & I4 & V4); [lia|]. exists s4, p4. splits; try done. congruence.
Qed.

Lemma insert_msg_ok fuel now s p msg : vso_inv p → net_good s → Message_inv msg → (candidates s ≤ fuel)%nat →
  vso_handled (handle_insert junk fuel now s p msg) s p.
Proof.
  intros I G M Hf. unfold handle_insert. destruct (negb _); [by exists s, p, msg|].
  step_read R. step_read R1. step_read R2.
  match goal with |- context [promote_one fuel now s p ?f ?l ?q ?o] => destruct (promote_one_ok fuel now s p f l q o I G Hf) as (s1 & p1 & -> & G1 & E1 & I1 & V1) end.
  rewrite bind_ok. eexists s1, p1, _. splits; [reflexivity|done|done|done|by unfold my_id; rewrite V1|apply R2].
Qed.

Lemma VSO_join_ok now s p aoi (og : Node) b : vso_inv p → net_good s →
  ∃ s' p', VSO_join now s p aoi og b = Ok (s', p') ∧ net_good s' ∧ holds s' = holds s ∧ vso_inv p' ∧ my_id p' = my_id p.
Proof.
  intros I G. unfold VSO_join. cbv zeta.
  destruct (VP_join_ok (H0 := held_network (holds s)) now s (vp p) aoi og (vi_peer _ I)) as (s' & v & E & [G' Eh] & I' & Es); [by split|].
  cbn [vp set_newpos]. rewrite E, bind_ok. cbn beta iota. eexists s', _. splits; [reflexivity|done|done| |exact Es].
  destruct I. by split.
Qed.

Lemma vso_promote_ok now s p msg : vso_inv p → net_good s → Message_inv msg → vso_handled (handle_promote now s p msg) s p.
Proof.
  intros I G M. unfold handle_promote. destruct (negb _); [by exists s, p, msg|].
  step_read R. step_read R1.
  match goal with |- context [VSO_join now s p ?a ?o ?b] => destruct (VSO_join_ok now s p a o b I G) as (s1 & p1 & -> & G1 & E1 & I1 & V1) end.
  rewrite bind_ok. eexists s1, p1, _. splits; [reflexivity|done|done|done|done|apply R1].
Qed.

(** The diagram answers whether a node is an enclosing neighbor, even that of a peer that has
    not joined. *)
Lemma enclosing_inv (v : VONPeer V) id c : peer_inv v →
  ∃ b, vor_is_enclosing (voronoi v) id c = Ok b ∧ (b = true → ∃ q, vor_get (voronoi v) id = Ok q).
Proof.
  intros I. assert (Iv := co_vor _ (proj1 I)).
  assert (Hg : vor_is_enclosing (voronoi v) id c = Ok true → ∃ q, vor_get (voronoi v) id = Ok q).
  { intros E. pose proof (enclosing_site (voronoi v) id c Iv E) as Hin. apply list_elem_of_fmap in Hin as ([k q] & -> & Hin).
    exists q. by apply get_ok. }
  assert (Ha : voronoi v = vor_empty ∨ sites (voronoi v) ≠ []).
  { destruct (bool_decide_reflect (vstate v = ABSENT)) as [Ea|Ea].
    - destruct I as [C A]. rewrite bool_decide_eq_true_2 in A by done. destruct A as [_ [A|[[A _]|A]]]; [destruct A|by left|right].
      intros E. rewrite E in A. by apply elem_of_nil in A.
    - right. apply alive_sites. by apply (inv_live v I Ea). }
  destruct Ha as [-> |Hs]; [rewrite enclosing_empty; by exists false|].
  destruct (enclosing_ok (voronoi v) id c Iv Hs) as (b & E). exists b. split; [done|]. intros ->. by apply Hg.
Qed.

Lemma come_closer_ok s p msg : vso_inv p → net_good s → Message_inv msg → vso_handled (handle_come_closer s p msg) s p.
Proof.
  intros I G M. unfold handle_come_closer.
  destruct (enclosing_inv (vp p) (from msg) (u64 (-1)) (vi_peer _ I)) as (b & -> & Hq). rewrite bind_ok.
  destruct b; cbn [negb]; [|by exists s, p, msg]. destruct (Hq eq_refl) as (q & Eq).
  destruct (extract_safe msg 4 false M) as (m1 & bs & k & -> & (R & (Sf & _) & _) & _); [lia|]. rewrite bind_ok. cbn beta iota. rewrite Sf, Eq, bind_ok. cbv zeta.
  match goal with |- context [isLegalPosition p ?c false] =>
    destruct (legal_ok (vp p) c false (pneighbors (vp p)) (proj1 (vi_peer _ I))) as (x & Ex); [apply incl_refl|] end.
  unfold isLegalPosition. rewrite Ex, bind_ok. eexists s, _, m1. splits; [reflexivity|done|done| | |done].
  - destruct x; [by apply set_newpos_inv|done].
  - by destruct x.
Qed.

Lemma accept_all_ok n now s p msg : vso_inv p → net_good s → Message_inv msg →
  ∃ s' p' m' r, accept_all n now s p msg = Ok (s', p', m', r) ∧ net_good s' ∧ holds s' = holds s ∧ vso_inv p'
  ∧ vp p' = vp p ∧ Message_inv m'.
Proof.
  revert s p msg. induction n as [|n IH]; intros s p msg I G M; cbn [accept_all]; [by exists s, p, msg, []|].
  destruct (extract_obj_safe msg VSOOwnerTransfer_init) as (m1 & t & j & -> & (R & _) & _); [done|vm_compute; lia|].
  rewrite bind_ok. cbv beta iota zeta. destruct (has (obj_id t) (objects p)); [|destruct (my_id p =? new_owner t)].
  - assert (Ha : tended (if my_id p =? new_owner t then acceptTransfer now s p t else Ok (s, p)) s p).
    { destruct (_ =? _); [by apply accept_ok|by exists s, p]. }
    destruct Ha as (s1 & p1 & -> & G1 & E1 & I1 & V1). rewrite bind_ok. cbn beta iota.
    destruct (IH s1 p1 m1 I1 G1 R) as (s2 & p2 & m2 & r & -> & G2 & E2 & I2 & V2 & M2).
    exists s2, p2, m2, r. splits; try done; congruence.
  - match goal with |- context [accept_all n now s ?q m1] => assert (Iq : vso_inv q) by (destruct I; split; cbn; auto with vast);
      destruct (IH s q m1 Iq G R) as (s2 & p2 & m2 & r & -> & G2 & E2 & I2 & V2 & M2) end.
    rewrite bind_ok. by exists s2, p2, m2, (obj_id t :: r).
  - by apply IH.
Qed.

Lemma transfer_ok now s p msg : vso_inv p → net_good s → Message_inv msg → vso_handled (processTransfer junk now s p msg) s p.
Proof.
  intros I G M. unfold processTransfer. destruct (isJoined_vso p I) as (I1 & _ & _ & Ei). destruct (isJoined p) as [p1 [|]]; cbn [fst negb] in *;
    [|by exists s, p1, msg].
  step_read R. match goal with |- context [accept_all ?n now s p1 ?m] => destruct (accept_all_ok n now s p1 m I1 G R) as (s2 & p2 & m2 & r & -> & G2 & E2 & I2 & V2 & M2) end.
  rewrite bind_ok. cbn beta iota. assert (Ei2 : my_id p2 = my_id p) by (unfold my_id in *; by rewrite V2).
  destruct r as [|i r]; [by exists s2, p2, m2|].
  destruct (request_ok now s2 p2 (from m2) (i :: r) I2 G2) as (s3 & p3 & -> & G3 & E3 & I3 & V3). rewrite bind_ok.
  exists s3, p3, m2. splits; try done; [congruence|]. unfold my_id in *. by rewrite V3.
Qed.

Lemma ack_ok s p msg : vso_inv p → net_good s → Message_inv msg → vso_handled (handle_ack junk s p msg) s p.
Proof.
  intros I G M. unfold handle_ack. step_read R. eexists s, _, _. splits; [reflexivity|done|done| | |exact R].
  - destruct (find _ _); [|done]. destruct I. split; cbn; auto with vast.
  - by destruct (find _ _).
Qed.

Lemma request_msg_ok now s p msg : vso_inv p → net_good s → Message_inv msg → vso_handled (handle_request junk now s p msg) s p.
Proof.
  intros I G M. unfold handle_request. step_read R.
  match goal with |- context [extract_ids ?n ?m ?i] => destruct (extract_ids_ok n m i R) as (m2 & l & -> & M2) end.
  rewrite bind_ok. cbn beta iota. destruct (copy_good now s (from m2) l false G) as (s1 & k & -> & G1 & E1). rewrite bind_ok.
  by exists s1, p, m2.
Qed.

Lemma reclaim_ordered fr l r : ordered r → ordered (reclaim_from fr l r).
Proof.
  unfold reclaim_from. revert r. induction l as [|x l IH]; intros r O; cbn [foldl]; [done|]. apply IH. destruct (_ =? _); auto with vast.
Qed.

Lemma departure_ok now s p msg : vso_inv p → net_good s → Message_inv msg → from msg ≠ my_id p →
  vso_handled (handle_departure vjunk now s p msg) s p.
Proof.
  intros I G M Df. unfold handle_departure. cbv zeta.
  match goal with |- context [von_handle vjunk now s ?q ?m] =>
    assert (Iq : vso_inv q) by (apply set_timers_inv; [done|apply I|apply reclaim_ordered, I]);
    destruct (von_handle_ok now s q m Iq G) as (s1 & p1 & m1 & ok & -> & G1 & E1 & I1 & Ei & M1); [done|split; [by intros _|done]|] end.
  rewrite bind_ok. by exists s1, p1, m1.
Qed.

Lemma of_vso_disconnect z : of_vso_code z = Some VSO_DISCONNECT → of_von_code z = Some VON_DISCONNECT.
Proof.
  unfold of_vso_code. destruct (Z.eqb_spec z 0) as [->|]; [done|]. destruct (z <? 11); [done|].
  intros E. destruct (Z.to_nat (z - 11)) as [|[|[|[|[|[|[|[|k]]]]]]]]; done.
Qed.

(** A message never makes a peer fail, except a farewell or a disconnection in its own
    name, and a list of nodes that names it. *)
Lemma VSO_handle_ok fuel now s p msg : vso_inv p → net_good s → Message_inv msg → decent vjunk (my_id p) msg →
  (candidates s ≤ fuel)%nat →
  ∃ s' p' m' ok, VSO_handleMessage vjunk junk fuel now s p msg = Ok (s', p', m', ok)
  ∧ net_good s' ∧ holds s' = holds s ∧ vso_inv p' ∧ my_id p' = my_id p ∧ Message_inv m'.
Proof.
  intros I G M D Hf. unfold VSO_handleMessage. cbv zeta.
  assert (Hd : ∀ r, vso_handled r s p → ∃ s' p' m' ok, ('(s, p, msg) ← r; Ok (s, p, msg, true)) = Ok (s', p', m', ok)
    ∧ net_good s' ∧ holds s' = holds s ∧ vso_inv p' ∧ my_id p' = my_id p ∧ Message_inv m').
  { intros r (s' & p' & m' & -> & Hr). rewrite bind_ok. by exists s', p', m', true. }
  destruct (of_vso_code (msgtype msg)) as [[]|] eqn:Et;
    first [by apply von_handle_ok|apply Hd|idtac];
    first [by apply departure_ok; [..|apply (proj1 D); right; apply of_vso_disconnect]|by apply vso_promote_ok|by apply insert_msg_ok|by apply come_closer_ok
          |by apply transfer_ok|by apply ack_ok|by apply request_msg_ok|idtac].
  eexists s, _, msg, true. splits; [reflexivity|done|done| | |done]; destruct (_ =? _); try done. destruct I. by split.
Qed.

(** *** The load *)

Lemma notify_loading_ok now ms s p level : vso_inv p → net_good s → vstate (vp p) ≠ ABSENT →
  ∃ s' p', notifyLoading now ms s p level = Ok (s', p') ∧ net_good s' ∧ holds s' = holds s ∧ vso_inv p' ∧ my_id p' = my_id p.
Proof.
  intros I G Hs. unfold notifyLoading. cbv zeta.
  assert (Hl : ∀ q c t u, vso_inv q → vso_inv (set_load q c t u)) by (intros q c t u []; by split).
  destruct (SpecFloat.SFeqb _ _); [eexists s, _; splits; [reflexivity|done|done|by apply Hl|done]|].
  set (p1 := if SpecFloat.SFltb _ _ then _ else _).
  assert (I1 : vso_inv p1 ∧ vp p1 = vp p) by (unfold p1; destruct (SpecFloat.SFltb _ _); split; try done; by apply Hl).
  destruct I1 as [I1 E1]. clearbody p1. pose proof (inv_live _ (vi_peer _ I) Hs) as L. rewrite <- E1 in L.
  assert (Ei : my_id p1 = my_id p) by (unfold my_id; by rewrite E1).
  destruct (_ && _); [|destruct (_ && _); [|destruct (_ && _); [|by exists s, p1]]].
  - unfold overloaded. cbv zeta. destruct (_ <? VSO_INSERTION_TRIGGER).
    + unfold notify_neighbors. step_store W.
      destruct (ens_ok (vp p1) (my_id p1) (live_asks _ L)) as (ens & ->). rewrite bind_ok. destruct ens as [|e ens].
      * rewrite bind_ok. eexists s, _. splits; [reflexivity|done|done|by apply Hl|done].
      * step_held G C Eh. eexists _, _. splits; [reflexivity|done|done|by apply Hl|done].
    + unfold request_insertion. destruct (getLoadCenter p1) as [c|].
      * step_store W. step_store W1. step_store W2. step_held G C Eh. eexists _, _. splits; [reflexivity|done|done|by apply Hl|done].
      * rewrite bind_ok. eexists s, _. splits; [reflexivity|done|done|by apply Hl|done].
  - unfold underloaded. cbv zeta. destruct (- VSO_INSERTION_TRIGGER <? _); [|destruct (negb _)].
    + eexists s, _. splits; [reflexivity|done|done|by apply Hl|done].
    + destruct (VP_leave_ok (H0 := held_network (holds s)) now s (vp p1) true (vi_peer _ I1)) as (s' & v & -> & [G' Eh] & I' & Es & _); [by split|].
      rewrite bind_ok. eexists s', _. splits; [reflexivity|done|done|by apply Hl, set_vp_inv|]. unfold my_id in *. cbn. by rewrite Es.
    + eexists s, _. splits; [reflexivity|done|done|by apply Hl|done].
  - eexists s, _. splits; [reflexivity|done|done|by apply Hl|done].
Qed.

(** The peer stays as it is, or leaves: its diagram stays. *)
Lemma notify_loading_peer now ms s p level s' p' : notifyLoading now ms s p level = Ok (s', p') →
  vp p' = vp p ∨ voronoi (vp p') = voronoi (vp p) ∧ pneighbors (vp p') = [] ∧ vstate (vp p') = ABSENT.
Proof.
  unfold notifyLoading. cbv zeta. destruct (SpecFloat.SFeqb _ _); [intros [= _ <-]; by left|].
  set (p1 := if SpecFloat.SFltb _ _ then _ else _).
  assert (E1 : vp p1 = vp p) by (unfold p1; by destruct (SpecFloat.SFltb _ _)). clearbody p1. rewrite <- E1.
  destruct (_ && _); [|destruct (_ && _); [|destruct (_ && _); intros [= _ <-]; by left]].
  - unfold overloaded. cbv zeta. destruct (_ <? VSO_INSERTION_TRIGGER); intros E; run_inv E; intros; left;
      apply ok2_inv in E as [_ <-]; done.
  - unfold underloaded. cbv zeta. destruct (- VSO_INSERTION_TRIGGER <? _); [intros [= _ <-]; by left|].
    destruct (negb _); [|intros [= _ <-]; by left]. intros E. run_inv E. destruct r as [s1 v]. apply ok2_inv in E as [_ <-].
    right. unfold VP_leave in E0. run_inv E0. by apply ok2_inv in E0 as [_ <-].
Qed.
End safe.
