(* ===== verification/VSOSpec.v ===== *)
(** How ownership of an object moves between the peers: one check of the owned objects
    treats each object by itself, according to a small machine ([own_turn]); what is handed
    over is exactly what the messages of the check carry; a transfer that is received and
    acknowledged leaves one owner. What the peer sends and asks its host for is observed
    on a host that records it ([vhost]). *)

From S2P Require Import Prelude Bytes StdMap Float Serial Geometry Subscription Message VastNet VastSend.
From S2P Require Import MessageQueue QueueSafe Readable Handlers Built VonInterfaces VonPeer VonSafe VonSpec VonLinks.
From S2P Require Import VSOTypes VSOPeer VSOSafe.
Local Open Scope Z_scope.

(** *** A host that records *)

Inductive policy_call :=
  | AskedCandidate (level : Z) | CopyAsked (target : Z) (ids : list Z) (update : bool) | Removed (id : Z)
  | Transferred (target : Z) (ids : list Z) | Claimed (id : Z) | JoinedFrom (origin : Z).

(** [vh_pool]: the candidates left *)
Record vhost := mkHost { vh_net : trace; vh_pool : list Addr; vh_gateway : Z; vh_log : list policy_call; vh_links : list Z }.

Definition with_vnet (s : vhost) (n : trace) : vhost := mkHost n (vh_pool s) (vh_gateway s) (vh_log s) (vh_links s).

Definition record_call (s : vhost) (c : policy_call) : vhost :=
  mkHost (vh_net s) (vh_pool s) (vh_gateway s) (vh_log s ++ [c]) (vh_links s).

#[export] Instance vhost_network : VONNetwork vhost := {
  sendVONMessage now s m r := Ok (with_vnet s (record_sent (vh_net s) m r), m, [], Z.of_nat (length (targets m)));
  notifyAddressMapping s id a := with_vnet s (notifyAddressMapping (vh_net s) id a);
  getHostAddress s := tr_addr (vh_net s);
  getTimestamp now _ := now;
  getTimestampPerSecond s := tr_rate (vh_net s) }.

#[export] Program Instance vhost_laws : VONNetworkLaws vhost := { net_good _ := True }.
Next Obligation.
  intros now s m r _ M. eexists _, m, [], _. split; [reflexivity|]. split; [done|].
  split; [unfold same_content; splits; done|apply incl_nil_l].
Qed.
Next Obligation. done. Qed.

#[export] Instance vhost_policy : VSOPolicy vhost := {
  policy_findCandidate s level :=
    match vh_pool s with
    | [] => None
    | a :: l => Some (mkHost (vh_net s) l (vh_gateway s) (vh_log s ++ [AskedCandidate level]) (vh_links s), a)
    end;
  getGatewayID := vh_gateway;
  copyObject now s target ids u := Ok (record_call s (CopyAsked target ids u), Z.of_nat (length ids));
  removeObject s l id := (record_call s (Removed id), fst (deleteSharedObject l id), snd (deleteSharedObject l id));
  ownershipTransferred now s ns target ids :=
    if bool_decide (target ∈ vh_links s) && negb (has target ns) then Fail OutOfBounds
    else Ok (record_call s (Transferred target ids), true);
  objectClaimed now s id := Ok (record_call s (Claimed id), true);
  peerJoined now ms s o := Ok (record_call s (JoinedFrom o), true) }.

#[export] Program Instance vhost_policy_laws : VSOPolicyLaws vhost :=
  { candidates s := length (vh_pool s); holds := vh_links }.
Next Obligation. intros now s m r s' m' f k [= <- _ _ _]. done. Qed.
Next Obligation. done. Qed.
Next Obligation.
  intros s l s' a _. cbn. destruct (vh_pool s) as [|b r] eqn:E; [done|]. intros [= <- <-]. cbn. splits; [done|lia|done].
Qed.
Next Obligation. intros. cbn. eauto. Qed.
Next Obligation. intros. cbn. splits; [done|done|]. unfold deleteSharedObject. destruct (has id l); auto. Qed.
Next Obligation.
  intros now s ns t l _ Hk. cbn. destruct (bool_decide_reflect (t ∈ vh_links s)) as [E|E]; cbn [andb]; [|eauto].
  rewrite (Hk E). eauto.
Qed.
Next Obligation. intros. cbn. eauto. Qed.
Next Obligation. intros. cbn. eauto. Qed.

(** *** What becomes of one object *)

(** Ownership, the deadline of a transfer (0: none), and the deadlines for handing the
    object over and for claiming it *)
Record stage := mkStage { st_own : bool; st_transit : Z; st_leave : option Z; st_claim : option Z }.

Definition stage_of {V} (p : VSOPeer V) (id : Z) (o : VSOSharedObject) : stage :=
  mkStage (so_owner o) (so_transit o) (find id (transfer_timeout p)) (find id (reclaim_timeout p)).

(** A check at [now], where [k] times [T] from now is [due k]; [elsewhere] is another peer that
    is closest to the object, and [inside] tells whether the object is in the region. The
    results: the next stage, whom the object is handed to, and whether it is claimed. *)
Definition wait (now : Z) (due : Z → Z) (elsewhere : option Z) (inside : bool) (x : stage) : stage * option Z * bool :=
  if st_own x then
    if inside then (mkStage true (st_transit x) None (st_claim x), None, false) else
    match st_leave x, elsewhere with
    | None, _ => (mkStage true (st_transit x) (Some (due 1)) (st_claim x), None, false)
    | Some d, Some c => if d <=? now then (mkStage false (due 3) None (st_claim x), Some c, false) else (x, None, false)
    | Some d, None => (x, None, false)
    end
  else if inside then
    let d := default (due 5) (st_claim x) in
    if d <=? now then (mkStage true 0 (st_leave x) None, None, true)
    else (mkStage false (st_transit x) (st_leave x) (Some d), None, false)
  else (mkStage false (st_transit x) (st_leave x) None, None, false).

Definition own_turn (now : Z) (due : Z → Z) (elsewhere : option Z) (inside : bool) (x : stage) : stage * option Z * bool :=
  let '(y, c, b) := wait now due elsewhere inside x in
  if negb (st_transit y =? 0) && (st_transit y <=? now) then (mkStage true 0 (st_leave y) None, c, true) else (y, c, b).

(** The peer that is closest, if it is another *)
Definition other_closest {V} `{Voronoi V} (p : VSOPeer V) (o : VSOSharedObject) : option Z :=
  let c := vor_closest_to (voronoi (vp p)) (center (so_aoi o)) in
  if c =? my_id p then None else Some c.

Section turn.
Context {V : Type} `{VoronoiLaws V}.
Implicit Types (s : vhost) (p : VSOPeer V) (o : VSOSharedObject).

(** What a step on the object [id] leaves *)
Record only (id : Z) (s : vhost) p o (s' : vhost) p' o' : Prop := mk_only {
  on_peer : vp p' = vp p;
  on_objects : objects p' = objects p;
  on_pending : transfer p' = transfer p ∧ obj_requested p' = obj_requested p;
  on_timers : ∀ k, k ≠ id → find k (transfer_timeout p') = find k (transfer_timeout p)
                          ∧ find k (reclaim_timeout p') = find k (reclaim_timeout p);
  on_object : so_aoi o' = so_aoi o ∧ so_closest o' = so_closest o;
  on_net : vh_net s' = vh_net s;
  on_order : ordered (transfer_timeout p') ∧ ordered (reclaim_timeout p') }.

Lemma only_trans id s p o s1 p1 o1 s2 p2 o2 :
  only id s p o s1 p1 o1 → only id s1 p1 o1 s2 p2 o2 → only id s p o s2 p2 o2.
Proof.
  intros [A1 B1 [C1 C1'] D1 [E1 E1'] F1 _] [A2 B2 [C2 C2'] D2 [E2 E2'] F2 O2]. split; try done; try congruence; try (split; congruence).
  intros k Hk. destruct (D1 k Hk), (D2 k Hk). split; congruence.
Qed.

Lemma claim_turn now s p id o s' p' o' : vso_inv p → claimOwnership now s p id o = Ok (s', p', o') →
  only id s p o s' p' o' ∧ stage_of p' id o' = mkStage true 0 (find id (transfer_timeout p)) None
  ∧ vh_log s' = vh_log s ++ [Claimed id].
Proof.
  intros I. unfold claimOwnership. intros E. run_inv E. destruct r as [s1 b]. injection E0 as <- <-.
  apply ok3_inv in E as (<- & <- & <-). splits; [split; try done| |done].
  - intros k Hk. cbn. by rewrite find_erase_ne.
  - destruct I. cbn. auto with vast.
  - unfold stage_of. cbn. f_equal. apply find_erase_eq, I.
Qed.

Lemma only_refl id s p o : vso_inv p → only id s p o s p o.
Proof. intros []. by split. Qed.

(** Other timers of the same object *)
Lemma timers_only id s p o o' t r : ordered t → ordered r → so_aoi o' = so_aoi o → so_closest o' = so_closest o →
  (∀ k, k ≠ id → find k t = find k (transfer_timeout p) ∧ find k r = find k (reclaim_timeout p)) →
  only id s p o s (set_timers p t r) o'.
Proof. by split. Qed.

Lemma only_inv id s p o s' p' o' : only id s p o s' p' o' → vso_inv p → vso_inv p'.
Proof. intros [Ev Eo [Et Er] _ _ _ [O1 O2]] []. split; congruence. Qed.

Lemma wait_turn now ms s p id o inside s1 p1 o1 tr1 : vso_inv p →
  (if negb inside then
       if so_owner o then let '(p, o, tr) := leave_region now ms s p id o in Ok (s, p, o, tr)
       else Ok (s, set_timers p (transfer_timeout p) (erase id (reclaim_timeout p)), o, None)
     else
       if so_owner o then Ok (s, set_timers p (erase id (transfer_timeout p)) (reclaim_timeout p), o, None)
       else '(s, p, o) ← enter_region now now ms s p id o; Ok (s, p, o, None)) = Ok (s1, p1, o1, tr1) →
  let '(x, c, b) := wait now (λ k, deadline ms k s now) (other_closest p o) inside (stage_of p id o) in
  only id s p o s1 p1 o1 ∧ stage_of p1 id o1 = x ∧ tr1 = (λ c, mkTransfer id c (my_id p)) <$> c
  ∧ vh_log s1 = vh_log s ++ (if b then [Claimed id] else []).
Proof.
  intros I. assert (Ol := vi_leave _ I). assert (Or := vi_reclaim _ I).
  unfold wait. change (st_own (stage_of p id o)) with (so_owner o).
  destruct inside, (so_owner o) eqn:Eo; cbn [negb].
  - intros [= <- <- <- <-]. rewrite app_nil_r. splits; [|unfold stage_of; cbn; by rewrite Eo, find_erase_eq|done|done].
    apply timers_only; auto with vast. intros k Hk. by rewrite find_erase_ne.
  - unfold enter_region. cbv zeta. change (st_claim (stage_of p id o)) with (find id (reclaim_timeout p)).
    set (d := default (deadline ms 5 s now) _). set (p2 := set_timers p _ _). assert (I2 : vso_inv p2) by (apply set_timers_inv; auto with vast).
    assert (O2 : only id s p o s p2 o). { apply timers_only; auto with vast. intros k Hk. by rewrite find_set_ne. }
    destruct (d <=? now).
    + intros E. run_inv E. destruct r as [[s3 p3] o3]. injection E as <- <- <- <-.
      destruct (claim_turn _ _ _ _ _ _ _ _ I2 E0) as (O3 & Es & El). splits; [by eapply only_trans|exact Es|done|exact El].
    + rewrite bind_ok. intros [= <- <- <- <-]. rewrite app_nil_r. splits; [done| |done|done].
      unfold stage_of. cbn. by rewrite Eo, find_set_eq.
  - unfold leave_region. change (st_leave (stage_of p id o)) with (find id (transfer_timeout p)).
    destruct (find id (transfer_timeout p)) as [d|] eqn:Ed.
    + cbv zeta. unfold other_closest. cbv zeta. set (c := vor_closest_to _ _).
      destruct (Z.eqb_spec c (my_id p)); cbn [negb]; [rewrite andb_false_r|rewrite andb_true_r; destruct (d <=? now)].
      all: intros [= <- <- <- <-]; rewrite app_nil_r; splits; try done; try by apply only_refl.
      * apply timers_only; auto with vast. intros k Hk. by rewrite find_erase_ne.
      * unfold stage_of. cbn. by rewrite find_erase_eq.
    + intros [= <- <- <- <-]. rewrite app_nil_r. splits; [|unfold stage_of; cbn; by rewrite Eo, find_set_eq|done|done].
      apply timers_only; auto with vast. intros k Hk. by rewrite find_set_ne.
  - intros [= <- <- <- <-]. rewrite app_nil_r. splits; [|unfold stage_of; cbn; by rewrite Eo, find_erase_eq|done|done].
    apply timers_only; auto with vast. intros k Hk. by rewrite find_erase_ne.
Qed.

(** *** A check of all objects *)

(** Whether an object is in the region of the peer *)
Definition inside p o : bool :=
  match vor_contains (voronoi (vp p)) (my_id p) (center (so_aoi o)) with Ok b => b | Fail _ => false end.

Definition turn_of (now ms : Z) s p (x : Z * VSOSharedObject) : stage * option Z * bool :=
  own_turn now (λ k, deadline ms k s now) (other_closest p (snd x)) (inside p (snd x)) (stage_of p (fst x) (snd x)).

Definition next_stage now ms s p x : stage := fst (fst (turn_of now ms s p x)).
Definition handed_to now ms s p x : option Z := snd (fst (turn_of now ms s p x)).
Definition claimed_now now ms s p x : bool := snd (turn_of now ms s p x).

Definition hand_over p (c : option Z) (id : Z) : option VSOOwnerTransfer := (λ c, mkTransfer id c (my_id p)) <$> c.

Lemma turn_only now ms s p id o s' p' o' x : only id s p o s' p' o' → fst x ≠ id →
  turn_of now ms s' p' x = turn_of now ms s p x.
Proof.
  intros [Ev _ _ Ht _ En _] Hne. unfold turn_of, deadline, other_closest, inside, stage_of, my_id. rewrite Ev.
  cbn. rewrite En. by destruct (Ht (fst x) Hne) as [-> ->].
Qed.

Lemma wait_claimed now due e i x : snd (wait now due e i x) = true → st_transit (fst (fst (wait now due e i x))) = 0.
Proof.
  unfold wait. destruct (st_own x), i; cbn; try done; [|by destruct (_ <=? _)].
  destruct (st_leave x), e; cbn; try done. by destruct (_ <=? _).
Qed.

Lemma check_object_turn now ms s p id o s' p' o' tr : vso_inv p → check_object now ms s p id o = Ok (s', p', o', tr) →
  only id s p o s' p' o' ∧ stage_of p' id o' = next_stage now ms s p (id, o)
  ∧ tr = hand_over p (handed_to now ms s p (id, o)) id
  ∧ vh_log s' = vh_log s ++ (if claimed_now now ms s p (id, o) then [Claimed id] else []).
Proof.
  intros I. unfold check_object, next_stage, handed_to, claimed_now, turn_of, own_turn, inside. cbv zeta. cbn [fst snd].
  intros E. run_inv E. run_inv E. rewrite E0. destruct r0 as [[[s1 p1] o1] tr1].
  change (getTimestamp now s) with now in *. apply (wait_turn now ms s p id o r s1 p1 o1 tr1 I) in E1.
  match type of E1 with context [wait ?a ?d ?e ?i ?y] => pose proof (wait_claimed a d e i y) as Hw end.
  destruct (wait _ _ _ _ _) as [[x c] b]. destruct E1 as (O1 & Ex & Et & El). rewrite <- Ex.
  cbn [fst snd] in Hw. rewrite <- Ex in Hw. change (st_transit (stage_of p1 id o1)) with (so_transit o1) in *. run_inv E. destruct r0 as [[s2 p2] o2].
  injection E as <- <- <- <-. destruct (Z.eqb_spec (so_transit o1) 0) as [Hz|Hz]; cbn [negb andb] in *;
    [|destruct (so_transit o1 <=? now)].
  - apply ok3_inv in E1 as (<- & <- & <-). by cbn [fst snd].
  - pose proof (only_inv _ _ _ _ _ _ _ O1 I) as I1. destruct (claim_turn _ _ _ _ _ _ _ _ I1 E1) as (O2 & Es & El2).
    cbn [fst snd]. splits; [by eapply only_trans|exact Es|exact Et|]. rewrite El2, El.
    destruct b; [by destruct Hz; apply Hw|by rewrite app_nil_r].
  - apply ok3_inv in E1 as (<- & <- & <-). by cbn [fst snd].
Qed.

(** What a check of the objects [l] leaves of the peer: the objects, and their timers *)
Record checked (l : pool) (s : vhost) p (s' : vhost) p' : Prop := mk_checked {
  ck_inv : vso_inv p';
  ck_peer : vp p' = vp p;
  ck_objects : objects p' = objects p;
  ck_pending : transfer p' = transfer p ∧ obj_requested p' = obj_requested p;
  ck_timers : ∀ k, k ∉ fst <$> l → find k (transfer_timeout p') = find k (transfer_timeout p)
                                ∧ find k (reclaim_timeout p') = find k (reclaim_timeout p);
  ck_net : vh_net s' = vh_net s }.

(** The object [y] is what the check made of [x]. *)
Definition turned now ms s p p' (x y : Z * VSOSharedObject) : Prop :=
  fst y = fst x ∧ so_aoi (snd y) = so_aoi (snd x) ∧ so_closest (snd y) = so_closest (snd x)
  ∧ stage_of p' (fst y) (snd y) = next_stage now ms s p x.

Definition handed_list now ms s p (c : Z) (l : pool) : list VSOOwnerTransfer :=
  omap (λ x, if bool_decide (handed_to now ms s p x = Some c) then Some (mkTransfer (fst x) c (my_id p)) else None) l.

Definition claims_of now ms s p (l : pool) : list policy_call :=
  omap (λ x, if claimed_now now ms s p x then Some (Claimed (fst x)) else None) l.

Definition batches := list (Z * list VSOOwnerTransfer).

Definition batch_for (trs : batches) (c : Z) : list VSOOwnerTransfer := default [] (find c trs).

Definition add_transfer (tr : option VSOOwnerTransfer) (trs : batches) : batches :=
  match tr with Some t => set (new_owner t) (batch_for trs (new_owner t) ++ [t]) trs | None => trs end.

Lemma batch_add p h id trs c : batch_for (add_transfer (hand_over p h id) trs) c =
  batch_for trs c ++ (if bool_decide (h = Some c) then [mkTransfer id c (my_id p)] else []).
Proof.
  unfold batch_for at 1. destruct h as [h|]; cbn [hand_over option_fmap option_map fmap add_transfer].
  - change (new_owner (mkTransfer id h (my_id p))) with h. rewrite find_set. destruct (Z.eqb_spec c h) as [->|Hne].
    + by rewrite bool_decide_eq_true_2.
    + rewrite bool_decide_eq_false_2 by congruence. by rewrite app_nil_r.
  - by rewrite bool_decide_eq_false_2, app_nil_r.
Qed.

Lemma omap_in {A B} (f g : A → option B) (l : list A) : (∀ x, x ∈ l → f x = g x) → omap f l = omap g l.
Proof.
  induction l as [|x l IH]; intros E; [done|]. cbn. rewrite E by by left. rewrite IH; [done|].
  intros y Hy. apply E. by right.
Qed.

Lemma Forall2_in {A B} (R Q : A → B → Prop) (l : list A) (k : list B) :
  Forall2 R l k → (∀ x y, x ∈ l → R x y → Q x y) → Forall2 Q l k.
Proof.
  induction 1 as [|x y l k Hxy _ IH]; intros Hq; constructor; [apply Hq; [by left|done]|].
  apply IH. intros a b Ha. apply Hq. by right.
Qed.

Lemma check_objects_turn now ms s p l trs s' p' l' trs' : vso_inv p → NoDup (fst <$> l) →
  Forall (λ x, snd x ≠ []) trs → ordered trs →
  check_objects now ms s p l trs = Ok (s', p', l', trs') →
  checked l s p s' p' ∧ Forall2 (turned now ms s p p') l l'
  ∧ vh_log s' = vh_log s ++ claims_of now ms s p l
  ∧ (∀ c, batch_for trs' c = batch_for trs c ++ handed_list now ms s p c l)
  ∧ Forall (λ x, snd x ≠ []) trs' ∧ ordered trs'.
Proof.
  revert s p trs l'. induction l as [|[id o] l IH]; intros s p trs l' I D F O; cbn [check_objects].
  { intros [= <- <- <- <-]. splits; [by split|constructor|by rewrite app_nil_r| |done|done]. intros c. by rewrite app_nil_r. }
  rewrite fmap_cons in D. apply NoDup_cons in D as [Dn D]. intros E. run_inv E. destruct r as [[[s1 p1] o1] tr].
  destruct (check_object_turn _ _ _ _ _ _ _ _ _ _ I E0) as (O1 & Es & Et & El). cbv beta iota zeta in E.
  change (match tr with Some t => _ | None => trs end) with (add_transfer tr trs) in E.
  run_inv E. destruct r as [[[s2 p2] l2] t2]. injection E as -> -> <- ->.
  pose proof (only_inv _ _ _ _ _ _ _ O1 I) as I1.
  destruct (IH s1 p1 (add_transfer tr trs) l2) as (C2 & F2 & El2 & Eb & Fn & On); [done|done| | |done|].
  { destruct tr as [x|]; [|done]. apply Forall_set; [by destruct (batch_for _ _)|done]. }
  { destruct tr as [x|]; [by apply ordered_set|done]. }
  assert (Hx : ∀ x, x ∈ l → turn_of now ms s1 p1 x = turn_of now ms s p x).
  { intros x Hx. eapply turn_only; [exact O1|]. intros Ex. apply Dn. apply list_elem_of_fmap. by exists x. }
  assert (Hm : my_id p1 = my_id p) by (unfold my_id; by rewrite (on_peer _ _ _ _ _ _ _ O1)).
  splits; [| | | |done|done].
  - destruct O1 as [Ev Eo [Ep Er] Ht _ En _], C2 as [I2 Ev2 Eo2 [Ep2 Er2] Ht2 En2]. split; try congruence; [split; congruence|].
    intros k [Hk Hl]%not_elem_of_cons. destruct (Ht k Hk), (Ht2 k Hl). split; congruence.
  - constructor.
    + destruct (ck_timers _ _ _ _ _ C2 id Dn) as [T1 T2], (on_object _ _ _ _ _ _ _ O1). unfold turned. cbn [fst snd].
      splits; [done|done|done|]. rewrite <- Es. unfold stage_of. by rewrite T1, T2.
    + eapply Forall2_in; [exact F2|]. intros x y Hxl (? & ? & ? & Ey). unfold turned, next_stage in *.
      rewrite <- (Hx x Hxl). done.
  - rewrite El2, El, <- app_assoc. f_equal. unfold claims_of, claimed_now. cbn [omap list_omap fst].
    rewrite (omap_in _ (λ x, if snd (turn_of now ms s p x) then Some (Claimed (fst x)) else None)).
    + by destruct (snd _).
    + intros x Hxl. by rewrite (Hx x Hxl).
  - intros c. rewrite Eb, Et, batch_add, <- app_assoc. f_equal. unfold handed_list, handed_to. cbn [omap list_omap fst].
    rewrite (omap_in _ (λ x, if bool_decide (snd (fst (turn_of now ms s p x)) = Some c)
                               then Some (mkTransfer (fst x) c (my_id p)) else None)).
    + by destruct (bool_decide _).
    + intros x Hxl. by rewrite (Hx x Hxl), Hm.
Qed.

(** *** What is sent *)

Definition transfer_bytes (l : list VSOOwnerTransfer) : list byte :=
  le_bytes 1 (Z.of_nat (length l)) ++ concat (wire <$> l).

Lemma store_transfers_built ty g ts bs m l : built ty g ts bs m → malloc m = true →
  ∃ m', store_transfers m l = Ok m' ∧ built ty g ts (bs ++ concat (wire <$> l)) m' ∧ malloc m' = true.
Proof.
  revert bs m. induction l as [|t l IH]; intros bs m B A; cbn [store_transfers].
  { exists m. by rewrite app_nil_r. }
  destruct (store_obj_built _ _ _ _ _ t B A) as (m1 & -> & B1 & A1). rewrite bind_ok. cbn beta iota.
  destruct (IH _ _ B1 A1) as (m2 & -> & B2 & A2). exists m2. by rewrite <- app_assoc in B2.
Qed.

(** A batch and the message that carries it, to the new owner and the enclosing neighbors *)
Definition carries p (x : Z * list VSOOwnerTransfer) (m : Message * bool) : Prop :=
  snd m = true ∧ ∃ ens, vor_get_en (voronoi (vp p)) (my_id p) = Ok ens
  ∧ built (vso_code VSO_TRANSFER) 0 (if memb (fst x) ens then ens else ens ++ [fst x]) (transfer_bytes (snd x)) (fst m).

Definition told (x : Z * list VSOOwnerTransfer) : list policy_call :=
  [CopyAsked (fst x) (obj_id <$> snd x) false; Transferred (fst x) (obj_id <$> snd x)].

Lemma clear_built ty m : Message_inv m → malloc m = true → built ty 0 [] [] (set_priority (clear m ty 0 3) 1).
Proof. intros M A. destruct (clear_inv m ty 0 3 M). split; try done. Qed.

Lemma send_transfers_trace now s p msg trs s' k : Message_inv msg → malloc msg = true →
  Forall (λ x, (length (snd x) < 256)%nat) trs → send_transfers now s p msg trs = Ok (s', k) →
  ∃ ms, tr_sent (vh_net s') = tr_sent (vh_net s) ++ ms ∧ Forall2 (carries p) trs ms
  ∧ vh_log s' = vh_log s ++ concat (told <$> trs) ∧ k = Z.of_nat (length (concat (snd <$> trs))).
Proof.
  revert s msg k. induction trs as [|[t l] trs IH]; intros s msg k M A F; cbn [send_transfers].
  { intros [= <- <-]. exists []. splits; [by rewrite app_nil_r|constructor|by rewrite app_nil_r|done]. }
  apply Forall_cons in F as [Fl F]. cbn [snd] in Fl. cbv zeta.
  assert (En : u8 (Z.of_nat (length l)) = Z.of_nat (length l)) by (unfold u8; rewrite Z.mod_small; lia).
  rewrite En, Nat2Z.id, firstn_all. destruct (clear_built (vso_code VSO_TRANSFER) msg M A) as [I0 T0 G0 Ts0 C0].
  destruct (store_built _ _ _ _ _ (le_bytes 1 (Z.of_nat (length l))) (mk_built _ _ _ _ _ I0 T0 G0 Ts0 C0) eq_refl) as (m1 & E1 & B1 & A1).
  unfold store_int at 1. rewrite E1, bind_ok. cbn beta iota. clear E1.
  destruct (store_transfers_built _ _ _ _ _ l B1 A1) as (m2 & -> & B2 & A2). rewrite bind_ok.
  cbn [copyObject vhost_policy]. rewrite bind_ok. cbn beta iota. intros E. run_inv E. destruct r as [s1 b].
  assert (Es1 : vh_net s1 = vh_net s ∧ vh_log s1 = vh_log s ++ told (t, l)).
  { cbn in E0. destruct (_ && _); [done|]. injection E0 as <- _. cbn. by rewrite <- app_assoc. }
  clear E0. run_inv E. rename r into ens. revert E. cbn [sendVONMessage vhost_network]. rewrite bind_ok. cbn beta iota.
  set (m3 := addTarget (with_targets m2 ens) t). intros E. run_inv E. destruct r as [s2 n]. injection E as -> <-.
  assert (B3 : built (vso_code VSO_TRANSFER) 0 (if memb t ens then ens else ens ++ [t]) (transfer_bytes l) m3).
  { unfold m3, addTarget. change (targets (with_targets m2 ens)) with ens.
    destruct (memb t ens); repeat eapply targets_built; exact B2. }
  destruct (IH (with_vnet s1 (record_sent (vh_net s1) m3 true)) m3 n (bl_inv _ _ _ _ _ B3)) as (ms & Es & Fm & El & ->); [|done|exact E1|].
  { unfold m3, addTarget. destruct (memb _ _); exact A2. }
  exists ((m3, true) :: ms). destruct Es1 as [En1 El1]. splits.
  - rewrite Es. cbn. by rewrite En1, <- app_assoc.
  - constructor; [|done]. split; [done|]. by exists ens.
  - rewrite El. cbn [fmap list_fmap concat]. cbn [vh_log with_vnet]. by rewrite El1, app_assoc.
  - cbn [fmap list_fmap concat snd]. rewrite length_app. lia.
Qed.

Lemma joined_turn now ms s p x : turn_of now ms s (fst (isJoined p)) x = turn_of now ms s p x.
Proof. unfold isJoined, VP_isJoined. by destruct (_ && _). Qed.

Lemma joined_same p : objects (fst (isJoined p)) = objects p
  ∧ transfer (fst (isJoined p)) = transfer p ∧ obj_requested (fst (isJoined p)) = obj_requested p.
Proof. unfold isJoined, VP_isJoined. by destruct (_ && _). Qed.

(** A check, taken apart: the objects, then the messages *)
Lemma ownership_run now ms s p s' p' k : vso_inv p → snd (isJoined p) = true →
  checkOwnershipTransfer now ms s p = Ok (s', p', k) →
  ∃ s2 trs, Forall2 (turned now ms s p p') (objects p) (objects p')
  ∧ (transfer p' = transfer p ∧ obj_requested p' = obj_requested p)
  ∧ (my_id p' = my_id p ∧ vso_inv p')
  ∧ ordered trs ∧ (∀ c, batch_for trs c = handed_list now ms s p c (objects p)) ∧ Forall (λ x, snd x ≠ []) trs
  ∧ vh_net s2 = vh_net s ∧ vh_log s2 = vh_log s ++ claims_of now ms s p (objects p)
  ∧ send_transfers now s2 p' (Message_new (vso_code VSO_TRANSFER) 0) trs = Ok (s', k).
Proof.
  intros I J. unfold checkOwnershipTransfer. destruct (isJoined_vso p I) as (I1 & _).
  assert (Et : ∀ x, turn_of now ms s (fst (isJoined p)) x = turn_of now ms s p x) by (intros x; apply joined_turn).
  assert (Em : my_id (fst (isJoined p)) = my_id p ∧ objects (fst (isJoined p)) = objects p
    ∧ transfer (fst (isJoined p)) = transfer p ∧ obj_requested (fst (isJoined p)) = obj_requested p)
    by (splits; [by apply isJoined_vso|by apply joined_same..]).
  destruct (isJoined p) as [p1 b]. cbn [fst snd] in *. subst b. cbn [negb]. destruct Em as (Em & Eo & Ep & Er).
  rewrite Eo. intros E. run_inv E. destruct r as [[[s2 p2] l2] trs]. cbv zeta in E. run_inv E. destruct r as [s3 n].
  injection E as -> <- ->.
  apply check_objects_turn in E0 as (C & F & El & Eb & Fn & O); [|done|apply ordered_nodup, I|constructor|constructor].
  assert (Eh : ∀ c, handed_list now ms s p1 c (objects p) = handed_list now ms s p c (objects p)).
  { intros c. unfold handed_list, handed_to. rewrite Em. apply omap_in. intros x _. by rewrite Et. }
  assert (Ec : claims_of now ms s p1 (objects p) = claims_of now ms s p (objects p)).
  { apply omap_in. intros x _. unfold claimed_now. by rewrite Et. }
  assert (Hb : ∀ c, batch_for trs c = handed_list now ms s p c (objects p)) by (intros c; rewrite Eb; apply Eh).
  destruct (ck_pending _ _ _ _ _ C) as [P1 P2]. exists s2, trs. splits; try done.
  - eapply Forall2_in; [exact F|]. intros x y _ (? & ? & ? & E). unfold turned. splits; try done.
    etransitivity; [exact E|]. unfold next_stage. by rewrite Et.
  - cbn. congruence.
  - cbn. congruence.
  - unfold my_id in *. cbn. by rewrite (ck_peer _ _ _ _ _ C).
  - destruct (ck_inv _ _ _ _ _ C). split; cbn; try done. apply (ordered_keys (objects p)); [|apply I].
    symmetry. clear -F. induction F as [|x y l k (E & _) _ IH]; [done|]. cbn. by rewrite E, IH.
  - by rewrite (ck_net _ _ _ _ _ C).
  - by rewrite El, Ec.
Qed.

(** C9: A joined peer that checks who owns its objects treats each object by itself: outside of
    its region an object of its own is kept for a while and then handed over to the
    closest peer, if that is another; inside, an object that is not its own is claimed after
    a longer while, and so is one whose transfer was not acknowledged in time; nothing else
    about the objects changes. The messages it sends carry exactly the objects handed over,
    one message for each new owner, and its host is told of exactly those transfers and
    claims. *)
Theorem ownership_machine now ms s p s' p' k : vso_inv p → snd (isJoined p) = true →
  checkOwnershipTransfer now ms s p = Ok (s', p', k) →
  (∀ c, (length (handed_list now ms s p c (objects p)) < 256)%nat) →
  Forall2 (turned now ms s p p') (objects p) (objects p')
  ∧ transfer p' = transfer p ∧ obj_requested p' = obj_requested p
  ∧ ∃ trs sent, ordered trs ∧ (∀ c, batch_for trs c = handed_list now ms s p c (objects p))
    ∧ Forall (λ x, snd x ≠ []) trs
    ∧ tr_sent (vh_net s') = tr_sent (vh_net s) ++ sent ∧ Forall2 (carries p') trs sent
    ∧ vh_log s' = vh_log s ++ claims_of now ms s p (objects p) ++ concat (told <$> trs)
    ∧ k = Z.of_nat (length (concat (snd <$> trs))).
Proof.
  intros I J E Hl. destruct (ownership_run now ms s p s' p' k I J E) as (s2 & trs & F & [P1 P2] & _ & O & Hb & Fn & En & El & Es).
  splits; try done. apply send_transfers_trace in Es as (sent & Es & Fs & El3 & Ek); [|apply Message_new_inv|done|].
  - exists trs, sent. splits; try done; [by rewrite Es, En|by rewrite El3, El, <- app_assoc].
  - apply Forall_forall. intros [c l] Hx. apply In_find in Hx; [|done]. specialize (Hl c). rewrite <- Hb in Hl.
    unfold batch_for in Hl. by rewrite Hx in Hl.
Qed.
End turn.
