(* ===== verification/VSOProtocol.v ===== *)
(** The life of a shared object between the peers: it is handed over in time, claimed in time,
    and after a hand-over that is received and acknowledged it has one owner; objects that are
    not known are requested; those of a peer that departs are claimed by its neighbors; an
    overloaded peer asks for help, and later for another peer. *)

From S2P Require Import Prelude Bytes StdMap Float Serial Geometry Subscription Message VastNet VastSend.
From S2P Require Import MessageQueue QueueSafe Readable Handlers Built VonInterfaces VonPeer VonSafe VonSpec VonLinks.
From S2P Require Import VSOTypes VSOPeer VSOSafe VSOSpec.
Local Open Scope Z_scope.

(** *** In time *)

(** A check, from the point of view of one object: when, who else is closest, whether it is inside *)
Record look := mkLook { lk_now : Z; lk_else : option Z; lk_inside : bool }.

(** The deadline of [k] timeouts, at a given rate of the clock *)
Definition due (ms rate now k : Z) : Z := u64 (now + u64 (VSO_TIMEOUT_TRANSFER ms * rate * k)).

Definition look_turn (ms rate : Z) (x : stage) (c : look) : stage * option Z * bool :=
  own_turn (lk_now c) (due ms rate (lk_now c)) (lk_else c) (lk_inside c) x.

Definition looks (ms rate : Z) (x : stage) (l : list look) : stage :=
  foldl (λ x c, fst (fst (look_turn ms rate x c))) x l.

(** Deadlines that do not overflow *)
Definition early (ms rate now : Z) : Prop :=
  0 ≤ now ∧ 0 < VSO_TIMEOUT_TRANSFER ms * rate ∧ now + VSO_TIMEOUT_TRANSFER ms * rate * 5 < 2 ^ 64.

Lemma due_early ms rate now k : early ms rate now → 0 ≤ k ≤ 5 → due ms rate now k = now + VSO_TIMEOUT_TRANSFER ms * rate * k.
Proof.
  intros (H1 & H2 & H3) Hk. unfold due, wrap. set (T := VSO_TIMEOUT_TRANSFER ms * rate) in *.
  rewrite (Z.mod_small (T * k)) by nia. rewrite Z.mod_small by nia. done.
Qed.

(** Waiting for a claim *)
Definition awaiting (d : Z) (x : stage) : Prop :=
  st_own x = true ∧ st_transit x = 0 ∨ st_own x = false ∧ st_transit x = 0 ∧ ∃ e, st_claim x = Some e ∧ e ≤ d.

Lemma look_awaits ms rate d x c : awaiting d x → lk_inside c = true → awaiting d (fst (fst (look_turn ms rate x c))).
Proof.
  intros A Hi. unfold look_turn, own_turn, wait. rewrite Hi. destruct A as [[-> Et] | (-> & Et & e & Ee & Hd)].
  - cbn [st_transit]. rewrite Et. by left.
  - rewrite Ee. change (default (due ms rate (lk_now c) 5) (Some e)) with e. destruct (Z.leb_spec e (lk_now c)); cbn.
    + by left.
    + rewrite Et. right. cbn. splits; [done|done|by exists e].
Qed.

Lemma looks_await ms rate d x l : awaiting d x → Forall (λ c, lk_inside c = true) l → awaiting d (looks ms rate x l).
Proof.
  unfold looks. intros A F. revert x A. induction F as [|c l Hc _ IH]; intros x A; [done|]. by apply IH, look_awaits.
Qed.

(** Waiting to hand over *)
Lemma look_leaves ms rate d x c : st_own x = true → st_transit x = 0 → st_leave x = Some d →
  lk_inside c = false → lk_now c < d → look_turn ms rate x c = (x, None, false).
Proof.
  intros Eo Et El Hi Hd. unfold look_turn, own_turn, wait. rewrite Eo, Hi, El.
  destruct (lk_else c); [destruct (Z.leb_spec d (lk_now c)); [lia|]|]; by rewrite Et.
Qed.

Lemma looks_leave ms rate d x l : st_own x = true → st_transit x = 0 → st_leave x = Some d →
  Forall (λ c, lk_inside c = false ∧ lk_now c < d) l → looks ms rate x l = x.
Proof.
  intros Eo Et El F. unfold looks. induction F as [|c l [Hi Hd] _ IH]; [done|]. cbn [foldl].
  by rewrite (look_leaves ms rate d).
Qed.

(** *** The checks of a peer *)

Section watched.
Context {V : Type} `{VoronoiLaws V}.
Implicit Types (s : vhost) (p : VSOPeer V).

Definition object_stage p (id : Z) : option stage := stage_of p id <$> find id (objects p).

(** The checks of a peer that concern an object, between which its region and all else may
    change, but not the ownership of this object and its deadlines *)
Inductive watched (ms rate id : Z) : VSOPeer V → list look → VSOPeer V → Prop :=
  | w_done p : watched ms rate id p [] p
  | w_other p q l r : object_stage q id = object_stage p id → watched ms rate id q l r → watched ms rate id p l r
  | w_check now s p s' q k o l r : vso_inv p → snd (isJoined p) = true → tr_rate (vh_net s) = rate →
      checkOwnershipTransfer now ms s p = Ok (s', q, k) → find id (objects p) = Some o →
      watched ms rate id q l r → watched ms rate id p (mkLook now (other_closest p o) (inside p o) :: l) r.

Lemma turned_stage now ms s p p' id o : ordered (objects p) → ordered (objects p') →
  Forall2 (turned now ms s p p') (objects p) (objects p') → find id (objects p) = Some o →
  object_stage p' id = Some (next_stage now ms s p (id, o)).
Proof.
  intros O O' F Hf. apply find_In in Hf. apply list_elem_of_lookup_1 in Hf as [i Hi].
  destruct (Forall2_lookup_l _ _ _ _ _ F Hi) as ([k o'] & Hi' & Ek & _ & _ & Es). cbn [fst snd] in *. subst k.
  apply list_elem_of_lookup_2 in Hi'. apply In_find in Hi'; [|done]. unfold object_stage. by rewrite Hi', <- Es.
Qed.

(** The stages of an object are those of the machine. *)
Lemma watched_run ms rate id p l q x : watched ms rate id p l q → object_stage p id = Some x →
  object_stage q id = Some (looks ms rate x l).
Proof.
  intros W. revert x. induction W as [p|p q l r E W IH|now s p s' q k o l r I J Er Ec Ef W IH]; intros x Ex; [done| |].
  - apply IH. congruence.
  - apply IH. destruct (ownership_run now ms s p s' q k I J Ec) as (s2 & trs & F & _ & [_ I'] & _).
    rewrite (turned_stage now ms s p q id o); [|apply I|apply I'|done|done].
    unfold object_stage in Ex. rewrite Ef in Ex. injection Ex as <-. f_equal.
    unfold next_stage, turn_of, look_turn, deadline. cbn. by rewrite Er.
Qed.

(** An object of its own that leaves the region of a peer and stays outside, is kept until
    the timeout of a transfer has passed since the first check that found it there; the next
    check hands it over to the peer that is closest then, if that is another, and
    three times the timeout are left for the acknowledgement. *)
Theorem handed_in_time ms rate id p q x c0 mid cn to : watched ms rate id p (c0 :: mid ++ [cn]) q →
  object_stage p id = Some x → st_own x = true → st_transit x = 0 → st_leave x = None →
  Forall (λ c, lk_inside c = false) (c0 :: mid ++ [cn]) → lk_else cn = Some to →
  early ms rate (lk_now c0) → early ms rate (lk_now cn) →
  let T := VSO_TIMEOUT_TRANSFER ms * rate in
  Forall (λ c, lk_now c < lk_now c0 + T) mid → lk_now c0 + T ≤ lk_now cn →
  (∀ l r, mid = l ++ r → st_own (looks ms rate x (c0 :: l)) = true)
  ∧ snd (fst (look_turn ms rate (looks ms rate x (c0 :: mid)) cn)) = Some to
  ∧ object_stage q id = Some (mkStage false (lk_now cn + T * 3) None (st_claim x)).
Proof.
  intros W Ex Eo Et El F Hto H0e Hne T Fm Hn. apply Forall_cons in F as [F0 F]. apply Forall_app in F as [Fi Fn]. apply Forall_inv in Fn.
  set (y := mkStage true 0 (Some (lk_now c0 + T)) (st_claim x)).
  assert (E0 : fst (fst (look_turn ms rate x c0)) = y).
  { unfold look_turn, own_turn, wait. rewrite F0, Eo, El, Et. cbn. unfold y. by rewrite due_early, Z.mul_1_r by (done || lia). }
  assert (Hl : ∀ l r, mid = l ++ r → looks ms rate x (c0 :: l) = y).
  { intros l r ->. unfold looks. cbn [foldl]. rewrite E0. apply Forall_app in Fi as [Fi _], Fm as [Fm _].
    apply (looks_leave ms rate (lk_now c0 + T)); try done. apply Forall_forall. intros c Hc.
    split; [by apply (proj1 (Forall_forall _ _) Fi)|by apply (proj1 (Forall_forall _ _) Fm)]. }
  assert (En : look_turn ms rate y cn = (mkStage false (lk_now cn + T * 3) None (st_claim x), Some to, false)).
  { unfold look_turn, own_turn, wait. cbn [st_own y st_leave st_transit st_claim]. rewrite Fn, Hto.
    destruct (Z.leb_spec (lk_now c0 + T) (lk_now cn)); [|lia]. cbn [st_transit]. rewrite due_early by (done || lia). fold T.
    destruct Hne as (? & H2 & _). fold T in H2. destruct (Z.leb_spec (lk_now cn + T * 3) (lk_now cn)); [lia|].
    by rewrite andb_false_r. }
  splits.
  - intros l r E. by rewrite (Hl l r E).
  - rewrite (Hl mid []) by by rewrite app_nil_r. by rewrite En.
  - rewrite (watched_run _ _ _ _ _ _ _ W Ex). unfold looks. rewrite app_comm_cons, foldl_app. cbn [foldl].
    change (foldl _ (fst (fst (look_turn ms rate x c0))) mid) with (looks ms rate x (c0 :: mid)).
    rewrite (Hl mid []) by by rewrite app_nil_r. by rewrite En.
Qed.
End watched.

(** *** Receiving a transfer *)

Section receive.
Context {V : Type} `{VoronoiLaws V} (vjunk : von_uninit) (junk : vso_uninit).
Implicit Types (s : vhost) (p : VSOPeer V) (t : VSOOwnerTransfer).

(** What one transfer changes at the receiver *)
Definition accept1 (now : Z) p t : VSOPeer V :=
  if negb (my_id p =? new_owner t) then p
  else match find (obj_id t) (objects p) with
       | Some o => set_timers (set_objects p (set (obj_id t) (owned_by o true (so_transit o) now) (objects p)))
                     (transfer_timeout p) (erase (obj_id t) (reclaim_timeout p))
       | None => set_pending p (set (obj_id t) t (transfer p)) (obj_requested p)
       end.

Definition known_to p t : bool := (my_id p =? new_owner t) && has (obj_id t) (objects p).
Definition unknown_to p t : bool := (my_id p =? new_owner t) && negb (has (obj_id t) (objects p)).

Definition is_ack t (x : Message * bool) : Prop :=
  snd x = true ∧ built (vso_code VSO_TRANSFER_ACK) 0 [old_owner t] (le_bytes 8 (obj_id t)) (fst x).

Lemma vso_msg_built ty : built (vso_code ty) 0 [] [] (vso_msg ty).
Proof. by split. Qed.

Lemma accept_one now s p t : known_to p t = true → old_owner t ≠ 0 →
  ∃ s' ack, acceptTransfer now s p t = Ok (s', accept1 now p t)
  ∧ tr_sent (vh_net s') = tr_sent (vh_net s) ++ [ack] ∧ is_ack t ack ∧ vh_log s' = vh_log s.
Proof.
  intros [Em Hk]%andb_true_iff Ho. unfold acceptTransfer, accept1. rewrite Em. cbn [negb]. cbv zeta.
  destruct (has_find _ _ Hk) as (o & ->). destruct (Z.eqb_spec (old_owner t) 0) as [|_]; [done|]. cbn [negb].
  destruct (store_built _ _ _ _ _ (le_bytes 8 (obj_id t)) (vso_msg_built VSO_TRANSFER_ACK) eq_refl) as (m & E & B & _).
  unfold store_int. rewrite E, bind_ok. cbn [sendVONMessage vhost_network]. rewrite !bind_ok.
  eexists _, (addTarget m (old_owner t), true). splits; [reflexivity|done| |done]. split; [done|]. by apply addTarget_built.
Qed.

Lemma accept1_same now p t : my_id (accept1 now p t) = my_id p ∧ vp (accept1 now p t) = vp p
  ∧ (∀ k, has k (objects (accept1 now p t)) = has k (objects p)) ∧ obj_requested (accept1 now p t) = obj_requested p.
Proof.
  unfold accept1. destruct (negb _); [done|]. destruct (find (obj_id t) (objects p)) as [o|] eqn:E; [|done].
  splits; try done. intros k. cbn. rewrite has_set. destruct (Z.eqb_spec k (obj_id t)) as [->|]; [|done].
  unfold has. by rewrite E.
Qed.

Lemma accept1_knows now p t u : known_to (accept1 now p t) u = known_to p u ∧ unknown_to (accept1 now p t) u = unknown_to p u.
Proof. unfold known_to, unknown_to. destruct (accept1_same now p t) as (-> & _ & E & _). by rewrite E. Qed.

Lemma filter_same {A} (f g : A → bool) (l : list A) : (∀ x, f x = g x) → filter (λ x, f x = true) l = filter (λ x, g x = true) l.
Proof. intros E. apply list_filter_iff. intros x. by rewrite E. Qed.

Lemma filter_all_false {A} (f : A → bool) (l : list A) : (∀ x, x ∈ l → f x = false) → filter (λ x, f x = true) l = [].
Proof.
  induction l as [|x l IH]; intros E; [done|]. rewrite filter_cons, (E x), decide_False by (done || by left).
  apply IH. intros y Hy. apply E. by right.
Qed.

Lemma filter_all_true {A} (f : A → bool) (l : list A) : (∀ x, x ∈ l → f x = true) → filter (λ x, f x = true) l = l.
Proof.
  induction l as [|x l IH]; intros E; [done|]. rewrite filter_cons, (E x), decide_True by (done || by left).
  rewrite IH; [done|]. intros y Hy. apply E. by right.
Qed.

Lemma accept_all_spec now s p msg l tl : Message_inv msg → Forall Transfer_valid l → Forall (λ t, old_owner t ≠ 0) l →
  drop (mcurr msg) (content msg) = concat (wire <$> l) ++ tl →
  ∃ s' m' acks, accept_all (length l) now s p msg
      = Ok (s', foldl (accept1 now) p l, m', obj_id <$> filter (λ t, unknown_to p t = true) l)
  ∧ tr_sent (vh_net s') = tr_sent (vh_net s) ++ acks ∧ Forall2 is_ack (filter (λ t, known_to p t = true) l) acks
  ∧ from m' = from msg ∧ vh_log s' = vh_log s ∧ Message_inv m'.
Proof.
  revert s p msg. induction l as [|t l IH]; intros s p msg M F Fo D; cbn [accept_all length].
  { exists s, msg, []. splits; try done. by rewrite app_nil_r. }
  apply Forall_cons in F as [Ft F], Fo as [Fo1 Fo]. cbn [fmap list_fmap concat] in D. rewrite <- app_assoc in D.
  destruct (extract_obj_spec msg t VSOOwnerTransfer_init (concat (wire <$> l) ++ tl) M) as (m1 & -> & M1 & C1 & P1 & S1);
    [exact Ft|done|cbn; unfold Transfer_sizeOf; lia|exact D|]. rewrite bind_ok. cbv beta iota zeta. change (merge VSOOwnerTransfer_init t) with t.
  assert (D1 : drop (mcurr m1) (content m1) = concat (wire <$> l) ++ tl).
  { rewrite P1, C1, <- drop_drop, D. apply drop_app_len. by rewrite wire_length. }
  destruct (accept1_same now p t) as (Em & _ & Eh & _).
  assert (Hk : ∀ u, known_to (accept1 now p t) u = known_to p u) by (intros; apply accept1_knows).
  assert (Hu : ∀ u, unknown_to (accept1 now p t) u = unknown_to p u) by (intros; apply accept1_knows).
  assert (Hs : (my_id p =? new_owner t) = false → ∃ s' m' acks,
    accept_all (length l) now s p m1 = Ok (s', foldl (accept1 now) p (t :: l), m', obj_id <$> filter (λ t, unknown_to p t = true) (t :: l))
    ∧ tr_sent (vh_net s') = tr_sent (vh_net s) ++ acks ∧ Forall2 is_ack (filter (λ t, known_to p t = true) (t :: l)) acks
    ∧ from m' = from msg ∧ vh_log s' = vh_log s ∧ Message_inv m').
  { intros E1. assert (Ek : known_to p t = false ∧ unknown_to p t = false) by (unfold known_to, unknown_to; by rewrite E1).
    destruct Ek as [Ek Eu]. rewrite !filter_cons, Eu, Ek, !decide_False by done. cbn [foldl].
    replace (accept1 now p t) with p by by (unfold accept1; rewrite E1).
    destruct (IH s p m1 M1 F Fo D1) as (s2 & m2 & acks & -> & Es2 & Fa & Ef & El2 & M2).
    exists s2, m2, acks. splits; try done. rewrite Ef. by destruct S1. }
  destruct (my_id p =? new_owner t) eqn:E1, (has (obj_id t) (objects p)) eqn:E2.
  - rewrite !filter_cons. cbn [foldl]. assert (Ek : known_to p t = true ∧ unknown_to p t = false) by (unfold known_to, unknown_to; by rewrite E1, E2).
    destruct Ek as [Ek Eu]. rewrite Eu, Ek, decide_False, decide_True by done.
    destruct (accept_one now s p t Ek Fo1) as (s1 & a & -> & Es & Ha & El). rewrite bind_ok. cbn beta iota.
    destruct (IH s1 (accept1 now p t) m1 M1 F Fo D1) as (s2 & m2 & acks & -> & Es2 & Fa & Ef & El2 & M2).
    exists s2, m2, (a :: acks). rewrite (filter_same _ _ _ Hu). rewrite (filter_same _ _ _ Hk) in Fa.
    splits; [done|by rewrite Es2, Es, <- app_assoc|by constructor|by rewrite Ef; destruct S1|congruence|done].
  - rewrite !filter_cons. cbn [foldl]. assert (Ek : known_to p t = false ∧ unknown_to p t = true) by (unfold known_to, unknown_to; by rewrite E1, E2).
    destruct Ek as [Ek Eu]. rewrite Eu, Ek, decide_True, decide_False by done.
    replace (set_pending p _ _) with (accept1 now p t).
    2: { unfold accept1. rewrite E1. cbn [negb]. unfold has in E2. by destruct (find _ (objects p)). }
    destruct (IH s (accept1 now p t) m1 M1 F Fo D1) as (s2 & m2 & acks & -> & Es2 & Fa & Ef & El2 & M2).
    rewrite bind_ok. exists s2, m2, acks. rewrite (filter_same _ _ _ Hu). rewrite (filter_same _ _ _ Hk) in Fa.
    splits; [done|done|done|by rewrite Ef; destruct S1|done|done].
  - rewrite bind_ok. cbn beta iota. by apply Hs.
  - by apply Hs.
Qed.

(** The transfers of [l] make the peer owner of [id]. *)
Definition given p (l : list VSOOwnerTransfer) (id : Z) : bool :=
  existsb (λ t, (my_id p =? new_owner t) && (id =? obj_id t)) l.

Lemma accepted_find now p l id : find id (objects (foldl (accept1 now) p l)) =
  (if given p l id then (λ o, owned_by o true (so_transit o) now) <$> find id (objects p) else find id (objects p)).
Proof.
  revert p. induction l as [|t l IH]; intros p; cbn [foldl given existsb]; [done|].
  destruct (accept1_same now p t) as (Em & _). rewrite IH. unfold given in *. rewrite Em. clear IH Em.
  unfold accept1. destruct (my_id p =? new_owner t); cbn [negb andb orb]; [|done].
  destruct (find (obj_id t) (objects p)) as [o|] eqn:Eo.
  - cbn [objects set_timers set_objects].
    rewrite find_set. destruct (Z.eqb_spec id (obj_id t)) as [->|]; [|done]. rewrite Eo. by destruct (existsb _ l).
  - cbn [objects set_pending].
    destruct (Z.eqb_spec id (obj_id t)) as [->|]; [|done]. rewrite Eo. by destruct (existsb _ l).
Qed.

Lemma accepted_pending now p l id : find id (transfer (foldl (accept1 now) p l)) =
  foldl (λ r t, if unknown_to p t && (id =? obj_id t) then Some t else r) (find id (transfer p)) l.
Proof.
  revert p. induction l as [|t l IH]; intros p; cbn [foldl]; [done|]. rewrite IH.
  assert (Hf : ∀ r, foldl (λ r u, if unknown_to (accept1 now p t) u && (id =? obj_id u) then Some u else r) r l
                  = foldl (λ r u, if unknown_to p u && (id =? obj_id u) then Some u else r) r l).
  { clear IH. induction l as [|u l IH]; intros r; cbn [foldl]; [done|]. by rewrite IH, (proj2 (accept1_knows now p t u)). }
  rewrite Hf. f_equal. unfold accept1, unknown_to, has. destruct (my_id p =? new_owner t); cbn [negb andb]; [|done].
  destruct (find (obj_id t) (objects p)); [done|]. cbn [transfer set_pending negb andb]. rewrite find_set. done.
Qed.

(** The request for the objects [r], if there are any *)
Definition requested (to : Z) (r : list Z) (l : list (Message * bool)) : Prop :=
  match r with
  | [] => l = []
  | _ => ∃ m, l = [(m, true)] ∧ built (vso_code VSO_REQUEST) 0 [to] (le_bytes 1 (listsize r) ++ concat (le_bytes 8 <$> r)) m
  end.

Lemma store_ids_built ty g ts bs m l : built ty g ts bs m → malloc m = true →
  ∃ m', store_ids m l = Ok m' ∧ built ty g ts (bs ++ concat (le_bytes 8 <$> l)) m' ∧ malloc m' = true.
Proof.
  revert bs m. induction l as [|t l IH]; intros bs m B A; cbn [store_ids].
  { exists m. by rewrite app_nil_r. }
  unfold store_int. destruct (store_built _ _ _ _ _ (le_bytes 8 t) B A) as (m1 & -> & B1 & A1). rewrite bind_ok. cbn beta iota.
  destruct (IH _ _ B1 A1) as (m2 & -> & B2 & A2). exists m2. by rewrite <- app_assoc in B2.
Qed.

Definition new_requests p (l : list Z) : list Z := filter (λ i, has i (obj_requested p) = false) l.

Lemma request_trace now s p to l : ∃ s' p' r, requestObjects now s p to l = Ok (s', p')
  ∧ objects p' = objects p ∧ transfer p' = transfer p ∧ vp p' = vp p
  ∧ tr_sent (vh_net s') = tr_sent (vh_net s) ++ r ∧ requested to (new_requests p l) r ∧ vh_log s' = vh_log s.
Proof.
  unfold requestObjects. cbv zeta. fold (new_requests p l). destruct (new_requests p l) as [|i r] eqn:E.
  { exists s, p, []. splits; try done. by rewrite app_nil_r. }
  destruct (store_built _ _ _ _ _ (le_bytes 1 (listsize (i :: r))) (vso_msg_built VSO_REQUEST) eq_refl) as (m & Em & B & A).
  unfold store_int at 1. rewrite Em, bind_ok. cbn beta iota.
  destruct (store_ids_built _ _ _ _ _ (i :: r) B A) as (m2 & -> & B2 & A2). rewrite bind_ok. cbn [sendVONMessage vhost_network]. rewrite bind_ok.
  eexists _, _, [(addTarget m2 to, true)]. splits; try done. eexists. split; [reflexivity|]. by apply addTarget_built.
Qed.

Lemma joined_set p : ∃ v, isJoined p = (set_vp p v, snd (isJoined p)) ∧ self v = self (vp p).
Proof. unfold isJoined, VP_isJoined. destruct (_ && _); by eexists. Qed.

Lemma accept_all_same now l p : vp (foldl (accept1 now) p l) = vp p
  ∧ obj_requested (foldl (accept1 now) p l) = obj_requested p.
Proof.
  revert p. induction l as [|t l IH]; intros p; cbn [foldl]; [done|].
  destruct (IH (accept1 now p t)) as [-> ->]. by destruct (accept1_same now p t) as (_ & -> & _ & ->).
Qed.

(** A joined peer that receives a message of transfers becomes the owner of every object it
    has that is transferred to it, and acknowledges each; transfers to it of objects it does not
    have are kept, and those objects requested from the sender, unless they already were;
    transfers to others change nothing. *)
Theorem transfer_received fuel now s p msg l : snd (isJoined p) = true → Message_inv msg → mcurr msg = 0%nat →
  msgtype msg = vso_code VSO_TRANSFER → content msg = transfer_bytes l → (length l < 256)%nat →
  Forall Transfer_valid l → Forall (λ t, old_owner t ≠ 0) l →
  ∃ s' p' m' acks reqs, VSO_handleMessage vjunk junk fuel now s p msg = Ok (s', p', m', true)
  ∧ (∀ id, find id (objects p') = if given p l id then (λ o, owned_by o true (so_transit o) now) <$> find id (objects p)
                                   else find id (objects p))
  ∧ (∀ id, find id (transfer p') = foldl (λ r t, if unknown_to p t && (id =? obj_id t) then Some t else r) (find id (transfer p)) l)
  ∧ tr_sent (vh_net s') = tr_sent (vh_net s) ++ acks ++ reqs
  ∧ Forall2 is_ack (filter (λ t, known_to p t = true) l) acks
  ∧ requested (from msg) (new_requests p (obj_id <$> filter (λ t, unknown_to p t = true) l)) reqs
  ∧ vh_log s' = vh_log s.
Proof.
  intros J M Z T C Hn F Fo. unfold VSO_handleMessage. rewrite T, of_vso_code_code. cbv zeta. unfold processTransfer.
  destruct (joined_set p) as (v & Ej & Ev). rewrite Ej in J |- *. cbn [snd] in J. rewrite J. cbn [negb]. clear Ej.
  set (p1 := set_vp p v). assert (Em : my_id p1 = my_id p) by (unfold my_id, self_id; cbn; by rewrite Ev).
  destruct (extract_int_spec 1 msg (ju_n junk) (Z.of_nat (length l)) (concat (wire <$> l)) M) as (m1 & -> & M1 & D1 & _ & _ & (F1 & _));
    [lia|lia|by rewrite Z, C|]. rewrite bind_ok. cbn beta iota. rewrite Nat2Z.id.
  destruct (accept_all_spec now s p1 m1 l [] M1 F Fo) as (s2 & m2 & acks & -> & Es & Fa & Ef & El & M2); [by rewrite app_nil_r|].
  rewrite bind_ok. cbn beta iota.
  assert (Hk : ∀ t, known_to p1 t = known_to p t) by (intros; unfold known_to; by rewrite Em).
  assert (Hu : ∀ t, unknown_to p1 t = unknown_to p t) by (intros; unfold unknown_to; by rewrite Em).
  rewrite (filter_same _ _ _ Hu). rewrite (filter_same _ _ _ Hk) in Fa.
  set (us := obj_id <$> _). set (q := foldl _ p1 l).
  assert (Eq : new_requests q us = new_requests p us).
  { unfold new_requests, q. by rewrite (proj2 (accept_all_same now l p1)). }
  destruct (request_trace now s2 q (from m2) us) as (s3 & q3 & r & Er & Eo & Et & _ & Es3 & Hr & El3).
  assert (Hq : (∀ id, find id (objects q) = if given p l id then (λ o, owned_by o true (so_transit o) now) <$> find id (objects p) else find id (objects p))
    ∧ (∀ id, find id (transfer q) = foldl (λ r t, if unknown_to p t && (id =? obj_id t) then Some t else r) (find id (transfer p)) l)).
  { unfold q. split; intros id; [rewrite accepted_find|rewrite accepted_pending]; unfold given, unknown_to; by rewrite Em. }
  rewrite Ef, F1, Eq in Hr. destruct Hq as [Hq1 Hq2]. destruct us as [|i us].
  - exists s2, q, m2, acks, []. rewrite bind_ok, app_nil_r. by splits.
  - rewrite Er, !bind_ok. exists s3, q3, m2, acks, r. rewrite Eo, Et. splits; try done; [|congruence]. by rewrite Es3, Es, app_assoc.
Qed.

(** *** Acknowledgements *)

(** A message as it arrives, unread *)
Definition arrives (m r : Message) : Prop :=
  Message_inv r ∧ mcurr r = 0%nat ∧ msgtype r = msgtype m ∧ content r = content m.

(** Messages one after the other *)
Fixpoint handle_each (fuel : nat) (now : Z) s p (ms : list Message) : outcome (vhost * VSOPeer V) :=
  match ms with
  | [] => Ok (s, p)
  | m :: ms => '(s, p, _, _) ← VSO_handleMessage vjunk junk fuel now s p m; handle_each fuel now s p ms
  end.

Definition settled (o : VSOSharedObject) : VSOSharedObject := owned_by o (so_owner o) 0 (so_update o).

Lemma ack_received fuel now s p t a r : fits 64 (obj_id t) → is_ack t a → arrives (fst a) r →
  ∃ p' m, VSO_handleMessage vjunk junk fuel now s p r = Ok (s, p', m, true)
  ∧ vp p' = vp p ∧ (transfer_timeout p' = transfer_timeout p ∧ reclaim_timeout p' = reclaim_timeout p)
  ∧ ∀ id, find id (objects p') = if id =? obj_id t then settled <$> find id (objects p) else find id (objects p).
Proof.
  intros Hf [_ B] (M & Z & T & C). unfold VSO_handleMessage. rewrite T, (bl_type _ _ _ _ _ B), of_vso_code_code. cbv zeta.
  unfold handle_ack. destruct (extract_int_spec 8 r (ju_id junk) (obj_id t) [] M) as (m1 & -> & _);
    [lia|exact Hf|by rewrite Z, C, (bl_content _ _ _ _ _ B), drop_0, app_nil_r|].
  rewrite !bind_ok. destruct (find (obj_id t) (objects p)) as [o|] eqn:E.
  - eexists _, m1. splits; [reflexivity|done..|]. intros id. cbn. rewrite find_set.
    destruct (Z.eqb_spec id (obj_id t)) as [->|]; [by rewrite E|done].
  - exists p, m1. splits; try done. intros id. destruct (Z.eqb_spec id (obj_id t)) as [->|]; [by rewrite E|done].
Qed.

Lemma acks_received fuel now s p l acks rs : Forall (λ t, fits 64 (obj_id t)) l → Forall2 is_ack l acks →
  Forall2 (λ a r, arrives (fst a) r) acks rs →
  ∃ p', handle_each fuel now s p rs = Ok (s, p') ∧ vp p' = vp p
  ∧ ∀ id, find id (objects p') = if existsb (λ t, id =? obj_id t) l then settled <$> find id (objects p) else find id (objects p).
Proof.
  intros F Fa. revert s p rs. induction Fa as [|t a l acks Ha _ IH]; intros s p rs Fr; inversion_clear Fr as [|? r ? rs' Hr Fr'];
    cbn [handle_each]; [by exists p|]. apply Forall_cons in F as [Ft F].
  destruct (ack_received fuel now s p t a r Ft Ha Hr) as (p1 & m & -> & Ev & _ & Ho). rewrite bind_ok. cbn beta iota.
  destruct (IH F s p1 rs' Fr') as (p2 & -> & Ev2 & Ho2). exists p2. splits; [done|congruence|].
  intros id. rewrite Ho2, Ho. cbn [existsb]. destruct (id =? obj_id t), (existsb _ l); cbn [orb]; try done.
  by destruct (find id (objects p)).
Qed.

(** *** A hand-over *)

Lemma handed_stage now ms s p x c : early ms (tr_rate (vh_net s)) now → handed_to now ms s p x = Some c →
  st_own (next_stage now ms s p x) = false.
Proof.
  intros He. unfold handed_to, next_stage, turn_of, own_turn, wait.
  destruct (st_own _), (inside p (snd x)); [by destruct (_ && _)| | |by destruct (_ && _)].
  - destruct (st_leave _) as [d|], (other_closest p (snd x)) as [e|]; try by destruct (_ && _).
    destruct (d <=? now); [|by destruct (_ && _)]. cbn [st_transit].
    change (deadline ms 3 s now) with (due ms (tr_rate (vh_net s)) now 3). rewrite due_early by (done || lia).
    destruct He as (He1 & He2 & He3). match goal with |- context [(?a <=? now)] => destruct (Z.leb_spec a now); [lia|] end.
    by rewrite andb_false_r.
  - destruct (_ <=? _); by destruct (_ && _).
Qed.

Lemma handed_in now ms s p c l t : t ∈ handed_list now ms s p c l →
  ∃ o, (obj_id t, o) ∈ l ∧ handed_to now ms s p (obj_id t, o) = Some c ∧ t = mkTransfer (obj_id t) c (my_id p).
Proof.
  unfold handed_list. intros ([id o] & Hx & E)%list_elem_of_omap. case_bool_decide; [|done]. injection E as <-. by exists o.
Qed.

Lemma batch_message now ms s p s' p' k c : vso_inv p → snd (isJoined p) = true →
  checkOwnershipTransfer now ms s p = Ok (s', p', k) →
  (∀ c, (length (handed_list now ms s p c (objects p)) < 256)%nat) → handed_list now ms s p c (objects p) ≠ [] →
  ∃ m, (m, true) ∈ tr_sent (vh_net s') ∧ c ∈ targets m
  ∧ built (vso_code VSO_TRANSFER) 0 (targets m) (transfer_bytes (handed_list now ms s p c (objects p))) m.
Proof.
  intros I J E Hl Hc. destruct (ownership_run now ms s p s' p' k I J E) as (s2 & trs & _ & _ & _ & O & Hb & Fn & En & _ & Es).
  apply send_transfers_trace in Es as (sent & Es & Fs & _); [|apply Message_new_inv|done|].
  - destruct (find c trs) as [b|] eqn:Ef; [|destruct Hc; by rewrite <- Hb; unfold batch_for; rewrite Ef].
    assert (Eb : b = handed_list now ms s p c (objects p)) by (rewrite <- Hb; unfold batch_for; by rewrite Ef).
    apply find_In, list_elem_of_lookup_1 in Ef as [i Hi]. destruct (Forall2_lookup_l _ _ _ _ _ Fs Hi) as ([m r] & Hm & Er & ens & _ & B).
    cbn [fst snd] in *. subst r. exists m. rewrite <- Eb, (bl_targets _ _ _ _ _ B). splits; [|destruct (memb c ens) eqn:Em|done].
    + rewrite Es. apply elem_of_app. right. by eapply list_elem_of_lookup_2.
    + by apply memb_true.
    + apply elem_of_app. right. by left.
  - apply Forall_forall. intros [d b] Hx. apply In_find in Hx; [|done]. specialize (Hl d). rewrite <- Hb in Hl.
    unfold batch_for in Hl. by rewrite Hx in Hl.
Qed.

(** C10: When a peer hands objects over to another that has copies of them, and the message and the
    acknowledgements it causes arrive, each of the objects has one owner: the new one. The
    old one does not own it and does not wait for it any more. *)
Theorem handover_completes fuel na nb nc ms sa pa sa' pa' k sb pb :
  let l := handed_list na ms sa pa (my_id pb) (objects pa) in
  vso_inv pa → snd (isJoined pa) = true → snd (isJoined pb) = true → early ms (tr_rate (vh_net sa)) na →
  my_id pa ≠ 0 → fits 64 (my_id pa) → fits 64 (my_id pb) → Forall (λ x, fits 64 (fst x)) (objects pa) →
  (∀ c, (length (handed_list na ms sa pa c (objects pa)) < 256)%nat) →
  checkOwnershipTransfer na ms sa pa = Ok (sa', pa', k) →
  l ≠ [] → Forall (λ t, has (obj_id t) (objects pb) = true) l →
  ∃ m, (m, true) ∈ tr_sent (vh_net sa') ∧ my_id pb ∈ targets m ∧ ∀ r, arrives m r →
    ∃ sb' pb' m' acks, VSO_handleMessage vjunk junk fuel nb sb pb r = Ok (sb', pb', m', true)
    ∧ tr_sent (vh_net sb') = tr_sent (vh_net sb) ++ acks
    ∧ ∀ sc rs, Forall2 (λ a r, arrives (fst a) r) acks rs →
      ∃ pa2, handle_each fuel nc sc pa' rs = Ok (sc, pa2)
      ∧ Forall (λ t, isOwner pb' (obj_id t) = true ∧ isOwner pa2 (obj_id t) = false
                     ∧ so_transit <$> find (obj_id t) (objects pa2) = Some 0) l.
Proof.
  intros l I Ja Jb He Hz Hfa Hfb Ho Hl E Hne Hk.
  destruct (batch_message na ms sa pa sa' pa' k (my_id pb) I Ja E Hl Hne) as (m & Hm & Ht & B). fold l in B.
  assert (Hin : ∀ t, t ∈ l → new_owner t = my_id pb ∧ old_owner t = my_id pa ∧ fits 64 (obj_id t)).
  { intros t (o & Hx & _ & ->)%handed_in. splits; try done. by apply (proj1 (Forall_forall _ _) Ho) in Hx. }
  exists m. splits; [done|done|]. intros r (M & Z & T & C).
  destruct (transfer_received fuel nb sb pb r l) as (sb' & pb' & m' & acks & reqs & Eh & Hob & _ & Es & Fa & Hr & _); try done.
  { by rewrite T, (bl_type _ _ _ _ _ B). }
  { by rewrite C, (bl_content _ _ _ _ _ B). }
  { apply Hl. }
  { apply Forall_forall. intros t (E1 & E2 & E3)%Hin. unfold Transfer_valid. by rewrite E1, E2. }
  { apply Forall_forall. intros t (E1 & E2 & E3)%Hin. congruence. }
  assert (Hg : ∀ t, t ∈ l → known_to pb t = true ∧ unknown_to pb t = false).
  { intros t Hx. destruct (Hin t Hx) as (E1 & _). unfold known_to, unknown_to.
    rewrite E1, Z.eqb_refl, (proj1 (Forall_forall _ _) Hk t Hx). done. }
  assert (Hu : filter (λ t, unknown_to pb t = true) l = []).
  { apply filter_all_false. intros t Hx. by apply Hg. }
  assert (Hkn : filter (λ t, known_to pb t = true) l = l) by (apply filter_all_true; intros t Hx; by apply Hg).
  rewrite Hu in Hr. rewrite Hkn in Fa. cbn in Hr. subst reqs. rewrite app_nil_r in Es.
  exists sb', pb', m', acks. splits; [done|done|]. intros sc rs Fr.
  assert (Hv : Forall (λ t, fits 64 (obj_id t)) l) by (apply Forall_forall; intros t Hx; by apply Hin).
  destruct (acks_received fuel nc sc pa' l acks rs Hv Fa Fr) as (pa2 & Ea & _ & Hob2). exists pa2. split; [done|].
  destruct (ownership_run na ms sa pa sa' pa' k I Ja E) as (s2 & trs & F & _ & [_ I'] & _).
  apply Forall_forall. intros t Hx. destruct (handed_in _ _ _ _ _ _ _ Hx) as (o & Hox & Hto & _).
  assert (Ho' : ∃ o', find (obj_id t) (objects pa') = Some o' ∧ so_owner o' = false).
  { assert (Hf := In_find _ _ _ (vi_objects _ I) Hox).
    pose proof (turned_stage _ _ _ _ _ _ _ (vi_objects _ I) (vi_objects _ I') F Hf) as Hs. unfold object_stage in Hs.
    destruct (find (obj_id t) (objects pa')) as [o'|]; [|done]. exists o'. split; [done|]. injection Hs as Hs.
    change (st_own (stage_of pa' (obj_id t) o') = false). rewrite Hs. by eapply handed_stage. }
  destruct Ho' as (o' & Eo' & Now). unfold isOwner. rewrite Hob, Hob2, Eo'.
  assert (Ex : existsb (λ u, obj_id t =? obj_id u) l = true).
  { apply existsb_exists. exists t. split; [by apply list_elem_of_In|apply Z.eqb_refl]. }
  assert (Eg : given pb l (obj_id t) = true).
  { apply existsb_exists. exists t. split; [by apply list_elem_of_In|]. destruct (Hin t Hx) as (-> & _). by rewrite !Z.eqb_refl. }
  rewrite Ex, Eg. destruct (has_find _ _ (proj1 (Forall_forall _ _) Hk t Hx)) as (ob & ->). by splits.
Qed.

(** *** Objects that arrive later *)

(** An object that was transferred to the peer before the peer had it is its own as soon as
    it arrives: the kept transfer is acknowledged and dropped, and so is the request; an
    object that arrives without one is owned as the caller says, and one that is
    there already is left alone. *)
Theorem late_arrival now s p id aoi owner : vso_inv p →
  ∃ s' p' sent, insertSharedObject now s p id aoi owner = Ok (s', p', negb (has id (objects p)))
  ∧ tr_sent (vh_net s') = tr_sent (vh_net s) ++ sent ∧ vh_log s' = vh_log s
  ∧ if has id (objects p) then p' = p ∧ sent = [] else
    (∀ k, k ≠ id → find k (objects p') = find k (objects p))
    ∧ match find id (transfer p) with
      | Some t =>
          find id (objects p') = Some (mkObj aoi true 0 now 0) ∧ find id (transfer p') = None ∧ find id (reclaim_timeout p') = None
          ∧ (if old_owner t =? 0 then sent = [] else ∃ a, sent = [a] ∧ is_ack t a)
      | None => find id (objects p') = Some (mkObj aoi owner 0 now 0) ∧ transfer p' = transfer p ∧ sent = []
      end.
Proof.
  intros I. unfold insertSharedObject. destruct (has id (objects p)) eqn:Eh.
  { exists s, p, []. splits; try done. by rewrite app_nil_r. }
  cbv zeta. set (p1 := set_objects p _). change (transfer p1) with (transfer p). destruct (find id (transfer p)) as [t|] eqn:Et.
  - assert (Ha : ∃ s' sent, acceptTransfer now s p1 t = Ok (s', set_timers
        (set_objects p1 (set (obj_id t) (owned_by (default (mkObj Area_clear false 0 0 0) (find (obj_id t) (objects p1))) true
          (so_transit (default (mkObj Area_clear false 0 0 0) (find (obj_id t) (objects p1)))) now) (objects p1)))
        (transfer_timeout p) (erase (obj_id t) (reclaim_timeout p)))
      ∧ tr_sent (vh_net s') = tr_sent (vh_net s) ++ sent ∧ vh_log s' = vh_log s
      ∧ (if old_owner t =? 0 then sent = [] else ∃ a, sent = [a] ∧ is_ack t a)).
    { unfold acceptTransfer. cbv zeta. destruct (old_owner t =? 0); cbn [negb].
      - exists s, []. rewrite bind_ok, app_nil_r. by splits.
      - destruct (store_built _ _ _ _ _ (le_bytes 8 (obj_id t)) (vso_msg_built VSO_TRANSFER_ACK) eq_refl) as (m & E & B & _).
        unfold store_int. rewrite E, bind_ok. cbn [sendVONMessage vhost_network]. rewrite !bind_ok.
        eexists _, [(addTarget m (old_owner t), true)]. splits; [reflexivity|done|done|]. eexists. split; [reflexivity|].
        split; [done|]. by apply addTarget_built. }
    destruct Ha as (s' & sent & Ea & Es & El & Hs).
    assert (Ei : obj_id t = id) by (apply find_In in Et; by apply (proj1 (Forall_forall _ _) (vi_keyed _ I)) in Et).
    rewrite Ei in Ea. rewrite Ea, !bind_ok. cbn beta iota. eexists s', _, sent.
    splits; [reflexivity|done|done|..]; cbn.
    + intros k Hk. by rewrite !find_set_ne.
    + by rewrite !find_set_eq.
    + by apply find_erase_eq, I.
    + by apply find_erase_eq, I.
    + exact Hs.
  - rewrite !bind_ok. cbn beta iota. eexists s, _, []. splits; [reflexivity|by rewrite app_nil_r|done|..]; cbn.
    + intros k Hk. by rewrite find_set_ne.
    + by rewrite find_set_eq.
    + done.
    + done.
Qed.

(** *** Peers that depart *)

Lemma reclaimed fr l r id : find id (reclaim_from fr l r) =
  if existsb (λ x, (so_closest (snd x) =? fr) && (id =? fst x)) l then Some 0 else find id r.
Proof.
  unfold reclaim_from. revert r. induction l as [|[k o] l IH]; intros r; cbn [foldl existsb fst snd]; [done|].
  rewrite IH. destruct (existsb _ l); [by rewrite orb_true_r|]. rewrite orb_false_r. destruct (so_closest o =? fr); [|done].
  cbn [andb]. apply find_set.
Qed.

(** When a peer departs, an object whose owner was closest to it is claimed by the first
    check that finds the object in the own region, without any delay. *)
Theorem departed_claimed fuel ms rate now s p msg s' p' m' ok id o c q : vso_inv p →
  msgtype msg = vso_code VSO_DISCONNECT → VSO_handleMessage vjunk junk fuel now s p msg = Ok (s', p', m', ok) →
  find id (objects p) = Some o → so_closest o = from msg → so_owner o = false →
  watched ms rate id p' [c] q → lk_inside c = true → 0 ≤ lk_now c →
  isOwner q id = true.
Proof.
  intros I T. unfold VSO_handleMessage. rewrite T, of_vso_code_code. cbv zeta. unfold handle_departure, von_handle.
  intros E Ho Hc Hw W Hi Hn. run_inv E. destruct r as [[s1 p1] m1]. injection E as <- <- <- <-.
  run_inv E0. destruct r as [[[s2 p2] m2] b]. apply ok3_inv in E0 as (<- & <- & <-).
  run_inv E. destruct r as [[[s3 v] m3] b3]. injection E as <- <- <- <-.
  assert (Es : object_stage (set_vp (set_timers p (transfer_timeout p) (reclaim_from (from msg) (objects p) (reclaim_timeout p))) v) id
             = Some (mkStage false (so_transit o) (find id (transfer_timeout p)) (Some 0))).
  { unfold object_stage, stage_of. cbn. rewrite Ho. cbn. rewrite Hw, reclaimed. replace (existsb _ _) with true; [done|].
    symmetry. apply existsb_exists. exists (id, o). split; [by apply list_elem_of_In, find_In|]. cbn. by rewrite Hc, !Z.eqb_refl. }
  pose proof (watched_run _ _ _ _ _ _ _ W Es) as Eq. cbn [looks foldl] in Eq. unfold look_turn, own_turn, wait in Eq.
  cbn [st_own st_claim] in Eq. rewrite Hi in Eq. change (default _ (Some 0)) with 0 in Eq.
  destruct (Z.leb_spec 0 (lk_now c)); [|lia]. cbn in Eq. unfold object_stage in Eq. unfold isOwner.
  destruct (find id (objects q)) as [oq|]; [|done]. by injection Eq as Ho1 _ _ _.
Qed.

(** *** Whatever happens to an object meanwhile *)

(** What a peer may do, or be told, between two checks: any message, the calls of its host, and the
    other tasks of its cycle. The object [id] is not deleted, neither by the host nor because its
    updates have stopped. The host never takes the ownership of an object away: the third argument
    of [updateSharedObject] is a null pointer or points to [true] wherever it is called. *)
Inductive meanwhile (ms id : Z) : VSOPeer V → VSOPeer V → Prop :=
  | m_message fuel now s p msg s' q m ok :
      VSO_handleMessage vjunk junk fuel now s p msg = Ok (s', q, m, ok) → meanwhile ms id p q
  | m_insert now s p k a b s' q ok : insertSharedObject now s p k a b = Ok (s', q, ok) → meanwhile ms id p q
  | m_update now s p k a b : b ≠ Some false → meanwhile ms id p (fst (updateSharedObject now s p k a b))
  | m_delete p k : k ≠ id → meanwhile ms id p (set_objects p (fst (deleteSharedObject (objects p) k)))
  | m_overlay now s p s' v : VP_tick now ms s (vp p) = Ok (s', v) → meanwhile ms id p (set_vp p v)
  | m_announce now s p s' q : announce_joined now ms s p = Ok (s', q) → meanwhile ms id p q
  | m_periodic now s p : has id (objects (snd (VSO_periodic now ms s p))) = true → meanwhile ms id p (snd (VSO_periodic now ms s p))
  | m_move now s p s' q : movePeerPosition now s p = Ok (s', q) → meanwhile ms id p q
  | m_neighbors now s p s' q n : checkUpdateToNeighbors now s p = Ok (s', q, n) → meanwhile ms id p q
  | m_load now s p level s' q : notifyLoading now ms s p level = Ok (s', q) → meanwhile ms id p q.

(** A claim comes nearer: the object comes to be owned, or its deadline is kept or over. *)
Definition nearer (x y : stage) : Prop :=
  st_transit x = 0 → st_transit y = 0
  ∧ (st_own y = true ∨ st_own y = st_own x ∧ (st_claim y = st_claim x ∨ st_claim y = Some 0)).

Definition tends (id : Z) p (q : VSOPeer V) : Prop := ∀ x, object_stage p id = Some x → ∃ y, object_stage q id = Some y ∧ nearer x y.

Lemma nearer_refl x : nearer x x.
Proof. intros E. split; [done|]. right. split; [done|by left]. Qed.

Lemma nearer_trans x y z : nearer x y → nearer y z → nearer x z.
Proof.
  intros H1 H2 E. destruct (H1 E) as [E1 D1]. destruct (H2 E1) as [E2 D2]. split; [done|].
  destruct D2 as [D2|[O2 C2]]; [by left|]. destruct D1 as [D1|[O1 C1]]; [left; congruence|]. right. split; [congruence|].
  destruct C2 as [->|C2]; [done|by right].
Qed.

Lemma tends_trans id p q (r : VSOPeer V) : tends id p q → tends id q r → tends id p r.
Proof. intros H1 H2 x Ex. destruct (H1 x Ex) as (y & Ey & N1). destruct (H2 y Ey) as (z & Ez & N2). exists z. split; [done|by eapply nearer_trans]. Qed.

Lemma tends_same id p (q : VSOPeer V) : objects q = objects p → reclaim_timeout q = reclaim_timeout p → tends id p q.
Proof.
  intros Eo Er x Ex. unfold object_stage in *. rewrite Eo. destruct (find id (objects p)) as [o|]; [|done]. injection Ex as <-.
  eexists. split; [reflexivity|]. unfold stage_of. rewrite Er. intros E. split; [done|]. right. split; [done|by left].
Qed.

(** One object is set, with its old transfer and not less owned. *)
Lemma tends_set id p k o' : (∀ o, find k (objects p) = Some o → (so_transit o = 0 → so_transit o' = 0) ∧ (so_owner o' = true ∨ so_owner o' = so_owner o)) →
  tends id p (set_objects p (set k o' (objects p))).
Proof.
  intros Ho x Ex. unfold object_stage in *. cbn [objects set_objects]. rewrite find_set.
  destruct (find id (objects p)) as [o|] eqn:Eo; [|done]. injection Ex as <-. destruct (Z.eqb_spec id k) as [->|]; [|by eexists; split; [reflexivity|apply nearer_refl]].
  eexists. split; [reflexivity|]. destruct (Ho o Eo) as [Ht Hw]. intros E. split; [by apply Ht|]. destruct Hw as [Hw|Hw]; [by left|]. right. split; [done|by left].
Qed.

Lemma transfer_tends id now s p t s' q : acceptTransfer now s p t = Ok (s', q) → tends id p q.
Proof.
  unfold acceptTransfer. cbv zeta. set (o := default _ _). set (o' := owned_by o true (so_transit o) (getTimestamp now s)).
  intros E. run_inv E. injection E as _ <-. clear E0.
  intros x Ex. unfold object_stage in *. cbn [objects set_timers set_objects]. rewrite find_set.
  destruct (find id (objects p)) as [oi|] eqn:Eo; [|done]. injection Ex as <-. destruct (Z.eqb_spec id (obj_id t)) as [->|Hne].
  - eexists. split; [reflexivity|]. intros E. subst o o'. rewrite Eo. split; [exact E|by left].
  - eexists. split; [reflexivity|]. intros E. split; [done|]. right. split; [done|]. left. cbn. by rewrite find_erase_ne.
Qed.

Lemma insert_tends id now s p k a b s' q ok : insertSharedObject now s p k a b = Ok (s', q, ok) → tends id p q.
Proof.
  unfold insertSharedObject. destruct (has k (objects p)) eqn:Ek; [intros [= _ <- _]; by apply tends_same|]. cbv zeta.
  set (p1 := set_objects p _). assert (T1 : tends id p p1).
  { apply tends_set. intros o Eo. unfold has in Ek. by rewrite Eo in Ek. }
  intros E. run_inv E. destruct r as [s1 p2]. injection E as _ <- _.
  assert (T2 : tends id p1 p2).
  { destruct (find k (transfer p1)) as [t|]; [|injection E0 as _ <-; by apply tends_same]. run_inv E0. destruct r as [s2 p3]. injection E0 as _ <-.
    eapply tends_trans; [by eapply transfer_tends|by apply tends_same]. }
  eapply tends_trans; [exact T1|]. eapply tends_trans; [exact T2|by apply tends_same].
Qed.

Lemma accept_all_tends id n now s p msg s' q m r : accept_all n now s p msg = Ok (s', q, m, r) → tends id p q.
Proof.
  revert s p msg s' q m r. induction n as [|n IH]; intros s p msg s' q m r; cbn [accept_all]; [intros [= _ <- _ _]; by apply tends_same|].
  intros E. run_inv E. destruct r0 as [[m1 t] k1]. destruct (has (obj_id t) (objects p)).
  - run_inv E. destruct r0 as [s1 p1]. apply IH in E. eapply tends_trans; [|exact E].
    destruct (my_id p =? new_owner t); [by eapply transfer_tends|injection E1 as _ <-; by apply tends_same].
  - destruct (my_id p =? new_owner t); [|by apply IH in E]. run_inv E. destruct r0 as [[[s1 p1] m2] r1]. injection E as _ <- _ _.
    apply IH in E1. eapply tends_trans; [|exact E1]. by apply tends_same.
Qed.

Lemma process_tends id now s p msg s' q m : processTransfer junk now s p msg = Ok (s', q, m) → tends id p q.
Proof.
  unfold processTransfer. destruct (isJoined p) as [p0 b] eqn:Ej. assert (T0 : tends id p p0).
  { unfold isJoined in Ej. destruct (VP_isJoined (vp p)) as [v b']. injection Ej as <- _. by apply tends_same. }
  destruct (negb b); [by intros [= _ <- _]|]. intros E. run_inv E. destruct r as [[m1 n] k]. run_inv E. destruct r as [[[s1 p1] m2] r1].
  apply (accept_all_tends id) in E1. eapply tends_trans; [exact T0|]. eapply tends_trans; [exact E1|].
  destruct r1 as [|i r1]; [injection E as _ <- _; by apply tends_same|]. run_inv E. destruct r as [s2 p2]. injection E as _ <- _.
  destruct (request_trace now s1 p1 (from m2) (i :: r1)) as (s3 & p3 & l3 & Er & Eo & _). rewrite Er in E2. injection E2 as _ <-.
  apply tends_same; [done|]. revert Er. unfold requestObjects. cbv zeta. destruct (filter _ _); [by intros [= _ <-]|].
  intros Er. run_inv Er. destruct r as [ma ka]. run_inv Er. run_inv Er. destruct r0 as [[[sa mb] fa] na]. by injection Er as _ <-.
Qed.

Lemma ack_tends id s p msg s' q m : handle_ack junk s p msg = Ok (s', q, m) → tends id p q.
Proof.
  unfold handle_ack. intros E. run_inv E. destruct r as [[m1 k] n]. injection E as _ <- _.
  destruct (find k (objects p)) as [o|] eqn:Ek; [|by apply tends_same]. apply tends_set. intros o' E. rewrite Ek in E. injection E as <-. cbn. tauto.
Qed.

Lemma departure_tends id now s p msg s' q m : handle_departure vjunk now s p msg = Ok (s', q, m) → tends id p q.
Proof.
  unfold handle_departure, von_handle. intros E. run_inv E. destruct r as [[[s1 p1] m1] b1]. injection E as _ <- _.
  run_inv E0. destruct r as [[[s2 v] m2] b2]. injection E0 as _ <- _ _.
  intros x Ex. unfold object_stage in *. cbn [objects set_vp set_timers]. destruct (find id (objects p)) as [o|]; [|done]. injection Ex as <-.
  eexists. split; [reflexivity|]. intros Et. split; [done|]. right. split; [done|]. cbn. rewrite reclaimed. by destruct (existsb _ _); [right|left].
Qed.

Lemma promote_tends id fuel now s p fr level pos o s' q : promote_one fuel now s p fr level pos o = Ok (s', q) → tends id p q.
Proof.
  revert s. induction fuel as [|fuel IH]; intros s; cbn [promote_one].
  { destruct (policy_findCandidate s level) as [[s1 a]|]; [discriminate|]. intros [= _ <-]. apply tends_same; reflexivity. }
  destruct (policy_findCandidate s level) as [[s1 a]|]; [|intros [= _ <-]; apply tends_same; reflexivity].
  intros E. run_inv E. destruct r as [ma ka]. run_inv E. destruct r as [mb kb]. cbv zeta in E. run_inv E. destruct r as [[[sc mc] fc] kc].
  destruct (0 <? u64 kc); [injection E as _ <-; apply tends_same; reflexivity|exact (IH _ E)].
Qed.

Lemma quiet_tends id now s p msg s' q m fuel :
  handle_promote now s p msg = Ok (s', q, m) ∨ handle_insert junk fuel now s p msg = Ok (s', q, m)
  ∨ handle_come_closer s p msg = Ok (s', q, m) ∨ handle_request junk now s p msg = Ok (s', q, m) → tends id p q.
Proof.
  intros [E|[E|[E|E]]].
  - unfold handle_promote in E. destruct (negb _); [injection E as _ <- _; by apply tends_same|].
    run_inv E. destruct r as [[ma la] ka]. run_inv E. destruct r as [[mb lb] kb]. run_inv E. destruct r as [s2 p2]. injection E as _ <- _.
    unfold VSO_join in E2. run_inv E2. destruct r as [s3 v3]. injection E2 as _ <-. by apply tends_same.
  - unfold handle_insert in E. destruct (negb _); [injection E as _ <- _; by apply tends_same|].
    run_inv E. destruct r as [[ma la] ka]. run_inv E. destruct r as [[mb lb] kb]. run_inv E. destruct r as [[mc lc] kc].
    run_inv E. destruct r as [s2 p2]. injection E as _ <- _. by eapply promote_tends.
  - unfold handle_come_closer in E. run_inv E. destruct (negb r); [injection E as _ <- _; by apply tends_same|].
    run_inv E. destruct r0 as [[ma la] ka]. run_inv E. run_inv E. injection E as _ <- _. destruct r1; by apply tends_same.
  - unfold handle_request in E. run_inv E. destruct r as [[ma la] ka]. run_inv E. destruct r as [mb ids]. run_inv E. destruct r as [sc kc].
    injection E as _ <- _. by apply tends_same.
Qed.

Lemma message_tends id fuel now s p msg s' q m ok : VSO_handleMessage vjunk junk fuel now s p msg = Ok (s', q, m, ok) → tends id p q.
Proof.
  unfold VSO_handleMessage. cbv zeta.
  assert (Von : von_handle vjunk now s p msg = Ok (s', q, m, ok) → tends id p q).
  { unfold von_handle. intros E. run_inv E. destruct r as [[[s1 v] m1] b]. injection E as _ <- _ _. by apply tends_same. }
  destruct (of_vso_code (msgtype msg)) as [[]|]; try exact Von; intros E.
  all: try (run_inv E; destruct r as [[s1 p1] m1]; injection E as _ <- _ _).
  - exact (departure_tends _ _ _ _ _ _ _ _ E0).
  - exact (quiet_tends id now s p msg s1 p1 m1 fuel (or_introl E0)).
  - exact (quiet_tends id now s p msg s1 p1 m1 fuel (or_intror (or_introl E0))).
  - exact (quiet_tends id now s p msg s1 p1 m1 fuel (or_intror (or_intror (or_introl E0)))).
  - injection E as _ <- _ _. destruct (_ =? _); by apply tends_same.
  - exact (process_tends _ _ _ _ _ _ _ _ E0).
  - exact (ack_tends _ _ _ _ _ _ _ E0).
  - exact (quiet_tends id now s p msg s1 p1 m1 fuel (or_intror (or_intror (or_intror E0)))).
Qed.

(** The tasks of the cycle *)
Lemma removed_find s l ids i : ordered l →
  ordered (snd (remove_objects s l ids)) ∧ (has i (snd (remove_objects s l ids)) = true → find i (snd (remove_objects s l ids)) = find i l).
Proof.
  revert s l. induction ids as [|k ids IH]; intros s l O; cbn [remove_objects]; [done|]. cbn [removeObject vhost_policy].
  unfold deleteSharedObject. destruct (has k l) eqn:Hk; cbn [fst].
  - destruct (IH (record_call s (Removed k)) (erase k l) (ordered_erase k l O)) as [O' F]. split; [exact O'|]. intros Hi. rewrite (F Hi).
    unfold has in Hi. rewrite (F Hi) in Hi. destruct (Z.eq_dec i k) as [->|Hne]; [by rewrite find_erase_eq in Hi|by apply find_erase_ne].
  - apply IH, O.
Qed.

Lemma periodic_tends id now ms s p : ordered (objects p) → has id (objects (snd (VSO_periodic now ms s p))) = true →
  tends id p (snd (VSO_periodic now ms s p)).
Proof.
  intros O. unfold VSO_periodic. cbv zeta. destruct (next_periodic p <=? _); [|intros _; by apply tends_same].
  unfold refreshObjects. cbv zeta. set (p1 := towards_load _).
  assert (E1 : objects p1 = objects p ∧ reclaim_timeout p1 = reclaim_timeout p).
  { unfold p1, towards_load. destruct (is_static _); [done|]. by destruct (getLoadCenter _). }
  destruct E1 as [Eo Er]. rewrite Eo. set (ids := fst <$> _). destruct (removed_find s (objects p) ids id O) as [_ F].
  destruct (remove_objects s (objects p) ids) as [s1 l]. cbn [snd objects set_objects] in *. intros Hi. specialize (F Hi).
  intros x Ex. unfold object_stage in *. cbn [objects set_objects]. rewrite F. destruct (find id (objects p)) as [o|]; [|done].
  injection Ex as <-. eexists. split; [reflexivity|]. intros Et. split; [done|]. right. split; [done|]. left. cbn. by rewrite Er.
Qed.

Lemma neighbors_find p l ups l' ups' n i : neighbors_of_objects p l ups = Ok (l', ups', n) →
  match find i l with
  | Some o => ∃ c, find i l' = Some (mkObj (so_aoi o) (so_owner o) (so_transit o) (so_update o) c)
  | None => True
  end.
Proof.
  revert ups l' ups' n. induction l as [|[k o] l IH]; intros ups l' ups' n; cbn [neighbors_of_objects]; [done|].
  intros E. run_inv E. cbv zeta in E. run_inv E. run_inv E. destruct r1 as [[l1 u1] n1]. injection E as <- _ _.
  cbn [find]. destruct (i =? k); [by eexists|]. exact (IH _ _ _ _ E2).
Qed.

Lemma neighbors_tends id now s p s' q n : checkUpdateToNeighbors now s p = Ok (s', q, n) → tends id p q.
Proof.
  unfold checkUpdateToNeighbors. intros E. run_inv E. destruct r as [[l ups] k]. run_inv E. injection E as _ <- _.
  pose proof (neighbors_find p (objects p) [] l ups k id E0) as F. intros x Ex. unfold object_stage in *. cbn [objects set_objects].
  destruct (find id (objects p)) as [o|]; [|done]. injection Ex as <-. destruct F as (c & ->).
  eexists. split; [reflexivity|]. intros Et. split; [done|]. right. split; [done|by left].
Qed.

Lemma load_tends id now ms s p level s' q : notifyLoading now ms s p level = Ok (s', q) → tends id p q.
Proof.
  unfold notifyLoading. cbv zeta. destruct (SpecFloat.SFeqb _ _); [intros [= _ <-]; by apply tends_same|].
  set (p1 := if SpecFloat.SFltb _ _ then _ else _). assert (E1 : objects p1 = objects p ∧ reclaim_timeout p1 = reclaim_timeout p)
    by (unfold p1; by destruct (SpecFloat.SFltb _ _)). clearbody p1. destruct E1 as [Eo Er].
  destruct (_ && _).
  { unfold overloaded. cbv zeta. destruct (_ <? VSO_INSERTION_TRIGGER); intros E; run_inv E; injection E as _ <-; (apply tends_same; [exact Eo|exact Er]). }
  destruct (_ && _).
  - unfold underloaded. cbv zeta. destruct (_ <? _); [intros [= _ <-]; apply tends_same; [exact Eo|exact Er]|].
    destruct (negb (getGatewayID s =? my_id p1)); [|intros [= _ <-]; apply tends_same; [exact Eo|exact Er]].
    intros E. run_inv E. destruct r as [s1 v]. injection E as _ <-. apply tends_same; [exact Eo|exact Er].
  - destruct (_ && _); intros [= _ <-]; (apply tends_same; [exact Eo|exact Er]).
Qed.

Lemma meanwhile_tends ms id p q : ordered (objects p) → meanwhile ms id p q → tends id p q.
Proof.
  intros O M. destruct M as [fuel now s p msg s' q m ok E|now s p k a b s' q ok E|now s p k a b Hb|p k Hk|now s p s' v E|now s p s' q E
    |now s p Hi|now s p s' q E|now s p s' q n E|now s p level s' q E].
  - by eapply message_tends.
  - by eapply insert_tends.
  - unfold updateSharedObject. destruct (find k (objects p)) as [o|] eqn:Ek; [|by apply tends_same]. apply tends_set.
    intros o' Eo. rewrite Ek in Eo. injection Eo as <-. cbn. split; [done|]. destruct b as [[]|]; [by left|done|by right].
  - intros x Ex. exists x. split; [|apply nearer_refl]. unfold object_stage in *. cbn [objects set_objects]. unfold deleteSharedObject.
    destruct (has k (objects p)); cbn [fst]; [|exact Ex]. rewrite find_erase_ne by done. exact Ex.
  - by apply tends_same.
  - unfold announce_joined in E. destruct (bool_decide _); [|injection E as _ <-; by apply tends_same].
    destruct (isJoined p) as [p1 b] eqn:Ej. assert (T : tends id p p1).
    { unfold isJoined in Ej. destruct (VP_isJoined (vp p)) as [v b']. injection Ej as <- _. by apply tends_same. }
    destruct b; [|by injection E as _ <-]. run_inv E. destruct r as [s1 b1]. run_inv E. destruct r as [[[s2 m2] f2] k2]. injection E as _ <-.
    eapply tends_trans; [exact T|by apply tends_same].
  - by apply periodic_tends.
  - unfold movePeerPosition in E. destruct (Position_eqb _ _); [injection E as _ <-; by apply tends_same|]. cbv zeta in E.
    run_inv E. destruct r as [[s1 v] b]. injection E as _ <-. by apply tends_same.
  - by eapply neighbors_tends.
  - by eapply load_tends.
Qed.

(** A stretch of the life of a peer, with the checks that concern an object *)
Inductive attended (ms rate id : Z) : VSOPeer V → list look → VSOPeer V → Prop :=
  | a_done p : attended ms rate id p [] p
  | a_other p q l r : vso_inv p → meanwhile ms id p q → attended ms rate id q l r → attended ms rate id p l r
  | a_check now s p s' q k o l r : vso_inv p → snd (isJoined p) = true → tr_rate (vh_net s) = rate →
      checkOwnershipTransfer now ms s p = Ok (s', q, k) → find id (objects p) = Some o →
      attended ms rate id q l r → attended ms rate id p (mkLook now (other_closest p o) (inside p o) :: l) r.

Lemma check_stage ms id now s p s' q k o x : vso_inv p → snd (isJoined p) = true →
  checkOwnershipTransfer now ms s p = Ok (s', q, k) → find id (objects p) = Some o → object_stage p id = Some x →
  object_stage q id = Some (fst (fst (look_turn ms (tr_rate (vh_net s)) x (mkLook now (other_closest p o) (inside p o))))).
Proof.
  intros I J Ec Ef Ex. destruct (ownership_run now ms s p s' q k I J Ec) as (s2 & trs & F & _ & [_ I'] & _).
  rewrite (turned_stage now ms s p q id o); [|apply I|apply I'|done|done].
  unfold object_stage in Ex. rewrite Ef in Ex. by injection Ex as <-.
Qed.

(** What the machine keeps over the checks of [l], and is not lost when a claim comes nearer, is
    kept by a peer. *)
Lemma attended_keeps ms rate id (K : stage → Prop) p l q x : (∀ x y, nearer x y → K x → K y) →
  Forall (λ c, ∀ x, K x → K (fst (fst (look_turn ms rate x c)))) l →
  attended ms rate id p l q → object_stage p id = Some x → K x → ∃ y, object_stage q id = Some y ∧ K y.
Proof.
  intros Hn F A. revert F x. induction A as [p|p q l r I M A IH|now s p s' q k o l r I J Er Ec Ef A IH]; intros F x Ex Kx.
  - by exists x.
  - destruct (meanwhile_tends ms id p q (vi_objects _ I) M x Ex) as (y & Ey & N). exact (IH F y Ey (Hn _ _ N Kx)).
  - apply Forall_cons in F as [Fc F]. eapply IH; [exact F|by eapply check_stage|]. rewrite Er. by apply Fc.
Qed.

Lemma attended_split ms rate id p l1 l2 q : attended ms rate id p (l1 ++ l2) q →
  ∃ r, attended ms rate id p l1 r ∧ attended ms rate id r l2 q.
Proof.
  intros A. remember (l1 ++ l2) as l eqn:El. revert l1 El. induction A as [p|p q l r I M A IH|now s p s' q k o l r I J Er Ec Ef A IH]; intros l1 El.
  - symmetry in El. apply app_nil in El as [-> ->]. exists p. split; apply a_done.
  - destruct (IH l1 El) as (r' & A1 & A2). exists r'. split; [by eapply a_other|done].
  - destruct l1 as [|c l1]; [cbn in El; subst l2; eexists; split; [apply a_done|by eapply a_check]|]. injection El as <- ->.
    destruct (IH l1 eq_refl) as (r' & A1 & A2). exists r'. split; [by eapply a_check|done].
Qed.

(** One check, and what is around it *)
Lemma attended_one ms rate id (K K' : stage → Prop) p c q x : (∀ x y, nearer x y → K x → K y) → (∀ x y, nearer x y → K' x → K' y) →
  (∀ x, K x → K' (fst (fst (look_turn ms rate x c)))) →
  attended ms rate id p [c] q → object_stage p id = Some x → K x → ∃ y, object_stage q id = Some y ∧ K' y.
Proof.
  intros Hn Hn' Hc A. remember [c] as l eqn:El. revert x El. induction A as [p|p q l r I M A IH|now s p s' q k o l r I J Er Ec Ef A IH]; intros x El Ex Kx; [done| |].
  - destruct (meanwhile_tends ms id p q (vi_objects _ I) M x Ex) as (y & Ey & N). exact (IH y El Ey (Hn _ _ N Kx)).
  - injection El as <- ->. eapply (attended_keeps ms rate id K' q [] r); [exact Hn'|constructor|exact A|by eapply check_stage|]. rewrite Er. by apply Hc.
Qed.

(** The object is owned or will be claimed by [d], if only from the first check on. *)
Definition quiet (d : Z) (x : stage) : Prop :=
  st_transit x = 0 ∧ (st_own x = true ∨ match st_claim x with Some e => e ≤ d | None => True end).

Lemma quiet_nearer d x y : 0 ≤ d → nearer x y → quiet d x → quiet d y.
Proof.
  intros Hd N [Et Q]. destruct (N Et) as [Ey D]. split; [done|]. destruct D as [D|[Eo [->| ->]]]; [by left| |by right].
  rewrite Eo. exact Q.
Qed.

Lemma awaiting_nearer d x y : 0 ≤ d → nearer x y → awaiting d x → awaiting d y.
Proof.
  intros Hd N A. assert (Et : st_transit x = 0) by (by destruct A as [[_ ?]|(_ & ? & _)]). destruct (N Et) as [Ey D].
  destruct D as [D|[Eo Ec]]; [by left|]. destruct A as [[Ao _]|(Ao & _ & e & Ee & He)]; [left; split; congruence|].
  right. splits; [congruence|done|]. destruct Ec as [Ec|Ec]; [exists e|exists 0]; split; congruence || done.
Qed.

(** C22: An object that is not a peer's own, and that every check of the peer finds in its region, is claimed
    by it once five times the timeout of a transfer has passed since the first of these checks,
    or sooner, and is its own from then on - whatever messages the peer handles meanwhile
    (transfers, acknowledgements and departures included), whatever else its host asks of it, and
    whatever the other tasks of its cycle do, as long as the object is not deleted. *)
Theorem claimed_in_time ms rate id p q x c0 mid cn : attended ms rate id p (c0 :: mid ++ [cn]) q →
  object_stage p id = Some x → st_own x = false → st_transit x = 0 → st_claim x = None →
  Forall (λ c, lk_inside c = true) (c0 :: mid ++ [cn]) →
  early ms rate (lk_now c0) → lk_now c0 + VSO_TIMEOUT_TRANSFER ms * rate * 5 ≤ lk_now cn →
  isOwner q id = true.
Proof.
  intros W Ex Eo Et Ec F He Hn. apply Forall_cons in F as [F0 F]. apply Forall_app in F as [Fm Fn]. apply Forall_inv in Fn.
  set (d := lk_now c0 + VSO_TIMEOUT_TRANSFER ms * rate * 5) in *.
  assert (Hd : 0 ≤ d) by (destruct He as (H1 & H2 & _); lia).
  destruct (attended_split ms rate id p [c0] (mid ++ [cn]) q W) as (p1 & W0 & W1).
  destruct (attended_split ms rate id p1 mid [cn] q W1) as (p2 & Wm & Wn).
  destruct (attended_one ms rate id (quiet d) (awaiting d) p c0 p1 x) as (x1 & Ex1 & A1); try done.
  { intros y z. by apply quiet_nearer. }
  { intros y z. by apply awaiting_nearer. }
  { intros y [Ey Qy]. unfold look_turn, own_turn, wait. rewrite F0. destruct (st_own y) eqn:Oy.
    - cbn [st_transit]. rewrite Ey. left. by split.
    - destruct Qy as [|Qy]; [done|]. assert (Hc : default (due ms rate (lk_now c0) 5) (st_claim y) ≤ d).
      { destruct (st_claim y); [exact Qy|]. change (due ms rate (lk_now c0) 5 ≤ d). rewrite due_early by (done || lia). reflexivity. }
      destruct (_ <=? lk_now c0); cbn [st_transit]; [by left|]. rewrite Ey. right. splits; [done|done|]. by eexists. }
  { split; [done|]. right. by rewrite Ec. }
  destruct (attended_keeps ms rate id (awaiting d) p1 mid p2 x1) as (x2 & Ex2 & A2); try done.
  { intros y z. by apply awaiting_nearer. }
  { eapply Forall_impl; [exact Fm|]. intros c Hc y Ay. by apply look_awaits. }
  destruct (attended_one ms rate id (awaiting d) (λ y, st_own y = true ∧ st_transit y = 0) p2 cn q x2) as (y & Ey & Oy & _); try done.
  { intros y z. by apply awaiting_nearer. }
  { intros y z N [Oy Ty]. destruct (N Ty) as [Tz [Oz|[Oz _]]]; split; congruence. }
  { intros y Ay. unfold look_turn, own_turn, wait. rewrite Fn. destruct Ay as [[-> Ty] | (-> & Ty & e & -> & Hde)].
    - cbn. by rewrite Ty.
    - change (default _ (Some e)) with e. destruct (Z.leb_spec e (lk_now cn)); [done|lia]. }
  unfold object_stage in Ey. unfold isOwner. destruct (find id (objects q)) as [o|]; [|done]. by injection Ey as <-.
Qed.

(** *** The load *)

(** The message that asks the enclosing neighbors to come closer *)
Definition appeal p (level : Z) (ens : list Z) (l : list (Message * bool)) : Prop :=
  match ens with
  | [] => l = []
  | _ => ∃ m, l = [(m, true)] ∧ built (vso_code VSO_MOVE) 0 ens (le_bytes 4 level) m ∧ from m = my_id p
  end.

(** The message that asks the gateway for another peer at the center of the load *)
Definition insertion s p (level : Z) (l : list (Message * bool)) : Prop :=
  match getLoadCenter p with
  | None => l = []
  | Some c => ∃ m, l = [(m, true)]
      ∧ built (vso_code VSO_INSERT) 0 [vh_gateway s] (le_bytes 4 level ++ wire c ++ wire (origin p)) m
  end.

(** Messages were sent, and the host has not changed otherwise. *)
Record sent_only s (l : list (Message * bool)) s' : Prop := mk_sent_only {
  td_sent : tr_sent (vh_net s') = tr_sent (vh_net s) ++ l;
  td_log : vh_log s' = vh_log s;
  td_gateway : vh_gateway s' = vh_gateway s;
  td_rate : tr_rate (vh_net s') = tr_rate (vh_net s) }.

Lemma sent_nothing s : sent_only s [] s.
Proof. split; [by rewrite app_nil_r|done..]. Qed.

Lemma sent_only_app s1 l1 s2 l2 s3 : sent_only s1 l1 s2 → sent_only s2 l2 s3 → sent_only s1 (l1 ++ l2) s3.
Proof. intros [E1 L1 G1 R1] [E2 L2 G2 R2]. split; try congruence. by rewrite E2, E1, app_assoc. Qed.

Lemma appeal_sent now s p level ens : vor_get_en (voronoi (vp p)) (my_id p) = Ok ens →
  ∃ s' l, notify_neighbors now s p level = Ok s' ∧ sent_only s l s' ∧ appeal p level ens l.
Proof.
  intros Ee. unfold notify_neighbors.
  assert (B0 : built (vso_code VSO_MOVE) 0 [] [] (set_priority (Message_new (vso_code VSO_MOVE) (my_id p)) 1)) by by split.
  destruct (store_built _ _ _ _ _ (le_bytes 4 level) B0 eq_refl) as (m & E & B & _).
  pose proof (store_from _ _ _ _ (bl_inv _ _ _ _ _ B0) E) as Ef.
  unfold store_int. rewrite E, bind_ok. cbn beta iota. rewrite Ee, bind_ok. destruct ens as [|k ens].
  - exists s, []. splits; [done|by apply sent_nothing|done].
  - cbn [sendVONMessage vhost_network]. rewrite bind_ok. eexists _, [(with_targets m (k :: ens), true)]. split; [reflexivity|]. split; [by split|].
    eexists. splits; [reflexivity| |exact Ef]. by eapply targets_built.
Qed.

Lemma insertion_sent now s p level : ∃ s' l, request_insertion now s p level = Ok s'
  ∧ sent_only s l s' ∧ insertion s p level l.
Proof.
  unfold request_insertion, insertion. destruct (getLoadCenter p) as [c|].
  2: { exists s, []. splits; [done|by apply sent_nothing|done]. }
  destruct (store_built _ _ _ _ _ (le_bytes 4 level) (vso_msg_built VSO_INSERT) eq_refl) as (m & E & B & A).
  unfold store_int. rewrite E, bind_ok. cbn beta iota. clear E.
  destruct (store_obj_built _ _ _ _ _ c B A) as (m1 & -> & B1 & A1). rewrite bind_ok. cbn beta iota.
  destruct (store_obj_built _ _ _ _ _ (origin p) B1 A1) as (m2 & -> & B2 & _). rewrite bind_ok. cbn beta iota.
  cbn [sendVONMessage vhost_network]. rewrite bind_ok. eexists _, [(addTarget m2 (vh_gateway s), true)]. split; [reflexivity|]. split; [by split|].
  eexists. split; [reflexivity|]. apply addTarget_built. by rewrite <- !app_assoc in B2.
Qed.

(** A level is positive, or that of normal load. *)
Definition positive (level : Z) : Prop :=
  SpecFloat.SFeqb (f32_of_bits level) (SpecFloat.S754_zero false) = false
  ∧ SpecFloat.SFltb (f32_of_bits level) (SpecFloat.S754_zero false) = false.
Definition normal (level : Z) : bool := SpecFloat.SFeqb (f32_of_bits level) (SpecFloat.S754_zero false).

(** What a peer does about its load *)
Inductive load_act := Waits | Appeals | AsksPeer.

(** The peer as a timer and a counter: [n] requests since the last peer was asked for, [d] the
    time at which the next is due, 0 when no overload is being waited for. A report of normal load
    stops the timer, and leaves the counter. *)
Fixpoint load_acts (wait n d : Z) (calls : list (Z * Z)) : list load_act :=
  match calls with
  | [] => []
  | (now, level) :: calls =>
      if normal level then Waits :: load_acts wait n 0 calls else
      let d := if d =? 0 then u64 (now + wait) else d in
      if now <? d then Waits :: load_acts wait n d calls
      else if n <? 4 then Appeals :: load_acts wait (n + 1) 0 calls
      else AsksPeer :: load_acts wait 0 0 calls
  end.

(** The reports of a sequence of moments and levels *)
Fixpoint notify_all (ms : Z) s p (calls : list (Z * Z)) : outcome (vhost * VSOPeer V) :=
  match calls with
  | [] => Ok (s, p)
  | (now, level) :: calls => '(s, p) ← notifyLoading now ms s p level; notify_all ms s p calls
  end.

Definition acted s p ens (x : load_act * (Z * Z)) (l : list (Message * bool)) : Prop :=
  match fst x with
  | Waits => l = []
  | Appeals => appeal p (snd (snd x)) ens l
  | AsksPeer => insertion s p (snd (snd x)) l
  end.

Definition loud (a : load_act) : Prop := match a with Waits => False | _ => True end.
#[local] Instance loud_dec a : Decision (loud a).
Proof. destruct a; cbn; apply _. Defined.

(** Four appeals, then the gateway is asked, and so on. *)
Fixpoint rounds (n : Z) (k : nat) : list load_act :=
  match k with
  | O => []
  | S k => if n <? 4 then Appeals :: rounds (n + 1) k else AsksPeer :: rounds 0 k
  end.

Lemma acts_in_rounds wait n d calls : filter loud (load_acts wait n d calls) = rounds n (length (filter loud (load_acts wait n d calls))).
Proof.
  revert n d. induction calls as [|[now level] calls IH]; intros n d; [done|]. cbn [load_acts]. cbv zeta.
  destruct (normal level); [rewrite filter_cons_False by (intros []); apply IH|].
  destruct (now <? _); [rewrite filter_cons_False by (intros []); apply IH|].
  destruct (n <? 4) eqn:E; (rewrite filter_cons_True by exact I); rewrite length_cons; cbn [rounds]; rewrite E; f_equal; apply IH.
Qed.

(** One report *)
Lemma load_turn now ms s p level ens wait : normal level = true ∨ positive level → vor_get_en (voronoi (vp p)) (my_id p) = Ok ens →
  wait = u64 (VSO_TIMEOUT_OVERLOAD_REQUEST ms * tr_rate (vh_net s)) → u64 (now + wait) ≠ 0 →
  let d := if normal level then 0 else if overload_timeout p =? 0 then u64 (now + wait) else overload_timeout p in
  let n := Z.max 0 (overload_count p) in
  let a := if normal level || (now <? d) then Waits else if n <? 4 then Appeals else AsksPeer in
  ∃ s' c d' l, notifyLoading now ms s p level = Ok (s', set_load p c d' 0) ∧ sent_only s l s' ∧ acted s p ens (a, (now, level)) l
  ∧ Z.max 0 c = match a with Waits => n | Appeals => n + 1 | AsksPeer => 0 end
  ∧ d' = match a with Waits => d | _ => 0 end.
Proof.
  intros Hl Ee Ew Hd d n a. unfold notifyLoading. cbv zeta. change (getTimestamp now s) with now.
  change (getTimestampPerSecond s) with (tr_rate (vh_net s)). rewrite <- Ew. fold (normal level).
  destruct (normal level) eqn:En; [|destruct Hl as [|[_ P2]]; [done|]; rewrite P2].
  { exists s, (overload_count p), 0, []. splits; [done|apply sent_nothing|done|done|done]. }
  change (if overload_timeout p =? 0 then u64 (now + wait) else overload_timeout p) with d. set (p1 := set_load p (overload_count p) d 0). change (overload_timeout p1) with d. change (underload_timeout p1) with 0.
  assert (Hd0 : (d =? 0) = false) by (apply Z.eqb_neq; subst d; destruct (Z.eqb_spec (overload_timeout p) 0); done).
  rewrite Hd0. cbn [negb andb]. subst a. cbn [orb]. rewrite Z.leb_antisym. destruct (now <? d); cbn [negb].
  { exists s, (overload_count p), d, []. splits; [done|apply sent_nothing|done|done|done]. }
  unfold overloaded. cbv zeta. change (overload_count p1) with (overload_count p).
  replace (if overload_count p <? 0 then 0 else overload_count p) with n by (subst n; destruct (Z.ltb_spec (overload_count p) 0); lia).
  replace (n + 1 <? VSO_INSERTION_TRIGGER) with (n <? 4).
  2: { unfold VSO_INSERTION_TRIGGER. destruct (Z.ltb_spec n 4), (Z.ltb_spec (n + 1) 5); lia. }
  destruct (n <? 4).
  - destruct (appeal_sent now s p1 level ens Ee) as (s' & l & -> & T & Ha). rewrite bind_ok.
    exists s', (n + 1), 0, l. splits; [done|exact T|exact Ha|subst n; lia|done].
  - destruct (insertion_sent now s p1 level) as (s' & l & -> & T & Ha). rewrite bind_ok.
    exists s', 0, 0, l. splits; [done|exact T|exact Ha|done|done].
Qed.

Lemma acted_later s p s1 p1 ens a x l : vh_gateway s1 = vh_gateway s → my_id p1 = my_id p → origin p1 = origin p →
  getLoadCenter p1 = getLoadCenter p → acted s1 p1 ens (a, x) l → acted s p ens (a, x) l.
Proof.
  intros Eg Ei Eo Ec. unfold acted, appeal, insertion. cbn [fst snd]. rewrite Eg, Ei, Eo, Ec. destruct a; exact id.
Qed.

(** C23: What a peer does about its load. It is told of its load again and again, and the load is normal or
    too high. When it is too high the peer waits for a while; if it is still sent_only so then, it asks
    its enclosing neighbors to come closer, and waits again; after four such appeals it asks the
    gateway instead, the next time, for another peer at the center of its load, and the count
    starts again. Normal load in between stops the waiting only: the appeals are counted since a
    peer was asked for last, however far they lie apart, so that the five overloads need not be
    in a row (the comments say that the count is reset). The peer keeps its objects and its
    place throughout. *)
Theorem overload_handled ms s p ens calls : vor_get_en (voronoi (vp p)) (my_id p) = Ok ens →
  let wait := u64 (VSO_TIMEOUT_OVERLOAD_REQUEST ms * tr_rate (vh_net s)) in
  Forall (λ x, (normal (snd x) = true ∨ positive (snd x)) ∧ u64 (fst x + wait) ≠ 0) calls →
  let acts := load_acts wait (Z.max 0 (overload_count p)) (overload_timeout p) calls in
  (∃ s' p' ls, notify_all ms s p calls = Ok (s', p') ∧ sent_only s (concat ls) s'
   ∧ Forall2 (acted s p ens) (zip acts calls) ls
   ∧ vp p' = vp p ∧ objects p' = objects p ∧ origin p' = origin p)
  ∧ filter loud acts = rounds (Z.max 0 (overload_count p)) (length (filter loud acts)).
Proof.
  intros Ee wait F acts. split; [|apply acts_in_rounds]. subst acts. revert s p Ee wait F.
  induction calls as [|[now level] calls IH]; intros s p Ee wait F.
  { exists s, p, []. splits; [done|apply sent_nothing|constructor|done..]. }
  apply Forall_cons in F as [[Hl Hd] F]. cbn [fst snd] in *.
  destruct (load_turn now ms s p level ens wait Hl Ee eq_refl Hd) as (s1 & c & d & l & E1 & T1 & A1 & Ec & Ed).
  set (p1 := set_load p c d 0) in *. assert (Ew : u64 (VSO_TIMEOUT_OVERLOAD_REQUEST ms * tr_rate (vh_net s1)) = wait) by (by rewrite (td_rate _ _ _ T1)).
  destruct (IH s1 p1 Ee) as (s' & p' & ls & E2 & T2 & A2 & Hv & Ho & Hr); [by rewrite Ew|]. rewrite Ew in A2.
  exists s', p', (l :: ls). cbn [notify_all]. rewrite E1, bind_ok. cbn beta iota. splits; [exact E2|by eapply sent_only_app| |exact Hv|exact Ho|exact Hr].
  assert (A3 : Forall2 (acted s p ens) (zip (load_acts wait (Z.max 0 c) d calls) calls) ls).
  { eapply Forall2_impl; [exact A2|]. intros [a x] k. apply (acted_later s p s1 p1 ens a x k (td_gateway _ _ _ T1)); reflexivity. }
  rewrite Ec, Ed in A3. clear -A1 A3. cbv zeta in A1, A3. cbn [load_acts]. cbv zeta.
  destruct (normal level); cbn [orb] in A1, A3; [apply Forall2_cons_2; [exact A1|exact A3]|].
  destruct (now <? _); [apply Forall2_cons_2; [exact A1|exact A3]|].
  destruct (_ <? 4); (apply Forall2_cons_2; [exact A1|exact A3]).
Qed.
End receive.
