(* ===== verification/VSOExamples.v ===== *)
(** Two neighboring peers that share objects: a hand-over from the first check to the
    acknowledgement, a claim, and the inputs at which the properties of the peers that own objects
    are used. *)

From S2P Require Import Prelude Bytes StdMap Float Serial Geometry Subscription Message VastNet VastSend.
From S2P Require Import MessageQueue QueueSafe Readable Handlers Built VonInterfaces VoronoiSF VoronoiSFSafe.
From S2P Require Import VonPeer VonSafe VonSpec VonExamples VonLinks VSOTypes VSOPeer VSOSafe VSOSpec VSOProtocol.
Local Open Scope Z_scope.

(** Three nodes at (0, 0), (20, 0) and (500, 400); the peer is the first or the second. *)
Definition owner_host (id : Z) : vhost := mkHost (host0 id) [peer_addr 9] 1 [] [].

Definition neighbor_peer (n : Node) : peer :=
  with_state (insert_at (insert_at (insert_at (with_self (new_peer (node_id n)) n) nodeA) nodeB) nodeC) JOINED.

Lemma neighbor_peer_inv n : n = nodeA ∨ n = nodeB → peer_inv (neighbor_peer n).
Proof.
  intros Hn. assert (C : core (neighbor_peer n)).
  { unfold neighbor_peer. assert (C : core (insert_at (insert_at (insert_at (with_self (new_peer (node_id n)) n) nodeA) nodeB) nodeC)).
    { do 3 apply insert_at_core.
      assert (C := proj1 (new_peer_inv (host0 (node_id n)) (node_id n) AOI_DETECTION_BUFFER true) : core (new_peer (node_id n))).
      destruct C. by split. }
    destruct C. by split. }
  split; [exact C|]. rewrite bool_decide_eq_false_2 by done.
  split; [by destruct Hn as [-> | ->]; vm_compute|]. apply memb_true. by destruct Hn as [-> | ->]; vm_compute.
Qed.

(** A peer with these objects and deadlines for handing over *)
Definition sharing (n : Node) (l : pool) (t : list (Z * Z)) : VSOPeer VoronoiSF :=
  mkVSO (neighbor_peer n) JOINED n false n [] l t [] [] [] 0 0 0 0.

Lemma sharing_inv n l t : n = nodeA ∨ n = nodeB → ordered l → ordered t → vso_inv (sharing n l t).
Proof. intros Hn Hl Ht. split; cbn; try done; try constructor; by apply neighbor_peer_inv. Qed.

Definition ordered_keysb {A} (l : list (Z * A)) : bool :=
  forallb (λ x, fst x <? snd x) (zip (fst <$> l) (tail (fst <$> l))).

Lemma ordered_one {A} k (v : A) : ordered [(k, v)].
Proof. repeat constructor. Qed.

(** The object 7 is at (18, 0), in the region of the second peer. *)
Definition object_at (x : Z) (own : bool) : VSOSharedObject := mkObj (place x 0 5) own 0 1 0.

Definition peer1 : VSOPeer VoronoiSF := sharing nodeA [(7, object_at 18 true)] [(7, 5)].
Definition peer2 : VSOPeer VoronoiSF := sharing nodeB [(7, object_at 18 false)] [].

#[export] Instance policy_call_eq_dec : EqDecision policy_call.
Proof. solve_decision. Defined.

Lemma peer1_inv : vso_inv peer1.
Proof. apply sharing_inv; [by left|apply ordered_one..]. Qed.

Lemma peer2_inv : vso_inv peer2.
Proof. apply sharing_inv; [by right|apply ordered_one|constructor]. Qed.

Definition vjunk0 : vso_uninit := mkVsoUninit 0 0 0.

Definition check1 : outcome (vhost * VSOPeer VoronoiSF * Z) := checkOwnershipTransfer 40 100 (owner_host 1) peer1.

Lemma one_handed c : handed_list 40 100 (owner_host 1) peer1 c (objects peer1) =
  if bool_decide (Some 2 = Some c) then [mkTransfer 7 c 1] else [].
Proof.
  unfold handed_list. cbn [objects peer1 sharing omap list_omap]. replace (handed_to _ _ _ _ _) with (Some 2) by by vm_compute.
  by case_bool_decide.
Qed.

Lemma few_handed c : (length (handed_list 40 100 (owner_host 1) peer1 c (objects peer1)) < 256)%nat.
Proof. rewrite one_handed. case_bool_decide; cbn; lia. Qed.

Lemma ownership_machine_witness :
  match check1 with
  | Ok (s', p', k) => k = 1 ∧ Forall2 (turned 40 100 (owner_host 1) peer1 p') (objects peer1) (objects p')
      ∧ vh_log s' = [CopyAsked 2 [7] false; Transferred 2 [7]]
  | Fail _ => False
  end.
Proof.
  unfold check1. destruct (checkOwnershipTransfer 40 100 (owner_host 1) peer1) as [[[s' p'] k]|f] eqn:E.
  - destruct (ownership_machine 40 100 (owner_host 1) peer1 s' p' k peer1_inv) as (F & _);
      [by vm_compute|exact E|exact few_handed|]. assert (Er : match check1 with Ok (s', _, k) => bool_decide (k = 1) && bool_decide (vh_log s' = [CopyAsked 2 [7] false; Transferred 2 [7]]) | _ => false end = true)
      by by vm_compute.
    unfold check1 in Er. rewrite E in Er. apply andb_true_iff in Er as [E1%bool_decide_eq_true E2%bool_decide_eq_true]. by splits.
  - vm_compute in E. discriminate E.
Defined.

Lemma handover_completes_witness :
  match check1 with
  | Ok (sa', pa', k) =>
      ∃ m, (m, true) ∈ tr_sent (vh_net sa') ∧ 2 ∈ targets m ∧ ∀ r, arrives m r →
      ∃ sb' pb' m' acks, VSO_handleMessage junk0 vjunk0 1 41 (owner_host 2) peer2 r = Ok (sb', pb', m', true)
      ∧ tr_sent (vh_net sb') = [] ++ acks
      ∧ ∀ sc rs, Forall2 (λ a r, arrives (fst a) r) acks rs →
        ∃ pa2, handle_each junk0 vjunk0 1 42 sc pa' rs = Ok (sc, pa2) ∧ isOwner pb' 7 = true ∧ isOwner pa2 7 = false
  | Fail _ => False
  end.
Proof.
  unfold check1. destruct (checkOwnershipTransfer 40 100 (owner_host 1) peer1) as [[[sa' pa'] k]|f] eqn:E; [|vm_compute in E; discriminate E].
  assert (El : handed_list 40 100 (owner_host 1) peer1 (my_id peer2) (objects peer1) = [mkTransfer 7 2 1]) by by vm_compute.
  pose proof (handover_completes junk0 vjunk0 1 40 41 42 100 (owner_host 1) peer1 sa' pa' k (owner_host 2) peer2) as Hh.
  cbv zeta in Hh. rewrite El in Hh.
  assert (J1 : snd (isJoined peer1) = true) by by vm_compute. assert (J2 : snd (isJoined peer2) = true) by by vm_compute.
  assert (M1 : my_id peer1 = 1) by by vm_compute. assert (M2 : my_id peer2 = 2) by by vm_compute.
  assert (K : Forall (λ t, has (obj_id t) (objects peer2) = true) [mkTransfer 7 2 1]) by (constructor; [by vm_compute|constructor]).
  rewrite M1, M2 in Hh. specialize (Hh peer1_inv J1 J2).
  specialize (Hh ltac:(vm_compute; by splits) ltac:(done) ltac:(by split) ltac:(by split)).
  specialize (Hh ltac:(constructor; [by split|constructor]) few_handed E ltac:(discriminate) K).
  destruct Hh as (m & Hm & Ht & Hr).
  exists m. splits; [exact Hm|exact Ht|]. intros r Ha. destruct (Hr r Ha) as (sb' & pb' & m' & acks & E1 & E2 & Hc).
  exists sb', pb', m', acks. splits; [exact E1|exact E2|]. intros sc rs Fr. destruct (Hc sc rs Fr) as (pa2 & E3 & F).
  apply Forall_inv in F as (O1 & O2 & _). exists pa2. splits; [exact E3|exact O1|exact O2].
Defined.

(** *** A claim: the object 8 is at (2, 0), in the region of the first peer, but not its own. *)

Definition claimant : VSOPeer VoronoiSF := sharing nodeA [(8, object_at 2 false)] [].

Lemma claimant_inv : vso_inv claimant.
Proof. apply sharing_inv; [by left|apply ordered_one|constructor]. Qed.

Definition after (r : outcome (vhost * VSOPeer VoronoiSF * Z)) : VSOPeer VoronoiSF :=
  match r with Ok (_, p, _) => p | Fail _ => claimant end.

Definition watch (now : Z) (p : VSOPeer VoronoiSF) : outcome (vhost * VSOPeer VoronoiSF * Z) :=
  checkOwnershipTransfer now 100 (owner_host 1) p.

Abbreviation claimant2 := (after (watch 10 claimant)).

Lemma watch_inv now p : vso_inv p → snd (isJoined p) = true → is_ok (watch now p) = true → vso_inv (after (watch now p)).
Proof.
  intros I J. unfold watch. destruct (checkOwnershipTransfer now 100 (owner_host 1) p) as [[[s' p'] k]|f] eqn:E; [|done].
  intros _. destruct (ownership_run now 100 (owner_host 1) p s' p' k I J E) as (s2 & trs & _ & _ & [_ I'] & _). exact I'.
Qed.

Lemma watch_step now p id o l r : vso_inv p → snd (isJoined p) = true → is_ok (watch now p) = true →
  find id (objects p) = Some o → watched 100 10 id (after (watch now p)) l r →
  watched 100 10 id p (mkLook now (other_closest p o) (inside p o) :: l) r.
Proof.
  intros I J. unfold watch. destruct (checkOwnershipTransfer now 100 (owner_host 1) p) as [[[s' p'] k]|f] eqn:E; [|done].
  intros _ Ef W. by apply (w_check 100 10 id now (owner_host 1) p s' p' k).
Qed.

Lemma claimant2_inv : vso_inv claimant2.
Proof. apply watch_inv; [exact claimant_inv|by vm_compute..]. Qed.

Lemma found_by {A} (x : option A) (f : A → bool) : match x with Some o => f o | None => false end = true → ∃ o, x = Some o ∧ f o = true.
Proof. destruct x as [o|]; [by exists o|done]. Qed.

(** Three appeals were made; overload, then normal load, then overload that lasts *)
Definition load_calls : list (Z * Z) := [(5000, 0x3F800000); (6000, 0); (7000, 0x3F800000); (1000000, 0x3F800000)].

Lemma overload_handled_witness :
  ∃ s' p' l1 l2 ens, notify_all 100 (owner_host 1) (set_load peer1 3 1000 0) load_calls = Ok (s', p')
  ∧ sent_only (owner_host 1) (l1 ++ l2) s' ∧ objects p' = objects peer1
  ∧ appeal (set_load peer1 3 1000 0) 0x3F800000 ens l1 ∧ insertion (owner_host 1) (set_load peer1 3 1000 0) 0x3F800000 l2 ∧ l2 ≠ [].
Proof.
  assert (Ee : ∃ ens, vor_get_en (voronoi (vp (set_load peer1 3 1000 0))) (my_id (set_load peer1 3 1000 0)) = Ok ens).
  { destruct (vor_get_en (voronoi (vp (set_load peer1 3 1000 0))) (my_id (set_load peer1 3 1000 0))) eqn:E; [by eexists|].
    vm_compute in E. discriminate E. }
  destruct Ee as (ens & Ee).
  destruct (overload_handled 100 (owner_host 1) (set_load peer1 3 1000 0) ens load_calls Ee) as [(s' & p' & ls & E1 & T & A & _ & Ho & _) _].
  { assert (Hp : positive 0x3F800000) by (split; vm_compute; reflexivity). assert (Hn : normal 0 = true) by (vm_compute; reflexivity).
    repeat apply Forall_cons_2; [..|apply Forall_nil_2]; (split; [first [exact (or_introl Hn)|exact (or_intror Hp)]|]); vm_compute; discriminate. }
  match type of A with Forall2 _ (zip ?acts _) _ => assert (Ea : acts = [Appeals; Waits; Waits; AsksPeer]) by by vm_compute end. rewrite Ea in A. clear Ea.
  apply Forall2_cons_inv_l in A as (l1 & r1 & A1 & A & ->). apply Forall2_cons_inv_l in A as (l2 & r2 & A2 & A & ->).
  apply Forall2_cons_inv_l in A as (l3 & r3 & A3 & A & ->). apply Forall2_cons_inv_l in A as (l4 & r4 & A4 & A & ->).
  apply Forall2_nil_inv_l in A as ->. cbn in A2, A3. subst l2 l3. cbn [concat app] in T. rewrite app_nil_r in T.
  exists s', p', l1, l4, ens. splits; [exact E1|exact T|exact Ho|exact A1|exact A4|]. intros ->. vm_compute in A4. by destruct A4 as (m & Em & _).
Defined.

(** *** A departure: the owner of object 8 was closest to the peer 2. *)

Definition orphan : VSOPeer VoronoiSF := sharing nodeA [(8, mkObj (place 2 0 5) false 0 1 2)] [].

Lemma orphan_inv : vso_inv orphan.
Proof. apply sharing_inv; [by left|apply ordered_one|constructor]. Qed.

Definition departs : Message := Message_new (vso_code VSO_DISCONNECT) 2.

Definition bereft : outcome (vhost * VSOPeer VoronoiSF * Message * bool) :=
  VSO_handleMessage junk0 vjunk0 1 20 (owner_host 1) orphan departs.
Definition bereft1 : VSOPeer VoronoiSF := match bereft with Ok (_, p, _, _) => p | Fail _ => orphan end.
Definition bereft2 : VSOPeer VoronoiSF := after (watch 21 bereft1).

Lemma departed_claimed_witness : isOwner bereft1 8 = false ∧ isOwner bereft2 8 = true.
Proof.
  split; [by vm_compute|].
  assert (D : decent junk0 1 departs) by (split; [by intros _|intros E; vm_compute in E; discriminate E]).
  destruct (VSO_handle_ok junk0 vjunk0 1 20 (owner_host 1) orphan departs orphan_inv) as (s' & p' & m' & ok & E & _ & _ & I' & _);
    [exact I|apply Message_new_inv|exact D|vm_compute; lia|].
  assert (Eb : bereft1 = p') by (unfold bereft1, bereft; by rewrite E).
  rewrite <- Eb in I'. assert (F : ∃ o, find 8 (objects bereft1) = Some o ∧ inside bereft1 o = true) by (apply found_by; by vm_compute).
  destruct F as (o & Eo & Hi).
  assert (W : watched 100 10 8 bereft1 [mkLook 21 (other_closest bereft1 o) (inside bereft1 o)] bereft2).
  { apply (watch_step 21 bereft1 8 o [] bereft2 I'); [by vm_compute|by vm_compute|exact Eo|unfold bereft2; apply w_done]. }
  rewrite Eb in W at 1.
  eapply (departed_claimed junk0 vjunk0 1 100 10 20 (owner_host 1) orphan departs s' p' m' ok 8 _ _ _ orphan_inv);
    [done|exact E|reflexivity|done|done|exact W|exact Hi|done].
Defined.

(** *** Between two checks that find object 8 in its region, the claimant hears that peer 2 departs. *)

Definition between : outcome (vhost * VSOPeer VoronoiSF * Message * bool) :=
  VSO_handleMessage junk0 vjunk0 1 50 (owner_host 1) claimant2 departs.
Definition claimant3 : VSOPeer VoronoiSF := match between with Ok (_, p, _, _) => p | Fail _ => claimant2 end.
Definition claimant4 : VSOPeer VoronoiSF := after (watch 200 claimant3).

Lemma attend_step now p id o l r : vso_inv p → snd (isJoined p) = true → is_ok (watch now p) = true →
  find id (objects p) = Some o → attended junk0 vjunk0 100 10 id (after (watch now p)) l r →
  attended junk0 vjunk0 100 10 id p (mkLook now (other_closest p o) (inside p o) :: l) r.
Proof.
  intros I J. unfold watch. destruct (checkOwnershipTransfer now 100 (owner_host 1) p) as [[[s' p'] k]|f] eqn:E; [|done].
  intros _ Ef W. by apply (a_check junk0 vjunk0 100 10 id now (owner_host 1) p s' p' k).
Qed.

Lemma claimed_in_time_witness : isOwner claimant 8 = false ∧ isOwner claimant4 8 = true.
Proof.
  split; [by vm_compute|].
  assert (D : decent junk0 1 departs) by (split; [by intros _|intros E; vm_compute in E; discriminate E]).
  destruct (VSO_handle_ok junk0 vjunk0 1 50 (owner_host 1) claimant2 departs claimant2_inv) as (s' & p' & m' & ok & E & _ & _ & I' & _);
    [exact I|apply Message_new_inv|exact D|vm_compute; lia|].
  assert (Ec : claimant3 = p') by (unfold claimant3, between; by rewrite E).
  pose proof (m_message junk0 vjunk0 100 8 1 50 (owner_host 1) claimant2 departs s' p' m' ok E) as M. rewrite <- Ec in M, I'.
  assert (F1 : ∃ o, find 8 (objects claimant) = Some o ∧ inside claimant o = true) by (apply found_by; by vm_compute).
  assert (F2 : ∃ o, find 8 (objects claimant3) = Some o ∧ inside claimant3 o = true) by (apply found_by; by vm_compute).
  destruct F1 as (o1 & E1 & I1), F2 as (o2 & E2 & I2).
  assert (W2 : attended junk0 vjunk0 100 10 8 claimant3 [mkLook 200 (other_closest claimant3 o2) (inside claimant3 o2)] claimant4).
  { apply (attend_step 200 claimant3 8 o2 [] claimant4 I'); [by vm_compute|by vm_compute|exact E2|unfold claimant4; apply a_done]. }
  rewrite I2 in W2. pose proof (a_other junk0 vjunk0 100 10 8 claimant2 claimant3 _ _ claimant2_inv M W2) as W1.
  pose proof (attend_step 10 claimant 8 o1 _ claimant4 claimant_inv ltac:(by vm_compute) ltac:(by vm_compute) E1 W1) as W.
  rewrite I1 in W.
  apply (claimed_in_time junk0 vjunk0 100 10 8 claimant claimant4 (mkStage false 0 None None) (mkLook 10 (other_closest claimant o1) true) []
    (mkLook 200 (other_closest claimant3 o2) true) W);
    [by vm_compute|done|done|done|by repeat constructor|vm_compute; by splits|vm_compute; discriminate].
Defined.

(** *** A peer that is told of itself, leaves, and lives through one more cycle: it has taken its own
    site for that of a new neighbor and removed it, and asks an empty diagram when it is asked to
    come closer. Without the list the same message does no harm. *)

Definition departed (l : list (Z * von_event)) : outcome (trace * peer) :=
  peer_run junk0 100 (host0 1) (new_peer 1) ((1, EJoin (place 0 0 10) gateway_node) :: l ++ [(3, ELeave true); (4, ETick)]).

Definition asked (l : list (Z * von_event)) : outcome (vhost * VSOPeer VoronoiSF * Message * bool) :=
  '(_, v) ← departed l;
  VSO_handleMessage junk0 vjunk0 1 5 (owner_host 1) (set_vp peer1 v) (Message_new (vso_code VSO_MOVE) 2).

Example own_listing_fails : is_ok (asked []) = true ∧ is_ok (departed [(2, EMessage own_list)]) = true
  ∧ asked [(2, EMessage own_list)] = Fail OutOfBounds.
Proof. split; [by vm_compute|]. split; by vm_compute. Qed.
