(* ===== verification/MatcherHost.v ===== *)
(** What a matcher keeps next to its peer (VAST/VASTMatcher.h), and what it does for its
    peer: it implements the interfaces [VONNetwork] and [VSOPolicy] on one state, the message queue
    with the matcher's own members. Neighboring matchers ([_neighbors]) are pointers to nodes of
    the peer; they are kept as the ids of those nodes and followed in the peer's nodes. *)

From S2P Require Import Prelude Bytes StdMap Float Serial Geometry Subscription Message VastBuffer NetManager.
From S2P Require Import NetInterface VastNet VastSend MessageQueue Routing QueueSafe Handlers Gateway.
From S2P Require Import VonInterfaces VonPeer VSOTypes VSOPeer.
Local Open Scope Z_scope.

Definition replica_map : Type := list (Z * list (Z * bool)).

Record matcher_host := mkMH {
  m_self : Node;
  m_gateway : Addr;
  m_world : Z;
  m_origin : Z;
  m_origin_addr : Addr;
  m_neighbors : list Z;
  m_subs : list (Z * Subscription);
  m_replicas : replica_map;
  m_closest : list (Z * Z);
  m_is_matcher : bool;
  m_static : bool;
  m_limit : Z;
  m_periodic : Z;
  m_queue : list Message;
  m_keepalive : Z;
  m_gate : gateway_state;
  m_stat : StatType }.

Section setters.
Implicit Types h : matcher_host.

Definition set_m_self h n g := mkMH n g (m_world h) (m_origin h) (m_origin_addr h) (m_neighbors h) (m_subs h)
  (m_replicas h) (m_closest h) (m_is_matcher h) (m_static h) (m_limit h) (m_periodic h) (m_queue h) (m_keepalive h)
  (m_gate h) (m_stat h).
Definition set_m_origin h w o a := mkMH (m_self h) (m_gateway h) w o a (m_neighbors h) (m_subs h)
  (m_replicas h) (m_closest h) (m_is_matcher h) (m_static h) (m_limit h) (m_periodic h) (m_queue h) (m_keepalive h)
  (m_gate h) (m_stat h).
Definition set_m_neighbors h l := mkMH (m_self h) (m_gateway h) (m_world h) (m_origin h) (m_origin_addr h) l (m_subs h)
  (m_replicas h) (m_closest h) (m_is_matcher h) (m_static h) (m_limit h) (m_periodic h) (m_queue h) (m_keepalive h)
  (m_gate h) (m_stat h).
(** Subscriptions, who has copies of them, and their alternative matchers *)
Definition set_tables h s r c := mkMH (m_self h) (m_gateway h) (m_world h) (m_origin h) (m_origin_addr h) (m_neighbors h) s
  r c (m_is_matcher h) (m_static h) (m_limit h) (m_periodic h) (m_queue h) (m_keepalive h)
  (m_gate h) (m_stat h).
Definition set_m_periodic h t k := mkMH (m_self h) (m_gateway h) (m_world h) (m_origin h) (m_origin_addr h) (m_neighbors h)
  (m_subs h) (m_replicas h) (m_closest h) (m_is_matcher h) (m_static h) (m_limit h) t (m_queue h) k
  (m_gate h) (m_stat h).
Definition set_m_queue h l := mkMH (m_self h) (m_gateway h) (m_world h) (m_origin h) (m_origin_addr h) (m_neighbors h)
  (m_subs h) (m_replicas h) (m_closest h) (m_is_matcher h) (m_static h) (m_limit h) (m_periodic h) l (m_keepalive h)
  (m_gate h) (m_stat h).
Definition set_gate h g := mkMH (m_self h) (m_gateway h) (m_world h) (m_origin h) (m_origin_addr h) (m_neighbors h)
  (m_subs h) (m_replicas h) (m_closest h) (m_is_matcher h) (m_static h) (m_limit h) (m_periodic h) (m_queue h) (m_keepalive h)
  g (m_stat h).
Definition set_stat h st := mkMH (m_self h) (m_gateway h) (m_world h) (m_origin h) (m_origin_addr h) (m_neighbors h)
  (m_subs h) (m_replicas h) (m_closest h) (m_is_matcher h) (m_static h) (m_limit h) (m_periodic h) (m_queue h) (m_keepalive h)
  (m_gate h) st.
End setters.

Definition with_subs h s := set_tables h s (m_replicas h) (m_closest h).
Definition with_replicas h r := set_tables h (m_subs h) r (m_closest h).

(** [VASTMatcher (is_matcher, overload_limit, is_static, coord)] *)
Definition matcher_host_new (matcher : bool) (limit : Z) (static : bool) (coord : option Position) : matcher_host :=
  let n := match coord with Some c => with_aoi Node_init (mkArea c 0 0) | None => Node_init end in
  mkMH n Addr_null 0 0 Addr_null [] [] [] [] matcher static limit 0 [] 0 gateway_new Stat_reset.

(** [isGateway ()] *)
Definition isGateway h : bool := host_id (m_gateway h) =? node_id (m_self h).

(** [removeSubscription (sub_no)], on the members and the pool of the peer *)
Definition remove_entry h (l : pool) (id : Z) : matcher_host * pool * bool :=
  if negb (has id (m_subs h)) then (h, l, false) else
  (set_tables h (erase id (m_subs h)) (erase id (m_replicas h)) (erase id (m_closest h)),
   fst (deleteSharedObject l id), true).

(** The objects of which [target] has no copy yet, which it has one of from now on, and the rest *)
Fixpoint split_copies (target : Z) (r : replica_map) (ids : list Z) : replica_map * list Z * list Z :=
  match ids with
  | [] => (r, [], [])
  | i :: ids =>
      let hosts := default [] (find i r) in
      if has target hosts then let '(r, full, up) := split_copies target r ids in (r, full, i :: up)
      else let '(r, full, up) := split_copies target (set i (set target true hosts) r) ids in (r, i :: full, up)
  end.

Section policy.
Context {N : Type} `{NetManager N}.
Implicit Types (q : mqueue N) (h : matcher_host).

(** [sendClientMessage (msg, client_ID, failed_targets)] *)
Definition sendClientMessage (now : Z) q (msg : Message) (client : Z) : outcome (mqueue N * Message * list Z * Z) :=
  if negb (client =? NET_ID_UNASSIGNED) then
    match targets msg with
    | [] => matcher_send now q (set_group (addTarget msg client) MSG_GROUP_VAST_CLIENT)
    | _ => Ok (q, msg, [], 0)
    end
  else matcher_send now q (set_group msg MSG_GROUP_VAST_RELAY).

(** [transferSubscription (target, sub_list, update_only)]; the number has 8 bits. *)
Fixpoint store_subs h (update : bool) (msg : Message) (n : Z) (ids : list Z) : outcome (Message * Z) :=
  match ids with
  | [] => Ok (msg, n)
  | id :: ids =>
      match find id (m_subs h) with
      | None => store_subs h update msg n ids
      | Some s =>
          msg ← (if update then '(msg, _) ← store_int 8 msg id; '(msg, _) ← store_obj msg (sub_aoi s); Ok msg
                 else '(msg, _) ← store_obj msg s; Ok msg);
          store_subs h update msg (u8 (n + 1)) ids
      end
  end.

Definition transferSubscription (now : Z) q h (target : Z) (ids : list Z) (update : bool) : outcome (mqueue N * Z) :=
  if negb (memb target (m_neighbors h)) then Ok (q, 0) else
  '(msg, n) ← store_subs h update (addTarget (set_priority (new_msg SUBSCRIBE_TRANSFER) 1) target) 0 ids;
  if 0 <? n then
    '(msg, _) ← store_int 1 (if update then set_type msg (code SUBSCRIBE_UPDATE) else msg) n;
    '(q, _, _, _) ← matcher_send now q msg;
    Ok (q, n)
  else Ok (q, n).

(** [copyObject (target, obj_list, update_only)] *)
Definition transfer_some (now : Z) q h (target : Z) (ids : list Z) (update : bool) : outcome (mqueue N * Z) :=
  match ids with [] => Ok (q, 0) | _ => transferSubscription now q h target ids update end.

Definition copy_object (now : Z) (s : mqueue N * matcher_host) (target : Z) (ids : list Z) (update : bool)
    : outcome (mqueue N * matcher_host * Z) :=
  let '(q, h) := s in
  let '(r, full, up) := if update then split_copies target (m_replicas h) ids else (m_replicas h, ids, []) in
  let h := with_replicas h r in
  '(q, n) ← transfer_some now q h target full false;
  '(q, k) ← transfer_some now q h target up true;
  Ok (q, h, n + k).

(** [ownershipTransferred (target, obj_list)]: the clients are told, each by a message to its
    host. *)
Fixpoint tell_hosts (now : Z) q h (msg : Message) (ids : list Z) : outcome (mqueue N) :=
  match ids with
  | [] => Ok q
  | id :: ids =>
      match find id (m_subs h) with
      | None => tell_hosts now q h msg ids
      | Some s =>
          '(q, msg, _, _) ← sendClientMessage now q msg (sub_host_id s);
          tell_hosts now q h (with_targets msg []) ids
      end
  end.

Definition ownership_transferred (now : Z) (s : mqueue N * matcher_host) (nodes : list (Z * Node)) (target : Z) (ids : list Z)
    : outcome (mqueue N * matcher_host * bool) :=
  let '(q, h) := s in
  if negb (memb target (m_neighbors h)) then Ok (q, h, false) else
  match find target nodes with
  | None => Fail OutOfBounds
  | Some n =>
      '(msg, _) ← store_obj (set_priority (new_msg NOTIFY_MATCHER) 1) (node_addr n);
      q ← tell_hosts now q h msg ids;
      Ok (q, h, true)
  end.

(** [objectClaimed (sub_id)] *)
Definition object_claimed (now : Z) (s : mqueue N * matcher_host) (id : Z) : outcome (mqueue N * matcher_host * bool) :=
  let '(q, h) := s in
  match find id (m_subs h) with
  | None => Ok (q, h, false)
  | Some x =>
      '(msg, _) ← store_obj (set_priority (new_msg NOTIFY_MATCHER) 1) (node_addr (m_self h));
      '(q, _, _, k) ← sendClientMessage now q (addTarget msg (sub_id x)) NET_ID_UNASSIGNED;
      Ok (q, h, 0 <? k)
  end.

(** [sendKeepAlive ()], given [isActive ()] *)
Definition keepalive_message h (sent received : Z) : outcome Message :=
  let reply := (m_world h =? 0) || negb (m_origin h =? host_id (m_origin_addr h)) in
  '(msg, _) ← store_int 1 (set_priority (new_msg MATCHER_ALIVE) 1) (if reply then 1 else 0);
  '(msg, _) ← store_int 2 msg (m_world h);
  '(msg, _) ← store_obj msg (node_addr (m_self h));
  '(msg, _) ← store_int 8 msg (m_origin h);
  '(msg, _) ← store_int 8 msg sent;
  '(msg, _) ← store_int 8 msg received;
  Ok (addTarget msg (host_id (m_gateway h))).

Definition sendKeepAlive (now ms : Z) q h (active : bool) : outcome (mqueue N * matcher_host) :=
  if active && negb (m_origin h =? 0) then
    let k := m_keepalive h - 1 in
    if k <=? 0 then
      let h := set_m_periodic h (m_periodic h) (TIMEOUT_MATCHER_KEEPALIVE ms) in
      msg ← keepalive_message h (getSendSize (net q) 0) (getReceiveSize (net q) 0);
      '(q, _, _, _) ← matcher_send now q msg;
      Ok (q, h)
    else Ok (q, set_m_periodic h (m_periodic h) k)
  else Ok (q, h).

(** [peerJoined (origin_id)]: the peer has joined, so that the matcher is active. *)
Definition peer_joined (now ms : Z) (s : mqueue N * matcher_host) (o : Z) : outcome (mqueue N * matcher_host * bool) :=
  let '(q, h) := s in
  '(q, h) ← sendKeepAlive now ms q (set_m_origin h (m_world h) o (m_origin_addr h)) true;
  Ok (q, h, true).

#[export] Instance host_network : VONNetwork (mqueue N * matcher_host) := {
  sendVONMessage now s m r :=
    '(q, m, failed, k) ← handler_sendMessage now (fst s) MSG_GROUP_VAST_MATCHER (set_reliable m r);
    Ok (q, snd s, m, failed, k);
  notifyAddressMapping s id a := (notifyMapping (fst s) id a, snd s);
  getHostAddress s := getAddress (manager (net (fst s)));
  getTimestamp now s := timestamp now (fst s);
  getTimestampPerSecond s := per_second (fst s) }.

#[export] Instance host_policy : VSOPolicy (mqueue N * matcher_host) := {
  policy_findCandidate s level :=
    match findCandidate (m_gate (snd s)) with
    | None => None
    | Some (g, a) => Some ((fst s, set_gate (snd s) g), a)
    end;
  getGatewayID s := host_id (m_gateway (snd s));
  copyObject := copy_object;
  removeObject s l id := let '(h, l, b) := remove_entry (snd s) l id in ((fst s, h), l, b);
  ownershipTransferred := ownership_transferred;
  objectClaimed := object_claimed;
  peerJoined := peer_joined }.
End policy.
