(* ===== verification/Matcher.v ===== *)
(** VAST/VASTMatcher.cpp: a matcher manages the subscriptions of the clients in its region. Its
    peer ([vm_peer], a pointer) takes part in the overlay and owns the subscriptions as shared
    objects; the matcher tells clients of the neighbors their subscriptions see, delivers
    publications, and on the gateway assigns worlds to matchers (file Gateway). *)

From S2P Require Import Prelude Bytes StdMap Float Serial Geometry Subscription Message VastBuffer NetManager.
From S2P Require Import NetInterface VastNet VastSend VastJoin MessageQueue Routing QueueSafe Handlers Gateway.
From S2P Require Import VonInterfaces VonPeer VSOTypes VSOPeer MatcherHost.
Local Open Scope Z_scope.

Record VASTMatcher (V : Type) := mkVM { vm_state : NodeState; vm_host : matcher_host; vm_peer : option (VSOPeer V) }.
Arguments mkVM {V}. Arguments vm_state {V}. Arguments vm_host {V}. Arguments vm_peer {V}.

Definition SUBSCRIPTION_AOI_BUFFER : Z := 10.
Definition MATCHER_AOI : Z := 5.

(** [float] values as their bits *)
Definition f32_ratio (a b : Z) : Z := bits_of_f32 (f32_div (f32_of_Z a) (f32_of_Z b)).
Definition UNDERLOAD : Z := bits_of_f32 (f32_of_Z (-1)).

(** A subscription, changed *)
Definition set_dirty (s : Subscription) (b : bool) : Subscription :=
  mkSub (sub_host_id s) (sub_id s) (layer s) (sub_aoi s) (relay s) (active s) b (in_region s)
        (sub_time s) (world_id s) (neighbor_states s) (neighbors s).
Definition set_in_region (s : Subscription) (b : bool) : Subscription :=
  mkSub (sub_host_id s) (sub_id s) (layer s) (sub_aoi s) (relay s) (active s) (dirty s) b
        (sub_time s) (world_id s) (neighbor_states s) (neighbors s).
Definition set_relay (s : Subscription) (a : Addr) : Subscription :=
  mkSub (sub_host_id s) (sub_id s) (layer s) (sub_aoi s) a (active s) (dirty s) (in_region s)
        (sub_time s) (world_id s) (neighbor_states s) (neighbors s).
Definition move_sub (s : Subscription) (a : Area) (t : Z) : Subscription :=
  mkSub (sub_host_id s) (sub_id s) (layer s)
        (mkArea (center a) (if radius a =? 0 then radius (sub_aoi s) else radius a)
                (if height a =? 0 then height (sub_aoi s) else height a))
        (relay s) (active s) true (in_region s)
        (if t =? 0 then sub_time s else t) (world_id s) (neighbor_states s) (neighbors s).
Definition renew_sub (s : Subscription) (id r : Z) : Subscription :=
  mkSub (sub_host_id s) id (layer s) (mkArea (center (sub_aoi s)) r (height (sub_aoi s))) (relay s) (active s) (dirty s)
        (in_region s) (sub_time s) (world_id s) (neighbor_states s) (neighbors s).

(** *** Who sees whom *)

(** Layer 0 sees all subscriptions in the region of this matcher. *)
Definition sees (s1 s2 : Subscription) : bool :=
  (layer s1 =? 0) && in_region s2
  || (layer s1 =? layer s2) && Area_overlaps (sub_aoi s1) (center (sub_aoi s2)) 0.

(** The inner loop: [s1] and each of the subscriptions behind it *)
Fixpoint see_rest (own : Z → bool) (s1 : Subscription) (l : list (Z * Subscription))
    : Subscription * list (Z * Subscription) :=
  match l with
  | [] => (s1, [])
  | (k, s2) :: l =>
      let s1' := if own (sub_id s1) && sees s1 s2 then addNeighbor s1 s2 else s1 in
      let s2' := if own (sub_id s2) && sees s2 s1' then addNeighbor s2 s1' else s2 in
      let '(s1', l) := see_rest own s1' l in
      (s1', (k, s2') :: l)
  end.

(** The outer loop; the number of subscriptions bounds its turns. *)
Fixpoint see_all (n : nat) (own : Z → bool) (l : list (Z * Subscription)) : list (Z * Subscription) :=
  match n, l with
  | S n, (k, s1) :: l =>
      let '(s1, l) := see_rest own s1 l in
      (k, clearInvisibleNeighbors (addNeighbor s1 s1)) :: see_all n own l
  | _, _ => []
  end.

(** Local variables that the code leaves uninitialised when a message is too short *)
Record vm_uninit := mkVmUninit {
  mu_world : Z; mu_id : Z; mu_x : Z; mu_y : Z; mu_layer : Z; mu_n : Z; mu_sub_world : Z }.

Section matcher.
Context {N V : Type} `{NetManager N} `{Voronoi V}.
Context (vjunk : von_uninit) (ojunk : vso_uninit) (gjunk : gw_uninit) (junk : vm_uninit).
Implicit Types (q : mqueue N) (h : matcher_host) (p : VSOPeer V) (m : VASTMatcher V).

Definition VM_isJoined m : bool := bool_decide (vm_state m = JOINED).

(** [isActive ()] *)
Definition VM_isActive m : VASTMatcher V * bool :=
  match vm_peer m with
  | None => (m, false)
  | Some p => let '(p, b) := isJoined p in (mkVM (vm_state m) (vm_host m) (Some p), b)
  end.

(** [initHandler ()] *)
Definition VM_initHandler q m : mqueue N * VASTMatcher V :=
  let h := vm_host m in
  let n := m_self h in
  (q, mkVM (vm_state m) (set_m_self h (mkNode (hostID q) (node_time n) (node_aoi n) (getAddress (manager (net q)))) (m_gateway h))
           (vm_peer m)).

(** [notifyCandidacy ()] *)
Definition notifyCandidacy (now : Z) q h : outcome (mqueue N) :=
  if m_is_matcher h && is_public (net q) then
    '(msg, _) ← store_obj (set_priority (new_msg MATCHER_CANDIDATE) 1) (node_addr (m_self h));
    '(q, _, _, _) ← matcher_send now q (addTarget msg (host_id (m_gateway h)));
    Ok q
  else Ok q.

(** [setGateway (gatewayIP)] *)
Definition setGateway q h (ip : IPaddr) : matcher_host :=
  let gw := validateIPAddress (net q) ip in
  set_m_self h (m_self h) (Addr_make (resolveHostID gw) gw).

(** [join (gatewayIP)] *)
Definition VM_join (now : Z) q m (ip : IPaddr) : outcome (mqueue N * VASTMatcher V * bool) :=
  match vm_peer m with
  | Some _ => Ok (q, m, false)
  | None =>
      let h := setGateway q (vm_host m) ip in
      let p := VSO_new (q, h) (node_id (m_self h)) AOI_DETECTION_BUFFER in
      let n := m_self h in
      let a := node_aoi n in
      let h := set_m_self h (with_aoi n (mkArea (center a) MATCHER_AOI (height a))) (m_gateway h) in
      q ← notifyCandidacy now q h;
      Ok (q, mkVM JOINED h (Some p), true)
  end.

(** [leave ()] *)
Definition VM_leave (now ms : Z) q m : outcome (mqueue N * VASTMatcher V * bool) :=
  if negb (VM_isJoined m) then Ok (q, m, false) else
  match vm_peer m with
  | None => Fail OutOfBounds
  | Some p =>
      '(s, v) ← VP_leave now (q, vm_host m) (vp p) true;
      '(s, _) ← VSO_tick now ms s (set_vp p v);
      let h := snd s in
      Ok (fst s, mkVM ABSENT (set_m_origin h 0 (m_origin h) (m_origin_addr h)) None, true)
  end.

(** *** Subscriptions *)

(** [addSubscription (sub, is_owner)] *)
Definition addSubscription (now : Z) q h p (sub : Subscription) (owner : bool)
    : outcome (mqueue N * matcher_host * VSOPeer V * bool) :=
  if has (sub_id sub) (m_subs h) then Ok (q, h, p, false) else
  let h := with_subs h (set (sub_id sub) (set_dirty sub true) (m_subs h)) in
  '(s, p, _) ← insertSharedObject now (q, h) p (sub_id sub) (sub_aoi sub) owner;
  let q := notifyMapping (notifyMapping (fst s) (host_id (relay sub)) (relay sub)) (sub_id sub) (relay sub) in
  Ok (q, snd s, p, true).

(** [removeSubscription (sub_no)] *)
Definition removeSubscription h p (id : Z) : matcher_host * VSOPeer V * bool :=
  let '(h, l, b) := remove_entry h (objects p) id in (h, set_objects p l, b).

Definition removeSubscriptions h p (ids : list Z) : matcher_host * VSOPeer V :=
  foldl (λ x id, fst (removeSubscription (fst x) (snd x) id)) (h, p) ids.

(** [updateSubscription (sub_no, new_aoi, sendtime, relay, is_owner)]; [None] is a null pointer. *)
Definition updateSubscription (now : Z) q h p (id : Z) (a : Area) (t : Z) (r : option Addr) (owner : option bool)
    : mqueue N * matcher_host * VSOPeer V * bool :=
  match find id (m_subs h) with
  | None => (q, h, p, false)
  | Some x =>
      if negb (t =? 0) && (t <? sub_time x) then (q, h, p, false) else
      let x := move_sub x a t in
      let p := fst (updateSharedObject now (q, h) p id (sub_aoi x) owner) in
      match r with
      | Some r =>
          if negb (host_id (relay x) =? host_id r) then
            let h := with_subs h (set id (set_relay x r) (m_subs h)) in
            (notifyMapping q (sub_id x) r,
             if isOwner p (sub_id x) then with_replicas h (erase (sub_id x) (m_replicas h)) else h, p, true)
          else (q, with_subs h (set id x (m_subs h)), p, true)
      | None => (q, with_subs h (set id x (m_subs h)), p, true)
      end
  end.

(** [subscriberDisconnected (host_id)] *)
Definition subscriberDisconnected h p (host : Z) : matcher_host * VSOPeer V :=
  removeSubscriptions h p ((λ x, sub_id (snd x)) <$> filter (λ x, sub_host_id (snd x) = host) (m_subs h)).

(** [refreshSubscriptionNeighbors ()] *)
Fixpoint clear_round p (l : list (Z * Subscription)) (me : Z) : outcome (list (Z * Subscription)) :=
  match l with
  | [] => Ok []
  | (k, x) :: l =>
      b ← vor_contains (voronoi (vp p)) me (center (sub_aoi x));
      l ← clear_round p l me;
      let x := clearStates x 0 in
      Ok ((k, if b : bool then set_in_region x true else x) :: l)
  end.

Definition refreshSubscriptionNeighbors h p : outcome matcher_host :=
  l ← clear_round p (m_subs h) (node_id (m_self h));
  Ok (with_subs h (see_all (length l) (isOwner p) l)).

(** *** Tasks *)

(** [refreshMatcherList ()] *)
Fixpoint node_ids p (l : list Z) : outcome (list Z) :=
  match l with
  | [] => Ok []
  | k :: l => n ← pointee (vp p) k; r ← node_ids p l; Ok (node_id n :: r)
  end.

Definition refreshMatcherList h p : outcome matcher_host :=
  l ← node_ids p (tail (pneighbors (vp p))); Ok (set_m_neighbors h l).

(** [checkOverload ()] *)
Definition checkOverload (now ms : Z) q h p : outcome (mqueue N * matcher_host * VSOPeer V) :=
  let n := getOwnedObjectSize p in
  let h := if 0 <? n then set_stat h (addRecord (m_stat h) n) else h in
  if m_limit h =? 0 then Ok (q, h, p) else
  let level := if m_limit h <? n then f32_ratio n (m_limit h) else if n =? 0 then UNDERLOAD else 0 in
  '(s, p) ← notifyLoading now ms (q, h) p level;
  Ok (fst s, snd s, p).

(** [notifyClients ()] *)
Definition neighbor_node (n : Subscription) : Node := mkNode (sub_id n) (sub_time n) (sub_aoi n) (relay n).

Fixpoint store_updates (subs : list (Z * Subscription)) (changed : bool) (msg : Message) (n : Z)
    (l : list (Z * NeighborUpdateStatus)) : outcome (Message * Z) :=
  match l with
  | [] => Ok (msg, n)
  | (k, st) :: l =>
      if bool_decide (st = UNCHANGED) && negb changed then store_updates subs changed msg n l else
      let nb := find k subs in
      let st := match nb with Some _ => st | None => DELETED end in
      '(msg, _) ← store_int 8 msg k;
      '(msg, _) ← store_int 4 msg (status_code st);
      msg ← match st, nb with
            | INSERTED, Some x => '(msg, _) ← store_obj msg (neighbor_node x); Ok msg
            | UPDATED, Some x => '(msg, _) ← store_obj msg (sub_aoi x); '(msg, _) ← store_int 8 msg (sub_time x); Ok msg
            | _, _ => Ok msg
            end;
      store_updates subs changed msg (u8 (n + 1)) l
  end.

(** The client is told of another matcher that is closest. *)
Definition notify_closest (now : Z) q h p (msg : Message) (x : Subscription) : outcome (mqueue N * matcher_host * Message) :=
  closest ← getClosestEnclosing p (center (sub_aoi x));
  if negb (closest =? 0) && negb (default 0 (find (sub_id x) (m_closest h)) =? closest) then
    let h := set_tables h (m_subs h) (m_replicas h) (set (sub_id x) closest (m_closest h)) in
    if memb closest (m_neighbors h) then
      n ← pointee (vp p) closest;
      '(msg, _) ← store_obj (set_priority (clear msg (code NOTIFY_CLOSEST) 0 3) 1) (node_addr n);
      '(q, msg, _, _) ← sendClientMessage now q msg (sub_host_id x);
      Ok (q, h, msg)
    else Fail OutOfBounds
  else Ok (q, h, msg).

Definition notify_client (now : Z) q h p (msg : Message) (failed : list Z) (id : Z) (x : Subscription)
    : outcome (mqueue N * matcher_host * Message * list Z) :=
  match neighbor_states x with
  | [] => Ok (q, h, msg, failed)
  | l =>
      if negb (isOwner p (sub_id x)) then Ok (q, h, msg, failed) else
      '(q, h, msg) ← notify_closest now q h p msg x;
      '(msg, n) ← store_updates (m_subs h) (dirty x) (set_priority (clear msg (code NEIGHBOR) 0 3) 1) 0 l;
      '(q, msg, failed) ←
        (if 0 <? n then
           '(msg, _) ← store_int 1 msg n;
           '(q, msg, _, k) ← sendClientMessage now q msg (sub_host_id x);
           Ok (q, msg, if k =? 0 then failed ++ [id] else failed)
         else Ok (q, msg, failed));
      Ok (q, with_subs h (set id (set_dirty x false) (m_subs h)), msg, failed)
  end.

Fixpoint notify_each (now : Z) q h p (msg : Message) (failed : list Z) (ids : list Z)
    : outcome (mqueue N * matcher_host * list Z) :=
  match ids with
  | [] => Ok (q, h, failed)
  | id :: ids =>
      '(q, h, msg, failed) ← match find id (m_subs h) with
                             | Some x => notify_client now q h p msg failed id x
                             | None => Ok (q, h, msg, failed)
                             end;
      notify_each now q h p msg failed ids
  end.

Definition notifyClients (now : Z) q h p : outcome (mqueue N * matcher_host * VSOPeer V) :=
  '(q, h, failed) ← notify_each now q h p (new_msg NEIGHBOR) [] (fst <$> m_subs h);
  let '(h, p) := removeSubscriptions h p failed in
  Ok (q, h, p).

(** The subscriptions that are owned stay alive. *)
Fixpoint refresh_owned (now : Z) q h p (ids : list Z) : mqueue N * matcher_host * VSOPeer V :=
  match ids with
  | [] => (q, h, p)
  | id :: ids =>
      match find id (m_subs h) with
      | Some x =>
          if isOwner p (sub_id x) then
            let '(q, h, p, _) := updateSubscription now q h p (sub_id x) (sub_aoi x) (sub_time x) None None in
            refresh_owned now q h p ids
          else refresh_owned now q h p ids
      | None => refresh_owned now q h p ids
      end
  end.

Definition matcher_periodic (now ms : Z) q h p : outcome (mqueue N * matcher_host * VSOPeer V) :=
  let t := timestamp now q in
  if m_periodic h <=? t then
    let h := set_m_periodic h (u64 (t + per_second q)) (m_keepalive h) in
    let '(q, h, p) := refresh_owned now q h p (fst <$> m_subs h) in
    let '(p, active) := isJoined p in
    '(q, h) ← sendKeepAlive now ms q h active;
    if isGateway h then
      '(q, g) ← removeExpiredMatchers now ms q (m_gate h); Ok (q, set_gate h g, p)
    else Ok (q, h, p)
  else Ok (q, h, p).

(** [postHandling ()] *)
Definition matcher_tasks (now ms : Z) q h p : outcome (mqueue N * matcher_host * VSOPeer V) :=
  h ← refreshMatcherList h p;
  '(q, h, p) ← (if m_static h then Ok (q, h, p) else checkOverload now ms q h p);
  h ← refreshSubscriptionNeighbors h p;
  '(q, h, p) ← notifyClients now q h p;
  matcher_periodic now ms q h p.

Definition VM_postHandling (now ms : Z) q m : outcome (mqueue N * VASTMatcher V) :=
  match vm_peer m with
  | None => Ok (q, m)
  | Some p =>
      let '(p, joined) := isJoined p in
      '(q, h, p) ← (if joined : bool then matcher_tasks now ms q (vm_host m) p else Ok (q, vm_host m, p));
      '(s, p) ← VSO_tick now ms (q, h) p;
      Ok (fst s, mkVM (vm_state m) (snd s) (Some p))
  end.
End matcher.
