(* ===== verification/MatcherHandle.v ===== *)
(** The messages of a matcher: [VASTMatcher::handleMessage] in VAST/VASTMatcher.cpp. Those with
    a type below [VON_MAX_MSG] are the peer's; until the peer has joined the others are kept or
    refused. Writing to the log is left out. *)

From S2P Require Import Prelude Bytes StdMap Float Serial Geometry Subscription Message VastBuffer NetManager.
From S2P Require Import NetInterface VastNet VastSend VastJoin MessageQueue Routing QueueSafe Handlers Gateway.
From S2P Require Import VonInterfaces VonPeer VSOTypes VSOPeer MatcherHost Matcher.
Local Open Scope Z_scope.

(** The application's type and the type [MESSAGE] *)
Definition as_message (app : Z) (msg : Message) : Message := set_type msg (app_type app MESSAGE).

(** Those a publication on [layer] at [pos] reaches *)
Definition covered (h : matcher_host) (layer_ : Z) (pos : Position) : list Z :=
  (λ x, sub_id (snd x)) <$>
    filter (λ x, ((layer_ =? layer (snd x)) && Area_overlaps (sub_aoi (snd x)) pos 0) = true) (m_subs h).

Section handle.
Context {N V : Type} `{NetManager N} `{Voronoi V}.
Context (vjunk : von_uninit) (ojunk : vso_uninit) (gjunk : gw_uninit) (junk : vm_uninit).
Implicit Types (q : mqueue N) (h : matcher_host) (p : VSOPeer V) (m : VASTMatcher V).

(** The result of a message that the peer's matcher part handles *)
Definition step_result : Type := mqueue N * matcher_host * VSOPeer V * Message.

(** [SUBSCRIBE], in the region of this matcher *)
Definition subscribe_here (now : Z) q h p (sub : Subscription) : outcome (mqueue N * matcher_host * VSOPeer V) :=
  let '(q, id) := if sub_id sub =? NET_ID_UNASSIGNED
                  then let '(v, id) := getUniqueID (net q) ID_GROUP_VON_VAST in (with_net q v, id)
                  else (q, sub_id sub) in
  let sub := renew_sub sub id (u16 (radius (sub_aoi sub) + SUBSCRIPTION_AOI_BUFFER)) in
  '(q, h, p) ←
    (if has id (m_subs h)
     then let '(q, h, p, _) := updateSubscription now q h p id (sub_aoi sub) 0 (Some (relay sub)) (Some true) in Ok (q, h, p)
     else '(q, h, p, _) ← addSubscription now q h p sub true; Ok (q, h, p));
  '(msg, _) ← store_int 8 (set_group (set_priority (new_msg SUBSCRIBE_NOTIFY) 1) MSG_GROUP_VAST_RELAY) id;
  '(msg, _) ← store_int 8 msg (sub_host_id sub);
  '(q, msg, _, _) ← matcher_send now q (addTarget msg (host_id (relay sub)));
  '(msg, _) ← store_int 8 (set_priority (clear msg (code SUBSCRIBE_R) 0 3) 1) id;
  '(msg, _) ← store_obj msg (node_addr (m_self h));
  '(q, _, _, _) ← sendClientMessage now q (addTarget msg id) NET_ID_UNASSIGNED;
  Ok (q, set_tables h (m_subs h) (m_replicas h) (erase id (m_closest h)), p).

Definition handle_subscribe (now : Z) q h p (msg : Message) : outcome step_result :=
  '(msg, sub, _) ← extract_obj msg (Sub_init (mu_sub_world junk)) false;
  let closest := vor_closest_to (voronoi (vp p)) (center (sub_aoi sub)) in
  inside ← vor_contains (voronoi (vp p)) (node_id (m_self h)) (center (sub_aoi sub));
  if inside || (closest =? node_id (m_self h)) then
    '(q, h, p) ← subscribe_here now q h p sub; Ok (q, h, p, msg)
  else
    '(q, msg, _, _) ← matcher_send now q (addTarget (with_targets (reset msg) []) closest);
    Ok (q, h, p, msg).

(** [MOVE], [MOVE_F] *)
Definition handle_client_move (now : Z) q h p (msg : Message) (full : bool) : outcome step_result :=
  '(msg, id, _) ← extract_int 8 msg (mu_id junk) false;
  '(msg, t, _) ← extract_int 8 msg 0 false;
  '(msg, bs, _) ← extract msg 8 false;
  let '(x, y) := match bs with
                 | Some bs => (le_val (take 4 bs), le_val (drop 4 bs))
                 | None => (mu_x junk, mu_y junk) end in
  '(msg, r, hh) ←
    (if full then
       '(msg, r, _) ← extract_int 2 msg 0 false;
       '(msg, hh, _) ← extract_int 2 msg 0 false;
       Ok (msg, r, hh)
     else Ok (msg, 0, 0));
  let '(q, h, p, _) := updateSubscription now q h p id (mkArea (mkPosition x y 0) r hh) t None None in
  Ok (q, h, p, msg).

(** A message delivered to the relays of its targets; what cannot be reached is removed. *)
Definition deliver_to_clients (now : Z) q h p (msg : Message) : outcome step_result :=
  '(q, msg, failed, _) ← sendClientMessage now q msg NET_ID_UNASSIGNED;
  let '(h, p) := removeSubscriptions h p failed in
  Ok (q, h, p, msg).

(** [PUBLISH] *)
Definition handle_publish (now app : Z) q h p (msg : Message) : outcome step_result :=
  '(msg, l, _) ← extract_int 2 (as_message app msg) (mu_layer junk) true;
  '(msg, area, _) ← extract_obj msg Area_clear true;
  let msg := foldl addTarget (with_targets (reset msg) []) (covered h l (center area)) in
  match targets msg with
  | [] => Ok (q, h, p, msg)
  | _ => deliver_to_clients now q h p msg
  end.

(** [SEND] *)
Fixpoint restore_targets (n : nat) (msg : Message) (target : Z) : outcome Message :=
  match n with
  | O => Ok msg
  | S n => '(msg, target, _) ← extract_int 8 msg target true; restore_targets n (addTarget msg target) target
  end.

Definition handle_send (now app : Z) q h p (msg : Message) : outcome step_result :=
  '(msg, n, _) ← extract_int 1 msg (mu_n junk) true;
  msg ← restore_targets (Z.to_nat n) (with_targets msg []) (mu_id junk);
  deliver_to_clients now q h p (as_message app (reset msg)).

(** [ORIGIN_MESSAGE] *)
Definition handle_origin_message (now app : Z) q h (msg : Message) : outcome (mqueue N * Message) :=
  if negb (m_origin h =? host_id (m_origin_addr h)) then Ok (q, msg) else
  let msg := addTarget (set_group (as_message app msg) MSG_GROUP_VAST_CLIENT) (m_origin h) in
  let q := if connected (manager (net q)) (m_origin h) then q
           else notifyMapping q (host_id (m_origin_addr h)) (m_origin_addr h) in
  '(q, msg, _, _) ← matcher_send now q msg;
  Ok (q, msg).

(** [SUBSCRIBE_TRANSFER] *)
Fixpoint take_transfers (n : nat) (now : Z) q h p (msg : Message) (sub : Subscription) : outcome step_result :=
  match n with
  | O => Ok (q, h, p, msg)
  | S n =>
      '(msg, sub, _) ← extract_obj msg sub false;
      '(q, h, p) ←
        (if has (sub_id sub) (m_subs h)
         then let '(q, h, p, _) := updateSubscription now q h p (sub_id sub) (sub_aoi sub) (sub_time sub) (Some (relay sub)) None in
              Ok (q, h, p)
         else '(q, h, p, _) ← addSubscription now q h p sub false; Ok (q, h, p));
      take_transfers n now q h p msg sub
  end.

Definition handle_subscribe_transfer (now : Z) q h p (msg : Message) : outcome step_result :=
  '(msg, n, _) ← extract_int 1 msg (mu_n junk) true;
  take_transfers (Z.to_nat n) now q h p msg (Sub_init (mu_sub_world junk)).

(** [SUBSCRIBE_UPDATE]; the ids that are not known are collected. *)
Fixpoint take_updates (n : nat) (now : Z) q h p (msg : Message) (id : Z) (a : Area)
    : outcome (step_result * list Z) :=
  match n with
  | O => Ok (q, h, p, msg, [])
  | S n =>
      '(msg, id, _) ← extract_int 8 msg id false;
      '(msg, a, _) ← extract_obj msg a false;
      let '(q, h, p, ok) := updateSubscription now q h p id a 0 None None in
      '(r, missing) ← take_updates n now q h p msg id a;
      Ok (r, if ok : bool then missing else id :: missing)
  end.

Definition handle_subscribe_update (now : Z) q h p (msg : Message) : outcome step_result :=
  '(msg, n, _) ← extract_int 1 msg (mu_n junk) true;
  '(q, h, p, msg, missing) ← take_updates (Z.to_nat n) now q h p msg (mu_id junk) Area_clear;
  match missing with
  | [] => Ok (q, h, p, msg)
  | _ => '(s, p) ← requestObjects now (q, h) p (from msg) missing; Ok (fst s, snd s, p, msg)
  end.

(** [NEIGHBOR_REQUEST] *)
Definition handle_neighbor_request h (msg : Message) : outcome (matcher_host * Message) :=
  '(msg, id, _) ← extract_int 8 msg (mu_id junk) false;
  '(msg, nb, _) ← extract_int 8 msg (mu_id junk) false;
  Ok (match find id (m_subs h) with
      | Some x => with_subs h (set id (clearStates x nb) (m_subs h))
      | None => h
      end, msg).

(** [MATCHER_WORLD_INFO] *)
Definition handle_world_info h (msg : Message) : outcome (matcher_host * Message) :=
  '(msg, w, _) ← extract_int 2 msg (mu_world junk) false;
  '(msg, a, _) ← extract_obj msg Addr_null false;
  Ok (set_m_origin h w (m_origin h) a, msg).

(** [MATCHER_INIT]: the matcher leaves and joins again if another is the origin; then its peer
    starts, unless it is active. *)
Definition restart (now ms : Z) q m : outcome (mqueue N * VASTMatcher V) :=
  '(q, m, _) ← VM_leave now ms q m;
  '(q, m, _) ← VM_join now q m (publicIP (m_gateway (vm_host m)));
  Ok (q, m).

Definition start_peer (now : Z) q m : outcome (mqueue N * VASTMatcher V) :=
  let '(m, active) := VM_isActive m in
  let h := vm_host m in
  match vm_peer m with
  | Some p =>
      if active : bool then Ok (q, m) else
      '(s, p) ← VSO_join now (q, h) p (node_aoi (m_self h)) (m_self h) (m_static h);
      Ok (fst s, mkVM (vm_state m) (snd s) (Some p))
  | None => Ok (q, m)
  end.

Definition handle_init (now ms : Z) q m (msg : Message) : outcome (mqueue N * VASTMatcher V * Message) :=
  '(msg, w, _) ← extract_int 2 msg (mu_world junk) false;
  '(msg, o, _) ← extract_int 8 msg (mu_id junk) false;
  let h := vm_host m in
  let m := mkVM (vm_state m) (set_m_origin h w (m_origin h) (m_origin_addr h)) (vm_peer m) in
  '(q, m) ← (if negb (o =? node_id (m_self h)) then restart now ms q m else Ok (q, fst (VM_isActive m)));
  let h := vm_host m in
  let m := mkVM (vm_state m) (set_m_origin h (m_world h) o (m_origin_addr h)) (vm_peer m) in
  '(q, m) ← start_peer now q m;
  Ok (q, m, msg).

(** [DISCONNECT] *)
Definition peer_fuel h : nat := length (matchers (m_gate h)).

Definition handle_matcher_disconnect (now : Z) q h p (msg : Message) : outcome step_result :=
  let '(h, p) := subscriberDisconnected h p (from msg) in
  '(s, p, msg, _) ← VSO_handleMessage vjunk ojunk (peer_fuel h) now (q, h) p (set_type msg (vso_code VSO_DISCONNECT));
  h ← refreshMatcherList (snd s) p;
  if isGateway h then
    '(q, g) ← gateway_disconnect now (fst s) (m_gate h) (from msg); Ok (q, set_gate h g, p, msg)
  else Ok (fst s, h, p, msg).

(** The messages that wait for the peer *)
Fixpoint flush_queue (now : Z) q (l : list Message) : outcome (mqueue N) :=
  match l with
  | [] => Ok q
  | msg :: l => '(q, _, _, _) ← matcher_send now q msg; flush_queue now q l
  end.

Definition resend_queue (now : Z) q h : outcome (mqueue N * matcher_host) :=
  q ← flush_queue now q (m_queue h); Ok (q, set_m_queue h []).

(** The gateway's messages; a matcher that is not the gateway ignores them. *)
Definition as_gateway h (r : outcome (mqueue N * gateway_state * Message)) q (msg : Message)
    : outcome (mqueue N * matcher_host * Message) :=
  if isGateway h then '(q, g, msg) ← r; Ok (q, set_gate h g, msg) else Ok (q, h, msg).

(** The switch; [p] is the peer. *)
Definition handle_typed (now ms app : Z) q m p (msg : Message) : outcome (mqueue N * VASTMatcher V * Message) :=
  let h := vm_host m in
  let keep (r : outcome (mqueue N * matcher_host * Message)) :=
    '(q, h, msg) ← r; Ok (q, mkVM (vm_state m) h (Some p), msg) in
  let step (r : outcome step_result) :=
    '(q, h, p, msg) ← r; Ok (q, mkVM (vm_state m) h (Some p), msg) in
  match of_code (msgtype msg) with
  | Some MATCHER_CANDIDATE =>
      keep (as_gateway h ('(g, msg) ← handle_candidate now q (m_gate h) msg; Ok (q, g, msg)) q msg)
  | Some MATCHER_INIT => handle_init now ms q (mkVM (vm_state m) h (Some p)) msg
  | Some MATCHER_ALIVE => keep (as_gateway h (handle_alive gjunk now q (m_gate h) msg) q msg)
  | Some MATCHER_WORLD_INFO => keep ('(h, msg) ← handle_world_info h msg; Ok (q, h, msg))
  | Some JOIN => keep (as_gateway h (handle_join gjunk now q (m_gate h) msg) q msg)
  | Some LEAVE => let '(h, p) := subscriberDisconnected h p (from msg) in Ok (q, mkVM (vm_state m) h (Some p), msg)
  | Some SUBSCRIBE => step (handle_subscribe now q h p msg)
  | Some MOVE => step (handle_client_move now q h p msg false)
  | Some MOVE_F => step (handle_client_move now q h p msg true)
  | Some PUBLISH => step (handle_publish now app q h p msg)
  | Some SEND => step (handle_send now app q h p msg)
  | Some ORIGIN_MESSAGE => keep ('(q, msg) ← handle_origin_message now app q h msg; Ok (q, h, msg))
  | Some SUBSCRIBE_TRANSFER => step (handle_subscribe_transfer now q h p msg)
  | Some SUBSCRIBE_UPDATE => step (handle_subscribe_update now q h p msg)
  | Some NEIGHBOR_REQUEST => keep ('(h, msg) ← handle_neighbor_request h msg; Ok (q, h, msg))
  | Some STAT => keep (if isGateway h then '(msg, _, _) ← extract_int 2 msg (mu_layer junk) false; Ok (q, h, msg)
                       else Ok (q, h, msg))
  | Some SYNC_CLOCK => keep (if isGateway h then '(q, msg) ← handle_sync_request gjunk now q msg; Ok (q, h, msg)
                             else Ok (q, h, msg))
  | Some _ => keep (Ok (q, h, msg))
  | None => if msgtype msg =? DISCONNECT then step (handle_matcher_disconnect now q h p msg) else keep (Ok (q, h, msg))
  end.

(** Messages that are handled before the peer has joined *)
Definition early_type (t : Z) : bool :=
  match of_code t with
  | Some MATCHER_CANDIDATE | Some MATCHER_INIT | Some MATCHER_ALIVE | Some JOIN => true
  | _ => false
  end.

(** [handleMessage (in_msg)] *)
Definition VM_handleMessage (now ms : Z) q m (msg : Message) : outcome (mqueue N * VASTMatcher V * Message * bool) :=
  if bool_decide (vm_state m = ABSENT) then Ok (q, m, msg, false) else
  let app := APP_MSGTYPE (msgtype msg) in
  let msg := set_type msg (VAST_MSGTYPE (msgtype msg)) in
  match vm_peer m with
  | None => Fail OutOfBounds
  | Some p =>
      let h := vm_host m in
      let typed q h p :=
        '(q, h) ← resend_queue now q h;
        '(q, m, msg) ← handle_typed now ms app q (mkVM (vm_state m) h (Some p)) p msg;
        Ok (q, m, msg, true) in
      if msgtype msg =? DISCONNECT then typed q h p
      else if msgtype msg <? VON_MAX_MSG then
        '(s, p, msg, _) ← VSO_handleMessage vjunk ojunk (peer_fuel h) now (q, h) p msg;
        Ok (fst s, mkVM (vm_state m) (snd s) (Some p), msg, true)
      else
        let '(p, joined) := if VM_isJoined m then isJoined p else (p, false) in
        if joined : bool then typed q h p
        else if isJoining p then
          c ← Message_copy msg;
          Ok (q, mkVM (vm_state m) (set_m_queue h (m_queue h ++ [c])) (Some p), msg, true)
        else if early_type (msgtype msg) then typed q h p
        else Ok (q, mkVM (vm_state m) h (Some p), msg, false)
  end.
End handle.
