(* ===== verification/MatcherSafe.v ===== *)
(** A matcher never fails: what its members satisfy, that it keeps what it promises its peer,
    and that every task and every message keeps all of it. *)

From S2P Require Import Prelude Bytes StdMap Float Serial Geometry Subscription Message VastBuffer NetManager.
From S2P Require Import NetInterface VastNet VastSend VastJoin MessageQueue Routing QueueSafe Readable Handlers.
From S2P Require Import ClientSafe Gateway GatewaySafe VonInterfaces VonPeer VonSafe VonLinks.
From S2P Require Import VSOTypes VSOPeer VSOSafe MatcherHost Matcher MatcherHandle.
Local Open Scope Z_scope.

(** The members of a subscription fit their types. *)
Definition typed_sub (s : Subscription) : Prop :=
  fits 64 (sub_host_id s) ∧ fits 16 (layer s) ∧ Area_valid (sub_aoi s) ∧ Addr_valid (relay s) ∧ fits 64 (sub_time s).

(** A subscription is kept under its id. *)
Definition kept_well (x : Z * Subscription) : Prop :=
  sub_id (snd x) = fst x ∧ ordered (neighbors (snd x)) ∧ typed_sub (snd x).

Section laws.
Context {N : Type} `{NetManagerLaws N} (me : Z).
Implicit Types (q : mqueue N) (h : matcher_host).

(** [me] is the id of the matcher's host. *)
Record host_inv h : Prop := mk_host_inv {
  hi_self : node_id (m_self h) = me;
  hi_gate : gateway_inv (m_gate h);
  hi_subs : ordered (m_subs h);
  hi_each : Forall kept_well (m_subs h);
  hi_queue : Forall Message_inv (m_queue h) }.

Lemma tables_inv h s r c : host_inv h → ordered s → Forall kept_well s → host_inv (set_tables h s r c).
Proof. intros [] ??. by split. Qed.

Lemma same_tables_inv h r c : host_inv h → host_inv (set_tables h (m_subs h) r c).
Proof. intros []. by split. Qed.

Lemma gate_inv h g : host_inv h → gateway_inv g → host_inv (set_gate h g).
Proof. intros [] ?. by split. Qed.

(** Sending to clients *)
Lemma matcher_sends now q msg : net_inv (net q) → Message_inv msg →
  ∃ q' m f k, matcher_send now q msg = Ok (q', m, f, k) ∧ net_inv (net q') ∧ Message_inv m ∧ incl f (targets msg).
Proof.
  intros I M. destruct (handler_send_safe now q MSG_GROUP_VAST_MATCHER msg I M) as (q' & m & f & k & E & Q & C & F).
  exists q', m, f, k. splits; [exact E|apply Q|apply C|exact F].
Qed.

Lemma client_sends now q msg c : net_inv (net q) → Message_inv msg →
  ∃ q' m f k, sendClientMessage now q msg c = Ok (q', m, f, k) ∧ net_inv (net q') ∧ Message_inv m.
Proof.
  intros I M. unfold sendClientMessage. destruct (negb _).
  - destruct (targets msg) as [|t ts]; [|by exists q, msg, [], 0].
    destruct (matcher_sends now q (set_group (addTarget msg c) MSG_GROUP_VAST_CLIENT) I) as (q' & m & f & k & E & I' & M' & _);
      [by apply addTarget_inv|]. by exists q', m, f, k.
  - destruct (matcher_sends now q (set_group msg MSG_GROUP_VAST_RELAY) I) as (q' & m & f & k & E & I' & M' & _); [done|].
    by exists q', m, f, k.
Qed.

Lemma store_subs_ok h u msg n ids : Message_inv msg → ∃ m k, store_subs h u msg n ids = Ok (m, k) ∧ Message_inv m.
Proof.
  revert msg n. induction ids as [|id ids IH]; intros msg n M; cbn [store_subs]; [by exists msg, n|].
  destruct (find id (m_subs h)) as [s|]; [|by apply IH]. destruct u.
  - step_store W. step_store W1. rewrite bind_ok. by apply IH.
  - step_store W. rewrite bind_ok. by apply IH.
Qed.

Lemma transfer_sub_ok now q h t ids u : net_inv (net q) →
  ∃ q' k, transferSubscription now q h t ids u = Ok (q', k) ∧ net_inv (net q').
Proof.
  intros I. unfold transferSubscription. destruct (negb _); [by exists q, 0|].
  match goal with |- context [store_subs h u ?m 0 ids] => destruct (store_subs_ok h u m 0 ids) as (m1 & n & -> & M1) end.
  { apply addTarget_inv. split; [apply Message_new_inv|done]. }
  rewrite bind_ok. cbn beta iota. destruct (0 <? n); [|by exists q, n].
  step_store W; [by destruct u|].
  match goal with |- context [matcher_send now q ?m] => destruct (matcher_sends now q m I) as (q' & m' & f & k & -> & I' & _); [done|] end.
  rewrite bind_ok. by exists q', n.
Qed.

Lemma transfer_some_ok now q h t ids u : net_inv (net q) →
  ∃ q' k, transfer_some now q h t ids u = Ok (q', k) ∧ net_inv (net q').
Proof. intros I. unfold transfer_some. destruct ids; [by exists q, 0|by apply transfer_sub_ok]. Qed.

Lemma copy_object_ok now q h t ids u : net_inv (net q) → host_inv h →
  ∃ q' h' n, copy_object now (q, h) t ids u = Ok (q', h', n) ∧ net_inv (net q') ∧ host_inv h' ∧ m_neighbors h' = m_neighbors h.
Proof.
  intros I Ih. unfold copy_object. cbv beta iota zeta.
  destruct (if u then split_copies t (m_replicas h) ids else (m_replicas h, ids, [])) as [[r full] up].
  destruct (transfer_some_ok now q (with_replicas h r) t full false I) as (q1 & n1 & -> & I1). rewrite bind_ok. cbn beta iota.
  destruct (transfer_some_ok now q1 (with_replicas h r) t up true I1) as (q2 & n2 & -> & I2). rewrite bind_ok.
  eexists q2, _, _. splits; [reflexivity|done|by apply same_tables_inv|done].
Qed.

Lemma tell_hosts_ok now q h msg ids : net_inv (net q) → Message_inv msg →
  ∃ q', tell_hosts now q h msg ids = Ok q' ∧ net_inv (net q').
Proof.
  revert q msg. induction ids as [|id ids IH]; intros q msg I M; cbn [tell_hosts]; [by exists q|].
  destruct (find id (m_subs h)) as [s|]; [|by apply IH].
  destruct (client_sends now q msg (sub_host_id s) I M) as (q1 & m1 & f & k & -> & I1 & M1). rewrite bind_ok. cbn beta iota.
  by apply IH.
Qed.

Lemma remove_entry_ok h l id : host_inv h →
  let '(h', l', b) := remove_entry h l id in host_inv h' ∧ m_neighbors h' = m_neighbors h ∧ (l' = l ∨ l' = erase id l).
Proof.
  intros I. unfold remove_entry. destruct (negb _); [by auto|]. splits; [|done|].
  - destruct I. apply tables_inv; [by split|auto with vast|by apply Forall_erase].
  - unfold deleteSharedObject. destruct (has id l); auto.
Qed.

Lemma keepalive_ok now ms q h b : net_inv (net q) → host_inv h →
  ∃ q' h', sendKeepAlive now ms q h b = Ok (q', h') ∧ net_inv (net q') ∧ host_inv h' ∧ m_neighbors h' = m_neighbors h.
Proof.
  intros I Ih. unfold sendKeepAlive. destruct (_ && _); [|by exists q, h]. cbv zeta.
  assert (Hp : ∀ t k, host_inv (set_m_periodic h t k)) by (intros; destruct Ih; by split).
  destruct (_ <=? 0); [|by eexists q, _]. unfold keepalive_message. cbv zeta.
  step_store W1. step_store W2. step_store W3. step_store W4. step_store W5. step_store W6. rewrite bind_ok.
  match goal with |- context [matcher_send now q ?m] =>
    destruct (matcher_sends now q m I) as (q' & m' & f & k & -> & I' & _); [by apply addTarget_inv|] end.
  rewrite bind_ok. by eexists q', _.
Qed.

#[export] Program Instance host_network_laws : VONNetworkLaws (mqueue N * matcher_host) := {
  net_good s := net_inv (net (fst s)) ∧ host_inv (snd s) }.
Next Obligation.
  intros now [q h] m r [I Ih] M. cbn in *.
  destruct (handler_send_safe now q MSG_GROUP_VAST_MATCHER (set_reliable m r) I M) as (q' & m' & f & k & -> & Q & C & F).
  rewrite bind_ok. eexists _, m', f, k. splits; [reflexivity|apply Q|done|exact C|exact F].
Qed.
Next Obligation. intros [q h] id a [I Ih]. split; [by apply notify_inv|done]. Qed.

#[export] Program Instance host_policy_laws : VSOPolicyLaws (mqueue N * matcher_host) := {
  candidates s := GatewaySafe.candidates (matchers (m_gate (snd s))); holds s := m_neighbors (snd s) }.
Next Obligation. intros now [q h] m r s' m' f k E. cbn in E. run_inv E. destruct r0 as [[[q1 m1] f1] k1]. by injection E as <- _ _ _. Qed.
Next Obligation. done. Qed.
Next Obligation.
  intros [q h] l s' a [I Ih]. cbn [fst snd] in *. unfold policy_findCandidate, host_policy. cbn [fst snd].
  destruct (findCandidate (m_gate h)) as [[g a']|] eqn:E; [|done]. intros [= <- <-].
  destruct (findCandidate_some _ _ _ (hi_gate h Ih) E) as (k & i & _ & _ & _ & _ & _ & Ig & Ec). cbn [fst snd].
  split; [by split; [|apply gate_inv]|]. split; [cbn; lia|done].
Qed.
Next Obligation.
  intros now [q h] t l b [I Ih]. cbn [fst snd] in *. destruct (copy_object_ok now q h t l b I Ih) as (q' & h' & n & E & I' & Ih' & En).
  exists (q', h'), n. splits; [exact E|by split|done].
Qed.
Next Obligation.
  intros [q h] l id [I Ih]. cbn [fst snd] in *. pose proof (remove_entry_ok h l id Ih) as Hr.
  unfold removeObject, host_policy. cbn [fst snd]. destruct (remove_entry h l id) as [[h' l'] b].
  destruct Hr as (Ih' & En & El). by splits.
Qed.
Next Obligation.
  intros now [q h] ns t l [I Ih] Hk. cbn [fst snd] in *.
  unfold VSOTypes.ownershipTransferred, host_policy, ownership_transferred. destruct (memb t (m_neighbors h)) eqn:Em; cbn [negb]; [|by eexists _, _; splits; [reflexivity|split|]].
  apply memb_true in Em. destruct (has_find _ _ (Hk Em)) as (n & ->). step_store W.
  match goal with |- context [tell_hosts now q h ?m l] => destruct (tell_hosts_ok now q h m l I) as (q' & -> & I'); [done|] end.
  rewrite bind_ok. eexists _, true. splits; [reflexivity|by split|done].
Qed.
Next Obligation.
  intros now [q h] id [I Ih]. cbn [fst snd] in *. unfold objectClaimed, host_policy, object_claimed.
  destruct (find id (m_subs h)) as [x|]; [|by eexists _, _; splits; [reflexivity|split|]]. step_store W.
  match goal with |- context [sendClientMessage now q ?m ?c] =>
    destruct (client_sends now q m c I) as (q' & m' & f & k & -> & I' & _); [by apply addTarget_inv|] end.
  rewrite bind_ok. eexists _, _. splits; [reflexivity|by split|done].
Qed.
Next Obligation.
  intros now ms [q h] o [I Ih]. cbn [fst snd] in *. unfold peerJoined, host_policy, peer_joined.
  destruct (keepalive_ok now ms q (set_m_origin h (m_world h) o (m_origin_addr h)) true I) as (q' & h' & -> & I' & Ih' & En).
  { destruct Ih. by split. }
  rewrite bind_ok. eexists _, true. splits; [reflexivity|by split|done].
Qed.
End laws.

(** *** Who sees whom *)

Lemma add_well k s v : kept_well (k, s) → kept_well (k, addNeighbor s v).
Proof.
  intros (E & O & T). pose proof (ordered_fold_add [v] s O) as O'. cbn [foldl] in O'. revert E T O'. unfold kept_well. cbn [fst snd].
  unfold addNeighbor. by destruct (find _ (neighbors s)) as [a|]; [destruct (Area_eqb a _)|].
Qed.

Lemma may_add_well k s v (b : bool) : kept_well (k, s) → kept_well (k, if b then addNeighbor s v else s).
Proof. destruct b; [apply add_well|done]. Qed.

Lemma drops_well k s l : kept_well (k, s) → kept_well (k, foldl drop_neighbor s l).
Proof.
  revert s. induction l as [|i l IH]; intros s (E & O & T); cbn [foldl]; [done|].
  apply IH. split; [done|]. split; [by apply ordered_erase|done].
Qed.

Lemma see_rest_well own k s l : kept_well (k, s) → Forall kept_well l →
  let '(s', l') := see_rest own s l in kept_well (k, s') ∧ Forall kept_well l' ∧ fst <$> l' = fst <$> l.
Proof.
  revert s. induction l as [|[k2 s2] l IH]; intros s W F; cbn [see_rest]; [done|]. apply Forall_cons in F as [W2 F]. cbv zeta.
  match goal with |- context [see_rest own ?a l] => assert (Wa : kept_well (k, a)) by (by apply may_add_well);
    specialize (IH a Wa F); destruct (see_rest own a l) as [s' l'] end.
  destruct IH as (W' & F' & E'). splits; [done| |cbn; by rewrite E']. constructor; [by apply may_add_well|done].
Qed.

Lemma see_all_well n own l : n = length l → Forall kept_well l →
  Forall kept_well (see_all n own l) ∧ fst <$> see_all n own l = fst <$> l.
Proof.
  revert l. induction n as [|n IH]; intros [|[k s] l] En F; try done. apply Forall_cons in F as [W F]. cbn [see_all].
  pose proof (see_rest_well own k s l W F) as Hr. destruct (see_rest own s l) as [s' l']. destruct Hr as (W' & F' & E').
  destruct (IH l') as [F2 E2]; [|done|]. { apply (f_equal length) in E'. rewrite !length_fmap in E'. cbn in En. lia. }
  split; [|cbn; by rewrite E2, E']. constructor; [|done]. by apply drops_well, add_well.
Qed.

(** *** The tasks of a cycle *)

Section tasks.
Context {N V : Type} `{NetManagerLaws N} `{VoronoiLaws V} (me : Z).
Implicit Types (q : mqueue N) (h : matcher_host) (p : VSOPeer V).

#[local] Instance here : VONNetworkLaws (mqueue N * matcher_host) := host_network_laws me.
#[local] Instance policy_here : VSOPolicyLaws (mqueue N * matcher_host) := host_policy_laws me.

(** What an operation of the matcher keeps *)
Definition well q h p : Prop := net_inv (net q) ∧ host_inv me h ∧ vso_inv p ∧ my_id p = me.

Lemma mk_well q h p : net_inv (net q) → host_inv me h → vso_inv p → my_id p = me → well q h p.
Proof. by splits. Qed.

Lemma subs_inv h l : host_inv me h → ordered l → Forall kept_well l → host_inv me (with_subs h l).
Proof. apply tables_inv. Qed.

Lemma find_well h id x : host_inv me h → find id (m_subs h) = Some x → kept_well (id, x).
Proof. intros I E. apply find_In in E. by apply (proj1 (Forall_forall _ _) (hi_each _ _ I)) in E. Qed.

Lemma set_sub_inv h id x : host_inv me h → kept_well (id, x) → host_inv me (with_subs h (set id x (m_subs h))).
Proof. intros I W. apply subs_inv; [done|apply ordered_set, I|]. apply Forall_set; [done|apply I]. Qed.

Lemma clear_round_ok p l : asks (vp p) → Forall kept_well l →
  ∃ l', clear_round p l me = Ok l' ∧ Forall kept_well l' ∧ fst <$> l' = fst <$> l.
Proof.
  intros [Iv Hs]. induction l as [|[k x] l IH]; intros F; cbn [clear_round]; [by exists []|]. apply Forall_cons in F as [W F].
  destruct (contains_ok (voronoi (vp p)) me (center (sub_aoi x)) Iv Hs) as (b & ->). rewrite bind_ok.
  destruct (IH F) as (l' & -> & F' & E'). rewrite bind_ok. eexists. split; [reflexivity|]. split; [|cbn; by rewrite E'].
  constructor; [|done]. by destruct b.
Qed.

Lemma see_neighbors_ok q h p : well q h p → asks (vp p) →
  ∃ h', refreshSubscriptionNeighbors h p = Ok h' ∧ well q h' p ∧ m_neighbors h' = m_neighbors h.
Proof.
  intros (I & Ih & Ip & Ei) A. unfold refreshSubscriptionNeighbors. rewrite (hi_self _ _ Ih).
  destruct (clear_round_ok p (m_subs h) A (hi_each _ _ Ih)) as (l & -> & F & E). rewrite bind_ok.
  destruct (see_all_well (length l) (isOwner p) l eq_refl F) as [F' E'].
  eexists. split; [reflexivity|]. split; [|done]. apply mk_well; try done. apply subs_inv; [done| |done].
  apply (ordered_keys (m_subs h)); [by rewrite E', E|apply Ih].
Qed.

(** The neighboring matchers are the nodes the peer knows now. *)
Lemma refresh_list_ok q h p : well q h p →
  ∃ h', refreshMatcherList h p = Ok h' ∧ well q h' p ∧ m_neighbors h' = tail (pneighbors (vp p)).
Proof.
  intros (I & Ih & Ip & Ei). unfold refreshMatcherList. assert (C := proj1 (vi_peer _ Ip)).
  assert (Hn : ∀ l, incl l (pneighbors (vp p)) → node_ids p l = Ok l).
  { induction l as [|k l IH]; intros Hl; cbn [node_ids]; [done|].
    destruct (pointee_ok (vp p) k C) as (n & -> & En); [apply list_elem_of_In, Hl; by left|].
    rewrite bind_ok, IH, bind_ok, En; [done|]. intros y Hy. apply Hl. by right. }
  rewrite Hn, bind_ok by (destruct (pneighbors (vp p)); intros y Hy; [done|by right]).
  eexists. split; [reflexivity|]. split; [|done]. apply mk_well; try done. destruct Ih. by split.
Qed.

Lemma fresh_links q h p : vso_inv p → m_neighbors h = tail (pneighbors (vp p)) → linked (q, h) p.
Proof.
  intros I E. right. intros k Hk _. cbn in Hk. rewrite E in Hk.
  assert (Hin : k ∈ pneighbors (vp p)) by (destruct (pneighbors (vp p)); [done|by right]).
  apply (proj1 (Forall_forall _ _) (co_points _ (proj1 (vi_peer _ I)))) in Hin as (n & m & Ef & _). unfold has. by rewrite Ef.
Qed.

(** The peer is where it asks the diagram, and the matcher's neighbors are the peer's, unless
    the peer has left. *)
Definition in_touch h p : Prop :=
  asks (vp p) ∧ (m_neighbors h = tail (pneighbors (vp p)) ∨ pneighbors (vp p) = [] ∧ idle (vp p)).

Lemma touch_links q h p : vso_inv p → in_touch h p → linked (q, h) p.
Proof. intros I [_ [E|[_ E]]]; [by apply fresh_links|by left]. Qed.

Lemma check_overload_ok now ms q h p : well q h p → vstate (vp p) ≠ ABSENT → m_neighbors h = tail (pneighbors (vp p)) →
  ∃ q' h' p', checkOverload now ms q h p = Ok (q', h', p') ∧ well q' h' p' ∧ in_touch h' p'.
Proof.
  intros (I & Ih & Ip & Ei) Hs En. unfold checkOverload. cbv zeta.
  pose proof (live_asks _ (inv_live _ (vi_peer _ Ip) Hs)) as A.
  set (h1 := if 0 <? getOwnedObjectSize p then _ else _).
  assert (I1 : host_inv me h1 ∧ m_neighbors h1 = m_neighbors h) by (unfold h1; destruct (_ <? _); split; try done; destruct Ih; by split).
  destruct I1 as [I1 En1]. clearbody h1. destruct (m_limit h1 =? 0).
  { eexists q, h1, p. splits; [reflexivity|by apply mk_well|]. split; [done|left; congruence]. }
  match goal with |- context [notifyLoading now ms _ p ?l] => set (level := l) end.
  destruct (notify_loading_ok now ms (q, h1) p level Ip) as ([q2 h2] & p2 & E & [G2 Gh2] & Eh & I2 & Ei2); [by split|done|].
  pose proof (notify_loading_peer _ _ _ _ _ _ _ E) as Hp. rewrite E, bind_ok. cbn [fst snd] in *.
  eexists q2, h2, p2. splits; [reflexivity|apply mk_well; [done|done|done|congruence]|]. cbn in Eh.
  destruct Hp as [Ep|(Ev & Ep & Ea)].
  - split; [by rewrite Ep|left; rewrite Ep; congruence].
  - split; [by unfold asks; rewrite Ev|right]. split; [done|]. apply idle_iff. by rewrite Ea.
Qed.

(** *** Telling the clients *)

Lemma store_updates_ok subs b msg n l : Message_inv msg →
  ∃ m k, store_updates subs b msg n l = Ok (m, k) ∧ Message_inv m.
Proof.
  revert msg n. induction l as [|[k st] l IH]; intros msg n M; cbn [store_updates]; [by exists msg, n|].
  destruct (_ && _); [by apply IH|]. cbv zeta. step_store W. step_store W1.
  destruct (find k subs) as [y|]; [destruct st|]; try (rewrite bind_ok; by apply IH).
  - step_store W2. rewrite bind_ok. by apply IH.
  - step_store W2. step_store W3. rewrite bind_ok. by apply IH.
Qed.

Lemma notify_closest_ok now q h p msg x : well q h p → in_touch h p → Message_inv msg →
  ∃ q' h' m', notify_closest now q h p msg x = Ok (q', h', m') ∧ well q' h' p ∧ m_neighbors h' = m_neighbors h
  ∧ m_subs h' = m_subs h ∧ Message_inv m'.
Proof.
  intros W [A En] M. pose proof W as (I & Ih & Ip & Ei). unfold notify_closest.
  destruct (getClosest_ok p (center (sub_aoi x)) Ip) as (c & -> & Hc). rewrite bind_ok.
  destruct (Z.eqb_spec c 0) as [->|Hc0]; cbn [negb andb]; [by exists q, h, msg|].
  destruct (negb _); [|by exists q, h, msg]. destruct Hc as [|Hc]; [done|]. cbv zeta.
  destruct En as [En|[En _]]; [|by rewrite En in Hc; apply elem_of_nil in Hc].
  cbn [m_neighbors set_tables]. rewrite En, (proj2 (memb_true _ _) Hc).
  destruct (pointee_ok (vp p) c (proj1 (vi_peer _ Ip))) as (n & -> & _).
  { destruct (pneighbors (vp p)); [done|by right]. }
  rewrite bind_ok. step_store W1; [by apply clear_inv|].
  match goal with |- context [sendClientMessage now q ?m ?c] => destruct (client_sends now q m c I W1) as (q1 & m1 & f & k & -> & I1 & M1) end.
  rewrite bind_ok. eexists q1, _, m1. splits; [reflexivity| |done|done|done]. apply mk_well; try done. by apply same_tables_inv.
Qed.

Lemma in_touch_same h h' p : m_neighbors h' = m_neighbors h → in_touch h p → in_touch h' p.
Proof. by intros E [A T]; split; [|rewrite E]. Qed.

Lemma notify_client_ok now q h p msg failed id x : well q h p → in_touch h p → Message_inv msg →
  kept_well (id, x) →
  ∃ q' h' m' f', notify_client now q h p msg failed id x = Ok (q', h', m', f') ∧ well q' h' p
  ∧ m_neighbors h' = m_neighbors h ∧ Message_inv m'.
Proof.
  intros W T M Wx. unfold notify_client. destruct (neighbor_states x) as [|st sts] eqn:Es; [by exists q, h, msg, failed|].
  rewrite <- Es. destruct (negb _); [by exists q, h, msg, failed|].
  destruct (notify_closest_ok now q h p msg x W T M) as (q1 & h1 & m1 & -> & W1 & En1 & _ & M1). rewrite bind_ok. cbn beta iota.
  match goal with |- context [store_updates ?s ?b ?m 0 ?l] => destruct (store_updates_ok s b m 0 l) as (m2 & n & -> & M2) end.
  { by apply clear_inv. }
  rewrite bind_ok. cbn beta iota. pose proof W1 as (I1 & Ih1 & Ip1 & Ei1).
  match goal with |- context [?m ≫= _] => assert (Hm : ∃ q3 m3 f3, m = Ok (q3, m3, f3) ∧ net_inv (net q3) ∧ Message_inv m3) end.
  { destruct (0 <? n); [|by exists q1, m2, failed]. step_store W3.
    match goal with |- context [sendClientMessage now q1 ?m ?c] => destruct (client_sends now q1 m c I1 W3) as (q3 & m3 & f & k & -> & I3 & M3) end.
    rewrite bind_ok. by eexists q3, m3, _. }
  destruct Hm as (q3 & m3 & f3 & -> & I3 & M3). rewrite bind_ok. eexists q3, _, m3, f3. splits; [reflexivity| |done|done].
  apply mk_well; try done. by apply set_sub_inv.
Qed.

Lemma notify_each_ok now q h p msg failed ids : well q h p → in_touch h p → Message_inv msg →
  ∃ q' h' f', notify_each now q h p msg failed ids = Ok (q', h', f') ∧ well q' h' p ∧ m_neighbors h' = m_neighbors h.
Proof.
  revert q h msg failed. induction ids as [|id ids IH]; intros q h msg failed W T M; cbn [notify_each]; [by exists q, h, failed|].
  destruct (find id (m_subs h)) as [x|] eqn:E.
  - destruct (notify_client_ok now q h p msg failed id x W T M) as (q1 & h1 & m1 & f1 & -> & W1 & En1 & M1); [by eapply find_well, E; apply W|].
    rewrite bind_ok. cbn beta iota. destruct (IH q1 h1 m1 f1 W1 (in_touch_same _ _ _ En1 T) M1) as (q2 & h2 & f2 & -> & W2 & En2).
    exists q2, h2, f2. splits; [done|done|congruence].
  - rewrite bind_ok. by apply IH.
Qed.

Lemma remove_sub_ok q h p id : well q h p →
  let '(h', p', b) := removeSubscription h p id in well q h' p' ∧ m_neighbors h' = m_neighbors h ∧ vp p' = vp p.
Proof.
  intros (I & Ih & Ip & Ei). unfold removeSubscription. pose proof (remove_entry_ok me h (objects p) id Ih) as Hr.
  destruct (remove_entry h (objects p) id) as [[h' l'] b]. destruct Hr as (Ih' & En & El). splits; [|done|done].
  apply mk_well; try done. destruct Ip. split; cbn; try done. destruct El as [-> | ->]; auto with vast.
Qed.

Lemma remove_subs_ok q h p ids : well q h p →
  let '(h', p') := removeSubscriptions h p ids in well q h' p' ∧ m_neighbors h' = m_neighbors h ∧ vp p' = vp p.
Proof.
  unfold removeSubscriptions. revert h p. induction ids as [|id ids IH]; intros h p W; cbn [foldl]; [done|]. cbn [fst snd].
  pose proof (remove_sub_ok q h p id W) as Hr. destruct (removeSubscription h p id) as [[h1 p1] b]. destruct Hr as (W1 & En & Ev).
  specialize (IH h1 p1 W1). cbn [fst]. destruct (foldl _ _ _) as [h2 p2]. destruct IH as (W2 & En2 & Ev2). splits; [done|congruence..].
Qed.

Lemma in_touch_vp h h' p p' : m_neighbors h' = m_neighbors h → vp p' = vp p → in_touch h p → in_touch h' p'.
Proof. intros E Ev [A T]. unfold in_touch. by rewrite E, Ev. Qed.

Lemma notify_clients_touch now q h p : well q h p → in_touch h p →
  ∃ q' h' p', notifyClients now q h p = Ok (q', h', p') ∧ well q' h' p' ∧ in_touch h' p'.
Proof.
  intros W T. unfold notifyClients.
  destruct (notify_each_ok now q h p (new_msg NEIGHBOR) [] (fst <$> m_subs h) W T) as (q1 & h1 & f1 & -> & W1 & En1); [split; [apply Message_new_inv|done]|].
  rewrite bind_ok. cbn beta iota. pose proof (remove_subs_ok q1 h1 p f1 W1) as Hr. destruct (removeSubscriptions h1 p f1) as [h2 p2].
  destruct Hr as (W2 & En2 & Ev2). exists q1, h2, p2. splits; [done|done|]. apply (in_touch_vp h h2 p p2); [congruence|done|done].
Qed.

(** *** Once a second *)

Lemma move_well id x a t : kept_well (id, x) → Area_valid a → fits 64 t → kept_well (id, move_sub x a t).
Proof.
  intros (E & O & (T1 & T2 & (T3 & T4 & T5) & T6 & T7)) (A1 & A2 & A3) Ft. split; [done|]. split; [done|].
  unfold typed_sub, move_sub. cbn. splits; try done; [split; [done|]; split|].
  - cbn. by destruct (_ =? _).
  - cbn. by destruct (_ =? _).
  - by destruct (_ =? _).
Qed.

Lemma update_sub_ok now q h p id a t r o : well q h p → Area_valid a → fits 64 t → from_option Addr_valid True r →
  let '(q', h', p', b) := updateSubscription now q h p id a t r o in well q' h' p' ∧ m_neighbors h' = m_neighbors h ∧ vp p' = vp p.
Proof.
  intros W Va Vt Vr. unfold updateSubscription. destruct (find id (m_subs h)) as [x|] eqn:Ex; [|done]. destruct (_ && _); [done|]. cbv zeta.
  pose proof W as (I & Ih & Ip & Ei). pose proof (move_well id x a t (find_well h id x Ih Ex) Va Vt) as Wx.
  destruct (update_ok now (q, h) p id (sub_aoi (move_sub x a t)) o Ip) as [Ip' Ev].
  set (p' := fst (updateSharedObject now (q, h) p id (sub_aoi (move_sub x a t)) o)) in *.
  assert (Ei' : my_id p' = me) by (unfold my_id in *; by rewrite Ev).
  assert (Wq : ∀ y, kept_well (id, y) → well q (with_subs h (set id y (m_subs h))) p').
  { intros y Wy. apply mk_well; try done. by apply set_sub_inv. }
  destruct r as [r|]; [destruct (negb _)|]; [..|splits; [by apply Wq|done|done]|splits; [by apply Wq|done|done]].
  destruct (Wq (set_relay (move_sub x a t) r)) as (Iq & Ihq & _).
  { destruct Wx as (? & ? & (? & ? & ? & ? & ?)). by split; [|split]. }
  splits; [|by destruct (isOwner _ _)|done].
  apply mk_well; [by apply notify_inv| |done|done]. destruct (isOwner _ _); [by apply same_tables_inv|done].
Qed.

Lemma refresh_owned_ok now q h p ids : well q h p →
  let '(q', h', p') := refresh_owned now q h p ids in well q' h' p' ∧ m_neighbors h' = m_neighbors h ∧ vp p' = vp p.
Proof.
  revert q h p. induction ids as [|id ids IH]; intros q h p W; cbn [refresh_owned]; [done|].
  destruct (find id (m_subs h)) as [x|] eqn:Ex; [|by apply IH]. destruct (isOwner p (sub_id x)); [|by apply IH].
  destruct (find_well h id x (proj1 (proj2 W)) Ex) as (_ & _ & (_ & _ & Tx & _ & Tt)).
  pose proof (update_sub_ok now q h p (sub_id x) (sub_aoi x) (sub_time x) None None W Tx Tt I) as Hu.
  destruct (updateSubscription now q h p _ _ _ _ _) as [[[q1 h1] p1] b]. destruct Hu as (W1 & En1 & Ev1).
  specialize (IH q1 h1 p1 W1). destruct (refresh_owned now q1 h1 p1 ids) as [[q2 h2] p2]. destruct IH as (W2 & En2 & Ev2).
  splits; [done|congruence..].
Qed.

Lemma isJoined_well q h p : well q h p → well q h (fst (isJoined p)).
Proof. intros (I & Ih & Ip & Ei). destruct (isJoined_vso p Ip) as (I1 & _ & _ & E1). apply mk_well; try done. congruence. Qed.

Lemma isJoined_touch h p : in_touch h p → in_touch h (fst (isJoined p)).
Proof.
  intros [A T]. unfold in_touch, asks. rewrite isJoined_vp. destruct (thins_joined (vp p)) as [Ti _].
  assert (E : voronoi (fst (VP_isJoined (vp p))) = voronoi (vp p) ∧ pneighbors (fst (VP_isJoined (vp p))) = pneighbors (vp p))
    by (unfold VP_isJoined; cbn [fst]; by destruct (_ && _)).
  destruct E as [-> ->]. split; [done|]. destruct T as [T|[T1 T2]]; [by left|right; auto].
Qed.

Lemma matcher_periodic_ok now ms q h p : well q h p → in_touch h p →
  ∃ q' h' p', matcher_periodic now ms q h p = Ok (q', h', p') ∧ well q' h' p' ∧ in_touch h' p'.
Proof.
  intros W T. unfold matcher_periodic. cbv zeta. destruct (_ <=? _); [|by exists q, h, p].
  set (h0 := set_m_periodic h _ _). assert (W0 : well q h0 p) by (destruct W as (? & [] & ? & ?); by apply mk_well).
  pose proof (refresh_owned_ok now q h0 p (fst <$> m_subs h0) W0) as Hr.
  destruct (refresh_owned now q h0 p (fst <$> m_subs h0)) as [[q1 h1] p1]. destruct Hr as (W1 & En1 & Ev1).
  assert (T1 : in_touch h1 p1) by by apply (in_touch_vp h h1 p p1).
  pose proof (isJoined_well _ _ _ W1) as W2. pose proof (isJoined_touch _ _ T1) as T2. destruct (isJoined p1) as [p2 b]. cbn [fst] in *.
  destruct W2 as (I2 & Ih2 & Ip2 & Ei2). destruct (keepalive_ok me now ms q1 h1 b I2 Ih2) as (q3 & h3 & -> & I3 & Ih3 & En3).
  rewrite bind_ok. cbn beta iota. destruct (isGateway h3); [|exists q3, h3, p2; splits; [done|by apply mk_well|by apply (in_touch_vp h1 h3 p2 p2)]].
  unfold removeExpiredMatchers.
  match goal with |- context [remove_matchers now q3 ?g ?l] => destruct (remove_matchers_ok now q3 g l) as (q4 & g4 & -> & [I4 Ig4]); [split; [done|apply Ih3]|] end.
  rewrite bind_ok. eexists q4, _, p2. splits; [reflexivity| |by apply (in_touch_vp h1 _ p2 p2)]. apply mk_well; try done. by apply gate_inv.
Qed.

Lemma matcher_tasks_ok now ms q h p : well q h p → vstate (vp p) ≠ ABSENT →
  ∃ q' h' p', matcher_tasks now ms q h p = Ok (q', h', p') ∧ well q' h' p' ∧ in_touch h' p'.
Proof.
  intros W Hs. unfold matcher_tasks. destruct (refresh_list_ok q h p W) as (h1 & -> & W1 & En1). rewrite bind_ok.
  match goal with |- context [?m ≫= _] => assert (Hm : ∃ q2 h2 p2, m = Ok (q2, h2, p2) ∧ well q2 h2 p2 ∧ in_touch h2 p2) end.
  { destruct (m_static h1); [|by apply check_overload_ok]. exists q, h1, p. splits; [done|done|]. split; [|by left].
    apply live_asks, inv_live; [apply W|done]. }
  destruct Hm as (q2 & h2 & p2 & -> & W2 & T2). rewrite bind_ok. cbn beta iota.
  destruct (see_neighbors_ok q2 h2 p2 W2 (proj1 T2)) as (h3 & -> & W3 & En3). rewrite bind_ok.
  destruct (notify_clients_touch now q2 h3 p2 W3 (in_touch_same _ _ _ En3 T2)) as (q4 & h4 & p4 & -> & W4 & T4).
  rewrite bind_ok. cbn beta iota. by apply matcher_periodic_ok.
Qed.
End tasks.
