(* ===== verification/MatcherRun.v ===== *)
(** A matcher handles every message and runs every cycle: the only ways not to return are
    the search for a free position and that for a free world. *)

From S2P Require Import Prelude Bytes StdMap Float Serial Geometry Subscription Message VastBuffer NetManager.
From S2P Require Import NetInterface VastNet VastSend VastJoin MessageQueue Routing QueueSafe Readable Handlers.
From S2P Require Import ClientSafe Gateway GatewaySafe VonInterfaces VonPeer VonSafe VonLinks.
From S2P Require Import VSOTypes VSOPeer VSOSafe MatcherHost Matcher MatcherHandle MatcherSafe.
Local Open Scope Z_scope.

Section run.
Context {N V : Type} `{NetManagerLaws N} `{VoronoiLaws V}.
Context (vjunk : von_uninit) (ojunk : vso_uninit) (gjunk : gw_uninit) (junk : vm_uninit) (me : Z).
(** Local variables that are not initialised hold values of their types. *)
Context (Hj : fits 32 (mu_x junk) ∧ fits 32 (mu_y junk)).
Implicit Types (q : mqueue N) (h : matcher_host) (p : VSOPeer V) (w : VASTMatcher V).

#[local] Instance here : VONNetworkLaws (mqueue N * matcher_host) := host_network_laws me.
#[local] Instance policy_here : VSOPolicyLaws (mqueue N * matcher_host) := host_policy_laws me.
#[local] Hint Resolve addTarget_inv : core.

Lemma well_step q h p : well me q h p → net_inv (net q) ∧ host_inv me h ∧ vso_inv p ∧ my_id p = me.
Proof. done. Qed.

(** *** Subscribing *)

Lemma uniqueID_ok v g : net_inv v → net_inv (fst (getUniqueID v g)).
Proof.
  intros []. unfold getUniqueID. destruct (negb _); [by split|]. destruct (_ || _); [by split|]. cbv zeta.
  destruct (_ || _); by split.
Qed.

(** What an operation with the peer and a message returns *)
Definition steps (r : outcome (@step_result N V)) : Prop :=
  ∃ q' h' p' (m' : Message), r = Ok (q', h', p', m') ∧ well me q' h' p' ∧ Message_inv m'.

(** A subscription as it comes from a message *)
Definition sub_fine (s : Subscription) : Prop := ordered (neighbors s) ∧ typed_sub s.

Lemma init_fine j : sub_fine (Sub_init j).
Proof. split; [constructor|]. by repeat split. Qed.

Lemma add_sub_ok now q h p sub b : well me q h p → sub_fine sub →
  ∃ q' h' p' ok, addSubscription now q h p sub b = Ok (q', h', p', ok) ∧ well me q' h' p'.
Proof.
  intros (I & Ih & Ip & Ei) [O T]. unfold addSubscription. destruct (has _ _); [by exists q, h, p, false|]. cbv zeta.
  set (h1 := with_subs h _). assert (I1 : host_inv me h1) by (apply (set_sub_inv me h (sub_id sub)); [done|by split]).
  destruct (insert_ok now (q, h1) p (sub_id sub) (sub_aoi sub) b Ip) as ([q2 h2] & p2 & ok & -> & [G2 Gh2] & _ & I2 & E2); [by split|].
  rewrite bind_ok. eexists _, _, p2, true. split; [reflexivity|]. apply mk_well; [by do 2 apply notify_inv|done|done|].
  unfold my_id in *. by rewrite E2.
Qed.

Lemma renew_fine s i r : sub_fine s → fits 16 r → sub_fine (renew_sub s i r).
Proof. intros [O (T1 & T2 & (T3 & T4 & T5) & T6 & T7)] Fr. split; [exact O|].
  exact (conj T1 (conj T2 (conj (conj T3 (conj Fr T5)) (conj T6 T7)))). Qed.

Lemma subscribe_here_ok now q h p sub : well me q h p → sub_fine sub →
  ∃ q' h' p', subscribe_here now q h p sub = Ok (q', h', p') ∧ well me q' h' p'.
Proof.
  intros W O. unfold subscribe_here.
  set (r := if sub_id sub =? NET_ID_UNASSIGNED then _ else _).
  assert (W1 : well me (fst r) h p).
  { unfold r. destruct (_ =? _); [|done]. destruct W as (I & W). pose proof (uniqueID_ok (net q) ID_GROUP_VON_VAST I) as Iu.
    destruct (getUniqueID _ _) as [v i]. by split. }
  destruct r as [q1 id]. cbn [fst] in W1. cbv zeta.
  match goal with |- context [renew_sub sub id ?r] => pose proof (renew_fine sub id r O (wrap_fits 16 _ ltac:(lia))) as O' end.
  match goal with |- context [?m ≫= _] => assert (Hm : ∃ q2 h2 p2, m = Ok (q2, h2, p2) ∧ well me q2 h2 p2) end.
  { destruct (has id (m_subs h)).
    - match goal with |- context [updateSubscription now q1 h p ?i ?a ?t ?r ?o] =>
        pose proof (update_sub_ok me now q1 h p i a t r o W1) as Hu; destruct (updateSubscription now q1 h p i a t r o) as [[[q2 h2] p2] b] end.
      destruct O' as (_ & _ & _ & Va & Vr & _). specialize (Hu Va ltac:(done) Vr).
      exists q2, h2, p2. split; [done|apply Hu].
    - match goal with |- context [addSubscription now q1 h p ?s true] => destruct (add_sub_ok now q1 h p s true W1) as (q2 & h2 & p2 & ok & -> & W2); [done|] end.
      rewrite bind_ok. by exists q2, h2, p2. }
  destruct Hm as (q2 & h2 & p2 & -> & W2). rewrite bind_ok. cbn beta iota. destruct W2 as (I2 & Ih2 & Ip2 & Ei2).
  step_store S1. step_store S2.
  match goal with |- context [matcher_send now q2 ?m] => destruct (matcher_sends now q2 m I2) as (q3 & m3 & f3 & k3 & -> & I3 & M3 & _); [by apply addTarget_inv|] end.
  rewrite bind_ok. cbn beta iota. step_store S3; [by apply clear_inv|]. step_store S4.
  match goal with |- context [sendClientMessage now q3 ?m ?c] => destruct (client_sends now q3 m c I3) as (q4 & m4 & f4 & k4 & -> & I4 & M4); [by apply addTarget_inv|] end.
  rewrite bind_ok. eexists q4, _, p2. split; [reflexivity|]. apply mk_well; try done. by apply same_tables_inv.
Qed.

Lemma sub_read msg old : Message_inv msg → sub_fine old →
  ∃ m' x k, extract_obj msg old false = Ok (m', x, k) ∧ Message_inv m' ∧ sub_fine x.
Proof.
  intros M O. destruct (extract_obj_safe msg old M) as (m' & x & k & -> & (R & _) & E); [cbn; unfold Sub_sizeOf; lia|].
  exists m', x, k. splits; [done|done|]. destruct E as [-> |(y & (T1 & _ & T2 & T3 & T4) & ->)]; [done|].
  split; [apply O|]. by exact (conj T1 (conj T2 (conj T3 (conj T4 (conj (Z.le_refl 0) eq_refl))))).
Qed.

Lemma vm_subscribe_ok now q h p msg : well me q h p → live (vp p) → Message_inv msg → steps (handle_subscribe junk now q h p msg).
Proof.
  intros W L M. unfold handle_subscribe. destruct (sub_read msg (Sub_init (mu_sub_world junk)) M) as (m1 & x & k & -> & M1 & O); [apply init_fine|].
  rewrite bind_ok. cbv beta iota zeta. destruct (live_asks _ L) as [Iv Hs].
  match goal with |- context [vor_contains ?v ?i ?c] => destruct (contains_ok v i c Iv Hs) as (b & ->) end. rewrite bind_ok.
  destruct (_ || _).
  - destruct (subscribe_here_ok now q h p x W O) as (q1 & h1 & p1 & -> & W1). rewrite bind_ok. by exists q1, h1, p1, m1.
  - match goal with |- context [matcher_send now q ?m] => destruct (matcher_sends now q m (proj1 W)) as (q3 & m3 & f3 & k3 & -> & I3 & M3 & _) end.
    { apply addTarget_inv. destruct M1. split; cbn; lia. }
    rewrite bind_ok. eexists q3, h, p, m3. split; [reflexivity|]. split; [|done]. by destruct W as (_ & W); split.
Qed.

Lemma client_move_ok now q h p msg b : well me q h p → Message_inv msg → steps (handle_client_move junk now q h p msg b).
Proof.
  intros W M. unfold handle_client_move. step_read R1.
  match goal with |- context [extract_int 8 ?m 0 false] => destruct (extract_int_safe 8 m 0 false R1) as (m2 & t & -> & (R2 & _) & Ft); [lia|] end.
  rewrite bind_ok. cbn beta iota. specialize (Ft ltac:(done)).
  destruct (extract_safe m2 8 false R2) as (m3 & bs & k & -> & (R3 & _) & Lb); [lia|].
  rewrite bind_ok. cbn beta iota. set (xy := match bs with Some bs => _ | None => _ end).
  assert (Fxy : fits 32 (fst xy) ∧ fits 32 (snd xy)).
  { unfold xy. destruct bs as [bs|]; [|exact Hj]. cbn [fst snd]. pose proof (le_val_fits (take 4 bs)) as F1.
    pose proof (le_val_fits (drop 4 bs)) as F2. rewrite length_take, Lb in F1. rewrite length_drop, Lb in F2. by split. }
  destruct xy as [vx vy]. cbn [fst snd] in Fxy.
  match goal with |- context [?m ≫= _] => assert (Hm : ∃ m4 r hh, m = Ok (m4, r, hh) ∧ Message_inv m4 ∧ fits 16 r ∧ fits 16 hh) end.
  { destruct b; [|by exists m3, 0, 0].
    destruct (extract_int_safe 2 m3 0 false R3) as (m4 & r & -> & (R4 & _) & Fr); [lia|]. rewrite bind_ok. cbn beta iota.
    destruct (extract_int_safe 2 m4 0 false R4) as (m5 & hh & -> & (R5 & _) & Fh); [lia|]. rewrite bind_ok.
    exists m5, r, hh. splits; [done|done|by apply Fr|by apply Fh]. }
  destruct Hm as (m4 & r & hh & -> & M4 & Fr & Fh). rewrite bind_ok. cbn beta iota.
  assert (Va : Area_valid (mkArea (mkPosition vx vy 0) r hh)) by (split; [split; [apply Fxy|split; [apply Fxy|done]]|done]).
  match goal with |- context [updateSubscription now q h p ?i ?a ?t ?r ?o] =>
    pose proof (update_sub_ok me now q h p i a t r o W Va Ft I) as Hu; destruct (updateSubscription now q h p i a t r o) as [[[q2 h2] p2] ok] end.
  exists q2, h2, p2, m4. split; [done|]. split; [apply Hu|done].
Qed.

(** *** Publications *)

Lemma deliver_ok now q h p msg : well me q h p → Message_inv msg → steps (deliver_to_clients now q h p msg).
Proof.
  intros W M. unfold deliver_to_clients.
  destruct (client_sends now q msg NET_ID_UNASSIGNED (proj1 W) M) as (q1 & m1 & f & k & -> & I1 & M1). rewrite bind_ok. cbn beta iota.
  assert (W1 : well me q1 h p) by (by destruct W as (_ & W); split).
  pose proof (remove_subs_ok me q1 h p f W1) as Hr. destruct (removeSubscriptions h p f) as [h2 p2].
  exists q1, h2, p2, m1. split; [done|]. split; [apply Hr|done].
Qed.

Lemma reset_inv msg : Message_inv msg → Message_inv (reset msg).
Proof. intros []. split; cbn; lia. Qed.

Lemma publish_ok now app q h p msg : well me q h p → Message_inv msg → steps (handle_publish junk now app q h p msg).
Proof.
  intros W M. unfold handle_publish. step_read R1. step_read R2. cbv zeta.
  set (m3 := foldl addTarget _ _). assert (M3 : Message_inv m3) by (by apply addTargets_inv, (reset_inv _ R2)).
  destruct (targets m3); [by exists q, h, p, m3|by apply deliver_ok].
Qed.

Lemma restore_ok n msg t : Message_inv msg → ∃ m', restore_targets n msg t = Ok m' ∧ Message_inv m'.
Proof.
  revert msg t. induction n as [|n IH]; intros msg t M; cbn [restore_targets]; [by exists msg|]. step_read R. by apply IH, addTarget_inv.
Qed.

Lemma send_ok now app q h p msg : well me q h p → Message_inv msg → steps (handle_send junk now app q h p msg).
Proof.
  intros W M. unfold handle_send. step_read R1.
  match goal with |- context [restore_targets ?n ?m ?t] => destruct (restore_ok n m t R1) as (m2 & -> & M2) end.
  rewrite bind_ok. apply deliver_ok; [done|]. by apply reset_inv.
Qed.

Lemma origin_message_ok now app q h msg : net_inv (net q) → Message_inv msg →
  ∃ q' m', handle_origin_message now app q h msg = Ok (q', m') ∧ net_inv (net q') ∧ Message_inv m'.
Proof.
  intros I M. unfold handle_origin_message. destruct (negb _); [by exists q, msg|]. cbv zeta.
  match goal with |- context [matcher_send now ?q ?m] => set (q1 := q); destruct (matcher_sends now q1 m) as (q3 & m3 & f3 & k3 & -> & I3 & M3 & _) end.
  - unfold q1. destruct (connected _ _); [done|by apply notify_inv].
  - by apply addTarget_inv.
  - rewrite bind_ok. by exists q3, m3.
Qed.

(** *** Copies from other matchers *)

Lemma take_transfers_ok n now q h p msg sub : well me q h p → Message_inv msg → sub_fine sub →
  steps (take_transfers n now q h p msg sub).
Proof.
  revert q h p msg sub. induction n as [|n IH]; intros q h p msg sub W M O; cbn [take_transfers]; [by exists q, h, p, msg|].
  destruct (sub_read msg sub M O) as (m1 & x & k & -> & M1 & O1). rewrite bind_ok. cbn beta iota.
  destruct (has (sub_id x) (m_subs h)).
  - match goal with |- context [updateSubscription now q h p ?i ?a ?t ?r ?o] =>
      pose proof (update_sub_ok me now q h p i a t r o W) as Hu; destruct (updateSubscription now q h p i a t r o) as [[[q2 h2] p2] b] end.
    destruct O1 as [O1 T1]. pose proof T1 as (_ & _ & Va & Vr & Vt). specialize (Hu Va Vt Vr).
    rewrite bind_ok. cbn beta iota. apply IH; [apply Hu|done|by split].
  - destruct (add_sub_ok now q h p x false W O1) as (q2 & h2 & p2 & ok & -> & W2). rewrite !bind_ok. cbn beta iota. by apply IH.
Qed.

Lemma take_updates_ok n now q h p msg id a : well me q h p → Message_inv msg → Area_valid a →
  ∃ q' h' p' m' l, take_updates n now q h p msg id a = Ok ((q', h', p', m'), l) ∧ well me q' h' p' ∧ Message_inv m'.
Proof.
  revert q h p msg id a. induction n as [|n IH]; intros q h p msg id a W M Va; cbn [take_updates]; [by exists q, h, p, msg, []|].
  step_read R1. match goal with |- context [extract_obj ?m a false] => destruct (extract_obj_safe m a R1) as (m2 & a' & k2 & -> & (R2 & _) & Ea); [cbn; lia|] end.
  rewrite bind_ok. cbn beta iota. assert (Va' : Area_valid a') by (by destruct Ea as [-> |(y & Vy & ->)]).
  match goal with |- context [updateSubscription now q h p ?i ?a ?t ?r ?o] =>
    pose proof (update_sub_ok me now q h p i a t r o W) as Hu; destruct (updateSubscription now q h p i a t r o) as [[[q2 h2] p2] b] end.
  specialize (Hu Va' ltac:(done) I).
  match goal with |- context [take_updates n now q2 h2 p2 ?m ?i ?a] => destruct (IH q2 h2 p2 m i a (proj1 Hu) R2 Va') as (q3 & h3 & p3 & m3 & l & -> & W3 & M3) end.
  rewrite bind_ok. by eexists q3, h3, p3, m3, _.
Qed.

Lemma sub_update_ok now q h p msg : well me q h p → Message_inv msg → steps (handle_subscribe_update junk now q h p msg).
Proof.
  intros W M. unfold handle_subscribe_update. step_read R.
  match goal with |- context [take_updates ?n now q h p ?m ?i ?a] => destruct (take_updates_ok n now q h p m i a W R) as (q1 & h1 & p1 & m1 & l & -> & W1 & M1); [done|] end.
  rewrite bind_ok. cbn beta iota. destruct l as [|i l]; [by exists q1, h1, p1, m1|]. destruct W1 as (I1 & Ih1 & Ip1 & Ei1).
  destruct (request_ok now (q1, h1) p1 (from m1) (i :: l) Ip1) as ([q2 h2] & p2 & -> & [G2 Gh2] & _ & I2 & V2); [by split|].
  rewrite bind_ok. exists q2, h2, p2, m1. split; [done|]. split; [|done]. apply mk_well; try done. unfold my_id in *. by rewrite V2.
Qed.

Lemma transfer_msg_ok now q h p msg : well me q h p → Message_inv msg → steps (handle_subscribe_transfer junk now q h p msg).
Proof. intros W M. unfold handle_subscribe_transfer. step_read R. apply take_transfers_ok; [done|done|apply init_fine]. Qed.

(** *** Messages to the members only *)

(** What a handler without the peer returns *)
Definition fine (r : outcome (mqueue N * matcher_host * Message)) : Prop :=
  ∃ q' h' m', r = Ok (q', h', m') ∧ net_inv (net q') ∧ host_inv me h' ∧ Message_inv m'.

Lemma neighbor_request_ok q h msg : net_inv (net q) → host_inv me h → Message_inv msg →
  fine ('(h, msg) ← handle_neighbor_request junk h msg; Ok (q, h, msg)).
Proof.
  intros I Ih M. unfold handle_neighbor_request. step_read R1. step_read R2. rewrite bind_ok. eexists q, _, _.
  splits; [reflexivity|done| |done]. match goal with |- context [find ?i (m_subs h)] => destruct (find i (m_subs h)) as [y|] eqn:E end; [|done].
  apply set_sub_inv; [done|]. destruct (find_well me h _ y Ih E) as (K & O & T). unfold clearStates.
  destruct (negb _); (split; [done|]); split; try done. by apply ordered_erase.
Qed.

Lemma origin_inv h x o a : host_inv me h → host_inv me (set_m_origin h x o a).
Proof. intros []. by split. Qed.

Lemma world_info_msg_ok q h msg : net_inv (net q) → host_inv me h → Message_inv msg →
  fine ('(h, msg) ← handle_world_info junk h msg; Ok (q, h, msg)).
Proof.
  intros I Ih M. unfold handle_world_info. step_read R1. step_read R2. rewrite bind_ok. eexists q, _, _.
  splits; [reflexivity|done|by apply origin_inv|done].
Qed.

(** A search for a free world ends, or finds none. *)
Lemma free_world_sat fuel c o : outcome_sat diverges (λ _, True) (free_world fuel c o).
Proof.
  revert c. induction fuel as [|fuel IH]; intros c; cbn [free_world]; destruct (negb _); try done; apply IH.
Qed.

Lemma join_msg_ok now q g msg : gw_good q g → Message_inv msg →
  outcome_sat diverges (λ '(q', g', m'), gw_good q' g' ∧ Message_inv m') (handle_join gjunk now q g msg).
Proof.
  intros [I Ig] M. unfold handle_join. step_read R.
  match goal with |- context [join_world g ?w] =>
    assert (Hw : outcome_sat diverges (λ '(g', _), gateway_inv g') (join_world g w)) end.
  { unfold join_world. destruct (_ =? 0); [|done]. eapply sat_bind; [apply free_world_sat|]. intros c _. by destruct Ig. }
  eapply sat_bind; [exact Hw|]. intros [g1 x1] I1.
  match goal with |- context [join_origin now q g1 x1 ?c] => destruct (join_origin_ok now q g1 x1 c) as (q' & g' & -> & G); [by split|] end.
  rewrite bind_ok. by split.
Qed.

Lemma as_gateway_ok h q msg r : net_inv (net q) → host_inv me h → Message_inv msg →
  outcome_sat diverges (λ '(q', g', m'), gw_good q' g' ∧ Message_inv m') r →
  outcome_sat diverges (λ '(q', h', m'), net_inv (net q') ∧ host_inv me h' ∧ Message_inv m') (as_gateway h r q msg).
Proof.
  intros I Ih M Hr. unfold as_gateway. destruct (isGateway h); [|done]. eapply sat_bind; [exact Hr|].
  intros [[q' g'] m'] [[I' Ig'] M']. split; [done|]. split; [by apply gate_inv|done].
Qed.

Lemma flush_queue_ok now q l : net_inv (net q) → Forall Message_inv l → ∃ q', flush_queue now q l = Ok q' ∧ net_inv (net q').
Proof.
  revert q. induction l as [|x l IH]; intros q I F; cbn [flush_queue]; [by exists q|]. apply Forall_cons in F as [Mx F].
  destruct (matcher_sends now q x I Mx) as (q1 & m1 & f & k & -> & I1 & _). rewrite bind_ok. by apply IH.
Qed.

Lemma resend_ok now q h : net_inv (net q) → host_inv me h →
  ∃ q' h', resend_queue now q h = Ok (q', h') ∧ net_inv (net q') ∧ host_inv me h'.
Proof.
  intros I Ih. unfold resend_queue. destruct (flush_queue_ok now q (m_queue h) I (hi_queue _ _ Ih)) as (q' & -> & I'). rewrite bind_ok.
  eexists q', _. splits; [reflexivity|done|]. by destruct Ih.
Qed.

(** *** Joining and leaving *)

Definition vm_inv w : Prop :=
  host_inv me (vm_host w) ∧
  match vm_peer w with
  | Some p => vm_state w = JOINED ∧ vso_inv p ∧ my_id p = me
  | None => vm_state w = ABSENT
  end.

Definition vm_good q w : Prop := net_inv (net q) ∧ vm_inv w.

Lemma with_peer q h p : well me q h p → vm_good q (mkVM JOINED h (Some p)).
Proof. intros (I & Ih & Ip & Ei). by split. Qed.

Lemma with_origin q w x o a : vm_good q w → vm_good q (mkVM (vm_state w) (set_m_origin (vm_host w) x o a) (vm_peer w)).
Proof. intros [I [Ih Hp]]. split; [done|]. split; [by apply origin_inv|done]. Qed.

Lemma matcher_join_ok now q w ip : vm_good q w →
  ∃ q' w' b, VM_join now q w ip = Ok (q', w', b) ∧ vm_good q' w'.
Proof.
  intros [I [Ih Hp]]. unfold VM_join. destruct (vm_peer w) as [p|] eqn:E; [exists q, w, false; split; [done|by split; [|split; [|rewrite E]]]|].
  cbv zeta. set (h1 := setGateway q (vm_host w) ip). assert (I1 : host_inv me h1) by (destruct Ih; by split).
  set (h2 := set_m_self h1 _ _). assert (I2 : host_inv me h2) by (destruct I1; by split).
  assert (Hn : ∃ q', notifyCandidacy now q h2 = Ok q' ∧ net_inv (net q')).
  { unfold notifyCandidacy. destruct (_ && _); [|by exists q]. step_store W.
    match goal with |- context [matcher_send now q ?m] => destruct (matcher_sends now q m I) as (q3 & m3 & f3 & k3 & -> & I3 & _); [by apply addTarget_inv|] end.
    rewrite bind_ok. by exists q3. }
  destruct Hn as (q' & -> & I'). rewrite bind_ok. eexists q', _, true. split; [reflexivity|]. split; [done|]. split; [done|].
  split; [done|]. split; [apply VSO_new_inv|apply (hi_self _ _ I1)].
Qed.

Lemma matcher_leave_ok now ms q w : vm_good q w →
  outcome_sat diverges (λ '(q', w', _), vm_good q' w') (VM_leave now ms q w).
Proof.
  intros [I [Ih Hp]]. unfold VM_leave, VM_isJoined. destruct (vm_peer w) as [p|] eqn:E.
  - destruct Hp as (Es & Ip & Ei). rewrite bool_decide_eq_true_2 by done. cbn [negb].
    destruct (VP_leave_ok (H0 := held_network (m_neighbors (vm_host w))) now (q, vm_host w) (vp p) true (vi_peer _ Ip)) as (s1 & v & -> & [[I1 Ih1] Eh1] & Iv & Ev & Sv);
      [by do 2 split|]. rewrite bind_ok. cbn beta iota. pose proof (set_vp_inv p v Ip Iv) as Ip1.
    eapply sat_bind; [apply (VSO_tick_ok now ms s1 (set_vp p v) Ip1); [by split|left; apply idle_iff; cbn; by rewrite Sv]|].
    intros [s2 p2] ([I2 Ih2] & _). cbn [outcome_sat]. split; [done|]. split; [by apply origin_inv|done].
  - rewrite Hp, bool_decide_eq_false_2 by done. split; [done|]. split; [done|by rewrite E].
Qed.

Lemma active_ok q w : vm_good q w → vm_good q (fst (VM_isActive w)).
Proof.
  intros [I [Ih Hp]]. unfold VM_isActive. destruct (vm_peer w) as [p|] eqn:E; [|split; [done|split; [done|by cbn; rewrite E]]].
  destruct Hp as (Es & Ip & Ei). destruct (isJoined_vso p Ip) as (I1 & _ & _ & E1). destruct (isJoined p) as [p1 b].
  split; [done|]. split; [done|]. cbn in *. split; [done|]. split; [done|congruence].
Qed.

Lemma start_ok now q w : vm_good q w → ∃ q' w', start_peer now q w = Ok (q', w') ∧ vm_good q' w'.
Proof.
  intros G. unfold start_peer. pose proof (active_ok q w G) as G1. destruct (VM_isActive w) as [w1 b]. cbn [fst] in G1. cbv zeta.
  destruct (vm_peer w1) as [p|] eqn:E; [|by exists q, w1]. destruct b; [by exists q, w1|].
  destruct G1 as [I [Ih Hp]]. rewrite E in Hp. destruct Hp as (Es & Ip & Ei).
  match goal with |- context [VSO_join now (q, ?h) p ?a ?o ?b] => destruct (VSO_join_ok now (q, h) p a o b Ip) as ([q2 h2] & p2 & -> & [G2 Gh2] & _ & I2 & E2); [by split|] end.
  rewrite bind_ok. eexists q2, _. split; [reflexivity|]. split; [done|]. split; [done|]. split; [done|]. split; [done|congruence].
Qed.

Lemma init_ok now ms q w msg : vm_good q w → Message_inv msg →
  outcome_sat diverges (λ '(q', w', m'), vm_good q' w' ∧ Message_inv m') (handle_init junk now ms q w msg).
Proof.
  intros G M. unfold handle_init. step_read R1. step_read R2. cbv zeta.
  match goal with |- context [mkVM (vm_state w) (set_m_origin (vm_host w) ?x ?o ?a) (vm_peer w)] => pose proof (with_origin q w x o a G) as G1 end.
  match goal with |- outcome_sat _ _ (?m ≫= _) => assert (Hm : outcome_sat diverges (λ '(q', w'), vm_good q' w') m) end.
  { destruct (negb _); [|by apply active_ok]. unfold restart. eapply sat_bind; [by apply matcher_leave_ok|].
    intros [[q1 w1] b1] G2. match goal with |- context [VM_join now q1 w1 ?ip] => destruct (matcher_join_ok now q1 w1 ip G2) as (q2 & w2 & b2 & -> & G3) end.
    by rewrite bind_ok. }
  eapply sat_bind; [exact Hm|]. intros [q2 w2] G2.
  match goal with |- context [start_peer now q2 ?w] => destruct (start_ok now q2 w (with_origin q2 w2 _ _ _ G2)) as (q3 & w3 & -> & G3) end.
  rewrite bind_ok. by split.
Qed.

(** *** Every message *)

Lemma disconnect_ok now q h p msg : well me q h p → Message_inv msg → from msg ≠ me →
  steps (handle_matcher_disconnect vjunk ojunk now q h p msg).
Proof.
  intros W M Hf. unfold handle_matcher_disconnect, subscriberDisconnected.
  match goal with |- context [removeSubscriptions h p ?l] => pose proof (remove_subs_ok me q h p l W) as Hr; destruct (removeSubscriptions h p l) as [h1 p1] end.
  destruct Hr as ((I1 & Ih1 & Ip1 & Ei1) & _).
  destruct (VSO_handle_ok vjunk ojunk (peer_fuel h1) now (q, h1) p1 (set_type msg (vso_code VSO_DISCONNECT)) Ip1)
    as ([q2 h2] & p2 & m2 & ok & -> & [I2 Ih2] & _ & Ip2 & Ei2 & M2); [by split|done|rewrite Ei1; split; [by intros _|done]|apply candidates_le|].
  rewrite bind_ok. cbn beta iota. cbn [fst snd].
  destruct (refresh_list_ok me q2 h2 p2) as (h3 & -> & W3 & _); [apply mk_well; [done|done|done|congruence]|].
  rewrite bind_ok. destruct W3 as (I3 & Ih3 & Ip3 & Ei3). destruct (isGateway h3); [|by exists q2, h3, p2, m2].
  destruct (gateway_disconnect_ok now q2 (m_gate h3) (from m2)) as (q4 & g4 & E & [I4 Ig4]); [split; [done|apply Ih3]|].
  rewrite E, bind_ok. eexists q4, _, p2, m2. split; [reflexivity|]. split; [|done]. apply mk_well; try done. by apply gate_inv.
Qed.

Lemma left_ok q h p msg : well me q h p → Message_inv msg →
  let '(h', p') := subscriberDisconnected h p (from msg) in well me q h' p'.
Proof.
  intros W M. unfold subscriberDisconnected.
  match goal with |- context [removeSubscriptions h p ?l] => pose proof (remove_subs_ok me q h p l W) as Hr; destruct (removeSubscriptions h p l) as [h1 p1] end.
  apply Hr.
Qed.

Definition handled (r : outcome (mqueue N * VASTMatcher V * Message)) : Prop :=
  outcome_sat diverges (λ '(q', w', m'), vm_good q' w' ∧ Message_inv m') r.

Lemma step_handled r : steps r → handled ('(q, h, p, msg) ← r; Ok (q, mkVM JOINED h (Some p), msg)).
Proof. intros (q & h & p & m & -> & W & M). rewrite bind_ok. split; [by apply with_peer|done]. Qed.

Lemma keep_handled r p : vso_inv p → my_id p = me →
  outcome_sat diverges (λ '(q', h', m'), net_inv (net q') ∧ host_inv me h' ∧ Message_inv m') r →
  handled ('(q, h, msg) ← r; Ok (q, mkVM JOINED h (Some p), msg)).
Proof.
  intros Ip Ei Hr. eapply sat_bind; [exact Hr|]. intros [[q h] m] (I & Ih & M). split; [|done]. by apply with_peer.
Qed.

Lemma fine_sat r : fine r → outcome_sat diverges (λ '(q', h', m'), net_inv (net q') ∧ host_inv me h' ∧ Message_inv m') r.
Proof. intros (q & h & m & -> & I & Ih & M). by split. Qed.

Lemma typed_ok now ms app q h p msg w : well me q h p → vm_state w = JOINED → vm_host w = h → Message_inv msg → (msgtype msg = DISCONNECT → from msg ≠ me) →
  live (vp p) ∨ early_type (msgtype msg) = true ∨ of_code (msgtype msg) = None →
  handled (handle_typed vjunk ojunk gjunk junk now ms app q w p msg).
Proof.
  intros W Es Eh M Hf Hl. pose proof W as (I & Ih & Ip & Ei). unfold handle_typed, early_type in *. rewrite Es, Eh. cbv zeta.
  destruct (of_code (msgtype msg)) as [[]|];
    try (assert (L : live (vp p)) by (by destruct Hl as [|[|]]); apply step_handled;
      first [by apply vm_subscribe_ok|by apply client_move_ok|by apply publish_ok|by apply send_ok|by apply transfer_msg_ok|by apply sub_update_ok]);
    try (apply keep_handled; [done|done|by split]).
  - apply keep_handled; [done|done|]. apply as_gateway_ok; [done|done|done|].
    destruct (handle_candidate_ok now q (m_gate h) msg) as (g' & m' & -> & G' & M'); [split; [done|apply Ih]|done|].
    rewrite bind_ok. by split.
  - apply init_ok; [by apply with_peer|done].
  - apply keep_handled; [done|done|]. apply as_gateway_ok; [done|done|done|].
    destruct (handle_alive_ok gjunk now q (m_gate h) msg) as (q' & g' & m' & -> & G' & M'); [split; [done|apply Ih]|done|]. by split.
  - apply keep_handled; [done|done|]. by apply fine_sat, world_info_msg_ok.
  - apply keep_handled; [done|done|]. apply as_gateway_ok; [done|done|done|]. apply join_msg_ok; [split; [done|apply Ih]|done].
  - pose proof (left_ok q h p msg W M) as Hd. destruct (subscriberDisconnected h p (from msg)) as [h1 p1]. split; [by apply with_peer|done].
  - apply keep_handled; [done|done|]. by apply fine_sat, neighbor_request_ok.
  - apply keep_handled; [done|done|]. destruct (origin_message_ok now app q h msg I M) as (q' & m' & -> & I' & M').
    rewrite bind_ok. by split.
  - apply keep_handled; [done|done|]. destruct (isGateway h); [|by split]. step_read R. by split.
  - apply keep_handled; [done|done|]. destruct (isGateway h); [|by split].
    destruct (sync_request_ok gjunk now q msg I M) as (q' & m' & -> & I' & M'). rewrite bind_ok. by split.
  - destruct (Z.eqb_spec (msgtype msg) DISCONNECT); [apply step_handled; apply disconnect_ok; auto|]. apply keep_handled; [done|done|by split].
Qed.

(** What is assumed of a message: it is well-formed, not a farewell or a disconnection in the name of
    this host, and not a list of nodes of the overlay that names this host. All others may come from this host. *)
Definition proper (msg : Message) : Prop :=
  Message_inv msg ∧ decent vjunk me (set_type msg (VAST_MSGTYPE (msgtype msg))).

Lemma matcher_message_ok now ms q w msg : vm_good q w → proper msg →
  outcome_sat diverges (λ '(q', w', m', _), vm_good q' w' ∧ Message_inv m')
    (VM_handleMessage vjunk ojunk gjunk junk now ms q w msg).
Proof.
  intros G [M D]. unfold VM_handleMessage. destruct (bool_decide_reflect (vm_state w = ABSENT)) as [Ea|Ea]; [by split|]. cbv zeta.
  set (m1 := set_type msg _) in *. assert (M1 : Message_inv m1) by done. clearbody m1. set (app := APP_MSGTYPE (msgtype msg)). clearbody app.
  destruct G as [I [Ih Hp]]. destruct (vm_peer w) as [p|]; [|done]. destruct Hp as (Es & Ip & Ei). rewrite Es.
  set (h := vm_host w) in *. clearbody h.
  assert (Df : msgtype m1 = DISCONNECT → from m1 ≠ me).
  { intros Ed. apply (proj1 D). right. by rewrite Ed. }
  assert (Ht : ∀ p, vso_inv p → my_id p = me →
    live (vp p) ∨ early_type (msgtype m1) = true ∨ of_code (msgtype m1) = None →
    outcome_sat diverges (λ '(q', w', m', _), vm_good q' w' ∧ Message_inv m')
      ('(q, h) ← resend_queue now q h;
       '(q, m, msg) ← handle_typed vjunk ojunk gjunk junk now ms app q (mkVM JOINED h (Some p)) p m1;
       Ok (q, m, msg, true))).
  { intros p1 I1 E1 Hl. destruct (resend_ok now q h I Ih) as (q1 & h1 & -> & Iq1 & Ih1). rewrite bind_ok. cbn beta iota.
    eapply sat_bind; [by apply (typed_ok now ms app q1 h1)|]. intros [[q2 w2] m2] [G2 M2]. by split. }
  destruct (Z.eqb_spec (msgtype m1) DISCONNECT) as [Ed|Ed]; [apply Ht; [done|done|right; right; by rewrite Ed]|].
  destruct (Z.ltb_spec (msgtype m1) VON_MAX_MSG) as [Hlt|_].
  { destruct (VSO_handle_ok vjunk ojunk (peer_fuel h) now (q, h) p m1 Ip) as ([q2 h2] & p2 & m2 & ok & -> & [I2 Ih2] & _ & Ip2 & Ei2 & M2);
      [by split|done|by rewrite Ei|apply candidates_le|].
    rewrite bind_ok. split; [|done]. apply with_peer, mk_well; [done|done|done|congruence]. }
  unfold VM_isJoined. rewrite bool_decide_eq_true_2 by done.
  destruct (isJoined_vso p Ip) as (Ip1 & _ & _ & Ei1). pose proof (joined_live p Ip) as L.
  destruct (isJoined p) as [p1 b]. cbn [fst snd] in *. assert (E1 : my_id p1 = me) by congruence.
  destruct b; [apply Ht; [done|done|left; by apply L]|].
  destruct (isJoining p1).
  - destruct (Message_copy_ok m1 M1) as (c & -> & Cc & Ec). rewrite bind_ok. split; [|done]. split; [done|]. split; [|done].
    destruct Ih. split; try done. cbn. apply Forall_app. split; [done|]. constructor; [|done]. split; [apply Cc|apply Cc].
  - destruct (early_type (msgtype m1)) eqn:Ee; [apply Ht; [done|done|by right; left]|]. split; [|done]. by apply with_peer, mk_well.
Qed.

(** [postHandling ()] *)
Lemma matcher_cycle_ok now ms q w : vm_good q w →
  outcome_sat diverges (λ '(q', w'), vm_good q' w') (VM_postHandling now ms q w).
Proof.
  intros [I [Ih Hp]]. unfold VM_postHandling. destruct (vm_peer w) as [p|] eqn:E; [|split; [done|split; [done|by rewrite E]]].
  destruct Hp as (Es & Ip & Ei). rewrite Es. destruct (isJoined_vso p Ip) as (Ip1 & _ & _ & Ei1). pose proof (joined_live p Ip) as L.
  assert (Hi : snd (isJoined p) = false → idle (vp (fst (isJoined p)))).
  { intros Hf. unfold isJoined in *. destruct (thins_joined (vp p)) as [Ti _]. assert (Hid : idle (vp p)).
    { unfold idle. by destruct (VP_isJoined (vp p)). }
    specialize (Ti Hid). by destruct (VP_isJoined (vp p)) as [v b]. }
  assert (Hs : snd (isJoined p) = true → vstate (vp (fst (isJoined p))) ≠ ABSENT).
  { unfold isJoined, VP_isJoined. cbn [fst snd]. intros Hb%bool_decide_eq_true_1 Hx. cbn in Hx. congruence. }
  destruct (isJoined p) as [p1 b]. cbn [fst snd] in *.
  match goal with |- outcome_sat _ _ (?m ≫= _) => assert (Hm : ∃ q2 h2 p2, m = Ok (q2, h2, p2) ∧ well me q2 h2 p2 ∧ linked (q2, h2) p2) end.
  { destruct b.
    - destruct (matcher_tasks_ok me now ms q (vm_host w) p1) as (q2 & h2 & p2 & -> & W2 & T2); [apply mk_well; [done|done|done|congruence]|by apply Hs|].
      exists q2, h2, p2. splits; [done|done|]. apply (touch_links me); [apply W2|done].
    - exists q, (vm_host w), p1. splits; [done|apply mk_well; [done|done|done|congruence]|left; by apply Hi]. }
  destruct Hm as (q2 & h2 & p2 & -> & (I2 & Ih2 & Ip2 & Ei2) & K). rewrite bind_ok. cbn beta iota.
  eapply sat_bind; [apply (VSO_tick_ok now ms (q2, h2) p2 Ip2); [by split|exact K]|].
  intros [[q3 h3] p3] ([I3 Ih3] & _ & Ip3 & _ & Ei3). apply with_peer, mk_well; [done|done|done|congruence].
Qed.

(** *** A matcher from its start *)

Inductive vm_event :=
  | VM_arrives (msg : Message)
  | VM_cycle
  | VM_enters (ip : IPaddr)
  | VM_leaves.

Definition VM_event (now ms : Z) q w (e : vm_event) : outcome (mqueue N * VASTMatcher V) :=
  match e with
  | VM_arrives msg => '(q, w, _, _) ← VM_handleMessage vjunk ojunk gjunk junk now ms q w msg; Ok (q, w)
  | VM_cycle => VM_postHandling now ms q w
  | VM_enters ip => '(q, w, _) ← VM_join now q w ip; Ok (q, w)
  | VM_leaves => '(q, w, _) ← VM_leave now ms q w; Ok (q, w)
  end.

Fixpoint VM_run q w (es : list (Z * Z * vm_event)) : outcome (mqueue N * VASTMatcher V) :=
  match es with
  | [] => Ok (q, w)
  | (now, ms, e) :: es => '(q, w) ← VM_event now ms q w e; VM_run q w es
  end.

Definition VM_new (matcher : bool) (limit : Z) (static : bool) (coord : option Position) : VASTMatcher V :=
  mkVM ABSENT (matcher_host_new matcher limit static coord) None.

Definition proper_event (e : Z * Z * vm_event) : Prop :=
  match snd e with VM_arrives msg => proper msg | _ => True end.

Lemma event_ok now ms q w e : vm_good q w → proper_event (now, ms, e) →
  outcome_sat diverges (λ '(q', w'), vm_good q' w') (VM_event now ms q w e).
Proof.
  intros G Pe. destruct e as [msg| |ip|]; cbn [VM_event].
  - eapply sat_bind; [by apply matcher_message_ok|]. by intros [[[q' w'] m'] b] [G' _].
  - by apply matcher_cycle_ok.
  - destruct (matcher_join_ok now q w ip G) as (q' & w' & b & -> & G'). by rewrite bind_ok.
  - eapply sat_bind; [by apply matcher_leave_ok|]. by intros [[q' w'] b].
Qed.

Lemma vm_run_ok es q w : vm_good q w → Forall proper_event es →
  outcome_sat diverges (λ '(q', w'), vm_good q' w') (VM_run q w es).
Proof.
  revert q w. induction es as [|[[now ms] e] es IH]; intros q w G F; cbn [VM_run]; [done|].
  apply Forall_cons in F as [Fe F]. eapply sat_bind; [by apply event_ok|]. intros [q' w'] G'. by apply IH.
Qed.

Lemma init_good q matcher limit static coord : net_inv (net q) → hostID q = me →
  vm_good (fst (VM_initHandler q (VM_new matcher limit static coord))) (snd (VM_initHandler q (VM_new matcher limit static coord))).
Proof.
  intros I E. split; [done|]. split; [|done]. split; [done|apply new_gateway_inv|constructor|constructor|constructor].
Qed.
End run.

Section theorem.
Context {N V : Type} `{NetManagerLaws N} `{VoronoiLaws V}.
Context (vjunk : von_uninit) (ojunk : vso_uninit) (gjunk : gw_uninit) (junk : vm_uninit).
Context (Hj : fits 32 (mu_x junk) ∧ fits 32 (mu_y junk)).


(** C18: Every subscription a matcher keeps has members that fit their types and is kept under its
    id, once: whatever clients and other matchers send, the layer and the radii have 16 bits, times
    and hosts 64, and coordinates are bit patterns of 32 bits. *)
Theorem subscriptions_stay_typed (es : list (Z * Z * vm_event)) (q q' : mqueue N) matcher limit static coord (w' : VASTMatcher V) :
  net_inv (net q) → Forall (proper_event vjunk (hostID q)) es →
  VM_run vjunk ojunk gjunk junk q
    (snd (VM_initHandler q (VM_new matcher limit static coord))) es = Ok (q', w') →
  NoDup (fst <$> m_subs (vm_host w')) ∧ Forall (λ x, sub_id (snd x) = fst x ∧ typed_sub (snd x)) (m_subs (vm_host w')).
Proof.
  intros I F E. pose proof (init_good (V := V) (hostID q) q matcher limit static coord I eq_refl) as G.
  pose proof (vm_run_ok vjunk ojunk gjunk junk (hostID q) Hj es q _ G F) as Hr. rewrite E in Hr. destruct Hr as [_ [Ih _]].
  split; [apply ordered_nodup, Ih|]. eapply Forall_impl; [apply (hi_each _ _ Ih)|]. by intros x (A & _ & B).
Qed.
End theorem.
