(* ===== verification/MatcherView.v ===== *)
(** What a matcher tells its clients of: after the search for neighbors a subscription has as
    neighbors exactly the subscriptions it sees, and a client that is told of the changes
    has the same neighbors. *)

From S2P Require Import Prelude Bytes StdMap Float Serial Geometry Subscription Message VastBuffer NetManager.
From S2P Require Import NetInterface VastNet VastSend VastJoin MessageQueue Routing QueueSafe Readable Handlers.
From S2P Require Import Client ClientSafe ClientSpec ClientFlow Built Gateway VonInterfaces VonPeer VonSafe.
From S2P Require Import VSOTypes VSOPeer MatcherHost Matcher MatcherSafe.
Local Open Scope Z_scope.

(** *** One round *)

(** What happens to one neighbor, by what is in view and what was known *)
Definition round_change (v : option Subscription) (old : option Area) : option NeighborUpdateStatus * option Area :=
  match v, old with
  | Some v, None => (Some INSERTED, Some (sub_aoi v))
  | Some v, Some a => if Area_eqb a (sub_aoi v) then (Some UNCHANGED, Some a) else (Some UPDATED, Some (sub_aoi v))
  | None, Some _ => (Some DELETED, None)
  | None, None => (None, None)
  end.

Lemma round_result s view k : ordered (neighbors s) → neighbor_states s = [] → NoDup (sub_id <$> view) →
  let s' := clearInvisibleNeighbors (foldl addNeighbor s view) in
  (find k (neighbor_states s'), find k (neighbors s')) = round_change (in_view k view) (find k (neighbors s)).
Proof.
  intros Ho Es Hd s'. unfold s', clearInvisibleNeighbors. set (s1 := foldl addNeighbor s view).
  assert (Ho1 : ordered (neighbors s1)) by by apply ordered_fold_add.
  destruct (fold_addNeighbor view s k Hd) as [Hst Hnb]. fold s1 in Hst, Hnb. rewrite Es in Hst. cbn [find] in Hst.
  destruct (fold_drop (remove_list s1) s1 k Ho1) as [-> ->]. unfold round_change.
  destruct (memb k (remove_list s1)) eqn:Hm.
  - apply memb_true, elem_remove_list in Hm as [Hh [a Ha]]; [|done]. unfold has in Hh. rewrite Hst in Hh. rewrite Hnb in Ha.
    destruct (in_view k view); [done|]. by rewrite Ha.
  - apply memb_false in Hm. rewrite elem_remove_list in Hm by done. unfold has in Hm. rewrite Hst, Hnb in *.
    destruct (in_view k view) as [v|]; destruct (find k (neighbors s)) as [a|]; try destruct (Area_eqb a (sub_aoi v)); try done.
    destruct Hm. split; [done|by exists a].
Qed.

Lemma round_ordered s view : neighbor_states s = [] →
  ordered (neighbor_states (clearInvisibleNeighbors (foldl addNeighbor s view))).
Proof.
  intros Es. unfold clearInvisibleNeighbors.
  assert (O : ordered (neighbor_states (foldl addNeighbor s view))).
  { assert (O : ordered (neighbor_states s)) by (rewrite Es; constructor). clear Es. revert s O.
    induction view as [|v view IH]; intros s O; cbn [foldl]; [done|]. apply IH. unfold addNeighbor.
    destruct (find _ _) as [a|]; [destruct (negb _)|]; by apply ordered_set. }
  generalize (remove_list (foldl addNeighbor s view)) as l. revert O. generalize (foldl addNeighbor s view) as z.
  intros z O l. revert z O. induction l as [|i l IH]; intros z O; cbn [foldl]; [done|]. by apply IH, ordered_set.
Qed.

(** *** All rounds at once *)

(** The same subscription, with other neighbors *)
Definition same_sub (a b : Subscription) : Prop := b = with_neighbors a (neighbor_states b) (neighbors b).

Lemma same_refl a : same_sub a a.
Proof. by destruct a. Qed.

Lemma same_step a b c : same_sub a b → same_sub b c → same_sub a c.
Proof. unfold same_sub. intros -> ->. done. Qed.

Lemma same_sym a b : same_sub a b → same_sub b a.
Proof. unfold same_sub. intros ->. by destruct a. Qed.

Lemma same_adds s l : same_sub s (foldl addNeighbor s l).
Proof.
  revert s. induction l as [|v l IH]; intros s; cbn [foldl]; [apply same_refl|].
  eapply same_step; [|apply IH]. unfold addNeighbor. destruct (find _ _) as [a|]; [destruct (negb _)|]; by destruct s.
Qed.

Lemma same_drops s l : same_sub s (foldl drop_neighbor s l).
Proof.
  revert s. induction l as [|v l IH]; intros s; cbn [foldl]; [apply same_refl|].
  eapply same_step; [|apply IH]. by destruct s.
Qed.

Lemma same_sees a a' b b' : same_sub a a' → same_sub b b' → sees a' b' = sees a b.
Proof. unfold same_sub. by intros -> ->. Qed.

Lemma same_adding s v v' : same_sub v v' → addNeighbor s v' = addNeighbor s v.
Proof. unfold same_sub. by intros ->. Qed.

Lemma same_id a b : same_sub a b → sub_id b = sub_id a.
Proof. unfold same_sub. by intros ->. Qed.

(** Whether the owner of [s] looks, and sees [v] *)
Definition looks_at (own : Z → bool) (s v : Subscription) : bool := own (sub_id s) && sees s v.

Lemma same_looks own a a' b b' : same_sub a a' → same_sub b b' → looks_at own a' b' = looks_at own a b.
Proof. intros Ha Hb. unfold looks_at. by rewrite (same_sees a a' b b'), (same_id _ _ Ha). Qed.

Definition saw own (s : Subscription) (l : list Subscription) : list Subscription := filter (λ v, looks_at own s v = true) l.

Lemma saw_same own s z l l' : Forall2 same_sub l l' → foldl addNeighbor z (saw own s l') = foldl addNeighbor z (saw own s l).
Proof.
  unfold saw. intros F. revert z. induction F as [|a b l l' Hab F IH]; intros z; [done|]. rewrite !filter_cons.
  rewrite (same_looks own s s a b (same_refl s) Hab). case_decide; [|apply IH]. cbn [foldl]. rewrite (same_adding _ _ _ Hab). apply IH.
Qed.

Lemma saw_by own a b l : same_sub a b → saw own b l = saw own a l.
Proof. intros E. unfold saw. apply list_filter_iff. intros v. by rewrite (same_looks own a b v v E (same_refl v)). Qed.

Lemma saw_one own s v : saw own s [v] = if looks_at own s v then [v] else [].
Proof. unfold saw. rewrite filter_cons, filter_nil. by case_decide; destruct (looks_at own s v). Qed.

(** The inner loop *)
Lemma see_rest_spec own s s1 l : same_sub s s1 →
  see_rest own s1 l =
    (foldl addNeighbor s1 (saw own s (snd <$> l)),
     (λ x, (fst x, foldl addNeighbor (snd x) (saw own (snd x) [s]))) <$> l).
Proof.
  revert s1. induction l as [|[k s2] l IH]; intros s1 E; cbn [see_rest]; [done|]. cbv zeta.
  fold (looks_at own s1 s2). rewrite (same_looks own s s1 s2 s2 E (same_refl s2)).
  assert (E' : same_sub s (if looks_at own s s2 then addNeighbor s1 s2 else s1)).
  { destruct (looks_at _ _ _); [|done]. eapply same_step; [exact E|apply (same_adds s1 [s2])]. }
  match goal with |- context [see_rest own ?a l] => set (s1' := a) in * end.
  rewrite (IH s1' E'), !fmap_cons. cbn [snd fst]. rewrite saw_one. f_equal.
  - unfold saw. rewrite filter_cons. unfold s1'. by case_decide; destruct (looks_at own s s2).
  - f_equal. f_equal. fold (looks_at own s2 s1'). rewrite (same_looks own s2 s2 s s1' (same_refl s2) E').
    destruct (looks_at own s2 s); [|done]. by apply same_adding.
Qed.

(** What both loops compute; [pre] are the subscriptions in front *)
Fixpoint all_seen own (pre : list Subscription) (l : list (Z * Subscription)) : list (Z * Subscription) :=
  match l with
  | [] => []
  | (k, s) :: l => (k, clearInvisibleNeighbors (foldl addNeighbor s (saw own s (pre ++ (snd <$> l)) ++ [s]))) :: all_seen own (pre ++ [s]) l
  end.

Lemma see_all_spec own pre l :
  see_all (length l) own ((λ x, (fst x, foldl addNeighbor (snd x) (saw own (snd x) pre))) <$> l) = all_seen own pre l.
Proof.
  revert pre. induction l as [|[k s] l IH]; intros pre; [done|]. cbn [length]. rewrite fmap_cons. cbn [see_all all_seen fst snd].
  set (s1 := foldl addNeighbor s (saw own s pre)). assert (E : same_sub s s1) by apply same_adds.
  rewrite (see_rest_spec own s s1 _ E). f_equal; [|].
  - f_equal. f_equal. rewrite (same_adding _ s); [|].
    + unfold saw. rewrite filter_app, !foldl_app. cbn [foldl]. fold (saw own s pre). fold s1. f_equal.
      apply saw_same. rewrite <- list_fmap_compose. apply Forall2_fmap_2, Forall_Forall2_diag, Forall_forall. intros x _. apply same_adds.
    + eapply same_step; [exact E|apply same_adds].
  - rewrite <- IH. f_equal. rewrite <- list_fmap_compose. apply list_fmap_ext. intros i [k2 s2] _. cbn [compose fst snd]. f_equal.
    set (a := foldl addNeighbor s2 (saw own s2 pre)). assert (Ea : same_sub s2 a) by apply same_adds.
    rewrite (saw_by own s2 a [s] Ea). unfold saw at 2. rewrite filter_app, foldl_app. done.
Qed.

Lemma all_seen_keys own pre l : fst <$> all_seen own pre l = fst <$> l.
Proof. revert pre. induction l as [|[k s] l IH]; intros pre; cbn [all_seen]; [done|]. rewrite !fmap_cons. by rewrite IH. Qed.

Lemma all_seen_find own pre l id x : find id l = Some x →
  ∃ l1 l2, l = l1 ++ (id, x) :: l2
  ∧ find id (all_seen own pre l)
    = Some (clearInvisibleNeighbors (foldl addNeighbor x (saw own x (pre ++ (snd <$> l1) ++ (snd <$> l2)) ++ [x]))).
Proof.
  revert pre. induction l as [|[k s] l IH]; intros pre; cbn [find all_seen]; [done|]. destruct (Z.eqb_spec id k) as [->|Hne].
  - intros [= ->]. by exists [], l.
  - intros E. destruct (IH (pre ++ [s]) E) as (l1 & l2 & -> & Ef). exists ((k, s) :: l1), l2. split; [done|].
    rewrite Ef, <- app_assoc. by rewrite fmap_cons.
Qed.

(** The subscription [k], if [x] has it in view: [x] itself, or what its owner sees *)
Definition visible own (l : list (Z * Subscription)) (x : Subscription) (k : Z) : option Subscription :=
  match find k l with
  | Some v => if (k =? sub_id x) || looks_at own x v then Some v else None
  | None => None
  end.

Lemma in_view_some k l v : NoDup (sub_id <$> l) → in_view k l = Some v ↔ v ∈ l ∧ sub_id v = k.
Proof.
  induction l as [|a l IH]; intros D; [by split; [|intros [?%elem_of_nil]]|]. rewrite fmap_cons, NoDup_cons in D. destruct D as [Ha D].
  rewrite in_view_cons, elem_of_cons. destruct (Z.eqb_spec (sub_id a) k) as [<-|Hne].
  - split; [intros [= ->]; by split; [left|]|]. intros [[-> |Hv] E]; [done|]. destruct Ha. rewrite <- E. apply list_elem_of_fmap. eauto.
  - rewrite IH by done. split; [intros []; by split; [right|]|]. intros [[-> |Hv] E]; [done|by split].
Qed.

Lemma nodup_saw own x l : NoDup (sub_id <$> l) → NoDup (sub_id <$> saw own x l).
Proof. intros D. eapply sublist_NoDup; [exact D|]. apply fmap_sublist, sublist_filter. Qed.

Lemma in_view_visible own l1 l2 id x k :
  let l := l1 ++ (id, x) :: l2 in
  ordered l → Forall (λ a, sub_id (snd a) = fst a) l →
  NoDup (sub_id <$> saw own x ((snd <$> l1) ++ (snd <$> l2)) ++ [x])
  ∧ in_view k (saw own x ((snd <$> l1) ++ (snd <$> l2)) ++ [x]) = visible own l x k.
Proof.
  intros l O F. set (others := (snd <$> l1) ++ (snd <$> l2)).
  assert (Hp : fst <$> l ≡ₚ id :: (sub_id <$> others)).
  { unfold l, others. apply Forall_app in F as [F1 F2]. apply Forall_cons in F2 as [_ F2].
    assert (Hf : ∀ m, Forall (λ a : Z * Subscription, sub_id (snd a) = fst a) m → sub_id <$> (snd <$> m) = fst <$> m).
    { intros m Fm. rewrite <- list_fmap_compose. apply Forall_fmap_ext. eapply Forall_impl; [exact Fm|done]. }
    rewrite !fmap_app, !Hf, fmap_cons by done. cbn [fst]. by rewrite <- Permutation_middle. }
  pose proof (ordered_nodup _ O) as D. rewrite Hp, NoDup_cons in D. destruct D as [Hid D].
  assert (Hx : sub_id x = id) by (apply (proj1 (Forall_forall _ _) F (id, x)); unfold l; apply elem_of_app; right; left).
  assert (Dv : NoDup (sub_id <$> saw own x others ++ [x])).
  { rewrite fmap_app. apply NoDup_app. splits; [|intros i Hi|apply NoDup_singleton].
    - by apply nodup_saw.
    - apply list_elem_of_fmap in Hi as (v & -> & [_ Hv]%list_elem_of_filter). cbn. intros E%list_elem_of_singleton.
      destruct Hid. rewrite <- Hx, <- E. apply list_elem_of_fmap. eauto. }
  split; [done|]. apply option_eq. intros v. rewrite in_view_some by done. unfold visible.
  assert (Hin : ∀ v, v ∈ others ++ [x] ↔ ∃ i, (i, v) ∈ l).
  { intros w. unfold others, l. rewrite !elem_of_app, !list_elem_of_fmap, list_elem_of_singleton. split.
    - intros [[([i a] & -> & Ha)|([i a] & -> & Ha)]| ->]; eexists; apply elem_of_app; [left; exact Ha|right; right; exact Ha|right; left].
    - intros [i [Hi|[[= -> ->]|Hi]%elem_of_cons]%elem_of_app]; [left; left; by exists (i, w)|by right|left; right; by exists (i, w)]. }
  rewrite elem_of_app, list_elem_of_singleton. unfold saw. rewrite list_elem_of_filter.
  assert (Hf : ∀ w, (∃ i, (i, w) ∈ l) → find (sub_id w) l = Some w).
  { intros w [i Hi]. pose proof (proj1 (Forall_forall _ _) F _ Hi) as E. cbn in E. rewrite E. by apply In_find. }
  split.
  - intros [Hv <-]. rewrite (Hf v) by (apply Hin, elem_of_app; destruct Hv as [[_ Hv]| ->]; [by left|right; left]).
    destruct Hv as [[-> _]| ->]; [by rewrite orb_true_r|by rewrite Z.eqb_refl].
  - destruct (find k l) as [w|] eqn:E; [|done]. apply find_In in E. pose proof (proj1 (Forall_forall _ _) F _ E) as Ek. cbn in Ek.
    destruct (Z.eqb_spec k (sub_id x)) as [Hk|Hk]; cbn [orb].
    + intros [= ->]. split; [|done]. right. apply In_find in E; [|done]. rewrite Hk, Hx in E.
      rewrite (In_find id x l O) in E by (unfold l; apply elem_of_app; right; left). congruence.
    + destruct (looks_at own x w) eqn:El; [|done]. intros [= ->]. split; [|done]. left. split; [done|].
      assert (Hw : v ∈ others ++ [x]) by (apply Hin; eauto). apply elem_of_app in Hw as [|Hw%list_elem_of_singleton]; [done|congruence].
Qed.

(** *** The search for neighbors *)

Lemma round_change_same v v' old : option_Forall2 same_sub v v' → round_change v' old = round_change v old.
Proof. destruct 1 as [a b E|]; [|done]. by rewrite E. Qed.

Lemma all_seen_same own pre l : Forall2 (λ a b, fst a = fst b ∧ same_sub (snd a) (snd b)) l (all_seen own pre l).
Proof.
  revert pre. induction l as [|[k s] l IH]; intros pre; cbn [all_seen]; constructor; [|apply IH]. split; [done|].
  eapply same_step; [apply same_adds|apply same_drops].
Qed.

Lemma find_same l l' k : Forall2 (λ a b, fst a = fst b ∧ same_sub (snd a) (snd b)) l l' →
  option_Forall2 same_sub (find k l) (find k l').
Proof.
  induction 1 as [|[i a] [j b] l l' [E S] F IH]; cbn [find fst snd] in *; [constructor|]. subst j.
  destruct (_ =? _); [by constructor|done].
Qed.

Lemma visible_same own l l' x y k : Forall2 (λ a b, fst a = fst b ∧ same_sub (snd a) (snd b)) l l' → same_sub x y →
  option_Forall2 same_sub (visible own l x k) (visible own l' y k).
Proof.
  intros F S. unfold visible. destruct (find_same l l' k F) as [a b E|]; [|constructor].
  rewrite (same_id _ _ S), (same_looks own x y a b S E). destruct (_ || _); by constructor.
Qed.

Section view.
Context {N V : Type} `{NetManagerLaws N} `{VoronoiLaws V}.
Implicit Types (q : mqueue N) (h : matcher_host) (p : VSOPeer V).

(** A subscription at the start of the search, in the region or not *)
Definition marked (b : bool) (x : Subscription) : Subscription :=
  if b then set_in_region (clearStates x 0) true else clearStates x 0.

Lemma clear_round_spec p l l' me : clear_round p l me = Ok l' →
  Forall2 (λ a b, fst a = fst b ∧ ∃ r, vor_contains (voronoi (vp p)) me (center (sub_aoi (snd a))) = Ok r
                  ∧ snd b = marked r (snd a)) l l'.
Proof.
  revert l'. induction l as [|[k x] l IH]; intros l'; cbn [clear_round]; [by intros [= <-]|]. intros E. run_inv E. run_inv E.
  injection E as <-. constructor; [|by apply IH]. split; [done|]. by exists r.
Qed.

(** Each subscription after the search *)
Lemma searched h p h' : refreshSubscriptionNeighbors h p = Ok h' → ordered (m_subs h) → Forall kept_well (m_subs h) →
  h' = with_subs h (m_subs h') ∧ fst <$> m_subs h' = fst <$> m_subs h
  ∧ ∀ id x, find id (m_subs h) = Some x → ∃ y, find id (m_subs h') = Some y
    ∧ y = with_neighbors (set_in_region x (in_region y)) (neighbor_states y) (neighbors y)
    ∧ vor_contains (voronoi (vp p)) (node_id (m_self h)) (center (sub_aoi x)) = Ok (in_region y)
    ∧ ordered (neighbor_states y)
    ∧ ∀ k, (find k (neighbor_states y), find k (neighbors y))
           = round_change (visible (isOwner p) (m_subs h') y k) (find k (neighbors x)).
Proof.
  unfold refreshSubscriptionNeighbors. intros E O F. run_inv E. injection E as <-. cbn [m_subs with_subs set_tables].
  rename r into l. apply clear_round_spec in E0. set (own := isOwner p).
  assert (El : see_all (length l) own l = all_seen own [] l).
  { rewrite <- see_all_spec. f_equal. rewrite <- (list_fmap_id l) at 1. apply list_fmap_ext. intros i [k s] _. done. }
  change (m_subs (with_subs h (see_all (length l) own l))) with (see_all (length l) own l). rewrite El.
  assert (Ek : fst <$> l = fst <$> m_subs h).
  { clear -E0. induction E0 as [|a b l1 l2 [E _] _ IH]; [done|]. by rewrite !fmap_cons, IH, E. }
  split; [done|]. split; [by rewrite all_seen_keys|]. intros id x Hx.
  assert (Ol : ordered l) by by apply (ordered_keys (m_subs h)).
  assert (Fl : Forall (λ a, sub_id (snd a) = fst a ∧ neighbor_states (snd a) = [] ∧ ordered (neighbors (snd a))) l).
  { clear -E0 F. induction E0 as [|a b l1 l2 (E & r & _ & Eb) _ IH]; [done|]. apply Forall_cons in F as [(Fa & Fo & _) F].
    constructor; [|by apply IH]. rewrite Eb, <- E. by destruct r. }
  assert (Hz : ∃ r z, find id l = Some z ∧ vor_contains (voronoi (vp p)) (node_id (m_self h)) (center (sub_aoi x)) = Ok r ∧ z = marked r x).
  { clear -E0 Hx. induction E0 as [|[i a] [j b] l1 l2 (E & r & Er & Eb) _ IH]; [done|]. cbn [find fst snd] in *. subst j.
    destruct (id =? i); [injection Hx as ->; by exists r, b|by apply IH]. }
  destruct Hz as (r & z & Ez & Er & Hz). destruct (all_seen_find own [] l id z Ez) as (l1 & l2 & El12 & Ef). cbn [app] in Ef.
  eexists. split; [exact Ef|]. set (y := clearInvisibleNeighbors _).
  assert (Sy : same_sub z y) by (eapply same_step; [apply same_adds|apply same_drops]).
  assert (Ey : y = with_neighbors z (neighbor_states y) (neighbors y)) by exact Sy.
  pose proof (proj1 (Forall_forall _ _) Fl (id, z) (find_In _ _ _ Ez)) as (Fz & Fs & Fo). cbn [snd fst] in *.
  split; [|split; [|split; [by apply round_ordered|]]].
  - rewrite Ey at 1. assert (Ei : in_region y = in_region z) by (rewrite Ey; done). rewrite Ei, Hz. by destruct r.
  - rewrite Er. f_equal. rewrite Ey, Hz. by destruct r.
  - intros k.
    destruct (in_view_visible own l1 l2 id z k) as [Dv Iv]; [by rewrite <- El12|rewrite <- El12; eapply Forall_impl; [exact Fl|by intros ? []]|].
    rewrite <- El12 in Iv. pose proof (round_result z _ k Fo Fs Dv) as Rr. cbv zeta in Rr. fold y in Rr. rewrite Rr, Iv.
    assert (En : neighbors z = neighbors x) by (rewrite Hz; by destruct r). rewrite En. symmetry.
    apply round_change_same, visible_same; [apply all_seen_same|done].
Qed.
End view.

(** *** What a client is told *)

(** The entry for one neighbor, none if it is unchanged and the subscription did not move *)
Definition entry_of (subs : list (Z * Subscription)) (changed : bool) (x : Z * NeighborUpdateStatus) : list neighbor_update :=
  if bool_decide (snd x = UNCHANGED) && negb changed then [] else
  match find (fst x) subs, snd x with
  | Some v, INSERTED => [Inserted (neighbor_node v)]
  | Some v, UPDATED => [Updated (fst x) (sub_aoi v) (sub_time v)]
  | Some _, UNCHANGED => [Unchanged (fst x)]
  | _, _ => [Deleted (fst x)]
  end.

Definition entries subs changed (l : list (Z * NeighborUpdateStatus)) : list neighbor_update := l ≫= entry_of subs changed.

(** What an entry makes of one neighbor *)
Definition one_update (us : list neighbor_update) (o : option Node) : option Node :=
  match us with
  | Inserted n :: _ => Some n
  | Deleted _ :: _ => None
  | Updated _ a t :: _ => (λ n, mkNode (node_id n) t a (node_addr n)) <$> o
  | _ => o
  end.

Definition keyed (subs : list (Z * Subscription)) : Prop := ∀ k v, find k subs = Some v → sub_id v = k.

Lemma entry_id subs b x : keyed subs → Forall (λ u, update_id u = fst x) (entry_of subs b x).
Proof.
  intros K. unfold entry_of. destruct (_ && _); [done|]. destruct (find (fst x) subs) as [v|] eqn:E; [|by constructor].
  destruct (snd x); constructor; try done. cbn. by apply K.
Qed.

Lemma apply_update_lookup m u k : apply_update m u !! k = if k =? update_id u then one_update [u] (m !! k) else m !! k.
Proof.
  destruct (Z.eqb_spec k (update_id u)) as [->|Hne]; destruct u as [n|i|i|i a t]; cbn [apply_update update_id one_update] in *; try done.
  - apply lookup_insert_eq.
  - apply lookup_delete_eq.
  - apply lookup_alter_eq.
  - by apply lookup_insert_ne.
  - by apply lookup_delete_ne.
  - by apply lookup_alter_ne.
Qed.

Lemma entry_applied subs b x m k : keyed subs →
  foldl apply_update m (entry_of subs b x) !! k = if k =? fst x then one_update (entry_of subs b x) (m !! k) else m !! k.
Proof.
  intros K. pose proof (entry_id subs b x K) as Hi. assert (Hl : ∃ o, entry_of subs b x = from_option (λ u, [u]) [] o).
  { unfold entry_of. destruct (_ && _); [by exists None|]. destruct (find _ _) as [v|]; [destruct (snd x)|]; eexists (Some _); reflexivity. }
  destruct Hl as [[u|] E]; rewrite E in *; cbn [from_option foldl] in *; [|by destruct (_ =? _)].
  rewrite apply_update_lookup. inversion Hi as [|? ? Hu _ Eu]. by rewrite Hu.
Qed.

Lemma entries_applied subs b l m k : keyed subs → NoDup (fst <$> l) →
  foldl apply_update m (entries subs b l) !! k
  = match find k l with Some st => one_update (entry_of subs b (k, st)) (m !! k) | None => m !! k end.
Proof.
  intros K. unfold entries. revert m. induction l as [|x l IH]; intros m D; [done|].
  rewrite fmap_cons, NoDup_cons in D. destruct D as [Hx D].
  change ((x :: l) ≫= entry_of subs b) with (entry_of subs b x ++ (l ≫= entry_of subs b)).
  rewrite foldl_app, IH by done. rewrite entry_applied by done. destruct x as [i st]. cbn [find fst] in *.
  destruct (Z.eqb_spec k i) as [->|Hne]; [|done]. destruct (find i l) as [st'|] eqn:E; [|done].
  apply find_In in E. destruct Hx. apply list_elem_of_fmap. by exists (i, st').
Qed.

(** A client's list has the neighbors of the subscription, with the same areas. *)
Definition agrees (m : gmap Z Node) (nb : list (Z * Area)) : Prop :=
  ∀ k, match m !! k, find k nb with Some n, Some a => node_aoi n = a | None, None => True | _, _ => False end.

(** The subscriptions now, some of them not dirty any more *)
Definition cleaned (l l' : list (Z * Subscription)) : Prop :=
  ∀ k, (λ v, set_dirty v false) <$> find k l' = (λ v, set_dirty v false) <$> find k l.

Lemma cleaned_find l l' k v : cleaned l l' → find k l = Some v →
  ∃ v', find k l' = Some v' ∧ sub_aoi v' = sub_aoi v ∧ sub_id v' = sub_id v.
Proof.
  intros C E. specialize (C k). rewrite E in C. destruct (find k l') as [v'|]; [|done]. cbn in C.
  exists v'. destruct v, v'. cbn in *. by simplify_eq.
Qed.

Lemma told_agrees own subs subs' x y m b : keyed subs' → cleaned subs subs' → ordered (neighbor_states y) →
  (∀ k, (find k (neighbor_states y), find k (neighbors y)) = round_change (visible own subs y k) (find k (neighbors x))) →
  agrees m (neighbors x) → agrees (foldl apply_update m (entries subs' b (neighbor_states y))) (neighbors y).
Proof.
  intros K C O R A k. specialize (A k). specialize (R k). rewrite entries_applied by (done || by apply ordered_nodup).
  unfold visible in R. destruct (find k subs) as [v|] eqn:Ev; [destruct (_ || _)|].
  1: destruct (cleaned_find _ _ _ _ C Ev) as (v' & Ev' & Ea & _).
  all: destruct (find k (neighbors x)) as [a|]; cbn [round_change] in R; try destruct (Area_eqb a (sub_aoi v)); injection R as -> ->;
    unfold entry_of; cbn [fst snd]; rewrite ?Ev'; cbn [bool_decide]; destruct (m !! k) as [n|]; try done.
  all: try (rewrite bool_decide_eq_false_2 by done); try (rewrite bool_decide_eq_true_2 by done); cbn [andb]; try done.
  all: try (destruct (negb b)); try done; try (by destruct (find k subs')).
Qed.

(** One item more of a message that is built *)
Ltac step_built B M :=
  let m' := fresh "m" in let E := fresh "E" in let B' := fresh "B" in let M' := fresh "M" in
  match goal with
  | |- context [store_int ?n ?m ?z] =>
      destruct (store_built _ _ _ _ m (le_bytes n z) B M) as (m' & E & B' & M');
      change (store_int n m z) with (store m (le_bytes n z) false)
  | |- context [store_obj ?m ?x] => destruct (store_obj_built _ _ _ _ m x B M) as (m' & E & B' & M')
  end; rewrite E, bind_ok; cbn beta iota; clear B M E; rename B' into B, M' into M.

Section told.
Context {N V : Type} `{NetManagerLaws N} `{VoronoiLaws V} (junk : uninit).
Implicit Types (q : mqueue N) (h : matcher_host) (p : VSOPeer V).

(** C16: After the search every subscription has as neighbors exactly the subscriptions it sees -
    all in the region for layer 0, those of its layer that its area overlaps, itself, and only
    itself if it is not owned here -, and the recorded states say exactly what changed.
    Nothing else of it changes but whether it is in the region of this matcher. *)
Theorem neighbors_refreshed me q h p : well me q h p → asks (vp p) →
  ∃ h', refreshSubscriptionNeighbors h p = Ok h' ∧ h' = with_subs h (m_subs h') ∧ fst <$> m_subs h' = fst <$> m_subs h
  ∧ ∀ id x, find id (m_subs h) = Some x → ∃ y, find id (m_subs h') = Some y
    ∧ y = with_neighbors (set_in_region x (in_region y)) (neighbor_states y) (neighbors y)
    ∧ vor_contains (voronoi (vp p)) me (center (sub_aoi x)) = Ok (in_region y)
    ∧ ∀ k, (find k (neighbor_states y), find k (neighbors y))
           = round_change (visible (isOwner p) (m_subs h') y k) (find k (neighbors x)).
Proof.
  intros W A. destruct (see_neighbors_ok me q h p W A) as (h' & E & _). destruct W as (_ & Ih & _).
  destruct (searched h p h' E (hi_subs _ _ Ih) (hi_each _ _ Ih)) as (Eh & Ek & Hs). exists h'. splits; [done|done|done|].
  intros id x Hx. destruct (Hs id x Hx) as (y & Hy & Ey & Er & _ & Hk). rewrite (hi_self _ _ Ih) in Er. by exists y.
Qed.

(** The message with the entries *)
Lemma store_updates_built subs b ty g ts bs m n l : keyed subs → built ty g ts bs m → malloc m = true → 0 ≤ n →
  n + Z.of_nat (length (entries subs b l)) < 256 →
  ∃ m', store_updates subs b m n l = Ok (m', n + Z.of_nat (length (entries subs b l)))
  ∧ built ty g ts (bs ++ concat (update_wire <$> entries subs b l)) m' ∧ malloc m' = true.
Proof.
  intros K. revert bs m n. induction l as [|[k st] l IH]; intros bs m n B M Hn Hl.
  { exists m. cbn. rewrite Z.add_0_r, app_nil_r. done. }
  change (entries subs b ((k, st) :: l)) with (entry_of subs b (k, st) ++ entries subs b l) in *.
  unfold entry_of in *. cbn [store_updates fst snd] in *. destruct (_ && _); [by apply IH|]. cbv zeta.
  assert (Hr : ∀ u m1, built ty g ts (bs ++ update_wire u) m1 → malloc m1 = true → n + Z.of_nat (length (u :: entries subs b l)) < 256 →
    ∃ m', store_updates subs b m1 (u8 (n + 1)) l = Ok (m', n + Z.of_nat (length (u :: entries subs b l)))
    ∧ built ty g ts (bs ++ concat (update_wire <$> u :: entries subs b l)) m' ∧ malloc m' = true).
  { intros u m1 B1 M1 Hu. cbn [length] in Hu |- *.
    assert (E8 : u8 (n + 1) = n + 1) by (apply wrap_id; unfold fits; change (2 ^ 8) with 256; lia). rewrite E8.
    destruct (IH (bs ++ update_wire u) m1 (n + 1) B1 M1) as (m' & E & B' & M'); [lia|lia|].
    exists m'. rewrite E, fmap_cons. cbn [concat]. rewrite app_assoc. splits; [f_equal; f_equal; lia|done|done]. }
  step_built B M. step_built B M. rewrite <- app_assoc in B.
  destruct (find k subs) as [v|] eqn:Ef; [destruct st|]; cbn [app] in *.
  - step_built B M. rewrite bind_ok. apply Hr; [|done|done]. unfold update_wire. cbn [update_id ClientSpec.update_status update_payload].
    rewrite <- !app_assoc in B. change (node_id (neighbor_node v)) with (sub_id v). by rewrite (K k v Ef).
  - rewrite bind_ok. apply Hr; [|done|done]. unfold update_wire. cbn [update_payload]. by rewrite app_nil_r.
  - rewrite bind_ok. apply Hr; [|done|done]. unfold update_wire. cbn [update_payload]. by rewrite app_nil_r.
  - step_built B M. step_built B M. rewrite bind_ok. apply Hr; [|done|done]. unfold update_wire. cbn [update_id ClientSpec.update_status update_payload].
    by rewrite <- !app_assoc in B.
  - rewrite bind_ok. apply Hr; [|done|done]. unfold update_wire. cbn [update_payload]. by rewrite app_nil_r.
Qed.

Lemma entries_valid subs b l : Forall (λ v, Node_valid (neighbor_node (snd v))) subs → Forall (λ a, fits 64 (fst a)) l →
  Forall update_valid (entries subs b l).
Proof.
  intros Hs. unfold entries. induction 1 as [|[k st] l Hk _ IH]; [by constructor|].
  change (((k, st) :: l) ≫= entry_of subs b) with (entry_of subs b (k, st) ++ (l ≫= entry_of subs b)).
  apply Forall_app. split; [|exact IH]. unfold entry_of. destruct (_ && _); [by constructor|]. cbn [fst snd] in *.
  destruct (find k subs) as [v|] eqn:E; [|apply Forall_singleton; by split].
  apply find_In in E. pose proof (proj1 (Forall_forall _ _) Hs _ E) as Hv. cbn [snd] in Hv. pose proof Hv as (Hi & Ht & Ha & _).
  destruct st; apply Forall_singleton; split; try done; by split.
Qed.

(** The message as it is handled at its destination *)
Definition arrives (r m : Message) : Prop :=
  Message_inv r ∧ mcurr r = 0%nat ∧ msgtype r = msgtype m ∧ content r = content m.

Lemma sees_itself h p h' id x y : refreshSubscriptionNeighbors h p = Ok h' → ordered (m_subs h) → Forall kept_well (m_subs h) →
  find id (m_subs h) = Some x → find id (m_subs h') = Some y →
  neighbor_states y ≠ [] ∧ ordered (neighbor_states y)
  ∧ ∀ k, (find k (neighbor_states y), find k (neighbors y))
         = round_change (visible (isOwner p) (m_subs h') y k) (find k (neighbors x)).
Proof.
  intros E O F Hx Hy. destruct (searched h p h' E O F) as (_ & _ & Hs). destruct (Hs id x Hx) as (y' & Hy' & Ey & _ & Os & Hk).
  assert (y' = y) as -> by congruence. splits; [|done|done]. intros En. specialize (Hk id). unfold visible in Hk. rewrite Hy in Hk.
  assert (Ei : sub_id y = id). { rewrite Ey. apply find_In in Hx. by apply (proj1 (Forall_forall _ _) F) in Hx as [? _]. }
  rewrite Ei, Z.eqb_refl in Hk. cbn [orb] in Hk. rewrite En in Hk. cbn [find] in Hk.
  destruct (find id (neighbors x)) as [a|]; cbn [round_change] in Hk; [destruct (Area_eqb _ _)|]; by injection Hk.
Qed.

(** C8: A client follows what its subscription sees. If its list agrees with the neighbors
    of the subscription before the search, then after the search and the message of the
    changes - one that the client handles whenever it arrives, sent to the client's host
    if there are changes - its list agrees with the neighbors found: no neighbor is missing, none is
    left over, and all areas are the current ones. *)
Theorem client_follows me now nowc q h p h' h2 id x y msg failed (qc : mqueue N) c :
  well me q h p → refreshSubscriptionNeighbors h p = Ok h' → find id (m_subs h) = Some x → find id (m_subs h') = Some y →
  keyed (m_subs h2) → cleaned (m_subs h') (m_subs h2) → Forall (λ v, Node_valid (neighbor_node (snd v))) (m_subs h2) →
  Forall (λ a, fits 64 (fst a)) (neighbor_states y) → isOwner p (sub_id y) = true →
  notify_closest now q h2 p msg y = Ok (q, h2, msg) → reachable q (sub_host_id y) → sub_host_id y ≠ NET_ID_UNASSIGNED → Message_inv msg →
  Z.of_nat (length (entries (m_subs h2) (dirty y) (neighbor_states y))) < 256 →
  net_inv (net qc) → client_inv c → agrees (view (c_neighbors c)) (neighbors x) →
  ∃ q' msg', notify_client now q h2 p msg failed id y
             = Ok (q', with_subs h2 (set id (set_dirty y false) (m_subs h2)), msg', failed)
  ∧ (if bool_decide (entries (m_subs h2) (dirty y) (neighbor_states y) = [])
     then q' = q ∧ agrees (view (c_neighbors c)) (neighbors y)
     else ∃ v' m, q' = with_net q v' ∧ sends q v' (sub_host_id y) m ∧ msgtype m = code NEIGHBOR
          ∧ targets m = [sub_host_id y] ∧ msggroup m = MSG_GROUP_VAST_CLIENT
          ∧ ∀ r, arrives r m → ∃ qc' c' r', handle_neighbor junk nowc qc c r = Ok (qc', c', r')
                                ∧ agrees (view (c_neighbors c')) (neighbors y)).
Proof.
  intros (_ & Ih & _) E Hx Hy K C Hv Hf Ho Hc Hr Hz Mm Hl Iq Ic A.
  destruct (sees_itself h p h' id x y E (hi_subs _ _ Ih) (hi_each _ _ Ih) Hx Hy) as (Hn & Os & R).
  pose proof (told_agrees _ _ _ _ _ _ (dirty y) K C Os R A) as At. pose proof (entries_valid (m_subs h2) (dirty y) _ Hv Hf) as Vu.
  unfold notify_client. destruct (neighbor_states y) as [|st0 sts] eqn:Es; [done|]. rewrite <- Es in *. clear Es st0 sts.
  set (us := entries _ _ _) in *. rewrite Ho, Hc, bind_ok. cbn [negb]. cbn beta iota.
  assert (B : built (code NEIGHBOR) 0 [] [] (set_priority (clear msg (code NEIGHBOR) 0 3) 1)).
  { split; try done. by apply clear_inv. }
  destruct (store_updates_built (m_subs h2) (dirty y) _ _ _ _ _ 0 (neighbor_states y) K B eq_refl) as (m1 & -> & B1 & M1); [done|done|].
  fold us in B1 |- *. rewrite bind_ok. cbn beta iota. rewrite Z.add_0_l. cbn [app] in B1.
  destruct (bool_decide_reflect (us = [])) as [Eus|Hus].
  { rewrite Eus in At |- *. cbn [length]. change (0 <? Z.of_nat 0) with false. cbn beta iota. rewrite bind_ok.
    by eexists q, _. }
  destruct (Z.ltb_spec 0 (Z.of_nat (length us))) as [_|Hl0]; [|by destruct us; [|cbn in Hl0; lia]].
  step_built B1 M1. unfold sendClientMessage. destruct (Z.eqb_spec (sub_host_id y) NET_ID_UNASSIGNED) as [|_]; [done|]. cbn [negb].
  rewrite (bl_targets _ _ _ _ _ B1).
  match goal with |- context [matcher_send now q ?m] => destruct (handler_sends now q MSG_GROUP_VAST_MATCHER (sub_host_id y) _ _ _ m Hr
    (group_built _ _ MSG_GROUP_VAST_CLIENT _ _ _ (addTarget_built _ _ _ _ (sub_host_id y) B1))) as (v' & m' & Em & S & B') end.
  unfold matcher_send. rewrite Em, !bind_ok. cbn beta iota. change (1 =? 0) with false. cbn beta iota.
  eexists (with_net q v'), _. split; [reflexivity|]. exists v', m'. splits; [done|exact S|apply B'|apply B'|apply B'|].
  intros r (Mr & Pr & _ & Cr). rewrite (bl_content _ _ _ _ _ B') in Cr.
  destruct (neighbors_applied junk nowc qc c r us Iq Ic Mr Pr Vu Hl Cr) as (qc' & c' & r' & Eh & Ev & _). exists qc', c', r'. split; [done|by rewrite Ev].
Qed.
End told.
