(* ===== verification/MatcherSpec.v ===== *)
(** What matchers do together and for clients: copies of subscriptions reach the other matcher
    unchanged, full once and as updates afterwards, publications reach those whose area covers
    them, and the gateway reads what a matcher reports. *)

From S2P Require Import Prelude Bytes StdMap Float Serial Geometry Subscription Message VastBuffer NetManager.
From S2P Require Import NetInterface VastNet VastSend VastJoin MessageQueue Routing QueueSafe Readable Handlers.
From S2P Require Import Client ClientSafe ClientSpec ClientFlow Built Gateway VonInterfaces VonPeer VonSafe.
From S2P Require Import VSOTypes VSOPeer MatcherHost Matcher MatcherHandle MatcherSafe MatcherView.
Local Open Scope Z_scope.

(** A number at the end of a message *)
Lemma count_at_end k m old body n : Message_inv m → (0 < k)%nat → mcurr m = 0%nat →
  content m = body ++ le_bytes k n → fits (8 * Z.of_nat k) n →
  ∃ m', extract_int k m old true = Ok (m', n, k) ∧ Message_inv m' ∧ content m' = body ∧ mcurr m' = 0%nat ∧ same_head m' m.
Proof.
  intros I Hk Hc Hd F. pose proof (length_content m I) as L. rewrite Hd, length_app, length_le_bytes in L.
  destruct (extract_end_spec m k I Hk ltac:(lia)) as (m' & E & I' & C' & _ & P' & S'). unfold extract_int. rewrite E, bind_ok. cbn beta iota.
  rewrite Hd in *. rewrite <- L, Nat.add_sub, drop_app_length in *. rewrite take_app_length in C'.
  rewrite le_val_bytes, Z.mod_small by exact F. exists m'. splits; try done. by rewrite P', Hc.
Qed.

Lemma filter_in_iff {A} (P Q : A → Prop) `{!∀ x, Decision (P x), !∀ x, Decision (Q x)} (l : list A) :
  (∀ x, x ∈ l → P x ↔ Q x) → filter P l = filter Q l.
Proof.
  induction l as [|a l IH]; intros E; [done|]. rewrite !filter_cons, IH by (intros x Hx; apply E; by right).
  pose proof (E a ltac:(left)). repeat case_decide; tauto.
Qed.

(** *** Who has copies *)

Definition copied (t : Z) (r : replica_map) (id : Z) : bool := has t (default [] (find id r)).

Lemma copied_set t r i j : copied t (set i (set t true (default [] (find i r))) r) j = (j =? i) || copied t r j.
Proof.
  unfold copied. rewrite find_set. destruct (Z.eqb_spec j i) as [->|]; [|done].
  change (default [] (Some ?x)) with x. by rewrite has_set, Z.eqb_refl.
Qed.

Lemma copied_other t t' r i j : t' ≠ t → copied t' (set i (set t true (default [] (find i r))) r) j = copied t' r j.
Proof.
  intros Ht. unfold copied. rewrite find_set. destruct (Z.eqb_spec j i) as [->|]; [|done].
  change (default [] (Some ?x)) with x. rewrite has_set. by destruct (Z.eqb_spec t' t).
Qed.

Lemma split_spec t r ids : NoDup ids →
  let '(r', full, up) := split_copies t r ids in
  full = filter (λ i, copied t r i = false) ids ∧ up = filter (λ i, copied t r i = true) ids
  ∧ (∀ j, copied t r' j = memb j ids || copied t r j) ∧ (∀ t' j, t' ≠ t → copied t' r' j = copied t' r j).
Proof.
  revert r. induction ids as [|i ids IH]; intros r D; cbn [split_copies]; [done|]. apply NoDup_cons in D as [Hi D].
  fold (copied t r i). destruct (copied t r i) eqn:Ec.
  - specialize (IH r D). destruct (split_copies t r ids) as [[r' full] up]. destruct IH as (-> & -> & Hc & Ho).
    rewrite !filter_cons, decide_False, decide_True by congruence. splits; [done|done| |done]. intros j. rewrite Hc.
    unfold memb. cbn [existsb]. destruct (Z.eqb_spec j i) as [->|]; [by rewrite Ec, orb_true_r|done].
  - set (r1 := set i _ r). specialize (IH r1 D). destruct (split_copies t r1 ids) as [[r' full] up].
    destruct IH as (-> & -> & Hc & Ho). rewrite !filter_cons, decide_True, decide_False by congruence.
    assert (E : ∀ j, j ∈ ids → copied t r1 j = copied t r j).
    { intros j Hj. unfold r1. rewrite copied_set. destruct (Z.eqb_spec j i) as [->|]; [contradiction|done]. }
    splits; [f_equal| | |].
    + apply filter_in_iff. intros j Hj. by rewrite E.
    + apply filter_in_iff. intros j Hj. by rewrite E.
    + intros j. rewrite Hc. unfold r1. rewrite copied_set. unfold memb. cbn [existsb]. destruct (j =? i), (existsb _ ids); done.
    + intros t' j Hn. rewrite Ho by done. unfold r1. by apply copied_other.
Qed.

Section spec.
Context {N V : Type} `{NetManagerLaws N} `{VoronoiLaws V}.
Context (vjunk : von_uninit) (ojunk : vso_uninit) (gjunk : gw_uninit) (junk : vm_uninit).
Implicit Types (q : mqueue N) (h : matcher_host) (p : VSOPeer V).

(** A host gets a full copy of a subscription once. Copying to it sends those it has no
    copy of in full and the others as updates, and notes that it has all of them from now
    on; what other hosts have does not change. *)
Theorem copies_once now q h t ids : NoDup ids →
  ∃ r, (∀ j, copied t r j = memb j ids || copied t (m_replicas h) j)
  ∧ (∀ t' j, t' ≠ t → copied t' r j = copied t' (m_replicas h) j)
  ∧ copy_object now (q, h) t ids true
    = ('(q, n) ← transfer_some now q (with_replicas h r) t (filter (λ i, copied t (m_replicas h) i = false) ids) false;
       '(q, k) ← transfer_some now q (with_replicas h r) t (filter (λ i, copied t (m_replicas h) i = true) ids) true;
       Ok (q, with_replicas h r, n + k)).
Proof.
  intros D. unfold copy_object. cbv zeta. pose proof (split_spec t (m_replicas h) ids D) as Hs.
  destruct (split_copies t (m_replicas h) ids) as [[r full] up]. destruct Hs as (-> & -> & Hc & Ho). by exists r.
Qed.

(** *** Copies sent *)

(** The subscriptions that are there *)
Definition carried h (ids : list Z) : list Subscription := omap (λ id, find id (m_subs h)) ids.

Lemma store_subs_built h ty g ts bs m n ids : built ty g ts bs m → malloc m = true → 0 ≤ n →
  n + Z.of_nat (length (carried h ids)) < 256 →
  ∃ m', store_subs h false m n ids = Ok (m', n + Z.of_nat (length (carried h ids)))
  ∧ built ty g ts (bs ++ concat (wire <$> carried h ids)) m' ∧ malloc m' = true.
Proof.
  revert bs m n. induction ids as [|id ids IH]; intros bs m n B M Hn Hl; cbn [store_subs].
  { exists m. cbn. by rewrite Z.add_0_r, app_nil_r. }
  unfold carried in *. cbn [omap list_omap] in *. destruct (find id (m_subs h)) as [s|]; [|by apply IH]. cbn [length] in Hl |- *.
  step_built B M. rewrite bind_ok. assert (E8 : u8 (n + 1) = n + 1) by (apply wrap_id; unfold fits; change (2 ^ 8) with 256; lia).
  rewrite E8. destruct (IH _ _ (n + 1) B M) as (m' & E & B' & M'); [lia|lia|]. exists m'. rewrite E, fmap_cons. cbn [concat]. rewrite app_assoc.
  splits; [f_equal; f_equal; lia|done|done].
Qed.

(** *** Copies received *)

(** A subscription as it is kept when it is copied: [Subscription::serialize] writes host, id,
    layer, area and relay only, so that what is extracted has time 0, world 0 and is not active,
    whatever the sender has there (the comment in the handler that the time sent by the remote
    host is used does not hold); it is marked as changed. *)
Definition received (s : Subscription) : Subscription :=
  mkSub (sub_host_id s) (sub_id s) (layer s) (sub_aoi s) (relay s) false true false 0 0 [] [].

Lemma add_new now q h p s : has (sub_id s) (m_subs h) = false → has (sub_id s) (objects p) = false →
  has (sub_id s) (transfer p) = false →
  ∃ q', addSubscription now q h p s false
    = Ok (q', with_subs h (set (sub_id s) (set_dirty s true) (m_subs h)),
          set_pending (set_objects p (set (sub_id s) (mkObj (sub_aoi s) false 0 (timestamp now q) 0) (objects p)))
            (transfer p) (erase (sub_id s) (obj_requested p)), true).
Proof.
  intros Hs Ho Ht. unfold addSubscription, insertSharedObject. rewrite Hs, Ho. cbv zeta. cbn [transfer set_objects].
  unfold has in Ht. destruct (find (sub_id s) (transfer p)); [done|]. rewrite !bind_ok. cbn beta iota. by eexists.
Qed.

(** Nothing is known of a subscription here. *)
Definition new_here h p (s : Subscription) : Prop :=
  has (sub_id s) (m_subs h) = false ∧ has (sub_id s) (objects p) = false ∧ has (sub_id s) (transfer p) = false.

Definition fresh_sub (s : Subscription) : Prop := neighbor_states s = [] ∧ neighbors s = [].

Lemma take_transfers_spec now q h p msg old ss tl : Message_inv msg → Forall Sub_valid ss → NoDup (sub_id <$> ss) →
  Forall (new_here h p) ss → fresh_sub old → drop (mcurr msg) (content msg) = concat (wire <$> ss) ++ tl →
  ∃ q' h' p' m', take_transfers (length ss) now q h p msg old = Ok (q', h', p', m')
  ∧ m_subs h' = foldl (λ l s, set (sub_id s) (received s) l) (m_subs h) ss
  ∧ (∀ i, find i (objects p') = find i (objects p) ∨ ∃ s t, s ∈ ss ∧ sub_id s = i ∧ find i (objects p') = Some (mkObj (sub_aoi s) false 0 t 0))
  ∧ (∀ s, s ∈ ss → has (sub_id s) (objects p') = true).
Proof.
  intros M Fv. revert q h p msg old M. induction Fv as [|s ss Hv _ IH]; intros q h p msg old M D Fn [Fo1 Fo2] Hd.
  { exists q, h, p, msg. splits; [done|done|by left|by intros s Hs%elem_of_nil]. }
  rewrite fmap_cons, NoDup_cons in D. destruct D as [Hs D]. apply Forall_cons in Fn as [(N1 & N2 & N3) Fn].
  cbn [length take_transfers]. rewrite fmap_cons in Hd. cbn [concat] in Hd. rewrite <- app_assoc in Hd.
  destruct (extract_obj_spec msg s old (concat (wire <$> ss) ++ tl) M) as (m1 & E1 & M1 & C1 & P1 & _);
    [exact Hv|done|cbn; unfold Sub_sizeOf; lia|exact Hd|].
  rewrite E1, bind_ok. cbn beta iota. set (x := merge old s). assert (Ei : sub_id x = sub_id s) by done. rewrite Ei, N1.
  destruct (add_new now q h p x N1 N2 N3) as (q1 & ->). rewrite !bind_ok. cbn beta iota. rewrite Ei.
  set (h1 := with_subs h _). set (p1 := set_pending _ _ _).
  assert (Ex : set_dirty x true = received s) by (unfold x, received, set_dirty; cbn; by rewrite Fo1, Fo2).
  assert (Hne : ∀ y, y ∈ ss → sub_id y ≠ sub_id s) by (intros y Hy Ey; apply Hs; rewrite <- Ey; apply list_elem_of_fmap; eauto).
  destruct (IH q1 h1 p1 m1 x M1 D) as (q' & h' & p' & m' & E & Es & Ho & Hh).
  - apply Forall_forall. intros y Hy. destruct (proj1 (Forall_forall _ _) Fn y Hy) as (A1 & A2 & A3). pose proof (Hne y Hy) as Hyn.
    unfold new_here, h1, p1. cbn. rewrite !has_set. destruct (Z.eqb_spec (sub_id y) (sub_id s)); [done|by splits].
  - done.
  - rewrite C1, P1, <- drop_drop, Hd. apply drop_app_len. symmetry. apply wire_length.
  - exists q', h', p', m'. splits; [exact E|rewrite Es; change (m_subs h1) with (set (sub_id s) (set_dirty x true) (m_subs h)); by rewrite Ex| |].
    + intros i. destruct (Ho i) as [Hi|(y & t & Hy & Ey & Hi)]; [|right; exists y, t; splits; [by right|done|done]].
      rewrite Hi. unfold p1. cbn. rewrite find_set. destruct (Z.eqb_spec i (sub_id s)) as [->|]; [|by left].
      right. eexists s, _. splits; [left|done|done].
    + intros y [-> |Hy]%elem_of_cons; [|by apply Hh]. unfold has. destruct (Ho (sub_id s)) as [Hi|(y & t & _ & _ & Hi)]; rewrite Hi; [|done].
      unfold p1. cbn. by rewrite find_set_eq.
Qed.

Lemma find_received (ss : list Subscription) l i : NoDup (sub_id <$> ss) →
  find i (foldl (λ l s, set (sub_id s) (received s) l) l ss)
  = match in_view i ss with Some s => Some (received s) | None => find i l end.
Proof.
  revert l. induction ss as [|s ss IH]; intros l D; [done|]. rewrite fmap_cons, NoDup_cons in D. destruct D as [Hs D].
  cbn [foldl]. rewrite IH, in_view_cons by done. destruct (Z.eqb_spec (sub_id s) i) as [<-|Hne].
  - by rewrite in_view_absent, find_set_eq.
  - destruct (in_view i ss); [done|]. by apply find_set_ne.
Qed.

(** C31: Subscriptions copied to another matcher. The message is sent once, to the other matcher;
    when it arrives there, each subscription that is new to it is kept with the host, the id, the
    layer, the area and the relay it has here; its time, its world and whether it is active are not
    transferred, and come out as 0, 0 and [false]; it has no neighbors yet and is marked as
    changed. It is an object of another owner there, and nothing else changes. *)
Theorem subscriptions_transferred now nowb q h t ids (qb : mqueue N) hb pb :
  let ss := carried h ids in
  t ∈ m_neighbors h → reachable q t → ss ≠ [] → Z.of_nat (length ss) < 256 →
  NoDup (sub_id <$> ss) → Forall Sub_valid ss → Forall (new_here hb pb) ss →
  ∃ v' m, transferSubscription now q h t ids false = Ok (with_net q v', Z.of_nat (length ss))
  ∧ sends q v' t m ∧ msgtype m = code SUBSCRIBE_TRANSFER ∧ targets m = [t]
  ∧ ∀ r, arrives r m → ∃ qb' hb' pb' r', handle_subscribe_transfer junk nowb qb hb pb r = Ok (qb', hb', pb', r')
    ∧ (∀ s, s ∈ ss → (∃ x, find (sub_id s) (m_subs hb') = Some x
                        ∧ sub_host_id x = sub_host_id s ∧ sub_id x = sub_id s ∧ layer x = layer s
                        ∧ sub_aoi x = sub_aoi s ∧ relay x = relay s
                        ∧ active x = false ∧ sub_time x = 0 ∧ world_id x = 0
                        ∧ dirty x = true ∧ neighbors x = [] ∧ neighbor_states x = [])
                     ∧ has (sub_id s) (objects pb') = true ∧ isOwner pb' (sub_id s) = false)
    ∧ (∀ i, i ∉ (sub_id <$> ss) → find i (m_subs hb') = find i (m_subs hb) ∧ find i (objects pb') = find i (objects pb)).
Proof.
  intros ss Ht Hr Hne Hl D Fv Fn. unfold transferSubscription. rewrite (proj2 (memb_true _ _) Ht). cbn [negb].
  assert (B : built (code SUBSCRIBE_TRANSFER) 0 [t] [] (addTarget (set_priority (new_msg SUBSCRIBE_TRANSFER) 1) t)).
  { apply addTarget_built, new_built. }
  destruct (store_subs_built h _ _ _ _ _ 0 ids B eq_refl ltac:(done) Hl) as (m1 & -> & B1 & M1). fold ss in B1 |- *.
  rewrite bind_ok. cbn beta iota. rewrite Z.add_0_l. cbn [app] in B1.
  destruct (Z.ltb_spec 0 (Z.of_nat (length ss))) as [_|Hl0]; [|by destruct ss; [|cbn in Hl0; lia]].
  step_built B1 M1. destruct (handler_sends now q MSG_GROUP_VAST_MATCHER t _ _ _ _ Hr B1) as (v' & m' & Em & S & B').
  unfold matcher_send. rewrite Em, bind_ok. cbn beta iota. exists v', m'.
  splits; [done|exact S|apply B'|apply B'|]. intros r (Mr & Pr & _ & Cr). rewrite (bl_content _ _ _ _ _ B') in Cr.
  unfold handle_subscribe_transfer.
  destruct (count_at_end 1 r (mu_n junk) _ _ Mr ltac:(lia) Pr Cr ltac:(unfold fits; cbn; lia)) as (r1 & -> & R1 & C1 & P1 & _).
  rewrite bind_ok. cbn beta iota. rewrite Nat2Z.id.
  destruct (take_transfers_spec nowb qb hb pb r1 (Sub_init (mu_sub_world junk)) ss [] R1 Fv D Fn) as (qb' & hb' & pb' & r' & -> & Es & Ho & Hh);
    [done|by rewrite P1, C1, app_nil_r|].
  exists qb', hb', pb', r'. splits; [done| |].
  - intros s Hs. rewrite Es, find_received by done. rewrite (proj2 (in_view_some (sub_id s) ss s D)) by done.
    splits; [by exists (received s)|by apply Hh|]. unfold isOwner. destruct (Ho (sub_id s)) as [E|(y & a & _ & _ & E)]; rewrite E; [|done].
    pose proof (Hh s Hs) as Hx. unfold has in Hx. rewrite E in Hx.
    destruct (proj1 (Forall_forall _ _) Fn s Hs) as (_ & N2 & _). unfold has in N2. by destruct (find (sub_id s) (objects pb)).
  - intros i Hi. rewrite Es, find_received, in_view_absent by done. split; [done|].
    destruct (Ho i) as [E|(y & a & Hy & <- & _)]; [done|]. destruct Hi. apply list_elem_of_fmap. eauto.
Qed.

(** *** What the gateway is told *)

(** The gateway reads from a matcher's report what the matcher is: its world, its address, the
    origin of its world, and whether it asks for the world's data - when it has no world or no
    address for the origin. *)
Theorem keepalive_understood h sent recv :
  fits 16 (m_world h) → Addr_valid (node_addr (m_self h)) → fits 64 (m_origin h) → fits 64 sent → fits 64 recv →
  ∃ m, keepalive_message h sent recv = Ok m ∧ msgtype m = code MATCHER_ALIVE ∧ targets m = [host_id (m_gateway h)]
  ∧ ∀ r, arrives r m → ∃ r', alive_fields gjunk r
      = Ok (r', (if (m_world h =? 0) || negb (m_origin h =? host_id (m_origin_addr h)) then 1 else 0,
                 m_world h, node_addr (m_self h), m_origin h)).
Proof.
  intros Fw Fa Fo Fs Fr. unfold keepalive_message. cbv zeta. set (rp := if _ || _ then 1 else 0).
  assert (Frp : fits 8 rp) by (unfold rp; by destruct (_ || _)). pose proof (new_built MATCHER_ALIVE 1) as B.
  assert (M : malloc (set_priority (new_msg MATCHER_ALIVE) 1) = true) by done.
  step_built B M. step_built B M. step_built B M. step_built B M. step_built B M. step_built B M. rewrite <- !app_assoc in B. cbn [app] in B.
  pose proof (addTarget_built _ _ _ _ (host_id (m_gateway h)) B) as B'. eexists. splits; [reflexivity|apply B'|apply B'|].
  intros r (Mr & Pr & _ & Cr). rewrite (bl_content _ _ _ _ _ B') in Cr. unfold alive_fields.
  assert (D0 : drop (mcurr r) (content r) = content r) by by rewrite Pr. rewrite Cr in D0 at 2.
  destruct (extract_int_spec 1 r (gu_bool gjunk) rp _ Mr ltac:(lia) Frp D0) as (n1 & -> & I1 & D1 & _). rewrite bind_ok. cbn beta iota.
  destruct (extract_int_spec 2 n1 (gu_world gjunk) (m_world h) _ I1 ltac:(lia) Fw D1) as (n2 & -> & I2 & D2 & _). rewrite bind_ok. cbn beta iota.
  destruct (extract_obj_spec n2 (node_addr (m_self h)) Addr_null (le_bytes 8 (m_origin h) ++ le_bytes 8 sent ++ le_bytes 8 recv) I2)
    as (n3 & -> & I3 & C3 & P3 & _); [exact Fa|done|cbn; unfold Addr_sizeOf; lia|exact D2|]. rewrite bind_ok. cbn beta iota.
  assert (D3 : drop (mcurr n3) (content n3) = le_bytes 8 (m_origin h) ++ le_bytes 8 sent ++ le_bytes 8 recv).
  { rewrite C3, P3, <- drop_drop, D2. apply drop_app_len. symmetry. apply wire_length. }
  destruct (extract_int_spec 8 n3 (gu_id gjunk) (m_origin h) _ I3 ltac:(lia) Fo D3) as (n4 & -> & I4 & D4 & _). rewrite bind_ok. cbn beta iota.
  destruct (extract_int_spec 8 n4 (gu_id gjunk) sent _ I4 ltac:(lia) Fs D4) as (n5 & -> & I5 & D5 & _). rewrite bind_ok. cbn beta iota.
  rewrite <- (app_nil_r (le_bytes 8 recv)) in D5.
  destruct (extract_int_spec 8 n5 (gu_id gjunk) recv _ I5 ltac:(lia) Fr D5) as (n6 & -> & I6 & D6 & _). rewrite bind_ok.
  by eexists.
Qed.

(** *** Publications *)

Lemma covered_spec h l pos i : ordered (m_subs h) → Forall kept_well (m_subs h) →
  i ∈ covered h l pos ↔ ∃ x, find i (m_subs h) = Some x ∧ layer x = l ∧ Area_overlaps (sub_aoi x) pos 0 = true.
Proof.
  intros O F. unfold covered. rewrite list_elem_of_fmap. split.
  - intros ([k x] & -> & [Hx Hin]%list_elem_of_filter). cbn [snd] in *. apply andb_true_iff in Hx as [El Ho].
    pose proof (proj1 (Forall_forall _ _) F _ Hin) as [Ek _]. cbn in Ek. exists x. rewrite Ek. splits; [by apply In_find|by apply Z.eqb_eq in El|done].
  - intros (x & E & <- & Ho). apply find_In in E. pose proof (proj1 (Forall_forall _ _) F _ E) as [Ek _]. cbn in Ek.
    exists (i, x). split; [done|]. apply list_elem_of_filter. cbn. by rewrite Z.eqb_refl, Ho.
Qed.

Lemma covered_nodup h l pos : ordered (m_subs h) → Forall kept_well (m_subs h) → NoDup (covered h l pos).
Proof.
  intros O F. unfold covered.
  assert (E : ∀ m : list (Z * Subscription), Forall kept_well m → (λ x, sub_id (snd x)) <$> m = fst <$> m).
  { intros m Fm. apply Forall_fmap_ext. eapply Forall_impl; [exact Fm|]. by intros x []. }
  rewrite E by (apply Forall_forall; intros x [_ Hx]%list_elem_of_filter; by apply (proj1 (Forall_forall _ _) F)). eapply sublist_NoDup; [exact (ordered_nodup _ O)|]. apply fmap_sublist, sublist_filter.
Qed.

Lemma addTargets_distinct m ts : targets m = [] → NoDup ts → targets (foldl addTarget m ts) = ts
  ∧ same_head (foldl addTarget m ts) (with_targets m ts) ∧ content (foldl addTarget m ts) = content m ∧ mcurr (foldl addTarget m ts) = mcurr m.
Proof.
  intros E D. assert (H' : ∀ ts0 m, targets m = ts0 → NoDup (ts0 ++ ts) → targets (foldl addTarget m ts) = ts0 ++ ts
    ∧ same_head (foldl addTarget m ts) (with_targets m (ts0 ++ ts)) ∧ content (foldl addTarget m ts) = content m ∧ mcurr (foldl addTarget m ts) = mcurr m).
  { clear. induction ts as [|t ts IH]; intros ts0 m E D; cbn [foldl]; [rewrite app_nil_r; splits; [done|by rewrite <- E|done|done]|].
    assert (Ht : memb t (targets m) = false).
    { rewrite E. apply memb_false. intros Hin. apply NoDup_app in D as (_ & D & _). apply (D t Hin). left. }
    assert (Ea : addTarget m t = with_targets m (targets m ++ [t])) by (unfold addTarget; by rewrite Ht). rewrite Ea. destruct (IH (ts0 ++ [t]) (with_targets m (targets m ++ [t]))) as (A1 & A2 & A3 & A4);
      [cbn; by rewrite E|by rewrite <- app_assoc|]. rewrite <- app_assoc in *. splits; [exact A1|exact A2|exact A3|exact A4]. }
  destruct (H' [] m E D) as (A1 & A2 & A3 & A4). by splits.
Qed.

(** What is left when subscriptions are removed *)
Lemma find_removed h p ids i : ordered (m_subs h) →
  find i (m_subs (fst (removeSubscriptions h p ids))) = if bool_decide (i ∈ ids) then None else find i (m_subs h).
Proof.
  unfold removeSubscriptions. revert h p. induction ids as [|k ids IH]; intros h p O; [done|]. cbn [foldl].
  set (x := fst (removeSubscription (fst (h, p)) (snd (h, p)) k)). rewrite (surjective_pairing x).
  assert (Ek : ordered (m_subs (fst x)) ∧ find i (m_subs (fst x)) = if i =? k then None else find i (m_subs h)).
  { subst x. unfold removeSubscription, remove_entry. cbn [fst snd]. destruct (has k (m_subs h)) eqn:Hk; cbn [negb fst snd].
    - split; [by apply ordered_erase|]. destruct (Z.eqb_spec i k) as [->|Hne]; [by apply find_erase_eq|by apply find_erase_ne].
    - split; [done|]. destruct (Z.eqb_spec i k) as [->|_]; [|done]. unfold has in Hk. by destruct (find k (m_subs h)). }
  destruct Ek as [O' Ek]. rewrite IH, Ek by exact O'. destruct (Z.eqb_spec i k) as [->|Hne].
  - rewrite (bool_decide_eq_true_2 (k ∈ k :: ids)) by left. by destruct (bool_decide _).
  - destruct (decide (i ∈ ids)); [rewrite !bool_decide_eq_true_2 by (try right; done)|rewrite !bool_decide_eq_false_2 by (try done; by intros [->|?]%elem_of_cons)]; done.
Qed.

(** A message for clients is sent through the relays of its targets; subscriptions that cannot
    be reached are removed. *)
Lemma delivered now q h p m ty gr ts bs : built ty gr ts bs m → sendable q → Forall (settled q) ts →
  let failed := filter (λ t, reached q t = false) ts in
  let kept := removeSubscriptions h p failed in
  ∃ v' m', deliver_to_clients now q h p m = Ok (with_net q v', fst kept, snd kept, m')
  ∧ routed now q [set_group m MSG_GROUP_VAST_RELAY] v'.
Proof.
  intros B Hs Ht failed kept. unfold deliver_to_clients, sendClientMessage. change (negb (NET_ID_UNASSIGNED =? NET_ID_UNASSIGNED)) with false. cbn beta iota.
  pose proof (group_built _ _ MSG_GROUP_VAST_RELAY _ _ _ B) as B'.
  destruct (handler_routes now q MSG_GROUP_VAST_MATCHER (set_group m MSG_GROUP_VAST_RELAY) Hs) as (v' & m' & E & R);
    [apply B'|by rewrite (bl_targets _ _ _ _ _ B')|].
  unfold matcher_send. rewrite E, bind_ok. cbn beta iota. rewrite (bl_targets _ _ _ _ _ B'). fold failed. fold kept.
  exists v', m'. split; [by destruct kept|exact R].
Qed.

(** C17: A publication reaches those it covers. A matcher that handles one makes of it one message for
    exactly the subscriptions of its layer whose area contains the center of its area, with what
    was published and the time. If the hosts of the relays of these subscriptions are known, then
    this message is sent once to each host that is reached and relays at least one of them, with
    exactly those it relays as targets, and to nobody else, and what is meant for the matcher's own
    host is in its own queue; subscriptions whose host is not reached are removed, and no others. A
    client to which the message comes stores what was published. *)
Theorem publication_matched me now nowc app q h p msg data t a l (cjunk : uninit) (qc : mqueue N) c :
  host_inv me h → Message_inv msg → mcurr msg = 0%nat → content msg = data ++ le_bytes 8 t ++ wire a ++ le_bytes 2 l →
  fits 64 t → Area_valid a → fits 16 l →
  let ts := covered h l (center a) in
  (∀ i, i ∈ ts ↔ ∃ x, find i (m_subs h) = Some x ∧ layer x = l ∧ Area_overlaps (sub_aoi x) (center a) 0 = true)
  ∧ ∃ m, built (app_type app MESSAGE) (msggroup msg) ts (data ++ le_bytes 8 t) m
    ∧ (sendable q → Forall (settled q) ts →
       let failed := filter (λ i, reached q i = false) ts in
       ∃ v' h' p' m', handle_publish junk now app q h p msg = Ok (with_net q v', h', p', m')
        ∧ routed now q [set_group m MSG_GROUP_VAST_RELAY] v'
        ∧ (h', p') = removeSubscriptions h p failed
        ∧ ∀ i, find i (m_subs h') = if bool_decide (i ∈ failed) then None else find i (m_subs h))
    ∧ ∀ r, Message_inv r → mcurr r = 0%nat → content r = content m →
        ∃ c' r' x, handle_message cjunk nowc app qc c r = Ok (qc, c', r')
        ∧ msglist c' = msglist c ++ [x] ∧ content x = data ∧ msgtype x = app.
Proof.
  intros Ih M Hc Hd Ft Fa Fl ts. split; [intros i; apply covered_spec; apply Ih|].
  assert (Ec : content (as_message app msg) = (data ++ le_bytes 8 t ++ wire a) ++ le_bytes 2 l) by (rewrite <- !app_assoc; exact Hd).
  destruct (count_at_end 2 (as_message app msg) (mu_layer junk) _ l M ltac:(lia) Hc Ec Fl) as (m1 & E1 & I1 & C1 & P1 & S1).
  pose proof (length_content m1 I1) as L1. rewrite C1, !length_app, length_wire_Area in L1.
  destruct (extract_obj_end_spec m1 a Area_clear I1) as (m2 & E2 & I2 & C2 & _ & P2 & S2);
    [exact Fa|done|cbn; lia|rewrite P1; change (sizeOf a) with (Area_sizeOf a); lia| |].
  { rewrite C1, app_assoc. change (sizeOf a) with (Area_sizeOf a). rewrite <- L1.
    apply drop_app_len. rewrite length_app. lia. }
  assert (C2' : content m2 = data ++ le_bytes 8 t).
  { rewrite C2, C1, app_assoc. change (sizeOf a) with (Area_sizeOf a). rewrite <- L1. apply take_app_len. rewrite length_app. lia. }
  destruct (addTargets_distinct (with_targets (reset m2) []) ts eq_refl (covered_nodup h l (center a) (hi_subs _ _ Ih) (hi_each _ _ Ih)))
    as (T3 & S3 & C3 & P3). set (m3 := foldl addTarget (with_targets (reset m2) []) ts) in *.
  assert (B : built (app_type app MESSAGE) (msggroup msg) ts (data ++ le_bytes 8 t) m3).
  { destruct S3 as (_ & T & G & _). destruct S2 as (_ & T2 & G2 & _), S1 as (_ & T1 & G1 & _). cbn in T, G. split.
    - apply addTargets_inv. destruct I2. split; cbn; lia.
    - rewrite T, T2, T1. done.
    - by rewrite G, G2, G1.
    - done.
    - by rewrite C3. }
  assert (Eh : handle_publish junk now app q h p msg = match ts with [] => Ok (q, h, p, m3) | _ => deliver_to_clients now q h p m3 end).
  { unfold handle_publish. rewrite E1, bind_ok. cbv beta iota. rewrite E2, bind_ok. cbv beta iota zeta. cbn [merge Area_laws]. fold ts. fold m3.
    by rewrite T3. }
  exists m3. splits; [exact B| |].
  - intros Hs Ht failed. assert (Hk : ∀ i, find i (m_subs (fst (removeSubscriptions h p failed))) = if bool_decide (i ∈ failed) then None else find i (m_subs h))
      by (intros i; apply find_removed, Ih).
    destruct (decide (ts = [])) as [Ets|Hne].
    + exists (net q), h, p, m3. rewrite with_net_same. rewrite Eh. unfold failed in *. rewrite Ets in *.
      splits; [done|apply routed_none; [apply Hs|apply B]|done|exact Hk].
    + assert (Ed : handle_publish junk now app q h p msg = deliver_to_clients now q h p m3) by (rewrite Eh; by destruct ts).
      destruct (delivered now q h p m3 _ _ _ _ B Hs Ht) as (v' & m' & E & R). fold failed in E.
      exists v', (fst (removeSubscriptions h p failed)), (snd (removeSubscriptions h p failed)), m'.
      splits; [by rewrite Ed|exact R|by destruct (removeSubscriptions h p failed)|exact Hk].
  - intros r Mr Pr Cr. rewrite (bl_content _ _ _ _ _ B) in Cr. unfold handle_message.
    destruct (count_at_end 8 (set_type r app) (junk_time cjunk) _ t Mr ltac:(lia) Pr Cr Ft) as (r1 & E4 & I4 & C4 & P4 & S4).
    rewrite E4, bind_ok. cbv beta iota zeta. unfold storeMessage.
    destruct (Message_copy_ok (reset r1)) as (x & Ex & (Sx & _ & _ & Cx & _) & _); [destruct I4; split; cbn; lia|].
    rewrite Ex, !bind_ok. eexists _, _, x. splits; [reflexivity|done|by rewrite Cx|].
    destruct Sx as (_ & Tx & _). destruct S4 as (_ & T4 & _). rewrite Tx. exact T4.
Qed.

(** *** Messages that wait for the peer *)

(** The queue is sent in its order. *)
Lemma flush_routed now q l : sendable q → Forall (λ m, Message_inv m ∧ Forall (settled q) (targets m)) l →
  ∃ v', flush_queue now q l = Ok (with_net q v') ∧ routed now q (in_group MSG_GROUP_VAST_MATCHER <$> l) v'.
Proof.
  revert q. induction l as [|m l IH]; intros q Hs F; cbn [flush_queue].
  { exists (net q). rewrite with_net_same. split; [done|]. apply routed_nil, Hs. }
  apply Forall_cons in F as [[M T] F]. unfold matcher_send.
  destruct (handler_routes now q MSG_GROUP_VAST_MATCHER m Hs M T) as (v1 & m1 & -> & R1). rewrite bind_ok. cbn beta iota.
  pose proof R1 as [B1 E1 K1 _ _]. destruct (IH (with_net q v1)) as (v' & -> & R2).
  - by apply sendable_with.
  - eapply Forall_impl; [exact F|]. intros x [Mx Tx]. split; [done|]. eapply Forall_impl; [exact Tx|]. intros t. by apply settled_with.
  - exists v'. split; [done|]. rewrite fmap_cons. by eapply routed_cons.
Qed.

(** C32: Messages are not lost while the matcher's peer joins. A message for the matcher that comes
    before is kept, at the end of the queue - a copy with its content and targets, but with the low
    eight bits of its type only, so that the type the application gave it is lost. When a
    message comes once the peer has joined, all that wait are sent first, if the hosts of their
    targets are known - in the order they came, each once to the hosts of its targets -, and the
    queue is emptied; only then the message is handled itself. *)
Theorem waiting_messages_resent now ms q (w : VASTMatcher V) p p' msg :
  vm_state w = JOINED → vm_peer w = Some p → Message_inv msg →
  let t := VAST_MSGTYPE (msgtype msg) in
  VON_MAX_MSG ≤ t → t ≠ DISCONNECT →
  (isJoined p = (p', false) → isJoining p' = true →
   ∃ c m', VM_handleMessage vjunk ojunk gjunk junk now ms q w msg
           = Ok (q, mkVM JOINED (set_m_queue (vm_host w) (m_queue (vm_host w) ++ [c])) (Some p'), m', true)
   ∧ copy_of c (set_type msg t))
  ∧ (isJoined p = (p', true) → sendable q →
     Forall (λ m, Message_inv m ∧ Forall (settled q) (targets m)) (m_queue (vm_host w)) →
     ∃ v', routed now q (in_group MSG_GROUP_VAST_MATCHER <$> m_queue (vm_host w)) v'
     ∧ VM_handleMessage vjunk ojunk gjunk junk now ms q w msg
       = '(q', w', m') ← handle_typed vjunk ojunk gjunk junk now ms (APP_MSGTYPE (msgtype msg)) (with_net q v')
                           (mkVM JOINED (set_m_queue (vm_host w) []) (Some p')) p' (set_type msg t);
         Ok (q', w', m', true)).
Proof.
  intros Es Ep M t Ht Hd. unfold VM_handleMessage. rewrite Es, bool_decide_eq_false_2 by done. cbv zeta. rewrite Ep. fold t.
  cbn [msgtype set_type]. destruct (Z.eqb_spec t DISCONNECT); [done|]. destruct (Z.ltb_spec t VON_MAX_MSG); [lia|].
  unfold VM_isJoined. rewrite Es, bool_decide_eq_true_2 by done. split.
  - intros Ej Ei. rewrite Ej, Ei. destruct (Message_copy_ok (set_type msg t) M) as (c & -> & C & _). rewrite bind_ok. by eexists c, _.
  - intros Ej Hs F. rewrite Ej. destruct (flush_routed now q _ Hs F) as (v' & E & R). exists v'. split; [exact R|].
    unfold resend_queue. by rewrite E, !bind_ok.
Qed.
End spec.
