(* ===== verification/MatcherExamples.v ===== *)
(** A matcher with two neighbors and four subscriptions, and the inputs at which the properties
    of the matcher are used. *)

From S2P Require Import Prelude Bytes StdMap Float Serial Geometry Subscription Message VastBuffer NetManager.
From S2P Require Import UdpHandler NetUdp NetInterface VastNet VastSend VastReceive VastLink VastExamples.
From S2P Require Import MessageQueue Routing QueueSafe Readable Handlers Client ClientSafe ClientSpec.
From S2P Require Import ClientFlow Node Built Gateway GatewaySafe GatewayExamples VonInterfaces VoronoiSF VoronoiSFSafe.
From S2P Require Import VonPeer VonSafe VonSpec VonExamples VonLinks VSOTypes VSOPeer VSOSafe VSOExamples.
From S2P Require Import MatcherHost Matcher MatcherHandle MatcherSafe MatcherRun MatcherView MatcherSpec.
Local Open Scope Z_scope.

Definition vm_uninit_ex : vm_uninit := mkVmUninit 0 0 0 0 0 0 0.

(** A subscription at (x, 0) on layer 1, of a client at [hostB]; what it saw before *)
Definition sub_ex (id x : Z) (nb : list (Z * Area)) : Subscription :=
  mkSub idB id 1 (place x 0 10) addr_B true false false 4 0 [] nb.

Definition at_origin : Area := mkArea (mkPosition 0 0 0) 10 0.

(** Subscription 40 saw itself, 41 and 42 at the origin; 41 has moved, 42 is far away now,
    and 43 has come near. *)
Definition subs_ex : list (Z * Subscription) :=
  [(40, sub_ex 40 0 [(40, at_origin); (41, at_origin); (42, at_origin)]);
   (41, sub_ex 41 5 []); (42, sub_ex 42 400 []); (43, sub_ex 43 3 [])].

Definition host_ex : matcher_host :=
  mkMH nodeA addr_B 7 1 (peer_addr 1) [2; 3] subs_ex [] [(40, 2)] true false 0 0 [] 0 gateway_new Stat_reset.

Definition own_ex : VSOPeer VoronoiSF :=
  sharing nodeA [(40, object_at 0 true); (41, object_at 5 false); (42, object_at 400 false); (43, object_at 3 false)] [].

Lemma addr_B_typed : Addr_valid addr_B.
Proof. exact addr_B_valid. Qed.

Lemma sub_ex_well id x nb : ordered nb → Area_valid (place x 0 10) → kept_well (id, sub_ex id x nb).
Proof.
  intros O A. split; [done|]. split; [exact O|]. split; [split; [discriminate|reflexivity]|].
  split; [split; [discriminate|reflexivity]|]. split; [exact A|]. split; [exact addr_B_valid|]. split; [discriminate|reflexivity].
Qed.

Ltac valid_area := split; [split; [|split]|split]; split; first [discriminate|reflexivity].

Lemma host_ex_inv : host_inv 1 host_ex.
Proof.
  split; [done|apply new_gateway_inv| | |constructor].
  - repeat constructor.
  - repeat apply Forall_cons_2; [..|apply Forall_nil_2]; (apply sub_ex_well; [repeat constructor|valid_area]).
Qed.

Lemma own_ex_inv : vso_inv own_ex.
Proof. apply sharing_inv; [by left|repeat constructor|constructor]. Qed.

Lemma matcher_ex_well : well 1 queueA host_ex own_ex.
Proof. apply mk_well; [exact hostA_net|exact host_ex_inv|exact own_ex_inv|reflexivity]. Qed.

Lemma matcher_ex_asks : asks (vp own_ex).
Proof. apply live_asks, inv_live; [apply own_ex_inv|discriminate]. Qed.

(** After the search *)
Definition host_seen : matcher_host :=
  match refreshSubscriptionNeighbors host_ex own_ex with Ok h => h | Fail _ => host_ex end.
Definition sub_seen : Subscription := default (Sub_init 0) (find 40 (m_subs host_seen)).

Lemma host_seen_ok : refreshSubscriptionNeighbors host_ex own_ex = Ok host_seen.
Proof.
  unfold host_seen. destruct (refreshSubscriptionNeighbors host_ex own_ex) as [h|f] eqn:E; [done|]. vm_compute in E. discriminate E.
Qed.

Lemma neighbors_refreshed_witness :
  ∃ h' y, refreshSubscriptionNeighbors host_ex own_ex = Ok h' ∧ find 40 (m_subs h') = Some y
  ∧ find 43 (neighbor_states y) = fst (round_change (visible (isOwner own_ex) (m_subs h') y 43) None)
  ∧ neighbor_states sub_seen = [(40, UNCHANGED); (41, UPDATED); (42, DELETED); (43, INSERTED)].
Proof.
  destruct (neighbors_refreshed 1 queueA host_ex own_ex matcher_ex_well matcher_ex_asks) as (h' & E & _ & _ & Hs).
  destruct (Hs 40 (sub_ex 40 0 [(40, at_origin); (41, at_origin); (42, at_origin)]) eq_refl) as (y & Hy & _ & _ & Hk).
  exists h', y. split; [exact E|]. split; [exact Hy|]. split; [exact (f_equal fst (Hk 43))|]. by vm_compute.
Defined.

(** *** A client *)

Lemma closest_known : notify_closest 5 queueA host_seen own_ex (new_msg NEIGHBOR) sub_seen = Ok (queueA, host_seen, new_msg NEIGHBOR).
Proof.
  unfold notify_closest. destruct (getClosestEnclosing own_ex (center (sub_aoi sub_seen))) as [k|f] eqn:E; [|vm_compute in E; discriminate E].
  vm_compute in E. injection E as <-. rewrite bind_ok. replace (find (sub_id sub_seen) (m_closest host_seen)) with (Some 2) by by vm_compute.
  done.
Qed.

Lemma find_one {A} (P : Z → A → Prop) (m : list (Z * A)) : Forall (λ x, P (fst x) (snd x)) m → ∀ k v, find k m = Some v → P k v.
Proof. intros F k v E. apply find_In in E. by apply (proj1 (Forall_forall _ _) F) in E. Qed.

Lemma view_ex_agrees : agrees (view (c_neighbors (client_ex 5))) [(40, at_origin); (41, at_origin); (42, at_origin)].
Proof.
  intros k. cbn [find]. destruct (Z.eqb_spec k 40) as [->|H0]; [by vm_compute|]. destruct (Z.eqb_spec k 41) as [->|H1]; [by vm_compute|].
  destruct (Z.eqb_spec k 42) as [->|H2]; [by vm_compute|].
  rewrite (proj2 (view_lookup_none (c_neighbors (client_ex 5)) k)); [done|].
  change (node_id <$> c_neighbors (client_ex 5)) with [40; 41; 42]. rewrite !not_elem_of_cons. splits; try done. apply not_elem_of_nil.
Qed.

Definition typedb (v : Z * Subscription) : bool := bool_decide (sub_id (snd v) = fst v).

Lemma seen_keyed : keyed (m_subs host_seen).
Proof.
  intros k v E. apply (find_one (λ k v, sub_id v = k) (m_subs host_seen)); [|done].
  assert (Ht : forallb typedb (m_subs host_seen) = true) by by vm_compute.
  apply Forall_forall. intros x Hx. apply list_elem_of_In in Hx. apply (proj1 (forallb_forall _ _) Ht) in Hx.
  by apply bool_decide_eq_true in Hx.
Qed.

(** Nothing that a node told to the clients is made of changes in the search. *)
Lemma seen_nodes : (λ v, neighbor_node (snd v)) <$> m_subs host_seen = (λ v, neighbor_node (snd v)) <$> subs_ex.
Proof. by vm_compute. Qed.

Lemma seen_valid : Forall (λ v, Node_valid (neighbor_node (snd v))) (m_subs host_seen).
Proof.
  apply (Forall_fmap (λ v : Z * Subscription, neighbor_node (snd v)) Node_valid). rewrite seen_nodes.
  repeat apply Forall_cons_2; [..|apply Forall_nil_2];
    (split; [split; [discriminate|reflexivity]|]; split; [split; [discriminate|reflexivity]|]; split; [valid_area|exact addr_B_valid]).
Qed.

Lemma client_follows_witness :
  ∃ q' msg', notify_client 5 queueA host_seen own_ex (new_msg NEIGHBOR) [] 40 sub_seen
             = Ok (q', with_subs host_seen (set 40 (set_dirty sub_seen false) (m_subs host_seen)), msg', [])
  ∧ ∃ v' m, q' = with_net queueA v' ∧ targets m = [idB]
    ∧ ∃ qc' c' r', handle_neighbor uninit_ex 9 queueA (client_ex 5) (bytes_msg idA (msgtype m) (content m) [idB]) = Ok (qc', c', r')
      ∧ agrees (view (c_neighbors c')) (neighbors sub_seen).
Proof.
  assert (Es : find 40 (m_subs host_seen) = Some sub_seen) by by vm_compute.
  assert (Eo : isOwner own_ex (sub_id sub_seen) = true) by by vm_compute.
  assert (Eh : sub_host_id sub_seen = idB) by by vm_compute.
  assert (El : length (entries (m_subs host_seen) (dirty sub_seen) (neighbor_states sub_seen)) = 3%nat) by by vm_compute.
  assert (Ef : Forall (λ a, fits 64 (fst a)) (neighbor_states sub_seen)).
  { replace (neighbor_states sub_seen) with [(40, UNCHANGED); (41, UPDATED); (42, DELETED); (43, INSERTED)] by by vm_compute.
    repeat apply Forall_cons_2; [..|apply Forall_nil_2]; (split; [discriminate|reflexivity]). }
  destruct (client_follows uninit_ex 1 5 9 queueA host_ex own_ex host_seen host_seen 40
    (sub_ex 40 0 [(40, at_origin); (41, at_origin); (42, at_origin)]) sub_seen (new_msg NEIGHBOR) [] queueA (client_ex 5)) as (q' & msg' & E & C);
    [exact matcher_ex_well|exact host_seen_ok|reflexivity|exact Es|exact seen_keyed|by intros k|exact seen_valid|exact Ef|exact Eo
    |exact closest_known|rewrite Eh; apply reach_B; reflexivity|rewrite Eh; discriminate|apply Message_new_inv|rewrite El; reflexivity
    |exact hostA_net|exact (client_ex_inv 5)|exact view_ex_agrees|].
  rewrite bool_decide_eq_false_2 in C by (intros Ex; rewrite Ex in El; discriminate El).
  destruct C as (v' & m & Eq & _ & _ & Et & _ & A). exists q', msg'. split; [exact E|]. exists v', m.
  split; [exact Eq|]. split; [by rewrite Et, Eh|]. apply A.
  split; [apply bytes_msg_inv|]. split; [reflexivity|]. split; [reflexivity|apply bytes_msg_content].
Defined.

(** *** Copies *)

Definition with_copies : matcher_host := with_replicas (set_m_neighbors host_ex [idB]) [(41, [(idB, true)])].

Lemma copies_once_witness :
  ∃ r, (∀ j, copied idB r j = memb j [40; 41] || copied idB [(41, [(idB, true)])] j)
  ∧ copied idB r 40 = true
  ∧ copy_object 5 (queueA, with_copies) idB [40; 41] true
    = ('(q, n) ← transfer_some 5 queueA (with_replicas with_copies r) idB [40] false;
       '(q, k) ← transfer_some 5 q (with_replicas with_copies r) idB [41] true;
       Ok (q, with_replicas with_copies r, n + k)).
Proof.
  destruct (copies_once 5 queueA with_copies idB [40; 41]) as (r & C & _ & E); [exact (bool_decide_unpack (NoDup [40; 41]) I)|].
  exists r. split; [exact C|]. split; [exact (C 40)|exact E].
Defined.

(** The other matcher has no subscriptions yet. *)
Definition host_other : matcher_host :=
  mkMH nodeB addr_B 7 1 (peer_addr 1) [1] [] [] [] true false 0 0 [] 0 gateway_new Stat_reset.
Definition own_other : VSOPeer VoronoiSF := sharing nodeB [] [].

Lemma subscriptions_transferred_witness :
  ∃ v' m, transferSubscription 5 queueA with_copies idB [40; 41] false = Ok (with_net queueA v', 2)
  ∧ ∃ qb' hb' pb' r', handle_subscribe_transfer vm_uninit_ex 9 queueA host_other own_other (bytes_msg idA (msgtype m) (content m) [idB])
      = Ok (qb', hb', pb', r')
    ∧ (∃ x, find 41 (m_subs hb') = Some x ∧ sub_aoi x = sub_aoi (sub_ex 41 5 []) ∧ sub_time x = 0) ∧ isOwner pb' 41 = false.
Proof.
  destruct (subscriptions_transferred (V := VoronoiSF) vm_uninit_ex 5 9 queueA with_copies idB [40; 41] queueA host_other own_other)
    as (v' & m & E & _ & _ & _ & A).
  - left.
  - apply reach_B; reflexivity.
  - discriminate.
  - reflexivity.
  - exact (bool_decide_unpack (NoDup [40; 41]) I).
  - repeat apply Forall_cons_2; [..|apply Forall_nil_2];
      (split; [split; [discriminate|reflexivity]|]; split; [split; [discriminate|reflexivity]|]; split; [split; [discriminate|reflexivity]|];
       split; [valid_area|exact addr_B_valid]).
  - repeat apply Forall_cons_2; [..|apply Forall_nil_2]; by split.
  - exists v', m. split; [exact E|]. destruct (A (bytes_msg idA (msgtype m) (content m) [idB])) as (qb' & hb' & pb' & r' & Eh & Hs & _).
    { split; [apply bytes_msg_inv|]. split; [reflexivity|]. split; [reflexivity|apply bytes_msg_content]. }
    exists qb', hb', pb', r'. split; [exact Eh|]. destruct (Hs (sub_ex 41 5 [])) as ((x & Hf & _ & _ & _ & Ha & _ & _ & Ht & _) & _ & Ho); [by right; left|].
    split; [exists x; split; [exact Hf|split; [exact Ha|exact Ht]]|exact Ho].
Defined.

(** *** Reports, publications and waiting messages *)

Lemma keepalive_understood_witness :
  ∃ m, keepalive_message host_ex 10 20 = Ok m
  ∧ ∃ r', alive_fields gw_uninit_ex (bytes_msg 1 (msgtype m) (content m) [idB]) = Ok (r', (0, 7, peer_addr 1, 1)).
Proof.
  destruct (keepalive_understood gw_uninit_ex host_ex 10 20) as (m & E & _ & _ & A);
    [split; [discriminate|reflexivity]|unfold Addr_valid, IPaddr_valid; vm_compute; repeat split; discriminate
    |split; [discriminate|reflexivity]|split; [discriminate|reflexivity]|split; [discriminate|reflexivity]|].
  exists m. split; [exact E|]. apply A. split; [apply bytes_msg_inv|]. split; [reflexivity|]. split; [reflexivity|apply bytes_msg_content].
Defined.

Definition publish_msg : Message :=
  bytes_msg 50 (code PUBLISH) ([Byte.x2a] ++ le_bytes 8 4 ++ wire (place 420 0 10) ++ le_bytes 2 1) [idA].

(** Subscriptions 42, 43 and 44 cover (420, 0); the clients of 42 and 43 share a relay, the host
    of the relay of 44 is not reached. *)
Definition sub_wide (i : Z) : Subscription := mkSub idB i 1 (place 400 0 30) addr_B true false false 4 0 [] [].
Definition host_wide : matcher_host := with_subs host_ex [(42, sub_wide 42); (43, sub_wide 43); (44, sub_wide 44)].
Definition queue_42 : mqueue udp_link :=
  mkQ hostA [(5, idB); (6, idA); (42, idB); (43, idB); (44, 999); (idA, idA); (idB, idB)] idB (Message_new 0 0) 0.

Lemma host_wide_inv : host_inv 1 host_wide.
Proof.
  apply subs_inv; [exact host_ex_inv|repeat constructor|]. repeat apply Forall_cons_2; [..|apply Forall_nil_2].
  all: split; [done|]; split; [constructor|]; split; [split; [discriminate|reflexivity]|]; split; [split; [discriminate|reflexivity]|];
    split; [valid_area|]; split; [exact addr_B_valid|]; split; [discriminate|reflexivity].
Qed.

Lemma queue_42_sendable : sendable queue_42.
Proof. split; [reflexivity|discriminate|apply new_bufs_ok]. Qed.

Lemma queue_42_settled : Forall (settled queue_42) [42; 43; 44].
Proof.
  apply Forall_cons_2; [split; [reflexivity|left; reflexivity]|]. apply Forall_cons_2; [split; [reflexivity|left; reflexivity]|].
  apply Forall_cons_2; [split; [reflexivity|right; reflexivity]|apply Forall_nil_2].
Qed.

Lemma publication_matched_witness :
  ∃ v' h' p' m m', handle_publish vm_uninit_ex 5 3 queue_42 host_wide own_ex publish_msg = Ok (with_net queue_42 v', h', p', m')
  ∧ outq v' (rel m) idB = framed REGULAR (copy_for queue_42 m idB) ∧ targets (copy_for queue_42 m idB) = [42; 43]
  ∧ has 43 (m_subs h') = true ∧ find 44 (m_subs h') = None
  ∧ ∃ c' r' x, handle_message uninit_ex 9 3 queueA (client_ex 5) (bytes_msg 50 3 (content m) [42; 43]) = Ok (queueA, c', r')
    ∧ msglist c' = msglist (client_ex 5) ++ [x] ∧ content x = [Byte.x2a].
Proof.
  destruct (publication_matched vm_uninit_ex 1 5 9 3 queue_42 host_wide own_ex publish_msg [Byte.x2a] 4 (place 420 0 10) 1 uninit_ex queueA (client_ex 5))
    as (_ & m & B & S & A);
    [exact host_wide_inv|apply bytes_msg_inv|reflexivity|apply bytes_msg_content|split; [discriminate|reflexivity]|valid_area
    |split; [discriminate|reflexivity]|].
  assert (Ec : covered host_wide 1 (center (place 420 0 10)) = [42; 43; 44]) by by vm_compute. rewrite Ec in *.
  destruct (S queue_42_sendable queue_42_settled) as (v' & h' & p' & m' & E & R & _ & K).
  exists v', h', p', (set_group m MSG_GROUP_VAST_RELAY), m'. split; [exact E|].
  assert (Et : ∀ t, targets_at queue_42 (set_group m MSG_GROUP_VAST_RELAY) t = filter (λ i, host_of queue_42 i = t) [42; 43]).
  { intros t. unfold targets_at. cbn [targets set_group]. rewrite (bl_targets _ _ _ _ _ B). reflexivity. }
  split; [|split; [|split; [|split]]].
  - rewrite (rt_out _ _ _ _ R). cbn [fmap list_fmap concat]. unfold sent_for. rewrite Et, Bool.eqb_reflx.
    cbn [andb negb]. rewrite app_nil_r. destruct (rel _); reflexivity.
  - unfold copy_for, filled. rewrite Et. by destruct (from _ =? 0).
  - unfold has. rewrite K. reflexivity.
  - rewrite K. reflexivity.
  - destruct (A (bytes_msg 50 3 (content m) [42; 43])) as (c' & r' & x & Eh & Em & Ex & _);
      [apply bytes_msg_inv|reflexivity|apply bytes_msg_content|].
    exists c', r', x. split; [exact Eh|]. split; [exact Em|exact Ex].
Defined.

(** The peer of the matcher is joining; one message waits already. *)
Definition joining_ex : VSOPeer VoronoiSF := mkVSO (with_state (new_peer 1) JOINING) JOINING nodeA false nodeA [] [] [] [] [] [] 0 0 0 0.
Definition waiting_ex : VASTMatcher VoronoiSF :=
  mkVM JOINED (set_m_queue host_ex [bytes_msg idA (code MATCHER_ALIVE) [] [5]]) (Some joining_ex).

(** The peer has joined; two messages wait, the first for two targets at one host. *)
Definition joined_ex : VSOPeer VoronoiSF := mkVSO (with_state (new_peer 1) JOINED) JOINED nodeA false nodeA [] [] [] [] [] [] 0 0 0 0.
Definition waits_ex : list Message := [bytes_msg idA (code MATCHER_ALIVE) [] [42; 43]; bytes_msg idA (code MATCHER_ALIVE) [Byte.x2a] [5]].
Definition flushing_ex : VASTMatcher VoronoiSF := mkVM JOINED (set_m_queue host_ex waits_ex) (Some joined_ex).

Lemma waiting_messages_resent_witness :
  (∃ c m', VM_handleMessage junk0 vjunk0 gw_uninit_ex vm_uninit_ex 5 100 queueA waiting_ex publish_msg
    = Ok (queueA, mkVM JOINED (set_m_queue host_ex [bytes_msg idA (code MATCHER_ALIVE) [] [5]; c]) (Some joining_ex), m', true)
    ∧ content c = content publish_msg)
  ∧ ∃ v', outq v' true idB = framed REGULAR (bytes_msg idA (code MATCHER_ALIVE) [] [42; 43])
                             ++ framed REGULAR (bytes_msg idA (code MATCHER_ALIVE) [Byte.x2a] [5])
    ∧ VM_handleMessage junk0 vjunk0 gw_uninit_ex vm_uninit_ex 5 100 queue_42 flushing_ex publish_msg
      = '(q', w', m') ← handle_typed junk0 vjunk0 gw_uninit_ex vm_uninit_ex 5 100 (APP_MSGTYPE (msgtype publish_msg)) (with_net queue_42 v')
          (mkVM JOINED (set_m_queue (vm_host flushing_ex) []) (Some joined_ex)) joined_ex (set_type publish_msg (VAST_MSGTYPE (msgtype publish_msg)));
        Ok (q', w', m', true).
Proof.
  split.
  - destruct (waiting_messages_resent junk0 vjunk0 gw_uninit_ex vm_uninit_ex 5 100 queueA waiting_ex joining_ex joining_ex publish_msg)
      as [W _]; [reflexivity|reflexivity|apply bytes_msg_inv|by vm_compute|by vm_compute|].
    destruct W as (c & m' & E & C); [reflexivity|reflexivity|]. exists c, m'. split; [exact E|].
    destruct C as (_ & _ & _ & C & _). exact C.
  - destruct (waiting_messages_resent junk0 vjunk0 gw_uninit_ex vm_uninit_ex 5 100 queue_42 flushing_ex joined_ex joined_ex publish_msg)
      as [_ W]; [reflexivity|reflexivity|apply bytes_msg_inv|by vm_compute|by vm_compute|].
    destruct W as (v' & R & E); [reflexivity|exact queue_42_sendable| |].
    + repeat apply Forall_cons_2; [split; [apply bytes_msg_inv|]..|apply Forall_nil_2].
      * by pose proof queue_42_settled as F; inversion F as [|? ? F1 F2]; inversion F2 as [|? ? F3 F4]; repeat constructor.
      * apply Forall_cons_2; [split; [reflexivity|left; reflexivity]|apply Forall_nil_2].
    + exists v'. split; [|exact E]. rewrite (rt_out _ _ _ _ R). by vm_compute.
Defined.

(** *** A matcher from its start: it joins, becomes the origin of world 7, takes a subscription
    and a publication, and runs its cycles. *)

Definition init_msg : Message := bytes_msg idB (code MATCHER_INIT) (le_bytes 2 7 ++ le_bytes 8 idA) [idA].
Definition subscribe_msg : Message := bytes_msg idA (code SUBSCRIBE) (wire (sub_ex 40 0 [])) [idA].

Definition events_ex : list (Z * Z * vm_event) :=
  [(5, 100, VM_enters ipB); (6, 100, VM_arrives init_msg); (7, 100, VM_cycle); (8, 100, VM_arrives subscribe_msg);
   (9, 100, VM_cycle); (10, 100, VM_arrives publish_msg); (11, 100, VM_cycle)].

Lemma of_von_late z : VON_MAX_MSG ≤ z → of_von_code z = None.
Proof.
  unfold VON_MAX_MSG, of_von_code. intros Hz. destruct (Z.ltb_spec z 0); [lia|]. apply lookup_ge_None. cbn. lia.
Qed.

Lemma for_the_matcher f ty bs ts : VON_MAX_MSG ≤ VAST_MSGTYPE ty → proper junk0 idA (bytes_msg f ty bs ts).
Proof.
  intros Ht. split; [apply bytes_msg_inv|]. unfold decent, not_own_farewell, not_named_in. cbn.
  rewrite !of_von_late by lia. split; [by intros [|]|done].
Qed.

Lemma events_proper : Forall (proper_event junk0 (hostID queueA)) events_ex.
Proof.
  repeat apply Forall_cons_2; [..|apply Forall_nil_2]; try exact I; (apply for_the_matcher; by vm_compute).
Qed.

Abbreviation run_ex := (VM_run junk0 vjunk0 gw_uninit_ex vm_uninit_ex queueA
  (snd (VM_initHandler queueA (VM_new true 0 false None : VASTMatcher VoronoiSF))) events_ex).

Lemma vm_uninit_typed : fits 32 (mu_x vm_uninit_ex) ∧ fits 32 (mu_y vm_uninit_ex).
Proof. repeat split; discriminate. Qed.

Lemma run_ex_done : match run_ex with Ok (_, w) => (fst <$> m_subs (vm_host w)) = [40] ∧ m_world (vm_host w) = 7 | Fail _ => False end.
Proof. by vm_compute. Qed.


Lemma subscriptions_stay_typed_witness :
  match run_ex with
  | Ok (q', w') => Forall (λ x, sub_id (snd x) = fst x ∧ typed_sub (snd x)) (m_subs (vm_host w')) ∧ (fst <$> m_subs (vm_host w')) = [40]
  | Fail _ => False
  end.
Proof.
  pose proof run_ex_done as Hd. destruct run_ex as [[q' w']|f] eqn:E; [|exact Hd].
  split; [|exact (proj1 Hd)].
  exact (proj2 (subscriptions_stay_typed junk0 vjunk0 gw_uninit_ex vm_uninit_ex vm_uninit_typed events_ex queueA q' true 0 false None w'
    hostA_net events_proper E)).
Defined.
