(* ===== verification/Verse.v ===== *)
(** The application's entry point: VAST/VASTVerse.cpp. It brings a node up over several ticks -
    network, relay, matcher, client - and runs it: the queue with its three handlers, and the
    callbacks of the application.

    The pointers to relay, matcher and client are to the handlers that are registered, so that
    they are kept with the queue. Choosing the binding by the model and the port is done by
    the parameter [para_binding], the binding that is constructed; the bandwidth limits are
    empty functions; printing is left out, and so is [VASTThread], which calls [tick]. *)

From S2P Require Import Prelude Bytes StdMap Float Serial AddrText Geometry Subscription Message VastBuffer NetManager.
From S2P Require Import NetInterface VastNet VastSend VastJoin MessageQueue Routing QueueSafe Handlers Client Relay.
From S2P Require Import Gateway VonInterfaces VonPeer VSOTypes VSOPeer MatcherHost Matcher MatcherHandle MatcherRun.
From Stdlib Require Import Floats.SpecFloat.
Local Open Scope Z_scope.

(** *** The handlers of a node *)

Inductive vast_handler (V : Type) := AsRelay (r : VASTRelay) | AsMatcher (m : VASTMatcher V) | AsClient (c : VASTClient).
Arguments AsRelay {V}. Arguments AsMatcher {V}. Arguments AsClient {V}.

Section pointers.
Context {N V : Type}.
Implicit Types (s : MessageQueue N (vast_handler V)) (hs : list (Z * vast_handler V)).

Definition relay_in hs : option VASTRelay :=
  match find MSG_GROUP_VAST_RELAY hs with Some (AsRelay r) => Some r | _ => None end.
Definition matcher_in hs : option (VASTMatcher V) :=
  match find MSG_GROUP_VAST_MATCHER hs with Some (AsMatcher m) => Some m | _ => None end.
Definition client_in hs : option VASTClient :=
  match find MSG_GROUP_VAST_CLIENT hs with Some (AsClient c) => Some c | _ => None end.

(** What the client reads through its pointer to the relay *)
Definition relay_seen hs : relay_view :=
  match relay_in hs with Some r => view_relay r | None => mkRelayView false NET_ID_UNASSIGNED 0 end.

Definition put_matcher s (q : mqueue N) (m : VASTMatcher V) : MessageQueue N (vast_handler V) :=
  mkMQ q (set MSG_GROUP_VAST_MATCHER (AsMatcher m) (handlers s)).
Definition put_client s (q : mqueue N) (c : VASTClient) : MessageQueue N (vast_handler V) :=
  mkMQ q (set MSG_GROUP_VAST_CLIENT (AsClient c) (handlers s)).
End pointers.

(** *** The members *)

Record VASTPara_Net (N : Type) := mkPara {
  para_binding : N;
  para_relay : bool; para_matcher : bool; para_static : bool;
  para_client_limit : Z; para_relay_limit : Z; para_overload_limit : Z;
  phys_coord : Position; matcher_coord : Position }.
Arguments mkPara {N}. Arguments para_binding {N}. Arguments para_relay {N}. Arguments para_matcher {N}.
Arguments para_static {N}. Arguments para_client_limit {N}. Arguments para_relay_limit {N}.
Arguments para_overload_limit {N}. Arguments phys_coord {N}. Arguments matcher_coord {N}.

Record verse_stats := mkVStats {
  sendstat : StatType; recvstat : StatType; sendstat_interval : StatType; recvstat_interval : StatType;
  lastsend : Z; lastrecv : Z }.

(** [A] is the state of the application behind the callback; [None] is no callback. *)
Record VASTVerse (N V A : Type) := mkVV {
  vv_state : NodeState;
  vv_para : VASTPara_Net N;
  vv_node : option (MessageQueue N (vast_handler V));   (* net, msgqueue and the handlers *)
  vv_timeout : Z;
  vv_info : list Subscription;                          (* _vastinfo *)
  vv_entries : list IPaddr;
  vv_gateway : IPaddr;
  vv_connected : bool;                                  (* _GWconnected *)
  vv_next : Z;                                          (* _next_periodic *)
  vv_stats : verse_stats;
  vv_app : option A }.
Arguments mkVV {N V A}. Arguments vv_state {N V A}. Arguments vv_para {N V A}. Arguments vv_node {N V A}.
Arguments vv_timeout {N V A}. Arguments vv_info {N V A}. Arguments vv_entries {N V A}. Arguments vv_gateway {N V A}.
Arguments vv_connected {N V A}. Arguments vv_next {N V A}. Arguments vv_stats {N V A}. Arguments vv_app {N V A}.

Section setters.
Context {N V A : Type}.
Implicit Types v : VASTVerse N V A.

Definition set_vstate v s : VASTVerse N V A := mkVV s (vv_para v) (vv_node v) (vv_timeout v) (vv_info v) (vv_entries v) (vv_gateway v)
  (vv_connected v) (vv_next v) (vv_stats v) (vv_app v).
Definition set_vnode v n : VASTVerse N V A := mkVV (vv_state v) (vv_para v) n (vv_timeout v) (vv_info v) (vv_entries v) (vv_gateway v)
  (vv_connected v) (vv_next v) (vv_stats v) (vv_app v).
Definition set_vtimeout v t : VASTVerse N V A := mkVV (vv_state v) (vv_para v) (vv_node v) t (vv_info v) (vv_entries v) (vv_gateway v)
  (vv_connected v) (vv_next v) (vv_stats v) (vv_app v).
Definition set_vinfo v l : VASTVerse N V A := mkVV (vv_state v) (vv_para v) (vv_node v) (vv_timeout v) l (vv_entries v) (vv_gateway v)
  (vv_connected v) (vv_next v) (vv_stats v) (vv_app v).
Definition set_vgateway v es g : VASTVerse N V A := mkVV (vv_state v) (vv_para v) (vv_node v) (vv_timeout v) (vv_info v) es g
  (vv_connected v) (vv_next v) (vv_stats v) (vv_app v).
Definition set_vconnected v b : VASTVerse N V A := mkVV (vv_state v) (vv_para v) (vv_node v) (vv_timeout v) (vv_info v) (vv_entries v)
  (vv_gateway v) b (vv_next v) (vv_stats v) (vv_app v).
Definition set_vperiodic v t st : VASTVerse N V A := mkVV (vv_state v) (vv_para v) (vv_node v) (vv_timeout v) (vv_info v) (vv_entries v)
  (vv_gateway v) (vv_connected v) t st (vv_app v).
Definition set_vapp v a : VASTVerse N V A := mkVV (vv_state v) (vv_para v) (vv_node v) (vv_timeout v) (vv_info v) (vv_entries v)
  (vv_gateway v) (vv_connected v) (vv_next v) (vv_stats v) a.

Definition the_client v : option VASTClient := s ← vv_node v; client_in (handlers s).
End setters.

(** [VASTCallback]: what the application does with the whole node when it is called. *)
Class VASTCallback (N V A : Type) := {
  gatewayConnected : Z → VASTVerse N V A → outcome (VASTVerse N V A);
  gatewayDisconnected : VASTVerse N V A → outcome (VASTVerse N V A);
  nodeJoined : VASTVerse N V A → outcome (VASTVerse N V A);
  nodeLeft : VASTVerse N V A → outcome (VASTVerse N V A);
  performPerTickTasks : VASTVerse N V A → outcome (VASTVerse N V A);
  performPerSecondTasks : Z → VASTVerse N V A → outcome (VASTVerse N V A);
  processSocketMessage : NetSocketMsg → VASTVerse N V A → outcome (VASTVerse N V A * bool);
  processMessage : Message → VASTVerse N V A → outcome (VASTVerse N V A * bool) }.

(** What a tick depends on besides the state: the clock, [g_MS_PER_TIMESTEP], uninitialised
    memory, the number of messages the [TimeMonitor] leaves time for, results of [rand ()], and
    bounds of the loops over received messages. *)
Record tick_env := mkTick {
  te_now : Z; te_ms : Z; te_junk : Z; te_fuel : nat; te_time1 : nat; te_time2 : nat;
  te_entry1 : nat; te_entry2 : nat; te_random : Position; te_sockets : nat; te_messages : nat }.

(** Uninitialised local variables of the handlers, and the results of [rand ()] in the relay *)
Record node_uninit := mkNodeUninit {
  nu_client : uninit; nu_relay : relay_uninit; nu_rand : nat → list nat;
  nu_von : von_uninit; nu_vso : vso_uninit; nu_gateway : gw_uninit; nu_matcher : vm_uninit }.

Definition is_zero (c : Z) : bool := SFeqb (f32_of_bits c) (S754_zero false).
Definition Position_isEmpty (p : Position) : bool := is_zero (pos_x p) && is_zero (pos_y p) && is_zero (pos_z p).
Definition VASTVERSE_RETRY_PERIOD (ms : Z) : Z := Z.quot (1000 * ms) 1000.

Section verse.
Context {N V A : Type} `{NetManager N} `{Voronoi V} `{VASTCallback N V A}.
Context (u : node_uninit).
Implicit Types (v : VASTVerse N V A) (e : tick_env) (s : MessageQueue N (vast_handler V)).

#[export] Instance vast_handlers : MessageHandler N (vast_handler V) := {
  initHandler q h :=
    match h with
    | AsRelay r => let '(q, r) := R_initHandler q r in (q, AsRelay r)
    | AsMatcher m => let '(q, m) := VM_initHandler q m in (q, AsMatcher m)
    | AsClient c => let '(q, c) := VC_initHandler q c in (q, AsClient c)
    end;
  handleMessage now ms hs q h msg :=
    match h with
    | AsRelay r => '(q, r, msg, ok) ← R_handleMessage (nu_relay u) (nu_rand u) now ms q r msg; Ok (q, AsRelay r, msg, ok)
    | AsMatcher m =>
        '(q, m, msg, ok) ← VM_handleMessage (nu_von u) (nu_vso u) (nu_gateway u) (nu_matcher u) now ms q m msg; Ok (q, AsMatcher m, msg, ok)
    | AsClient c => '(q, c, msg, ok) ← VC_handleMessage (nu_client u) now (relay_seen hs) q c msg; Ok (q, AsClient c, msg, ok)
    end;
  postHandling now ms hs q h :=
    match h with
    | AsRelay r => '(q, r) ← R_postHandling (nu_rand u) now ms q r; Ok (q, AsRelay r)
    | AsMatcher m => '(q, m) ← VM_postHandling now ms q m; Ok (q, AsMatcher m)
    | AsClient c => '(q, c) ← VC_postHandling now ms (relay_seen hs) q c; Ok (q, AsClient c)
    end }.

(** *** Creation *)

(** The constructor; [None] for a text that is no address gives the local host. [strcpy] into
    the 100 characters of [GWstr] *)
Definition local_gateway : text := getString (mkIPaddr 2130706433 1037 0).

Definition VV_new (is_gateway : bool) (GWstr : text) (para : VASTPara_Net N) (app : option A) : outcome (VASTVerse N V A) :=
  if (99 <? length GWstr)%nat then Fail OutOfBounds else
  let gw := match translateAddress GWstr with
            | Some a => publicIP a
            | None => match translateAddress local_gateway with Some a => publicIP a | None => IPaddr_null end
            end in
  Ok (mkVV ABSENT para None 0 [] (if is_gateway then [] else [gw]) gw false 0
        (mkVStats Stat_reset Stat_reset Stat_reset Stat_reset 0 0) app).

(** [createVASTNode (world_id, area, layer)] *)
Definition createVASTNode v (world : Z) (area : Area) (l : Z) : VASTVerse N V A * bool :=
  match vv_info v with
  | _ :: _ => (v, false)
  | [] => (set_vinfo v [mkSub (sub_host_id (Sub_init world)) 1 l area (relay (Sub_init world)) (active (Sub_init world))
                          (dirty (Sub_init world)) (in_region (Sub_init world)) (sub_time (Sub_init world)) world [] []], true)
  end.

(** [createNet] and the queue *)
Definition start_node (now : Z) v : outcome (VASTVerse N V A) :=
  let '(n, es) := addEntries (VN_new (para_binding (vv_para v))) (vv_entries v) in
  q ← MQ_new n now;
  Ok (set_vnode (set_vgateway v es (vv_gateway v)) (Some (mkMQ q []))).

Definition new_relay v (random : Position) : VASTRelay :=
  let p := vv_para v in
  let c := phys_coord p in
  VASTRelay_new (para_relay p) (para_client_limit p) (para_relay_limit p)
    (if negb (is_zero (pos_x c) && is_zero (pos_y c)) then Some c else None) random.

Definition new_matcher v : VASTMatcher V :=
  let p := vv_para v in
  VM_new (para_matcher p) (para_overload_limit p) (para_static p)
    (if Position_isEmpty (matcher_coord p) then None else Some (matcher_coord p)).

(** [rand () % _entries.size ()] *)
Definition entry_of (n : VASTnet N) (r : nat) : nat := r mod length (entries n).

(** [isInitialized ()]: one step towards a node, or whether it is there *)
Definition isInitialized e (entry : nat) v : outcome (VASTVerse N V A * bool) :=
  match vv_node v with
  | None => v ← start_node (te_now e) v; Ok (v, false)
  | Some s =>
      '(n, joined) ← VastNet.isJoined (net (queue s)) (te_now e) (te_ms e) (entry_of (net (queue s)) entry);
      let s := with_queue s (with_net (queue s) n) in
      let v := set_vnode v (Some s) in
      if negb joined then Ok (v, false) else
      match relay_in (handlers s) with
      | None =>
          let v := set_vgateway v (vv_entries v) (validateIPAddress n (vv_gateway v)) in
          if nm_getID (manager n) =? NET_ID_UNASSIGNED then Ok (v, false) else
          Ok (set_vnode v (Some (fst (registerHandler s MSG_GROUP_VAST_RELAY (AsRelay (new_relay v (te_random e)))))), false)
      | Some r =>
          if negb (R_isJoined r) then Ok (v, false) else
          match matcher_in (handlers s) with
          | None => Ok (set_vnode v (Some (fst (registerHandler s MSG_GROUP_VAST_MATCHER (AsMatcher (new_matcher v))))), true)
          | Some _ => Ok (v, true)
          end
      end
  end.

(** [createClient (gateway, world_id)]: whether there is a client *)
Definition createClient e (gw : IPaddr) (world : Z) v : outcome (VASTVerse N V A * bool) :=
  '(v, ok) ← isInitialized e (te_entry2 e) v;
  if negb ok then Ok (v, false) else
  match vv_node v with
  | None => Fail OutOfBounds
  | Some s =>
      match client_in (handlers s), matcher_in (handlers s) with
      | Some _, _ => Ok (v, true)
      | None, None => Fail OutOfBounds
      | None, Some m =>
          if negb (VM_isJoined m) then
            '(q, m, _) ← VM_join (te_now e) (queue s) m gw;
            Ok (set_vnode v (Some (put_matcher s q m)), false)
          else
            let s := fst (registerHandler s MSG_GROUP_VAST_CLIENT (AsClient (VASTClient_new (mu_sub_world (nu_matcher u))))) in
            match client_in (handlers s) with
            | None => Fail OutOfBounds
            | Some c =>
                '(q, c, _) ← VC_join (te_now e) (te_ms e) (queue s) (relay_seen (handlers s)) c gw world;
                Ok (set_vnode v (Some (put_client s q c)), true)
            end
      end
  end.

(** [destroyClient (node)], for the client *)
Definition destroyClient v : VASTVerse N V A * bool :=
  match vv_node v with
  | None => (v, false)
  | Some s => (set_vnode v (Some (fst (unregisterHandler s MSG_GROUP_VAST_CLIENT))), true)
  end.

(** [getVASTNode ()]: the pointer to the client, [None] is [NULL] *)
Definition getVASTNode v : option VASTClient :=
  if bool_decide (vv_state v = JOINED) then the_client v else None.

(** *** A tick *)

(** A callback, if there is one *)
Definition tell (f : VASTVerse N V A → outcome (VASTVerse N V A)) v : outcome (VASTVerse N V A) :=
  match vv_app v with Some _ => f v | None => Ok v end.

Definition verse_id v : Z := match vv_node v with Some s => hostID (queue s) | None => NET_ID_UNASSIGNED end.

(** One more tick in a stage that should end; the state it falls back to *)
Definition waited v (period : Z) (back : VASTVerse N V A → VASTVerse N V A) : VASTVerse N V A :=
  let t := vv_timeout v + 1 in
  if period <? u64 t then back (set_vtimeout v 0) else set_vtimeout v t.

(** Towards a node that was asked for *)
Definition advance e (period : Z) (info : Subscription) v : outcome (VASTVerse N V A) :=
  match vv_state v with
  | ABSENT =>
      '(v, ok) ← createClient e (vv_gateway v) (world_id info) v;
      Ok (if ok : bool then set_vstate v JOINING else v)
  | JOINING =>
      match vv_node v, the_client v with
      | Some s, Some c =>
          if VC_isJoined c then
            '(q, c, _) ← VC_subscribe (te_now e) (te_ms e) (queue s) (relay_seen (handlers s)) c (sub_aoi info) (layer info);
            Ok (set_vstate (set_vnode v (Some (put_client s q c))) JOINING_2)
          else Ok (waited v period (λ v, set_vstate (fst (destroyClient v)) ABSENT))
      | _, _ => Fail OutOfBounds
      end
  | JOINING_2 =>
      match the_client v with
      | None => Fail OutOfBounds
      | Some c =>
          if negb (getSubscriptionID c =? NET_ID_UNASSIGNED) then tell nodeJoined (set_vstate v JOINED)
          else Ok (waited v period (λ v, set_vstate v JOINING))
      end
  | _ => Ok v
  end.

Definition join_tasks e (period : Z) v : outcome (VASTVerse N V A) :=
  '(v, ok) ← isInitialized e (te_entry1 e) v;
  if negb ok then Ok v else
  v ← (if vv_connected v then Ok v
       else v ← tell (λ v, gatewayConnected (verse_id v) v) v; Ok (set_vconnected v true));
  match bool_decide (vv_state v = JOINED), vv_info v with
  | false, info :: _ => advance e period info v
  | true, [] => tell nodeLeft (set_vstate v ABSENT)
  | _, _ => Ok v
  end.

Definition queue_tick e v : outcome (VASTVerse N V A) :=
  match vv_node v with
  | None => Ok v
  | Some s =>
      s ← MQ_tick (te_fuel e) (te_time1 e) (te_time2 e) (te_now e) (te_ms e) (te_junk e) s;
      Ok (set_vnode v (Some s))
  end.

(** What was sent and received since the last time *)
Definition record_sizes (st : verse_stats) (sent received : Z) : verse_stats :=
  let ds := u64 (sent - lastsend st) in
  let dr := u64 (received - lastrecv st) in
  mkVStats (addRecord (sendstat st) ds) (addRecord (recvstat st) dr)
           (addRecord (sendstat_interval st) ds) (addRecord (recvstat_interval st) dr) sent received.

Definition second_tasks e s v : outcome (VASTVerse N V A * bool) :=
  let t := timestamp (te_now e) (queue s) in
  if vv_next v <=? t then
    let n := net (queue s) in
    v ← tell (performPerSecondTasks t) (set_vperiodic v t (record_sizes (vv_stats v) (getSendSize n 0) (getReceiveSize n 0)));
    Ok (v, true)
  else Ok (v, false).

(** The loops over what was received; the callback says whether to go on. *)
Fixpoint socket_loop (fuel : nat) v : outcome (VASTVerse N V A) :=
  match vv_node v with
  | None => Fail OutOfBounds
  | Some s =>
      let '(n, m) := receiveSocket (net (queue s)) in
      let v := set_vnode v (Some (with_queue s (with_net (queue s) n))) in
      match m with
      | None => Ok v
      | Some m =>
          if bool_decide (nsm_msg m = None) then Ok v else
          match fuel with
          | O => Fail Diverges
          | S fuel => '(v, more) ← processSocketMessage m v; if more : bool then socket_loop fuel v else Ok v
          end
      end
  end.

Fixpoint message_loop (fuel : nat) v : outcome (VASTVerse N V A) :=
  match vv_node v, the_client v with
  | Some s, Some c =>
      let '(c, m) := VC_receive c in
      let v := set_vnode v (Some (put_client s (queue s) c)) in
      match m with
      | None => Ok v
      | Some m =>
          match fuel with
          | O => Fail Diverges
          | S fuel => '(v, more) ← processMessage m v; if more : bool then message_loop fuel v else Ok v
          end
      end
  | _, _ => Fail OutOfBounds
  end.

Definition app_tasks e v : outcome (VASTVerse N V A * bool) :=
  match vv_node v with
  | None => Ok (v, false)
  | Some s =>
      '(v, per_sec) ← second_tasks e s v;
      v ← tell (socket_loop (te_sockets e)) v;
      v ← (if bool_decide (vv_state v = JOINED) && bool_decide (the_client v ≠ None)
           then tell (message_loop (te_messages e)) v else Ok v);
      Ok (v, per_sec)
  end.

(** [tick (time_budget, per_sec)] *)
Definition retry_period e v : Z :=
  match vv_node v with
  | Some s => u64 (VASTVERSE_RETRY_PERIOD (te_ms e) * per_second (queue s))
  | None => 0
  end.

Definition VV_tick e v : outcome (VASTVerse N V A * bool) :=
  v ← join_tasks e (retry_period e v) v;
  v ← queue_tick e v;
  v ← tell performPerTickTasks v;
  app_tasks e v.

(** *** The end of a node *)

(** [destroyVASTNode (node)]; [None] is a null pointer, and a pointer to a client that is gone
    is not valid. *)
Definition leave_client e v : outcome (VASTVerse N V A) :=
  match vv_node v, the_client v with
  | Some s, Some c => '(q, c) ← VC_leave (te_now e) (queue s) c; Ok (set_vnode v (Some (put_client s q c)))
  | _, _ => Fail OutOfBounds
  end.

Definition destroyVASTNode e (node : option VASTClient) v : outcome (VASTVerse N V A * bool) :=
  match node with
  | None => Ok (v, false)
  | Some _ =>
      v ← leave_client e v;
      match vv_info v with
      | [] => Ok (v, false)
      | _ =>
          '(v, _) ← VV_tick e (set_vinfo v []);
          Ok (destroyClient v)
      end
  end.

(** The destructor: what is left is the state of the network when it stops. *)
Definition VV_delete e v : outcome (VASTVerse N V A * option (VASTnet N)) :=
  '(v, _) ← destroyVASTNode e (the_client v) v;
  v ← (if vv_connected v then v ← tell gatewayDisconnected v; Ok (set_vconnected v false) else Ok v);
  match vv_node v with
  | None => Ok (v, None)
  | Some s => n ← VN_stop (net (queue s)) (te_now e); Ok (set_vnode v None, Some n)
  end.

(** *** Access *)

Definition with_the_net v (f : VASTnet N → outcome (VASTnet N)) : outcome (VASTVerse N V A) :=
  match vv_node v with
  | None => Ok v
  | Some s => n ← f (net (queue s)); Ok (set_vnode v (Some (with_queue s (with_net (queue s) n))))
  end.
Definition pauseNetwork e v := with_the_net v (λ n, VN_stop n (te_now e)).
Definition resumeNetwork e v := with_the_net v (λ n, VN_start n (te_now e)).
Definition VV_recordLocalTarget v (target : Z) := with_the_net v (λ n, Ok (recordLocalTarget n target)).

(** The socket functions; the value for a node without a network *)
Definition on_net {B} v (d : B) (f : VASTnet N → outcome (VASTnet N * B)) : outcome (VASTVerse N V A * B) :=
  match vv_node v with
  | None => Ok (v, d)
  | Some s => '(n, b) ← f (net (queue s)); Ok (set_vnode v (Some (with_queue s (with_net (queue s) n))), b)
  end.
Definition VV_openSocket e v (ip : IPaddr) := on_net v NET_ID_UNASSIGNED (λ n, openSocket n (te_now e) (te_ms e) (entry_of n (te_entry1 e)) ip).
Definition VV_closeSocket e v (socket : Z) := on_net v false (λ n, closeSocket n (te_now e) socket).
Definition VV_sendSocket v (socket : Z) (msg : list byte) := on_net v false (λ n, Ok (sendSocket n socket msg)).
Definition VV_receiveSocket v := on_net v None (λ n, Ok (receiveSocket n)).

Definition VV_getTimestamp e v : Z := match vv_node v with Some s => timestamp (te_now e) (queue s) | None => 0 end.
Definition getConnectionSize v : nat := match vv_node v with Some s => length (getConnections (net (queue s))) | None => 0 end.

(** What is asked of the matcher, once everything is there *)
Definition of_matcher {B} e v (d : B) (f : VASTMatcher V → VASTMatcher V * B) : outcome (VASTVerse N V A * B) :=
  '(v, ok) ← isInitialized e (te_entry1 e) v;
  if negb ok then Ok (v, d) else
  match vv_node v with
  | None => Fail OutOfBounds
  | Some s =>
      match matcher_in (handlers s) with
      | None => Fail OutOfBounds
      | Some m => let '(m, b) := f m in Ok (set_vnode v (Some (put_matcher s (queue s) m)), b)
      end
  end.
Definition isMatcher e v := of_matcher e v false VM_isActive.
Definition VV_isGateway e v := of_matcher e v false (λ m, (m, isGateway (vm_host m))).
Definition getMatcherVoronoi e v :=
  of_matcher e v None (λ m, (m, if VM_isJoined m then voronoi <$> (vp <$> vm_peer m) else None)).
Definition getMatcherAOI e v :=
  of_matcher e v None (λ m,
    if VM_isJoined m then
      let '(m, active) := VM_isActive m in
      (m, if active : bool then (λ p, node_aoi (self (vp p))) <$> vm_peer m else None)
    else (m, None)).

Definition clearStat v : VASTVerse N V A :=
  let st := vv_stats v in
  set_vperiodic v (vv_next v) (mkVStats (sendstat st) (recvstat st) Stat_reset Stat_reset (lastsend st) (lastrecv st)).
Definition getSendStat v (interval : bool) : StatType := if interval then sendstat_interval (vv_stats v) else sendstat (vv_stats v).
Definition getReceiveStat v (interval : bool) : StatType := if interval then recvstat_interval (vv_stats v) else recvstat (vv_stats v).
End verse.
