(* ===== verification/VerseLife.v ===== *)
(** What the application is told during the life of a node: the callbacks of a [VASTVerse] in
    any sequence of ticks, creations and removals of its node, seen as a trace of events. *)

From S2P Require Import Prelude Bytes StdMap Float Serial AddrText Geometry Subscription Message VastBuffer NetManager.
From S2P Require Import NetInterface VastNet VastSend VastJoin MessageQueue Routing QueueSafe Handlers Client Relay.
From S2P Require Import Gateway VonInterfaces VonPeer VSOTypes VSOPeer MatcherHost Matcher MatcherHandle MatcherRun Verse.
Local Open Scope Z_scope.

Inductive app_event := Connected (id : Z) | Disconnected | Joined | Left.

(** The life of a node as an automaton: whether the gateway is connected and the node joined;
    [None] is an event out of order. *)
Definition life_step (st : option (bool * bool)) (ev : app_event) : option (bool * bool) :=
  match st, ev with
  | Some (false, joined), Connected _ => Some (true, joined)
  | Some (true, joined), Disconnected => Some (false, joined)
  | Some (true, false), Joined => Some (true, true)
  | Some (c, true), Left => Some (c, false)
  | _, _ => None
  end.
Definition life (l : list app_event) : option (bool * bool) := foldl life_step (Some (false, false)) l.

Lemma life_snoc l ev : life (l ++ [ev]) = life_step (life l) ev.
Proof. unfold life. by rewrite foldl_app. Qed.

(** What the class itself keeps of it *)
Definition status {N V A} (v : VASTVerse N V A) : NodeState * list Subscription * bool :=
  (vv_state v, vv_info v, vv_connected v).

(** An application that is told [ev], if it returns: it may use the node, but neither creates
    nor removes one meanwhile. *)
Definition hears {N V A} (told : A → list app_event) (evs : list app_event) (v v' : VASTVerse N V A) : Prop :=
  status v' = status v
  ∧ match vv_app v with
    | Some a => ∃ a', vv_app v' = Some a' ∧ told a' = told a ++ evs
    | None => vv_app v' = None
    end.

Class Listens (N V A : Type) `{VASTCallback N V A} := {
  told : A → list app_event;
  hears_connected i v v' : gatewayConnected i v = Ok v' → hears told [Connected i] v v';
  hears_disconnected v v' : gatewayDisconnected v = Ok v' → hears told [Disconnected] v v';
  hears_joined v v' : nodeJoined v = Ok v' → hears told [Joined] v v';
  hears_left v v' : nodeLeft v = Ok v' → hears told [Left] v v';
  hears_tick v v' : performPerTickTasks v = Ok v' → hears told [] v v';
  hears_second t v v' : performPerSecondTasks t v = Ok v' → hears told [] v v';
  hears_socket m v v' b : processSocketMessage m v = Ok (v', b) → hears told [] v v';
  hears_message m v v' b : processMessage m v = Ok (v', b) → hears told [] v v' }.

Section life.
Context {N V A : Type} `{NetManager N} `{Voronoi V} `{Listens N V A}.
Context (u : node_uninit).
Implicit Types (v : VASTVerse N V A) (e : tick_env).

(** Steps that the application does not notice *)
Definition unnoticed v v' : Prop := status v' = status v ∧ vv_app v' = vv_app v.

Lemma unnoticed_hears v v' : unnoticed v v' → hears told [] v v'.
Proof. intros [S E]. split; [done|]. rewrite E. destruct (vv_app v) as [a|]; [|done]. exists a. by rewrite app_nil_r. Qed.

Lemma hears_step v1 v2 v3 l1 l2 : hears told l1 v1 v2 → hears told l2 v2 v3 → hears told (l1 ++ l2) v1 v3.
Proof.
  intros [S1 T1] [S2 T2]. split; [congruence|]. destruct (vv_app v1) as [a|].
  - destruct T1 as (a1 & E1 & L1). rewrite E1 in T2. destruct T2 as (a2 & E2 & L2). exists a2. split; [done|]. by rewrite L2, L1, app_assoc.
  - by rewrite T1 in T2.
Qed.

Lemma hears_id v : hears told [] v v.
Proof. by apply unnoticed_hears. Qed.

Lemma isInitialized_unnoticed e k v v' b : isInitialized u e k v = Ok (v', b) → unnoticed v v'.
Proof.
  unfold isInitialized. destruct (vv_node v) as [s|].
  - intros E. apply bind_inv in E as ([n j] & _ & E). cbv zeta in E. destruct (negb j); [by injection E as <- _|].
    destruct (relay_in _) as [r|].
    + destruct (negb (R_isJoined r)); [by injection E as <- _|]. destruct (matcher_in _); by injection E as <- _.
    + destruct (_ =? _); by injection E as <- _.
  - intros E. apply bind_inv in E as (v1 & E1 & E). injection E as <- _. unfold start_node in E1.
    destruct (addEntries _ _) as [n es]. apply bind_inv in E1 as (q & _ & E1). by injection E1 as <-.
Qed.

Lemma createClient_unnoticed e gw w v v' b : createClient u e gw w v = Ok (v', b) → unnoticed v v'.
Proof.
  unfold createClient. intros E. apply bind_inv in E as ([v1 ok] & E1 & E). apply isInitialized_unnoticed in E1.
  destruct (negb ok); [by injection E as <- _|]. destruct (vv_node v1) as [s|]; [|done].
  destruct (client_in _) as [c|]; [by injection E as <- _|]. destruct (matcher_in _) as [m|]; [|done].
  destruct (negb _).
  - apply bind_inv in E as ([[q m'] ok'] & _ & E). by injection E as <- _.
  - cbv zeta in E. destruct (client_in _) as [c|]; [|done]. apply bind_inv in E as ([[q c'] ok'] & _ & E). by injection E as <- _.
Qed.

(** A callback that does not exist is told nothing. *)
Definition told_if (v : VASTVerse N V A) (evs : list app_event) : list app_event :=
  match vv_app v with Some _ => evs | None => [] end.

Lemma tell_hears f evs v v' : (∀ v v', f v = Ok v' → hears told evs v v') → tell f v = Ok v' → hears told (told_if v evs) v v'.
Proof.
  intros Hf. unfold tell, told_if. destruct (vv_app v) eqn:E; [by apply Hf|]. intros [= <-]. apply hears_id.
Qed.

Lemma tell_quiet f v v' : (∀ v v', f v = Ok v' → hears told [] v v') → tell f v = Ok v' → hears told [] v v'.
Proof. intros Hf. unfold tell. destruct (vv_app v); [by apply Hf|]. intros [= <-]. apply hears_id. Qed.

Lemma socket_loop_quiet fuel v v' : socket_loop fuel v = Ok v' → hears told [] v v'.
Proof.
  revert v. induction fuel as [|fuel IH]; intros v; cbn [socket_loop]; destruct (vv_node v) as [s|]; try done;
    destruct (receiveSocket _) as [n m]; cbv zeta; (destruct m as [m|]; [|intros [= <-]; by apply unnoticed_hears]);
    (case_bool_decide; [intros [= <-]; by apply unnoticed_hears|]); [done|].
  intros E. apply bind_inv in E as ([v1 more] & E1 & E). apply hears_socket in E1.
  eapply (hears_step _ v1 _ [] []); [eapply (hears_step _ _ _ [] []); [by apply unnoticed_hears|exact E1]|].
  destruct more; [by apply IH|]. injection E as <-. apply hears_id.
Qed.

Lemma message_loop_quiet fuel v v' : message_loop fuel v = Ok v' → hears told [] v v'.
Proof.
  revert v. induction fuel as [|fuel IH]; intros v; cbn [message_loop];
    (destruct (vv_node v) as [s|]; [|done]); (destruct (the_client v) as [c|]; [|done]);
    destruct (VC_receive c) as [c' m]; cbv zeta; (destruct m as [m|]; [|intros [= <-]; by apply unnoticed_hears]); [done|].
  intros E. apply bind_inv in E as ([v1 more] & E1 & E). apply hears_message in E1.
  eapply (hears_step _ v1 _ [] []); [eapply (hears_step _ _ _ [] []); [by apply unnoticed_hears|exact E1]|].
  destruct more; [by apply IH|]. injection E as <-. apply hears_id.
Qed.

(** *** The invariant *)

Definition at_life v (st : option (bool * bool)) : Prop := ∀ a, vv_app v = Some a → life (told a) = st.

Lemma hears_at evs v v' st : hears told evs v v' → at_life v st → at_life v' (foldl life_step st evs).
Proof.
  intros [_ T] L a' Ha. destruct (vv_app v) as [a|] eqn:E; [|congruence]. destruct T as (a1 & E1 & T).
  assert (a' = a1) as -> by congruence. rewrite T. unfold life. rewrite foldl_app. f_equal. by apply L.
Qed.

Lemma tell_at f evs v v' st : (∀ v v', f v = Ok v' → hears told evs v v') → tell f v = Ok v' → at_life v st →
  status v' = status v ∧ at_life v' (foldl life_step st evs).
Proof.
  intros Hf E L. apply (tell_hears _ _ _ _ Hf) in E. split; [apply E|]. intros a' Ha. unfold told_if in E.
  destruct (vv_app v) as [a|] eqn:Ea; [by apply (hears_at _ _ _ _ E L)|]. destruct E as [_ E]. rewrite Ea in E. congruence.
Qed.

(** What the application was told is what the class has recorded, and nobody has joined
    before the gateway was connected. *)
Definition orderly v : Prop :=
  at_life v (Some (vv_connected v, bool_decide (vv_state v = JOINED))) ∧ (vv_state v = JOINED → vv_connected v = true).

Lemma orderly_by v' st : at_life v' st → st = Some (vv_connected v', bool_decide (vv_state v' = JOINED)) →
  (vv_state v' = JOINED → vv_connected v' = true) → orderly v'.
Proof. intros L -> J. by split. Qed.

Lemma quiet_orderly v v' : hears told [] v v' → orderly v → orderly v'.
Proof.
  intros Q [L J]. pose proof (hears_at _ _ _ _ Q L) as L'. destruct Q as [[= S1 _ S3] _]. split; [|by rewrite S1, S3].
  by rewrite S1, S3.
Qed.

(** A step without callbacks that does not touch the connection and ends unjoined, or as
    before *)
Lemma moved_orderly v v' : vv_app v' = vv_app v → vv_connected v' = vv_connected v →
  bool_decide (vv_state v' = JOINED) = bool_decide (vv_state v = JOINED) → orderly v → orderly v'.
Proof.
  intros Ea Ec Eb [L J]. split.
  - intros a Ha. rewrite Ec, Eb. apply L. congruence.
  - intros Es. rewrite Ec. apply J. rewrite Es in Eb. rewrite bool_decide_eq_true_2 in Eb by done.
    symmetry in Eb. by apply bool_decide_eq_true_1 in Eb.
Qed.

Lemma advance_orderly e period info v v' : advance u e period info v = Ok v' →
  vv_connected v = true → vv_state v ≠ JOINED → orderly v → orderly v'.
Proof.
  intros E C Hs O. unfold advance in E. destruct (vv_state v) eqn:Es; try (injection E as <-; done); try done.
  - apply bind_inv in E as ([v1 ok] & E1 & E). apply createClient_unnoticed in E1 as [[= S1 S2 S3] E1]. injection E as <-.
    apply (moved_orderly v); [by destruct ok|by destruct ok| |done]. destruct ok; cbn; rewrite ?S1, Es; by repeat case_bool_decide.
  - destruct (vv_node v) as [s|]; [|done]. destruct (the_client v) as [c|]; [|done]. destruct (VC_isJoined c).
    + apply bind_inv in E as ([[q c'] ok] & _ & E). injection E as <-.
      apply (moved_orderly v); [done|done|cbn; rewrite Es; by repeat case_bool_decide|done].
    + injection E as <-. unfold waited, destroyClient. destruct (_ <? _); cbn; [destruct (vv_node v)|];
        (apply (moved_orderly v); [done|done|cbn; rewrite ?Es; by repeat case_bool_decide|done]).
  - destruct (the_client v) as [c|]; [|done]. destruct (negb _).
    + destruct O as [L _]. assert (L1 : at_life (set_vstate v JOINED) (Some (true, false))).
      { intros a Ha. specialize (L a Ha). rewrite C, Es in L. exact L. }
      destruct (tell_at _ [Joined] _ _ _ hears_joined E L1) as [[= S1 _ S3] L2].
      apply (orderly_by v' _ L2); rewrite S3, C; [by rewrite S1|done].
    + injection E as <-. unfold waited. destruct (_ <? _);
        (apply (moved_orderly v); [done|done|cbn; rewrite ?Es; by repeat case_bool_decide|done]).
Qed.

Lemma join_tasks_orderly e period v v' : join_tasks u e period v = Ok v' → orderly v → orderly v'.
Proof.
  intros E O. unfold join_tasks in E. apply bind_inv in E as ([v1 ok] & E1 & E). apply isInitialized_unnoticed, unnoticed_hears in E1.
  apply (quiet_orderly _ _ E1) in O. clear v E1. destruct (negb ok); [by injection E as <-|].
  apply bind_inv in E as (v2 & E2 & E). assert (O2 : orderly v2 ∧ vv_connected v2 = true).
  { destruct (vv_connected v1) eqn:Ec; [by injection E2 as <-|]. apply bind_inv in E2 as (v3 & E3 & E2). injection E2 as <-.
    destruct O as [L J]. rewrite Ec in L. assert (bool_decide (vv_state v1 = JOINED) = false) as Eb.
    { apply bool_decide_eq_false_2. intros Es. apply J in Es. congruence. } rewrite Eb in L.
    destruct (tell_at _ [Connected (verse_id v1)] _ _ _ (λ v v', hears_connected _ v v') E3 L) as [[= S1 _ S3] L3].
    split; [|done]. apply (orderly_by (set_vconnected v3 true) _ L3); [|done]. cbn. by rewrite S1, Eb. }
  destruct O2 as [O2 C2]. clear v1 O E2. case_bool_decide as Ej; destruct (vv_info v2) as [|info l]; try (injection E as <-; done).
  - destruct O2 as [L _]. assert (L1 : at_life (set_vstate v2 ABSENT) (Some (true, true))).
    { intros a Ha. specialize (L a Ha). by rewrite C2, bool_decide_eq_true_2 in L. }
    destruct (tell_at _ [Left] _ _ _ hears_left E L1) as [[= S1 _ S3] L2].
    apply (orderly_by v' _ L2); rewrite S1; [|done]. cbn. by rewrite S3, C2.
  - by apply (advance_orderly e period info v2 v').
Qed.

Abbreviation tick := (VV_tick u).

Lemma tick_orderly e v v' b : tick e v = Ok (v', b) → orderly v → orderly v'.
Proof.
  intros E O. unfold VV_tick in E. apply bind_inv in E as (v1 & E1 & E). apply join_tasks_orderly in E1; [|done].
  apply bind_inv in E as (v2 & E2 & E). assert (O2 : orderly v2).
  { unfold queue_tick in E2. destruct (vv_node v1) as [s|]; [|by injection E2 as <-].
    apply bind_inv in E2 as (s' & _ & E2). injection E2 as <-. by apply (moved_orderly v1). }
  apply bind_inv in E as (v3 & E3 & E). apply (tell_quiet _ _ _ hears_tick) in E3. apply (quiet_orderly _ _ E3) in O2.
  unfold app_tasks in E. destruct (vv_node v3) as [s|]; [|by injection E as <- _].
  apply bind_inv in E as ([v4 ps] & E4 & E). assert (O4 : orderly v4).
  { unfold second_tasks in E4. destruct (_ <=? _); [|by injection E4 as <- _]. apply bind_inv in E4 as (v5 & E5 & E4). injection E4 as <- _.
    apply (tell_quiet _ _ _ (hears_second _)) in E5. apply (quiet_orderly _ _ E5). by apply (moved_orderly v3). }
  apply bind_inv in E as (v5 & E5 & E). apply (tell_quiet _ _ _ (socket_loop_quiet _)) in E5. apply (quiet_orderly _ _ E5) in O4.
  apply bind_inv in E as (v6 & E6 & E). injection E as <- _. destruct (_ && _); [|by injection E6 as <-].
  apply (tell_quiet _ _ _ (message_loop_quiet _)) in E6. by apply (quiet_orderly _ _ E6).
Qed.

(** *** Runs *)

(** What the application may do between ticks: it removes the node it got from
    [getVASTNode], and stops and starts the network. *)
Inductive verse_event :=
  | Ticks (e : tick_env) | Creates (world : Z) (area : Area) (l : Z) | Removes (e : tick_env)
  | Pauses (e : tick_env) | Resumes (e : tick_env).

Definition verse_step v (ev : verse_event) : outcome (VASTVerse N V A) :=
  match ev with
  | Ticks e => '(v, _) ← tick e v; Ok v
  | Creates w a l => Ok (fst (createVASTNode v w a l))
  | Removes e => '(v, _) ← destroyVASTNode u e (getVASTNode v) v; Ok v
  | Pauses e => pauseNetwork e v
  | Resumes e => resumeNetwork e v
  end.

Fixpoint verse_run v (evs : list verse_event) : outcome (VASTVerse N V A) :=
  match evs with
  | [] => Ok v
  | ev :: evs => v ← verse_step v ev; verse_run v evs
  end.

Lemma destroy_orderly e node v v' b :
  destroyVASTNode u e node v = Ok (v', b) → orderly v → orderly v'.
Proof.
  unfold destroyVASTNode. destruct node as [c0|]; [|by intros [= <- _]]. intros E O. apply bind_inv in E as (v1 & E1 & E).
  assert (O1 : orderly v1).
  { unfold leave_client in E1. destruct (vv_node v) as [s|]; [|done]. destruct (the_client v) as [c|]; [|done].
    apply bind_inv in E1 as ([q c'] & _ & E1). injection E1 as <-. by apply (moved_orderly v). }
  destruct (vv_info v1) as [|i l]; [by injection E as <- _|]. apply bind_inv in E as ([v2 b2] & E2 & E).
  apply tick_orderly in E2; [|by apply (moved_orderly v1)]. unfold destroyClient in E.
  destruct (vv_node v2); injection E as <- _; [by apply (moved_orderly v2)|done].
Qed.

Lemma the_net_orderly f v v' : with_the_net v f = Ok v' → orderly v → orderly v'.
Proof.
  unfold with_the_net. destruct (vv_node v) as [s|]; [|by intros [= <-]]. intros E O. apply bind_inv in E as (n & _ & E).
  injection E as <-. by apply (moved_orderly v).
Qed.

Lemma step_orderly v ev v' : verse_step v ev = Ok v' → orderly v → orderly v'.
Proof.
  intros E O. destruct ev as [e|w a l|e|e|e]; cbn [verse_step] in E.
  - apply bind_inv in E as ([v1 b] & E1 & E). injection E as <-. by apply tick_orderly in E1.
  - injection E as <-. unfold createVASTNode. destruct (vv_info v); [by apply (moved_orderly v)|done].
  - apply bind_inv in E as ([v1 b] & E1 & E). injection E as <-. by apply destroy_orderly in E1.
  - by apply the_net_orderly in E.
  - by apply the_net_orderly in E.
Qed.

Lemma run_orderly evs v v' : verse_run v evs = Ok v' → orderly v → orderly v'.
Proof.
  revert v. induction evs as [|ev evs IH]; intros v; cbn [verse_run]; [by intros [= <-]|].
  intros E O. apply bind_inv in E as (v1 & E1 & E). apply (IH v1); [done|]. by apply (step_orderly v ev).
Qed.

(** C20: The application sees an orderly life. Whatever it does with the node between and during
    ticks, and whatever arrives: it is told that the gateway is connected once and before
    anything else; from then on it is told in turn that its node has joined and that it has
    left, and the last of these is what [getVASTNode] goes by; and the destructor tells it
    of the disconnection if it was told of the connection. *)
Theorem orderly_life evs is_gateway GWstr para a v v' : told a = [] →
  VV_new is_gateway GWstr para (Some a) = Ok v → verse_run v evs = Ok v' →
  (∀ a', vv_app v' = Some a' → life (told a') = Some (vv_connected v', bool_decide (vv_state v' = JOINED)))
  ∧ ∀ e v2 n a2, VV_delete u e v' = Ok (v2, n) → vv_app v2 = Some a2 →
      life (told a2) = Some (false, bool_decide (vv_state v2 = JOINED)).
Proof.
  intros Ta Ev Er. assert (O : orderly v).
  { unfold VV_new in Ev. destruct (_ <? _)%nat; [done|]. injection Ev as <-. split; [|done].
    intros a' [= <-]. cbn. by rewrite Ta. }
  apply run_orderly in Er; [|done]. split; [apply Er|]. intros e v2 n a2 Ed. unfold VV_delete in Ed.
  apply bind_inv in Ed as ([v3 b] & E3 & Ed). apply destroy_orderly in E3; [|done].
  apply bind_inv in Ed as (v4 & E4 & Ed).
  assert (O4 : at_life v4 (Some (false, bool_decide (vv_state v4 = JOINED)))).
  { destruct E3 as [L J]. destruct (vv_connected v3) eqn:Ec; [|injection E4 as <-; exact L].
    apply bind_inv in E4 as (v5 & E5 & E4). injection E4 as <-.
    destruct (tell_at _ [Disconnected] _ _ _ hears_disconnected E5 L) as [[= S1 _ _] L5].
    change (vv_state (set_vconnected v5 false)) with (vv_state v5). rewrite S1.
    intros x Hx. rewrite (L5 x Hx). cbn. by destruct (bool_decide _). }
  destruct (vv_node v4) as [s|]; [apply bind_inv in Ed as (m & _ & Ed)|]; injection Ed as <- _; exact (O4 a2).
Qed.
End life.
