(* ===== verification/VerseSafe.v ===== *)
(** Bringing a node up is safe: from any well-formed state, whatever of network, relay, matcher
    and client is there, the tasks of [VASTVerse::tick] that create them end without a null
    pointer or any other fault. *)

From S2P Require Import Prelude Bytes StdMap Float Serial AddrText Geometry Subscription Message VastBuffer NetManager.
From S2P Require Import NetInterface VastNet VastSend VastJoin MessageQueue Routing QueueSafe Handlers Client ClientSafe.
From S2P Require Import Relay RelaySafe RelayHandle Gateway VonInterfaces VonPeer VSOTypes VSOPeer MatcherHost Matcher.
From S2P Require Import MatcherHandle MatcherSafe MatcherRun Verse VerseLife.
Local Open Scope Z_scope.

(** *** The network layer joins *)

Section joining.
Context {N : Type} `{NetManagerLaws N}.
Implicit Types v : VASTnet N.

Lemma resolve_nonzero a : resolveHostID a ≠ NET_ID_UNASSIGNED.
Proof. intros E. pose proof (resolveHostID_low a) as L. by rewrite E in L. Qed.

Lemma store_mapping_inv v a : net_inv v → net_inv (storeMapping v a).
Proof.
  intros []. unfold storeMapping. destruct (Z.eqb_spec (host_id a) NET_ID_UNASSIGNED) as [|Hne]; [by split|].
  split; cbn; try done. rewrite find_set. by destruct (Z.eqb_spec NET_ID_UNASSIGNED (host_id a)).
Qed.

Lemma register_id_inv v a b : net_inv v → net_inv (registerHostID v (resolveHostID a) b).
Proof.
  intros []. unfold registerHostID. destruct (negb _); [by split|]. cbv zeta.
  pose proof (setID_law (manager v) (resolveHostID a) ni_ready) as (R & _). split; cbn; try done.
  rewrite find_set. destruct (Z.eqb_spec NET_ID_UNASSIGNED (resolveHostID a)) as [E|]; [|done].
  by destruct (resolve_nonzero a).
Qed.

Lemma joining_safe v now ms r : net_inv v → entries v = [] ∨ (r < length (entries v))%nat →
  ∃ v' b, VastNet.isJoined v now ms r = Ok (v', b) ∧ net_inv v'.
Proof.
  intros I Hr. unfold VastNet.isJoined. destruct (negb (isActive _)); [by exists v, false|]. cbv zeta.
  set (o := if negb _ then _ else _). assert (O : ∃ v', o = Ok v' ∧ net_inv v').
  { unfold o. destruct (negb _); [by exists v|]. destruct (length (entries v) =? 0)%nat eqn:E.
    { eexists. split; [reflexivity|]. by apply register_id_inv. }
    destruct (_ <=? _); [|by exists v]. destruct Hr as [Hr|Hr]; [by rewrite Hr in E|].
    cbn [with_times entries]. destruct (lookup_lt_is_Some_2 _ _ Hr) as [entry He].
    rewrite (at_idx_ok _ _ _ He), bind_ok. destruct (request_built (getAddress (manager v))) as (m1 & m2 & E1 & E2 & C).
    set (w := storeMapping _ _).
    assert (Iw : net_inv w). { unfold w. apply store_mapping_inv. destruct I. by split. }
    assert (Ea : getAddress (manager w) = getAddress (manager v)).
    { unfold w, storeMapping. by destruct (_ =? _). }
    rewrite Ea, E1, bind_ok. cbn beta iota. rewrite E2, bind_ok. cbn beta iota.
    destruct (send_safe now w (resolveHostID entry) m2 true ID_REQUEST Iw (proj1 C)) as (v2 & m3 & k & -> & S & _).
    rewrite bind_ok. exists v2. split; [done|]. apply S. }
  destruct O as (v' & -> & I'). rewrite bind_ok. by eexists _, _.
Qed.
End joining.

(** *** The invariant *)

Section safe.
Context {N V A : Type} `{NetManagerLaws N} `{VoronoiLaws V} `{VASTCallback N V A}.
Context (u : node_uninit).
Implicit Types (v : VASTVerse N V A) (e : tick_env) (s : MessageQueue N (vast_handler V)).

(** A handler in its group, in its invariant *)
Definition slot_ok (p : Z * vast_handler V) : Prop :=
  match snd p with
  | AsRelay r => fst p = MSG_GROUP_VAST_RELAY ∧ relay_inv r
  | AsMatcher m => fst p = MSG_GROUP_VAST_MATCHER ∧ ∃ me, vm_inv me m
  | AsClient c => fst p = MSG_GROUP_VAST_CLIENT ∧ client_inv c
  end.

Definition node_ok s : Prop := net_inv (net (queue s)) ∧ Forall slot_ok (handlers s).

Record verse_ok v : Prop := mk_verse_ok {
  vo_node : match vv_node v with
            | Some s => node_ok s
            | None => ∀ now, ∃ n, startup (para_binding (vv_para v)) now = Ok n ∧ ready n
            end;
  vo_limits : 0 ≤ para_client_limit (vv_para v) ∧ 0 ≤ para_relay_limit (vv_para v);
  vo_client : vv_state v = JOINING ∨ vv_state v = JOINING_2 → the_client v ≠ None }.

Lemma slot_at s g h : node_ok s → find g (handlers s) = Some h → slot_ok (g, h).
Proof. intros [_ F] E. apply find_In in E. exact (proj1 (Forall_forall _ _) F _ E). Qed.

Lemma slot_set s q g h : node_ok s → net_inv (net q) → slot_ok (g, h) → node_ok (mkMQ q (set g h (handlers s))).
Proof. intros [_ F] I S. split; [exact I|]. cbn. by apply Forall_set. Qed.

Lemma relay_absent s : node_ok s → relay_in (handlers s) = None → find MSG_GROUP_VAST_RELAY (handlers s) = None.
Proof.
  intros I. unfold relay_in. destruct (find _ _) as [h|] eqn:E; [|done]. apply (slot_at _ _ _ I) in E.
  destruct h as [r|m|c]; [done|by destruct E|by destruct E].
Qed.

Lemma matcher_absent s : node_ok s → matcher_in (handlers s) = None → find MSG_GROUP_VAST_MATCHER (handlers s) = None.
Proof.
  intros I. unfold matcher_in. destruct (find _ _) as [h|] eqn:E; [|done]. apply (slot_at _ _ _ I) in E.
  destruct h as [r|m|c]; [by destruct E|done|by destruct E].
Qed.

Lemma client_absent s : node_ok s → client_in (handlers s) = None → find MSG_GROUP_VAST_CLIENT (handlers s) = None.
Proof.
  intros I. unfold client_in. destruct (find _ _) as [h|] eqn:E; [|done]. apply (slot_at _ _ _ I) in E.
  destruct h as [r|m|c]; [by destruct E|by destruct E|done].
Qed.

Lemma matcher_slot s m : node_ok s → matcher_in (handlers s) = Some m → ∃ me, vm_inv me m.
Proof.
  intros I. unfold matcher_in. destruct (find _ _) as [h|] eqn:E; [|done]. apply (slot_at _ _ _ I) in E.
  destruct h as [r|m'|c]; try done. intros [= ->]. apply E.
Qed.

Lemma client_slot s c : node_ok s → client_in (handlers s) = Some c → client_inv c.
Proof.
  intros I. unfold client_in. destruct (find _ _) as [h|] eqn:E; [|done]. apply (slot_at _ _ _ I) in E.
  destruct h as [r|m'|c']; try done. intros [= ->]. apply E.
Qed.

(** What may be registered *)
Definition startable (h : vast_handler V) : Prop :=
  match h with
  | AsRelay r => relay_inv r ∧ clients r = []
  | AsMatcher m => ∃ matcher limit static coord, m = VM_new matcher limit static coord
  | AsClient c => client_inv c
  end.
Definition group_of (h : vast_handler V) : Z :=
  match h with AsRelay _ => MSG_GROUP_VAST_RELAY | AsMatcher _ => MSG_GROUP_VAST_MATCHER | AsClient _ => MSG_GROUP_VAST_CLIENT end.

Lemma handler_init_ok (q : mqueue N) h : net_inv (net q) → startable h →
  net_inv (net (fst (initHandler (MessageHandler := vast_handlers u) q h)))
  ∧ slot_ok (group_of h, snd (initHandler (MessageHandler := vast_handlers u) q h))
  ∧ group_of (snd (initHandler (MessageHandler := vast_handlers u) q h)) = group_of h.
Proof.
  intros I. destruct h as [r|m|c]; cbn [startable initHandler vast_handlers group_of].
  - intros [Ir Ec]. pose proof (R_init_good q r (conj I Ir) Ec) as [I1 I2].
    destruct (R_initHandler q r) as [q' r']. done.
  - intros (a & b & st & co & ->). pose proof (init_good (V := V) (hostID q) q a b st co I eq_refl) as [I1 I2].
    destruct (VM_initHandler q _) as [q' m']. split; [done|]. split; [|done]. split; [done|]. by exists (hostID q).
  - intros Ic. split; [exact I|]. split; [|done]. split; [done|]. by apply (client_inv_same c).
Qed.

Lemma register_ok s h : node_ok s → startable h → find (group_of h) (handlers s) = None →
  ∃ h', handlers (fst (registerHandler (H1 := vast_handlers u) s (group_of h) h)) = set (group_of h) h' (handlers s)
  ∧ group_of h' = group_of h ∧ node_ok (fst (registerHandler (H1 := vast_handlers u) s (group_of h) h)).
Proof.
  intros I F E. pose proof (handler_init_ok (queue s) h (proj1 I) F) as (Iq & Is & Ig). unfold registerHandler.
  destruct (has _ _) eqn:Eh; [apply has_find in Eh as [x Eh]; congruence|].
  destruct (initHandler (queue s) h) as [q h']. cbn [fst snd] in *. exists h'. split; [done|]. split; [done|]. by apply slot_set.
Qed.

(** *** The steps *)

(** A step in which the client stays or comes *)
Definition forward v v' : Prop := status v' = status v ∧ (the_client v ≠ None → the_client v' ≠ None).

Lemma forward_ok v v' : verse_ok v → forward v v' → vv_para v' = vv_para v →
  match vv_node v' with Some s => node_ok s | None => ∀ now, ∃ n, startup (para_binding (vv_para v')) now = Ok n ∧ ready n end →
  verse_ok v'.
Proof. intros [] [[= E _ _] F] Ep Hn. split; [exact Hn|by rewrite Ep|]. rewrite E. intros J. by apply F, vo_client0. Qed.

Definition arrived v : Prop := ∃ s m, vv_node v = Some s ∧ matcher_in (handlers s) = Some m.

Lemma entry_in (n : VASTnet N) r : entries n = [] ∨ (entry_of n r < length (entries n))%nat.
Proof. unfold entry_of. destruct (entries n) as [|x l]; [by left|right]. by apply Nat.mod_upper_bound. Qed.

Lemma start_node_ok now v : verse_ok v → vv_node v = None → ∃ v', start_node now v = Ok v' ∧ verse_ok v' ∧ forward v v'.
Proof.
  intros O En. unfold start_node. destruct (addEntries _ _) as [n es] eqn:Ea. unfold MQ_new, VN_start.
  pose proof (vo_node _ O) as S. rewrite En in S. destruct (S now) as (b & Eb & R).
  unfold addEntries in Ea. injection Ea as <- <-. cbn [manager VN_new with_entries]. rewrite Eb, !bind_ok.
  assert (F : forward v (set_vnode (set_vgateway v (validateIPAddress (VN_new (para_binding (vv_para v))) <$> vv_entries v) (vv_gateway v))
     (Some (mkMQ (mkQ (with_manager (with_entries (VN_new (para_binding (vv_para v))) (entries (VN_new (para_binding (vv_para v))) ++ (validateIPAddress (VN_new (para_binding (vv_para v))) <$> vv_entries v))) b) [] NET_ID_UNASSIGNED (Message_new 0 0) 0) [])))).
  { split; [done|]. unfold the_client. by rewrite En. }
  eexists. split; [reflexivity|]. split; [|exact F]. apply (forward_ok v); [done|exact F|done|]. split; [|constructor].
  split; cbn; try done. intros []; split; constructor.
Qed.

(** [set_vnode] with a node in which the client stays *)
Lemma node_step v s s' : verse_ok v → vv_node v = Some s → node_ok s' →
  (client_in (handlers s) ≠ None → client_in (handlers s') ≠ None) →
  verse_ok (set_vnode v (Some s')) ∧ forward v (set_vnode v (Some s')).
Proof.
  intros O En I K. assert (F : forward v (set_vnode v (Some s'))).
  { split; [done|]. unfold the_client. by rewrite En. }
  split; [|exact F]. by apply (forward_ok v).
Qed.

Lemma client_in_set g h (hs : list (Z * vast_handler V)) : g ≠ MSG_GROUP_VAST_CLIENT →
  client_in (set g h hs) = client_in hs.
Proof. intros Hg. unfold client_in. rewrite find_set. by rewrite (proj2 (Z.eqb_neq _ _) (not_eq_sym Hg)). Qed.

Lemma initialized_ok e k v : verse_ok v →
  ∃ v' b, isInitialized u e k v = Ok (v', b) ∧ verse_ok v' ∧ forward v v' ∧ (b = true → arrived v').
Proof.
  intros O. unfold isInitialized. destruct (vv_node v) as [s|] eqn:En.
  2: { destruct (start_node_ok (te_now e) v O En) as (v' & -> & O' & F). rewrite bind_ok. by exists v', false. }
  pose proof (vo_node _ O) as I. rewrite En in I.
  destruct (joining_safe (net (queue s)) (te_now e) (te_ms e) _ (proj1 I) (entry_in _ k)) as (n & j & -> & In).
  rewrite bind_ok. cbn beta iota zeta. set (s1 := with_queue s _). set (v1 := set_vnode v (Some s1)).
  assert (I1 : node_ok s1) by (split; [exact In|apply I]).
  destruct (node_step v s s1 O En I1) as [O1 F1]; [done|]. fold v1 in O1, F1.
  destruct (negb j); [by exists v1, false|]. destruct (relay_in (handlers s1)) as [r|] eqn:Er.
  - destruct (negb (R_isJoined r)); [by exists v1, false|]. destruct (matcher_in (handlers s1)) as [m|] eqn:Em.
    { exists v1, true. split; [done|]. split; [done|]. split; [done|]. intros _. by exists s1, m. }
    destruct (register_ok s1 (AsMatcher (new_matcher v1)) I1) as (h' & Eh & Eg & I2); [by do 4 eexists|by apply matcher_absent|].
    cbn [group_of] in *. destruct (node_step v s _ O En I2) as [O2 F2].
    { rewrite Eh. by rewrite client_in_set. }
    eexists _, true. split; [reflexivity|]. split; [exact O2|]. split; [exact F2|]. intros _. eexists.
    destruct h' as [r'|m'|c']; try done. exists m'. split; [reflexivity|]. rewrite Eh. unfold matcher_in. by rewrite find_set_eq.
  - set (v2 := set_vgateway v1 _ _). assert (O2 : verse_ok v2) by (destruct O1; by split).
    destruct (_ =? _); [by exists v2, false|].
    destruct (register_ok s1 (AsRelay (new_relay v2 (te_random e))) I1) as (h' & Eh & Eg & I2);
      [split; [apply new_relay_inv; apply (vo_limits _ O)|done]|by apply relay_absent|].
    cbn [group_of] in *. destruct (node_step v2 s1 _ O2 eq_refl I2) as [O3 F3].
    { rewrite Eh. by rewrite client_in_set. }
    eexists _, false. split; [reflexivity|]. split; [exact O3|]. split; [|done].
    split; [done|]. intros K. apply F3. by apply F1.
Qed.

Lemma client_slot_ok c : client_inv c → slot_ok (MSG_GROUP_VAST_CLIENT, AsClient c).
Proof. by split. Qed.

Lemma put_client_step v s q c : verse_ok v → vv_node v = Some s → net_inv (net q) → client_inv c →
  verse_ok (set_vnode v (Some (put_client s q c))) ∧ the_client (set_vnode v (Some (put_client s q c))) = Some c.
Proof.
  intros O En Iq Ic. pose proof (vo_node _ O) as I. rewrite En in I. unfold put_client.
  destruct (node_step v s (mkMQ q (set MSG_GROUP_VAST_CLIENT (AsClient c) (handlers s))) O En) as [O1 _].
  - apply slot_set; [done|done|by apply client_slot_ok].
  - intros _. cbn [handlers]. unfold client_in. by rewrite find_set_eq.
  - split; [exact O1|]. unfold the_client. cbn [vv_node set_vnode]. change (client_in (set MSG_GROUP_VAST_CLIENT (AsClient c) (handlers s)) = Some c).
    unfold client_in. by rewrite find_set_eq.
Qed.

Lemma create_client_ok e gw w v : verse_ok v →
  ∃ v' b, createClient u e gw w v = Ok (v', b) ∧ verse_ok v' ∧ forward v v' ∧ (b = true → the_client v' ≠ None).
Proof.
  intros O. unfold createClient. destruct (initialized_ok e (te_entry2 e) v O) as (v1 & b & -> & O1 & F1 & Ar).
  rewrite bind_ok. cbn beta iota. destruct b; cbn [negb]; [|by exists v1, false].
  destruct (Ar eq_refl) as (s & m & En & Em). rewrite En. pose proof (vo_node _ O1) as I. rewrite En in I.
  destruct (client_in (handlers s)) as [c|] eqn:Ec.
  { exists v1, true. split; [done|]. split; [done|]. split; [done|]. intros _. unfold the_client. rewrite En. cbn. by rewrite Ec. }
  rewrite Em. destruct (matcher_slot s m I Em) as [me Im]. destruct (negb (VM_isJoined m)).
  - destruct (matcher_join_ok me (te_now e) (queue s) m gw (conj (proj1 I) Im)) as (q & m' & k & -> & Iq & Im').
    rewrite bind_ok. cbn beta iota. destruct (node_step v1 s (put_matcher s q m') O1 En) as [O2 F2].
    { apply slot_set; [done|done|]. split; [done|by exists me]. }
    { cbn [handlers put_matcher]. by rewrite client_in_set. }
    eexists _, false. split; [reflexivity|]. split; [exact O2|]. split; [|done].
    split; [etransitivity; [apply F2|apply F1]|]. intros K. by apply F2, F1.
  - cbv zeta. destruct (register_ok s (AsClient (VASTClient_new (mu_sub_world (nu_matcher u)))) I) as (h' & Eh & Eg & I2);
      [apply new_client_inv|by apply client_absent|]. cbn [group_of] in *. set (s2 := fst _) in *.
    destruct h' as [r'|m'|c]; try done. assert (Es : client_in (handlers s2) = Some c) by (rewrite Eh; unfold client_in; by rewrite find_set_eq).
    rewrite Es. pose proof (client_slot s2 c I2 Es) as Ic.
    destruct (join_safe (te_now e) (te_ms e) (queue s2) (relay_seen (handlers s2)) c gw w (proj1 I2) Ic) as (q & c' & k & -> & Iq & Ic').
    rewrite bind_ok. cbn beta iota. assert (K2 : client_in (handlers s) ≠ None → client_in (handlers s2) ≠ None) by by rewrite Es.
    destruct (node_step v1 s s2 O1 En I2 K2) as [O2 _]. destruct (put_client_step _ s2 q c' O2 eq_refl Iq Ic') as [O3 T3].
    eexists _, true. split; [reflexivity|]. split; [exact O3|]. change (set_vnode (set_vnode v1 (Some s2)) ?x) with (set_vnode v1 x) in T3.
    split; [|by rewrite T3]. split; [apply F1|by rewrite T3].
Qed.

(** The application's part *)
Definition sockets v : nat := match vv_node v with Some s => length (socket_queue (inq (net (queue s)))) | None => 0 end.
Definition unread v : nat := match the_client v with Some c => length (msglist c) | None => 0 end.

(** [v'] is well-formed, there is still a client if there was one, and no more to read. *)
Definition used v v' : Prop :=
  verse_ok v' ∧ (the_client v ≠ None → the_client v' ≠ None) ∧ (vv_node v ≠ None → vv_node v' ≠ None)
  ∧ (sockets v' ≤ sockets v)%nat ∧ (unread v' ≤ unread v)%nat.

Class SafeApp := {
  connected_safe i v : verse_ok v → ∃ v', gatewayConnected i v = Ok v' ∧ verse_ok v';
  joined_safe v : verse_ok v → ∃ v', nodeJoined v = Ok v' ∧ verse_ok v';
  left_safe v : verse_ok v → ∃ v', nodeLeft v = Ok v' ∧ verse_ok v';
  per_tick_safe v : verse_ok v → ∃ v', performPerTickTasks v = Ok v' ∧ used v v';
  per_second_safe t v : verse_ok v → ∃ v', performPerSecondTasks t v = Ok v' ∧ used v v';
  socket_safe m v : verse_ok v → ∃ v' b, processSocketMessage m v = Ok (v', b) ∧ used v v';
  message_safe m v : verse_ok v → ∃ v' b, processMessage m v = Ok (v', b) ∧ used v v' }.
Context `{SafeApp}.

Lemma tell_safe f v : (∀ v, verse_ok v → ∃ v', f v = Ok v' ∧ verse_ok v') → verse_ok v → ∃ v', tell f v = Ok v' ∧ verse_ok v'.
Proof. intros Hf O. unfold tell. destruct (vv_app v); [by apply Hf|by exists v]. Qed.

(** States without a client in the making *)
Lemma at_rest v st : verse_ok v → st = ABSENT ∨ st = JOINED → verse_ok (set_vstate v st).
Proof. intros [] [-> | ->]; split; try done; cbn; by intros [|]. Qed.

Lemma erase_client s : node_ok s → node_ok (fst (unregisterHandler s MSG_GROUP_VAST_CLIENT)).
Proof. intros [In F]. unfold unregisterHandler. destruct (has _ _); [|done]. split; [exact In|]. by apply Forall_erase. Qed.

Lemma waited_ok v period back : verse_ok v → (verse_ok (set_vtimeout v 0) → verse_ok (back (set_vtimeout v 0))) → verse_ok (waited v period back).
Proof. intros O B. unfold waited. assert (∀ t, verse_ok (set_vtimeout v t)) by by destruct O. destruct (_ <? _); auto. Qed.

Lemma advance_ok e period info v : verse_ok v → ∃ v', advance u e period info v = Ok v' ∧ verse_ok v'.
Proof.
  intros O. unfold advance. destruct (vv_state v) eqn:Es; try (by exists v).
  - destruct (create_client_ok e (vv_gateway v) (world_id info) v O) as (v1 & b & -> & O1 & _ & C).
    rewrite bind_ok. destruct b; [|by exists v1]. eexists. split; [reflexivity|]. destruct O1; split; try done.
    intros _. by apply C.
  - pose proof (vo_client _ O (or_introl Es)) as C. pose proof (vo_node _ O) as I. unfold the_client in *.
    destruct (vv_node v) as [s|] eqn:En; [|done]. cbn in *. destruct (client_in (handlers s)) as [c|] eqn:Ec; [|done].
    destruct (VC_isJoined c).
    + destruct (subscribe_safe (te_now e) (te_ms e) (queue s) (relay_seen (handlers s)) c (sub_aoi info) (layer info) (proj1 I) (client_slot s c I Ec))
        as (q & c' & k & -> & Iq & Ic). rewrite bind_ok. cbn beta iota.
      destruct (put_client_step v s q c' O En Iq Ic) as [O1 T1]. eexists. split; [reflexivity|].
      destruct O1 as [P1 P2 P3]. split; [exact P1|exact P2|]. intros _.
      change (the_client (set_vnode v (Some (put_client s q c'))) ≠ None). by rewrite T1.
    + eexists. split; [reflexivity|]. apply waited_ok; [done|]. intros [O1 O2 O3].
      unfold destroyClient. cbn [vv_node set_vtimeout] in *. rewrite En in *. split; [by apply erase_client|done|]. cbn. by intros [|].
  - pose proof (vo_client _ O (or_intror Es)) as C. destruct (the_client v) as [c|] eqn:Ec; [|done]. destruct (negb _).
    + apply (tell_safe nodeJoined); [apply joined_safe|]. apply at_rest; [done|by right].
    + eexists. split; [reflexivity|]. apply waited_ok; [done|]. intros [O1 O2 O3]. split; [done|done|]. intros _.
      change (the_client v ≠ None). congruence.
Qed.

Lemma join_tasks_safe e period v : verse_ok v → ∃ v', join_tasks u e period v = Ok v' ∧ verse_ok v'.
Proof.
  intros O. unfold join_tasks. destruct (initialized_ok e (te_entry1 e) v O) as (v1 & b & -> & O1 & _).
  rewrite bind_ok. cbn beta iota. destruct b; cbn [negb]; [|by exists v1].
  set (o := if vv_connected v1 then _ else _). assert (Ho : ∃ v2, o = Ok v2 ∧ verse_ok v2).
  { unfold o. destruct (vv_connected v1); [by exists v1|].
    destruct (tell_safe (λ v, gatewayConnected (verse_id v) v) v1 (λ v, connected_safe _ v) O1) as (v2 & -> & O2). rewrite bind_ok.
    eexists. split; [reflexivity|]. by destruct O2. }
  destruct Ho as (v2 & -> & O2). rewrite bind_ok. destruct (bool_decide _), (vv_info v2) as [|info l]; try (by exists v2).
  - apply (tell_safe nodeLeft); [apply left_safe|]. apply at_rest; [done|by left].
  - by apply advance_ok.
Qed.

(** *** The rest of a tick *)

Lemma used_refl v : verse_ok v → used v v.
Proof. by split. Qed.

Lemma used_step v1 v2 v3 : used v1 v2 → used v2 v3 → used v1 v3.
Proof. intros (O1 & C1 & N1 & S1 & U1) (O2 & C2 & N2 & S2 & U2). split; [done|]. split; [auto|]. split; [auto|]. lia. Qed.

Lemma tell_used f v : (∀ v, verse_ok v → ∃ v', f v = Ok v' ∧ used v v') → verse_ok v → ∃ v', tell f v = Ok v' ∧ used v v'.
Proof. intros Hf O. unfold tell. destruct (vv_app v); [by apply Hf|]. exists v. split; [done|by apply used_refl]. Qed.

Lemma periodic_used v t st : verse_ok v → used v (set_vperiodic v t st).
Proof. intros []. by split. Qed.

(** One message is taken from the sockets. *)
Lemma receive_socket_used v s : verse_ok v → vv_node v = Some s →
  used v (set_vnode v (Some (with_queue s (with_net (queue s) (fst (receiveSocket (net (queue s))))))))
  ∧ (snd (receiveSocket (net (queue s))) ≠ None →
     (sockets (set_vnode v (Some (with_queue s (with_net (queue s) (fst (receiveSocket (net (queue s)))))))) < sockets v)%nat).
Proof.
  intros O En. pose proof (vo_node _ O) as I. rewrite En in I.
  assert (Ir : net_inv (fst (receiveSocket (net (queue s)))) ∧
    length (socket_queue (inq (fst (receiveSocket (net (queue s)))))) = pred (length (socket_queue (inq (net (queue s)))))).
  { destruct I as [[R B Z F] _]. unfold receiveSocket. destruct (socket_queue _); (split; [by split|done]). }
  destruct Ir as [Ir El]. destruct (node_step v s (with_queue s (with_net (queue s) (fst (receiveSocket (net (queue s)))))) O En) as [O1 [_ F]];
    [split; [exact Ir|apply I]|done|].
  assert (Es : sockets (set_vnode v (Some (with_queue s (with_net (queue s) (fst (receiveSocket (net (queue s)))))))) = pred (sockets v)).
  { unfold sockets. rewrite En. exact El. }
  split.
  - split; [exact O1|]. split; [exact F|]. split; [done|]. rewrite Es. split; [lia|]. unfold unread, the_client. rewrite En. done.
  - intros Hm. rewrite Es. unfold sockets. rewrite En. unfold receiveSocket in Hm.
    destruct (socket_queue (inq (net (queue s)))); [by destruct Hm|]. cbn. lia.
Qed.

Lemma socket_loop_safe fuel v : verse_ok v → vv_node v ≠ None → (sockets v ≤ fuel)%nat →
  ∃ v', socket_loop fuel v = Ok v' ∧ used v v'.
Proof.
  revert v. induction fuel as [|fuel IH]; intros v O En Hf; cbn [socket_loop]; (destruct (vv_node v) as [s|] eqn:Es; [|done]);
    destruct (receive_socket_used v s O Es) as [U L]; destruct (receiveSocket (net (queue s))) as [n m]; cbn [fst snd] in *; cbv zeta;
    (destruct m as [m|]; [specialize (L ltac:(done))|eexists; by split]); (case_bool_decide; [eexists; by split|]); [lia|].
  destruct (socket_safe m _ (proj1 U)) as (v2 & b & -> & U2). rewrite bind_ok. pose proof (used_step _ _ _ U U2) as U3. destruct b; [|by exists v2].
  destruct (IH v2) as (v' & -> & U4); [apply U3|apply U3; congruence|destruct U2 as (_ & _ & _ & ? & _); lia|].
  exists v'. split; [done|by eapply used_step].
Qed.

Lemma receive_used v s c : verse_ok v → vv_node v = Some s → client_in (handlers s) = Some c →
  let v' := set_vnode v (Some (put_client s (queue s) (fst (VC_receive c)))) in
  used v v' ∧ the_client v' = Some (fst (VC_receive c)) ∧ (snd (VC_receive c) ≠ None → (unread v' < unread v)%nat).
Proof.
  intros O En Ec v'. pose proof (vo_node _ O) as I. rewrite En in I. pose proof (client_slot s c I Ec) as Ic.
  assert (Ir : client_inv (fst (VC_receive c)) ∧ length (msglist (fst (VC_receive c))) = pred (length (msglist c))).
  { destruct Ic as [D K U M]. unfold VC_receive. destruct (msglist c); (split; [|done]); split; try done. by inversion M. }
  destruct Ir as [Ir El]. destruct (put_client_step v s (queue s) _ O En (proj1 I) Ir) as [O1 T]. fold v' in O1, T.
  assert (Eu : unread v = length (msglist c)). { unfold unread, the_client. rewrite En. cbn. by rewrite Ec. }
  assert (Eu' : unread v' = pred (unread v)) by (unfold unread at 1; by rewrite T, El, Eu).
  split; [|split; [exact T|]].
  - split; [exact O1|]. split; [by rewrite T|]. split; [done|]. split; [|lia]. unfold sockets. rewrite En. reflexivity.
  - intros Hm. rewrite Eu', Eu. unfold VC_receive in Hm. destruct (msglist c); [by destruct Hm|]. cbn. lia.
Qed.

Lemma message_loop_safe fuel v : verse_ok v → the_client v ≠ None → (unread v ≤ fuel)%nat →
  ∃ v', message_loop fuel v = Ok v' ∧ used v v'.
Proof.
  revert v. induction fuel as [|fuel IH]; intros v O Hc Hf; cbn [message_loop]; (destruct (vv_node v) as [s|] eqn:Es; [|by unfold the_client in Hc; rewrite Es in Hc]);
    (destruct (the_client v) as [c|] eqn:Ec; [|done]); (assert (Ei : client_in (handlers s) = Some c) by by unfold the_client in Ec; rewrite Es in Ec);
    destruct (receive_used v s c O Es Ei) as (U & T & L); destruct (VC_receive c) as [c' m]; cbn [fst snd] in *; cbv zeta;
    (destruct m as [m|]; [specialize (L ltac:(done))|eexists; by split]); [lia|].
  destruct (message_safe m _ (proj1 U)) as (v2 & b & -> & U2). rewrite bind_ok. pose proof (used_step _ _ _ U U2) as U3. destruct b; [|by exists v2].
  destruct (IH v2) as (v' & -> & U4); [apply U3|apply U2; by rewrite T|destruct U2 as (_ & _ & _ & _ & ?); lia|].
  exists v'. split; [done|by eapply used_step].
Qed.

(** The node's queue runs: it ends in a well-formed state. *)
Definition queue_runs e v v' : Prop := queue_tick u e v = Ok v' ∧ verse_ok v'.

Lemma app_tasks_safe e v : verse_ok v → (sockets v ≤ te_sockets e)%nat → (unread v ≤ te_messages e)%nat →
  ∃ v' b, app_tasks e v = Ok (v', b) ∧ verse_ok v'.
Proof.
  intros O Hs Hm. unfold app_tasks. destruct (vv_node v) as [s|] eqn:En; [|by exists v, false].
  assert (P : ∃ v1 b, second_tasks e s v = Ok (v1, b) ∧ used v v1).
  { unfold second_tasks. cbv zeta. destruct (_ <=? _); [|exists v, false; split; [done|by apply used_refl]].
    destruct (tell_used (performPerSecondTasks (timestamp (te_now e) (queue s))) (set_vperiodic v (timestamp (te_now e) (queue s))
      (record_sizes (vv_stats v) (getSendSize (net (queue s)) 0) (getReceiveSize (net (queue s)) 0)))) as (v1 & -> & U); [apply per_second_safe|by apply periodic_used|].
    rewrite bind_ok. eexists _, true. split; [reflexivity|]. eapply used_step; [by apply periodic_used|exact U]. }
  destruct P as (v1 & b & -> & U1). rewrite bind_ok. cbn beta iota. destruct U1 as (O1 & C1 & N1 & S1 & M1).
  assert (P2 : ∃ v2, tell (socket_loop (te_sockets e)) v1 = Ok v2 ∧ used v1 v2).
  { unfold tell. destruct (vv_app v1); [|exists v1; split; [done|by apply used_refl]]. apply socket_loop_safe; [done|apply N1; congruence|lia]. }
  destruct P2 as (v2 & -> & (O2 & C2 & N2 & S2 & M2)). rewrite bind_ok.
  assert (P3 : ∃ v3, (if bool_decide (vv_state v2 = JOINED) && bool_decide (the_client v2 ≠ None) then tell (message_loop (te_messages e)) v2 else Ok v2) = Ok v3 ∧ verse_ok v3).
  { destruct (bool_decide (vv_state v2 = JOINED)); [|by exists v2]. case_bool_decide as Hc; cbn [andb]; [|by exists v2].
    unfold tell. destruct (vv_app v2); [|by exists v2]. destruct (message_loop_safe (te_messages e) v2 O2 Hc) as (v3 & -> & U3); [lia|].
    exists v3. split; [done|apply U3]. }
  destruct P3 as (v3 & -> & O3). rewrite bind_ok. by exists v3, b.
Qed.

(** C19: A tick never fails. From any state a node can be in while it is brought up, runs or is
    taken down, the tick creates what is missing - network, relay, matcher, client - and goes through
    the stages without following a null pointer, asking an empty container or looping for
    ever; if the handlers in the queue do their part, and the callbacks leave the node usable, so
    does the rest of the tick, for any number of received messages. *)
Theorem tick_never_fails e v : verse_ok v →
  ∃ v1, join_tasks u e (retry_period e v) v = Ok v1 ∧ verse_ok v1
  ∧ ∀ v2, queue_runs e v1 v2 → (sockets v2 ≤ te_sockets e)%nat → (unread v2 ≤ te_messages e)%nat →
    ∃ v' b, VV_tick u e v = Ok (v', b) ∧ verse_ok v'.
Proof.
  intros O. destruct (join_tasks_safe e (retry_period e v) v O) as (v1 & E1 & O1). exists v1. split; [exact E1|]. split; [exact O1|].
  intros v2 (E2 & O2) Hs Hm. unfold VV_tick. rewrite E1, bind_ok, E2, bind_ok.
  destruct (tell_used performPerTickTasks v2 per_tick_safe O2) as (v3 & -> & (O3 & _ & _ & S3 & M3)). rewrite bind_ok.
  apply app_tasks_safe; [done|lia|lia].
Qed.
End safe.
