(* ===== verification/VerseSpec.v ===== *)
(** What becomes of a node that is created, removed and created again. *)

From S2P Require Import Prelude Bytes StdMap Float Serial AddrText Geometry Subscription Message VastBuffer NetManager.
From S2P Require Import NetInterface VastNet VastSend VastJoin MessageQueue Routing QueueSafe Handlers Client Relay.
From S2P Require Import Gateway VonInterfaces VonPeer VSOTypes VSOPeer MatcherHost Matcher MatcherHandle MatcherRun Verse VerseLife.
Local Open Scope Z_scope.

(** *** A round of the queue neither adds nor removes handlers *)

Section groups.
Context {N H : Type} `{NetManager N} `{MessageHandler N H}.
Implicit Types s : MessageQueue N H.

Definition same_groups s s' : Prop :=
  (∀ g, has g (handlers s') = has g (handlers s)) ∧ (ordered (handlers s) → ordered (handlers s')).

Lemma groups_refl s q : same_groups s (with_queue s q).
Proof. by split. Qed.

Lemma groups_step s1 s2 s3 : same_groups s1 s2 → same_groups s2 s3 → same_groups s1 s3.
Proof. intros [E1 O1] [E2 O2]. split; [intros g; by rewrite E2, E1|auto]. Qed.

Lemma set_groups s q g h : has g (handlers s) = true → same_groups s (mkMQ q (set g h (handlers s))).
Proof.
  intros Hg. split; [|apply ordered_set]. intros k. cbn. rewrite has_set. destruct (Z.eqb_spec k g) as [->|]; [by rewrite Hg|done].
Qed.

Lemma call_groups now ms s g msg s' msg' b : call_handler now ms s g msg = Ok (s', msg', b) → same_groups s s'.
Proof.
  unfold call_handler. destruct (find g (handlers s)) as [h|] eqn:E; [|by intros [= <- _ _]].
  intros X. apply bind_inv in X as ([[[q h'] m'] ok] & _ & X). injection X as <- _ _. apply set_groups. unfold has. by rewrite E.
Qed.

Lemma call_all_groups now ms s gs msg s' msg' : call_all now ms s gs msg = Ok (s', msg') → same_groups s s'.
Proof.
  revert s msg. induction gs as [|g gs IH]; intros s msg; cbn [call_all]; [by intros [= <- _]|].
  intros X. apply bind_inv in X as ([[s1 m1] ok] & E1 & X). apply call_groups in E1. apply IH in X. by apply (groups_step _ s1).
Qed.

Lemma process_message_groups now ms s msg f s' k : process_message now ms s msg f = Ok (s', k) → same_groups s s'.
Proof.
  unfold process_message. destruct (_ =? _).
  { intros X. apply bind_inv in X as ([s1 m1] & E1 & X). injection X as <- _. by eapply call_all_groups. }
  destruct (negb _); [|by intros [= <- _]]. cbv zeta. destruct (filter _ _) as [|t ts]; [by intros [= <- _]|].
  destruct (negb _); [by intros [= <- _]|]. intros X. apply bind_inv in X as ([[s1 m1] ok] & E1 & X). injection X as <- _.
  by apply call_groups in E1.
Qed.

Lemma process_messages_groups time now ms s s' k : processMessages time now ms s = Ok (s', k) → same_groups s s'.
Proof.
  revert s s' k. induction time as [|time IH]; intros s s' k; cbn [processMessages]; destruct (receiveMessage _ _) as [v r]; cbv zeta;
    (destruct r as [[m f]|]; [|by intros [= <- _]]); [by intros [= <- _]|].
  intros X. apply bind_inv in X as ([s1 k1] & E1 & X). apply bind_inv in X as ([s2 k2] & E2 & X). injection X as <- _.
  apply process_message_groups in E1. apply IH in E2. by apply (groups_step _ s1).
Qed.

Lemma post_groups now ms s gs s' : post_all now ms s gs = Ok s' → same_groups s s'.
Proof.
  revert s. induction gs as [|g gs IH]; intros s; cbn [post_all]; [by intros [= <-]|].
  intros X. apply bind_inv in X as (s1 & E1 & X). apply IH in X. apply (groups_step _ s1); [|done]. clear X IH.
  destruct (find g (handlers s)) as [h|] eqn:E; [|by injection E1 as <-].
  apply bind_inv in E1 as ([q h'] & _ & E1). injection E1 as <-. apply set_groups. unfold has. by rewrite E.
Qed.

Lemma tick_groups fuel t1 t2 now ms junk s s' : MQ_tick fuel t1 t2 now ms junk s = Ok s' → same_groups s s'.
Proof.
  unfold MQ_tick. intros X. apply bind_inv in X as ([v k] & _ & X). apply bind_inv in X as ([s1 k1] & E1 & X).
  apply bind_inv in X as (s2 & E2 & X). apply bind_inv in X as ([v2 k2] & _ & X). apply bind_inv in X as ([s3 k3] & E3 & X).
  injection X as <-. apply process_messages_groups in E1, E3. apply post_groups in E2. apply (groups_step _ s1); [done|]. by apply (groups_step _ s2).
Qed.
End groups.

Section spec.
Context {N V A : Type} `{NetManager N} `{Voronoi V} `{VASTCallback N V A}.
Context (u : node_uninit).
Implicit Types (v : VASTVerse N V A) (e : tick_env) (s : MessageQueue N (vast_handler V)).

(** No client is registered, and nobody calls back. *)
Definition clientless v : Prop :=
  match vv_node v with Some s => has MSG_GROUP_VAST_CLIENT (handlers s) = false | None => True end ∧ vv_app v = None.

(** A node is wanted, and taken for joined, but there is none. *)
Definition lost v : Prop := vv_state v = JOINED ∧ vv_info v ≠ [] ∧ clientless v.

Lemma clientless_none v : clientless v → the_client v = None.
Proof.
  intros [Hn _]. unfold the_client. destruct (vv_node v) as [s|]; [|done]. cbn. unfold client_in.
  unfold has in Hn. by destruct (find _ _).
Qed.

Lemma initialized_clientless e k v v' b : isInitialized u e k v = Ok (v', b) → clientless v → clientless v'.
Proof.
  intros E [Hn Ha]. unfold isInitialized in E. destruct (vv_node v) as [s|] eqn:En.
  - apply bind_inv in E as ([n j] & _ & E). cbv zeta in E. destruct (negb j); [by injection E as <- _|].
    assert (R : ∀ g h, g ≠ MSG_GROUP_VAST_CLIENT → ∀ q, has MSG_GROUP_VAST_CLIENT
      (handlers (fst (registerHandler (H1 := vast_handlers u) (with_queue s q) g h))) = false).
    { intros g h Hg q. unfold registerHandler. destruct (has g _); [done|]. destruct (initHandler _ _) as [q' h']. cbn [fst handlers].
      rewrite has_set. by rewrite (proj2 (Z.eqb_neq _ _) (not_eq_sym Hg)). }
    destruct (relay_in _) as [r|].
    + destruct (negb (R_isJoined r)); [by injection E as <- _|]. destruct (matcher_in _) as [m|]; injection E as <- _; [by split|].
      split; [by apply R|done].
    + destruct (_ =? _); injection E as <- _; [by split|]. split; [by apply R|done].
  - apply bind_inv in E as (v1 & E1 & E). injection E as <- _. unfold start_node in E1.
    destruct (addEntries _ _) as [n es]. apply bind_inv in E1 as (q & _ & E1). by injection E1 as <-.
Qed.

Lemma quiet_tell f v : clientless v → tell f v = Ok v.
Proof. intros [_ Ha]. unfold tell. by rewrite Ha. Qed.

Lemma join_lost e period v v' : join_tasks u e period v = Ok v' → lost v → lost v'.
Proof.
  intros E (Hs & Hi & Hc). unfold join_tasks in E. apply bind_inv in E as ([v1 ok] & E1 & E).
  pose proof (initialized_clientless _ _ _ _ _ E1 Hc) as C1. apply isInitialized_unnoticed in E1 as [[= S1 S2 S3] _].
  assert (L1 : lost v1) by (split; [congruence|split; [congruence|done]]).
  destruct (negb ok); [by injection E as <-|]. apply bind_inv in E as (v2 & E2 & E).
  assert (L2 : lost v2). { destruct (vv_connected v1); [by injection E2 as <-|]. by rewrite quiet_tell, bind_ok in E2 by done; injection E2 as <-. }
  destruct L2 as (Hs2 & Hi2 & Hc2). rewrite bool_decide_eq_true_2 in E by done. destruct (vv_info v2) as [|i l] eqn:Ei; [done|].
  injection E as <-. split; [done|]. split; [congruence|done].
Qed.

Lemma queue_clientless e v v' : queue_tick u e v = Ok v' → clientless v → clientless v' ∧ status v' = status v.
Proof.
  unfold queue_tick. intros E [Hn Ha]. destruct (vv_node v) as [s|] eqn:En; [|injection E as <-; split; [|done]; split; [by rewrite En|done]].
  apply bind_inv in E as (s' & E1 & E). injection E as <-. apply tick_groups in E1 as [E1 _]. split; [|done]. split; [|done]. cbn. by rewrite E1.
Qed.

Lemma tick_lost e v v' b : VV_tick u e v = Ok (v', b) → lost v → lost v'.
Proof.
  intros E L. unfold VV_tick in E. apply bind_inv in E as (v1 & E1 & E). apply join_lost in E1 as (S1 & I1 & C1); [|done].
  apply bind_inv in E as (v2 & E2 & E). apply queue_clientless in E2 as [C2 [= T1 T2 T3]]; [|done].
  rewrite quiet_tell, bind_ok in E by done. unfold app_tasks in E.
  assert (L2 : lost v2) by (split; [congruence|split; [congruence|done]]). clear v1 S1 I1 C1 T1 T2 T3.
  destruct (vv_node v2) as [s|] eqn:En; [|by injection E as <- _].
  apply bind_inv in E as ([v3 ps] & E3 & E). assert (L3 : lost v3).
  { unfold second_tasks in E3. cbv zeta in E3. destruct (_ <=? _); [|by injection E3 as <- _].
    rewrite quiet_tell, bind_ok in E3 by apply L2. by injection E3 as <- _. }
  rewrite quiet_tell, bind_ok in E by apply L3. rewrite (clientless_none v3) in E by apply L3.
  rewrite andb_false_r, bind_ok in E. by injection E as <- _.
Qed.

Lemma the_net_lost f v v' : with_the_net v f = Ok v' → lost v → lost v'.
Proof.
  unfold with_the_net. intros E (S & I & [C A0]). destruct (vv_node v) as [s|] eqn:En.
  - apply bind_inv in E as (n & _ & E). by injection E as <-.
  - injection E as <-. split; [done|]. split; [done|]. split; [by rewrite En|done].
Qed.

Lemma step_lost v ev v' : verse_step u v ev = Ok v' → lost v → lost v'.
Proof.
  intros E L. destruct ev as [e|w a l|e|e|e]; cbn [verse_step] in E.
  - apply bind_inv in E as ([v1 b] & E1 & E). injection E as <-. by apply tick_lost in E1.
  - injection E as <-. unfold createVASTNode. destruct L as (S & I & C). destruct (vv_info v) eqn:Ei; [done|].
    unfold lost. cbn [fst]. by rewrite Ei.
  - unfold getVASTNode in E. destruct L as (S & I & C). rewrite bool_decide_eq_true_2, (clientless_none v C) in E by done.
    by injection E as <-.
  - by apply the_net_lost in E.
  - by apply the_net_lost in E.
Qed.

Lemma run_lost evs v v' : verse_run u v evs = Ok v' → lost v → lost v'.
Proof.
  revert v. induction evs as [|ev evs IH]; intros v; cbn [verse_run]; [by intros [= <-]|].
  intros E L. apply bind_inv in E as (v1 & E1 & E). apply (IH v1); [done|]. by apply (step_lost v ev).
Qed.

(** The map of handlers is ordered, as any [std::map]. *)
Definition ordered_groups v : Prop := match vv_node v with Some s => ordered (handlers s) | None => True end.

Lemma initialized_groups e k v v' b : isInitialized u e k v = Ok (v', b) → ordered_groups v → ordered_groups v'.
Proof.
  unfold ordered_groups. intros E O. unfold isInitialized in E. destruct (vv_node v) as [s|] eqn:En.
  - apply bind_inv in E as ([n j] & _ & E). cbv zeta in E. destruct (negb j); [by injection E as <- _|].
    assert (R : ∀ g h q, ordered (handlers (fst (registerHandler (H1 := vast_handlers u) (with_queue s q) g h)))).
    { intros g h q. unfold registerHandler. destruct (has g _); [done|]. destruct (initHandler _ _) as [q' h']. by apply ordered_set. }
    destruct (relay_in _) as [r|].
    + destruct (negb (R_isJoined r)); [by injection E as <- _|]. destruct (matcher_in _) as [m|]; injection E as <- _; [done|apply R].
    + destruct (_ =? _); injection E as <- _; [done|apply R].
  - apply bind_inv in E as (v1 & E1 & E). injection E as <- _. unfold start_node in E1.
    destruct (addEntries _ _) as [n es]. apply bind_inv in E1 as (q & _ & E1). injection E1 as <-. constructor.
Qed.

(** What is left of [v] when the tick inside a removal does not get far. *)
Definition going v : Prop := vv_state v = JOINED ∧ vv_info v = [] ∧ vv_app v = None ∧ ordered_groups v.

Lemma left_going e v v0 c : vv_app v = None → ordered_groups v → getVASTNode v = Some c → leave_client e v = Ok v0 →
  going (set_vinfo v0 []).
Proof.
  intros Ha Ho Eg E0. unfold getVASTNode in Eg. case_bool_decide as Es; [|done].
  unfold leave_client, ordered_groups in *. destruct (vv_node v) as [s|]; [|done]. destruct (the_client v) as [c0|]; [|done].
  apply bind_inv in E0 as ([q c'] & _ & E0). injection E0 as <-. unfold going. splits; try done. by apply ordered_set.
Qed.

Lemma queue_going e v v' : queue_tick u e v = Ok v' → going v → going v'.
Proof.
  unfold queue_tick, going, ordered_groups. intros E (S & I & A0 & O). destruct (vv_node v) as [s|] eqn:En; [|injection E as <-; rewrite En; by splits].
  apply bind_inv in E as (s' & E1 & E). injection E as <-. apply tick_groups in E1 as [_ E1]. splits; try done. by apply E1.
Qed.

Lemma app_going e v v' b : app_tasks e v = Ok (v', b) → going v → going v'.
Proof.
  intros E (S & I & A0 & O). unfold app_tasks in E. destruct (vv_node v) as [s|] eqn:En; [|by injection E as <- _].
  apply bind_inv in E as ([v1 ps] & E1 & E). assert (G : going v1).
  { unfold second_tasks in E1. cbv zeta in E1. destruct (_ <=? _); [|by injection E1 as <- _].
    unfold tell in E1. change (vv_app (set_vperiodic v ?t ?st)) with (vv_app v) in E1. rewrite A0, bind_ok in E1. by injection E1 as <- _. }
  pose proof G as (_ & _ & A1 & _). unfold tell in E. rewrite A1, bind_ok in E. rewrite A1 in E.
  destruct (_ && _); rewrite bind_ok in E; by injection E as <- _.
Qed.

Lemma stalled_going e v v' vi b : isInitialized u e (te_entry1 e) v = Ok (vi, false) → VV_tick u e v = Ok (v', b) → going v → going v'.
Proof.
  intros Ei E (S & I & A0 & O). unfold VV_tick, join_tasks in E. rewrite Ei, bind_ok in E. cbn [negb] in E. rewrite bind_ok in E.
  pose proof (initialized_groups _ _ _ _ _ Ei O) as Oi. apply isInitialized_unnoticed in Ei as [[= S1 S2 S3] Sa].
  assert (G : going vi) by (unfold going; splits; congruence). apply bind_inv in E as (v5 & E5 & E). apply queue_going in E5; [|done].
  pose proof E5 as (_ & _ & A5 & _). unfold tell at 1 in E. rewrite A5, bind_ok in E. by apply app_going in E.
Qed.

(** C21: A node that is removed at a bad moment never comes back. When the application removes its
    node while the network or the relay is on its way back, the tick inside the removal does not get
    to the end of the node, so that the instance goes on taking it for joined; if the application
    now asks for a node again, the request is accepted, but whatever happens from then on -
    ticks, removals, further requests, stopping and starting the network - there is no node to be
    had. (Without callbacks, so that nobody else intervenes.) *)
Theorem recreated_never_joins e v v0 v1 vi w area l evs v2 :
  vv_app v = None → ordered_groups v → leave_client e v = Ok v0 →
  isInitialized u e (te_entry1 e) (set_vinfo v0 []) = Ok (vi, false) →
  destroyVASTNode u e (getVASTNode v) v = Ok (v1, true) →
  verse_run u (fst (createVASTNode v1 w area l)) evs = Ok v2 →
  snd (createVASTNode v1 w area l) = true ∧ getVASTNode v2 = None ∧ vv_info v2 ≠ [].
Proof.
  intros Ha Ho E0 Ei Ed Er. unfold destroyVASTNode in Ed. destruct (getVASTNode v) as [c|] eqn:Eg; [|done].
  pose proof (left_going _ _ _ _ Ha Ho Eg E0) as G. rewrite E0, bind_ok in Ed.
  destruct (vv_info v0) as [|i li]; [done|]. apply bind_inv in Ed as ([v3 b3] & E3 & Ed).
  destruct (stalled_going _ _ _ _ _ Ei E3 G) as (S3 & I3 & A3 & O3).
  assert (L : lost (fst (createVASTNode v1 w area l)) ∧ snd (createVASTNode v1 w area l) = true).
  { unfold destroyClient, ordered_groups in *. destruct (vv_node v3) as [s|]; [|done]. injection Ed as <-.
    unfold createVASTNode. cbn [vv_info set_vnode]. rewrite I3. split; [|done]. split; [done|]. split; [done|]. split; [|done].
    cbn. unfold unregisterHandler. destruct (has MSG_GROUP_VAST_CLIENT (handlers s)) eqn:Eh; [|done]. cbn. unfold has.
    by rewrite find_erase_eq. }
  destruct L as [L Ec]. apply (run_lost evs _ v2 Er) in L as (S2 & I2 & C2). split; [exact Ec|]. split; [|exact I2].
  unfold getVASTNode. rewrite bool_decide_eq_true_2 by done. by apply clientless_none.
Qed.
End spec.
