(* ===== verification/VerseExamples.v ===== *)
(** A gateway that comes up alone, runs a client and is taken down again, with an application
    that writes down what it is told. *)

From S2P Require Import Prelude Bytes StdMap Float Serial AddrText Geometry Subscription Message VastBuffer NetManager.
From S2P Require Import UdpHandler NetUdp NetInterface VastNet VastSend VastReceive VastJoin VastLink VastExamples.
From S2P Require Import MessageQueue Routing QueueSafe Handlers Client Relay Node Gateway GatewayExamples.
From S2P Require Import VonInterfaces VoronoiSF VoronoiSFSafe VonPeer VonExamples VSOTypes VSOPeer VSOExamples.
From S2P Require Import MatcherHost Matcher MatcherHandle MatcherSafe MatcherRun MatcherExamples Verse VerseLife VerseSafe VerseSpec.
Local Open Scope Z_scope.

(** *** An application that keeps a diary *)

Abbreviation verse := (VASTVerse udp_link VoronoiSF (list app_event)).

Definition note (ev : app_event) (v : verse) : outcome verse := Ok (set_vapp v ((λ l, l ++ [ev]) <$> vv_app v)).

#[export] Instance diary : VASTCallback udp_link VoronoiSF (list app_event) := {
  gatewayConnected i := note (Connected i);
  gatewayDisconnected := note Disconnected;
  nodeJoined := note Joined;
  nodeLeft := note Left;
  performPerTickTasks v := Ok v;
  performPerSecondTasks _ v := Ok v;
  processSocketMessage _ v := Ok (v, true);
  processMessage _ v := Ok (v, true) }.

Lemma note_hears ev (v v' : verse) : note ev v = Ok v' → hears id [ev] v v'.
Proof. intros [= <-]. split; [done|]. cbn. destruct (vv_app v) as [a|]; [by exists (a ++ [ev])|done]. Qed.

Lemma quiet_hears (v v' : verse) : Ok v = Ok v' → hears id [] v v'.
Proof. intros [= <-]. split; [done|]. destruct (vv_app v) as [a|]; [|done]. exists a. by rewrite app_nil_r. Qed.

Lemma quiet_hears2 (v v' : verse) (b b' : bool) : Ok (v, b) = Ok (v', b') → hears id [] v v'.
Proof. intros [= <- _]. by apply quiet_hears. Qed.

#[export] Instance diary_listens : Listens udp_link VoronoiSF (list app_event) := {
  told := id;
  hears_connected i := note_hears (Connected i);
  hears_disconnected := note_hears Disconnected;
  hears_joined := note_hears Joined;
  hears_left := note_hears Left;
  hears_tick := quiet_hears;
  hears_second _ := quiet_hears;
  hears_socket _ v v' b := quiet_hears2 v v' true b;
  hears_message _ v v' b := quiet_hears2 v v' true b }.

(** *** The gateway *)

Definition junk_ex : node_uninit := mkNodeUninit uninit_ex relay_uninit_ex rand_ex junk0 vjunk0 gw_uninit_ex vm_uninit_ex.
Definition pos0 : Position := mkPosition 0 0 0.

(** Its network has not started. *)
Definition link0 : udp_link :=
  mkLink (mkNode_udp (mkUdp (mkNM 0 (Addr_make 0 ipA) false [] [] None) false) (mkUH false ipA [0] [] [] 0)) [].
Definition para0 : VASTPara_Net udp_link := mkPara link0 true true false 10 10 10 pos0 pos0.

Abbreviation env t := (mkTick t 100 0 50 50 50 0 0 pos0 10 10).

Definition new_ex : outcome verse := VV_new true (getString ipA) para0 (Some []).
Definition of_run (o : outcome verse) : verse :=
  match o with Ok v => v | Fail _ => mkVV ABSENT para0 None 0 [] [] IPaddr_null false 0 (mkVStats Stat_reset Stat_reset Stat_reset Stat_reset 0 0) None end.

(** Up, running for a while, and down *)
Definition going_up : list verse_event :=
  Creates 1 (mkArea pos0 10 0) 1 :: ((λ t, Ticks (env t)) <$> [0; 100; 200; 300; 400; 500; 600; 700; 800]).
Definition going_down : list verse_event := [Removes (env 1100); Ticks (env 1200)].

Abbreviation running_ex := (of_run (verse_run junk_ex (of_run new_ex) going_up)).
Abbreviation removed_ex := (of_run (verse_run junk_ex (of_run new_ex) (going_up ++ going_down))).

(** After nine ticks everything runs. *)
Example gateway_runs : vv_state running_ex = JOINED ∧ vv_app running_ex = Some [Connected idA; Joined]
  ∧ (m_world ∘ vm_host <$> (vv_node running_ex ≫= λ s, matcher_in (handlers s))) = Some 1.
Proof. by vm_compute. Qed.

Lemma orderly_life_witness :
  verse_run junk_ex (of_run new_ex) (going_up ++ going_down) = Ok removed_ex
  ∧ vv_app removed_ex = Some [Connected idA; Joined; Left]
  ∧ (∀ a, vv_app removed_ex = Some a → life a = Some (vv_connected removed_ex, bool_decide (vv_state removed_ex = JOINED))).
Proof.
  assert (E0 : new_ex = Ok (of_run new_ex)) by by vm_compute.
  assert (E : verse_run junk_ex (of_run new_ex) (going_up ++ going_down) = Ok removed_ex) by by vm_compute.
  split; [exact E|]. split; [by vm_compute|].
  exact (proj1 (orderly_life junk_ex (going_up ++ going_down) true (getString ipA) para0 [] (of_run new_ex) removed_ex eq_refl E0 E)).
Defined.

(** *** A tick from nothing *)

Lemma note_ok ev (v : verse) : verse_ok v → ∃ v', note ev v = Ok v' ∧ verse_ok v'.
Proof. intros []. eexists. split; [reflexivity|]. by split. Qed.

Lemma kept_ok (v : verse) : verse_ok v → ∃ v', Ok v = Ok v' ∧ used v v'.
Proof. intros O. exists v. split; [done|by apply used_refl]. Qed.

Lemma read_ok (v : verse) : verse_ok v → ∃ v' b, Ok (v, true) = Ok (v', b) ∧ used v v'.
Proof. intros O. exists v, true. split; [done|by apply used_refl]. Qed.

#[export] Instance diary_safe : SafeApp (N := udp_link) (V := VoronoiSF) (A := list app_event) := {
  connected_safe i := note_ok (Connected i);
  joined_safe := note_ok Joined;
  left_safe := note_ok Left;
  per_tick_safe := kept_ok;
  per_second_safe _ := kept_ok;
  socket_safe _ := read_ok;
  message_safe _ := read_ok }.

Lemma new_ex_ok : verse_ok (of_run new_ex).
Proof.
  split; [|split; discriminate|by intros [|]]. intros now. eexists. split; [reflexivity|].
  split; [reflexivity|split; [reflexivity|repeat constructor]].
Qed.

Abbreviation first_ex := (of_run (join_tasks junk_ex (env 0) (retry_period (env 0) (of_run new_ex)) (of_run new_ex))).
Abbreviation ticked_ex := (of_run (queue_tick junk_ex (env 0) first_ex)).

Lemma ticked_ex_ok : verse_ok ticked_ex.
Proof.
  let x := eval vm_compute in ticked_ex in replace ticked_ex with x by by vm_compute.
  split; [|split; discriminate|by intros [|]]. split; [|constructor].
  split; [split; [reflexivity|split; [reflexivity|repeat constructor]]|intros []; split; constructor|reflexivity|constructor].
Qed.

Lemma tick_never_fails_witness : verse_ok (of_run new_ex) ∧
  ∃ v' b, VV_tick junk_ex (env 0) (of_run new_ex) = Ok (v', b) ∧ verse_ok v'.
Proof.
  split; [exact new_ex_ok|].
  destruct (tick_never_fails junk_ex (env 0) (of_run new_ex) new_ex_ok) as (v1 & E1 & O1 & T).
  assert (E : v1 = first_ex) by (rewrite E1; reflexivity).
  apply (T ticked_ex); [|vm_compute; lia|vm_compute; lia].
  split; [rewrite E; by vm_compute|exact ticked_ex_ok].
Defined.

(** *** A removal while the network is stopped *)

Abbreviation paused_ex := (of_run (verse_run junk_ex (of_run (VV_new true (getString ipA) para0 None)) (going_up ++ [Pauses (env 900)]))).
Abbreviation left_ex := (of_run (leave_client (env 1000) paused_ex)).
Abbreviation fst_run o := (match o with Ok (v, _) => v | Fail _ => of_run new_ex end).
Abbreviation gone_ex := (fst_run (destroyVASTNode junk_ex (env 1000) (getVASTNode paused_ex) paused_ex)).
Definition again_ex : list verse_event := Resumes (env 1050) :: ((λ t, Ticks (env t)) <$> [1100; 1200; 1300; 1400; 1500; 1600; 1700; 1800]).
Abbreviation again_run := (verse_run junk_ex (fst (createVASTNode gone_ex 1 (mkArea pos0 10 0) 1)) again_ex).

Lemma recreated_never_joins_witness :
  destroyVASTNode junk_ex (env 1000) (getVASTNode paused_ex) paused_ex = Ok (gone_ex, true)
  ∧ again_run = Ok (of_run again_run) ∧ snd (createVASTNode gone_ex 1 (mkArea pos0 10 0) 1) = true
  ∧ getVASTNode (of_run again_run) = None.
Proof.
  assert (E0 : leave_client (env 1000) paused_ex = Ok left_ex) by by vm_compute.
  assert (E1 : ∃ vi, isInitialized junk_ex (env 1000) (te_entry1 (env 1000)) (set_vinfo left_ex []) = Ok (vi, false)).
  { eexists. vm_compute. reflexivity. }
  destruct E1 as [vi E1].
  assert (E2 : destroyVASTNode junk_ex (env 1000) (getVASTNode paused_ex) paused_ex = Ok (gone_ex, true)) by by vm_compute.
  assert (E3 : again_run = Ok (of_run again_run)) by by vm_compute.
  destruct (recreated_never_joins junk_ex (env 1000) paused_ex left_ex gone_ex vi 1 (mkArea pos0 10 0) 1 again_ex (of_run again_run))
    as (A & B & _); [by vm_compute|vm_compute; repeat constructor|exact E0|exact E1|exact E2|exact E3|].
  split; [exact E2|]. split; [exact E3|]. by split.
Defined.
